(* ===== verification/_CoqProject ===== *)
-Q . S2P
Prelude.v
Interfaces.v
StateMonad.v
Bio.v
BlockCache.v
HostExt3.v
Ext3Tree.v
Ext3Path.v
Ext3Walk.v
Ext3Grow.v
Ext3Chain.v
Ext3Alloc.v
Ext3Blocks.v
Ext3Host.v
Ext3Main.v
Translate.v
Redirect.v
Completion.v
Transfer.v
LoopInfo.v
LoopDev.v
LoopCtl.v
LoopInv.v
LoopIndex.v
SfsDispatch.v
SfsKv.v
SfsDentry.v
SfsDir.v
SfsFile.v
SfsVfs.v
SfsView.v
SfsNamei.v
SfsLookup.v
SfsRecover.v
SfsRename.v
SfsCrash.v
SfsSuper.v
PvfsInode.v
PvfsCache.v
PvfsPart.v
PvfsDcache.v
PvfsDtree.v
PvfsDmove.v
PvfsDbuild.v
PvfsUnused.v
Attr.v
SfsInode.v
PageLru.v
PageLruInv.v
PageLruOps.v
PageLruDrain.v
PageLruSafe.v
PageLruIso.v
PageLruReclaim.v
PageLruMain.v
