(* ===== verification/Prelude.v ===== *)
(** * MultiLanes: verification of the virtualized block device and of SFS

    MultiLanes gives every container its own virtual block device, file system and VFS lane.
    The repository holds a Linux loop driver rewritten so that requests go straight to the
    host block device ("the driver", linux-3.10.103-multilanes-driver-alone), a stacked file
    system that spreads a directory tree over several underlying file systems ("SFS", sfs16),
    and patches of the kernel, among them inode and dentry caches partitioned by super block ("the
    partitioned VFS", linux-3.8.2-multilanes-patch/fs) and LRU lists of pages with a lock per control group
    ("the partitioned page cache", mm).  This library models the driver, SFS, the two caches and the lists
    as Rocq functions and proves what they promise.

    ** Conventions

    C integers are [Z], truncated with [wrapu] and [wraps] where the width matters.  Kernel code
    that may follow a bad pointer returns [res]: [Ok], [Oops] (an invalid access: null, freed,
    past the object) or [NoFuel].  Loops without a structural bound take fuel and the properties
    prove that the run is [Ok]; the exception is [d_move_renames], which takes the results of the two
    calls of [d_ancestor], and with them their fuel, as hypotheses.  Uninitialised memory is a
    parameter and the outcome of allocations an oracle.  Where the code handles a failure the theorems
    cover it; where it uses a result without a test, or goes wrong on the error path, they assume
    success and say so: [kmalloc] in the redirection, the block cache and the listing, queues and
    disks in [loop_control_correct], the lookups below in the repair of links ([lookups_work]),
    [sb_getblk] and [journal_dirty_metadata] in the block tree ([BallocCalm]), the memory for and
    of the flush bio in [control_ops_safe] ([switch_ok]), and a [printk] that comes back in the
    translation ([errors_reported]).  What happens without them is in
    [translation_error_faults], [release_uses_freed_bio], [long_name_overflows], [failed_lookup_faults],
    [splice_error_frees_linked_block] and [no_buffer_faults].  Locks appear
    where a claim depends on them; otherwise an operation is one atomic step and interleavings
    are sequences of operations.  Code outside the repository (the block layer, the allocator and
    journal of the host file system, extended attributes, [iterate]) is a class of operations with a
    class of laws that state its documented behaviour, and each class has an instance.  StateMonad.v is the
    state monad over [res] that most files use, with the weakest precondition [wp] of a run that ends.

    ** The driver (drivers/block/loop.c, include/linux/loop.h, include/linux/block_cache.h)

    A bio for the virtual device is taken by [loop_make_request]; [redirect_bio] cuts it at block
    boundaries, asks the translation cache for the physical block of each, or the translation
    thread when the cache does not know it, builds bios for the host device and submits them;
    [lo_end_bio] collects their completions and ends the original.
    - Interfaces.v: [res]; the classes between the components ([TranslationCache], [HostFS]); [Printk], whether
      the kernel survives the [%n] that the driver passes an [int] for.
    - Bio.v: bios, [bio_add_page] and the limits of the host queue.
    - BlockCache.v: the cache: hash chains and recency list share nodes in a store; refinement to
      a bounded association list ([block_cache_lookup], [add_cache], [init_cache], [free_cache]).
    - HostExt3.v: [ext3_get_block] of fs/ext3/inode.c meets the contract [HostFSOk].
    - Ext3Tree.v (fs/ext3/inode.c): the block tree below it, [ext3_block_to_path] to [ext3_get_blocks_handle].
      Ext3Path.v: blocks and paths; Ext3Walk.v, Ext3Grow.v: what a path leads to, and a tree that grows;
      Ext3Chain.v, Ext3Alloc.v, Ext3Blocks.v: reading, allocating, the whole call; Ext3Host.v: the block tree is a
      host file system of the driver; Ext3Main.v: the properties.  The allocator and the journal are the class [Balloc]
      with the laws [BallocOk]; [BallocCalm] adds that two of the calls do not fail.
    - Translate.v: the translation thread: its queue, prefetching, flushes, the two sides of the
      hand-over ([loop_thread], [cio_make_request]).
    - Redirect.v: [loop_make_request] and [redirect_bio]; the main theorem compares the sectors and
      page fragments submitted with those of the original bio.
    - Completion.v: [lo_end_bio] under any order of completions.
    - Transfer.v: the file-backed path ([lo_send], transfers, discard).
    - LoopInfo.v: the three layouts of the status structure.
    - LoopDev.v, LoopCtl.v, LoopInv.v: devices, files and reference counts; the ioctls, open and
      release; an invariant over any sequence of them, with termination of the recursion check.  The flush bio
      of [loop_flush] goes through [redirect_switch]; what becomes of its memory is a [switch_env].
    - LoopIndex.v: [loop_add], [loop_remove], /dev/loop-control, module set-up.

    ** SFS (sfs16)

    - SfsDispatch.v (dispatch.c): which replica a new object goes to; CPU accounting (which only the unused
      functions with names in _1 do: the ones that are called count nothing).
    - SfsKv.v (kv.c): the pointers between replicas kept as text in extended attributes.
    - SfsDentry.v (dentry.c): references of an SFS dentry to the dentries below.
    - SfsDir.v (dir.c): reading a directory that is the union of several.
    - SfsVfs.v: the kernel below the name operations as the class [Vfs], the tree of SFS dentries, and
      the state monad of namei.c and rename.c; SfsView.v: the laws [VfsOk] and a file system in memory.
    - SfsNamei.v (namei.c): all name operations; SfsLookup.v: termination of [sfs_lookup], the modes
      [sfs_new_inode] refuses.
    - SfsRecover.v: [validate_partitioned_file] refines [recover], a function on views (which replicas hold
      the name, with which links); what [recover] leaves is usable and stable.
    - SfsRename.v (rename.c): locks, renames of directories and files; SfsCrash.v: replicas whose disks lag
      behind until [write_inode_now], and what the repair finds after a crash at any point.
    - SfsFile.v (file.c): reads, writes, seeks and the other calls of regular files; SfsSuper.v (super.c):
      mount options, [statfs], set-up and release of the super block.
    - Attr.v (fs/attr.c, fs/open.c): [notify_change] and its callers; SfsInode.v (inode.c, symlink.c):
      attributes of SFS objects and their replicas, symbolic links.

    ** The partitioned VFS (linux-3.8.2-multilanes-patch/fs)

    - PvfsInode.v (inode.c, [mount_fs] of super.c): the inode cache with a hash table and locks per loop super
      block; threads as state machines whose critical sections interleave.  PvfsCache.v: the invariant of all
      interleavings.  PvfsPart.v: isolation of super blocks, what mounting does to hashed inodes, [iunique].
    - PvfsDcache.v (dcache.c): the dentry cache.  PvfsDtree.v: its invariant (tree and counts, chains, LRU lists
      and counters) through [dput] and shrinking.  PvfsDmove.v: [d_move] and lookups after it.  PvfsDbuild.v:
      allocation, hashing, mounting, the uninitialised pointer of [prune_dcache_sb].  PvfsUnused.v: the race on
      the global counter of unused dentries.

    ** The partitioned page cache (linux-3.8.2-multilanes-patch/mm)

    - PageLru.v (swap.c, vmscan.c, memcontrol.c, mm_inline.h): the LRU lists of pages under a lock per lruvec,
      pagevecs, releasing, isolating, putting back, charging.  PageLruInv.v: the invariant and the primitives;
      PageLruOps.v, PageLruDrain.v, PageLruSafe.v, PageLruIso.v, PageLruReclaim.v: the operations keep it.
      PageLruMain.v: safety of sequences of operations, and the places the new lock does not cover.

    ** What the theorems show

    Correctness of the data path (redirection, completion, translation, cache refinement, host
    contract down to the block tree of ext3), safety and termination of the control path, round trips (status structures, xor
    transfer, attribute text), SFS dispatching, listing, attributes, repair of links and crash safety of
    renames; safety of the inode cache under any interleaving, isolation of its partitions, consistency of the
    dentry cache through renames, puts and shrinking, and of the LRU lists of pages through the operations other than putting
    back after reclaim;
    and, as theorems of their own, the behaviours that are defects of the code (each names the inputs on which
    it shows): errors of a translation that are never reported, a flush bio used after it is dropped, holes read
    from block 0, a refused fragment placed at the start of its block, completions delivered
    twice, device cycles, dangling index entries, listings cut after the first buffer,
    directories hidden after a rewind, buffer overruns, symbolic links that cannot be created,
    a destination lost when a rename over it is interrupted, inodes and dentries hidden by a mount, lost
    updates of a counter under different locks, pages released while reclaim looks at them, pages put back under
    the lock of another group, blocks lost when an indirect block cannot be read again.

    ** Bounds and fuel

    [redirect_bio] gets fuel from the number of sectors and segments of the bio, the thread from the
    length of its queue, [avoid_recursion] from the number of devices, [next_normal] from the
    number of replicas and [dispatch_fresh] twice that, once for the run up to the reset of the
    counter and once after it; [sfs_lookup] twice the number of replicas and two, proved enough.  The way
    up to the root ([sfs_clone_branch], [d_ancestor]) is bounded by a parameter [depth].  [dput] and the loops
    of the shrinkers get the number of dentries and one more, since each round frees a dentry or takes one off
    a list; [iunique] at most 2^32 rounds; [putback_lru_page] one round, since nothing makes the page evictable
    meanwhile, and the loops of reclaim the length of their list.
    [ext3_alloc_blocks] gets one round for each indirect block and one more, since each round but the last one finds
    at least one; the other loops of the block tree are bounded by the distance to the boundary.  Replicas number 64 at most, the width of their bitmaps.

    ** Not modelled

    The splice read path of the driver below [lo_splice_actor]; formatting of sysfs paths; locks and
    memory ordering beyond the interleavings stated.  Of SFS: renames of partitioned files under crashes,
    memory mapping and asynchronous I/O, which only forward.  Of the inode cache: write-back and the shrinker
    of the LRU list.  Of the dentry cache: lookup under RCU, aliases of inodes, [select_parent], path names;
    its operations run one at a time.  The contention scheduler of fs/read_write.c returns in its first
    line.  Of the LRU lists of pages: compound pages, [shrink_page_list], compaction, the moving of pages between
    groups; operations run one at a time but for the interleaving that is shown to fail.  The other files of the
    patch only call [groupfs_get_sblock] or take the lock of an lruvec at single places.  Of ext3: everything but
    [ext3_get_block] and the block tree (truncation, journalling of data, the allocator); reference counts of buffers;
    other threads act on the tree at one point of [ext3_get_blocks_handle], before it takes the mutex.  Of the page
    lists, the loops that put back batches of pages are modelled, without a theorem for pages of one group.
    Interleavings of dentry operations.

    This file: integers, error numbers, association lists, list lemmas, automation. *)
From coqutil Require Export Datatypes.RecordSettersUsingExistingGetters.
From stdpp Require Export numbers gmap list prelude.

#[global] Open Scope Z_scope.
#[global] Arguments RecordSettersUsingExistingGetters.const {_} _ _ /.

(** * Machine integers

    C integers are kept as [Z]; the places where the width matters apply one of
    these truncations. *)
Definition wrapu (w z : Z) : Z := z mod 2 ^ w.
Definition wraps (w z : Z) : Z :=
  let u := z mod 2 ^ w in
  if bool_decide (u < 2 ^ (w - 1)) then u else u - 2 ^ w.

Lemma wrapu_small w z : 0 ≤ z < 2 ^ w → wrapu w z = z.
Proof. apply Z.mod_small. Qed.

Lemma wrapu_bound w z : 0 ≤ w → 0 ≤ wrapu w z < 2 ^ w.
Proof. intros. apply Z.mod_pos_bound, Z.pow_pos_nonneg; lia. Qed.

Lemma wraps_bound w z : 0 < w → - 2 ^ (w - 1) ≤ wraps w z < 2 ^ (w - 1).
Proof.
  intros Hw. unfold wraps.
  assert (2 ^ w = 2 * 2 ^ (w - 1)) as E.
  { rewrite <- Z.pow_succ_r by lia. f_equal. lia. }
  assert (0 < 2 ^ (w - 1)) by (apply Z.pow_pos_nonneg; lia).
  pose proof (Z.mod_pos_bound z (2 ^ w)).
  case_bool_decide; lia.
Qed.

Lemma wraps_small w z : 0 < w → - 2 ^ (w - 1) ≤ z < 2 ^ (w - 1) → wraps w z = z.
Proof.
  intros Hw Hz. unfold wraps.
  assert (2 ^ w = 2 * 2 ^ (w - 1)) as E.
  { rewrite <- Z.pow_succ_r by lia. f_equal. lia. }
  assert (0 < 2 ^ (w - 1)) by (apply Z.pow_pos_nonneg; lia).
  destruct (decide (0 ≤ z)).
  - rewrite Z.mod_small by lia. rewrite bool_decide_true by lia. lia.
  - replace (z mod 2 ^ w) with (z + 2 ^ w).
    { rewrite bool_decide_false by lia. lia. }
    rewrite <- (Z.mod_small (z + 2 ^ w) (2 ^ w)) by lia.
    rewrite <- (Z.mul_1_l (2 ^ w)) at 1. by rewrite Z.mod_add by lia.
Qed.

(** * Error numbers (include/uapi/asm-generic/errno*.h and include/linux/errno.h) *)
Definition EPERM : Z := 1.
Definition ENOENT : Z := 2.
Definition EIO : Z := 5.
Definition ENXIO : Z := 6.
Definition E2BIG : Z := 7.
Definition EBADF : Z := 9.
Definition ENOMEM : Z := 12.
Definition EACCES : Z := 13.
Definition EFAULT : Z := 14.
Definition EBUSY : Z := 16.
Definition EEXIST : Z := 17.
Definition ENODEV : Z := 19.
Definition EINVAL : Z := 22.
Definition EFBIG : Z := 27.
Definition ENOSYS : Z := 38.
Definition EOVERFLOW : Z := 75.
Definition EOPNOTSUPP : Z := 95.
Definition ENOIOCTLCMD : Z := 515.

(** * Association lists *)
Section assoc.
Context {K V : Type} `{EqDecision K}.

(** First binding of [k] in [l]. *)
Fixpoint assoc (k : K) (l : list (K * V)) : option V :=
  match l with
  | [] => None
  | (k', v) :: l' => if decide (k' = k) then Some v else assoc k l'
  end.

Lemma assoc_Some_in k v l : assoc k l = Some v → (k, v) ∈ l.
Proof.
  induction l as [|[k' v'] l IH]; simpl; [done|].
  case_decide; subst; intros Hl; simplify_eq; [left|right; auto].
Qed.

Lemma assoc_None_notin k l : assoc k l = None ↔ k ∉ l.*1.
Proof.
  induction l as [|[k' v'] l IH]; simpl; [set_solver|].
  case_decide; subst; [set_solver|]. rewrite IH. set_solver.
Qed.

Lemma assoc_app k l1 l2 :
  assoc k (l1 ++ l2) = match assoc k l1 with Some v => Some v | None => assoc k l2 end.
Proof. induction l1 as [|[k' v'] l IH]; simpl; [done|]. by case_decide. Qed.

End assoc.

(** * Lists *)
Section lists.
Context {A B : Type}.

Lemma last_inv (l : list A) : l = [] ∨ ∃ l' x, l = l' ++ [x].
Proof. destruct l using rev_ind; eauto. Qed.

Lemma filter_app_single (P : A → Prop) `{∀ x, Decision (P x)} (l : list A) x :
  filter P (l ++ [x]) = filter P l ++ (if decide (P x) then [x] else []).
Proof. rewrite filter_app, filter_cons, filter_nil. by case_decide. Qed.

Lemma filter_ext_in (P Q : A → Prop) `{∀ x, Decision (P x)} `{∀ x, Decision (Q x)} (l : list A) :
  (∀ x, x ∈ l → P x ↔ Q x) → filter P l = filter Q l.
Proof.
  induction l as [|x l IH]; intros HPQ; [done|].
  rewrite !filter_cons, IH by set_solver.
  assert (P x ↔ Q x) by set_solver. do 2 case_decide; tauto || done.
Qed.

Lemma filter_notin_id `{EqDecision A} (x : A) (l : list A) : x ∉ l → filter (.≠ x) l = l.
Proof.
  induction l as [|y l IH]; intros Hx; [done|].
  rewrite filter_cons, decide_True by set_solver. f_equal. set_solver.
Qed.

Lemma filter_filter_comm (P Q : A → Prop) `{∀ x, Decision (P x)} `{∀ x, Decision (Q x)} (l : list A) :
  filter P (filter Q l) = filter Q (filter P l).
Proof.
  induction l as [|x l IH]; [done|]. rewrite !(filter_cons _ x l).
  destruct (decide (P x)), (decide (Q x)); rewrite ?filter_cons, ?IH;
    repeat case_decide; done.
Qed.

Lemma filter_all (P : A → Prop) `{∀ x, Decision (P x)} (l : list A) :
  (∀ x, x ∈ l → P x) → filter P l = l.
Proof.
  induction l as [|x l IH]; intros Hl; [done|].
  rewrite filter_cons, decide_True by set_solver. f_equal. set_solver.
Qed.

(** Sum of [f] over a list, as a C loop accumulates it. *)
Definition sumZ (f : A → Z) (l : list A) : Z := foldr (λ x s, f x + s) 0 l.

Lemma sumZ_app f (l1 l2 : list A) : sumZ f (l1 ++ l2) = sumZ f l1 + sumZ f l2.
Proof. induction l1; simpl; lia. Qed.

Lemma sumZ_insert f (l : list A) i x y :
  l !! i = Some x → sumZ f (<[i := y]> l) = sumZ f l - f x + f y.
Proof. revert i. induction l as [|z l IH]; intros [|i] Hi; simplify_eq/=; [lia|]. rewrite IH by done. lia. Qed.

Lemma sumZ_nonneg f (l : list A) : (∀ x, x ∈ l → 0 ≤ f x) → 0 ≤ sumZ f l.
Proof.
  induction l as [|x l IH]; intros Hf; simpl; [lia|].
  pose proof (Hf x (list_elem_of_here _ _)).
  assert (0 ≤ sumZ f l) by (apply IH; intros; apply Hf; by right). lia.
Qed.

End lists.

(** * Automation

    [take_then] and [take_else] resolve the leading [decide] of a goal from the hypotheses;
    the database [lanes] holds the bounds of the truncations and the arithmetic side
    conditions the components leave. *)
Ltac side := first [done | lia | congruence | by eauto].
Ltac take_then := rewrite decide_True by side.
Ltac take_else := rewrite decide_False by side.

(** * Bits *)

(** [v & bits] as a condition, and [v & ~bits]. *)
Definition has (v bits : Z) : bool := negb (Z.land v bits =? 0).
Definition clear (v bits : Z) : Z := Z.ldiff v bits.

Lemma has_lor v a b : has v (Z.lor a b) = has v a || has v b.
Proof.
  unfold has. rewrite Z.land_lor_distr_r. destruct (Z.eqb_spec (Z.land v a) 0) as [->|Ha]; [done|].
  destruct (Z.eqb_spec (Z.lor (Z.land v a) (Z.land v b)) 0) as [E|]; [|done]. by apply Z.lor_eq_0_l in E.
Qed.

Lemma has_clear v x b : Z.land x b = 0 → has (clear v x) b = has v b.
Proof.
  intros Hx. unfold has, clear. do 2 f_equal. apply Z.bits_inj'. intros n Hn. rewrite !Z.land_spec, Z.ldiff_spec.
  assert (Z.testbit x n && Z.testbit b n = false) as H by (rewrite <- Z.land_spec, Hx; apply Z.bits_0).
  destruct (Z.testbit v n), (Z.testbit x n), (Z.testbit b n); done.
Qed.

Lemma has_sub v x b : clear v x = 0 → Z.land x b = 0 → has v b = false.
Proof. intros Hc Hx. rewrite <- (has_clear v x b Hx), Hc. done. Qed.

Lemma clear_idem v x : clear (clear v x) x = clear v x.
Proof.
  unfold clear. apply Z.bits_inj'. intros n Hn. rewrite !Z.ldiff_spec. by destruct (Z.testbit v n), (Z.testbit x n).
Qed.

Lemma clear_none v x : has v x = false → clear v x = v.
Proof.
  unfold has, clear. intros H%negb_false_iff%Z.eqb_eq. apply Z.bits_inj'. intros n Hn. rewrite Z.ldiff_spec.
  assert (Z.testbit v n && Z.testbit x n = false) as Hn' by (rewrite <- Z.land_spec, H; apply Z.bits_0).
  by destruct (Z.testbit v n), (Z.testbit x n).
Qed.

Lemma has_lor_l v x b : has (Z.lor v x) b = has v b || has x b.
Proof. unfold has. rewrite Z.land_comm, (Z.land_comm v), (Z.land_comm x). apply has_lor. Qed.

Create HintDb lanes.
Create Rewrite HintDb lanes.
#[export] Hint Resolve wrapu_bound wraps_bound wrapu_small wraps_small sumZ_nonneg : lanes.
#[export] Hint Extern 4 (_ ≤ _) => lia : lanes.
#[export] Hint Extern 4 (_ < _) => lia : lanes.
#[export] Hint Rewrite @sumZ_app @assoc_app @filter_app_single : lanes.
