(* ===== verification/Interfaces.v ===== *)
(** * Interfaces between the components of the driver

    What the translation thread and the request path of drivers/block/loop.c rely on:
    - [TranslationCache]: the block-translation cache (implemented by BlockCache.v);
    - [HostFS]: the host file system that holds the image file, through the [get_block]
      inode operation the repository adds to ext3 and through [vfs_fsync];
    - [Printk]: what [printk] does with a conversion that stores through its argument.
    Each interface has an operational class and a class of laws; the clients are proved
    against the laws. *)
From S2P Require Import Prelude.

(** ** Outcomes of kernel code

    [Oops] is an invalid memory access (null, dangling or foreign pointer); [NoFuel] is a
    model that was given too little fuel, never a result of the code. *)
Inductive res (A : Type) : Type :=
  | Ok (a : A)
  | Oops
  | NoFuel.
Arguments Ok {A} a.
Arguments Oops {A}.
Arguments NoFuel {A}.

#[global] Instance res_ret : MRet res := λ A a, Ok a.
#[global] Instance res_bind : MBind res := λ A B f m,
  match m with Ok a => f a | Oops => Oops | NoFuel => NoFuel end.

Definition lift {A} (o : option A) : res A := match o with Some a => Ok a | None => Oops end.

Lemma bind_Ok {A B} (f : A → res B) a : (Ok a ≫= f) = f a.
Proof. reflexivity. Qed.

Lemma res_bind_Ok {A B} (f : A → res B) m b :
  (m ≫= f) = Ok b ↔ ∃ a, m = Ok a ∧ f a = Ok b.
Proof.
  destruct m; cbn; naive_solver.
Qed.

(** ** The translation cache *)
Class TranslationCache (C : Type) := {
  (** [find_cache_node] and the block number of the node found *)
  tc_find : C → Z → option (option Z);
  (** [add_cache blknr blklocal] *)
  tc_add : Z → Z → C → option C;
  tc_wf : C → Prop;
  (** the cache binds a block of the image to a block of the host device *)
  tc_bound : C → Z → Z → Prop;
}.

Class TranslationCacheOk (C : Type) `{TranslationCache C} := {
  tc_find_spec c blk : tc_wf c → ∃ r, tc_find c blk = Some r ∧
    match r with Some v => tc_bound c blk v | None => ∀ v, ¬ tc_bound c blk v end;
  tc_add_spec c blknr blk : tc_wf c → ∃ c', tc_add blknr blk c = Some c' ∧ tc_wf c' ∧
    tc_bound c' blk blknr ∧
    (∀ k v, tc_bound c' k v → (k = blk ∧ v = blknr) ∨ tc_bound c k v);
}.

(** ** The kernel log

    lib/vsprintf.c is not part of the sources.  The error path of the translation thread
    hands an [int] to a [%n] conversion, which takes the address of an [int] and stores the
    number of characters there; [printk_n v] says that [printk], given [v] in that place,
    comes back (a version that ignores [%n] always does). *)
Class Printk := printk_n : Z → bool.

(** ** The host file system *)
Record gb_result := GbResult {
  gb_ret : Z;       (** value returned by [get_block] *)
  gb_blocknr : Z;   (** [bh_result.b_blocknr], set to 0 by the caller beforehand *)
  gb_size : Z;      (** [bh_result.b_size] in bytes *)
}.

Class HostFS (FS : Type) := {
  i_blkbits : Z;
  (** [inode->i_op->get_block (inode, iblock, &bh_result, create)], with [b_size] given *)
  get_block : FS → Z → Z → Z → FS * gb_result;
  (** [vfs_fsync (file, 0)] *)
  vfs_fsync : FS → FS * Z;
  (** the block map of the image file *)
  block_of : FS → Z → option Z;
}.

Class HostFSOk (FS : Type) `{HostFS FS} := {
  i_blkbits_range : 9 ≤ i_blkbits ≤ 12;
  block_of_pos fs k v : block_of fs k = Some v → 0 < v;
  (** an allocated block stays where it is *)
  get_block_mono fs blk size create k v :
    block_of fs k = Some v → block_of (get_block fs blk size create).1 k = Some v;
  (** blocks mapped: a run that starts at the block asked for *)
  get_block_mapped fs blk size create fs' r :
    get_block fs blk size create = (fs', r) → gb_ret r = 0 → gb_blocknr r ≠ 0 →
    1 ≤ size ≫ i_blkbits < 2 ^ 32 →
    1 ≤ gb_size r ≫ i_blkbits ≤ size ≫ i_blkbits ∧
    ∀ j, 0 ≤ j < gb_size r ≫ i_blkbits → block_of fs' (blk + j) = Some (gb_blocknr r + j);
  (** a plain lookup of a hole: nothing is mapped and [b_size] is left as it was *)
  get_block_hole fs blk size create fs' r :
    get_block fs blk size create = (fs', r) → gb_ret r = 0 → gb_blocknr r = 0 →
    create = 0 ∧ gb_size r = size ∧ block_of fs' blk = None;
  (** a plain lookup allocates nothing *)
  get_block_lookup fs blk size k :
    block_of (get_block fs blk size 0).1 k = block_of fs k;
  vfs_fsync_map fs k : block_of (vfs_fsync fs).1 k = block_of fs k;
}.
