(* ===== verification/StateMonad.v ===== *)
(** * Code that passes a state on

    The state monad over [res], with the weakest precondition of a run that ends: [wp m Q s] says that
    [m] from [s] returns and that [Q] holds of the value and the new state. *)
From S2P Require Import Prelude Interfaces.

Definition ST (S A : Type) : Type := S → res (A * S).

#[global] Instance ST_ret {S} : MRet (ST S) := λ A a s, Ok (a, s).
#[global] Instance ST_bind {S} : MBind (ST S) := λ A B f m s, '(a, s) ← m s; f a s.

Section monad.
Context {S : Type}.

Definition st_get {A} (f : S → A) : ST S A := λ s, Ok (f s, s).
Definition st_modify (f : S → S) : ST S () := λ s, Ok ((), f s).
Definition st_lift {A} (r : res A) : ST S A := λ s, a ← r; Ok (a, s).
(** A pointer, followed. *)
Definition st_deref {A} (f : S → option A) : ST S A := λ s, a ← lift (f s); Ok (a, s).
Definition st_oops {A} : ST S A := λ _, Oops.

Definition wp {A} (m : ST S A) (Q : A → S → Prop) (s : S) : Prop := ∃ a s', m s = Ok (a, s') ∧ Q a s'.

Lemma wp_bind {A B} (m : ST S A) (k : A → ST S B) Q s : wp m (λ a, wp (k a) Q) s → wp (m ≫= k) Q s.
Proof.
  intros (a & s1 & E & b & s2 & E' & H). exists b, s2. split; [|done]. unfold mbind, ST_bind. by rewrite E.
Qed.

Lemma wp_ret {A} (a : A) Q s : Q a s → wp (mret a) Q s.
Proof. intros H. by exists a, s. Qed.

Lemma wp_get {A} (f : S → A) Q s : Q (f s) s → wp (st_get f) Q s.
Proof. intros H. by eexists _, _. Qed.

Lemma wp_modify f Q s : Q () (f s) → wp (st_modify f) Q s.
Proof. intros H. by eexists _, _. Qed.

Lemma wp_lift {A} (r : res A) a Q s : r = Ok a → Q a s → wp (st_lift r) Q s.
Proof. intros -> H. by exists a, s. Qed.

Lemma wp_deref {A} (f : S → option A) a Q s : f s = Some a → Q a s → wp (st_deref f) Q s.
Proof. intros E H. exists a, s. split; [|done]. unfold st_deref. by rewrite E. Qed.

Lemma wp_mono {A} (m : ST S A) (Q R : A → S → Prop) s : wp m Q s → (∀ a s', Q a s' → R a s') → wp m R s.
Proof. intros (a & s' & E & H) HR. exists a, s'. auto. Qed.

Lemma wp_if {A} (b : bool) (m1 m2 : ST S A) Q s :
  (b = true → wp m1 Q s) → (b = false → wp m2 Q s) → wp (if b then m1 else m2) Q s.
Proof. destruct b; auto. Qed.

Lemma wp_Ok {A} (m : ST S A) Q s a s' : wp m Q s → m s = Ok (a, s') → Q a s'.
Proof. intros (a' & s1 & E & H) E'. rewrite E in E'. by injection E' as -> ->. Qed.

Lemma ST_bind_Ok {A B} (m : ST S A) (k : A → ST S B) s a s1 : m s = Ok (a, s1) → (m ≫= k) s = k a s1.
Proof. intros E. unfold mbind, ST_bind. by rewrite E. Qed.

Lemma ST_bind_Oops {A B} (m : ST S A) (k : A → ST S B) s : m s = Oops → (m ≫= k) s = Oops.
Proof. intros E. unfold mbind, ST_bind. by rewrite E. Qed.

Lemma ST_bind_inv {A B} (m : ST S A) (k : A → ST S B) s b s2 :
  (m ≫= k) s = Ok (b, s2) → ∃ a s1, m s = Ok (a, s1) ∧ k a s1 = Ok (b, s2).
Proof. unfold mbind, ST_bind. intros ([a s1] & E & E')%res_bind_Ok. by exists a, s1. Qed.
End monad.

#[export] Hint Resolve wp_ret wp_get wp_modify : lanes.
