(* ===== verification/Bio.v ===== *)
(** * Block I/O requests

    The part of [struct bio] and of fs/bio.c the driver uses: segments, [bio_alloc],
    [__bio_add_page], [bio_rw].  The request queue of the host device is code outside the
    repository: its limits and its optional [merge_bvec_fn] are the class [HostQueue].
    [bio_map] is the meaning of a bio: which page fragment each device sector is exchanged
    with. *)
From S2P Require Import Prelude.

Definition READ : Z := 0.
Definition WRITE : Z := 1.
Definition REQ_WRITE : Z := 1.
Definition REQ_DISCARD : Z := Z.shiftl 1 7.
Definition REQ_FUA : Z := Z.shiftl 1 11.
Definition REQ_FLUSH : Z := Z.shiftl 1 12.
Definition REQ_RAHEAD : Z := Z.shiftl 1 13.
Definition RW_MASK : Z := REQ_WRITE.
Definition RWA_MASK : Z := REQ_RAHEAD.
Definition READA : Z := RWA_MASK.
Definition BIO_MAX_PAGES : Z := 256.

Record bio_vec := BioVec {
  bv_page : Z;      (** identity of the page *)
  bv_len : Z;
  bv_offset : Z;
}.

#[global] Instance bio_vec_eq_dec : EqDecision bio_vec.
Proof. solve_decision. Defined.

(** [bi_vcnt] is the length of [bi_io_vec]. *)
Record bio := Bio {
  bi_sector : Z;
  bi_bdev : option Z;
  bi_rw : Z;
  bi_io_vec : list bio_vec;
  bi_idx : nat;
  bi_max_vecs : Z;
  bi_size : Z;
  bi_phys_segments : Z;
  bi_cloned : bool;
}.

#[global] Instance bio_eq_dec : EqDecision bio.
Proof. solve_decision. Defined.

Definition bi_vcnt (b : bio) : Z := Z.of_nat (length (bi_io_vec b)).

(** [bio_for_each_segment]: the segments from [bi_idx] on. *)
Definition bio_segments (b : bio) : list bio_vec := drop (bi_idx b) (bi_io_vec b).

Definition bio_rw (b : bio) : Z := Z.land (bi_rw b) (Z.lor RW_MASK RWA_MASK).

(** [bio_alloc_bioset] on [fs_bio_set] after [bio_init]; [ok] says that the pools had
    memory. *)
Definition bio_alloc (ok : bool) (nr_iovecs : Z) : option bio :=
  if ok then
    if decide (nr_iovecs ≤ BIO_MAX_PAGES) then Some (Bio 0 None 0 [] 0 nr_iovecs 0 0 false)
    else None
  else None.

(** ** The request queue of the host device *)
Class HostQueue := {
  queue_max_sectors : Z;
  queue_max_segments : Z;
  (** [merge_bvec_fn q bvm bvec], the fields of [bvm] being [bi_sector], [bi_size], [bi_rw] *)
  merge_bvec_fn : option (Z → Z → Z → bio_vec → Z);
  blk_recount_segments : bio → Z;
}.

Section add_page.
Context `{HostQueue}.

Definition merge_refuses (sector size rw : Z) (v : bio_vec) : bool :=
  match merge_bvec_fn with
  | Some f => bool_decide (f sector size rw v < bv_len v)
  | None => false
  end.

(** Is the fragment the continuation of the last segment? *)
Definition continues (prev : bio_vec) (page offset : Z) : bool :=
  bool_decide (page = bv_page prev) && bool_decide (offset = bv_offset prev + bv_len prev).

(** The loop that recounts the segments at most once. *)
Definition recount (b : bio) : option bio :=
  if decide (queue_max_segments ≤ bi_phys_segments b) then
    let b := b <| bi_phys_segments := blk_recount_segments b |> in
    if decide (queue_max_segments ≤ bi_phys_segments b) then None else Some b
  else Some b.

(** The part of [__bio_add_page] that appends a new segment. *)
Definition add_segment (b : bio) (page len offset : Z) : bio * Z :=
  if decide (bi_max_vecs b ≤ bi_vcnt b) then (b, 0) else
  match recount b with
  | None => (b <| bi_phys_segments := blk_recount_segments b |>, 0)
  | Some b =>
      let v := BioVec page len offset in
      if merge_refuses (bi_sector b) (bi_size b) (bi_rw b) v then (b, 0)
      else (b <| bi_io_vec ::= λ l, l ++ [v] |> <| bi_phys_segments ::= Z.succ |>
              <| bi_size ::= Z.add len |>, len)
  end.

Definition bio_add_page (b : bio) (page len offset : Z) : bio * Z :=
  if bi_cloned b then (b, 0) else
  if decide (queue_max_sectors < (bi_size b + len) ≫ 9) then (b, 0) else
  match last (bi_io_vec b) with
  | Some prev =>
      if continues prev page offset then
        let prev' := prev <| bv_len ::= Z.add len |> in
        if merge_refuses (bi_sector b) (bi_size b - bv_len prev) (bi_rw b) prev' then (b, 0)
        else (b <| bi_io_vec := removelast (bi_io_vec b) ++ [prev'] |>
                <| bi_size ::= Z.add len |>, len)
      else add_segment b page len offset
  | None => add_segment b page len offset
  end.

End add_page.

(** ** The meaning of a bio *)

(** The [n] sectors of a page from [offset]. *)
Fixpoint page_sectors (n : nat) (page offset : Z) : list (Z * Z) :=
  match n with
  | O => []
  | S n => (page, offset) :: page_sectors n page (offset + 512)
  end.

Definition vec_data (v : bio_vec) : list (Z * Z) :=
  page_sectors (Z.to_nat (bv_len v ≫ 9)) (bv_page v) (bv_offset v).

Definition vecs_data (l : list bio_vec) : list (Z * Z) := concat (vec_data <$> l).

(** Fragment [d] number [k] is exchanged with sector [s + k]. *)
Definition place (s : Z) (d : list (Z * Z)) : list (Z * (Z * Z)) :=
  imap (λ k x, (s + Z.of_nat k, x)) d.

Definition bio_map (b : bio) : list (Z * (Z * Z)) := place (bi_sector b) (vecs_data (bio_segments b)).

(** A segment of a whole, positive number of sectors. *)
Definition vec_aligned (v : bio_vec) : Prop := 0 < bv_len v ∧ bv_len v mod 512 = 0.

#[global] Instance vec_aligned_dec v : Decision (vec_aligned v).
Proof. unfold vec_aligned. apply _. Defined.

(** *** Lemmas *)
Lemma page_sectors_length n page offset : length (page_sectors n page offset) = n.
Proof. revert offset. induction n; intros; simpl; auto. Qed.

Lemma page_sectors_app n m page offset :
  page_sectors (n + m) page offset =
  page_sectors n page offset ++ page_sectors m page (offset + 512 * Z.of_nat n).
Proof.
  revert offset. induction n as [|n IH]; intros; simpl.
  - f_equal. lia.
  - rewrite IH. by replace (offset + 512 + 512 * Z.of_nat n) with (offset + 512 * Z.of_nat (S n)) by lia.
Qed.

Lemma vecs_data_app l1 l2 : vecs_data (l1 ++ l2) = vecs_data l1 ++ vecs_data l2.
Proof. unfold vecs_data. by rewrite fmap_app, concat_app. Qed.

Lemma vecs_data_cons v l : vecs_data (v :: l) = vec_data v ++ vecs_data l.
Proof. done. Qed.

Lemma vecs_data_single v : vecs_data [v] = vec_data v.
Proof. unfold vecs_data. simpl. by rewrite app_nil_r. Qed.

Lemma place_app s d1 d2 :
  place s (d1 ++ d2) = place s d1 ++ place (s + Z.of_nat (length d1)) d2.
Proof.
  unfold place. rewrite imap_app. f_equal. apply imap_ext. intros. simpl. f_equal. lia.
Qed.

Lemma place_length s d : length (place s d) = length d.
Proof. unfold place. by rewrite length_imap. Qed.

(** A fragment of [n] sectors cut off the front of a segment. *)
Lemma vec_data_split page offset (n : nat) len :
  512 * Z.of_nat n ≤ len →
  vec_data (BioVec page len offset) =
    page_sectors n page offset ++
    vec_data (BioVec page (len - 512 * Z.of_nat n) (offset + 512 * Z.of_nat n)).
Proof.
  intros Hn. unfold vec_data; simpl. rewrite <- page_sectors_app. f_equal.
  rewrite !Z.shiftr_div_pow2 by lia. change (2 ^ 9) with 512.
  replace (len / 512) with ((len - 512 * Z.of_nat n) / 512 + Z.of_nat n).
  - pose proof (Z.div_pos (len - 512 * Z.of_nat n) 512). lia.
  - rewrite <- Z.div_add by lia. f_equal. lia.
Qed.

(** The data of a segment that grew by [n] sectors. *)
Lemma vec_data_grow page offset (n : nat) len :
  0 ≤ len → len mod 512 = 0 →
  vec_data (BioVec page (512 * Z.of_nat n + len) offset) =
    vec_data (BioVec page len offset) ++ page_sectors n page (offset + len).
Proof.
  intros Hl Hm. unfold vec_data; simpl. rewrite !Z.shiftr_div_pow2 by lia.
  change (2 ^ 9) with 512. apply Z.div_exact in Hm; [|lia].
  pose proof (Z.div_pos len 512).
  replace (512 * Z.of_nat n + len) with (len + Z.of_nat n * 512) by lia.
  rewrite Z.div_add by lia.
  rewrite (Z2Nat.inj_add) by lia. rewrite Nat2Z.id, page_sectors_app.
  by replace (offset + 512 * Z.of_nat (Z.to_nat (len / 512))) with (offset + len) by lia.
Qed.
