(* ===== verification/BlockCache.v ===== *)
(** * The block-translation cache of the virtualized device

    Models [struct block_cache_node] (include/linux/block_cache.h) and the functions
    [cache_hash_func], [init_cache], [add_cache], [find_cache_node], [free_cache] and
    [block_cache_lookup] of drivers/block/loop.c: a hash table of [CACHE_COUNT] chains whose
    nodes are also linked on one recency list, bounded by [LRU_LENGTH].  Nodes live in a
    store addressed by identifiers, because the two structures share them and because
    eviction re-uses a node in place.  The main theorems relate the structure to a bounded
    association list. *)
From S2P Require Import Prelude Interfaces.

Definition node_id := nat.

Record block_cache_node := BlockCacheNode {
  b_blocknr : Z;
  blk_local : Z;
}.

#[global] Instance block_cache_node_eq_dec : EqDecision block_cache_node.
Proof. solve_decision. Defined.

Definition CACHE_COUNT : Z := 40000.
Definition LRU_LENGTH : Z := 1000 * 1024.

(** The part of [struct loop_device] the cache uses.  [lru] is [None] while the list head
    still holds the null pointers [kzalloc] left there. *)
Record cache := Cache {
  nodes : gmap node_id block_cache_node;
  block_cache : gmap Z (list node_id);
  lru : option (list node_id);
  lru_count : Z;
}.

Definition cache_hash_func (nr : Z) : Z := nr mod CACHE_COUNT.

(** The chain of bucket [h]; an absent key is an empty chain. *)
Definition chain (bc : gmap Z (list node_id)) (h : Z) : list node_id := default [] (bc !! h).

(** [kzalloc] of a [loop_device]. *)
Definition zeroed_cache : cache := Cache ∅ ∅ None 0.

(** [INIT_HLIST_HEAD] on every bucket, [i] from 0 to [CACHE_COUNT - 1]. *)
Definition init_cache (c : cache) : cache :=
  c <| block_cache ::= λ bc, foldl (λ bc i, <[i := []]> bc) bc (seqZ 0 CACHE_COUNT) |>.

#[global] Arguments init_cache : simpl never.

(** [hlist_for_each_entry] over one chain.  The outer option is [None] when a chain names a
    node that is not in the store (a dangling pointer). *)
Fixpoint find_in_chain (ns : gmap node_id block_cache_node) (nr : Z) (l : list node_id)
    : option (option node_id) :=
  match l with
  | [] => Some None
  | id :: l' =>
      match ns !! id with
      | None => None
      | Some n => if decide (blk_local n = nr) then Some (Some id) else find_in_chain ns nr l'
      end
  end.

Definition find_cache_node (nr : Z) (c : cache) : option (option node_id) :=
  find_in_chain (nodes c) nr (chain (block_cache c) (cache_hash_func nr)).

(** [node->b_blocknr], read after [find_cache_node] has released the bucket lock. *)
Definition read_blocknr (c : cache) (id : node_id) : option Z := b_blocknr <$> nodes c !! id.

Definition block_cache_lookup (c : cache) (blk : Z) : option Z :=
  node ← find_cache_node blk c;
  match node with
  | Some id => read_blocknr c id
  | None => Some 0
  end.

Definition hlist_del (id : node_id) (bc : gmap Z (list node_id)) : gmap Z (list node_id) :=
  filter (.≠ id) <$> bc.

Definition hlist_add_head (id : node_id) (h : Z) (bc : gmap Z (list node_id))
    : gmap Z (list node_id) :=
  <[h := id :: chain bc h]> bc.

(** The first half of [add_cache]: obtain a node, fresh from [kmalloc] while fewer than
    [cap] nodes exist, otherwise the tail of the recency list, unlinked from both
    structures.  [mem] is what [kmalloc] returns; its result is not checked, so a failed
    allocation is a null dereference, [None]. *)
Definition take_node (cap : Z) (mem : option node_id) (c : cache) : option (node_id * cache) :=
  if decide (lru_count c < cap) then
    id ← mem;
    Some (id, c <| nodes ::= <[id := BlockCacheNode 0 0]> |> <| lru_count ::= Z.succ |>)
  else
    l ← lru c;
    id ← last l;
    Some (id, c <| lru := Some (filter (.≠ id) l) |> <| block_cache ::= hlist_del id |>).

Definition add_cache (cap : Z) (mem : option node_id) (blknr blklocal : Z) (c : cache)
    : option cache :=
  '(id, c) ← take_node cap mem c;
  let c := c <| nodes ::= <[id := BlockCacheNode blknr blklocal]> |> in
  let c := c <| block_cache ::= hlist_add_head id (cache_hash_func blklocal) |> in
  l ← lru c;
  Some (c <| lru := Some (id :: l) |>).

(** What [loop_set_fd] does to the cache of the device it binds: it resets the counter and
    the recency list and empties the buckets.  The nodes of an earlier binding are not
    freed. *)
Definition cache_setup (c : cache) : cache :=
  init_cache (c <| lru_count := 0 |> <| lru := Some [] |>).

(** [free_cache] starts from [lru.next] and stops at a null pointer.  On a zeroed device the
    loop body never runs; an initialised circular list holds no null pointer, so the walk
    reaches the list head, takes it for a node and corrupts memory: [None]. *)
Definition free_cache (c : cache) : option cache :=
  match lru c with
  | None => Some c
  | Some _ => None
  end.

(** ** Well-formedness and abstraction *)

Definition node_hash (ns : gmap node_id block_cache_node) (id : node_id) : option Z :=
  (λ n, cache_hash_func (blk_local n)) <$> ns !! id.

(** The recency list holds allocated nodes, each once, the counter is its length, and every
    chain is the sub-list of the recency list that hashes to its bucket, in the same order.
    (Allocated nodes need not all be on the list: see [rebinding_leaks_nodes].) *)
Record cache_inv (cap : Z) (c : cache) (l : list node_id) : Prop := CacheInv {
  inv_lru : lru c = Some l;
  inv_nodup : NoDup l;
  inv_alive : ∀ id, id ∈ l → is_Some (nodes c !! id);
  inv_count : lru_count c = Z.of_nat (length l);
  inv_cap : Z.of_nat (length l) ≤ cap;
  inv_chain : ∀ h, chain (block_cache c) h = filter (λ id, node_hash (nodes c) id = Some h) l;
}.

Definition cache_wf (cap : Z) (c : cache) : Prop := ∃ l, cache_inv cap c l.

Definition binding (ns : gmap node_id block_cache_node) (id : node_id) : option (Z * Z) :=
  (λ n, (blk_local n, b_blocknr n)) <$> ns !! id.

(** The bindings held, most recent first. *)
Definition contents (c : cache) : list (Z * Z) := omap (binding (nodes c)) (default [] (lru c)).

(** The abstract cache: the [cap] most recent bindings. *)
Definition spec_add (cap : Z) (blknr blklocal : Z) (s : list (Z * Z)) : list (Z * Z) :=
  take (Z.to_nat cap) ((blklocal, blknr) :: s).
Definition spec_lookup (s : list (Z * Z)) (blk : Z) : Z := default 0 (assoc blk s).

(** ** Lemmas *)
Section lemmas.
Implicit Types (ns : gmap node_id block_cache_node) (l : list node_id) (bc : gmap Z (list node_id)).

Lemma find_in_chain_filter ns nr l :
  (∀ id, id ∈ l → is_Some (ns !! id)) →
  match assoc nr (omap (binding ns) l) with
  | Some v => ∃ id n,
      find_in_chain ns nr (filter (λ id, node_hash ns id = Some (cache_hash_func nr)) l)
        = Some (Some id) ∧ ns !! id = Some n ∧ b_blocknr n = v
  | None => find_in_chain ns nr (filter (λ id, node_hash ns id = Some (cache_hash_func nr)) l)
        = Some None
  end.
Proof.
  induction l as [|id l IH]; intros Hal; [done|].
  destruct (Hal id) as [n Hn]; [left|].
  assert (binding ns id = Some (blk_local n, b_blocknr n)) as Hb
    by (unfold binding; by rewrite Hn).
  assert (node_hash ns id = Some (cache_hash_func (blk_local n))) as Hh
    by (unfold node_hash; by rewrite Hn).
  csimpl. rewrite Hb. csimpl.
  destruct (decide (blk_local n = nr)) as [<-|Hne].
  - exists id, n. rewrite filter_cons_True by done. simpl.
    by rewrite Hn, decide_True.
  - specialize (IH (λ i Hi, Hal i (list_elem_of_further _ _ _ Hi))).
    rewrite filter_cons. case_decide; [|exact IH].
    simpl. rewrite Hn, decide_False by done. exact IH.
Qed.

Lemma omap_binding_ext ns ns' l :
  (∀ id, id ∈ l → ns !! id = ns' !! id) → omap (binding ns) l = omap (binding ns') l.
Proof.
  induction l as [|id l IH]; intros Hext; [done|]. csimpl.
  assert (binding ns id = binding ns' id) as -> by (unfold binding; rewrite Hext; [done|left]).
  rewrite IH; [done|]. intros; apply Hext; by right.
Qed.

Lemma length_omap_binding ns l :
  (∀ id, id ∈ l → is_Some (ns !! id)) → length (omap (binding ns) l) = length l.
Proof.
  induction l as [|id l IH]; intros Hal; [done|]. csimpl. unfold binding at 1.
  destruct (Hal id) as [n ->]; [left|]. csimpl. f_equal. apply IH.
  intros; apply Hal; by right.
Qed.

Lemma omap_binding_take ns l k :
  (∀ id, id ∈ l → is_Some (ns !! id)) →
  omap (binding ns) (take k l) = take k (omap (binding ns) l).
Proof.
  revert k. induction l as [|i l IH]; intros [|k] Hs; try done. csimpl.
  destruct (Hs i) as [n Hn]; [left|].
  assert (binding ns i = Some (blk_local n, b_blocknr n)) as ->
    by (unfold binding; by rewrite Hn).
  csimpl. f_equal.
  apply IH. intros; apply Hs; by right.
Qed.

Lemma chain_hlist_del id bc h : chain (hlist_del id bc) h = filter (.≠ id) (chain bc h).
Proof. unfold chain, hlist_del. rewrite lookup_fmap. by destruct (bc !! h). Qed.

Lemma chain_hlist_add_head id h bc h' :
  chain (hlist_add_head id h bc) h' = if decide (h = h') then id :: chain bc h' else chain bc h'.
Proof.
  unfold hlist_add_head, chain at 1. rewrite lookup_insert.
  case_decide; subst; done.
Qed.

Lemma node_hash_insert_ne ns id n id' :
  id ≠ id' → node_hash (<[id := n]> ns) id' = node_hash ns id'.
Proof. intros. unfold node_hash. by rewrite lookup_insert_ne. Qed.

(** Linking a node [id], absent from both structures, at the head of both. *)
Lemma link_inv cap c l id n :
  lru c = Some l → NoDup (id :: l) →
  (∀ i, i ∈ l → is_Some (nodes c !! i)) →
  lru_count c = Z.of_nat (S (length l)) → Z.of_nat (S (length l)) ≤ cap →
  (∀ h, chain (block_cache c) h = filter (λ i, node_hash (nodes c) i = Some h) l) →
  cache_inv cap
    (Cache (<[id := n]> (nodes c))
       (hlist_add_head id (cache_hash_func (blk_local n)) (block_cache c))
       (Some (id :: l)) (lru_count c)) (id :: l).
Proof.
  intros Hl Hnd Hal Hcnt Hcap Hch. apply NoDup_cons in Hnd as [Hid Hnd].
  assert (∀ h, filter (λ i, node_hash (<[id:=n]> (nodes c)) i = Some h) l
     = filter (λ i, node_hash (nodes c) i = Some h) l) as Hsame.
  { intros h. apply filter_ext_in. intros i Hi.
    rewrite node_hash_insert_ne; [done|]. by intros ->. }
  constructor; simpl; try done.
  - by constructor.
  - intros i. rewrite elem_of_cons, lookup_insert.
    case_decide; subst; [eauto|]. intros [?|?]; [done|auto].
  - intros h. rewrite chain_hlist_add_head, Hch, filter_cons, Hsame.
    assert (node_hash (<[id:=n]> (nodes c)) id = Some (cache_hash_func (blk_local n))) as ->.
    { unfold node_hash. by rewrite lookup_insert_eq. }
    destruct (decide (cache_hash_func (blk_local n) = h)) as [->|]; case_decide; congruence.
Qed.

(** The state [take_node] leaves: a node that is on neither structure, every other node
    still on both, and room for one more. *)
Lemma take_node_spec cap mem c l :
  1 ≤ cap → cache_inv cap c l → (∃ id, mem = Some id ∧ nodes c !! id = None) →
  ∃ id c' l', take_node cap mem c = Some (id, c') ∧
    lru c' = Some l' ∧ NoDup (id :: l') ∧
    (∀ i, i ∈ l' → is_Some (nodes c' !! i)) ∧
    lru_count c' = Z.of_nat (S (length l')) ∧ Z.of_nat (S (length l')) ≤ cap ∧
    (∀ h, chain (block_cache c') h = filter (λ i, node_hash (nodes c') i = Some h) l') ∧
    (∀ i, i ∈ l' → nodes c' !! i = nodes c !! i) ∧ l' = take (Z.to_nat cap - 1) l.
Proof.
  intros Hcap [Hl Hnd Hal Hcnt Hle Hch] (mid & -> & Hfresh).
  assert (mid ∉ l) as Hmid by (intros [? ?]%Hal; congruence).
  unfold take_node. case_decide as Hfull; simpl.
  - eexists mid, _, l. split; [done|]. simpl. split_and!; try done.
    + by constructor.
    + intros i Hi. rewrite lookup_insert. case_decide; eauto.
    + rewrite Hcnt. lia.
    + lia.
    + intros h. rewrite Hch. apply filter_ext_in. intros i Hi.
      rewrite node_hash_insert_ne; [done|]. by intros ->.
    + intros i Hi. rewrite lookup_insert_ne; [done|]. by intros ->.
    + rewrite take_ge; [done|]. lia.
  - destruct (last_inv l) as [->|(l' & id & ->)]; [simpl in *; lia|].
    rewrite Hl. simpl. rewrite last_snoc. simpl.
    apply NoDup_app in Hnd as (Hnd & Hdis & _).
    assert (id ∉ l') as Hid by (intros Hi; by apply (Hdis id Hi), list_elem_of_singleton).
    rewrite length_app in *. simpl in *.
    assert (filter (.≠ id) (l' ++ [id]) = l') as Hf.
    { rewrite filter_app_single, decide_False, app_nil_r by tauto. by apply filter_notin_id. }
    eexists id, _, l'. split; [by rewrite Hf|]. simpl. split_and!; try done.
    + by constructor.
    + intros i Hi. apply Hal. apply elem_of_app; tauto.
    + rewrite Hcnt. lia.
    + lia.
    + intros h. rewrite chain_hlist_del, Hch, filter_filter_comm. f_equal. exact Hf.
    + rewrite take_app_le by lia. rewrite take_ge; [done|]. lia.
Qed.

Lemma lookup_init_buckets (ks : list Z) bc h :
  foldl (λ bc i, <[i := []]> bc) bc ks !! h = if decide (h ∈ ks) then Some [] else bc !! h.
Proof.
  revert bc. induction ks as [|k ks IH]; intros bc.
  - case_decide as Hh; [by apply not_elem_of_nil in Hh|done].
  - cbn [foldl]. rewrite IH, lookup_insert.
    repeat case_decide; subst; try done; set_solver.
Qed.

Lemma chain_init_cache c h :
  (is_Some (block_cache c !! h) → 0 ≤ h < CACHE_COUNT) →
  default [] (block_cache (init_cache c) !! h) = [].
Proof.
  intros Hdom.
  change (block_cache (init_cache c))
    with (foldl (λ bc i, <[i := []]> bc) (block_cache c) (seqZ 0 CACHE_COUNT)).
  rewrite lookup_init_buckets.
  case_decide as Hh; [done|]. rewrite elem_of_seqZ in Hh.
  destruct (block_cache c !! h) eqn:E; [|done]. destruct Hh. apply Hdom. eauto.
Qed.

End lemmas.

(** ** The cache implements the interface of the translation thread *)

Definition find_binding (c : cache) (blk : Z) : option (option Z) :=
  node ← find_cache_node blk c;
  match node with
  | Some id => Some <$> read_blocknr c id
  | None => Some None
  end.

(** An allocator that always finds memory: [kmalloc] when it succeeds. *)
Definition kmalloc_node (c : cache) : option node_id := Some (fresh (dom (nodes c))).

#[global] Instance cache_translation : TranslationCache cache := {
  tc_find := find_binding;
  tc_add blknr blklocal c := add_cache LRU_LENGTH (kmalloc_node c) blknr blklocal c;
  tc_wf := cache_wf LRU_LENGTH;
  tc_bound c blk v := assoc blk (contents c) = Some v;
}.

Lemma find_binding_spec cap c blk :
  cache_wf cap c → find_binding c blk = Some (assoc blk (contents c)).
Proof.
  intros [l [Hl Hnd Hal Hcnt Hle Hch]].
  unfold find_binding, find_cache_node, contents. rewrite Hch, Hl. simpl.
  pose proof (find_in_chain_filter (nodes c) blk l Hal) as Hf.
  case_match.
  - destruct Hf as (id & n & -> & Hn & <-). simpl. unfold read_blocknr. by rewrite Hn.
  - by rewrite Hf.
Qed.

Lemma kmalloc_node_fresh c : ∃ id, kmalloc_node c = Some id ∧ nodes c !! id = None.
Proof. eexists. split; [reflexivity|]. apply not_elem_of_dom, is_fresh. Qed.

Lemma add_cache_contents cap mem blknr blklocal c :
  1 ≤ cap → cache_wf cap c → (∃ id, mem = Some id ∧ nodes c !! id = None) →
  ∃ c', add_cache cap mem blknr blklocal c = Some c' ∧ cache_wf cap c' ∧
    contents c' = spec_add cap blknr blklocal (contents c).
Proof.
  intros Hcap [l Hinv] Hmem.
  destruct (take_node_spec cap mem c l) as
    (id & c1 & l' & Htake & Hl & Hnd & Hal & Hcnt & Hle & Hch & Hsame & Hl'); [done..|].
  unfold add_cache. rewrite Htake. simpl. rewrite Hl. simpl.
  eexists. split; [reflexivity|]. split.
  - exists (id :: l'). by apply (link_inv cap c1 l' id (BlockCacheNode blknr blklocal)).
  - apply NoDup_cons in Hnd as [Hid _]. destruct Hinv as [Hl0 _ Hal0 _ _ _].
    unfold contents, spec_add. rewrite Hl0. csimpl. unfold binding at 1.
    rewrite lookup_insert_eq. csimpl.
    replace (Z.to_nat cap) with (S (Z.to_nat cap - 1)) at 1 by lia. csimpl. f_equal.
    rewrite (omap_binding_ext _ (nodes c)).
    2:{ intros i Hi. rewrite lookup_insert_ne by (by intros ->). auto. }
    rewrite Hl'. apply omap_binding_take. intros i. apply Hal0.
Qed.

Lemma assoc_take (n : nat) (k v : Z) (s : list (Z * Z)) :
  assoc k (take n s) = Some v → assoc k s = Some v.
Proof. rewrite <- (take_drop n s) at 2. rewrite assoc_app. by intros ->. Qed.

#[global] Instance cache_translation_ok : TranslationCacheOk cache.
Proof.
  split.
  - intros c blk Hwf. eexists. split; [by apply find_binding_spec with LRU_LENGTH|].
    simpl. destruct (assoc blk (contents c)) eqn:E; [done|]. by intros v.
  - intros c blknr blk Hwf. simpl.
    destruct (add_cache_contents LRU_LENGTH (kmalloc_node c) blknr blk c)
      as (c' & -> & Hwf' & Hc); [unfold LRU_LENGTH; lia|done|apply kmalloc_node_fresh|].
    exists c'. split; [done|]. split; [done|]. rewrite Hc. unfold spec_add.
    replace (Z.to_nat LRU_LENGTH) with (S (Z.to_nat LRU_LENGTH - 1))
      by (unfold LRU_LENGTH; lia). cbn [take assoc].
    split; [by rewrite decide_True|]. intros k v. case_decide; [naive_solver|].
    intros ?%assoc_take. auto.
Qed.

(** ** Properties *)

(** C6: on a well-formed cache, [block_cache_lookup] never follows a dangling pointer and
    returns what the bounded association list of recent bindings returns, 0 for a block that
    is not bound: the hash chains and the recency list agree. *)
Theorem block_cache_lookup_refines (cap : Z) (c : cache) (blk : Z) :
  cache_wf cap c →
  block_cache_lookup c blk = Some (spec_lookup (contents c) blk).
Proof.
  intros Hwf. unfold block_cache_lookup, spec_lookup.
  pose proof (find_binding_spec cap c blk Hwf) as Hf. unfold find_binding in Hf.
  destruct (find_cache_node blk c) as [[id|]|]; simplify_option_eq; by rewrite ?H0.
Qed.

(** C7: on a well-formed cache, and when [kmalloc] returns a node that is not in use,
    [add_cache] succeeds, keeps the cache well formed and acts on the held bindings as "put
    the new binding first, keep the [cap] most recent": eviction is oldest-first, it removes
    exactly one node from both structures, and the counter stays in step. *)
Theorem add_cache_refines (cap : Z) (mem : option node_id) (blknr blklocal : Z) (c : cache) :
  1 ≤ cap → cache_wf cap c → (∃ id, mem = Some id ∧ nodes c !! id = None) →
  ∃ c', add_cache cap mem blknr blklocal c = Some c' ∧ cache_wf cap c' ∧
    contents c' = spec_add cap blknr blklocal (contents c).
Proof.
  apply add_cache_contents.
Qed.

(** Whatever the device held before, binding it leaves a well-formed, empty cache. *)
Theorem cache_setup_wf (cap : Z) (c : cache) :
  0 ≤ cap → (∀ h, is_Some (block_cache c !! h) → 0 ≤ h < CACHE_COUNT) →
  cache_wf cap (cache_setup c) ∧ contents (cache_setup c) = [].
Proof.
  intros Hcap Hdom. split; [|reflexivity].
  exists []. constructor; [reflexivity|constructor| |reflexivity|exact Hcap|].
  - by intros id ?%not_elem_of_nil.
  - intros h. apply chain_init_cache, Hdom.
Qed.

(** Binding a device that was used before makes every node it had allocated unreachable:
    it stays allocated, on no chain and not on the recency list.  Nothing frees it:
    [loop_clr_fd] does not call [free_cache]. *)
Theorem rebinding_leaks_nodes (cap : Z) (c : cache) (id : node_id) :
  cache_wf cap c → (∀ h, is_Some (block_cache c !! h) → 0 ≤ h < CACHE_COUNT) →
  is_Some (nodes c !! id) →
  is_Some (nodes (cache_setup c) !! id) ∧ lru (cache_setup c) = Some [] ∧
  (∀ h, id ∉ chain (block_cache (cache_setup c)) h).
Proof.
  intros _ Hdom Hid. split; [exact Hid|]. split; [reflexivity|].
  intros h. unfold chain, cache_setup. rewrite chain_init_cache by apply Hdom.
  apply not_elem_of_nil.
Qed.

(** C33: [block_cache_lookup] reads [node->b_blocknr] after [find_cache_node] has dropped the
    bucket lock.  If the translation thread calls [add_cache] on a full cache in between and
    the node found is the oldest one, the lookup returns the physical block just bound to
    {e another} block. *)
Theorem lookup_race (cap : Z) (mem : option node_id) (blk blknr' blk' : Z)
    (c c' : cache) (l : list node_id) (id : node_id) :
  cache_inv cap c l → lru_count c = cap →
  find_cache_node blk c = Some (Some id) → last l = Some id →
  add_cache cap mem blknr' blk' c = Some c' →
  read_blocknr c' id = Some blknr'.
Proof.
  intros [Hl _ _ _ _ _] Hfull _ Hlast. unfold add_cache, take_node.
  rewrite decide_False by lia. rewrite Hl. simpl. rewrite Hlast. simpl.
  intros [= <-]. unfold read_blocknr. simpl. by rewrite lookup_insert_eq.
Qed.

(** ** Witnesses *)

Definition ex_cache : cache :=
  Cache {[ 1%nat := BlockCacheNode 700 7; 2%nat := BlockCacheNode 900 40007 ]}
    {[ 7 := [2%nat; 1%nat] ]} (Some [2%nat; 1%nat]) 2.

Lemma ex_cache_inv : cache_inv 2 ex_cache [2%nat; 1%nat].
Proof.
  constructor; try done.
  - apply NoDup_cons. split; [set_solver|apply NoDup_singleton].
  - intros id Hid. apply elem_of_cons in Hid as [->|Hid]; [eexists; reflexivity|].
    apply list_elem_of_singleton in Hid as ->. eexists; reflexivity.
  - intros h. unfold chain. simpl. rewrite lookup_singleton.
    case_decide; subst; [reflexivity|].
    rewrite !filter_cons. 
    do 2 (case_decide as E; [vm_compute in E; congruence|clear E]). done.
Qed.

Lemma ex_cache_wf : cache_wf 2 ex_cache.
Proof. eexists; apply ex_cache_inv. Qed.

Lemma ex_cache_dom h : is_Some (block_cache ex_cache !! h) → 0 ≤ h < CACHE_COUNT.
Proof.
  simpl. rewrite lookup_singleton. case_decide; [|by intros [? ?]].
  intros _. unfold CACHE_COUNT. lia.
Qed.

Lemma block_cache_lookup_refines_witness : block_cache_lookup ex_cache 7 = Some 700.
Proof. rewrite (block_cache_lookup_refines 2 ex_cache 7 ex_cache_wf). reflexivity. Defined.

Lemma add_cache_refines_witness :
  ∃ c', add_cache 2 (Some 3%nat) 5 6 ex_cache = Some c' ∧ cache_wf 2 c' ∧
    contents c' = [(6, 5); (40007, 900)].
Proof.
  apply (add_cache_refines 2 (Some 3%nat) 5 6 ex_cache); [lia|apply ex_cache_wf|].
  exists 3%nat. split; reflexivity.
Defined.

Lemma cache_setup_wf_witness :
  cache_wf LRU_LENGTH (cache_setup ex_cache) ∧ contents (cache_setup ex_cache) = [].
Proof. apply cache_setup_wf; [unfold LRU_LENGTH; lia|apply ex_cache_dom]. Defined.

Lemma rebinding_leaks_nodes_witness :
  is_Some (nodes (cache_setup ex_cache) !! 1%nat) ∧ lru (cache_setup ex_cache) = Some [] ∧
  (∀ h, 1%nat ∉ chain (block_cache (cache_setup ex_cache)) h).
Proof. apply (rebinding_leaks_nodes 2); [apply ex_cache_wf|apply ex_cache_dom|by eexists]. Defined.

Lemma lookup_race_witness :
  ∃ c', add_cache 2 None 5 6 ex_cache = Some c' ∧ find_cache_node 7 ex_cache = Some (Some 1%nat) ∧
    read_blocknr c' 1%nat = Some 5.
Proof.
  eexists. split; [reflexivity|]. split; [reflexivity|].
  refine (lookup_race 2 None 7 5 6 ex_cache _ [2%nat; 1%nat] 1%nat ex_cache_inv _ _ _ _);
    reflexivity.
Defined.
