(* ===== verification/HostExt3.v ===== *)
(** * The block map interface the repository exports from ext3

    Models [ext3_get_block] of fs/ext3/inode.c (made an inode operation in fs/ext3/file.c so
    that the driver can call it).  [ext3_get_blocks_handle] and the journal are a class of
    operations, with the contract documented above [ext3_get_blocks_handle]: it returns the number of
    blocks mapped or allocated, 0 if a plain lookup failed, or a negative error (Ext3Host.v
    shows that the block tree meets it).  The result
    is that [ext3_get_block] meets the contract [HostFSOk] of the translation thread. *)
From S2P Require Import Prelude Interfaces.

Definition DIO_MAX_BLOCKS : Z := 4096.

Class Ext3 (FS : Type) := {
  ext3_blkbits : Z;
  (** [ext3_journal_current_handle () != NULL] *)
  ext3_has_handle : FS → bool;
  (** [ext3_journal_start]: a state with a handle, or the error of [PTR_ERR (handle)] *)
  ext3_journal_start : FS → FS + Z;
  ext3_journal_stop : FS → FS;
  (** [ext3_get_blocks_handle (handle, inode, iblock, maxblocks, bh_result, create)]: the
      value returned and [bh_result->b_blocknr] afterwards (0 if nothing was mapped) *)
  ext3_get_blocks_handle : FS → Z → Z → Z → FS * Z * Z;
  ext3_fsync : FS → FS * Z;
  ext3_map : FS → Z → option Z;
}.

Class Ext3Ok (FS : Type) `{Ext3 FS} := {
  ext3_blkbits_range : 9 ≤ ext3_blkbits ≤ 12;
  ext3_map_pos fs k v : ext3_map fs k = Some v → 0 < v;
  ext3_journal_start_map fs fs' k :
    ext3_journal_start fs = inl fs' → ext3_map fs' k = ext3_map fs k;
  ext3_journal_start_err fs e : ext3_journal_start fs = inr e → e < 0;
  ext3_journal_stop_map fs k : ext3_map (ext3_journal_stop fs) k = ext3_map fs k;
  ext3_blocks_mono fs blk max create fs' ret nr k v :
    ext3_get_blocks_handle fs blk max create = (fs', ret, nr) →
    ext3_map fs k = Some v → ext3_map fs' k = Some v;
  ext3_blocks_lookup fs blk max fs' ret nr k :
    ext3_get_blocks_handle fs blk max 0 = (fs', ret, nr) → ext3_map fs' k = ext3_map fs k;
  (** [return > 0, # of blocks mapped or allocated] *)
  ext3_blocks_count fs blk max create fs' ret nr :
    ext3_get_blocks_handle fs blk max create = (fs', ret, nr) → 0 < ret →
    (1 ≤ max → ret ≤ max) ∧ nr ≠ 0 ∧ ∀ j, 0 ≤ j < ret → ext3_map fs' (blk + j) = Some (nr + j);
  (** [return = 0, if plain lookup failed] *)
  ext3_blocks_none fs blk max create fs' ret nr :
    ext3_get_blocks_handle fs blk max create = (fs', ret, nr) → ret = 0 →
    create = 0 ∧ nr = 0 ∧ ext3_map fs' blk = None;
  ext3_fsync_map fs k : ext3_map (ext3_fsync fs).1 k = ext3_map fs k;
}.

Section ext3_get_block.
Context {FS : Type} `{Ext3 FS}.

Definition ext3_get_block (fs : FS) (iblock b_size create : Z) : FS * gb_result :=
  let max_blocks := wrapu 32 (b_size ≫ ext3_blkbits) in
  let finish (started : bool) (max_blocks : Z) (fs : FS) :=
    let '(fs, ret, blocknr) := ext3_get_blocks_handle fs iblock max_blocks create in
    let fs := if started then ext3_journal_stop fs else fs in
    if decide (0 < ret) then (fs, GbResult 0 blocknr (ret ≪ ext3_blkbits))
    else (fs, GbResult ret blocknr b_size) in
  if decide (create ≠ 0 ∧ ext3_has_handle fs = false) then
    let max_blocks := if decide (DIO_MAX_BLOCKS < max_blocks) then DIO_MAX_BLOCKS
                      else max_blocks in
    match ext3_journal_start fs with
    | inr e => (fs, GbResult e 0 b_size)
    | inl fs => finish true max_blocks fs
    end
  else finish false max_blocks fs.

#[global] Instance ext3_host : HostFS FS := {
  i_blkbits := ext3_blkbits;
  get_block := ext3_get_block;
  Interfaces.vfs_fsync := ext3_fsync;
  block_of := ext3_map;
}.

End ext3_get_block.

(** Inversion of [ext3_get_block]: the journal refuses, or one call of
    [ext3_get_blocks_handle] decides. *)
Lemma ext3_get_block_inv {FS} `{Ext3Ok FS} (fs fs' : FS) blk size create r :
  ext3_get_block fs blk size create = (fs', r) →
  (fs' = fs ∧ create ≠ 0 ∧ gb_ret r < 0) ∨
  ∃ fs0 fs1 ret nr max,
    (∀ k, ext3_map fs0 k = ext3_map fs k) ∧ (∀ k, ext3_map fs' k = ext3_map fs1 k) ∧
    ext3_get_blocks_handle fs0 blk max create = (fs1, ret, nr) ∧
    (1 ≤ size ≫ ext3_blkbits < 2 ^ 32 → 1 ≤ max ≤ size ≫ ext3_blkbits) ∧
    r = (if decide (0 < ret) then GbResult 0 nr (ret ≪ ext3_blkbits)
         else GbResult ret nr size).
Proof.
  unfold ext3_get_block. case_decide as Hc.
  - destruct (ext3_journal_start fs) as [fs0|e] eqn:Ej.
    + destruct (ext3_get_blocks_handle _ _ _ _) as [[fs1 ret] nr] eqn:Eb. intros Hr. right.
      exists fs0, fs1, ret, nr. eexists. split_and!; [| |exact Eb| |].
      * intros k. by apply ext3_journal_start_map.
      * intros k. repeat case_decide; simplify_eq; apply ext3_journal_stop_map.
      * clear Hr Eb. intros Hsz. rewrite (wrapu_small 32) by lia. unfold DIO_MAX_BLOCKS.
        case_decide; lia.
      * repeat case_decide; by simplify_eq.
    + intros [= <- <-]. left. split_and!; [done|tauto|]. by eapply ext3_journal_start_err.
  - destruct (ext3_get_blocks_handle _ _ _ _) as [[fs1 ret] nr] eqn:Eb. intros Hr. right.
    exists fs, fs1, ret, nr. eexists. split_and!; [done| |exact Eb| |].
    + intros k. by repeat case_decide; simplify_eq.
    + intros Hsz. rewrite wrapu_small; lia.
    + repeat case_decide; by simplify_eq.
Qed.

#[global] Instance ext3_host_ok {FS : Type} `{Ext3Ok FS} : HostFSOk FS.
Proof.
  split; simpl.
  - apply ext3_blkbits_range.
  - apply ext3_map_pos.
  - intros fs blk size create k v Hk. destruct (ext3_get_block _ _ _ _) as [fs' r] eqn:E.
    apply ext3_get_block_inv in E as [(-> & _)|(fs0 & fs1 & ret & nr & max & Hm0 & Hm1 & Eb & _)];
      [done|]. simpl. rewrite Hm1. eapply ext3_blocks_mono; [exact Eb|]. by rewrite Hm0.
  - intros fs blk size create fs' r E Hr Hnr Hsz.
    apply ext3_get_block_inv in E
      as [(_ & _ & ?)|(fs0 & fs1 & ret & nr & max & _ & Hm1 & Eb & Hmax & ->)]; [lia|].
    pose proof ext3_blkbits_range. case_decide; simpl in *.
    + destruct (ext3_blocks_count _ _ _ _ _ _ _ Eb) as (Hle & _ & Hmap); [lia|].
      rewrite Z.shiftr_shiftl_l, Z.sub_diag, Z.shiftl_0_r by lia.
      split; [lia|]. intros j Hj. rewrite Hm1. by apply Hmap.
    + destruct (ext3_blocks_none _ _ _ _ _ _ _ Eb) as (_ & ? & _); [lia|done].
  - intros fs blk size create fs' r E Hr Hnr.
    apply ext3_get_block_inv in E
      as [(_ & _ & ?)|(fs0 & fs1 & ret & nr & max & _ & Hm1 & Eb & Hmax & ->)]; [lia|].
    case_decide; simpl in *.
    + destruct (ext3_blocks_count _ _ _ _ _ _ _ Eb) as (_ & ? & _); [lia|done].
    + destruct (ext3_blocks_none _ _ _ _ _ _ _ Eb) as (? & _ & ?); [lia|].
      rewrite Hm1. done.
  - intros fs blk size k. destruct (ext3_get_block _ _ _ _) as [fs' r] eqn:E.
    apply ext3_get_block_inv in E
      as [(-> & _)|(fs0 & fs1 & ret & nr & max & Hm0 & Hm1 & Eb & _)]; [done|].
    simpl. rewrite Hm1, <- Hm0. by eapply ext3_blocks_lookup.
  - apply ext3_fsync_map.
Qed.

(** ** A small file system that meets the contract

    One block at a time, allocated from a counter; used by the witnesses. *)
Record toy_fs := ToyFs {
  toy_map : gmap Z positive;
  toy_next : positive;
}.

Definition toy_get_blocks (fs : toy_fs) (blk max create : Z) : toy_fs * Z * Z :=
  match toy_map fs !! blk with
  | Some p => (fs, 1, Zpos p)
  | None =>
      if decide (create = 0) then (fs, 0, 0)
      else (ToyFs (<[blk := toy_next fs]> (toy_map fs)) (Pos.succ (toy_next fs)), 1,
            Zpos (toy_next fs))
  end.

#[global] Instance toy_ext3 : Ext3 toy_fs := {
  ext3_blkbits := 12;
  ext3_has_handle _ := false;
  ext3_journal_start fs := inl fs;
  ext3_journal_stop fs := fs;
  ext3_get_blocks_handle := toy_get_blocks;
  ext3_fsync fs := (fs, 0);
  ext3_map fs k := Zpos <$> toy_map fs !! k;
}.

#[global] Instance toy_ext3_ok : Ext3Ok toy_fs.
Proof.
  split; simpl; unfold toy_get_blocks; try done; try lia.
  - intros fs k v. destruct (toy_map fs !! k); simpl; intros; simplify_eq; lia.
  - intros; by simplify_eq.
  - intros fs blk max create fs' ret nr k v E Hk. destruct (toy_map fs !! blk) eqn:Eb;
      [by simplify_eq|]. case_decide; simplify_eq; simpl; [done|].
    rewrite lookup_insert_ne; [done|]. intros ->. by rewrite Eb in Hk.
  - intros fs blk max fs' ret nr k E. destruct (toy_map fs !! blk); simplify_eq; [done|].
    case_decide; by simplify_eq.
  - intros fs blk max create fs' ret nr E Hr.
    assert (∀ j, 0 ≤ j < 1 → j = 0) as Hj0 by lia.
    destruct (toy_map fs !! blk) eqn:Eb; [|case_decide]; simplify_eq;
      [|lia|]; (split; [lia|]); (split; [lia|]); intros j ->%Hj0; rewrite !Z.add_0_r; simpl.
    + by rewrite Eb.
    + by rewrite lookup_insert_eq.
  - intros fs blk max create fs' ret nr E Hr.
    destruct (toy_map fs !! blk) eqn:Eb; [|case_decide]; simplify_eq. by rewrite Eb.
Qed.

Lemma toy_never_fails fs blk size create : gb_ret (ext3_get_block (FS := toy_fs) fs blk size create).2 = 0.
Proof.
  unfold ext3_get_block. simpl. unfold toy_get_blocks.
  repeat case_decide; destruct (toy_map fs !! blk); repeat case_decide; done || naive_solver.
Qed.

(** The same file system with a bad spot: blocks from 100 on cannot be mapped. *)
Record bad_fs := BadFs { good : toy_fs }.

Definition bad_get_blocks (fs : bad_fs) (blk max create : Z) : bad_fs * Z * Z :=
  if decide (100 ≤ blk) then (fs, - EIO, 0)
  else let '(fs, ret, nr) := toy_get_blocks (good fs) blk max create in (BadFs fs, ret, nr).

#[global] Instance bad_ext3 : Ext3 bad_fs := {
  ext3_blkbits := 12;
  ext3_has_handle _ := false;
  ext3_journal_start fs := inl fs;
  ext3_journal_stop fs := fs;
  ext3_get_blocks_handle := bad_get_blocks;
  ext3_fsync fs := (fs, - EIO);
  ext3_map fs k := Zpos <$> toy_map (good fs) !! k;
}.

#[global] Instance bad_ext3_ok : Ext3Ok bad_fs.
Proof.
  pose proof toy_ext3_ok as [? Hpos ? ? ? Hmono Hlook Hcnt Hnone ?]. simpl in *.
  assert (∀ fs blk max create fs' ret nr,
    bad_get_blocks fs blk max create = (fs', ret, nr) →
    (fs' = fs ∧ ret = - EIO) ∨ toy_get_blocks (good fs) blk max create = (good fs', ret, nr))
    as Hinv.
  { unfold bad_get_blocks. intros. case_decide; [naive_solver|right].
    destruct (toy_get_blocks _ _ _ _) as [[? ?] ?]; by simplify_eq. }
  split; simpl; try done.
  - intros fs k v. apply Hpos.
  - intros; by simplify_eq.
  - intros fs blk max create fs' ret nr k v [[-> _]|E]%Hinv; [done|]. by eapply Hmono.
  - intros fs blk max fs' ret nr k [[-> _]|E]%Hinv; [done|]. by eapply Hlook.
  - intros fs blk max create fs' ret nr [[-> ->]|E]%Hinv; [by unfold EIO|]. by eapply Hcnt.
  - intros fs blk max create fs' ret nr [[-> ->]|E]%Hinv; [by unfold EIO|]. by eapply Hnone.
Qed.

(** ** Properties *)

(** [ext3_get_block] gives the translation thread what it relies on: a successful call
    maps a run of at least one and at most the requested number of blocks starting at the
    requested block, or reports a hole of a plain lookup with [b_size] untouched; allocated
    blocks are never moved. *)
Theorem ext3_get_block_host_ok (FS : Type) `{Ext3Ok FS} : HostFSOk FS.
Proof. apply ext3_host_ok. Qed.

Lemma ext3_get_block_host_ok_witness :
  HostFSOk toy_fs ∧ ext3_get_block (ToyFs ∅ 9) 3 (128 ≪ 12) 1 =
    (ToyFs {[3 := 9%positive]} 10, GbResult 0 9 4096).
Proof. split; [apply (ext3_get_block_host_ok toy_fs)|reflexivity]. Defined.
