(* ===== verification/Ext3Tree.v ===== *)
(** * The block tree of the host file system

    Models the block map of ext3, fs/ext3/inode.c of the 3.10.103 tree, that the driver reads and extends through
    [ext3_get_block]: [ext3_block_to_path], [ext3_get_branch], the choice of a goal, the allocation of a branch and
    [ext3_get_blocks_handle].

    The state is the array of pointers of the inode and the contents of the blocks of pointers, as the buffer cache
    has them.  The allocator of blocks (balloc.c), the journal and the reading of blocks are not part of the
    repository: class [Balloc].  Reference counts of buffers, the
    flags new and boundary of the buffer, times and the dirtying of the inode are left out; the inode is a regular
    file, and there is a handle if [create] is set.
    [interfere] is what other threads do to the tree before the mutex of the inode is taken. *)
From S2P Require Import Prelude Interfaces StateMonad.

Definition EAGAIN : Z := 11.
Definition EXT3_NDIR_BLOCKS : Z := 12.
Definition EXT3_IND_BLOCK : Z := EXT3_NDIR_BLOCKS.
Definition EXT3_DIND_BLOCK : Z := EXT3_IND_BLOCK + 1.
Definition EXT3_TIND_BLOCK : Z := EXT3_DIND_BLOCK + 1.
Definition EXT3_N_BLOCKS : Z := EXT3_TIND_BLOCK + 1.

(** What the block map uses of the rest of ext3 and of the journal.  Calls that may fail return an error number or
    whether a buffer was got. *)
Class Balloc (K : Type) := {
  sb_bread : K → Z → K * bool;
  sb_getblk : K → Z → K * bool;
  journal_get_create_access : K → Z → K * Z;
  journal_get_write_access : K → Z → K * Z;
  journal_dirty_metadata : K → Z → K * Z;
  journal_forget : K → Z → K;
  (** [ext3_new_blocks (goal, count)]: the first block, the number of blocks, the error *)
  new_blocks : K → Z → Z → K * (Z * Z * Z);
  (** [ext3_free_blocks (block, count)] *)
  free_blocks : K → Z → Z → K;
  (** [ext3_init_block_alloc_info], false when there is no memory *)
  init_alloc_info : K → K * bool;
  (** the block is in use *)
  in_use : K → Z → Prop;
}.

(** Where a pointer is stored: in the inode or in a block. *)
Inductive loc := LInode (i : Z) | LBlk (b i : Z).

(** A link of a chain: [bh] is the number of the block [p] points into. *)
Record Indirect := Ind { in_p : loc; in_key : Z; in_bh : option Z }.

(** The inode, the blocks of pointers, [last_alloc_logical_block] and [last_alloc_physical_block]. *)
Record est (K : Type) := Est {
  e_data : list Z;
  e_blocks : gmap Z (list Z);
  e_info : option (Z * Z);
  e_kern : K;
}.
Arguments Est {K}.
Arguments e_data {K}.
Arguments e_blocks {K}.
Arguments e_info {K}.
Arguments e_kern {K}.

Section ext3.
Context {K : Type} `{Balloc K}.
(** [EXT3_ADDR_PER_BLOCK_BITS] *)
Variable ptrs_bits : Z.
(** [ext3_group_first_block_no] of the group of the inode, [EXT3_BLOCKS_PER_GROUP], [current->pid] *)
Variable bg_start blocks_per_group pid : Z.
Variable interfere : est K → est K.

Abbreviation E := (ST (est K)).

Definition ptrs : Z := 1 ≪ ptrs_bits.

(** Offsets and the number of blocks that follow in the same block of pointers. *)
Definition ext3_block_to_path (i_block : Z) : list Z * Z :=
  let direct_blocks := EXT3_NDIR_BLOCKS in
  let indirect_blocks := ptrs in
  let double_blocks := 1 ≪ (ptrs_bits * 2) in
  let boundary final i_block := final - 1 - Z.land i_block (ptrs - 1) in
  if i_block <? 0 then ([], boundary 0 i_block)
  else if i_block <? direct_blocks then ([i_block], boundary direct_blocks i_block)
  else
    let i_block := i_block - direct_blocks in
    if i_block <? indirect_blocks then ([EXT3_IND_BLOCK; i_block], boundary ptrs i_block)
    else
      let i_block := i_block - indirect_blocks in
      if i_block <? double_blocks then
        ([EXT3_DIND_BLOCK; i_block ≫ ptrs_bits; Z.land i_block (ptrs - 1)], boundary ptrs i_block)
      else
        let i_block := i_block - double_blocks in
        if i_block ≫ (ptrs_bits * 2) <? ptrs then
          ([EXT3_TIND_BLOCK; i_block ≫ (ptrs_bits * 2); Z.land (i_block ≫ ptrs_bits) (ptrs - 1); Z.land i_block (ptrs - 1)],
           boundary ptrs i_block)
        else ([], boundary 0 i_block).

(** ** Memory *)
Definition ptr (s : est K) (l : loc) : option Z :=
  match l with
  | LInode i => e_data s !! Z.to_nat i
  | LBlk b i => e_blocks s !! b ≫= λ c, c !! Z.to_nat i
  end.

Definition set_ptr (l : loc) (v : Z) (s : est K) : est K :=
  match l with
  | LInode i => Est (<[Z.to_nat i := v]> (e_data s)) (e_blocks s) (e_info s) (e_kern s)
  | LBlk b i => Est (e_data s) (alter (λ c, <[Z.to_nat i := v]> c) b (e_blocks s)) (e_info s) (e_kern s)
  end.

(** [p + n] *)
Definition loc_add (l : loc) (n : Z) : loc := match l with LInode i => LInode (i + n) | LBlk b i => LBlk b (i + n) end.

Definition read_ptr (l : loc) : E Z := st_deref (λ s, ptr s l).
Definition write_ptr (l : loc) (v : Z) : E () := _ ← read_ptr l; st_modify (set_ptr l v).
Definition set_block (b : Z) (c : list Z) : E () :=
  st_modify (λ s, Est (e_data s) (<[b := c]> (e_blocks s)) (e_info s) (e_kern s)).
Definition set_info (i : option (Z * Z)) : E () := st_modify (λ s, Est (e_data s) (e_blocks s) i (e_kern s)).
(** A call of the rest of the kernel. *)
Definition kcall {A} (f : K → K * A) : E A :=
  λ s, let '(k, a) := f (e_kern s) in Ok (a, Est (e_data s) (e_blocks s) (e_info s) k).
Definition kdo (f : K → K) : E () := kcall (λ k, (f k, ())).

(** ** Reading a branch *)
Fixpoint verify_chain (chain : list Indirect) : E bool :=
  match chain with
  | [] => mret true
  | i :: chain => k ← read_ptr (in_p i); if in_key i =? k then verify_chain chain else mret false
  end.

(** The chain read so far ends with a link of key [key]. *)
Fixpoint branch_loop (offsets : list Z) (chain : list Indirect) (key : Z) : E (list Indirect * bool * Z) :=
  match offsets with
  | [] => mret (chain, true, 0)
  | o :: offsets =>
      bh ← kcall (λ k, sb_bread k key);
      if negb bh then mret (chain, false, - EIO)
      else
        ok ← verify_chain chain;
        if negb ok then mret (chain, false, - EAGAIN)
        else
          v ← read_ptr (LBlk key o);
          let chain := chain ++ [Ind (LBlk key o) v (Some key)] in
          if v =? 0 then mret (chain, false, 0) else branch_loop offsets chain v
  end.

(** The chain, whether it is complete ([NULL] is returned), and the error. *)
Definition ext3_get_branch (offsets : list Z) : E (list Indirect * bool * Z) :=
  match offsets with
  | [] => st_oops
  | o :: offsets =>
      v ← read_ptr (LInode o);
      let chain := [Ind (LInode o) v None] in
      if v =? 0 then mret (chain, false, 0) else branch_loop offsets chain v
  end.

(** ** Goals *)
Fixpoint near_scan (l : Z → loc) (n : nat) : E (option Z) :=
  match n with
  | O => mret None
  | S n => v ← read_ptr (l (Z.of_nat n)); if v =? 0 then near_scan l n else mret (Some v)
  end.

Definition ext3_find_near (ind : Indirect) : E Z :=
  r ← match in_p ind with LInode i => near_scan LInode (Z.to_nat i) | LBlk b i => near_scan (LBlk b) (Z.to_nat i) end;
  match r with
  | Some v => mret v
  | None =>
      match in_bh ind with
      | Some b => mret b
      | None => mret (bg_start + (pid mod 16) * (blocks_per_group / 16))
      end
  end.

Definition ext3_find_goal (block : Z) (partial : Indirect) : E Z :=
  info ← st_get e_info;
  match info with
  | Some (logical, physical) =>
      if (block =? wrapu 32 (logical + 1)) && negb (physical =? 0) then mret (physical + 1) else ext3_find_near partial
  | None => ext3_find_near partial
  end.

(** ** Allocating a branch *)
Fixpoint count_free (fuel : nat) (l : loc) (count blks boundary : Z) : E Z :=
  match fuel with
  | O => mret count
  | S fuel =>
      if (count <? blks) && (count <=? boundary) then
        v ← read_ptr (loc_add l count);
        if v =? 0 then count_free fuel l (count + 1) blks boundary else mret count
      else mret count
  end.

Definition ext3_blks_to_allocate (branch : loc) (k blks blocks_to_boundary : Z) : E Z :=
  if 0 <? k then mret (if blks <? blocks_to_boundary + 1 then blks else blocks_to_boundary + 1)
  else count_free (Z.to_nat blocks_to_boundary) branch 1 blks blocks_to_boundary.

Fixpoint free_each (l : list Z) : E () :=
  match l with [] => mret () | b :: l => _ ← kdo (λ k, free_blocks k b 1); free_each l end.

(** [need] blocks of pointers are still to be found; [got] are the ones found. *)
Fixpoint alloc_loop (fuel : nat) (goal target : Z) (need : nat) (got : list Z) : E (Z * Z * list Z) :=
  match fuel with
  | O => st_lift NoFuel
  | S fuel =>
      '(current_block, count, err) ← kcall (λ k, new_blocks k goal target);
      if negb (err =? 0) then _ ← free_each got; mret (err, 0, got)
      else
        let m := Nat.min need (Z.to_nat count) in
        let got := got ++ (Z.add current_block <$> seqZ 0 (Z.of_nat m)) in
        if 0 <? count - Z.of_nat m then mret (0, count - Z.of_nat m, got ++ [current_block + Z.of_nat m])
        else alloc_loop fuel goal (target - count) (need - m) got
  end.

(** The error, the number of data blocks, the numbers of the blocks of pointers and of the first data block. *)
Definition ext3_alloc_blocks (goal : Z) (indirect_blks : nat) (blks : Z) : E (Z * Z * list Z) :=
  alloc_loop (S indirect_blks) goal (blks + Z.of_nat indirect_blks) indirect_blks [].

(** Pointers to the [n] blocks from [v] on, from [p + i] on. *)
Fixpoint write_run (l : loc) (i v : Z) (n : nat) : E () :=
  match n with O => mret () | S n => _ ← write_ptr (loc_add l i) (wrapu 32 v); write_run l (i + 1) (v + 1) n end.

(** A new block of pointers is zeroed, its pointer set; the last one of a branch points to [num] data blocks. *)
Definition fill_block (parent o v : Z) (last : option Z) : E () :=
  _ ← set_block parent (replicate (Z.to_nat ptrs) 0);
  _ ← write_ptr (LBlk parent o) (wrapu 32 v);
  match last with Some num => write_run (LBlk parent o) 1 (v + 1) (Z.to_nat (num - 1)) | None => mret () end.

Fixpoint forget_all (branch : list Indirect) : E () :=
  match branch with
  | [] => mret ()
  | i :: branch => b ← st_lift (lift (in_bh i)); _ ← kdo (λ k, journal_forget k b); forget_all branch
  end.

(** [failed:]: [branch] are the links 1 to [n]; the last one has no buffer if [sb_getblk] failed. *)
Definition alloc_failed (err : Z) (branch : list Indirect) (news : list Z) (num : Z) : E (Z * Z * list Indirect) :=
  _ ← forget_all branch;
  _ ← free_each (removelast news);
  v ← st_lift (lift (last news));
  _ ← kdo (λ k, free_blocks k v num);
  mret (err, 0, []).

(** [news] from [new_blocks[n-1]] on, [offsets] from [offsets[n]] on; [branch] are the links 1 to [n-1]. *)
Fixpoint link_loop (all news offsets : list Z) (num : Z) (branch : list Indirect) : E (Z * Z * list Indirect) :=
  match news, offsets with
  | parent :: ((v :: rest) as news), o :: offsets =>
      bh ← kcall (λ k, sb_getblk k parent);
      if negb bh then alloc_failed (- ENOMEM) (branch ++ [Ind (LBlk parent o) 0 None]) all num
      else
        err ← kcall (λ k, journal_get_create_access k parent);
        if negb (err =? 0) then alloc_failed err (branch ++ [Ind (LBlk parent o) 0 (Some parent)]) all num
        else
          _ ← fill_block parent o v (match rest with [] => Some num | _ => None end);
          let branch := branch ++ [Ind (LBlk parent o) (wrapu 32 v) (Some parent)] in
          err ← kcall (λ k, journal_dirty_metadata k parent);
          if negb (err =? 0) then alloc_failed err branch all num
          else link_loop all news offsets num branch
  | _, _ => mret (0, num, branch)
  end.

(** The error, the number of data blocks, and the branch: the missing link with its new key, and the links below. *)
Definition ext3_alloc_branch (indirect_blks : nat) (blks goal : Z) (offsets : list Z) (partial : Indirect)
    : E (Z * Z * list Indirect) :=
  '(err, num, news) ← ext3_alloc_blocks goal indirect_blks blks;
  if negb (err =? 0) then mret (err, blks, [partial])
  else
    v ← st_lift (lift (head news));
    '(err, num, branch) ← link_loop news news (tail offsets) num [];
    mret (err, num, Ind (in_p partial) (wrapu 32 v) (in_bh partial) :: branch).

(** ** Splicing it in *)

(** [err_out:] *)
Fixpoint splice_undo (above : Z) (branch : list Indirect) (blks : Z) : E () :=
  match branch with
  | [] => kdo (λ k, free_blocks k above blks)
  | i :: branch =>
      b ← st_lift (lift (in_bh i));
      _ ← kdo (λ k, journal_forget k b);
      _ ← kdo (λ k, free_blocks k above 1);
      splice_undo (in_key i) branch blks
  end.

Definition ext3_splice_branch (block : Z) (whr : Indirect) (branch : list Indirect) (blks : Z) : E Z :=
  let num := length branch in
  let last_key := match last branch with Some i => in_key i | None => in_key whr end in
  err ← match in_bh whr with Some b => kcall (λ k, journal_get_write_access k b) | None => mret 0 end;
  if negb (err =? 0) then _ ← splice_undo (in_key whr) branch blks; mret err
  else
    _ ← write_ptr (in_p whr) (in_key whr);
    _ ← (if bool_decide (num = 0%nat) && (1 <? blks) then write_run (in_p whr) 1 (in_key whr + 1) (Z.to_nat (blks - 1)) else mret ());
    info ← st_get e_info;
    _ ← match info with
        | Some _ => set_info (Some (wrapu 32 (block + blks - 1), wrapu 32 (last_key + blks - 1)))
        | None => mret ()
        end;
    match in_bh whr with
    | Some b =>
        err ← kcall (λ k, journal_dirty_metadata k b);
        if negb (err =? 0) then _ ← splice_undo (in_key whr) branch blks; mret err else mret 0
    | None => mret 0
    end.

(** ** [ext3_get_blocks_handle] *)

(** More blocks after the first one. *)
Fixpoint map_more (fuel : nat) (chain : list Indirect) (l : loc) (first_block count maxblocks boundary : Z) : E (Z * Z) :=
  match fuel with
  | O => mret (0, count)
  | S fuel =>
      if (count <? maxblocks) && (count <=? boundary) then
        ok ← verify_chain chain;
        if negb ok then mret (- EAGAIN, 0)
        else
          blk ← read_ptr (loc_add l count);
          if blk =? first_block + count then map_more fuel chain l first_block (count + 1) maxblocks boundary
          else mret (0, count)
      else mret (0, count)
  end.

(** The allocation info is made when it is first needed. *)
Definition init_info : E () :=
  info ← st_get e_info;
  match info with
  | None => ok ← kcall init_alloc_info; if ok : bool then set_info (Some (0, 0)) else mret ()
  | Some _ => mret ()
  end.

(** The branch is allocated and spliced in.  The error, the number of blocks and the block. *)
Definition get_blocks_alloc (offsets : list Z) (boundary iblock maxblocks : Z) (chain : list Indirect) : E (Z * Z * Z) :=
  _ ← init_info;
  partial ← st_lift (lift (last chain));
  goal ← ext3_find_goal iblock partial;
  let indirect_blks := (length offsets - length chain)%nat in
  count ← ext3_blks_to_allocate (in_p partial) (Z.of_nat indirect_blks) maxblocks boundary;
  '(err, count, branch) ← ext3_alloc_branch indirect_blks count goal (drop (length chain - 1) offsets) partial;
  if negb (err =? 0) then mret (err, 0, 0)
  else
    whr ← st_lift (lift (head branch));
    err ← ext3_splice_branch iblock whr (tail branch) count;
    if negb (err =? 0) then mret (err, 0, 0)
    else i ← st_lift (lift (last branch)); mret (0, count, in_key i).

(** What the mutex covers: the chain is read again if it changed, and the block is allocated if it is still missing. *)
Definition get_blocks_locked (offsets : list Z) (boundary iblock maxblocks : Z) (chain : list Indirect) (err : Z) : E (Z * Z * Z) :=
  valid ← (if err =? - EAGAIN then mret false else verify_chain chain);
  '(chain, found, err) ← (if valid : bool then mret (chain, false, err) else ext3_get_branch offsets);
  if found : bool then
    i ← st_lift (lift (last chain));
    if negb (err =? 0) then mret (err, 0, 0) else mret (0, 1, in_key i)
  else get_blocks_alloc offsets boundary iblock maxblocks chain.

(** The value returned, and [b_blocknr] when the buffer is mapped, else 0. *)
Definition ext3_get_blocks_handle (iblock maxblocks create : Z) : E (Z * Z) :=
  let '(offsets, boundary) := ext3_block_to_path (wraps 64 iblock) in
  if bool_decide (offsets = []) then mret (- EIO, 0)
  else
    '(chain, found, err) ← ext3_get_branch offsets;
    i ← st_lift (lift (last chain));
    '(err, count) ← (if found : bool then map_more (Z.to_nat boundary) chain (in_p i) (in_key i) 1 maxblocks boundary else mret (err, 0));
    if found && negb (err =? - EAGAIN) then mret (count, in_key i)
    else if (create =? 0) || (err =? - EIO) then mret (err, 0)
    else
      _ ← st_modify interfere;
      '(err, count, nr) ← get_blocks_locked offsets boundary iblock maxblocks chain err;
      if negb (err =? 0) then mret (err, 0) else mret (count, nr).
End ext3.
