(* ===== verification/Ext3Path.v ===== *)
(** * Paths in the block tree

    A block of the file has a path: an offset in the inode and offsets in blocks of pointers.
    [ext3_block_to_path] and [path_block] are inverse to each other, and the blocks up to the boundary follow each
    other in one block of pointers. *)
From S2P Require Import Prelude Interfaces StateMonad Ext3Tree.

Section path.
Variable ptrs_bits : Z.
Hypothesis bits_range : 8 ≤ ptrs_bits ≤ 10.
Abbreviation ptrs := (ptrs ptrs_bits).
Abbreviation ext3_block_to_path := (ext3_block_to_path ptrs_bits).

Lemma ptrs_pow : ptrs = 2 ^ ptrs_bits.
Proof. unfold Ext3Tree.ptrs. rewrite Z.shiftl_mul_pow2 by lia. lia. Qed.

Lemma ptrs_bounds : 256 ≤ ptrs ≤ 1024.
Proof.
  rewrite ptrs_pow. change 256 with (2 ^ 8). change 1024 with (2 ^ 10). split; apply Z.pow_le_mono_r; lia.
Qed.

Lemma land_ptrs a : Z.land a (ptrs - 1) = a mod ptrs.
Proof. rewrite ptrs_pow, Z.sub_1_r, <- Z.ones_equiv, Z.land_ones by lia. done. Qed.

(** Length of a path whose first offset is [o]. *)
Definition depth_of (o : Z) : nat := if o <? EXT3_NDIR_BLOCKS then 1 else Z.to_nat (o - 10).

Definition in_block (a : Z) : Prop := 0 ≤ a < ptrs.

(** Paths to a pointer, and paths to a data block. *)
Definition path_ok (p : list Z) : Prop :=
  match p with [] => False | o :: r => 0 ≤ o < EXT3_N_BLOCKS ∧ Forall in_block r ∧ (length p ≤ depth_of o)%nat end.
Definition full (p : list Z) : Prop := match p with [] => False | o :: r => length p = depth_of o end.

(** The block at the end of a path. *)
Definition path_block (p : list Z) : Z :=
  match p with
  | [i] => i
  | [_; a] => EXT3_NDIR_BLOCKS + a
  | [_; a; b] => EXT3_NDIR_BLOCKS + ptrs + a * ptrs + b
  | [_; a; b; c] => EXT3_NDIR_BLOCKS + ptrs + ptrs * ptrs + (a * ptrs + b) * ptrs + c
  | _ => -1
  end.
(** The five cases, with division instead of shifts. *)
Lemma path_cases k :
  let P := ptrs in
  let '(p, b) := ext3_block_to_path k in
  (p = [] ∧ (k < 0 ∨ 12 + P + P * P + P * P * P ≤ k)) ∨
  (p = [k] ∧ 0 ≤ k < 12 ∧ b = 11 - k) ∨
  (∃ i, k = 12 + i ∧ p = [12; i] ∧ 0 ≤ i < P ∧ b = P - 1 - i) ∨
  (∃ i, k = 12 + P + i ∧ p = [13; i / P; i mod P] ∧ 0 ≤ i < P * P ∧ b = P - 1 - i mod P) ∨
  (∃ i, k = 12 + P + P * P + i ∧ p = [14; i / (P * P); (i / P) mod P; i mod P] ∧ 0 ≤ i < P * P * P ∧ b = P - 1 - i mod P).
Proof.
  intros P. pose proof ptrs_bounds as HP. fold P in HP.
  assert (1 ≪ (ptrs_bits * 2) = P * P) as E2.
  { unfold P. rewrite ptrs_pow, Z.shiftl_mul_pow2, Z.mul_1_l, <- Z.pow_add_r by lia. f_equal. lia. }
  assert (∀ i, i ≫ ptrs_bits = i / P) as D1 by (intros i; unfold P; by rewrite ptrs_pow, Z.shiftr_div_pow2 by lia).
  assert (∀ i, i ≫ (ptrs_bits * 2) = i / (P * P)) as D2.
  { intros i. unfold P. rewrite ptrs_pow, Z.shiftr_div_pow2, <- Z.pow_add_r by lia. do 2 f_equal. lia. }
  unfold Ext3Tree.ext3_block_to_path. rewrite !land_ptrs, !D2, !D1, E2. fold P. unfold EXT3_NDIR_BLOCKS.
  destruct (Z.ltb_spec k 0); [left; auto|]. destruct (Z.ltb_spec k 12).
  { right; left. rewrite Z.mod_small by lia. split; [done|]. lia. }
  destruct (Z.ltb_spec (k - 12) P).
  { do 2 right; left. exists (k - 12). rewrite Z.mod_small by lia. split; [lia|]. split; [done|]. lia. }
  destruct (Z.ltb_spec (k - 12 - P) (P * P)).
  { do 3 right; left. exists (k - 12 - P). split; [lia|]. split; [done|]. lia. }
  destruct (Z.ltb_spec ((k - 12 - P - P * P) / (P * P)) P) as [Hd|Hd].
  { do 4 right. exists (k - 12 - P - P * P). split; [lia|]. split; [done|]. split; [|done]. split; [lia|].
    apply Z.div_lt_upper_bound in Hd || idtac. assert (0 < P * P) by nia.
    pose proof (Z.div_mod (k - 12 - P - P * P) (P * P)). pose proof (Z.mod_pos_bound (k - 12 - P - P * P) (P * P)). nia. }
  left. split; [done|]. right. assert (0 < P * P) by nia.
  pose proof (Z.div_mod (k - 12 - P - P * P) (P * P)). pose proof (Z.mod_pos_bound (k - 12 - P - P * P) (P * P)). nia.
Qed.

(** A number below [P * P] as two digits, and one below [P * P * P] as three. *)
Lemma digits2 P i : 0 < P → 0 ≤ i < P * P → 0 ≤ i / P < P ∧ 0 ≤ i mod P < P ∧ i = i / P * P + i mod P.
Proof.
  intros HP Hi. pose proof (Z.mod_pos_bound i P HP). pose proof (Z.div_mod i P). split; [|lia].
  split; [apply Z.div_pos; lia|apply Z.div_lt_upper_bound; lia].
Qed.

Lemma digits3 P i : 0 < P → 0 ≤ i < P * P * P →
  0 ≤ i / (P * P) < P ∧ 0 ≤ (i / P) mod P < P ∧ 0 ≤ i mod P < P ∧ i = (i / (P * P) * P + (i / P) mod P) * P + i mod P.
Proof.
  intros HP Hi. assert (0 ≤ i / P < P * P) as Hd by (split; [apply Z.div_pos; lia|apply Z.div_lt_upper_bound; nia]).
  destruct (digits2 P (i / P) HP Hd) as (H1 & H2 & H3). rewrite <- Z.div_div by lia.
  pose proof (Z.mod_pos_bound i P HP). pose proof (Z.div_mod i P). repeat split; try lia.
Qed.

(** The digits of a number written in base [P]. *)
Lemma undigits P a b : 0 ≤ b < P → (a * P + b) / P = a ∧ (a * P + b) mod P = b.
Proof.
  intros Hb. rewrite Z.div_add_l, Z.div_small, Z.add_0_r by lia. split; [done|].
  by rewrite Z.add_comm, Z.mod_add, Z.mod_small by lia.
Qed.

(** The shapes of a path to a data block. *)
Lemma full_cases p : path_ok p → full p →
  (∃ i, p = [i] ∧ 0 ≤ i < 12) ∨ (∃ a, p = [12; a] ∧ in_block a) ∨ (∃ a b, p = [13; a; b] ∧ in_block a ∧ in_block b) ∨
  (∃ a b c, p = [14; a; b; c] ∧ in_block a ∧ in_block b ∧ in_block c).
Proof.
  destruct p as [|o r]; [done|]. intros (Ho & Hr & _). rewrite !Forall_forall in Hr. unfold full, depth_of.
  unfold EXT3_N_BLOCKS, EXT3_TIND_BLOCK, EXT3_DIND_BLOCK, EXT3_IND_BLOCK, EXT3_NDIR_BLOCKS in *.
  destruct (Z.ltb_spec o 12).
  { destruct r; [|done]. intros _. left. exists o. split; [done|lia]. }
  assert (o = 12 ∨ o = 13 ∨ o = 14) as [-> | [-> | ->]] by lia; intros Hl.
  - destruct r as [|a [|]]; [done| |done]. right; left. exists a. split; [done|]. apply Hr. set_solver.
  - destruct r as [|a [|b [|]]]; [done|done| |done]. do 2 right; left. exists a, b. split; [done|]. split; apply Hr; set_solver.
  - destruct r as [|a [|b [|c [|]]]]; [done|done|done| |done]. do 3 right. exists a, b, c. split; [done|]. split_and!; apply Hr; set_solver.
Qed.

(** Every path to a data block is the path of its block. *)
Lemma path_of_block p : path_ok p → full p → (ext3_block_to_path (path_block p)).1 = p.
Proof.
  pose proof ptrs_bounds as HP. intros Hok Hf. pose proof (path_cases (path_block p)) as Hc. cbn zeta in Hc.
  destruct (ext3_block_to_path _) as [q b]. cbn [fst].
  destruct (full_cases p Hok Hf) as [(i & -> & Hi)|[(i & -> & Hi)|[(x & y & -> & Hx & Hy)|(x & y & z & -> & Hx & Hy & Hz)]]];
    unfold in_block, path_block, EXT3_NDIR_BLOCKS in *;
    destruct Hc as [(-> & Hk)|[(-> & Hk & _)|[(j & E & -> & Hk & _)|[(j & E & -> & Hk & _)|(j & E & -> & Hk & _)]]]]; try nia.
  - done.
  - do 2 f_equal; lia.
  - assert (j = x * ptrs + y) as -> by lia. destruct (undigits ptrs x y) as [-> ->]; [lia|done].
  - assert (j = (x * ptrs + y) * ptrs + z) as -> by lia. destruct (undigits ptrs (x * ptrs + y) z) as [E1 E2]; [lia|].
    rewrite <- Z.div_div, E1, E2 by lia. destruct (undigits ptrs x y) as [-> ->]; [lia|done].
Qed.

(** Blocks that the tree has room for. *)
Definition max_block : Z := EXT3_NDIR_BLOCKS + ptrs + ptrs * ptrs + ptrs * ptrs * ptrs.

(** The path of a block in range is a path to a data block. *)
Lemma block_path k p b : ext3_block_to_path k = (p, b) → p ≠ [] →
  0 ≤ k < max_block ∧ path_ok p ∧ full p ∧ path_block p = k.
Proof.
  pose proof ptrs_bounds as HP. intros E Hne. pose proof (path_cases k) as Hc. cbn zeta in Hc. rewrite E in Hc.
  unfold max_block, path_ok, full, path_block, depth_of, in_block.
  unfold EXT3_N_BLOCKS, EXT3_TIND_BLOCK, EXT3_DIND_BLOCK, EXT3_IND_BLOCK, EXT3_NDIR_BLOCKS.
  destruct Hc as [(-> & Hk)|[(-> & Hk & _)|[(i & -> & -> & Hk & _)|[(i & -> & -> & Hk & _)|(i & -> & -> & Hk & _)]]]]; [done|..]; cbn.
  - destruct (Z.ltb_spec k 12); [|lia]. split; [nia|]. split_and!; try done; lia.
  - split; [nia|]. split_and!; try done; try lia. constructor; [lia|done].
  - destruct (digits2 ptrs i) as (H1 & H2 & H3); [lia..|]. split; [nia|]. split_and!; try done; try lia. repeat constructor; lia.
  - destruct (digits3 ptrs i) as (H1 & H2 & H3 & H4); [lia..|]. split; [nia|]. split_and!; try done; try lia. repeat constructor; lia.
Qed.

(** What [boundary] says: that many pointers follow in the same block of pointers, or the same inode. *)
Lemma block_path_boundary k p b : ext3_block_to_path k = (p, b) → p ≠ [] →
  0 ≤ b ∧ ∃ q o, p = q ++ [o] ∧ ∀ j, 0 ≤ j ≤ b → path_ok (q ++ [o + j]) ∧ full (q ++ [o + j]) ∧ path_block (q ++ [o + j]) = k + j.
Proof.
  pose proof ptrs_bounds as HP. intros E Hne. destruct (block_path k p b E Hne) as (_ & _ & _ & Hb).
  pose proof (path_cases k) as Hc. cbn zeta in Hc. rewrite E in Hc.
  unfold path_ok, full, path_block, depth_of, in_block in *.
  unfold EXT3_N_BLOCKS, EXT3_TIND_BLOCK, EXT3_DIND_BLOCK, EXT3_IND_BLOCK, EXT3_NDIR_BLOCKS in *.
  destruct Hc as [(-> & Hk)|[(-> & Hk & ->)|[(i & -> & -> & Hk & ->)|[(i & -> & -> & Hk & ->)|(i & -> & -> & Hk & ->)]]]]; [done|..].
  - split; [lia|]. exists [], k. split; [done|]. intros j Hj. cbn. destruct (Z.ltb_spec (k + j) 12); [|lia]. split_and!; try done; lia.
  - split; [lia|]. exists [12], i. split; [done|]. intros j Hj. cbn. split_and!; try done; try lia. constructor; [lia|done].
  - destruct (digits2 ptrs i) as (H1 & H2 & H3); [lia..|]. split; [lia|]. exists [13; i / ptrs], (i mod ptrs). split; [done|].
    intros j Hj. cbn. split_and!; try done; try lia. repeat constructor; lia.
  - destruct (digits3 ptrs i) as (H1 & H2 & H3 & H4); [lia..|]. split; [lia|].
    exists [14; i / (ptrs * ptrs); (i / ptrs) mod ptrs], (i mod ptrs). split; [done|].
    intros j Hj. cbn. split_and!; try done; try lia. repeat constructor; lia.
Qed.

Lemma block_in_range k : 0 ≤ k < max_block → (ext3_block_to_path k).1 ≠ [].
Proof.
  pose proof ptrs_bounds as HP. intros Hk. pose proof (path_cases k) as Hc. cbn zeta in Hc. unfold max_block, EXT3_NDIR_BLOCKS in Hk.
  destruct (ext3_block_to_path k) as [p b].
  destruct Hc as [(-> & ?)|[(-> & _)|[(i & _ & -> & _)|[(i & _ & -> & _)|(i & _ & -> & _)]]]]; [lia|done..].
Qed.

(** And no more: the block after the boundary is in another block of pointers. *)
Lemma block_path_end k j p b : ext3_block_to_path k = (p, b) → p ≠ [] →
  (ext3_block_to_path (k + j)).1 = removelast p ++ [default 0 (last p) + j] → j ≤ b.
Proof.
  pose proof ptrs_bounds as HP. intros E Hne Hj. pose proof (path_cases k) as Hc. cbn zeta in Hc. rewrite E in Hc.
  pose proof (path_cases (k + j)) as Hc'. cbn zeta in Hc'. destruct (ext3_block_to_path (k + j)) as [p' b']. cbn in Hj. subst p'.
  assert (∀ i, 0 ≤ i mod ptrs < ptrs) as Hm by (intros i; apply Z.mod_pos_bound; lia).
  destruct Hc as [(-> & _)|[(-> & Hk & ->)|[(i & -> & -> & Hk & ->)|[(i & -> & -> & Hk & ->)|(i & -> & -> & Hk & ->)]]]]; [done|..]; cbn in Hc';
    destruct Hc' as [(? & _)|[(E' & Hk' & _)|[(i' & ? & E' & Hk' & _)|[(i' & ? & E' & Hk' & _)|(i' & ? & E' & Hk' & _)]]]]; try done;
    simplify_eq; try lia; specialize (Hm i'); lia.
Qed.
End path.

(** C28: [ext3_block_to_path] maps the blocks the tree has room for one to one to the paths to data blocks (its
    inverse is [path_block]), gives no path to other blocks, and the [boundary] it reports is exact: that many more
    blocks, and no more, follow in the same block of pointers (or in the inode). *)
Theorem block_to_path_roundtrip ptrs_bits : 8 ≤ ptrs_bits ≤ 10 →
  (∀ k, (ext3_block_to_path ptrs_bits k).1 = [] ↔ ¬ 0 ≤ k < max_block ptrs_bits) ∧
  (∀ k, 0 ≤ k < max_block ptrs_bits →
     let '(p, b) := ext3_block_to_path ptrs_bits k in
     path_ok ptrs_bits p ∧ full p ∧ path_block ptrs_bits p = k ∧
     ∀ j, 0 ≤ j → (ext3_block_to_path ptrs_bits (k + j)).1 = removelast p ++ [default 0 (last p) + j] ↔ j ≤ b) ∧
  (∀ p, path_ok ptrs_bits p → full p → (ext3_block_to_path ptrs_bits (path_block ptrs_bits p)).1 = p).
Proof.
  intros Hbits. split; [|split; [|by intros; apply path_of_block]]; intros k.
  - destruct (ext3_block_to_path ptrs_bits k) as [p b] eqn:E. cbn. split.
    + intros -> Hk. by pose proof (block_in_range _ Hbits k Hk) as Hn; rewrite E in Hn.
    + intros Hk. destruct p as [|o p]; [done|]. destruct Hk. by eapply block_path.
  - intros Hk. pose proof (block_in_range _ Hbits k Hk) as Hn. destruct (ext3_block_to_path ptrs_bits k) as [p b] eqn:E.
    destruct (block_path _ Hbits _ _ _ E Hn) as (_ & Hok & Hf & Hb). split_and!; [done..|].
    intros j Hj0. split; [by eapply block_path_end|]. intros Hjb.
    destruct (block_path_boundary _ Hbits _ _ _ E Hn) as (_ & q & o & -> & Hj). destruct (Hj j) as (Hok' & Hf' & <-); [lia|].
    rewrite removelast_last, last_snoc. by apply path_of_block.
Qed.

Lemma block_to_path_roundtrip_witness :
  ext3_block_to_path 10 (12 + 1024 + 5 * 1024 + 7) = ([13; 5; 7], 1016) ∧
  path_block 10 (ext3_block_to_path 10 1000000).1 = 1000000.
Proof.
  split; [reflexivity|]. destruct (block_to_path_roundtrip 10 ltac:(lia)) as (_ & Hrt & _). specialize (Hrt 1000000 ltac:(by vm_compute)).
  destruct (ext3_block_to_path 10 1000000) as [p b]. by destruct Hrt as (_ & _ & Hb & _).
Defined.
