(* ===== verification/Ext3Walk.v ===== *)
(** * Walks in the block tree

    The tree of pointers without the rest of the kernel: what a path leads to ([walk]), when the tree is well formed
    ([tree_ok]: no block is reached by two paths, and the blocks on the way are blocks of pointers), and what hanging
    a new block into it does ([attach]).  Growing a whole branch is a sequence of such steps ([grow]). *)
From S2P Require Import Prelude Interfaces StateMonad Ext3Tree Ext3Path.

Record tree := Tree { t_data : list Z; t_blocks : gmap Z (list Z) }.

#[global] Instance loc_eq_dec : EqDecision loc.
Proof. solve_decision. Defined.

Definition off (l : loc) : Z := match l with LInode i | LBlk _ i => i end.
(** The block a pointer is stored in. *)
Definition home (l : loc) : option Z := match l with LInode _ => None | LBlk b _ => Some b end.

Definition tptr (t : tree) (l : loc) : option Z :=
  match l with
  | LInode i => t_data t !! Z.to_nat i
  | LBlk b i => t_blocks t !! b ≫= λ c, c !! Z.to_nat i
  end.

Definition tset (l : loc) (v : Z) (t : tree) : tree :=
  match l with
  | LInode i => Tree (<[Z.to_nat i := v]> (t_data t)) (t_blocks t)
  | LBlk b i => Tree (t_data t) (alter (λ c, <[Z.to_nat i := v]> c) b (t_blocks t))
  end.

Definition tblk (b : Z) (c : list Z) (t : tree) : tree := Tree (t_data t) (<[b := c]> (t_blocks t)).

Lemma tptr_tset t l v w l' : tptr t l = Some w → 0 ≤ off l → 0 ≤ off l' →
  tptr (tset l v t) l' = if decide (l' = l) then Some v else tptr t l'.
Proof.
  intros Hw H1 H2. destruct l as [i|b i], l' as [i'|b' i']; cbn in *; try (rewrite decide_False by done; done).
  - case_decide as Hd.
    + injection Hd as ->. apply list_lookup_insert_eq. by eapply lookup_lt_Some.
    + apply list_lookup_insert_ne. intros Hn. apply Hd. f_equal. lia.
  - destruct (decide (b' = b)) as [->|Hb].
    + rewrite lookup_alter_eq. destruct (t_blocks t !! b) as [c|] eqn:Eb; [|done]. cbn in *. case_decide as Hd.
      * injection Hd as ->. apply list_lookup_insert_eq. by eapply lookup_lt_Some.
      * apply list_lookup_insert_ne. intros Hn. apply Hd. f_equal. lia.
    + rewrite lookup_alter_ne by done. rewrite decide_False by congruence. done.
Qed.

Lemma tptr_tblk t b c l : tptr (tblk b c t) l = if decide (home l = Some b) then c !! Z.to_nat (off l) else tptr t l.
Proof.
  destruct l as [i|b' i]; cbn; [done|]. destruct (decide (b' = b)) as [->|Hb].
  - by rewrite lookup_insert_eq, decide_True.
  - rewrite lookup_insert_ne by done. rewrite decide_False by congruence. done.
Qed.

Section walk.
Variable ptrs_bits : Z.
Hypothesis bits_range : 8 ≤ ptrs_bits ≤ 10.
Abbreviation ptrs := (ptrs ptrs_bits).
Abbreviation path_ok := (path_ok ptrs_bits).
Abbreviation in_block := (in_block ptrs_bits).
Abbreviation block_path := (λ k, (ext3_block_to_path ptrs_bits k).1).

Definition down (t : tree) (w : option Z) (o : Z) : option Z :=
  v ← w; if v =? 0 then None else tptr t (LBlk v o).

(** The pointer at the end of a path; none if a block on the way is missing. *)
Definition walk (t : tree) (p : list Z) : option Z :=
  match p with [] => None | o :: r => foldl (down t) (tptr t (LInode o)) r end.

(** The block map of the file. *)
Definition tmap (t : tree) (k : Z) : option Z :=
  v ← walk t (block_path k); if v =? 0 then None else Some v.

Lemma walk_snoc t p o : p ≠ [] → walk t (p ++ [o]) = down t (walk t p) o.
Proof. destruct p; [done|]. intros _. cbn. by rewrite foldl_app. Qed.

Lemma down_Some t v o : v ≠ 0 → down t (Some v) o = tptr t (LBlk v o).
Proof. intros Hv. cbn. by destruct (Z.eqb_spec v 0). Qed.

Record tree_ok (t : tree) (used : Z → Prop) : Prop := {
  ok_data : length (t_data t) = Z.to_nat EXT3_N_BLOCKS;
  ok_ptr p v : path_ok p → walk t p = Some v → v ≠ 0 → 0 < v < 2 ^ 32 ∧ used v;
  ok_node p v : path_ok p → ¬ full p → walk t p = Some v → v ≠ 0 → ∃ c, t_blocks t !! v = Some c ∧ length c = Z.to_nat ptrs;
  ok_inj p q v : path_ok p → path_ok q → walk t p = Some v → walk t q = Some v → v ≠ 0 → p = q;
}.

Lemma path_ok_snoc p o : p ≠ [] → path_ok (p ++ [o]) ↔ path_ok p ∧ ¬ full p ∧ in_block o.
Proof.
  destruct p as [|a r]; [done|]. intros _. cbn. rewrite Forall_app, Forall_singleton, length_app. cbn. split.
  - intros (? & (? & ?) & ?). split_and!; try done; lia.
  - intros ((? & ? & ?) & ? & ?). split_and!; try done; lia.
Qed.

Lemma path_ind (P : list Z → Prop) :
  (∀ o, 0 ≤ o < EXT3_N_BLOCKS → P [o]) → (∀ p o, p ≠ [] → path_ok p → ¬ full p → in_block o → P p → P (p ++ [o])) →
  ∀ p, path_ok p → P p.
Proof.
  intros H1 H2. induction p as [|o p IH] using rev_ind; [done|]. destruct (decide (p = [])) as [->|Hp].
  - intros (Ho & _). by apply H1.
  - intros (Hok & Hf & Ho)%path_ok_snoc; [|done]. auto.
Qed.

(** Where the pointer of a path is stored. *)
Definition at_path (t : tree) (p : list Z) (l : loc) : Prop :=
  (∃ o, p = [o] ∧ l = LInode o) ∨
  (∃ q o b, q ≠ [] ∧ p = q ++ [o] ∧ walk t q = Some b ∧ b ≠ 0 ∧ l = LBlk b o).

Lemma at_path_ptr t p l : at_path t p l → walk t p = tptr t l.
Proof.
  intros [(o & -> & ->)|(q & o & b & Hq & -> & Hb & Hb0 & ->)]; [done|]. rewrite walk_snoc, Hb by done. cbn.
  by destruct (Z.eqb_spec b 0).
Qed.

Lemma at_path_off t p l : path_ok p → at_path t p l → 0 ≤ off l.
Proof.
  intros Hok [(o & -> & ->)|(q & o & b & Hq & -> & Hb & Hb0 & ->)]; cbn.
  - destruct Hok; lia.
  - apply path_ok_snoc in Hok as (_ & _ & ?); [|done]. unfold Ext3Path.in_block in *. lia.
Qed.

Lemma at_path_home t p l b : at_path t p l → home l = Some b → ∃ q o, q ≠ [] ∧ p = q ++ [o] ∧ walk t q = Some b ∧ b ≠ 0.
Proof.
  intros [(o & -> & ->)|(q & o & b' & Hq & -> & Hb & Hb0 & ->)]; [done|]. intros [= ->]. by eexists q, o.
Qed.

Lemma ok_node_ptr t used p v o : tree_ok t used → path_ok p → ¬ full p → walk t p = Some v → v ≠ 0 → in_block o →
  is_Some (tptr t (LBlk v o)).
Proof.
  intros Hok Hp Hf Hw Hv Ho. destruct (ok_node _ _ Hok p v Hp Hf Hw Hv) as (c & Hc & Hl). cbn. rewrite Hc. cbn.
  apply lookup_lt_is_Some_2. rewrite Hl. unfold Ext3Path.in_block in Ho. lia.
Qed.

(** ** Attaching a block *)
Definition zeros : list Z := replicate (Z.to_nat ptrs) 0.

(** The block [v] is hung in at [l]; a block of pointers is empty. *)
Definition attach (l : loc) (v : Z) (node : bool) (t : tree) : tree := tset l v (if node then tblk v zeros t else t).

Lemma zeros_lookup o : in_block o → zeros !! Z.to_nat o = Some 0.
Proof. intros Ho. unfold zeros. apply lookup_replicate_2. unfold Ext3Path.in_block in Ho. lia. Qed.

Section attach.
Variables (t : tree) (used : Z → Prop) (p : list Z) (l : loc) (v : Z) (node : bool).
Hypothesis t_ok : tree_ok t used.
Hypothesis p_ok : path_ok p.
Hypothesis p_node : node = true ↔ ¬ full p.
Hypothesis l_p : at_path t p l.
Hypothesis p_hole : walk t p = Some 0.
Hypothesis v_fresh : 0 < v < 2 ^ 32 ∧ ¬ used v.

Lemma fresh_walk q : path_ok q → walk t q ≠ Some v.
Proof. intros Hq Hw. destruct (ok_ptr _ _ t_ok q v Hq Hw); [lia|]. tauto. Qed.

Lemma home_fresh : home l ≠ Some v.
Proof.
  intros Hh. destruct (at_path_home _ _ _ _ l_p Hh) as (q & o & Hq & E & Hw & _). rewrite E in p_ok.
  apply path_ok_snoc in p_ok as (Hok & _); [|done]. by eapply fresh_walk.
Qed.

Lemma attach_ptr l' : 0 ≤ off l' →
  tptr (attach l v node t) l' =
    if decide (l' = l) then Some v
    else if decide (node = true ∧ home l' = Some v) then zeros !! Z.to_nat (off l') else tptr t l'.
Proof.
  intros Hl'. pose proof home_fresh as Hh. pose proof (at_path_ptr _ _ _ l_p) as Hp. rewrite p_hole in Hp. unfold attach.
  pose proof (at_path_off _ _ _ p_ok l_p). destruct node.
  - rewrite (tptr_tset _ _ _ 0) by (rewrite ?tptr_tblk, ?decide_False by done; done). case_decide; [done|].
    rewrite tptr_tblk. repeat case_decide; tauto.
  - rewrite (tptr_tset _ _ _ 0) by done. case_decide; [done|]. rewrite decide_False by naive_solver. done.
Qed.

(** A step down from the new block. *)
Lemma attach_down_new o : in_block o → ¬ full p → down (attach l v node t) (Some v) o = Some 0.
Proof.
  intros Ho Hf. rewrite down_Some, attach_ptr by (cbn; unfold Ext3Path.in_block in Ho; lia).
  rewrite decide_False. 2:{ intros E. apply home_fresh. by rewrite <- E. }
  rewrite decide_True by (split; [by apply p_node|done]). by apply zeros_lookup.
Qed.

(** A step down from a block that was there. *)
Lemma attach_down_old r o : r ≠ [] → path_ok (r ++ [o]) →
  down (attach l v node t) (walk t r) o = if decide (r ++ [o] = p) then Some v else walk t (r ++ [o]).
Proof.
  intros Hr Hok. pose proof Hok as (Hokr & _ & Ho)%path_ok_snoc; [|done]. rewrite walk_snoc by done.
  assert (∀ w, walk t r = Some w → w ≠ 0 ∨ r ++ [o] ≠ p) as Hp.
  { intros w Ew. destruct (decide (w = 0)) as [->|]; [right|by left]. intros <-. by rewrite walk_snoc, Ew in p_hole. }
  destruct (walk t r) as [w|] eqn:Ew.
  2:{ rewrite decide_False; [done|]. intros <-. by rewrite walk_snoc, Ew in p_hole. }
  destruct (decide (w = 0)) as [->|Hw]; [rewrite decide_False by (by destruct (Hp 0)); done|].
  rewrite !down_Some, attach_ptr by (cbn; unfold Ext3Path.in_block in Ho; lia).
  rewrite (decide_False (P := node = true ∧ _)). 2:{ intros [_ [= ->]]. by eapply fresh_walk. }
  destruct l_p as [(o' & Ep & El)|(q & o' & b & Hq & Ep & Hb & Hb0 & El)].
  - rewrite !decide_False; [done| |congruence]. rewrite Ep. by destruct r as [|? [|]].
  - destruct (decide (LBlk w o = l)) as [E|E]; [rewrite El in E; injection E as -> ->|]; case_decide as Hd; try done.
    + destruct Hd. rewrite Ep in p_ok |- *. apply path_ok_snoc in p_ok as (? & _); [|done]. f_equal. by eapply ok_inj.
    + rewrite Ep in Hd. apply app_inj_tail in Hd as [-> ->]. congruence.
Qed.

Lemma snoc_ne (x : Z) q : q ++ [x] ≠ q.
Proof. intros E%(f_equal length). rewrite length_app in E. cbn in E. lia. Qed.

(** Only the walk to the new block changes; below it there is room. *)
Lemma attach_walk q : path_ok q →
  walk (attach l v node t) q = if decide (q = p) then Some v else if decide (q ≠ [] ∧ removelast q = p) then Some 0 else walk t q.
Proof.
  assert (p ≠ []) as Hp by (by destruct p). revert q. apply path_ind; [intros o Ho|intros r o Hr Hok Hf Ho IH].
  - cbn [walk foldl]. rewrite attach_ptr by (cbn; lia). cbn [removelast]. rewrite (decide_False (P := _ ∧ [] = p)) by naive_solver.
    rewrite (decide_False (P := _ ∧ home _ = _)) by (intros []; done).
    destruct l_p as [(o' & -> & ->)|(q & o' & b & Hq & -> & _ & _ & ->)].
    + destruct (decide (o = o')) as [->|]; [by rewrite !decide_True|by rewrite !decide_False by congruence].
    + rewrite !decide_False; [done| |done]. by destruct q as [|? [|]].
  - rewrite walk_snoc, removelast_last, IH by done. destruct (decide (r = p)) as [->|Hrp].
    { rewrite decide_False by apply snoc_ne. rewrite decide_True by (split; [by destruct p|done]). by apply attach_down_new. }
    rewrite (decide_False (P := _ ∧ r = p)) by tauto. destruct (decide (r ≠ [] ∧ removelast r = p)) as [[_ Hrl]|Hrl].
    { assert (r = p ++ [default 0 (last r)]) as ->.
      { destruct r as [|x r' _] using rev_ind; [done|]. rewrite removelast_last in Hrl. subst. by rewrite last_snoc. }
      rewrite !walk_snoc, p_hole by (done || by destruct p). rewrite decide_False; [done|].
      intros E%(f_equal length). rewrite !length_app in E. cbn in E. lia. }
    apply attach_down_old; [done|]. by apply path_ok_snoc.
Qed.

Lemma attach_map k : tmap (attach l v node t) k = if decide (block_path k = p) then Some v else tmap t k.
Proof.
  unfold tmap. destruct (ext3_block_to_path ptrs_bits k) as [q b] eqn:E. cbn [fst]. destruct (decide (q = [])) as [->|Hq].
  { rewrite decide_False by (intros <-; by destruct p_ok). done. }
  destruct (Ext3Path.block_path _ bits_range _ _ _ E Hq) as (_ & Hok & Hf & _).
  rewrite attach_walk by done. destruct (decide (q = p)); cbn.
  { by destruct (Z.eqb_spec v 0); [lia|]. }
  case_decide as Hr; [|done]. destruct Hr as [_ <-]. cbn. assert (q = removelast q ++ [default 0 (last q)]) as ->.
  { destruct q as [|x q' _] using rev_ind; [done|]. by rewrite removelast_last, last_snoc. }
  rewrite walk_snoc, p_hole; [done|]. by destruct (removelast q).
Qed.

Lemma attach_ok used' : (∀ b, used b → used' b) → used' v → tree_ok (attach l v node t) used'.
Proof.
  intros Hu Hv. assert (∀ q w, path_ok q → walk (attach l v node t) q = Some w → w ≠ 0 → (q = p ∧ w = v) ∨ (w ≠ v ∧ walk t q = Some w)) as Hc.
  { intros q w Hq Hw Hw0. rewrite attach_walk in Hw by done. repeat case_decide; simplify_eq; [by left|right]. split; [|done].
    intros ->. by eapply fresh_walk. }
  split.
  - unfold attach, tset. pose proof (ok_data _ _ t_ok). destruct l, node; cbn; by rewrite ?length_insert.
  - intros q w Hq Hw Hw0. destruct (Hc _ _ Hq Hw Hw0) as [[-> ->]|[_ Hw']]; [tauto|].
    destruct (ok_ptr _ _ t_ok _ _ Hq Hw' Hw0). auto.
  - intros q w Hq Hf Hw Hw0.
    assert (∃ c, t_blocks (if node then tblk v zeros t else t) !! w = Some c ∧ length c = Z.to_nat ptrs) as (c & Hb & Hl).
    { destruct (Hc _ _ Hq Hw Hw0) as [[-> ->]|[Hne Hw']].
      - rewrite (proj2 p_node Hf). exists zeros. cbn. rewrite lookup_insert_eq. split; [done|]. apply length_replicate.
      - destruct (ok_node _ _ t_ok _ _ Hq Hf Hw' Hw0) as (c & Hb & Hl). exists c. split; [|done]. destruct node; [|done].
        cbn. by rewrite lookup_insert_ne. }
    unfold attach, tset. destruct l as [i|b i]; cbn; [by exists c|]. destruct (decide (b = w)) as [->|].
    + rewrite lookup_alter_eq, Hb. cbn. eexists. split; [done|]. by rewrite length_insert.
    + rewrite lookup_alter_ne by done. by exists c.
  - intros q q' w Hq Hq' Hw Hw' Hw0.
    destruct (Hc _ _ Hq Hw Hw0) as [[-> ->]|[Hne E]], (Hc _ _ Hq' Hw' Hw0) as [[-> Ev]|[Hne' E']]; try done.
    by eapply ok_inj.
Qed.
End attach.
End walk.
