(* ===== verification/Ext3Grow.v ===== *)
(** * Growing the block tree

    A new branch: blocks of pointers ([nodes]) and a run of data blocks below them ([run]).  The code fills the new
    blocks first and sets the missing link last ([linked]); the result is the same ([grow_linked]). *)
From S2P Require Import Prelude Interfaces StateMonad Ext3Tree Ext3Path Ext3Walk.

Lemma loc_add_0 l : loc_add l 0 = l.
Proof. destruct l; cbn; f_equal; lia. Qed.
Lemma loc_add_add l i j : loc_add (loc_add l i) j = loc_add l (i + j).
Proof. destruct l; cbn; f_equal; lia. Qed.
Lemma home_loc_add l i : home (loc_add l i) = home l.
Proof. by destruct l. Qed.

(** Writes to different blocks commute. *)
Lemma tset_tset l v l' v' t : home l ≠ home l' → tset l v (tset l' v' t) = tset l' v' (tset l v t).
Proof.
  destruct l as [i|b i], l' as [i'|b' i']; cbn; intros Hne; try done. f_equal. apply alter_alter_ne. congruence.
Qed.
Lemma tset_tblk l v b c t : home l ≠ Some b → tset l v (tblk b c t) = tblk b c (tset l v t).
Proof. destruct l as [i|b' i]; cbn; intros Hne; [done|]. unfold tblk. cbn. f_equal. apply alter_insert_ne. congruence. Qed.

Section grow.
Variable ptrs_bits : Z.
Hypothesis bits_range : 8 ≤ ptrs_bits ≤ 10.
Abbreviation ptrs := (ptrs ptrs_bits).
Abbreviation path_ok := (path_ok ptrs_bits).
Abbreviation path_block := (path_block ptrs_bits).
Abbreviation block_path := (λ k, (ext3_block_to_path ptrs_bits k).1).
Abbreviation tree_ok := (tree_ok ptrs_bits).
Abbreviation tmap := (tmap ptrs_bits).
Abbreviation attach := (attach ptrs_bits).

(** Data blocks from [d] on, at [l] and after it. *)
Fixpoint run (l : loc) (d : Z) (n : nat) (t : tree) : tree :=
  match n with O => t | S n => run (loc_add l 1) (d + 1) n (tset l d t) end.

(** Blocks of pointers, one below the other; where the next pointer belongs. *)
Fixpoint nodes (l : loc) (inds offs : list Z) (t : tree) : loc * tree :=
  match inds, offs with
  | b :: inds, o :: offs => nodes (LBlk b o) inds offs (attach l b true t)
  | _, _ => (l, t)
  end.

Definition grow (l : loc) (inds offs : list Z) (d : Z) (n : nat) (t : tree) : tree :=
  let '(l, t) := nodes l inds offs t in run l d n t.

(** The new blocks filled, before the first one is linked. *)
Fixpoint linked (inds offs : list Z) (d : Z) (n : nat) (t : tree) : tree :=
  match inds, offs with
  | b :: inds, o :: offs =>
      linked inds offs d n
        (match inds with [] => run (LBlk b o) d n | b' :: _ => tset (LBlk b o) b' end (tblk b (zeros ptrs_bits) t))
  | _, _ => t
  end.

Lemma tset_run l v l' d n t : home l ≠ home l' → tset l v (run l' d n t) = run l' d n (tset l v t).
Proof.
  revert l' d t. induction n as [|n IH]; intros l' d t Hne; [done|]. cbn. rewrite IH by (by rewrite home_loc_add).
  by rewrite tset_tset.
Qed.

Lemma tset_linked l v inds offs d n t : (∀ b, home l = Some b → b ∉ inds) →
  tset l v (linked inds offs d n t) = linked inds offs d n (tset l v t).
Proof.
  revert offs t. induction inds as [|b inds IH]; intros [|o offs] t Hne; try done. cbn [linked].
  assert (home l ≠ Some b) as Hb by (intros E; apply (Hne b E); set_solver).
  rewrite IH by (intros b' Hb' ?; apply (Hne b' Hb'); set_solver). f_equal.
  destruct inds; [rewrite tset_run by done|rewrite tset_tset by done]; by rewrite tset_tblk.
Qed.

Lemma grow_linked l b inds offs d n t : NoDup (b :: inds) → length offs = S (length inds) → (∀ c, home l = Some c → c ∉ b :: inds) →
  grow l (b :: inds) offs d n t = tset l b (linked (b :: inds) offs d n t).
Proof.
  revert l b offs t. induction inds as [|b' inds IH]; intros l b offs t Hnd Hlen Hne; destruct offs as [|o offs]; try done.
  - assert (home l ≠ Some b) as Hb by (intros E; apply (Hne b E); set_solver).
    cbn. rewrite tset_run by done. done.
  - assert (home l ≠ Some b) as Hb by (intros E; apply (Hne b E); set_solver). apply NoDup_cons in Hnd as [Hnin Hnd].
    change (grow l (b :: b' :: inds) (o :: offs) d n t) with (grow (LBlk b o) (b' :: inds) offs d n (attach l b true t)).
    rewrite IH; [|done|by injection Hlen|by intros c [= <-]].
    change (linked (b :: b' :: inds) (o :: offs) d n t) with
      (linked (b' :: inds) offs d n (tset (LBlk b o) b' (tblk b (zeros ptrs_bits) t))).
    unfold Ext3Walk.attach. rewrite tset_linked by (by intros c [= <-]).
    rewrite (tset_linked l) by (intros c Hc ?; apply (Hne c Hc); set_solver). f_equal. by apply tset_tset.
Qed.

Lemma tree_ok_used t (used used' : Z → Prop) : tree_ok t used → (∀ b, used b → used' b) → tree_ok t used'.
Proof. intros [? Hp ? ?] Hu. split; try done. intros p v Hok Hw Hv. destruct (Hp p v Hok Hw Hv). auto. Qed.

(** The place of the next pointer of the same block. *)
Lemma at_path_next t t' q o l i : at_path t (q ++ [o]) l → (q ≠ [] → walk t' q = walk t q) → at_path t' (q ++ [o + i]) (loc_add l i).
Proof.
  intros [(o' & E & ->)|(q' & o' & b & Hq & E & Hb & Hb0 & ->)] Hw.
  - destruct q as [|? [|]]; try done. injection E as ->. left. by exists (o' + i).
  - apply app_inj_tail in E as [-> ->]. right. exists q', (o' + i), b. by rewrite Hw.
Qed.

(** [q ++ [o]] is the path of block [k], and the next [n - 1] blocks follow in the same block of pointers. *)
Definition slots (q : list Z) (o k : Z) (n : nat) : Prop :=
  ∀ j, 0 ≤ j < Z.of_nat n → path_ok (q ++ [o + j]) ∧ full (q ++ [o + j]) ∧ path_block (q ++ [o + j]) = k + j.

Lemma slots_next q o k n : slots q o k (S n) → path_ok (q ++ [o]) ∧ full (q ++ [o]) ∧ path_block (q ++ [o]) = k ∧ slots q (o + 1) (k + 1) n.
Proof.
  intros Hs. destruct (Hs 0) as (H1 & H2 & H3); [lia|]. rewrite !Z.add_0_r in *. split_and!; [done..|].
  intros j Hj. destruct (Hs (j + 1)) as (H4 & H5 & H6); [lia|].
  by replace (o + 1 + j) with (o + (j + 1)) by lia; replace (k + 1 + j) with (k + (j + 1)) by lia.
Qed.

Lemma block_path_iff k p : path_ok p → full p → block_path k = p ↔ k = path_block p.
Proof.
  intros Hok Hf. split; [|intros ->; by apply path_of_block]. intros E. destruct (ext3_block_to_path ptrs_bits k) as [p' b] eqn:Ep.
  cbn in E. subst p'. symmetry. eapply Ext3Path.block_path; [done|exact Ep|by destruct p].
Qed.

Definition fresh (used : Z → Prop) (b : Z) : Prop := 0 < b < 2 ^ 32 ∧ ¬ used b.

(** One data block. *)
Lemma data_ok t (used : Z → Prop) q o l d k : tree_ok t used → at_path t (q ++ [o]) l → path_ok (q ++ [o]) → full (q ++ [o]) →
  walk t (q ++ [o]) = Some 0 → fresh used d → path_block (q ++ [o]) = k →
  tree_ok (tset l d t) (λ b, used b ∨ b = d) ∧ (∀ k', tmap (tset l d t) k' = if decide (k' = k) then Some d else tmap t k') ∧
  ∀ r, path_ok r → r ≠ q ++ [o] → walk (tset l d t) r = walk t r.
Proof.
  intros Hok Hat Hp Hf Hw Hd Hk. change (tset l d t) with (attach l d false t).
  assert (false = true ↔ ¬ full (q ++ [o])) as Hn by (split; [done|tauto]). split_and!.
  - by eapply attach_ok; eauto.
  - intros k'. rewrite (attach_map _ bits_range _ _ _ _ _ _ Hok Hp Hn Hat Hw Hd). subst k.
    by rewrite (decide_ext _ _ _ _ (block_path_iff k' _ Hp Hf)).
  - intros r Hr Hne. rewrite (attach_walk _ bits_range _ _ _ _ _ _ Hok Hp Hn Hat Hw Hd) by done. rewrite decide_False by done.
    rewrite decide_False; [done|]. intros [Hr0 E]. destruct r as [|x r' _] using rev_ind; [done|].
    rewrite removelast_last in E. subst r'. apply path_ok_snoc in Hr as (_ & ? & _); [tauto|]. by destruct q.
Qed.

Lemma run_ok n t (used : Z → Prop) q o l d k : tree_ok t used → at_path t (q ++ [o]) l → slots q o k n →
  (∀ j, 0 ≤ j < Z.of_nat n → walk t (q ++ [o + j]) = Some 0 ∧ fresh used (d + j)) →
  tree_ok (run l d n t) (λ b, used b ∨ d ≤ b < d + Z.of_nat n) ∧
  ∀ k', tmap (run l d n t) k' = if decide (k ≤ k' < k + Z.of_nat n) then Some (d + (k' - k)) else tmap t k'.
Proof.
  revert t used o l d k. induction n as [|n IH]; intros t used o l d k Hok Hat Hs Hj.
  { split; [eapply tree_ok_used; [exact Hok|auto]|]. intros k'. by rewrite decide_False by lia. }
  apply slots_next in Hs as (Hp & Hf & Hk & Hs). destruct (Hj 0) as [Hw Hd]; [lia|]. rewrite !Z.add_0_r in *.
  destruct (data_ok t used q o l d k) as (Hok' & Hm & Hwk); [done..|].
  destruct (IH (tset l d t) (λ b, used b ∨ b = d) (o + 1) (loc_add l 1) (d + 1) (k + 1)) as [Hok2 Hm2]; [done| |done| |].
  - eapply at_path_next; [exact Hat|]. intros Hq. apply Hwk; [by apply path_ok_snoc in Hp as (? & _)|].
    intros E%(f_equal length). rewrite length_app in E. cbn in E. lia.
  - intros j Hjn. destruct (Hj (j + 1)) as [Hw' Hd']; [lia|]. destruct (Hs j) as (Hpj & _); [lia|].
    replace (o + 1 + j) with (o + (j + 1)) in * by lia. replace (d + 1 + j) with (d + (j + 1)) by lia. rewrite Hwk; [|done|].
    + split; [done|]. destruct Hd' as [? Hu]. split; [done|]. intros [?|?]; [done|lia].
    + intros [_ [=]]%app_inj_tail. lia.
  - split; [eapply tree_ok_used; [exact Hok2|]; intros b [[|]|]; lia || auto|].
    intros k'. cbn [run]. rewrite Hm2, Hm. repeat case_decide; try lia; f_equal; lia.
Qed.

(** One block of pointers. *)
Lemma node_ok t (used : Z → Prop) p o l b : tree_ok t used → at_path t p l → path_ok (p ++ [o]) → p ≠ [] → walk t p = Some 0 → fresh used b →
  tree_ok (attach l b true t) (λ b', used b' ∨ b' = b) ∧ (∀ k, tmap (attach l b true t) k = tmap t k) ∧
  at_path (attach l b true t) (p ++ [o]) (LBlk b o) ∧ ∀ x, path_ok (p ++ [x]) → walk (attach l b true t) (p ++ [x]) = Some 0.
Proof.
  intros Hok Hat Hpo Hp Hw Hb. pose proof Hpo as (Hpp & Hf & Ho)%path_ok_snoc; [|done].
  assert (true = true ↔ ¬ full p) as Hn by tauto. split_and!.
  - by eapply attach_ok; eauto.
  - intros k. rewrite (attach_map _ bits_range _ _ _ _ _ _ Hok Hpp Hn Hat Hw Hb). rewrite decide_False; [done|].
    destruct (ext3_block_to_path ptrs_bits k) as [p' b'] eqn:Ep. intros E. cbn in E. subst p'. apply Hf.
    by eapply Ext3Path.block_path.
  - right. exists p, o, b. split_and!; try done; [|destruct Hb; lia].
    by rewrite (attach_walk _ bits_range _ _ _ _ _ _ Hok Hpp Hn Hat Hw Hb), decide_True.
  - intros x Hx. rewrite (attach_walk _ bits_range _ _ _ _ _ _ Hok Hpp Hn Hat Hw Hb) by done.
    rewrite decide_False by apply snoc_ne. rewrite decide_True; [done|]. rewrite removelast_last. split; [by destruct p|done].
Qed.

Lemma nodes_ok inds offs t (used : Z → Prop) p l : tree_ok t used → at_path t p l → p ≠ [] → path_ok (p ++ offs) → walk t p = Some 0 →
  length inds = length offs → NoDup inds → Forall (fresh used) inds →
  let '(l', t') := nodes l inds offs t in
  tree_ok t' (λ b, used b ∨ b ∈ inds) ∧ (∀ k, tmap t' k = tmap t k) ∧ at_path t' (p ++ offs) l' ∧
  (inds ≠ [] → ∀ x, path_ok (removelast (p ++ offs) ++ [x]) → walk t' (removelast (p ++ offs) ++ [x]) = Some 0).
Proof.
  revert offs t used p l. induction inds as [|b inds IH]; intros [|o offs] t used p l Hok Hat Hp Hpo Hw Hlen Hnd Hfr; try done.
  { cbn. rewrite app_nil_r. split_and!; try done. eapply tree_ok_used; [exact Hok|auto]. }
  cbn [nodes]. replace (p ++ o :: offs) with ((p ++ [o]) ++ offs) in * by (by rewrite <- (assoc_L (++))).
  apply NoDup_cons in Hnd as [Hnin Hnd]. apply Forall_cons in Hfr as [Hb Hfr].
  assert (path_ok (p ++ [o])) as Hpo1.
  { clear -Hpo Hp. destruct p as [|a p]; [done|]. cbn in *. rewrite !Forall_app in *. rewrite !length_app in *. cbn in *.
    destruct Hpo as (? & (? & ?) & ?). split_and!; try tauto. lia. }
  destruct (node_ok t used p o l b) as (Hok1 & Hm1 & Hat1 & Hw1); [done..|].
  specialize (IH offs (attach l b true t) (λ b', used b' ∨ b' = b) (p ++ [o]) (LBlk b o)).
  destruct (nodes _ _ _ _) as [l' t'] eqn:En. destruct IH as (Hok2 & Hm2 & Hat2 & Hw2); [done|done|by destruct p|done|auto|by injection Hlen|done| |].
  { rewrite Forall_forall in Hfr |- *. intros x Hx. destruct (Hfr x Hx) as [? Hu]. split; [done|]. intros [?| ->]; done. }
  split_and!; try done.
  - eapply tree_ok_used; [exact Hok2|]. set_solver.
  - intros k. by rewrite Hm2.
  - intros _ x Hx. destruct inds; [|by apply Hw2]. destruct offs; [|done]. cbn in En. injection En as <- <-.
    rewrite app_nil_r, removelast_last in *. auto.
Qed.

(** A whole branch: the blocks [k .. k + n - 1] of the file become the blocks [d .. d + n - 1], all other blocks stay. *)
Lemma grow_ok inds offs t (used : Z → Prop) p l q o d k n : tree_ok t used → at_path t p l → p ≠ [] → p ++ offs = q ++ [o] →
  walk t p = Some 0 → length inds = length offs → NoDup inds → Forall (fresh used) inds →
  slots q o k n → (0 < n)%nat →
  (inds = [] → ∀ j, 0 ≤ j < Z.of_nat n → walk t (q ++ [o + j]) = Some 0) →
  (∀ j, 0 ≤ j < Z.of_nat n → fresh used (d + j) ∧ d + j ∉ inds) →
  tree_ok (grow l inds offs d n t) (λ b, used b ∨ b ∈ inds ∨ d ≤ b < d + Z.of_nat n) ∧
  ∀ k', tmap (grow l inds offs d n t) k' = if decide (k ≤ k' < k + Z.of_nat n) then Some (d + (k' - k)) else tmap t k'.
Proof.
  intros Hok Hat Hp Epq Hw Hlen Hnd Hfr Hs Hn Hw0 Hd. destruct (Hs 0) as (Hpo & _); [lia|]. rewrite Z.add_0_r, <- Epq in Hpo.
  pose proof (nodes_ok inds offs t used p l Hok Hat Hp Hpo Hw Hlen Hnd Hfr) as Hnodes. unfold grow.
  destruct (nodes l inds offs t) as [l' t'] eqn:En. destruct Hnodes as (Hok' & Hm & Hat' & Hw'). rewrite Epq, removelast_last in *.
  destruct (run_ok n t' (λ b, used b ∨ b ∈ inds) q o l' d k) as [Hok2 Hm2]; [done|done|done| |].
  - intros j Hj. destruct (Hd j Hj) as [[? Hu] Hi]. split; [|split; [done|tauto]]. destruct (decide (inds = [])) as [->|Hne].
    + cbn in En. destruct offs; [|done]. injection En as <- <-. auto.
    + apply Hw'; [done|]. by apply Hs.
  - split; [|intros k'; by rewrite Hm2, Hm]. eapply tree_ok_used; [exact Hok2|]. tauto.
Qed.

(** ** Blocks that nothing refers to *)

(** The trees differ only in the contents of blocks of [F]. *)
Definition agree (F : Z → Prop) (t t' : tree) : Prop := t_data t' = t_data t ∧ ∀ b, ¬ F b → t_blocks t' !! b = t_blocks t !! b.

Lemma agree_refl F t : agree F t t.
Proof. done. Qed.
Lemma agree_trans F t1 t2 t3 : agree F t1 t2 → agree F t2 t3 → agree F t1 t3.
Proof. intros [E1 H1] [E2 H2]. split; [congruence|]. intros b Hb. by rewrite H2, H1. Qed.
Lemma agree_tset (F : Z → Prop) b i v t : F b → agree F t (tset (LBlk b i) v t).
Proof. intros Hb. split; [done|]. intros b' Hb'. cbn. apply lookup_alter_ne. by intros ->. Qed.
Lemma agree_tblk (F : Z → Prop) b c t : F b → agree F t (tblk b c t).
Proof. intros Hb. split; [done|]. intros b' Hb'. cbn. apply lookup_insert_ne. by intros ->. Qed.
Lemma agree_run (F : Z → Prop) b i d n t : F b → agree F t (run (LBlk b i) d n t).
Proof.
  intros Hb. revert i d t. induction n as [|n IH]; intros i d t; [done|]. cbn [run]. eapply agree_trans; [by apply agree_tset|]. apply IH.
Qed.

Lemma agree_ptr (F : Z → Prop) t t' l : agree F t t' → (∀ b, home l = Some b → ¬ F b) → tptr t' l = tptr t l.
Proof. intros [Ed Eb] Hl. destruct l as [i|b i]; cbn in *; [by rewrite Ed|]. by rewrite Eb by auto. Qed.

Lemma agree_linked inds offs d n t (F : Z → Prop) : (∀ b, b ∈ inds → F b) → agree F t (linked inds offs d n t).
Proof.
  revert offs t. induction inds as [|b inds IH]; intros [|o offs] t HF; try done. cbn [linked]. assert (F b) as Hb by (apply HF; set_solver).
  eapply agree_trans; [|apply IH; set_solver]. eapply agree_trans; [by apply agree_tblk|]. destruct inds; [by apply agree_run|by apply agree_tset].
Qed.

Section agree.
Variables (F used : Z → Prop) (t t' : tree).
Hypothesis t_ok : tree_ok t used.
Hypothesis F_free : ∀ b, F b → ¬ used b.
Hypothesis t_agree : agree F t t'.

Lemma agree_walk p : path_ok p → walk t' p = walk t p.
Proof.
  destruct t_agree as [Ed Eb]. revert p. apply path_ind; [intros o Ho; cbn; by rewrite Ed|].
  intros p o Hp Hok Hf Ho IH. rewrite !walk_snoc, IH by done. destruct (walk t p) as [v|] eqn:Ew; [|done].
  destruct (decide (v = 0)) as [->|Hv]; [done|]. rewrite !down_Some by done. cbn. rewrite Eb; [done|].
  intros HF. destruct (ok_ptr _ _ _ t_ok p v Hok Ew Hv). by apply (F_free v).
Qed.

Lemma agree_ok : tree_ok t' used.
Proof.
  split.
  - rewrite (proj1 t_agree). apply t_ok.
  - intros p v Hp. rewrite agree_walk by done. by apply t_ok.
  - intros p v Hp Hf Hw Hv. rewrite agree_walk in Hw by done. destruct (ok_node _ _ _ t_ok p v Hp Hf Hw Hv) as (c & Hc & Hl).
    exists c. split; [|done]. rewrite (proj2 t_agree); [done|]. intros HF. destruct (ok_ptr _ _ _ t_ok p v Hp Hw Hv). by apply (F_free v).
  - intros p q v Hp Hq. rewrite !agree_walk by done. by apply t_ok.
Qed.

Lemma agree_map k : tmap t' k = tmap t k.
Proof.
  unfold Ext3Walk.tmap. destruct (ext3_block_to_path ptrs_bits k) as [p b] eqn:E. cbn. destruct (decide (p = [])) as [->|Hp]; [done|].
  rewrite agree_walk; [done|]. by eapply Ext3Path.block_path.
Qed.
End agree.
End grow.
