(* ===== verification/Ext3Chain.v ===== *)
(** * Reading the block tree

    [ext3_get_branch] returns the chain of a path as far as it goes ([branch_res]), [verify_chain] decides whether a
    chain is still the one of the tree, and the goal and the number of blocks to allocate are found by reading
    pointers only. *)
From S2P Require Import Prelude Interfaces StateMonad Ext3Tree Ext3Path Ext3Walk Ext3Grow.

(** What the block map relies on of the rest of ext3 and of the journal: which blocks are in use after each call,
    and that errors are negative.  Any of the calls may fail. *)
Class BallocOk (K : Type) `{Balloc K} := {
  sb_bread_use k b x : in_use (sb_bread k b).1 x ↔ in_use k x;
  sb_getblk_use k b x : in_use (sb_getblk k b).1 x ↔ in_use k x;
  create_access_use k b x : in_use (journal_get_create_access k b).1 x ↔ in_use k x;
  create_access_err k b : (journal_get_create_access k b).2 ≤ 0;
  write_access_use k b x : in_use (journal_get_write_access k b).1 x ↔ in_use k x;
  write_access_err k b : (journal_get_write_access k b).2 ≤ 0;
  dirty_use k b x : in_use (journal_dirty_metadata k b).1 x ↔ in_use k x;
  dirty_err k b : (journal_dirty_metadata k b).2 ≤ 0;
  forget_use k b x : in_use (journal_forget k b) x ↔ in_use k x;
  init_use k x : in_use (init_alloc_info k).1 x ↔ in_use k x;
  (** a run of blocks that were free, or an error *)
  new_blocks_err k goal n k' b c e : new_blocks k goal n = (k', (b, c, e)) → e ≠ 0 → e < 0 ∧ ∀ x, in_use k' x ↔ in_use k x;
  new_blocks_ok k goal n k' b c : 1 ≤ n → new_blocks k goal n = (k', (b, c, 0)) →
    1 ≤ c ≤ n ∧ 0 < b ∧ b + c ≤ 2 ^ 32 ∧ ∀ x, (in_use k' x ↔ in_use k x ∨ b ≤ x < b + c) ∧ (b ≤ x < b + c → ¬ in_use k x);
  free_blocks_use k b n x : in_use (free_blocks k b n) x ↔ in_use k x ∧ ¬ b ≤ x < b + n;
}.

(** Two failures the block map does not survive are left out by this class, which the theorems name: without the
    buffer of [sb_getblk] the error path of [ext3_alloc_branch] forgets a buffer that was never set, and after an error
    of [journal_dirty_metadata] that of [ext3_splice_branch] frees blocks it has already linked into the tree. *)
Class BallocCalm (K : Type) `{Balloc K} : Prop := {
  sb_getblk_ok k b : (sb_getblk k b).2 = true;
  dirty_ok k b : (journal_dirty_metadata k b).2 = 0;
}.

Definition tr {K} (s : est K) : tree := Tree (e_data s) (e_blocks s).

Lemma tr_ptr {K} (s : est K) l : ptr s l = tptr (tr s) l.
Proof. by destruct l. Qed.
Lemma tr_set {K} (s : est K) l v : tr (set_ptr l v s) = tset l v (tr s).
Proof. by destruct l. Qed.

(** ** Chains *)
Fixpoint below (v : Z) (offs keys : list Z) {struct keys} : list Indirect :=
  match keys, offs with k :: keys, o :: offs => Ind (LBlk v o) k (Some v) :: below k offs keys | _, _ => [] end.

(** The chain of the path [offs] whose keys are [keys]. *)
Definition chain_of (offs keys : list Z) : list Indirect :=
  match keys, offs with k :: keys, o :: offs => Ind (LInode o) k None :: below k offs keys | _, _ => [] end.

(** The keys are what the tree has. *)
Definition valid (t : tree) (chain : list Indirect) : Prop := Forall (λ i, tptr t (in_p i) = Some (in_key i)) chain.

Lemma below_snoc v offs keys k o : offs !! length keys = Some o →
  below v offs (keys ++ [k]) = below v offs keys ++ [let b := default v (last keys) in Ind (LBlk b o) k (Some b)].
Proof.
  revert v offs. induction keys as [|k' keys IH]; intros v [|o' offs] Ho; try done.
  - cbn in *. injection Ho as ->. done.
  - cbn in Ho. cbn [app below]. rewrite IH, last_cons by done. by destruct (last keys).
Qed.

Lemma chain_of_snoc offs keys k o b : offs !! length keys = Some o → last keys = Some b →
  chain_of offs (keys ++ [k]) = chain_of offs keys ++ [Ind (LBlk b o) k (Some b)].
Proof.
  destruct keys as [|k' keys], offs as [|o' offs]; try done. intros Ho Hb. cbn in *. rewrite (below_snoc _ _ _ _ o) by done.
  do 2 f_equal. cbn. destruct keys as [|k2 keys]; [by injection Hb as ->|]. cbn. rewrite last_cons_cons in Hb. by rewrite Hb.
Qed.

Lemma below_take n v offs keys : take n (below v offs keys) = below v offs (take n keys).
Proof. revert n v keys. induction offs as [|o offs IH]; intros [|n] v [|k keys]; try done. cbn. by rewrite IH. Qed.

Lemma chain_of_take n offs keys : take n (chain_of offs keys) = chain_of offs (take n keys).
Proof. destruct offs, keys, n; try done. cbn. by rewrite below_take. Qed.

Lemma below_length v offs keys : (length keys ≤ length offs)%nat → length (below v offs keys) = length keys.
Proof. revert v keys. induction offs as [|o offs IH]; intros v [|k keys] Hl; cbn in *; try lia. rewrite IH; lia. Qed.

Lemma chain_of_length offs keys : (length keys ≤ length offs)%nat → length (chain_of offs keys) = length keys.
Proof. destruct offs, keys; cbn; try lia. intros Hl. rewrite below_length; lia. Qed.

Lemma take_S_lookup {A} n (l : list A) x : l !! n = Some x → take (S n) l = take n l ++ [x].
Proof. intros E. by apply take_S_r. Qed.

(** A chain that is the one of the tree leads to the pointer of its path. *)
Lemma chain_walk t offs keys : keys ≠ [] → (length keys ≤ length offs)%nat → Forall (λ k, k ≠ 0) (removelast keys) → valid t (chain_of offs keys) →
  ∃ i, last (chain_of offs keys) = Some i ∧ last keys = Some (in_key i) ∧ at_path t (take (length keys) offs) (in_p i) ∧
       walk t (take (length keys) offs) = Some (in_key i) ∧ in_bh i = home (in_p i).
Proof.
  induction keys as [|v keys IH] using rev_ind; [done|]. intros _ Hl Hnz Hv. rewrite removelast_last, length_app in *. cbn in Hl.
  destruct (lookup_lt_is_Some_2 offs (length keys)) as [o Ho]; [lia|]. rewrite Nat.add_1_r, (take_S_lookup _ _ o), last_snoc by done.
  destruct (decide (keys = [])) as [->|Hne].
  - destruct offs as [|o' offs]; [done|]. cbn in Ho. injection Ho as ->. apply Forall_cons in Hv as [Hv _]. cbn in Hv.
    exists (Ind (LInode o) v None). split_and!; try done. left. by exists o.
  - assert (Forall (λ k, k ≠ 0) (removelast keys)) as Hnz'.
    { destruct keys as [|x keys' _] using rev_ind; [done|]. rewrite removelast_last. by apply Forall_app in Hnz as [? _]. }
    destruct (last keys) as [b|] eqn:Eb; [|by apply last_None in Eb].
    rewrite (chain_of_snoc _ _ _ o b) in Hv |- * by done. apply Forall_app in Hv as [Hv Hi]. apply Forall_cons in Hi as [Hi _]. cbn in Hi.
    destruct IH as (i & _ & Ei & Hat & Hw & _); [done|lia|done..|]. injection Ei as ->.
    assert (in_key i ≠ 0) as Hi0 by (rewrite Forall_forall in Hnz; apply Hnz; by apply last_Some_elem_of).
    assert (take (length keys) offs ≠ []) as Hpre by (destruct keys, offs; done). eexists. split_and!; [apply last_snoc|done| | |done].
    + right. exists (take (length keys) offs), o, (in_key i). by split_and!.
    + rewrite walk_snoc, Hw, down_Some by done. done.
Qed.

Section reads.
Context {K : Type} `{BallocOk K}.
Variable ptrs_bits : Z.
Hypothesis bits_range : 8 ≤ ptrs_bits ≤ 10.
Variable bg_start blocks_per_group pid : Z.
Abbreviation path_ok := (path_ok ptrs_bits).

Definition ok (s : est K) : Prop := tree_ok ptrs_bits (tr s) (in_use (e_kern s)).

(** Only the rest of the kernel changed, and no block was allocated or freed. *)
Definition same (s s' : est K) : Prop := tr s' = tr s ∧ ∀ x, in_use (e_kern s') x ↔ in_use (e_kern s) x.

Lemma tree_same_refl s : same s s.
Proof. done. Qed.
Lemma tree_same_trans s1 s2 s3 : same s1 s2 → same s2 s3 → same s1 s3.
Proof. intros [E1 H1] [E2 H2]. split; [congruence|]. intros x. by rewrite H2. Qed.

Lemma same_ok s s' : same s s' → ok s → ok s'.
Proof. intros [E Hu] Hok. unfold ok. rewrite E. eapply tree_ok_used; [exact Hok|]. intros b. apply Hu. Qed.

Lemma wp_kcall {A} (f : K → K * A) Q (s : est K) : Q (f (e_kern s)).2 (Est (e_data s) (e_blocks s) (e_info s) (f (e_kern s)).1) → wp (kcall f) Q s.
Proof. intros HQ. unfold wp, kcall. destruct (f (e_kern s)) as [k a]. by eexists _, _. Qed.

Lemma wp_kcall_same {A} (f : K → K * A) Q (s : est K) :
  (∀ k x, in_use (f k).1 x ↔ in_use k x) → (∀ s', same s s' → Q (f (e_kern s)).2 s') → wp (kcall f) Q s.
Proof. intros Hf HQ. apply wp_kcall, HQ. split; [done|]. intros x. apply Hf. Qed.

Lemma wp_read (l : loc) v Q (s : est K) : tptr (tr s) l = Some v → Q v s → wp (read_ptr l) Q s.
Proof. intros Hl HQ. apply (wp_deref _ v); [by rewrite tr_ptr|done]. Qed.

(** ** [verify_chain] *)
Lemma wp_verify (chain : list Indirect) Q (s : est K) :
  (∀ n i, valid (tr s) (take n chain) → chain !! n = Some i → is_Some (tptr (tr s) (in_p i))) →
  (∀ b, (b = true ↔ valid (tr s) chain) → Q b s) → wp (verify_chain chain) Q s.
Proof.
  induction chain as [|i chain IH]; intros Hr HQ; cbn.
  { apply wp_ret, HQ. by split; [constructor|]. }
  destruct (Hr 0%nat i) as [v Hv]; [constructor|done|]. apply wp_bind. eapply wp_read; [exact Hv|].
  destruct (Z.eqb_spec (in_key i) v) as [Ek|Ek].
  - subst v. apply IH.
    + intros n j Hn Hj. apply (Hr (S n) j); [|done]. cbn. by constructor.
    + intros b Hb. apply HQ. rewrite Hb. unfold valid. rewrite Forall_cons. tauto.
  - apply wp_ret, HQ. split; [done|]. intros Hv'%Forall_cons. destruct Hv'. congruence.
Qed.

Lemma removelast_take {A} n (l : list A) : (n < length l)%nat → take n (removelast l) = take n l.
Proof. intros Hn. rewrite removelast_firstn_len, take_take. f_equal. lia. Qed.

(** A path has a path to each node on the way. *)
Lemma path_prefix p q : path_ok (p ++ q) → p ≠ [] → path_ok p ∧ (q ≠ [] → ¬ full p).
Proof.
  destruct p as [|a p]; [done|]. intros (Ha & Hf & Hl) _. rewrite Forall_app in Hf. cbn in *. rewrite length_app in Hl.
  split_and!; try tauto; [lia|]. destruct q; [done|]. cbn in Hl. lia.
Qed.

Lemma path_take n offs : path_ok offs → (0 < n < length offs)%nat → path_ok (take n offs) ∧ ¬ full (take n offs) ∧ take n offs ≠ [].
Proof.
  intros Hp Hn. assert (take n offs ≠ []) as Hne by (destruct n, offs; cbn in *; lia || done). rewrite <- (take_drop n offs) in Hp.
  destruct (path_prefix _ _ Hp Hne) as [? Hf]. split_and!; try done. apply Hf. intros E%(f_equal length). rewrite length_drop in E. cbn in E. lia.
Qed.

Lemma path_elem n o offs : path_ok offs → offs !! S n = Some o → in_block ptrs_bits o.
Proof. destruct offs as [|a offs]; [done|]. intros (_ & Hf & _) Ho. cbn in Ho. rewrite Forall_lookup in Hf. by eapply Hf. Qed.

(** A chain that was right once can be verified. *)
Lemma wp_verify_chain offs keys Q (s : est K) : ok s → path_ok offs → (length keys ≤ length offs)%nat → Forall (λ k, k ≠ 0) (removelast keys) →
  (∀ b, (b = true ↔ valid (tr s) (chain_of offs keys)) → Q b s) → wp (verify_chain (chain_of offs keys)) Q s.
Proof.
  intros Hok Hp Hl Hnz. apply wp_verify. intros n i Hn Hi. rewrite chain_of_take in Hn.
  assert (n < length keys)%nat as Hlt by (rewrite <- (chain_of_length offs keys) by done; by eapply lookup_lt_Some).
  assert (take (S n) (chain_of offs keys) = take n (chain_of offs keys) ++ [i]) as Ei by (by apply take_S_lookup).
  destruct (lookup_lt_is_Some_2 keys n) as [k Hk]; [done|]. destruct (lookup_lt_is_Some_2 offs n) as [o Ho]; [lia|].
  rewrite !chain_of_take, (take_S_lookup _ _ k) in Ei by done. destruct n as [|n].
  - destruct offs as [|o' offs]; [done|]. cbn in Ei. injection Ei as <-. cbn. apply lookup_lt_is_Some_2.
    pose proof (ok_data _ _ _ Hok) as Hd. cbn in Hd. rewrite Hd. destruct Hp as (Hp & _). lia.
  - assert (length (take (S n) keys) = S n) as Hlen by (rewrite length_take; lia).
    destruct (chain_walk (tr s) offs (take (S n) keys)) as (j & _ & Ej & _ & Hw & _); [by destruct keys|lia| |done|].
    { rewrite <- (take_drop (S n) (removelast keys)) in Hnz. apply Forall_app in Hnz as [Hnz _]. rewrite removelast_take in Hnz by done.
      destruct (take (S n) keys) as [|x l _] using rev_ind; [done|]. rewrite removelast_last. by apply Forall_app in Hnz as [? _]. }
    rewrite (chain_of_snoc _ _ _ o (in_key j)) in Ei by (by rewrite ?Hlen). apply app_inj_tail in Ei as [_ <-]. cbn [in_p].
    rewrite Hlen in Hw. destruct (path_take (S n) offs Hp) as (Hp1 & Hf1 & _); [lia|].
    eapply ok_node_ptr; [exact Hok|exact Hp1|exact Hf1|exact Hw| |exact (path_elem n o offs Hp Ho)].
    rewrite Forall_lookup in Hnz. apply (Hnz n). rewrite removelast_firstn_len, lookup_take_lt by lia.
    rewrite last_lookup, Hlen, lookup_take_lt in Ej by (cbn; lia). exact Ej.
Qed.

(** ** [ext3_get_branch] *)

(** What it found: the whole chain, a chain that ends with a missing block, or a block that could not be read. *)
Definition branch_res (offs keys : list Z) (found : bool) (err : Z) : Prop :=
  keys ≠ [] ∧ (length keys ≤ length offs)%nat ∧ Forall (λ k, k ≠ 0) (removelast keys) ∧
  ∃ k, last keys = Some k ∧
    if found then err = 0 ∧ length keys = length offs ∧ k ≠ 0
    else (err = 0 ∧ k = 0) ∨ (err = - EIO ∧ k ≠ 0 ∧ (length keys < length offs)%nat ∧ ∃ x b, (sb_bread (K := K) x b).2 = false).

Definition branch_post (offs : list Z) (s : est K) (r : list Indirect * bool * Z) (s' : est K) : Prop :=
  same s s' ∧ ∃ keys, r.1.1 = chain_of offs keys ∧ valid (tr s) (chain_of offs keys) ∧ branch_res offs keys r.1.2 r.2.

Lemma branch_post_same offs s0 s r s' : same s0 s → branch_post offs s r s' → branch_post offs s0 r s'.
Proof.
  intros Hs [Hs' (keys & Hc & Hv & Hr)]. split; [by eapply tree_same_trans|]. exists keys. destruct Hs as [E _]. by rewrite <- E.
Qed.

Lemma branch_post_intro offs keys k (found : bool) err (s s' : est K) : same s s' → valid (tr s) (chain_of offs keys) →
  (length keys ≤ length offs)%nat → Forall (λ k, k ≠ 0) (removelast keys) → last keys = Some k →
  (if found then err = 0 ∧ length keys = length offs ∧ k ≠ 0
   else (err = 0 ∧ k = 0) ∨ (err = - EIO ∧ k ≠ 0 ∧ (length keys < length offs)%nat ∧ ∃ x b, (sb_bread (K := K) x b).2 = false)) →
  branch_post offs s (chain_of offs keys, found, err) s'.
Proof.
  intros Hs Hv Hl Hnz Hk Hr. split; [done|]. exists keys. split; [done|]. split; [done|]. split; [by intros ->|]. split; [done|]. split; [done|]. by exists k.
Qed.

Lemma drop_cons_inv {A} n (l : list A) x r : drop n l = x :: r → l !! n = Some x ∧ drop (S n) l = r.
Proof.
  intros E. assert (l !! n = Some x) as Hx by (rewrite <- (Nat.add_0_r n), <- lookup_drop, E; done). split; [done|].
  rewrite (drop_S _ _ _ Hx) in E. by injection E.
Qed.

(** The next pointer of a chain of the tree can be read. *)
Lemma chain_next offs keys key o (s : est K) : ok s → path_ok offs → last keys = Some key → offs !! length keys = Some o →
  Forall (λ k, k ≠ 0) keys → valid (tr s) (chain_of offs keys) → is_Some (tptr (tr s) (LBlk key o)).
Proof.
  intros Hok Hp Hl Ho Hnz Hv. assert (length keys < length offs)%nat as Hlt by (by eapply lookup_lt_Some).
  assert (keys ≠ []) as Hne by (by intros ->).
  destruct (chain_walk (tr s) offs keys) as (i & _ & Ei & _ & Hw & _); [done|lia| |done|].
  { destruct keys as [|x l _] using rev_ind; [done|]. rewrite removelast_last. by apply Forall_app in Hnz as [? _]. }
  rewrite Hl in Ei. injection Ei as ->. assert (length keys = S (pred (length keys))) as Hpos by (destruct keys; [done|cbn; lia]).
  destruct (path_take (length keys) offs Hp) as (Hp1 & Hf1 & _); [lia|].
  eapply ok_node_ptr; [exact Hok|exact Hp1|exact Hf1|exact Hw| |].
  - rewrite Forall_forall in Hnz. apply Hnz. by apply last_Some_elem_of.
  - rewrite Hpos in Ho. by apply (path_elem _ _ _ Hp Ho).
Qed.

Lemma branch_loop_ok rest offs keys key (s : est K) : ok s → path_ok offs → drop (length keys) offs = rest → (length keys ≤ length offs)%nat →
  last keys = Some key → Forall (λ k, k ≠ 0) keys → valid (tr s) (chain_of offs keys) →
  wp (branch_loop rest (chain_of offs keys) key) (branch_post offs s) s.
Proof.
  revert keys key s. induction rest as [|o rest IH]; intros keys key s Hok Hp Eo Hlen Hl Hnz Hv; cbn;
    assert (keys ≠ []) as Hne by (by intros ->); assert (key ≠ 0) as Hkey by (rewrite Forall_forall in Hnz; apply Hnz; by apply last_Some_elem_of);
    assert (Forall (λ k, k ≠ 0) (removelast keys)) as Hnz'
      by (destruct keys as [|x l _] using rev_ind; [done|]; rewrite removelast_last; by apply Forall_app in Hnz as [? _]).
  - apply wp_ret. eapply branch_post_intro; [apply tree_same_refl|done..|]. split_and!; try done.
    apply (f_equal length) in Eo. rewrite length_drop in Eo. cbn in Eo. lia.
  - destruct (drop_cons_inv _ _ _ _ Eo) as [Ho Eo']. assert (length keys < length offs)%nat as Hlt by (by eapply lookup_lt_Some).
    apply wp_bind, wp_kcall_same; [intros; apply sb_bread_use|]. intros s1 Hs1. apply wp_if; intros Hbr.
    { apply wp_ret. eapply branch_post_intro; [done..|]. right. split_and!; try done.
      apply negb_true_iff in Hbr. eauto. }
    assert (ok s1) as Hok1 by (by eapply same_ok). destruct Hs1 as [Et Hu]. rewrite <- Et in Hv.
    apply wp_bind, wp_verify_chain; [done..|]. intros b Hb. rewrite (proj2 Hb Hv). cbn [negb].
    destruct (chain_next offs keys key o s1) as [v Hvp]; [done..|]. apply wp_bind. eapply wp_read; [exact Hvp|].
    rewrite <- (chain_of_snoc offs keys v o key) by done. assert (valid (tr s1) (chain_of offs (keys ++ [v]))) as Hv'.
    { rewrite (chain_of_snoc offs keys v o key) by done. apply Forall_app. split; [done|]. by constructor. }
    eapply wp_mono; [|intros r s'; apply branch_post_same; by split]. destruct (Z.eqb_spec v 0) as [->|Hv0].
    + apply wp_ret. eapply branch_post_intro; rewrite ?length_app, ?removelast_last, ?last_snoc; try done; [cbn; lia|by left].
    + apply (IH (keys ++ [v])); rewrite ?length_app, ?last_snoc; cbn; rewrite ?Nat.add_1_r; try done; try lia. apply Forall_app. by repeat constructor.
Qed.

Lemma inode_ptr o (s : est K) : ok s → 0 ≤ o < EXT3_N_BLOCKS → is_Some (tptr (tr s) (LInode o)).
Proof. intros Hok Ho. apply lookup_lt_is_Some_2. rewrite (ok_data _ _ _ Hok). lia. Qed.

Lemma get_branch_ok offs (s : est K) : ok s → path_ok offs → wp (ext3_get_branch offs) (branch_post offs s) s.
Proof.
  intros Hok Hp. destruct offs as [|o offs]; [done|]. cbn. destruct (inode_ptr o s) as [v Hv]; [done|by destruct Hp|].
  apply wp_bind. eapply wp_read; [exact Hv|]. assert (valid (tr s) (chain_of (o :: offs) [v])) as Hvl by (by constructor).
  change [Ind (LInode o) v None] with (chain_of (o :: offs) [v]). destruct (Z.eqb_spec v 0) as [->|Hv0].
  - apply wp_ret. eapply branch_post_intro; try done; [cbn; lia|by left].
  - apply branch_loop_ok; try done; cbn; [lia|]. by repeat constructor.
Qed.

(** ** The pointers that follow *)
Lemma at_path_readable p l (s : est K) : ok s → path_ok p → at_path (tr s) p l → is_Some (tptr (tr s) l).
Proof.
  intros Hok Hp [(o & -> & ->)|(q & o & b & Hq & -> & Hb & Hb0 & ->)].
  - apply inode_ptr; [done|by destruct Hp].
  - apply path_ok_snoc in Hp as (Hpq & Hf & Ho); [|done]. by eapply ok_node_ptr.
Qed.

Lemma slot_ptr q o k n l j (s : est K) : ok s → at_path (tr s) (q ++ [o]) l → slots ptrs_bits q o k n → 0 ≤ j < Z.of_nat n →
  walk (tr s) (q ++ [o + j]) = tptr (tr s) (loc_add l j) ∧ is_Some (tptr (tr s) (loc_add l j)).
Proof.
  intros Hok Hat Hs Hj. assert (at_path (tr s) (q ++ [o + j]) (loc_add l j)) as Hat' by (by eapply at_path_next).
  split; [by apply at_path_ptr|]. eapply at_path_readable; [done| |exact Hat']. by apply Hs.
Qed.

Lemma slot_map q o k n l j v (s : est K) : ok s → at_path (tr s) (q ++ [o]) l → slots ptrs_bits q o k n → 0 ≤ j < Z.of_nat n →
  tptr (tr s) (loc_add l j) = Some v → tmap ptrs_bits (tr s) (k + j) = if v =? 0 then None else Some v.
Proof.
  intros Hok Hat Hs Hj Hv. destruct (slot_ptr q o k n l j s Hok Hat Hs Hj) as [Hw _]. destruct (Hs j Hj) as (Hp & Hf & Hk).
  unfold tmap. rewrite <- Hk, path_of_block, Hw, Hv by done. done.
Qed.

Lemma wp_near_scan (l : Z → loc) n Q (s : est K) : (∀ j, 0 ≤ j < Z.of_nat n → is_Some (tptr (tr s) (l j))) → (∀ r, Q r s) → wp (near_scan l n) Q s.
Proof.
  intros Hr HQ. induction n as [|n IH]; cbn; [by apply wp_ret|]. destruct (Hr (Z.of_nat n)) as [v Hv]; [lia|].
  apply wp_bind. eapply wp_read; [exact Hv|]. destruct (v =? 0); [|by apply wp_ret]. apply IH. intros j Hj. apply Hr. lia.
Qed.

Lemma wp_find_near p ind Q (s : est K) : ok s → path_ok p → at_path (tr s) p (in_p ind) → (∀ v, Q v s) →
  wp (ext3_find_near bg_start blocks_per_group pid ind) Q s.
Proof.
  intros Hok Hp Hat HQ. assert (∀ r, wp (match r with Some v => mret v | None => match in_bh ind with Some b => mret b
    | None => mret (bg_start + pid mod 16 * (blocks_per_group / 16)) end end) Q s) as Hend.
  { intros [v|]; [by apply wp_ret|]. destruct (in_bh ind); by apply wp_ret. }
  unfold ext3_find_near. apply wp_bind. destruct Hat as [(o & -> & ->)|(q & o & b & Hq & -> & Hb & Hb0 & ->)].
  - apply wp_near_scan; [|done]. intros j Hj. apply inode_ptr; [done|]. destruct Hp. lia.
  - apply path_ok_snoc in Hp as (Hpq & Hf & Ho); [|done]. apply wp_near_scan; [|done]. intros j Hj.
    eapply ok_node_ptr; [done|exact Hpq|done..|]. unfold in_block in *. lia.
Qed.

Lemma wp_find_goal p block ind Q (s : est K) : ok s → path_ok p → at_path (tr s) p (in_p ind) → (∀ v, Q v s) →
  wp (ext3_find_goal bg_start blocks_per_group pid block ind) Q s.
Proof.
  intros Hok Hp Hat HQ. unfold ext3_find_goal. apply wp_bind, wp_get. destruct (e_info s) as [[lg ph]|]; [|by eapply wp_find_near].
  apply wp_if; intros _; [by apply wp_ret|by eapply wp_find_near].
Qed.

Lemma wp_count_free fuel l count blks boundary Q (s : est K) : 1 ≤ count → count ≤ Z.max 1 blks → count ≤ boundary + 1 →
  (∀ j, 0 ≤ j ≤ boundary → is_Some (tptr (tr s) (loc_add l j))) → (∀ j, 0 ≤ j < count → tptr (tr s) (loc_add l j) = Some 0) →
  (∀ c, 1 ≤ c → c ≤ Z.max 1 blks → c ≤ boundary + 1 → (∀ j, 0 ≤ j < c → tptr (tr s) (loc_add l j) = Some 0) → Q c s) →
  wp (count_free fuel l count blks boundary) Q s.
Proof.
  revert count. induction fuel as [|fuel IH]; intros count H1 H2 H3 Hr Hz HQ; cbn; [apply wp_ret; auto|].
  apply wp_if; intros Hc; [|apply wp_ret; auto]. apply andb_true_iff in Hc as [?%Z.ltb_lt ?%Z.leb_le].
  destruct (Hr count) as [v Hv]; [lia|]. apply wp_bind. eapply wp_read; [exact Hv|].
  destruct (Z.eqb_spec v 0) as [->|]; [|apply wp_ret; auto]. apply IH; try lia; try done.
  intros j Hj. destruct (decide (j = count)) as [->|]; [done|]. apply Hz. lia.
Qed.

Lemma wp_map_more fuel offs keys l first count max boundary Q (s : est K) : ok s → path_ok offs → (length keys ≤ length offs)%nat →
  Forall (λ k, k ≠ 0) (removelast keys) → valid (tr s) (chain_of offs keys) →
  1 ≤ count → count ≤ Z.max 1 max → count ≤ boundary + 1 → (∀ j, 0 ≤ j ≤ boundary → is_Some (tptr (tr s) (loc_add l j))) →
  (∀ j, 0 ≤ j < count → tptr (tr s) (loc_add l j) = Some (first + j)) →
  (∀ c, 1 ≤ c → c ≤ Z.max 1 max → c ≤ boundary + 1 → (∀ j, 0 ≤ j < c → tptr (tr s) (loc_add l j) = Some (first + j)) → Q (0, c) s) →
  wp (map_more fuel (chain_of offs keys) l first count max boundary) Q s.
Proof.
  revert count. induction fuel as [|fuel IH]; intros count Hok Hp Hl Hnz Hv H1 H2 H3 Hr Hz HQ; cbn; [apply wp_ret; auto|].
  apply wp_if; intros Hc; [|apply wp_ret; auto]. apply andb_true_iff in Hc as [?%Z.ltb_lt ?%Z.leb_le].
  apply wp_bind, wp_verify_chain; [done..|]. intros b Hb. rewrite (proj2 Hb Hv). cbn [negb].
  destruct (Hr count) as [v Hvc]; [lia|]. apply wp_bind. eapply wp_read; [exact Hvc|].
  destruct (Z.eqb_spec v (first + count)) as [->|]; [|apply wp_ret; auto]. apply IH; try lia; try done.
  intros j Hj. destruct (decide (j = count)) as [->|]; [done|]. apply Hz. lia.
Qed.
End reads.
