(* ===== verification/Ext3Alloc.v ===== *)
(** * Allocating and splicing a branch

    [ext3_alloc_blocks] returns fresh blocks or gives all of them back, [ext3_alloc_branch] fills blocks of pointers
    that nothing refers to yet, and [ext3_splice_branch] makes the tree grow by the branch or frees it again. *)
From S2P Require Import Prelude Interfaces StateMonad Ext3Tree Ext3Path Ext3Walk Ext3Grow Ext3Chain.

Section alloc.
Context {K : Type} `{BallocOk K, !BallocCalm K}.
Variable ptrs_bits : Z.
Hypothesis bits_range : 8 ≤ ptrs_bits ≤ 10.
Abbreviation path_ok := (path_ok ptrs_bits).
Abbreviation ok := (ok (K := K) ptrs_bits).

(** The blocks in use. *)
Abbreviation uses s U := (∀ x : Z, in_use (e_kern s) x ↔ U x).

Lemma uses_same (s s' : est K) (U : Z → Prop) : uses s U → same s s' → uses s' U.
Proof. intros HU [_ Hs] x. by rewrite Hs. Qed.

Lemma wp_free b n (U : Z → Prop) Q (s : est K) : uses s U → (∀ s', tr s' = tr s → uses s' (λ x, U x ∧ ¬ b ≤ x < b + n) → Q () s') →
  wp (kdo (λ k, free_blocks k b n)) Q s.
Proof.
  intros HU HQ. apply wp_kcall, HQ; [done|]. intros x. cbn. by rewrite free_blocks_use, HU.
Qed.

Lemma wp_free_each l (U : Z → Prop) Q (s : est K) : uses s U → (∀ s', tr s' = tr s → uses s' (λ x, U x ∧ x ∉ l) → Q () s') → wp (free_each l) Q s.
Proof.
  revert U s. induction l as [|b l IH]; intros U s HU HQ; cbn.
  { apply wp_ret, HQ; [done|]. intros x. rewrite HU. set_solver. }
  apply wp_bind, (wp_free _ _ U); [done|]. intros s1 E1 HU1. eapply IH; [exact HU1|]. intros s2 E2 HU2. apply HQ; [congruence|].
  intros x. rewrite HU2, not_elem_of_cons. cbn. split; [intros [[? ?] ?]|intros (? & ? & ?)]; (split_and!; try done; lia).
Qed.

(** Consecutive numbers. *)
Lemma run_elem b m x : x ∈ Z.add b <$> seqZ 0 m ↔ b ≤ x < b + m.
Proof.
  rewrite list_elem_of_fmap. split.
  - intros (y & -> & Hy%elem_of_seqZ). lia.
  - intros Hx. exists (x - b). split; [lia|]. apply elem_of_seqZ. lia.
Qed.

Lemma run_NoDup b m : NoDup (Z.add b <$> seqZ 0 m).
Proof. apply NoDup_fmap; [|apply NoDup_seqZ]. intros x y. lia. Qed.

Lemma run_length b m : 0 ≤ m → length (Z.add b <$> seqZ 0 m) = Z.to_nat m.
Proof. intros Hm. by rewrite length_fmap, length_seqZ. Qed.

(** ** [ext3_alloc_blocks] *)

(** [inds] blocks of pointers and [num] data blocks from [d] on, none of them in [U]. *)
Record branch_blocks (U : Z → Prop) (inds : list Z) (d num : Z) : Prop := {
  bb_nodup : NoDup inds;
  bb_inds : Forall (fresh U) inds;
  bb_data j : 0 ≤ j < num → fresh U (d + j) ∧ d + j ∉ inds;
}.

Lemma wp_alloc_loop fuel goal blks (need : nat) got (U : Z → Prop) Q (s : est K) : 1 ≤ blks → (need < fuel)%nat →
  uses s (λ x, U x ∨ x ∈ got) → NoDup got → Forall (fresh U) got →
  (∀ err got' s', err < 0 → tr s' = tr s → uses s' U → Q (err, 0, got') s') →
  (∀ num inds d s', 1 ≤ num ≤ blks → length inds = (length got + need)%nat → branch_blocks U inds d num →
     tr s' = tr s → uses s' (λ x, U x ∨ x ∈ inds ∨ d ≤ x < d + num) → Q (0, num, inds ++ [d]) s') →
  wp (alloc_loop fuel goal (blks + Z.of_nat need) need got) Q s.
Proof.
  intros Hblks. revert need got s. induction fuel as [|fuel IH]; intros need got s Hfuel HU Hnd Hfr Herr HQ; [lia|]. cbn.
  apply wp_bind, wp_kcall. destruct (new_blocks _ _ _) as [k' [[b c] e]] eqn:En. cbn [fst snd]. apply wp_if; intros He.
  { apply negb_true_iff, Z.eqb_neq in He. destruct (new_blocks_err _ _ _ _ _ _ _ En He) as [He0 Hu].
    apply wp_bind, (wp_free_each _ (λ x, U x ∨ x ∈ got)); [intros x; cbn; by rewrite Hu|]. intros s1 E1 HU1. apply wp_ret, Herr; [done|done|].
    intros x. rewrite HU1. rewrite Forall_forall in Hfr. split; [tauto|]. intros Hx. split; [by left|]. intros Hg. by destruct (Hfr x Hg). }
  apply negb_false_iff, Z.eqb_eq in He. subst e. assert (1 ≤ blks + Z.of_nat need) as Ht by lia. destruct (new_blocks_ok _ _ _ _ _ _ Ht En) as (Hc & Hb & Hbc & Hu).
  set (m := Nat.min need (Z.to_nat c)). set (got' := got ++ (Z.add b <$> seqZ 0 (Z.of_nat m))).
  assert (∀ x, x ∈ got' ↔ x ∈ got ∨ b ≤ x < b + Z.of_nat m) as Hg by (intros x; unfold got'; by rewrite elem_of_app, run_elem).
  assert (∀ x, b ≤ x < b + c → fresh U x ∧ x ∉ got) as Hnew.
  { intros x Hx. destruct (Hu x) as [_ Hf]. specialize (Hf Hx). rewrite HU in Hf. split; [split; [lia|]|]; tauto. }
  assert (NoDup got') as Hnd'.
  { apply NoDup_app. split_and!; [done| |apply run_NoDup]. intros x Hx Hx'%run_elem. by apply (Hnew x ltac:(lia)). }
  assert (Forall (fresh U) got') as Hfr'.
  { apply Forall_app. split; [done|]. apply Forall_forall. intros x Hx%run_elem. apply Hnew. lia. }
  assert (length got' = length got + m)%nat as Hlen by (unfold got'; rewrite length_app, run_length; lia).
  apply wp_if; intros Hm; [apply Z.ltb_lt in Hm|apply Z.ltb_ge in Hm].
  - apply wp_ret, HQ; [lia|lia| |done|].
    + split; [done..|]. intros j Hj. rewrite Hg. destruct (Hnew (b + Z.of_nat m + j)) as [? ?]; [lia|]. split; [done|]. intros [?|?]; [done|lia].
    + intros x. cbn. rewrite Hg, (proj1 (Hu x)), HU. intuition lia.
  - assert (blks + Z.of_nat need - c = blks + Z.of_nat (need - m)) as -> by lia. apply IH; try done; try lia.
    + intros x. cbn. rewrite Hg, (proj1 (Hu x)), HU. intuition lia.
    + intros num inds d s' Hnum Hl HB Et HU'. apply HQ; try done. lia.
Qed.

(** ** Writing pointers *)
Lemma wp_write (l : loc) v Q (s : est K) : is_Some (tptr (tr s) l) →
  (∀ s', tr s' = tset l v (tr s) → e_kern s' = e_kern s → Q () s') → wp (write_ptr l v) Q s.
Proof.
  intros [w Hw] HQ. apply wp_bind. eapply wp_read; [exact Hw|]. apply wp_modify, HQ; [apply tr_set|by destruct l].
Qed.

Lemma wp_write_run (l : loc) i v n Q (s : est K) : 0 ≤ v → v + Z.of_nat n ≤ 2 ^ 32 →
  (∀ j, 0 ≤ j < Z.of_nat n → 0 ≤ off (loc_add l (i + j)) ∧ is_Some (tptr (tr s) (loc_add l (i + j)))) →
  (∀ s', tr s' = run (loc_add l i) v n (tr s) → e_kern s' = e_kern s → Q () s') → wp (write_run l i v n) Q s.
Proof.
  revert i v s. induction n as [|n IH]; intros i v s Hv Hvn Hr HQ; cbn [write_run]; [apply wp_ret, HQ; done|].
  destruct (Hr 0) as [Ho Hs]; [lia|]. rewrite Z.add_0_r in *. apply wp_bind, wp_write; [done|]. intros s1 E1 K1. apply IH; [lia|lia| |].
  - intros j Hj. destruct (Hr (j + 1)) as [Ho' Hs']; [lia|]. replace (i + 1 + j) with (i + (j + 1)) by lia. split; [done|].
    destruct Hs as [w Hw]. rewrite E1, (tptr_tset _ _ _ w) by done. case_decide; [by eexists|done].
  - intros s2 E2 K2. apply HQ; [|congruence]. rewrite E2, E1, wrapu_small by lia. cbn. by rewrite loc_add_add.
Qed.

(** ** [ext3_alloc_branch] *)
Fixpoint newlinks (inds offs : list Z) (d : Z) : list Indirect :=
  match inds, offs with
  | b :: inds, o :: offs => Ind (LBlk b o) (default d (head inds)) (Some b) :: newlinks inds offs d
  | _, _ => []
  end.

Lemma wp_forget_all (branch : list Indirect) Q (s : est K) : Forall (λ i, is_Some (in_bh i)) branch → (∀ s', same s s' → Q () s') → wp (forget_all branch) Q s.
Proof.
  revert s. induction branch as [|i branch IH]; intros s Hb HQ; cbn; [by apply wp_ret, HQ|]. apply Forall_cons in Hb as [[b Hb] Hbs].
  apply wp_bind. rewrite Hb. eapply wp_lift; [done|]. apply wp_bind, wp_kcall_same; [intros; apply forget_use|]. intros s1 H1.
  apply IH; [done|]. intros s2 H2. apply HQ. by eapply tree_same_trans.
Qed.

(** All blocks of a branch are given back. *)
Lemma free_branch (U : Z → Prop) inds d num x : branch_blocks U inds d num →
  ((U x ∨ x ∈ inds ∨ d ≤ x < d + num) ∧ x ∉ inds) ∧ ¬ d ≤ x < d + num ↔ U x.
Proof.
  intros [_ Hi Hd]. rewrite Forall_forall in Hi. split; [tauto|]. intros Hx. split_and!; [tauto| |].
  - intros Hin. by destruct (Hi x Hin).
  - intros Hr. destruct (Hd (x - d)) as [[_ Hn] _]; [lia|]. apply Hn. by replace (d + (x - d)) with x by lia.
Qed.

Lemma wp_alloc_failed err branch inds d num (U : Z → Prop) Q (s : est K) : Forall (λ i, is_Some (in_bh i)) branch → branch_blocks U inds d num →
  uses s (λ x, U x ∨ x ∈ inds ∨ d ≤ x < d + num) → (∀ s', tr s' = tr s → uses s' U → Q (err, 0, []) s') →
  wp (alloc_failed err branch (inds ++ [d]) num) Q s.
Proof.
  intros Hb HB HU HQ. apply wp_bind, wp_forget_all; [done|]. intros s1 [E1 H1]. rewrite removelast_last, last_snoc.
  apply wp_bind, (wp_free_each _ (λ x, U x ∨ x ∈ inds ∨ d ≤ x < d + num)); [intros x; by rewrite H1|]. intros s2 E2 H2.
  apply wp_bind. eapply wp_lift; [done|]. eapply wp_bind, wp_free; [exact H2|]. intros s3 E3 H3. apply wp_ret, HQ; [congruence|].
  intros x. rewrite H3. by apply free_branch.
Qed.

(** A block of pointers is zeroed, and pointers are written into it. *)
Lemma wp_fill b o v (more : option Z) Q (s : est K) : in_block ptrs_bits o → 0 ≤ v < 2 ^ 32 →
  (∀ num, more = Some num → 1 ≤ num ∧ v + num ≤ 2 ^ 32 ∧ o + num ≤ ptrs ptrs_bits) →
  (∀ s', tr s' = match more with Some num => run (LBlk b o) v (Z.to_nat num) | None => tset (LBlk b o) v end (tblk b (zeros ptrs_bits) (tr s)) →
     e_kern s' = e_kern s → Q () s') →
  wp (fill_block ptrs_bits b o v more) Q s.
Proof.
  intros Ho Hv Hm HQ. apply wp_bind, wp_modify, wp_bind. unfold in_block in Ho. set (s1 := Est _ _ _ _).
  assert (∀ i, 0 ≤ i < ptrs ptrs_bits → tptr (tr s1) (LBlk b i) = Some 0) as Hz.
  { intros i Hi. change (tr s1) with (tblk b (zeros ptrs_bits) (tr s)). rewrite tptr_tblk, decide_True by done. by apply zeros_lookup. }
  apply wp_write; [rewrite Hz by lia; by eexists|]. intros s2 E2 K2. rewrite wrapu_small in E2 by lia. destruct more as [num|].
  - destruct (Hm num eq_refl) as (H1 & H2 & H3). apply wp_write_run; [lia|lia| |].
    + intros j Hj. cbn [off loc_add]. split; [lia|]. rewrite E2, (tptr_tset _ _ _ 0) by (rewrite ?Hz by lia; cbn; lia || done).
      case_decide; [by eexists|]. rewrite Hz by lia. by eexists.
    + intros s3 E3 K3. apply HQ; [|by rewrite K3, K2]. rewrite E3, E2. replace (Z.to_nat num) with (S (Z.to_nat (num - 1))) by lia. done.
  - apply wp_ret, HQ; [done|]. by rewrite K2.
Qed.

(** [offs] are offsets of blocks of pointers, and [num] pointers fit from the last one on. *)
Definition fits (offs : list Z) (num : Z) : Prop := Forall (in_block ptrs_bits) offs ∧ ∀ o, last offs = Some o → o + num ≤ ptrs ptrs_bits.

Lemma fits_tail o offs num : fits (o :: offs) num → fits offs num.
Proof. intros [Hf Hl]. apply Forall_cons in Hf as [_ Hf]. split; [done|]. intros o' Ho'. apply Hl. rewrite last_cons. by rewrite Ho'. Qed.

Lemma wp_link_loop all inds offs d num branch (U : Z → Prop) Q (s : est K) : length inds = length offs → fits offs num → 1 ≤ num → 0 < d → d + num ≤ 2 ^ 32 →
  branch_blocks U all d num → (∀ b, b ∈ inds → b ∈ all) → uses s (λ x, U x ∨ x ∈ all ∨ d ≤ x < d + num) → Forall (λ i, is_Some (in_bh i)) branch →
  (∀ err s', err < 0 → agree (λ b, b ∈ all) (tr s) (tr s') → uses s' U → Q (err, 0, []) s') →
  (∀ s', tr s' = linked ptrs_bits inds offs d (Z.to_nat num) (tr s) → uses s' (λ x, U x ∨ x ∈ all ∨ d ≤ x < d + num) → Q (0, num, branch ++ newlinks inds offs d) s') →
  wp (link_loop ptrs_bits (all ++ [d]) (inds ++ [d]) offs num branch) Q s.
Proof.
  intros Hlen Hfit Hnum Hd Hdn HB Hall. revert offs branch s Hlen Hfit. induction inds as [|b inds IH]; intros [|o offs] branch s Hlen Hfit HU Hbr Herr HQ; try done.
  { cbn. apply wp_ret. rewrite <- (app_nil_r branch). by apply HQ. }
  assert (b ∈ all) as Hb by (apply Hall; set_solver).
  assert (∃ v, inds ++ [d] = v :: tail (inds ++ [d]) ∧ v = default d (head inds) ∧ 0 < v < 2 ^ 32) as (v & Enews & Ev & Hv).
  { destruct inds as [|b' inds]; [exists d; cbn; split_and!; done || lia|]. exists b'. split_and!; try done.
    all: destruct HB as [_ Hi _]; rewrite Forall_forall in Hi; apply Hi, Hall; set_solver. }
  cbn [app link_loop]. rewrite Enews. apply wp_bind, wp_kcall_same; [intros; apply sb_getblk_use|]. intros s1 [E1 H1].
  rewrite sb_getblk_ok. cbn [negb]. apply wp_bind, wp_kcall_same; [intros; apply create_access_use|]. intros s2 [E2 H2].
  assert (uses s2 (λ x, U x ∨ x ∈ all ∨ d ≤ x < d + num)) as HU2 by (intros x; by rewrite H2, H1).
  apply wp_if; intros He.
  { apply negb_true_iff, Z.eqb_neq in He. pose proof (create_access_err (e_kern s1) b).
    eapply wp_alloc_failed; [|exact HB|exact HU2|].
    - apply Forall_app. split; [done|]. constructor; [by eexists|done].
    - intros s3 E3 HU3. apply Herr; [lia| |done]. rewrite E3, E2, E1. apply agree_refl. }
  apply wp_bind, (wp_fill b o v).
  { destruct Hfit as [Hin _]. by apply Forall_cons in Hin as [? _]. }
  { lia. }
  { intros n. destruct inds as [|b' inds]; [|by destruct inds]. intros [= <-]. cbn in Enews, Ev. destruct offs; [|done].
    subst v. destruct Hfit as [_ Hlast]. split_and!; [done..|]. by apply Hlast. }
  intros s3 E3 K3. apply wp_bind, wp_kcall_same; [intros; apply dirty_use|]. intros s4 [E4 H4]. 
  rewrite <- Enews, wrapu_small by lia. assert (tr s4 = match inds with [] => run (LBlk b o) d (Z.to_nat num) | b' :: _ => tset (LBlk b o) b' end
    (tblk b (zeros ptrs_bits) (tr s))) as Et.
  { rewrite E4, E3, E2, E1, Ev. destruct inds as [|b' [|]]; done. }
  assert (agree (λ b, b ∈ all) (tr s) (tr s4)) as Ha4.
  { rewrite Et. eapply agree_trans; [by apply (agree_tblk _ b)|]. destruct inds; [by apply agree_run|by apply agree_tset]. }
  assert (uses s4 (λ x, U x ∨ x ∈ all ∨ d ≤ x < d + num)) as HU4 by (intros x; by rewrite H4, K3, HU2).
  apply wp_if; intros He4.
  { apply negb_true_iff, Z.eqb_neq in He4. pose proof (dirty_err (e_kern s3) b). eapply wp_alloc_failed; [|exact HB|exact HU4|].
    - apply Forall_app. split; [done|]. constructor; [by eexists|done].
    - intros s5 E5 HU5. apply Herr; [lia| |done]. by rewrite E5. }
  apply IH.
  - set_solver.
  - by injection Hlen.
  - by eapply fits_tail.
  - exact HU4.
  - apply Forall_app. split; [done|]. constructor; [by eexists|done].
  - intros err s' He' Ha. apply Herr; [done|]. by eapply agree_trans; [exact Ha4|].
  - intros s' Et' HU'. rewrite <- (assoc_L (++)). cbn [app]. subst v. apply HQ; [|done]. by rewrite Et', Et.
Qed.

(** The whole branch: blocks that nothing refers to, linked with each other; or an error and nothing allocated. *)
Lemma wp_alloc_branch indirect_blks blks goal o offs partial Q (s : est K) : 1 ≤ blks → length offs = indirect_blks → fits offs blks →
  (∀ err n branch s' F, err < 0 → (∀ b, F b → ¬ in_use (e_kern s) b) → agree F (tr s) (tr s') →
     uses s' (in_use (e_kern s)) → Q (err, n, branch) s') →
  (∀ num inds d s', 1 ≤ num ≤ blks → length inds = indirect_blks → branch_blocks (in_use (e_kern s)) inds d num →
     tr s' = linked ptrs_bits inds offs d (Z.to_nat num) (tr s) → uses s' (λ x, in_use (e_kern s) x ∨ x ∈ inds ∨ d ≤ x < d + num) →
     Q (0, num, Ind (in_p partial) (default d (head inds)) (in_bh partial) :: newlinks inds offs d) s') →
  wp (ext3_alloc_branch ptrs_bits indirect_blks blks goal (o :: offs) partial) Q s.
Proof.
  intros Hb Hlen Hfit Herr HQ. apply wp_bind. eapply (wp_alloc_loop _ _ _ _ _ (in_use (e_kern s))); [done|lia|set_solver|constructor|done| |].
  { intros err got s' He Et HU. apply wp_if; [|intros E%negb_false_iff%Z.eqb_eq; lia]. intros _. apply wp_ret.
    apply (Herr _ _ _ _ (λ _, False)); [done|tauto| |done]. rewrite Et. apply agree_refl. }
  intros num inds d s1 Hnum Hli HB E1 HU1. cbn [negb Z.eqb]. cbn in Hli.
  assert (0 < d ∧ d + num ≤ 2 ^ 32) as [Hd Hdn].
  { destruct HB as [_ _ Hdj]. destruct (Hdj 0) as [[? _] _]; [lia|]. destruct (Hdj (num - 1)) as [[? _] _]; lia. }
  assert (head (inds ++ [d]) = Some (default d (head inds))) as -> by (by destruct inds). apply wp_bind. eapply wp_lift; [done|].
  assert (0 ≤ default d (head inds) < 2 ^ 32) as Hv.
  { destruct inds as [|b inds]; [cbn; lia|]. destruct HB as [_ Hi _]. apply Forall_cons in Hi as [[? _] _]. cbn. lia. }
  apply wp_bind. eapply (wp_link_loop inds inds offs d num [] (in_use (e_kern s))); try done; try lia.
  - destruct Hfit as [? Hl]. split; [done|]. intros o' Ho'. specialize (Hl o' Ho'). lia.
  - intros err s2 He Ha HU2. apply wp_ret. apply (Herr _ _ _ _ (λ b, b ∈ inds)); [done| | |done].
    + destruct HB as [_ Hi _]. rewrite Forall_forall in Hi. intros b Hin. by destruct (Hi b Hin).
    + by rewrite <- E1.
  - intros s2 E2 HU2. apply wp_ret. rewrite wrapu_small by lia. apply HQ; try done. by rewrite E2, E1.
Qed.

(** ** [ext3_splice_branch] *)
Lemma wp_splice_undo inds offs d num (V : Z → Prop) Q (s : est K) : length inds = length offs → uses s V →
  (∀ s', tr s' = tr s → uses s' (λ x, (V x ∧ x ∉ inds) ∧ ¬ d ≤ x < d + num) → Q () s') →
  wp (splice_undo (default d (head inds)) (newlinks inds offs d) num) Q s.
Proof.
  revert offs V s. induction inds as [|b inds IH]; intros [|o offs] V s Hlen HV HQ; try done; cbn [newlinks splice_undo].
  { apply (wp_free _ _ V); [done|]. intros s' E' HV'. apply HQ; [done|]. intros x. rewrite HV'. set_solver. }
  apply wp_bind. eapply wp_lift; [done|]. apply wp_bind, wp_kcall_same; [intros; apply forget_use|]. intros s1 [E1 H1].
  apply wp_bind, (wp_free _ _ V); [intros x; by rewrite H1|]. intros s2 E2 HV2. cbn [default head]. eapply IH; [by injection Hlen|exact HV2|].
  intros s3 E3 HV3. apply HQ; [congruence|]. intros x. rewrite HV3, not_elem_of_cons. cbn. intuition lia.
Qed.

Lemma newlinks_length inds offs d : length inds = length offs → length (newlinks inds offs d) = length inds.
Proof. revert offs. induction inds as [|b inds IH]; intros [|o offs] Hl; try done. cbn. rewrite IH; [done|]. by injection Hl. Qed.

(** The missing link and the pointers that follow it. *)
Lemma wp_splice_write l inds offs d num (U : Z → Prop) t Q (s : est K) : length inds = length offs → 1 ≤ num → branch_blocks U inds d num →
  tr s = tset l (default d (head inds)) (linked ptrs_bits inds offs d (Z.to_nat num) t) →
  (∀ b, home l = Some b → U b) → 0 ≤ off l → is_Some (tptr t l) → (inds = [] → ∀ j, 0 ≤ j < num → is_Some (tptr t (loc_add l j))) →
  (∀ s', tr s' = grow ptrs_bits l inds offs d (Z.to_nat num) t → e_kern s' = e_kern s → Q () s') →
  wp (if bool_decide (length (newlinks inds offs d) = 0%nat) && (1 <? num)
      then write_run l 1 (default d (head inds) + 1) (Z.to_nat (num - 1)) else mret ()) Q s.
Proof.
  intros Hlen Hnum HB Et Hhome Hoff [w Hw] Hrun HQ. rewrite newlinks_length by done. destruct inds as [|b inds].
  - destruct offs; [|done]. cbn in *. replace (Z.to_nat num) with (S (Z.to_nat (num - 1))) in HQ by lia.
    destruct (Z.ltb_spec 1 num); [|apply wp_ret, HQ; [|done]; replace (Z.to_nat (num - 1)) with 0%nat by lia; done].
    destruct (bb_data _ _ _ _ HB (num - 1)) as [[? _] _]; [lia|]. destruct (bb_data _ _ _ _ HB 0) as [[? _] _]; [lia|].
    apply wp_write_run; [lia|lia| |].
    + intros j Hj. split; [destruct l; cbn in *; lia|]. rewrite Et, (tptr_tset _ _ _ w) by (done || destruct l; cbn in *; lia).
      case_decide; [by eexists|]. apply Hrun; [done|lia].
    + intros s' E' K'. apply HQ; [|done]. by rewrite E', Et.
  - rewrite bool_decide_false by done. apply wp_ret, HQ; [|done]. rewrite Et. symmetry. apply grow_linked; [done|apply HB|by rewrite <- Hlen|].
    intros c Hc Hin. destruct HB as [_ Hi _]. rewrite Forall_forall in Hi. destruct (Hi c Hin). auto.
Qed.

Lemma wp_splice_branch block l inds offs d num (U : Z → Prop) t Q (s : est K) : length inds = length offs → 1 ≤ num → branch_blocks U inds d num →
  uses s (λ x, U x ∨ x ∈ inds ∨ d ≤ x < d + num) → tr s = linked ptrs_bits inds offs d (Z.to_nat num) t →
  (∀ b, home l = Some b → U b) → 0 ≤ off l → is_Some (tptr t l) →
  (inds = [] → ∀ j, 0 ≤ j < num → is_Some (tptr t (loc_add l j))) →
  (∀ err s', err < 0 → tr s' = tr s → uses s' U → Q err s') →
  (∀ s', tr s' = grow ptrs_bits l inds offs d (Z.to_nat num) t → uses s' (λ x, U x ∨ x ∈ inds ∨ d ≤ x < d + num) → Q 0 s') →
  wp (ext3_splice_branch block (Ind l (default d (head inds)) (home l)) (newlinks inds offs d) num) Q s.
Proof.
  intros Hlen Hnum HB HU Et Hhome Hoff Hl Hrun Herr HQ. unfold ext3_splice_branch. cbn [in_bh in_key in_p].
  assert (∀ s1, tr s1 = tr s → uses s1 (λ x, U x ∨ x ∈ inds ∨ d ≤ x < d + num) → ∀ err, err < 0 →
    wp (_ ← splice_undo (default d (head inds)) (newlinks inds offs d) num; mret err) Q s1) as Hundo.
  { intros s1 E1 H1 err He. eapply wp_bind, wp_splice_undo; [done|exact H1|]. intros s2 E2 H2. apply wp_ret, Herr; [done|congruence|].
    intros x. rewrite H2. by apply free_branch. }
  apply wp_bind. eapply wp_mono with (Q := λ err s1, err ≤ 0 ∧ tr s1 = tr s ∧ uses s1 (λ x, U x ∨ x ∈ inds ∨ d ≤ x < d + num)).
  { destruct (home l) as [b|]; [|by apply wp_ret]. apply wp_kcall_same; [intros; apply write_access_use|]. intros s1 [E1 H1].
    split_and!; [apply write_access_err|done|]. intros x. by rewrite H1, HU. }
  intros err s1 (He & E1 & HU1). apply wp_if; intros Ee.
  { apply negb_true_iff, Z.eqb_neq in Ee. apply Hundo; [done..|lia]. }
  clear Hundo Herr err He Ee. assert (tptr (tr s1) l = tptr t l) as Hl1.
  { rewrite E1, Et. apply (agree_ptr (λ b, b ∈ inds)); [by apply agree_linked|]. intros b Hb Hin.
    destruct HB as [_ Hi _]. rewrite Forall_forall in Hi. destruct (Hi b Hin). auto. }
  apply wp_bind, wp_write; [by rewrite Hl1|]. intros s2 E2 K2. apply wp_bind. eapply (wp_splice_write _ _ _ _ _ U t); try done.
  { by rewrite E2, E1, Et. }
  intros s3 E3 K3. assert (uses s3 (λ x, U x ∨ x ∈ inds ∨ d ≤ x < d + num)) as HU3 by (intros x; by rewrite K3, K2, HU1).
  apply wp_bind, wp_get, wp_bind. eapply wp_mono with (Q := λ _ s4, same s3 s4).
  { destruct (e_info s3); [by apply wp_modify|by apply wp_ret]. }
  intros _ s4 [E4 H4]. destruct (home l) as [b|].
  - apply wp_bind, wp_kcall_same; [intros; apply dirty_use|]. intros s5 [E5 H5]. rewrite dirty_ok. apply wp_ret, HQ; [congruence|].
    intros x. by rewrite H5, H4.
  - apply wp_ret, HQ; [congruence|]. intros x. by rewrite H4.
Qed.
End alloc.
