(* ===== verification/Ext3Blocks.v ===== *)
(** * The block map of ext3

    [ext3_get_blocks_handle] keeps the tree well formed and does what the comment above it promises: it maps a run of
    blocks, reports a missing block of a plain lookup, or fails. *)
From S2P Require Import Prelude Interfaces StateMonad Ext3Tree Ext3Path Ext3Walk Ext3Grow Ext3Chain Ext3Alloc.

Section blocks.
Context {K : Type} `{BallocOk K, !BallocCalm K}.
Variable ptrs_bits : Z.
Hypothesis bits_range : 8 ≤ ptrs_bits ≤ 10.
Variable bg_start blocks_per_group pid : Z.
Abbreviation path_ok := (path_ok ptrs_bits).
Abbreviation ok := (ok (K := K) ptrs_bits).
Abbreviation file_map s := (tmap ptrs_bits (tr s)).

(** The path of a block, as [ext3_get_blocks_handle] has it. *)
Section path.
Variables (k : Z) (offs : list Z) (boundary : Z).
Hypothesis k_path : ext3_block_to_path ptrs_bits k = (offs, boundary).
Hypothesis k_range : offs ≠ [].

Lemma offs_ok : path_ok offs ∧ full offs.
Proof. destruct (Ext3Path.block_path _ bits_range _ _ _ k_path k_range) as (_ & ? & ? & _). done. Qed.

Lemma offs_slots : 0 ≤ boundary ∧ ∃ q o, offs = q ++ [o] ∧ slots ptrs_bits q o k (Z.to_nat (boundary + 1)).
Proof.
  destruct (block_path_boundary _ bits_range _ _ _ k_path k_range) as (Hb & q & o & E & Hj). split; [done|]. exists q, o.
  split; [done|]. intros j Hjb. apply Hj. lia.
Qed.

Lemma slots_le q o n m : slots ptrs_bits q o k n → (m ≤ n)%nat → slots ptrs_bits q o k m.
Proof. intros Hs Hm j Hj. apply Hs. lia. Qed.

(** The chain ends with a missing block. *)
Variables (keys : list Z) (s : est K) (i : Indirect).
Hypothesis s_ok : ok s.
Hypothesis keys_ne : keys ≠ [].
Hypothesis keys_len : (length keys ≤ length offs)%nat.
Hypothesis i_last : last (chain_of offs keys) = Some i.
Hypothesis i_at : at_path (tr s) (take (length keys) offs) (in_p i).
Hypothesis i_hole : walk (tr s) (take (length keys) offs) = Some 0.
Hypothesis i_bh : in_bh i = home (in_p i).

Lemma part_ok : path_ok (take (length keys) offs) ∧ take (length keys) offs ≠ [].
Proof.
  clear i_last i_at i_hole. assert (take (length keys) offs ≠ []) as Hne by (destruct keys, offs; done). split; [|done].
  destruct (path_prefix _ bits_range (take (length keys) offs) (drop (length keys) offs)); [|done..]. rewrite take_drop. apply offs_ok.
Qed.

Lemma wp_blks_to_allocate max Q : 1 ≤ max →
  (∀ c, 1 ≤ c ≤ max → c ≤ boundary + 1 → (length keys = length offs → ∀ j, 0 ≤ j < c → tptr (tr s) (loc_add (in_p i) j) = Some 0) → Q c s) →
  wp (ext3_blks_to_allocate (in_p i) (Z.of_nat (length offs - length keys)) max boundary) Q s.
Proof.
  intros Hmax HQ. destruct offs_slots as (Hb & q & o & Eo & Hs). unfold ext3_blks_to_allocate. apply wp_if; intros Hk.
  - apply Z.ltb_lt in Hk. apply wp_ret. destruct (Z.ltb_spec max (boundary + 1)); apply HQ; lia.
  - apply Z.ltb_ge in Hk. assert (length keys = length offs) as El by lia. rewrite El, firstn_all in *.
    rewrite Eo in i_at, i_hole. assert (∀ j, 0 ≤ j ≤ boundary → is_Some (tptr (tr s) (loc_add (in_p i) j))) as Hr.
    { intros j Hj. eapply slot_ptr; [done|exact i_at|exact Hs|lia]. }
    apply wp_count_free; try done; try lia.
    + intros j Hj. assert (j = 0) as -> by lia. rewrite loc_add_0, <- (at_path_ptr _ _ _ i_at). done.
    + intros c H1 H2 H3 H4. apply HQ; [lia|done|]. intros _. done.
Qed.

Lemma rest_fits c : c ≤ boundary + 1 → fits ptrs_bits (drop (length keys) offs) c.
Proof.
  clear i_last i_at i_hole. intros Hc. destruct offs_slots as (Hb & q & o & Eo & Hs). destruct offs_ok as [Hok _]. split.
  - destruct offs as [|a r]; [done|]. destruct keys as [|x l]; [done|]. cbn. destruct Hok as (_ & Hf & _).
    rewrite <- (take_drop (length l) r) in Hf. by apply Forall_app in Hf as [_ ?].
  - intros x Hx. assert (drop (length keys) offs ≠ []) as Hne by (intros E; by rewrite E in Hx).
    rewrite Eo, drop_app_le, last_snoc in Hx.
    2:{ destruct (decide (length keys ≤ length q)%nat); [done|]. destruct Hne. apply nil_length_inv. rewrite length_drop, Eo, length_app. cbn. lia. }
    injection Hx as ->. destruct (Hs boundary) as (Hp & _); [lia|]. apply path_ok_snoc in Hp as (_ & _ & Hi).
    { unfold in_block in Hi. lia. }
    intros ->. apply Hne, nil_length_inv. rewrite length_drop, Eo. destruct keys; [done|]. cbn. lia.
Qed.

Lemma walk_below t p r : p ≠ [] → r ≠ [] → walk t p = Some 0 → walk t (p ++ r) = None.
Proof.
  intros Hp Hr Hw. induction r as [|x r IH] using rev_ind; [done|]. rewrite (assoc_L (++)), walk_snoc by (by destruct p).
  destruct (decide (r = [])) as [->|Hne]; [by rewrite app_nil_r, Hw|]. by rewrite IH.
Qed.

(** The blocks to allocate are missing. *)
Lemma holes c j : c ≤ boundary + 1 → (length keys = length offs → ∀ j, 0 ≤ j < c → tptr (tr s) (loc_add (in_p i) j) = Some 0) →
  0 ≤ j < c → file_map s (k + j) = None.
Proof.
  intros Hc Hz Hj. destruct offs_slots as (Hb & q & o & Eo & Hs). destruct part_ok as [Hp Hpne].
  destruct (decide (length keys = length offs)) as [El|El].
  - specialize (Hz El j Hj). rewrite El, firstn_all, Eo in i_at.
    rewrite (slot_map _ bits_range q o k (Z.to_nat (boundary + 1)) (in_p i) j 0) by (done || lia). done.
  - destruct (Hs j) as (Hpj & Hfj & Hkj); [lia|]. unfold tmap. rewrite <- Hkj, path_of_block by done.
    assert (length keys ≤ length q)%nat as Hq by (rewrite Eo, length_app in keys_len, El; cbn in *; lia).
    rewrite <- (take_drop (length keys) q), <- (assoc_L (++)). rewrite Eo, take_app_le in i_hole, Hpne by done.
    rewrite walk_below; [done|done| |done]. by destruct (drop (length keys) q).
Qed.

(** Blocks [k .. k + count - 1] were missing and are [nr .. nr + count - 1] now; all others are as before. *)
Definition extends (s s' : est K) (count nr : Z) : Prop :=
  1 ≤ count ∧ nr ≠ 0 ∧ (∀ j, 0 ≤ j < count → file_map s (k + j) = None) ∧
  ∀ k', file_map s' k' = if decide (k ≤ k' < k + count) then Some (nr + (k' - k)) else file_map s k'.

Lemma grown c num inds d s' : 1 ≤ num ≤ c → c ≤ boundary + 1 →
  (length keys = length offs → ∀ j, 0 ≤ j < c → tptr (tr s) (loc_add (in_p i) j) = Some 0) →
  length inds = (length offs - length keys)%nat → branch_blocks (in_use (e_kern s)) inds d num →
  tr s' = grow ptrs_bits (in_p i) inds (drop (length keys) offs) d (Z.to_nat num) (tr s) →
  (∀ x, in_use (e_kern s') x ↔ in_use (e_kern s) x ∨ x ∈ inds ∨ d ≤ x < d + num) → ok s' ∧ extends s s' num d.
Proof.
  intros Hnum Hc Hz Hli HB Et HU. destruct offs_slots as (Hb & q & o & Eo & Hs). destruct part_ok as [Hp Hpne].
  destruct (bb_data _ _ _ _ HB 0) as [[Hd _] _]; [lia|].
  destruct (grow_ok _ bits_range inds (drop (length keys) offs) (tr s) (in_use (e_kern s)) (take (length keys) offs) (in_p i) q o d k (Z.to_nat num))
    as [Hok Hm]; try done; try apply HB.
  - by rewrite take_drop.
  - by rewrite length_drop.
  - eapply slots_le; [exact Hs|lia].
  - lia.
  - intros -> j Hj. cbn in Hli. assert (length keys = length offs) as El by lia. rewrite El, firstn_all, Eo in i_at.
    destruct (slot_ptr ptrs_bits q o k (Z.to_nat (boundary + 1)) (in_p i) j s) as [-> _]; [done..|lia|]. apply Hz; [done|lia].
  - intros j Hj. apply HB. lia.
  - rewrite Z2Nat.id in Hok, Hm by lia. split.
    + unfold Ext3Chain.ok. rewrite Et. eapply tree_ok_used; [exact Hok|]. intros x. apply HU.
    + split_and!; [lia|lia| |]; [|intros k'; by rewrite Et].
      intros j Hj. apply (holes c); [done|done|lia].
Qed.

Lemma newlinks_last l inds rest d bh : length inds = length rest →
  ∃ i, last (Ind l (default d (head inds)) bh :: newlinks inds rest d) = Some i ∧ in_key i = d.
Proof.
  revert l bh rest. induction inds as [|b inds IH]; intros l bh [|o rest] Hl; try done; [by eexists|]. injection Hl as Hl.
  destruct (IH (LBlk b o) (Some b) rest Hl) as (i' & Hi & Hk). exists i'. split; [|done]. by rewrite <- Hi.
Qed.

Definition alloc_post (max : Z) (r : Z * Z * Z) (s' : est K) : Prop :=
  let '(err, count, nr) := r in
  ok s' ∧ ((err < 0 ∧ ∀ k', file_map s' k' = file_map s k') ∨ (err = 0 ∧ count ≤ max ∧ extends s s' count nr)).

(** The tree is as before, blocks that nothing refers to apart. *)
Lemma alloc_post_fail max err n nr s' F : err < 0 → (∀ b, F b → ¬ in_use (e_kern s) b) → agree F (tr s) (tr s') →
  (∀ x, in_use (e_kern s') x ↔ in_use (e_kern s) x) → alloc_post max (err, n, nr) s'.
Proof.
  intros He HF Ha HU. split.
  - unfold Ext3Chain.ok. eapply tree_ok_used; [|intros b; apply HU]. by eapply agree_ok.
  - left. split; [done|]. intros k'. by eapply agree_map.
Qed.
End path.

Abbreviation get_blocks_alloc := (get_blocks_alloc (K := K) ptrs_bits bg_start blocks_per_group pid).

Lemma wp_init_info Q (s : est K) : (∀ s', same s s' → Q () s') → wp init_info Q s.
Proof.
  intros HQ. apply wp_bind, wp_get. destruct (e_info s); [by apply wp_ret, HQ|].
  apply wp_bind, wp_kcall_same; [apply init_use|]. intros s1 [E1 H1]. apply wp_if; intros _; [apply wp_modify|apply wp_ret]; by apply HQ.
Qed.

(** Allocation at a missing block of the chain. *)
Lemma wp_get_blocks_alloc k offs boundary keys iblock max (s : est K) : ext3_block_to_path ptrs_bits k = (offs, boundary) → offs ≠ [] →
  ok s → 1 ≤ max → keys ≠ [] → (length keys ≤ length offs)%nat → Forall (λ k, k ≠ 0) (removelast keys) → last keys = Some 0 →
  valid (tr s) (chain_of offs keys) →
  wp (get_blocks_alloc offs boundary iblock max (chain_of offs keys)) (alloc_post k s max) s.
Proof.
  intros Hk Hne Hok Hmax Hkn Hkl Hnz Hl Hv. apply wp_bind, wp_init_info. intros s1 Hs1. apply (same_ok _ _ _ Hs1) in Hok. destruct Hs1 as [E1 HU1]. rewrite <- E1 in Hv.
  eapply wp_mono with (Q := alloc_post k s1 max); [|unfold alloc_post, extends; rewrite E1; done]. clear s E1 HU1.
  destruct (chain_walk (tr s1) offs keys) as (i & Ei & Ek & Hat & Hw & Hbh); [done..|]. rewrite Hl in Ek. injection Ek as Ek. rewrite <- Ek in Hw.
  destruct (part_ok k offs boundary Hk Hne keys Hkn) as [Hp Hpne]; [done|]. lazy beta. rewrite Ei, chain_of_length by done. apply wp_bind. eapply wp_lift; [done|].
  apply wp_bind. eapply wp_find_goal; [done|exact Hp|exact Hat|]. intros goal.
  apply wp_bind. eapply (wp_blks_to_allocate k); try done. intros c Hc Hcb Hz.
  destruct (lookup_lt_is_Some_2 offs (length keys - 1)) as [o Ho]; [destruct keys; [done|cbn in *; lia]|].
  rewrite (drop_S _ _ _ Ho). replace (S (length keys - 1)) with (length keys) by (destruct keys; [done|cbn; lia]).
  apply wp_bind, wp_alloc_branch; [done|lia|by rewrite length_drop|by eapply (rest_fits k)| |].
  { intros err n branch s2 F He HF Ha HU. apply wp_if; [|intros E%negb_false_iff%Z.eqb_eq; lia]. intros _. apply wp_ret. by eapply alloc_post_fail. }
  intros num inds d s2 Hnum Hli HB E2 HU2. cbn [negb Z.eqb head tail]. apply wp_bind. eapply wp_lift; [done|]. rewrite Hbh. apply wp_bind.
  eapply (wp_splice_branch _ _ _ _ _ _ _ _ (in_use (e_kern s1)) (tr s1)); try done.
  - by rewrite length_drop.
  - lia.
  - intros b Hb. destruct (at_path_home _ _ _ _ Hat Hb) as (q & x & Hq & Eq & Hwq & Hb0). rewrite Eq in Hp.
    apply path_ok_snoc in Hp as (Hpq & _); [|done]. by apply (ok_ptr _ _ _ Hok q).
  - by eapply at_path_off.
  - by eapply at_path_readable.
  - intros -> j Hj. cbn in Hli. rewrite Hz by lia. by eexists.
  - intros err s3 He E3 HU3. apply wp_if; [|intros E%negb_false_iff%Z.eqb_eq; lia]. intros _. apply wp_ret.
    apply alloc_post_fail with (F := λ b, b ∈ inds); try done.
    + destruct HB as [_ Hi _]. rewrite Forall_forall in Hi. intros b Hb. by destruct (Hi b Hb).
    + rewrite E3, E2. by apply agree_linked.
  - intros s3 E3 HU3. cbn [negb Z.eqb]. destruct (newlinks_last (in_p i) inds (drop (length keys) offs) d (home (in_p i))) as (j & -> & Hj).
    { by rewrite length_drop. }
    apply wp_bind. eapply wp_lift; [done|]. apply wp_ret. rewrite Hj. destruct (grown k offs boundary Hk Hne keys s1 i) with c num inds d s3; try done.
    split; [done|]. right. split_and!; [done|lia|done].
Unshelve. all: done.
Qed.

(** ** The whole call *)
Variable interfere : est K → est K.
Hypothesis interfere_ok : ∀ s, ok s → ok (interfere s).
Hypothesis interfere_map : ∀ s k v, ok s → file_map s k = Some v → file_map (interfere s) k = Some v.
(** Either the chain does not change before the mutex is taken, or blocks of pointers can be read. *)
Hypothesis no_lost_read : (∀ s, ok s → tr (interfere s) = tr s) ∨ ∀ (x : K) b, (sb_bread x b).2 = true.

Definition locked_post (k max : Z) (s : est K) (r : Z * Z * Z) (s' : est K) : Prop :=
  alloc_post k s max r s' ∨ (ok s' ∧ (∀ k', file_map s' k' = file_map s k') ∧ ∃ nr, r = (0, 1, nr) ∧ nr ≠ 0 ∧ file_map s k = Some nr).

(** A complete chain ends with the block. *)
Lemma chain_map k offs boundary keys (s : est K) : ext3_block_to_path ptrs_bits k = (offs, boundary) → offs ≠ [] → keys ≠ [] → length keys = length offs →
  Forall (λ k, k ≠ 0) (removelast keys) → valid (tr s) (chain_of offs keys) →
  ∃ i, last (chain_of offs keys) = Some i ∧ last keys = Some (in_key i) ∧ at_path (tr s) offs (in_p i) ∧ tptr (tr s) (in_p i) = Some (in_key i) ∧
    (in_key i ≠ 0 → file_map s k = Some (in_key i)).
Proof.
  intros Hk Hne Hkn El Hnz Hv. destruct (chain_walk (tr s) offs keys) as (i & Ei & Ek & Hat & Hw & _); [done|lia|done..|].
  rewrite El, firstn_all in *. exists i. split_and!; try done.
  - by rewrite <- (at_path_ptr _ _ _ Hat).
  - intros Hi. unfold tmap. rewrite Hk. cbn [fst]. rewrite Hw. cbn. by destruct (Z.eqb_spec (in_key i) 0).
Qed.

Lemma wp_locked k offs boundary keys iblock max err (s : est K) : ext3_block_to_path ptrs_bits k = (offs, boundary) → offs ≠ [] →
  ok s → 1 ≤ max → branch_res (K := K) offs keys false err → err = 0 →
  valid (tr s) (chain_of offs keys) ∨ (∀ (x : K) b, (sb_bread x b).2 = true) →
  wp (get_blocks_locked ptrs_bits bg_start blocks_per_group pid offs boundary iblock max (chain_of offs keys) err) (locked_post k max s) s.
Proof.
  intros Hk Hne Hok Hmax (Hkn & Hkl & Hnz & kl & Hl & Hr) -> Hlost. destruct Hr as [[_ ->]|[Hr _]]; [|done].
  destruct (offs_ok k offs boundary Hk Hne) as [Hp _]. unfold get_blocks_locked. cbn [Z.eqb]. apply wp_bind.
  apply (wp_verify_chain ptrs_bits); [done..|]. intros b Hb. destruct b.
  { apply wp_bind, wp_ret. eapply wp_mono; [eapply (wp_get_blocks_alloc k); try done; by apply Hb|]. intros r s' HP. by left. }
  assert (∀ (x : K) b, (sb_bread x b).2 = true) as Hbr by (destruct Hlost as [Hv|Hbr]; [by apply Hb in Hv|done]).
  apply wp_bind. eapply wp_mono; [by eapply get_branch_ok|]. intros [[chain found] err] s1 [Hs1 (keys' & Ec & Hv' & Hkn' & Hkl' & Hnz' & k' & Hl' & Hr')].
  cbn in Ec, Hr'. subst chain. pose proof (same_ok _ _ _ Hs1 Hok) as Hok1. destruct Hs1 as [E1 _]. destruct found.
  - destruct Hr' as (-> & El & Hk'). destruct (chain_map k offs boundary keys' s) as (i & -> & Ei & _ & _ & Hm); [done..|].
    rewrite Hl' in Ei. injection Ei as ->. apply wp_bind. eapply wp_lift; [done|]. apply wp_ret. right. rewrite E1. split_and!; [done|done|].
    exists (in_key i). auto.
  - destruct Hr' as [[-> ->]|(_ & _ & _ & x & b & Hx)]; [|by rewrite Hbr in Hx]. rewrite <- E1 in Hv'.
    eapply wp_mono; [by eapply (wp_get_blocks_alloc k)|]. intros [[e c] nr] s' HP. left. unfold alloc_post, extends in *. by rewrite E1 in HP.
Qed.

(** What the comment above [ext3_get_blocks_handle] promises for block [k]. *)
Record blocks_post (k max create : Z) (s : est K) (r : Z * Z) (s' : est K) : Prop := {
  bp_ok : ok s';
  (** no block moves *)
  bp_mono k' v : file_map s k' = Some v → file_map s' k' = Some v;
  bp_lookup : create = 0 → ∀ k', file_map s' k' = file_map s k';
  (** [return > 0, # of blocks mapped or allocated] *)
  bp_run : 0 < r.1 → r.1 ≤ max ∧ r.2 ≠ 0 ∧ ∀ j, 0 ≤ j < r.1 → file_map s' (k + j) = Some (r.2 + j);
  (** [return = 0, if plain lookup failed] *)
  bp_none : r.1 = 0 → create = 0 ∧ r.2 = 0 ∧ file_map s' k = None;
  (** nothing else changes, and nothing at all in the error case *)
  bp_frame : (∀ s, ok s → tr (interfere s) = tr s) → ∀ k', ¬ k ≤ k' < k + r.1 → file_map s' k' = file_map s k';
}.

(** The tree is not changed. *)
Lemma blocks_post_same k max create (s s' : est K) ret nr : ok s → same s s' →
  (0 < ret → ret ≤ max ∧ nr ≠ 0 ∧ ∀ j, 0 ≤ j < ret → file_map s (k + j) = Some (nr + j)) →
  (ret = 0 → create = 0 ∧ nr = 0 ∧ file_map s k = None) → blocks_post k max create s (ret, nr) s'.
Proof. intros Hok Hs H1 H2. split; cbn; try (rewrite (proj1 Hs); done). by eapply same_ok. Qed.

Lemma blocks_post_locked k max create (s s1 s' : est K) err count nr : ok s → same s s1 → create ≠ 0 → 1 ≤ max →
  locked_post k max (interfere s1) (err, count, nr) s' → blocks_post k max create s (if negb (err =? 0) then (err, 0) else (count, nr)) s'.
Proof.
  intros Hok Hs Hc Hmax Hp. pose proof (same_ok _ _ _ Hs Hok) as Hok1. destruct Hs as [E1 _].
  assert (∀ k' v, file_map s k' = Some v → file_map (interfere s1) k' = Some v) as Hmono.
  { intros k' v Hv. apply interfere_map; [done|]. by rewrite E1. }
  assert ((∀ s, ok s → tr (interfere s) = tr s) → ∀ k', file_map (interfere s1) k' = file_map s k') as Hfr.
  { intros Hid k'. by rewrite Hid, E1. }
  destruct Hp as [[Hok' [[He Hm]|(-> & Hcm & Hc1 & Hnr & Hhole & Hm)]]|(Hok' & Hm & nr' & [= -> -> ->] & Hnr & Hk)].
  - destruct (Z.eqb_spec err 0); [lia|]. cbn. split; cbn; try done; try lia.
    + intros k' v Hv. rewrite Hm. auto.
    + intros Hid k' _. rewrite Hm. auto.
  - cbn. split; cbn; try done; try lia.
    + intros k' v Hv. rewrite Hm. case_decide; [|auto]. apply Hmono in Hv. specialize (Hhole (k' - k) ltac:(lia)).
      replace (k + (k' - k)) with k' in Hhole by lia. congruence.
    + intros _. split_and!; [done|done|]. intros j Hj. rewrite Hm, decide_True by lia. f_equal. lia.
    + intros Hid k' Hk'. rewrite Hm, decide_False by done. auto.
  - cbn. split; cbn; try done; try lia.
    + intros k' v Hv. rewrite Hm. auto.
    + intros _. split_and!; [lia|done|]. intros j Hj. assert (j = 0) as -> by lia. by rewrite !Z.add_0_r, Hm.
    + intros Hid k' _. rewrite Hm. auto.
Qed.

Abbreviation ext3_get_blocks_handle := (ext3_get_blocks_handle (K := K) ptrs_bits bg_start blocks_per_group pid interfere).

(** The block is there: the run of blocks that follow it. *)
Lemma found_run k offs boundary keys i max (s : est K) Q : ext3_block_to_path ptrs_bits k = (offs, boundary) → offs ≠ [] → ok s → 1 ≤ max →
  keys ≠ [] → length keys = length offs → Forall (λ k, k ≠ 0) (removelast keys) → valid (tr s) (chain_of offs keys) →
  last (chain_of offs keys) = Some i → in_key i ≠ 0 →
  (∀ c, 1 ≤ c ≤ max → (∀ j, 0 ≤ j < c → file_map s (k + j) = Some (in_key i + j)) → Q (0, c) s) →
  wp (map_more (Z.to_nat boundary) (chain_of offs keys) (in_p i) (in_key i) 1 max boundary) Q s.
Proof.
  intros Hk Hne Hok Hmax Hkn El Hnz Hv Ei Hi HQ. destruct (offs_ok k offs boundary Hk Hne) as [Hp _].
  destruct (offs_slots k offs boundary Hk Hne) as (Hb & q & o & Eo & Hs).
  destruct (chain_map k offs boundary keys s) as (i' & Ei' & _ & Hat & Hptr & _); [done..|]. rewrite Ei in Ei'. injection Ei' as <-. rewrite Eo in Hat.
  apply (wp_map_more ptrs_bits); try done; try lia.
  - intros j Hj. eapply slot_ptr; [done|exact Hat|exact Hs|lia].
  - intros j Hj. assert (j = 0) as -> by lia. by rewrite loc_add_0, Z.add_0_r.
  - intros c H1 H2 H3 H4. apply HQ; [lia|]. intros j Hj. specialize (H4 j Hj).
    rewrite (slot_map _ bits_range q o k (Z.to_nat (boundary + 1)) (in_p i) j _ s Hok Hat Hs ltac:(lia) H4). destruct (Z.eqb_spec (in_key i + j) 0) as [E0|]; [|done].
    destruct (Hs j ltac:(lia)) as (Hpj & _). destruct (slot_ptr ptrs_bits q o k (Z.to_nat (boundary + 1)) (in_p i) 0 s Hok Hat Hs ltac:(lia)) as [Hw0 _].
    rewrite loc_add_0, Hptr in Hw0. destruct (Hs 0 ltac:(lia)) as (Hp0 & _). destruct (ok_ptr _ _ _ Hok _ _ Hp0 Hw0 Hi). lia.
Qed.

(** The block is missing. *)
Lemma hole_map k offs boundary (keys : list Z) i (s : est K) : ext3_block_to_path ptrs_bits k = (offs, boundary) → offs ≠ [] → ok s →
  keys ≠ [] → (length keys ≤ length offs)%nat → at_path (tr s) (take (length keys) offs) (in_p i) →
  walk (tr s) (take (length keys) offs) = Some 0 → file_map s k = None.
Proof.
  intros Hk Hne Hok Hkn Hkl Hat Hw. destruct (offs_slots k offs boundary Hk Hne) as (Hb & _).
  rewrite <- (Z.add_0_r k). eapply (holes k offs boundary Hk Hne keys s i) with (c := 1); try done; try lia.
  intros El j Hj. assert (j = 0) as -> by lia. by rewrite loc_add_0, <- (at_path_ptr _ _ _ Hat).
Qed.

Lemma wp_get_blocks iblock max create (s : est K) : ok s → 1 ≤ max →
  wp (ext3_get_blocks_handle iblock max create) (blocks_post (wraps 64 iblock) max create s) s.
Proof.
  intros Hok Hmax. set (k := wraps 64 iblock). unfold Ext3Tree.ext3_get_blocks_handle. fold k.
  destruct (ext3_block_to_path ptrs_bits k) as [offs boundary] eqn:Hk. case_bool_decide as Hne.
  { apply wp_ret, blocks_post_same; [done|apply tree_same_refl|unfold EIO; lia..]. }
  destruct (offs_ok k offs boundary Hk Hne) as [Hp _]. destruct (offs_slots k offs boundary Hk Hne) as (Hb & q & o & Eo & Hs).
  apply wp_bind. eapply wp_mono; [by eapply get_branch_ok|].
  intros [[chain found] err] s1 [Hs1 (keys & Ec & Hv & Hbr)]. cbn in Ec, Hbr. subst chain. pose proof (same_ok _ _ _ Hs1 Hok) as Hok1.
  pose proof Hbr as (Hkn & Hkl & Hnz & kl & Hl & Hr). pose proof Hv as Hv1. rewrite <- (proj1 Hs1) in Hv1.
  destruct (chain_walk (tr s1) offs keys) as (i & Ei & Ek & Hat & Hw & Hbh); [done..|]. rewrite Ei. apply wp_bind. eapply wp_lift; [done|].
  rewrite Hl in Ek. injection Ek as ->. apply wp_bind. destruct found.
  - destruct Hr as (-> & El & Hi0). eapply (found_run k); try done. intros c Hc Hrun. cbn [andb negb Z.eqb]. apply wp_ret.
    apply blocks_post_same; [done|done| |lia]. intros _. rewrite (proj1 Hs1) in Hrun. split_and!; [lia|done|done].
  - apply wp_ret. cbn [andb]. apply wp_if; intros Hce.
    + apply wp_ret, blocks_post_same; [done|done| |]; destruct Hr as [[-> Hi]|(-> & _)]; try (unfold EIO; lia). intros _.
      rewrite orb_false_r in Hce. apply Z.eqb_eq in Hce. split_and!; [done|done|]. rewrite Hi in Hw. rewrite <- (proj1 Hs1).
      by eapply hole_map.
    + apply orb_false_iff in Hce as [Hc%Z.eqb_neq He%Z.eqb_neq]. apply wp_bind, wp_modify, wp_bind.
      assert (err = 0) as -> by (destruct Hr as [[? _]|[? _]]; done).
      eapply wp_mono; [eapply (wp_locked k); [done|done|by apply interfere_ok|done|exact Hbr|done|]|].
      * destruct no_lost_read as [Hid|]; [left|by right]. by rewrite Hid.
      * intros [[err count] nr] s' Hp'. pose proof (blocks_post_locked k max create s s1 s' err count nr) as HB.
        apply wp_if; intros Ee; rewrite Ee in HB; apply wp_ret; auto.
Qed.
End blocks.
