(* ===== verification/Ext3Host.v ===== *)
(** * The host file system of the driver, on the block tree

    The well-formed trees with [ext3_get_blocks_handle] meet what HostExt3.v asks of [ext3_get_blocks_handle], so that
    [ext3_get_block] on the block tree meets the contract [HostFSOk] of the translation thread.  When another thread
    changes the tree before the mutex is taken and a block of pointers cannot be read, it does not. *)
From S2P Require Import Prelude Interfaces StateMonad Ext3Tree Ext3Path Ext3Walk Ext3Grow Ext3Chain Ext3Alloc Ext3Blocks.
From S2P Require Import HostExt3.

(** A mounted file system: its geometry, what other threads do, and the journal as [ext3_get_block] and [fsync] use it. *)
Class Mount (K : Type) := {
  m_bits : Z;
  m_bg_start : Z;
  m_blocks_per_group : Z;
  m_pid : Z;
  m_interfere : est K → est K;
  m_has_handle : K → bool;
  m_start : K → K + Z;
  m_stop : K → K;
  m_fsync : K → K * Z;
}.

Class MountOk (K : Type) `{Balloc K, Mount K} := {
  m_bits_range : 8 ≤ m_bits ≤ 10;
  m_interfere_ok s : ok (K := K) m_bits s → ok m_bits (m_interfere s);
  m_interfere_map s k v : ok (K := K) m_bits s → tmap m_bits (tr s) k = Some v → tmap m_bits (tr (m_interfere s)) k = Some v;
  (** the error of reading the chain again under the mutex is not looked at: for the case left out see
      [unread_indirect_block_lost] *)
  m_no_lost_read : (∀ s, ok (K := K) m_bits s → tr (m_interfere s) = tr s) ∨ ∀ (x : K) b, (sb_bread x b).2 = true;
  m_start_use k k' x : m_start k = inl k' → in_use k' x ↔ in_use k x;
  m_start_err k e : m_start k = inr e → e < 0;
  m_stop_use k x : in_use (m_stop k) x ↔ in_use k x;
  m_fsync_use k x : in_use (m_fsync k).1 x ↔ in_use k x;
}.

Section host.
Context {K : Type} `{BallocOk K, !BallocCalm K, !Mount K, !MountOk K}.

Definition tree_fs : Type := {s : est K | ok m_bits s}.
(** [sector_t] is turned into a [long]. *)
Definition fs_map (fs : tree_fs) (k : Z) : option Z := tmap m_bits (tr (`fs)) (wraps 64 k).

Definition set_kern (s : est K) (k : K) : est K := Est (e_data s) (e_blocks s) (e_info s) k.

Lemma set_kern_ok s k : ok m_bits s → (∀ x, in_use k x ↔ in_use (e_kern s) x) → ok m_bits (set_kern s k).
Proof. intros Hok Hu. by apply (same_ok m_bits s). Qed.

Definition fs_start (fs : tree_fs) : tree_fs + Z :=
  match m_start (e_kern (`fs)) as r return (m_start (e_kern (`fs)) = r → _) with
  | inl k => λ E, inl (set_kern (`fs) k ↾ set_kern_ok _ _ (proj2_sig fs) (λ x, m_start_use _ _ x E))
  | inr e => λ _, inr e
  end eq_refl.
Definition fs_stop (fs : tree_fs) : tree_fs := set_kern (`fs) (m_stop (e_kern (`fs))) ↾ set_kern_ok _ _ (proj2_sig fs) (m_stop_use _).
Definition fs_fsync (fs : tree_fs) : tree_fs * Z :=
  (set_kern (`fs) (m_fsync (e_kern (`fs))).1 ↾ set_kern_ok _ _ (proj2_sig fs) (m_fsync_use _), (m_fsync (e_kern (`fs))).2).

Abbreviation handle := (Ext3Tree.ext3_get_blocks_handle (K := K) m_bits m_bg_start m_blocks_per_group m_pid m_interfere).
Abbreviation post := (blocks_post m_bits m_interfere).

Lemma handle_ok (fs : tree_fs) blk max create : 1 ≤ max → wp (handle blk max create) (post (wraps 64 blk) max create (`fs)) (`fs).
Proof.
  intros Hmax. apply wp_get_blocks; [apply m_bits_range|apply m_interfere_ok|apply m_interfere_map|apply m_no_lost_read|apply (proj2_sig fs)|done].
Qed.

Definition outcome (fs : tree_fs) (r : res (Z * Z * est K)) (P : Z * Z → est K → Prop) (HP : ∀ a s', P a s' → ok m_bits s') :
    (∃ a s', r = Ok (a, s') ∧ P a s') → tree_fs * Z * Z :=
  match r with
  | Ok (a, s') => λ E, ((s' ↾ HP a s' ltac:(by destruct E as (? & ? & [= <- <-] & ?))) : tree_fs, a.1, a.2)
  | _ => λ _, (fs, - EIO, 0)
  end.

Lemma outcome_inv fs r P HP E fs' ret nr : outcome fs r P HP E = (fs', ret, nr) → r = Ok ((ret, nr), `fs') ∧ P (ret, nr) (`fs').
Proof.
  destruct r as [[[ret' nr'] s']| |]; [|intros _; exfalso; by destruct E as (? & ? & ? & _)..]. cbn. intros [= <- <- <-]. cbn. split; [done|].
  by destruct E as (? & ? & [= <- <-] & ?).
Qed.

(** At least one block is asked for. *)
Definition fs_blocks (fs : tree_fs) (blk max create : Z) : tree_fs * Z * Z :=
  match decide (1 ≤ max) with
  | left Hmax => outcome fs (handle blk max create (`fs)) _ (λ a s' P, bp_ok _ _ _ _ _ _ _ _ P) (handle_ok fs blk max create Hmax)
  | right _ => (fs, - EIO, 0)
  end.

Lemma fs_blocks_inv fs blk max create fs' ret nr : fs_blocks fs blk max create = (fs', ret, nr) →
  (¬ 1 ≤ max ∧ fs' = fs ∧ ret = - EIO ∧ nr = 0) ∨
  (1 ≤ max ∧ handle blk max create (`fs) = Ok ((ret, nr), `fs') ∧ post (wraps 64 blk) max create (`fs) (ret, nr) (`fs')).
Proof.
  unfold fs_blocks. case_decide as Hmax; [|intros [= <- <- <-]; by left]. intros [? ?]%outcome_inv. by right.
Qed.

#[global] Instance tree_ext3 : Ext3 tree_fs := {
  ext3_blkbits := m_bits + 2;
  ext3_has_handle fs := m_has_handle (e_kern (`fs));
  ext3_journal_start := fs_start;
  ext3_journal_stop := fs_stop;
  ext3_get_blocks_handle := fs_blocks;
  ext3_fsync := fs_fsync;
  ext3_map := fs_map;
}.

(** A block in range, counted from one that was converted to a [long]. *)
Lemma wraps_block k j : - 2 ^ 63 ≤ wraps 64 k + j < 2 ^ 63 → wraps 64 (k + j) = wraps 64 k + j.
Proof.
  intros Hr. rewrite <- (wraps_small 64 (wraps 64 k + j)) by lia.
  assert ((k + j) mod 2 ^ 64 = (wraps 64 k + j) mod 2 ^ 64) as E; [|unfold wraps at 1; by rewrite E].
  rewrite Z.add_mod, (Z.add_mod (wraps 64 k)) by done. do 2 f_equal. unfold wraps. case_bool_decide; [by rewrite Z.mod_mod|].
  replace (k mod 2 ^ 64 - 2 ^ 64) with (k mod 2 ^ 64 + -1 * 2 ^ 64) by lia. by rewrite Z.mod_add, Z.mod_mod.
Qed.

Lemma tmap_range t k v : tmap m_bits t k = Some v → 0 ≤ k < 2 ^ 63.
Proof.
  unfold tmap. destruct (ext3_block_to_path m_bits k) as [p b] eqn:E. cbn. intros Hv. assert (p ≠ []) as Hp by (by intros ->).
  destruct (block_path _ m_bits_range _ _ _ E Hp) as (Hk & _). pose proof (ptrs_bounds _ m_bits_range). unfold max_block, EXT3_NDIR_BLOCKS in Hk. nia.
Qed.

#[global] Instance tree_ext3_ok : Ext3Ok tree_fs.
Proof.
  split; cbn.
  - pose proof m_bits_range. lia.
  - intros [s Hok] k v. unfold fs_map, tmap. cbn. destruct (ext3_block_to_path m_bits _) as [p b] eqn:E. cbn.
    destruct (walk (tr s) p) as [w|] eqn:Ew; [|done]. cbn. destruct (Z.eqb_spec w 0); [done|]. intros [= <-].
    assert (p ≠ []) as Hp by (by intros ->). destruct (block_path _ m_bits_range _ _ _ E Hp) as (_ & Hpok & _).
    by destruct (ok_ptr _ _ _ Hok p w) as [[? _] _].
  - intros fs fs' k. unfold fs_start. generalize (eq_refl (m_start (e_kern (`fs)))).
    destruct (m_start (e_kern (`fs))) at 2 3; [|done]. by intros ? [= <-].
  - intros fs e. unfold fs_start. generalize (eq_refl (m_start (e_kern (`fs)))).
    destruct (m_start (e_kern (`fs))) at 2 3; [done|]. intros E [= <-]. by eapply m_start_err.
  - done.
  - intros fs blk max create fs' ret nr k v [(_ & -> & _)|(_ & _ & HP)]%fs_blocks_inv; [done|]. apply HP.
  - intros fs blk max fs' ret nr k [(_ & -> & _)|(_ & _ & HP)]%fs_blocks_inv; [done|]. by apply HP.
  - intros fs blk max create fs' ret nr [(_ & -> & -> & _)|(_ & _ & HP)]%fs_blocks_inv; [unfold EIO; lia|]. intros Hret.
    destruct (bp_run _ _ _ _ _ _ _ _ HP Hret) as (Hle & Hnr & Hrun). split_and!; [done..|]. intros j Hj. specialize (Hrun j Hj). cbn in Hrun.
    pose proof (tmap_range _ _ _ Hrun). unfold fs_map. rewrite wraps_block; [done|lia].
  - intros fs blk max create fs' ret nr [(_ & -> & -> & _)|(_ & _ & HP)]%fs_blocks_inv; [done|]. apply HP.
  - done.
Qed.
End host.
