(* ===== verification/Ext3Main.v ===== *)
(** * Properties of the block map of ext3

    [ext3_get_blocks_handle] on the block tree, [ext3_get_block] on top of it, and what happens when a block of
    pointers that another thread allocated cannot be read. *)
From S2P Require Import Prelude Interfaces StateMonad Ext3Tree Ext3Path Ext3Walk Ext3Grow Ext3Chain Ext3Alloc Ext3Blocks.
From S2P Require Import HostExt3 Ext3Host.

(** ** When a block of pointers cannot be read

    The chain is read again under the mutex, and the error of that is not looked at. *)
Lemma tptr_tset_ne t l v l' : l' ≠ l → 0 ≤ off l → 0 ≤ off l' → tptr (tset l v t) l' = tptr t l'.
Proof.
  intros Hne H1 H2. destruct l as [i|b i], l' as [i'|b' i']; cbn in *; try done.
  - apply list_lookup_insert_ne. intros Hn. apply Hne. f_equal. lia.
  - destruct (decide (b' = b)) as [->|]; [|by rewrite lookup_alter_ne]. rewrite lookup_alter_eq. destruct (t_blocks t !! b) as [c|]; [|done].
    cbn. apply list_lookup_insert_ne. intros Hn. apply Hne. f_equal. lia.
Qed.

Lemma tptr_run_out n l d t l' : (∀ j, 0 ≤ j < Z.of_nat n → l' ≠ loc_add l j) → 0 ≤ off l → 0 ≤ off l' → tptr (run l d n t) l' = tptr t l'.
Proof.
  revert l d t. induction n as [|n IH]; intros l d t Hne H1 H2; [done|]. cbn [run]. rewrite IH; [| |destruct l; cbn in *; lia|done].
  - apply tptr_tset_ne; [|done..]. rewrite <- (loc_add_0 l). apply Hne. lia.
  - intros j Hj. rewrite loc_add_add. apply Hne. lia.
Qed.

Section lost.
Context {K : Type} `{BallocOk K, !BallocCalm K}.
Variables ptrs_bits bg_start blocks_per_group pid : Z.
Hypothesis bits_range : 8 ≤ ptrs_bits ≤ 10.

Lemma ind_path a : in_block ptrs_bits a → ext3_block_to_path ptrs_bits (12 + a) = ([12; a], ptrs ptrs_bits - 1 - a).
Proof.
  intros Ha. unfold in_block in Ha. pose proof (ptrs_bounds _ bits_range) as HP. pose proof (path_cases _ bits_range (12 + a)) as Hc. cbn zeta in Hc.
  destruct (ext3_block_to_path ptrs_bits (12 + a)) as [p b].
  destruct Hc as [(-> & ?)|[(-> & ? & _)|[(i & E & -> & ? & ->)|[(i & E & -> & ? & _)|(i & E & -> & ? & _)]]]]; try nia. by replace i with a by lia.
Qed.

(** The blocks of the indirect block that are not among the new ones are gone. *)
Lemma overwritten_inode (t : tree) a b d (n : nat) : in_block ptrs_bits a → is_Some (tptr t (LInode 12)) →
  tptr (grow ptrs_bits (LInode 12) [b] [a] d n t) (LInode 12) = Some b.
Proof.
  intros Ha [w Hw]. unfold in_block, grow in *. cbn [nodes]. rewrite tptr_run_out; [|by intros j _|cbn; lia..]. unfold attach.
  by rewrite (tptr_tset _ _ _ w), decide_True.
Qed.

Lemma overwritten (t : tree) a b d (n : nat) x : in_block ptrs_bits a → in_block ptrs_bits x → b ≠ 0 → is_Some (tptr t (LInode 12)) → ¬ a ≤ x < a + Z.of_nat n →
  tmap ptrs_bits (grow ptrs_bits (LInode 12) [b] [a] d n t) (12 + x) = None.
Proof.
  intros Ha Hx Hb Hw Hout. unfold tmap. rewrite ind_path by done. cbn [fst]. change [12; x] with ([12] ++ [x]). rewrite walk_snoc by done.
  change (walk ?t [12]) with (tptr t (LInode 12)). rewrite overwritten_inode, down_Some by done. unfold grow, in_block in *. cbn [nodes].
  rewrite tptr_run_out; [|intros j Hj [=]; lia|cbn; lia..]. unfold attach. rewrite tptr_tset_ne, tptr_tblk, decide_True by (done || cbn; lia).
  cbn [off]. by rewrite zeros_lookup by (unfold in_block; lia).
Qed.

(** A missing indirect block is allocated over the one that is there. *)
Lemma wp_alloc_over a v iblock max (s : est K) : ok ptrs_bits s → in_block ptrs_bits a → 1 ≤ max → e_data s !! 12%nat = Some v → v ≠ 0 →
  wp (get_blocks_alloc ptrs_bits bg_start blocks_per_group pid [12; a] (ptrs ptrs_bits - 1 - a) iblock max [Ind (LInode 12) v None])
    (λ '(err, count, nr) s', err < 0 ∨ (err = 0 ∧ 1 ≤ count ∧ e_data s' !! 12%nat ≠ Some v ∧ in_use (e_kern s') v ∧
       ∀ x, in_block ptrs_bits x → ¬ a ≤ x < a + count → tmap ptrs_bits (tr s') (12 + x) = None)) s.
Proof.
  intros Hok Ha Hmax Hv Hv0. apply wp_bind, wp_init_info. intros s1 Hs1. apply (same_ok _ _ _ Hs1) in Hok. destruct Hs1 as [E1 _].
  assert (tptr (tr s1) (LInode 12) = Some v) as Hv1 by (by rewrite E1). clear s E1 Hv. pose proof (ptrs_bounds _ bits_range) as HP.
  assert (path_ok ptrs_bits [12]) as Hp by (split_and!; [done|done|constructor|cbn; lia]). assert (at_path (tr s1) [12] (LInode 12)) as Hat by (left; by exists 12).
  destruct (ok_ptr _ _ _ Hok [12] v Hp Hv1 Hv0) as [_ Hused]. apply wp_bind. eapply wp_lift; [done|].
  apply wp_bind. eapply wp_find_goal; [done|exact Hp|exact Hat|]. intros goal. apply wp_bind. cbn [length Nat.sub Nat.pred drop in_p].
  unfold ext3_blks_to_allocate. cbn [Z.of_nat Z.ltb Z.compare Pos.of_succ_nat]. unfold in_block in Ha. apply wp_ret. set (c := if _ : bool then _ else _).
  assert (1 ≤ c ≤ ptrs ptrs_bits - a) as Hc by (unfold c; destruct (Z.ltb_spec max (ptrs ptrs_bits - 1 - a + 1)); lia).
  apply wp_bind, wp_alloc_branch; [done|lia|done| | |].
  { split; [by constructor|]. intros o [= <-]. lia. }
  { intros err n branch s2 F He _ _ _. apply wp_if; [|intros E%negb_false_iff%Z.eqb_eq; lia]. intros _. apply wp_ret. by left. }
  intros num inds d s2 Hnum Hli HB E2 HU2. destruct inds as [|b [|]]; [done| |done]. cbn [negb Z.eqb head tail]. apply wp_bind. eapply wp_lift; [done|].
  apply wp_bind. pose proof (bb_inds _ _ _ _ HB) as [[Hb Hbu] _]%Forall_cons.
  eapply (wp_splice_branch ptrs_bits bits_range iblock (LInode 12) [b] [a] d num (in_use (e_kern s1)) (tr s1)); try done; [lia|..].
  { intros err s3 He _ _. apply wp_if; [|intros E%negb_false_iff%Z.eqb_eq; lia]. intros _. apply wp_ret. by left. }
  intros s3 E3 HU3. cbn [negb Z.eqb]. apply wp_bind. eapply wp_lift; [done|]. apply wp_ret. right. rewrite E3. split_and!; [done|lia| | |].
  - change (e_data s3 !! 12%nat) with (tptr (tr s3) (LInode 12)). rewrite E3.
    rewrite overwritten_inode by done. intros [= ->]. done.
  - apply HU3. by left.
  - intros x Hx Ho. eapply overwritten; [done|done|lia|by eexists|lia].
Qed.

(** C38: [ext3_get_blocks_handle] ignores that the chain cannot be read again under the mutex.  When another thread
    allocated the indirect block meanwhile and it cannot be read, a call that creates a block either fails for another
    reason or stores a new indirect block over the pointer to the one that is there: its blocks are no longer mapped,
    and it stays in use. *)
Theorem unread_indirect_block_lost interfere a v max create (s : est K) : in_block ptrs_bits a → 1 ≤ max → create ≠ 0 →
  e_data s !! 12%nat = Some 0 → ok ptrs_bits (interfere s) → e_data (interfere s) !! 12%nat = Some v → v ≠ 0 →
  (sb_bread (e_kern (interfere s)) v).2 = false →
  ∃ ret nr s', Ext3Tree.ext3_get_blocks_handle ptrs_bits bg_start blocks_per_group pid interfere (12 + a) max create s = Ok ((ret, nr), s') ∧
    (ret < 0 ∨ (1 ≤ ret ∧ e_data s' !! 12%nat ≠ Some v ∧ in_use (e_kern s') v ∧
       ∀ x, in_block ptrs_bits x → ¬ a ≤ x < a + ret → tmap ptrs_bits (tr s') (12 + x) = None)).
Proof.
  intros Ha Hmax Hc Hs Hok Hv Hv0 Hbr. pose proof (ptrs_bounds _ bits_range) as HP.
  assert (wp (Ext3Tree.ext3_get_blocks_handle ptrs_bits bg_start blocks_per_group pid interfere (12 + a) max create)
    (λ '(ret, nr) s', ret < 0 ∨ (1 ≤ ret ∧ e_data s' !! 12%nat ≠ Some v ∧ in_use (e_kern s') v ∧
       ∀ x, in_block ptrs_bits x → ¬ a ≤ x < a + ret → tmap ptrs_bits (tr s') (12 + x) = None)) s) as (r & s' & E & HP').
  2:{ destruct r as [ret nr]. by exists ret, nr, s'. }
  unfold Ext3Tree.ext3_get_blocks_handle. rewrite wraps_small, ind_path by (done || unfold in_block in Ha; lia).
  rewrite bool_decide_false by done. apply wp_bind, wp_bind. eapply wp_read; [exact Hs|]. cbn [Z.eqb]. apply wp_ret.
  cbn [last]. apply wp_bind. eapply wp_lift; [done|]. apply wp_bind, wp_ret. cbn [andb]. rewrite (proj2 (Z.eqb_neq create 0)) by done. cbn [orb].
  change (0 =? - EIO) with false. apply wp_bind, wp_modify, wp_bind. unfold get_blocks_locked. change (0 =? - EAGAIN) with false.
  apply wp_bind. cbn [verify_chain in_p in_key]. apply wp_bind. eapply wp_read; [exact Hv|]. rewrite (proj2 (Z.eqb_neq 0 v)) by done. apply wp_ret.
  apply wp_bind, wp_bind. eapply wp_read; [exact Hv|]. rewrite (proj2 (Z.eqb_neq v 0)) by done. cbn [branch_loop].
  apply wp_bind, wp_kcall_same; [intros; apply sb_bread_use|]. intros s2 Hs2. rewrite Hbr. cbn [negb]. apply wp_ret.
  eapply wp_mono; [apply (wp_alloc_over a v); try done; [by eapply same_ok|]|].
  - destruct Hs2 as [E2 _]. by injection E2 as -> _.
  - intros [[err count] nr] s' [He|(-> & Hr)]; [destruct (Z.eqb_spec err 0); [lia|]|]; apply wp_ret; [by left|by right].
Qed.
End lost.

(** ** A small kernel

    A set of blocks in use; blocks are allocated above all of them, at most three at a time.  [tk_read]: blocks can be read. *)
Record toyk := ToyK { tk_used : gset Z; tk_read : bool }.

Definition tk_top (u : gset Z) : Z := set_fold Z.max 0 u.
Definition tk_range (b n : Z) : gset Z := list_to_set (seqZ b n).

Definition tk_new (k : toyk) (n : Z) : toyk * (Z * Z * Z) :=
  let b := tk_top (tk_used k) + 1 in
  let c := Z.min n 3 in
  if decide (b + c ≤ 2 ^ 32) then (ToyK (tk_used k ∪ tk_range b c) (tk_read k), (b, c, 0)) else (k, (0, 0, -28)).

#[global] Instance toyk_balloc : Balloc toyk := {
  sb_bread k b := (k, tk_read k);
  sb_getblk k b := (k, true);
  journal_get_create_access k b := (k, 0);
  journal_get_write_access k b := (k, 0);
  journal_dirty_metadata k b := (k, 0);
  journal_forget k b := k;
  new_blocks k goal n := tk_new k n;
  free_blocks k b n := ToyK (tk_used k ∖ tk_range b n) (tk_read k);
  init_alloc_info k := (k, true);
  in_use k b := b ∈ tk_used k;
}.

Lemma tk_top_spec u : 0 ≤ tk_top u ∧ ∀ x, x ∈ u → x ≤ tk_top u.
Proof.
  unfold tk_top. apply (set_fold_ind_L (λ m u, 0 ≤ m ∧ ∀ x, x ∈ u → x ≤ m)); [set_solver|]. intros x X m Hx [H1 H2].
  split; [lia|]. intros y [->%elem_of_singleton|Hy]%elem_of_union; [lia|]. specialize (H2 y Hy). lia.
Qed.

Lemma tk_range_elem b n x : x ∈ tk_range b n ↔ b ≤ x < b + n.
Proof. unfold tk_range. by rewrite elem_of_list_to_set, elem_of_seqZ. Qed.

#[global] Instance toyk_ok : BallocOk toyk.
Proof.
  split; cbn; try done.
  - intros k _ n k' b c e. unfold tk_new. case_decide; intros [= <- <- <- <-]; done.
  - intros k _ n k' b c Hn. unfold tk_new. destruct (tk_top_spec (tk_used k)) as [Ht Hmax]. case_decide; [|done]. intros [= <- <- <-]. cbn.
    split_and!; try lia. intros x. rewrite elem_of_union, tk_range_elem. split; [done|]. intros Hx Hin. specialize (Hmax x Hin). lia.
  - intros k b n x. by rewrite elem_of_difference, tk_range_elem.
Qed.

#[global] Instance toyk_calm : BallocCalm toyk.
Proof. by split. Qed.

#[global] Instance toyk_mount : Mount toyk := {
  m_bits := 8;
  m_bg_start := 1;
  m_blocks_per_group := 8192;
  m_pid := 100;
  m_interfere s := s;
  m_has_handle _ := false;
  m_start := inl;
  m_stop k := k;
  m_fsync k := (k, 0);
}.

#[global] Instance toyk_mount_ok : MountOk toyk.
Proof. split; cbn; try done; try lia; [by left|]. by intros k k' x [= <-]. Qed.

(** An empty file. *)
Definition empty_file (k : toyk) : est toyk := Est (replicate 15 0) ∅ None k.

Lemma empty_walk p : path_ok 8 p → walk (tr (empty_file (ToyK ∅ true))) p = Some 0 ∨ walk (tr (empty_file (ToyK ∅ true))) p = None.
Proof.
  revert p. apply (path_ind 8); [intros o Ho|intros p o Hp _ _ _ IH].
  - left. apply lookup_replicate_2. unfold EXT3_N_BLOCKS, EXT3_TIND_BLOCK, EXT3_DIND_BLOCK, EXT3_IND_BLOCK, EXT3_NDIR_BLOCKS in Ho. lia.
  - right. rewrite walk_snoc by done. by destruct IH as [-> | ->].
Qed.

Lemma empty_ok : ok 8 (empty_file (ToyK ∅ true)).
Proof.
  split; [done|..]; intros p; intros; destruct (empty_walk p); try done; congruence.
Qed.

(** ** What the calm class leaves out *)
Section failures.
Context {K : Type} `{BallocOk K}.

(** A data block is spliced into a block of pointers whose journalling then fails: the block is freed, and the
    pointer to it stays in the tree. *)
Theorem splice_error_frees_linked_block ptrs_bits iblock b o d w err (s : est K) :
  tptr (tr s) (LBlk b o) = Some w → 0 ≤ o < ptrs ptrs_bits → 0 < d < 2 ^ 32 → err ≠ 0 →
  (∀ k x, (journal_get_write_access k x).2 = 0) → (∀ k x, (journal_dirty_metadata k x).2 = err) →
  ∃ s', ext3_splice_branch iblock (Ind (LBlk b o) d (Some b)) [] 1 s = Ok (err, s') ∧
    tptr (tr s') (LBlk b o) = Some d ∧ ¬ in_use (e_kern s') d.
Proof.
  intros Hp Ho Hd He Hacc Hdirty.
  assert (wp (ext3_splice_branch iblock (Ind (LBlk b o) d (Some b)) [] 1)
    (λ e s', e = err ∧ tptr (tr s') (LBlk b o) = Some d ∧ ¬ in_use (e_kern s') d) s) as (e & s' & E & -> & Hs); [|by exists s'].
  unfold ext3_splice_branch. cbn [in_bh in_key in_p length last].
  apply wp_bind, wp_kcall_same; [intros; apply write_access_use|]. intros s1 [E1 H1]. rewrite Hacc. cbn [negb Z.eqb].
  apply wp_bind, wp_write; [rewrite E1, Hp; by eexists|]. intros s2 E2 _. apply wp_bind, wp_ret, wp_bind, wp_get, wp_bind.
  apply wp_mono with (Q := λ _ s3, tr s3 = tr s2); [destruct (e_info s2); [by apply wp_modify|by apply wp_ret]|]. intros [] s3 E3.
  apply wp_bind, wp_kcall_same; [intros; apply dirty_use|]. intros s4 [E4 H4]. rewrite Hdirty.
  rewrite (proj2 (Z.eqb_neq err 0) He). cbn [negb splice_undo].
  apply wp_bind, (wp_free _ _ (in_use (e_kern s4))); [by intros x|]. intros s5 E5 HU. apply wp_ret. split; [done|]. split.
  - rewrite E5, E4, E3, E2, (tptr_tset _ _ _ w), decide_True by (rewrite ?E1; done || (cbn; lia)). done.
  - rewrite HU. lia.
Qed.

(** Without the buffer of [sb_getblk] the error path forgets a buffer that is not there. *)
Theorem no_buffer_faults ptrs_bits all parent v rest o offs num branch (s : est K) :
  (sb_getblk (e_kern s) parent).2 = false → Forall (λ i, is_Some (in_bh i)) branch →
  link_loop ptrs_bits all (parent :: v :: rest) (o :: offs) num branch s = Oops.
Proof.
  intros Hg Hbr. cbn [link_loop].
  destruct (wp_kcall (λ k, sb_getblk k parent) (λ r s1, r = false) s Hg) as (r & s1 & E & ->).
  rewrite (ST_bind_Ok _ _ _ _ _ E). cbn [negb]. apply ST_bind_Oops. clear E. revert s1.
  induction Hbr as [|i branch [x Hx] _ IH]; intros s1; [done|]. cbn [app forget_all]. rewrite Hx.
  rewrite (ST_bind_Ok _ _ s1 x s1) by done. by rewrite (ST_bind_Ok _ _ _ _ _ eq_refl).
Qed.
End failures.

(** ** Properties *)

(** C10: [ext3_get_blocks_handle], asked for at least one block, with no failure of [sb_getblk] and
    [journal_dirty_metadata] ([BallocCalm]), and either with no other thread changing the tree before the mutex is
    taken or with every block of pointers readable, returns, keeps the tree well formed and moves no block.
    A positive result is a number of blocks, at most those asked for, that are mapped to consecutive blocks of the
    device from the one returned on; 0 is a plain lookup of a missing block; a plain lookup changes nothing, and in the
    error case no mapping changes.  Reading, getting access and allocating may fail. *)
Theorem ext3_get_blocks_correct {K : Type} `{BallocOk K, !BallocCalm K} ptrs_bits bg_start blocks_per_group pid interfere (s : est K) iblock maxblocks create :
  8 ≤ ptrs_bits ≤ 10 → (∀ s, ok ptrs_bits s → ok ptrs_bits (interfere s)) →
  (∀ s k v, ok ptrs_bits s → tmap ptrs_bits (tr s) k = Some v → tmap ptrs_bits (tr (interfere s)) k = Some v) →
  (∀ s, ok ptrs_bits s → tr (interfere s) = tr s) ∨ (∀ (x : K) b, (sb_bread x b).2 = true) →
  ok ptrs_bits s → 1 ≤ maxblocks →
  ∃ ret nr s', Ext3Tree.ext3_get_blocks_handle ptrs_bits bg_start blocks_per_group pid interfere iblock maxblocks create s = Ok ((ret, nr), s') ∧
    blocks_post ptrs_bits interfere (wraps 64 iblock) maxblocks create s (ret, nr) s'.
Proof.
  intros Hb H1 H2 H3 Hok Hmax. destruct (wp_get_blocks ptrs_bits Hb bg_start blocks_per_group pid interfere H1 H2 H3 iblock maxblocks create s Hok Hmax)
    as ([ret nr] & s' & E & HP). by exists ret, nr, s'.
Qed.

Abbreviation toy_handle := (Ext3Tree.ext3_get_blocks_handle (K := toyk) 8 1 8192 100 (λ s, s)).

Lemma ext3_get_blocks_correct_witness :
  (match toy_handle 14 2 1 (empty_file (ToyK ∅ true)) with
   | Ok ((ret, nr), s') => (ret, nr, tmap 8 (tr s') 15, tmap 8 (tr s') 16, e_data s' !! 12%nat)
   | _ => (0, 0, None, None, None) end = (2, 2, Some 3, None, Some 1)) ∧
  ∃ ret nr s', toy_handle 14 2 1 (empty_file (ToyK ∅ true)) = Ok ((ret, nr), s') ∧ blocks_post 8 (λ s, s) 14 2 1 (empty_file (ToyK ∅ true)) (ret, nr) s'.
Proof.
  split; [by vm_compute|]. apply (ext3_get_blocks_correct 8 1 8192 100 (λ s, s) (empty_file (ToyK ∅ true)) 14 2 1); [lia|done|done|by left|apply empty_ok|lia].
Defined.

(** C11: [ext3_get_block] on the block tree gives the translation thread of the driver what it relies on: the well-formed
    trees are a host file system whose block map is the one the tree describes.  As for the block map itself, [sb_getblk]
    and [journal_dirty_metadata] do not fail ([BallocCalm]), and other threads leave the tree alone while a call waits
    for the mutex or blocks of pointers can be read ([m_no_lost_read]). *)
Theorem block_tree_host_ok {K : Type} `{BallocOk K, !BallocCalm K, !Mount K, !MountOk K} : HostFSOk (tree_fs (K := K)).
Proof. apply ext3_host_ok. Qed.

Lemma block_tree_host_ok_witness :
  HostFSOk (tree_fs (K := toyk)) ∧ (ext3_get_block (FS := tree_fs (K := toyk)) (empty_file (ToyK ∅ true) ↾ empty_ok) 14 2048 1).2 = GbResult 0 2 2048.
Proof. split; [apply block_tree_host_ok|by vm_compute]. Defined.

(** Another thread allocates block 17 of the file, and then blocks can no longer be read. *)
Definition other_thread (s : est toyk) : est toyk :=
  match toy_handle 17 1 1 s with
  | Ok (_, s') => Est (e_data s') (e_blocks s') (e_info s') (ToyK (tk_used (e_kern s')) false)
  | _ => s
  end.

Lemma other_thread_ok : ok 8 (other_thread (empty_file (ToyK ∅ true))).
Proof.
  destruct (wp_get_blocks 8 ltac:(lia) 1 8192 100 (λ s : est toyk, s) ltac:(done) ltac:(done) ltac:(by left) 17 1 1 _ empty_ok ltac:(lia))
    as (r & s' & E & HP). unfold other_thread. rewrite E. destruct r as [ret nr]. by apply (same_ok 8 s'), HP.
Qed.

Lemma unread_indirect_block_lost_witness :
  (∃ ret nr s', Ext3Tree.ext3_get_blocks_handle 8 1 8192 100 other_thread (12 + 2) 1 1 (empty_file (ToyK ∅ true)) = Ok ((ret, nr), s') ∧
    (ret < 0 ∨ (1 ≤ ret ∧ e_data s' !! 12%nat ≠ Some 1 ∧ in_use (e_kern s') 1 ∧
       ∀ x, in_block 8 x → ¬ 2 ≤ x < 2 + ret → tmap 8 (tr s') (12 + x) = None))) ∧
  tmap 8 (tr (other_thread (empty_file (ToyK ∅ true)))) 17 = Some 2 ∧
  match Ext3Tree.ext3_get_blocks_handle 8 1 8192 100 other_thread (12 + 2) 1 1 (empty_file (ToyK ∅ true)) with
  | Ok ((ret, nr), s') => (ret, nr, tmap 8 (tr s') 17) | _ => (0, 0, None) end = (1, 4, None).
Proof.
  split; [|split; by vm_compute].
  apply (unread_indirect_block_lost 8 1 8192 100 ltac:(lia) other_thread 2 1 1 1 (empty_file (ToyK ∅ true)));
    [split; by vm_compute|lia|done|done|apply other_thread_ok|by vm_compute|done|by vm_compute].
Defined.
