(* ===== verification/Translate.v ===== *)
(** * The translation thread of the virtualized device

    Models [struct cio_req] (include/linux/loop.h) and, from drivers/block/loop.c,
    [loop_thread] (one definition per loop of its body), [cio_make_request],
    [cio_make_request_flush] and [sync_file].  A requester links a [cio_req] at the tail of
    [lo_cio_list] and sleeps on its completion; the thread takes requests from the head,
    asks the host file system for up to [prefetch_blocks] blocks and fills the translation
    cache.  [complete] is modelled by a counter in the request, so that a request completed
    twice is visible. *)
From S2P Require Import Prelude Interfaces Bio BlockCache HostExt3.

Definition LOOP_DIRTY : Z := 1.

Definition test_bit (nr addr : Z) : bool := Z.testbit addr nr.
Definition set_bit (nr addr : Z) : Z := Z.lor addr (Z.shiftl 1 nr).
Definition clear_bit (nr addr : Z) : Z := Z.ldiff addr (Z.shiftl 1 nr).

#[global] Arguments test_bit : simpl never.
#[global] Arguments set_bit : simpl never.
#[global] Arguments clear_bit : simpl never.

Record cio_req := CioReq {
  cio_create : Z;
  cio_blk_local : Z;
  cio_blk_phy : Z;
  cio_blk_num : Z;
  cio_error : Z;
  (** number of calls of [complete (&cio->allocated)] *)
  cio_allocated : nat;
}.

Definition complete (cio : cio_req) : cio_req := cio <| cio_allocated ::= S |>.

Section translate.
Context {C FS : Type} `{TranslationCache C} `{HostFS FS} `{Printk}.

(** The module parameter after [loop_init] has divided it by 4. *)
Variable prefetch_blocks : Z.

(** The part of [struct loop_device] the thread uses, with the host file system. *)
Record lanes := Lanes {
  lo_cache : C;
  lo_host : FS;
  lo_dirty_state : Z;
  lo_cio_list : list cio_req;
}.

(** [while (j < got_num)]: [n] is the number of iterations left.  Returns the new [i],
    [blk_start] and [j]. *)
Fixpoint fill_loop (n : nat) (blocknr i blk_start j : Z) (c : C) (cio : cio_req)
    : res (Z * Z * Z * C * cio_req) :=
  match n with
  | O => Ok (i, blk_start, j, c, cio)
  | S n =>
      if decide (blocknr ≠ 0) then
        let cio := if decide (i = 0 ∧ j = 0)
                   then complete (cio <| cio_error := 0 |> <| cio_blk_phy := blocknr |>)
                   else cio in
        c ← lift (tc_add (blocknr + j) (blk_start + j) c);
        fill_loop n blocknr i blk_start (j + 1) c cio
      else
        let cio := if decide (i = 0 ∧ j = 0)
                   then complete (cio <| cio_error := 0 |> <| cio_blk_phy := 0 |>)
                   else cio in
        Ok (i + 1, blk_start + 1, j, c, cio)
  end.

(** [bh_result.b_size = (prefetch_blocks-i) << inode->i_blkbits]: an [int] shift, then
    converted to [size_t]. *)
Definition wanted_size (n : Z) : Z := wrapu 64 (wraps 32 (n ≪ i_blkbits)).

(** [while (i < prefetch_blocks)]: [cur] is the node found for the first block, never
    changed by the loop. *)
Fixpoint prefetch_loop (fuel : nat) (cur : option Z) (create i blk_start : Z)
    (lo : lanes) (cio : cio_req) : res (lanes * cio_req) :=
  match fuel with
  | O => NoFuel
  | S fuel =>
      if decide (i < prefetch_blocks) then
        match cur with
        | None =>
            let '(fs, bh) := get_block (lo_host lo) blk_start
                               (wanted_size (prefetch_blocks - i)) create in
            let lo := lo <| lo_host := fs |> in
            let got_num := gb_size bh ≫ i_blkbits in
            if decide (gb_ret bh ≠ 0) then
              (* printk ("... ret=%n", ..., ret) *)
              if printk_n (gb_ret bh) then Ok (lo, complete (cio <| cio_error := gb_ret bh |>))
              else Oops
            else
              let lo := if decide (create ≠ 0)
                        then lo <| lo_dirty_state ::= set_bit LOOP_DIRTY |> else lo in
              '(i, blk_start, j, c, cio) ←
                fill_loop (Z.to_nat got_num) (gb_blocknr bh) i blk_start 0 (lo_cache lo) cio;
              prefetch_loop fuel cur create (i + j) (blk_start + j)
                (lo <| lo_cache := c |>) cio
        | Some phys =>
            if decide (i = 0) then
              Ok (lo, complete (cio <| cio_error := 0 |> <| cio_blk_phy := phys |>))
            else prefetch_loop fuel cur create i blk_start lo cio
        end
      else Ok (lo, cio)
  end.

Definition prefetch_fuel : nat := S (Z.to_nat prefetch_blocks).

(** A translation request: the part of the thread's body after the flush test. *)
Definition handle_translate (lo : lanes) (cio : cio_req) : res (lanes * cio_req) :=
  let blk_start := cio_blk_local cio in
  let create := Z.land (cio_create cio) REQ_WRITE in
  cur ← lift (tc_find (lo_cache lo) blk_start);
  prefetch_loop prefetch_fuel cur create 0 blk_start lo cio.

(** A flush request, recognised by [blk_num == -1]. *)
Definition handle_flush (lo : lanes) (cio : cio_req) : lanes * cio_req :=
  let '(fs, ret) := vfs_fsync (lo_host lo) in
  let lo := lo <| lo_host := fs |> in
  let cio := cio <| cio_error := ret |> in
  let lo := if decide (ret = 0) then lo <| lo_dirty_state ::= clear_bit LOOP_DIRTY |> else lo in
  (lo, complete cio).

Definition handle_cio (lo : lanes) (cio : cio_req) : res (lanes * cio_req) :=
  if decide (cio_blk_num cio = -1) then Ok (handle_flush lo cio) else handle_translate lo cio.

(** One iteration of [loop_thread]: nothing when the list is empty, otherwise unlink the
    head and serve it. *)
Definition loop_thread_iter (lo : lanes) : res (lanes * option cio_req) :=
  match lo_cio_list lo with
  | [] => Ok (lo, None)
  | cio :: rest =>
      '(lo, cio) ← handle_cio (lo <| lo_cio_list := rest |>) cio;
      Ok (lo, Some cio)
  end.

(** [loop_thread] after [kthread_should_stop ()] has become true: it runs until the list is
    empty.  [served] collects the requests in the order served. *)
Fixpoint loop_thread_drain (fuel : nat) (lo : lanes) (served : list cio_req)
    : res (lanes * list cio_req) :=
  match fuel with
  | O => NoFuel
  | S fuel =>
      '(lo, r) ← loop_thread_iter lo;
      match r with
      | None => Ok (lo, served)
      | Some cio => loop_thread_drain fuel lo (served ++ [cio])
      end
  end.

(** [cio_make_request]: fill in the request and link it at the tail. *)
Definition cio_enqueue (lo : lanes) (cio : cio_req) : lanes :=
  lo <| lo_cio_list ::= λ l, l ++ [cio] |>.

Definition cio_init (cio : cio_req) (flag blk_num : Z) : cio_req :=
  cio <| cio_create := flag |> <| cio_error := 0 |> <| cio_blk_num := blk_num |>
      <| cio_allocated := 0%nat |>.

(** The caller sleeps until its request, the last of the list, has been served. *)
Definition wait_for_completion (lo : lanes) (cio : cio_req) : res (lanes * cio_req) :=
  '(lo, served) ← loop_thread_drain (S (length (lo_cio_list lo))) lo [];
  Ok (lo, default cio (last served)).

Definition cio_make_request (lo : lanes) (blk flag : Z) (cio : cio_req) : res (lanes * cio_req) :=
  let cio := (cio_init cio flag prefetch_blocks) <| cio_blk_local := blk |> in
  wait_for_completion (cio_enqueue lo cio) cio.

Definition cio_make_request_flush (lo : lanes) (flag : Z) (cio : cio_req)
    : res (lanes * cio_req) :=
  let cio := cio_init cio flag (-1) in
  wait_for_completion (cio_enqueue lo cio) cio.

Definition sync_file (lo : lanes) (create : Z) : lanes * Z :=
  if decide (Z.land create (Z.lor REQ_FUA REQ_FLUSH) ≠ 0) then
    let '(fs, ret) := vfs_fsync (lo_host lo) in
    let lo := lo <| lo_host := fs |> in
    (if decide (ret = 0) then lo <| lo_dirty_state ::= clear_bit LOOP_DIRTY |> else lo, ret)
  else (lo, 0).

End translate.

Arguments Lanes {C FS} _ _ _ _.
Arguments lo_cache {C FS} _.
Arguments lo_host {C FS} _.
Arguments lo_dirty_state {C FS} _.
Arguments lo_cio_list {C FS} _.
Arguments lanes _ _ : clear implicits.

(** [printk] comes back from the report of every error [get_block] gives: it does not store
    through [%n], or [get_block] does not fail. *)
Definition errors_reported {FS : Type} `{HostFS FS} `{Printk} : Prop :=
  ∀ (fs : FS) blk size create,
    let ret := gb_ret (get_block fs blk size create).2 in ret ≠ 0 → printk_n ret = true.

(** No call of [get_block] fails. *)
Definition get_block_never_fails {FS : Type} `{HostFS FS} : Prop :=
  ∀ (fs : FS) blk size create, gb_ret (get_block fs blk size create).2 = 0.

Lemma never_fails_reported {FS : Type} `{HostFS FS} `{Printk} :
  get_block_never_fails (FS := FS) → errors_reported (FS := FS).
Proof. intros Hnf fs blk size create ret Hr. destruct Hr. apply Hnf. Qed.

(** ** Lemmas *)
Section lemmas.
Context {C FS : Type} `{TranslationCacheOk C} `{HostFSOk FS} `{Printk}.
Variable prefetch_blocks : Z.
(** The requested run fits the [int] shift of the source. *)
Hypothesis prefetch_int : prefetch_blocks < 2 ^ 19.
Hypothesis reported : errors_reported (FS := FS).

Implicit Types (lo : lanes C FS) (cio : cio_req).

(** Every binding of the cache is a mapping of the image file. *)
Definition cache_sound (c : C) (fs : FS) : Prop :=
  tc_wf c ∧ ∀ k v, tc_bound c k v → block_of fs k = Some v.
Definition lanes_sound lo : Prop := cache_sound (lo_cache lo) (lo_host lo).

(** The file system only gained mappings. *)
Definition host_extends (fs fs' : FS) : Prop :=
  ∀ k v, block_of fs k = Some v → block_of fs' k = Some v.

Lemma host_extends_refl fs : host_extends fs fs.
Proof. by intros k v. Qed.

Lemma host_extends_trans fs1 fs2 fs3 :
  host_extends fs1 fs2 → host_extends fs2 fs3 → host_extends fs1 fs3.
Proof. intros H12 H23 k v Hk. by apply H23, H12. Qed.

Lemma cache_sound_extends c fs fs' :
  cache_sound c fs → host_extends fs fs' → cache_sound c fs'.
Proof. intros [Hwf Hs] Hx. split; [done|]. intros k v Hk. by apply Hx, Hs. Qed.

Lemma wanted_size_shift n : 0 < n < 2 ^ 19 → wanted_size n ≫ i_blkbits = n.
Proof.
  intros Hn. pose proof i_blkbits_range as Hb. unfold wanted_size.
  rewrite Z.shiftl_mul_pow2 by lia.
  assert (0 < 2 ^ i_blkbits ≤ 2 ^ 12) as Hp.
  { split; [apply Z.pow_pos_nonneg; lia|apply Z.pow_le_mono_r; lia]. }
  assert (0 < n * 2 ^ i_blkbits < 2 ^ 31) as Hlt.
  { split; [nia|]. apply Z.le_lt_trans with (n * 2 ^ 12); [nia|lia]. }
  rewrite wraps_small by lia. rewrite wrapu_small by lia.
  rewrite Z.shiftr_div_pow2 by lia. apply Z.div_mul. lia.
Qed.

(** The answer written into a request when its first block is mapped to [phys]. *)
Definition answer cio (phys : Z) : cio_req :=
  complete (cio <| cio_error := 0 |> <| cio_blk_phy := phys |>).

Lemma fill_loop_mapped (n : nat) blocknr i blk j c cio fs :
  blocknr ≠ 0 → cache_sound c fs → 0 ≤ j →
  (∀ j', 0 ≤ j' < j + Z.of_nat n → block_of fs (blk + j') = Some (blocknr + j')) →
  ∃ c', fill_loop n blocknr i blk j c cio =
      Ok (i, blk, j + Z.of_nat n, c',
          if decide (i = 0 ∧ j = 0 ∧ n ≠ 0%nat) then answer cio blocknr else cio) ∧
    cache_sound c' fs.
Proof.
  intros Hb. revert j c cio. induction n as [|n IH]; intros j c cio Hs Hj Hmap; simpl.
  - exists c. rewrite decide_False by naive_solver. by rewrite Z.add_0_r.
  - rewrite decide_True by done.
    destruct (tc_add_spec c (blocknr + j) (blk + j)) as (c1 & -> & Hwf & _ & Hold); [apply Hs|].
    simpl.
    assert (cache_sound c1 fs) as Hs1.
    { split; [done|]. intros k v [[-> ->]|Hk]%Hold; [apply Hmap; lia|by apply Hs]. }
    edestruct (IH (j + 1) c1) as (c' & -> & Hs'); [done|lia|intros; apply Hmap; lia|].
    exists c'. split; [|done]. rewrite decide_False by lia.
    replace (j + 1 + Z.of_nat n) with (j + Z.of_nat (S n)) by lia.
    repeat case_decide; naive_solver.
Qed.

(** One call of [get_block] in the prefetch loop, seen from the caller: either it fails, or
    it maps [got ≥ 1] blocks, or it finds a hole and one block is skipped. *)
Lemma prefetch_step fuel create i blk lo cio :
  0 ≤ i < prefetch_blocks → lanes_sound lo →
  ∃ fs bh, get_block (lo_host lo) blk (wanted_size (prefetch_blocks - i)) create = (fs, bh) ∧
    host_extends (lo_host lo) fs ∧
    if decide (gb_ret bh ≠ 0) then
      prefetch_loop prefetch_blocks (S fuel) None create i blk lo cio =
        Ok (lo <| lo_host := fs |>, complete (cio <| cio_error := gb_ret bh |>))
    else
      ∃ c' step, 1 ≤ step ∧ cache_sound c' fs ∧
        (gb_blocknr bh ≠ 0 → block_of fs blk = Some (gb_blocknr bh)) ∧
        (gb_blocknr bh = 0 → create = 0 ∧ block_of fs blk = None) ∧
        prefetch_loop prefetch_blocks (S fuel) None create i blk lo cio =
          prefetch_loop prefetch_blocks fuel None create (i + step) (blk + step)
            (lo <| lo_host := fs |>
                <| lo_dirty_state := if decide (create ≠ 0)
                     then set_bit LOOP_DIRTY (lo_dirty_state lo) else lo_dirty_state lo |>
                <| lo_cache := c' |>)
            (if decide (i = 0) then answer cio (gb_blocknr bh) else cio).
Proof.
  intros Hi Hs.
  destruct (get_block (lo_host lo) blk (wanted_size (prefetch_blocks - i)) create)
    as [fs bh] eqn:E.
  assert (host_extends (lo_host lo) fs) as Hx.
  { intros k v Hk. change fs with (fs, bh).1. rewrite <- E. by apply get_block_mono. }
  exists fs, bh. split; [done|]. split; [done|].
  cbn [prefetch_loop]. destruct (decide (i < prefetch_blocks)) as [_|?]; [|lia].
  rewrite E. case_decide as Hret.
  { assert (printk_n (gb_ret bh) = true) as ->; [|done].
    change bh with (fs, bh).2. rewrite <- E. apply reported. by rewrite E. }
  pose proof (cache_sound_extends _ _ _ Hs Hx) as Hs'.
  destruct (decide (gb_blocknr bh = 0)) as [Hz|Hnz].
  - destruct (get_block_hole _ _ _ _ _ _ E) as (Hc & Hsz & Hhole); [done..|].
    rewrite Hsz, wanted_size_shift by lia.
    destruct (Z.to_nat (prefetch_blocks - i)) as [|n] eqn:Hn; [lia|].
    cbn [fill_loop]. rewrite decide_False by tauto. cbn.
    exists (lo_cache lo), 1. split_and!; [lia|done|done|done|].
    rewrite Hc, decide_False by tauto. rewrite Hz, bind_Ok, !Z.add_0_r.
    destruct (decide (0 ≠ 0)) as [?|_]; [done|]. f_equal. repeat case_decide; naive_solver.
  - destruct (get_block_mapped _ _ _ _ _ _ E) as (Hgot & Hmap);
      [done..|rewrite wanted_size_shift; lia|].
    set (got := gb_size bh ≫ i_blkbits) in *.
    destruct (fill_loop_mapped (Z.to_nat got) (gb_blocknr bh) i blk 0 (lo_cache lo) cio fs)
      as (c' & Hfill & Hsc); [done|done|lia|intros; apply Hmap; lia|].
    exists c', got. split_and!; [lia|done| |done|].
    { intros _. specialize (Hmap 0). rewrite !Z.add_0_r in Hmap. apply Hmap. lia. }
    assert (∀ cio1 lo1,
      prefetch_loop prefetch_blocks fuel None create (i + (0 + got)) (blk + (0 + got)) lo1 cio1 =
      prefetch_loop prefetch_blocks fuel None create (i + got) (blk + got) lo1 cio1)
      as Hstep by done.
    rewrite Z2Nat.id in Hfill by lia.
    destruct (decide (create ≠ 0)) as [Hcr|Hcr]; cbn [lo_cache set]; simpl in Hfill |- *;
      rewrite Hfill, bind_Ok, Hstep; f_equal; repeat case_decide; naive_solver lia.
Qed.

(** What the prefetch loop guarantees on every path, whatever fails. *)
Record progress (create : Z) lo lo' : Prop := Progress {
  pr_sound : lanes_sound lo';
  pr_extends : host_extends (lo_host lo) (lo_host lo');
  pr_list : lo_cio_list lo' = lo_cio_list lo;
  pr_lookup : create = 0 → ∀ k, block_of (lo_host lo') k = block_of (lo_host lo) k;
  pr_dirty : test_bit LOOP_DIRTY (lo_dirty_state lo) = true →
    test_bit LOOP_DIRTY (lo_dirty_state lo') = true;
}.

Lemma progress_trans create lo1 lo2 lo3 :
  progress create lo1 lo2 → progress create lo2 lo3 → progress create lo1 lo3.
Proof.
  intros [] []. constructor; eauto using host_extends_trans; try congruence.
  intros Hc k. rewrite pr_lookup1 by done. auto.
Qed.

Lemma progress_refl create lo : lanes_sound lo → progress create lo lo.
Proof. constructor; auto using host_extends_refl. Qed.

Lemma test_set_bit (nr addr : Z) : 0 ≤ nr → test_bit nr (set_bit nr addr) = true.
Proof.
  intros. unfold test_bit, set_bit.
  rewrite Z.lor_spec, Z.shiftl_spec, Z.sub_diag by done. apply orb_true_r.
Qed.

(** The state [prefetch_step] continues from. *)
Lemma progress_step create blk size lo fs bh c' :
  lanes_sound lo → get_block (lo_host lo) blk size create = (fs, bh) →
  cache_sound c' fs →
  progress create lo
    (lo <| lo_host := fs |>
        <| lo_dirty_state := if decide (create ≠ 0)
             then set_bit LOOP_DIRTY (lo_dirty_state lo) else lo_dirty_state lo |>
        <| lo_cache := c' |>).
Proof.
  intros Hs E Hc. constructor; simpl; try done.
  - intros k v Hk. change fs with (fs, bh).1. rewrite <- E. by apply get_block_mono.
  - intros -> k. change fs with (fs, bh).1. rewrite <- E. apply get_block_lookup.
  - case_decide; [|done]. intros _. by apply test_set_bit.
Qed.

Lemma progress_fail create blk size lo fs bh :
  lanes_sound lo → get_block (lo_host lo) blk size create = (fs, bh) →
  progress create lo (lo <| lo_host := fs |>).
Proof.
  intros Hs E. assert (host_extends (lo_host lo) fs) as Hx.
  { intros k v Hk. change fs with (fs, bh).1. rewrite <- E. by apply get_block_mono. }
  constructor; simpl; try done.
  - by apply cache_sound_extends with (lo_host lo).
  - intros -> k. change fs with (fs, bh).1. rewrite <- E. apply get_block_lookup.
Qed.

(** The loop after the first block has been answered: it terminates within the fuel, and it
    touches the request again only if a later [get_block] fails. *)
Lemma prefetch_rest fuel create i blk lo cio :
  0 < i → lanes_sound lo → Z.max 0 (prefetch_blocks - i) < Z.of_nat fuel →
  ∃ lo' cio', prefetch_loop prefetch_blocks fuel None create i blk lo cio = Ok (lo', cio') ∧
    progress create lo lo' ∧
    (cio' = cio ∨ ∃ e, e ≠ 0 ∧ cio' = complete (cio <| cio_error := e |>)) ∧
    (get_block_never_fails (FS := FS) → cio' = cio).
Proof.
  revert i blk lo. induction fuel as [|fuel IH]; intros i blk lo Hi Hs Hf.
  - lia.
  - destruct (decide (i < prefetch_blocks)) as [Hlt|Hge].
    + destruct (prefetch_step fuel create i blk lo cio) as (fs & bh & E & Hx & Hstep);
        [lia|done|].
      case_decide as Hret.
      * eexists _, _. split; [exact Hstep|]. split; [by eapply progress_fail|].
        split; [by right; eexists|]. intros Hnf. destruct Hret.
        change bh with (fs, bh).2. rewrite <- E. apply Hnf.
      * destruct Hstep as (c' & step & Hst & Hc & _ & _ & ->).
        destruct (decide (i = 0)) as [?|_]; [lia|].
        edestruct (IH (i + step) (blk + step)) as (lo' & cio' & -> & Hpr & Hcio & Hnf);
          [lia|exact Hc|lia|].
        exists lo', cio'. split; [done|]. split; [|done].
        eapply progress_trans; [|exact Hpr]. by eapply progress_step.
    + eexists _, _. split; [simpl; by rewrite decide_False by done|].
      split; [by apply progress_refl|]. by split; [left|].
Qed.

(** A request for a block that is not cached. *)
Lemma prefetch_first create blk lo cio :
  1 ≤ prefetch_blocks → lanes_sound lo →
  ∃ fs bh lo' cio', get_block (lo_host lo) blk (wanted_size prefetch_blocks) create = (fs, bh) ∧
    prefetch_loop prefetch_blocks (prefetch_fuel prefetch_blocks) None create 0 blk lo cio =
      Ok (lo', cio') ∧
    progress create lo lo' ∧ (get_block_never_fails (FS := FS) → gb_ret bh = 0) ∧
    if decide (gb_ret bh ≠ 0) then cio' = complete (cio <| cio_error := gb_ret bh |>)
    else
      (cio' = answer cio (gb_blocknr bh) ∨
       ∃ e, e ≠ 0 ∧ cio' = complete ((answer cio (gb_blocknr bh)) <| cio_error := e |>)) ∧
      (get_block_never_fails (FS := FS) → cio' = answer cio (gb_blocknr bh)) ∧
      (create ≠ 0 → test_bit LOOP_DIRTY (lo_dirty_state lo') = true) ∧
      (gb_blocknr bh ≠ 0 → block_of (lo_host lo') blk = Some (gb_blocknr bh)) ∧
      (gb_blocknr bh = 0 → create = 0 ∧ block_of (lo_host lo') blk = None).
Proof.
  intros Hp Hs. unfold prefetch_fuel.
  destruct (prefetch_step (Z.to_nat prefetch_blocks) create 0 blk lo cio)
    as (fs & bh & E & Hx & Hstep); [lia|done|]. rewrite Z.sub_0_r in E.
  assert (get_block_never_fails (FS := FS) → gb_ret bh = 0) as Hnf0.
  { intros Hnf. change bh with (fs, bh).2. rewrite <- E. apply Hnf. }
  exists fs, bh. case_decide as Hret.
  - eexists _, _. split; [done|]. split; [exact Hstep|]. split; [by eapply progress_fail|done].
  - destruct Hstep as (c' & step & Hst & Hc & Hmap & Hhole & ->).
    destruct (decide (0 = 0)) as [_|?]; [|done].
    edestruct (prefetch_rest (Z.to_nat prefetch_blocks) create (0 + step) (blk + step))
      as (lo' & cio' & -> & Hpr & Hcio & Hnf); [lia|exact Hc|lia|].
    exists lo', cio'. split; [done|]. split; [done|].
    split; [eapply progress_trans; [by eapply progress_step|exact Hpr]|].
    split; [done|]. split; [done|]. split; [done|]. split; [|split].
    + intros Hcr. apply (pr_dirty _ _ _ Hpr). simpl. rewrite decide_True by done.
      by apply test_set_bit.
    + intros Hb. apply (pr_extends _ _ _ Hpr). simpl. auto.
    + intros Hb. destruct (Hhole Hb) as [Hcr Hn]. split; [done|].
      rewrite (pr_lookup _ _ _ Hpr) by done. done.
Qed.

End lemmas.


(** ** Serving requests *)
Section serve.
Context {C FS : Type} `{TranslationCacheOk C} `{HostFSOk FS} `{Printk}.
Variable prefetch_blocks : Z.
Hypothesis prefetch_range : 1 ≤ prefetch_blocks < 2 ^ 19.
Hypothesis reported : errors_reported (FS := FS).

Implicit Types (lo : lanes C FS) (cio : cio_req).

(** A request served: same request, completed at least once more; without error, the answer
    is the mapping of the block in the file, or 0 for an unallocated block that was not to
    be written. *)
Record served lo cio cio' : Prop := Served {
  sv_blk : cio_blk_local cio' = cio_blk_local cio;
  sv_create : cio_create cio' = cio_create cio;
  sv_num : cio_blk_num cio' = cio_blk_num cio;
  sv_done : (cio_allocated cio < cio_allocated cio')%nat;
  sv_answer : cio_blk_num cio ≠ -1 → cio_error cio' = 0 →
    if decide (cio_blk_phy cio' = 0)
    then Z.land (cio_create cio) REQ_WRITE = 0 ∧ block_of (lo_host lo) (cio_blk_local cio) = None
    else block_of (lo_host lo) (cio_blk_local cio) = Some (cio_blk_phy cio');
}.

Lemma translate_spec lo cio :
  lanes_sound lo → cio_blk_num cio ≠ -1 →
  ∃ lo' cio', handle_translate prefetch_blocks lo cio = Ok (lo', cio') ∧
    progress (Z.land (cio_create cio) REQ_WRITE) lo lo' ∧ served lo' cio cio' ∧
    (get_block_never_fails (FS := FS) →
      cio_error cio' = 0 ∧ cio_allocated cio' = S (cio_allocated cio)).
Proof.
  intros Hs Hnum. unfold handle_translate.
  destruct (tc_find_spec (lo_cache lo) (cio_blk_local cio)) as (r & -> & Hr); [apply Hs|].
  unfold lift. rewrite bind_Ok. destruct r as [v|].
  - unfold prefetch_fuel. cbn [prefetch_loop]. rewrite decide_True by lia.
    rewrite decide_True by done.
    eexists _, _. split; [done|]. split; [by apply progress_refl|]. split; [|done].
    constructor; simpl; try done; [lia|]. intros _ _. apply Hs in Hr.
    rewrite decide_False; [done|]. by apply block_of_pos in Hr; lia.
  - set (cr := Z.land (cio_create cio) REQ_WRITE).
    destruct (prefetch_first prefetch_blocks (proj2 prefetch_range) reported cr (cio_blk_local cio) lo cio)
      as (fs & bh & lo' & cio' & _ & -> & Hpr & Hnf0 & Hres); [lia|done|].
    exists lo', cio'. split; [done|]. split; [done|].
    case_decide as Hret.
    + subst cio'. split; [|by intros ?%Hnf0]. constructor; simpl; try done; lia.
    + destruct Hres as (Hcio & Hnf & _ & Hmap & Hhole). split.
      2:{ intros ->%Hnf. done. }
      destruct Hcio as [->|(e & He & ->)]; constructor; simpl; try done; try lia.
      intros _ _. case_decide; auto.
Qed.

Lemma handle_flush_host lo cio k :
  block_of (lo_host (handle_flush lo cio).1) k = block_of (lo_host lo) k.
Proof.
  unfold handle_flush. pose proof (vfs_fsync_map (lo_host lo) k) as Hk.
  destruct (vfs_fsync (lo_host lo)) as [fs ret]. case_decide; exact Hk.
Qed.

Lemma handle_cio_spec lo cio :
  lanes_sound lo →
  ∃ lo' cio', handle_cio prefetch_blocks lo cio = Ok (lo', cio') ∧ lanes_sound lo' ∧
    host_extends (lo_host lo) (lo_host lo') ∧ lo_cio_list lo' = lo_cio_list lo ∧
    served lo' cio cio'.
Proof.
  intros Hs. unfold handle_cio. case_decide as Hn.
  - destruct (handle_flush lo cio) as [lo' cio'] eqn:E. exists lo', cio'.
    assert (∀ k, block_of (lo_host lo') k = block_of (lo_host lo) k) as Hk.
    { intros k. rewrite <- (handle_flush_host lo cio), E. done. }
    unfold handle_flush in E. destruct (vfs_fsync (lo_host lo)) as [fs ret].
    split; [done|]. split_and!.
    + split; [case_decide; simplify_eq; apply Hs|]. intros k v Hb.
      rewrite Hk. apply Hs. by case_decide; simplify_eq.
    + intros k v. by rewrite Hk.
    + by case_decide; simplify_eq.
    + case_decide; simplify_eq; constructor; simpl; done || lia.
  - destruct (translate_spec lo cio) as (lo' & cio' & -> & [] & Hsv & _); [done..|]. eauto 10.
Qed.

Lemma served_extends lo lo' cio cio' :
  host_extends (lo_host lo) (lo_host lo') → served lo cio cio' →
  cio_blk_phy cio' ≠ 0 → served lo' cio cio'.
Proof.
  intros Hx [] Hnz. constructor; try done. intros Hn He.
  specialize (sv_answer0 Hn He). rewrite decide_False in * by done. auto.
Qed.

Lemma loop_thread_drain_S fuel lo out :
  loop_thread_drain prefetch_blocks (S fuel) lo out =
    ('(lo, r) ← loop_thread_iter prefetch_blocks lo;
     match r with
     | None => Ok (lo, out)
     | Some cio => loop_thread_drain prefetch_blocks fuel lo (out ++ [cio])
     end).
Proof. reflexivity. Qed.

(** The thread, told to stop, serves every queued request, first come first served. *)
Lemma drain_spec (q : list cio_req) lo (out : list cio_req) :
  lanes_sound lo → lo_cio_list lo = q →
  ∃ lo' out', loop_thread_drain prefetch_blocks (S (length q)) lo out = Ok (lo', out ++ out') ∧
    lanes_sound lo' ∧ lo_cio_list lo' = [] ∧ host_extends (lo_host lo) (lo_host lo') ∧
    Forall2 (λ cio cio', ∃ lo1, host_extends (lo_host lo1) (lo_host lo') ∧ served lo1 cio cio')
      q out' ∧
    (∀ cio' : cio_req, last out' = Some cio' → ∀ cio, last q = Some cio → served lo' cio cio').
Proof.
  revert lo out. induction q as [|cio q IH]; intros lo out Hs Hq;
    rewrite loop_thread_drain_S; unfold loop_thread_iter; rewrite Hq; cbn [length].
  - rewrite bind_Ok. exists lo, []. rewrite app_nil_r.
    split_and!; eauto using host_extends_refl; done.
  - destruct (handle_cio_spec (lo <| lo_cio_list := q |>) cio)
      as (lo1 & cio1 & -> & Hs1 & Hx1 & Hl1 & Hsv); [exact Hs|].
    rewrite !bind_Ok.
    destruct (IH lo1 (out ++ [cio1]) Hs1 Hl1) as (lo' & out' & Hdr & Hs' & Hl' & Hx & Hall & Hlast).
    rewrite Hdr. exists lo', (cio1 :: out'). rewrite <- app_assoc. simpl.
    split_and!; [done|done|done|by eapply host_extends_trans| |].
    + constructor; [|done]. eauto.
    + destruct q as [|cio2 q].
      * rewrite loop_thread_drain_S in Hdr. unfold loop_thread_iter in Hdr.
        cbn in Hl1. rewrite Hl1, bind_Ok in Hdr. inversion Hall; subst.
        assert (lo1 = lo') as -> by congruence. by intros ? [= <-] ? [= <-].
      * inversion Hall; subst. rewrite !last_cons_cons. done.
Qed.

Lemma make_request_spec lo blk flag cio :
  lanes_sound lo →
  ∃ lo' cio', cio_make_request prefetch_blocks lo blk flag cio = Ok (lo', cio') ∧
    lanes_sound lo' ∧ host_extends (lo_host lo) (lo_host lo') ∧ lo_cio_list lo' = [] ∧
    cio_blk_local cio' = blk ∧ (0 < cio_allocated cio')%nat ∧
    (cio_error cio' = 0 →
      if decide (cio_blk_phy cio' = 0)
      then Z.land flag REQ_WRITE = 0 ∧ block_of (lo_host lo') blk = None
      else block_of (lo_host lo') blk = Some (cio_blk_phy cio')).
Proof.
  intros Hs. unfold cio_make_request, wait_for_completion.
  set (cio0 := (cio_init cio flag prefetch_blocks) <| cio_blk_local := blk |>).
  destruct (drain_spec (lo_cio_list lo ++ [cio0]) (cio_enqueue lo cio0) [])
    as (lo' & out & Hdr & Hs' & Hl & Hx & Hall & Hlast); [exact Hs|done|].
  change (lo_cio_list (cio_enqueue lo cio0)) with (lo_cio_list lo ++ [cio0]).
  rewrite Hdr, bind_Ok. simpl.
  apply Forall2_app_inv_l in Hall as (out1 & out2 & _ & Hall2 & ->).
  apply Forall2_cons_inv_l in Hall2 as (cio' & ? & _ & ->%Forall2_nil_inv_l & ->).
  specialize (Hlast cio' ltac:(by rewrite last_snoc) cio0 ltac:(by rewrite last_snoc)).
  rewrite last_snoc. destruct Hlast as [Hb _ _ Hd Ha].
  eexists _, _. split; [done|]. split_and!; try done; simpl in Hd; try lia.
  intros He. apply Ha; [simpl; lia|done].
Qed.

End serve.

(** ** Properties *)
Section properties.
Context {C FS : Type} `{TranslationCacheOk C} `{HostFSOk FS} `{Printk}.
Implicit Types (lo : lanes C FS) (cio : cio_req).

(** C9: the translation thread serves a request.  With [prefetch_blocks] between 1 and
    [2 ^ 19 - 1], and with every error of [get_block] reported by a [printk] that comes back
    (it is handed an [int] for [%n]), a device whose cached bindings are mappings of the
    image file ends as such a device, it has allocated but never moved blocks, the request is
    completed, and an answer without error is the mapping of the requested block, or 0 for a
    read of a block that is not allocated. *)
Theorem handle_translate_correct (prefetch_blocks : Z) lo cio :
  1 ≤ prefetch_blocks < 2 ^ 19 → errors_reported (FS := FS) → lanes_sound lo → cio_blk_num cio ≠ -1 →
  ∃ lo' cio', handle_translate prefetch_blocks lo cio = Ok (lo', cio') ∧
    lanes_sound lo' ∧ host_extends (lo_host lo) (lo_host lo') ∧ served lo' cio cio'.
Proof.
  intros Hp Hrep Hs Hn.
  destruct (translate_spec prefetch_blocks Hp Hrep lo cio Hs Hn)
    as (lo' & cio' & -> & [] & Hsv & _).
  eauto 10.
Qed.

(** C34: if [get_block] does not fail (and [prefetch_blocks] is between 1 and [2 ^ 19 - 1]),
    the request is completed exactly once and without error. *)
Theorem handle_translate_completes_once (prefetch_blocks : Z) lo cio :
  1 ≤ prefetch_blocks < 2 ^ 19 → lanes_sound lo → cio_blk_num cio ≠ -1 →
  get_block_never_fails (FS := FS) →
  ∃ lo' cio', handle_translate prefetch_blocks lo cio = Ok (lo', cio') ∧
    cio_error cio' = 0 ∧ cio_allocated cio' = S (cio_allocated cio).
Proof.
  intros Hp Hs Hn Hnf.
  destruct (translate_spec prefetch_blocks Hp (never_fails_reported Hnf) lo cio Hs Hn)
    as (lo' & cio' & -> & _ & _ & Hx).
  eauto.
Qed.

(** If the first call of [get_block] maps fewer blocks than wanted and the second one
    fails (and [printk] survives the report), the thread completes the request a second time
    and overwrites its error field,
    although the requester, already woken, may have returned: the [cio_req] is a local
    variable of [redirect_bio]. *)
Theorem late_error_completes_twice (prefetch_blocks : Z) lo cio fs1 bh1 fs2 bh2 :
  1 ≤ prefetch_blocks < 2 ^ 19 → lanes_sound lo →
  (∀ v, ¬ tc_bound (lo_cache lo) (cio_blk_local cio) v) →
  let create := Z.land (cio_create cio) REQ_WRITE in
  let got := gb_size bh1 ≫ i_blkbits in
  get_block (lo_host lo) (cio_blk_local cio) (wanted_size prefetch_blocks) create = (fs1, bh1) →
  gb_ret bh1 = 0 → gb_blocknr bh1 ≠ 0 → got < prefetch_blocks →
  get_block fs1 (cio_blk_local cio + got) (wanted_size (prefetch_blocks - got)) create
    = (fs2, bh2) →
  gb_ret bh2 ≠ 0 → printk_n (gb_ret bh2) = true →
  ∃ lo' cio', handle_translate prefetch_blocks lo cio = Ok (lo', cio') ∧
    cio_allocated cio' = S (S (cio_allocated cio)) ∧ cio_error cio' = gb_ret bh2.
Proof.
  intros Hp Hs Hunb create got E1 Hr1 Hb1 Hgot E2 Hr2 Hpk. unfold handle_translate.
  subst create. set (create := Z.land (cio_create cio) REQ_WRITE) in *.
  destruct (tc_find_spec (lo_cache lo) (cio_blk_local cio)) as ([v|] & -> & Hr); [apply Hs| |].
  { by destruct (Hunb v). }
  unfold lift. rewrite bind_Ok. unfold prefetch_fuel.
  destruct (Z.to_nat prefetch_blocks) as [|fuel] eqn:Hfuel; [lia|].
  destruct (get_block_mapped _ _ _ _ _ _ E1) as (Hg & Hmap); [done..| |].
  { rewrite wanted_size_shift; lia. }
  cbn [prefetch_loop]. fold create. rewrite !Z.sub_0_r, E1. fold got.
  destruct (decide (0 < prefetch_blocks)) as [_|?]; [|lia].
  destruct (decide (gb_ret bh1 ≠ 0)) as [?|_]; [done|].
  destruct (fill_loop_mapped (Z.to_nat got) (gb_blocknr bh1) 0 (cio_blk_local cio) 0
    (lo_cache lo) cio fs1) as (c' & Hfill & _); [done| |lia|intros; apply Hmap; lia|].
  { apply cache_sound_extends with (lo_host lo); [exact Hs|]. intros k v Hk.
    change fs1 with (fs1, bh1).1. rewrite <- E1. by apply get_block_mono. }
  rewrite Z2Nat.id, Z.add_0_l in Hfill by lia.
  destruct (decide (0 = 0 ∧ 0 = 0 ∧ Z.to_nat got ≠ 0%nat)) as [_|Hx]; [|destruct Hx; lia].
  destruct (decide (create ≠ 0)); cbn [lo_cache set];
    simpl in Hfill |- *; rewrite Hfill, bind_Ok, Z.add_0_l, decide_True by lia;
    simpl; rewrite E2, decide_True, Hpk by done; eexists _, _; split; done.
Qed.

(** When [get_block] fails for a block that is not cached and [printk] stores through the
    error number it is given for [%n], the thread faults before it completes the request: the
    requester, which sleeps on the completion, is never told of the error. *)
Theorem translation_error_faults (prefetch_blocks : Z) lo cio :
  1 ≤ prefetch_blocks → lanes_sound lo →
  (∀ v, ¬ tc_bound (lo_cache lo) (cio_blk_local cio) v) →
  let ret := gb_ret (get_block (lo_host lo) (cio_blk_local cio) (wanted_size prefetch_blocks)
                       (Z.land (cio_create cio) REQ_WRITE)).2 in
  ret ≠ 0 → printk_n ret = false →
  handle_translate prefetch_blocks lo cio = Oops.
Proof.
  intros Hp Hs Hunb ret Hr Hpk. unfold handle_translate.
  destruct (tc_find_spec (lo_cache lo) (cio_blk_local cio)) as ([v|] & -> & Hv); [apply Hs| |].
  { by destruct (Hunb v). }
  unfold lift. rewrite bind_Ok. unfold prefetch_fuel. cbn [prefetch_loop].
  rewrite decide_True by lia. rewrite Z.sub_0_r. subst ret.
  destruct (get_block _ _ _ _) as [fs bh]. simpl in *. by rewrite decide_True, Hpk by done.
Qed.

(** With [prefetch_blocks] 0 or less (a module parameter below 4) a request for a block
    that is not cached is never completed: its requester sleeps forever. *)
Theorem no_prefetch_never_completes (prefetch_blocks : Z) lo cio :
  prefetch_blocks ≤ 0 → lanes_sound lo →
  (∀ v, ¬ tc_bound (lo_cache lo) (cio_blk_local cio) v) →
  handle_translate prefetch_blocks lo cio = Ok (lo, cio).
Proof.
  intros Hp Hs Hunb. unfold handle_translate.
  destruct (tc_find_spec (lo_cache lo) (cio_blk_local cio)) as ([v|] & -> & Hr); [apply Hs| |].
  { by destruct (Hunb v). }
  unfold lift. rewrite bind_Ok. unfold prefetch_fuel. cbn [prefetch_loop].
  by rewrite decide_False by lia.
Qed.

(** C12: a device that has stopped accepting requests drains, with [prefetch_blocks] between
    1 and [2 ^ 19 - 1] and with every error of [get_block] reported by a [printk] that comes
    back: the thread's loop ends after one iteration per queued request, in the order of the
    queue, every request served (and answered correctly at the time it was served), the queue
    empty and the cache sound. *)
Theorem loop_thread_drains (prefetch_blocks : Z) lo :
  1 ≤ prefetch_blocks < 2 ^ 19 → errors_reported (FS := FS) → lanes_sound lo →
  ∃ lo' out,
    loop_thread_drain prefetch_blocks (S (length (lo_cio_list lo))) lo [] = Ok (lo', out) ∧
    lo_cio_list lo' = [] ∧ lanes_sound lo' ∧
    Forall2 (λ cio cio', ∃ lo1, host_extends (lo_host lo1) (lo_host lo') ∧ served lo1 cio cio')
      (lo_cio_list lo) out.
Proof.
  intros Hp Hrep Hs.
  destruct (drain_spec prefetch_blocks Hp Hrep (lo_cio_list lo) lo [] Hs eq_refl)
    as (lo' & out & -> & ? & ? & _ & ? & _). exists lo', out. by split_and!.
Qed.

(** C8: [cio_make_request], with any requests already queued, with [prefetch_blocks] between
    1 and [2 ^ 19 - 1] and with every error of [get_block] reported by a [printk] that comes
    back, returns with its own request answered: the mapping of [blk], or 0 for a read of an
    unallocated block, or an error. *)
Theorem cio_make_request_correct (prefetch_blocks : Z) lo blk flag cio :
  1 ≤ prefetch_blocks < 2 ^ 19 → errors_reported (FS := FS) → lanes_sound lo →
  ∃ lo' cio', cio_make_request prefetch_blocks lo blk flag cio = Ok (lo', cio') ∧
    lanes_sound lo' ∧ host_extends (lo_host lo) (lo_host lo') ∧ lo_cio_list lo' = [] ∧
    cio_blk_local cio' = blk ∧ (0 < cio_allocated cio')%nat ∧
    (cio_error cio' = 0 →
      if decide (cio_blk_phy cio' = 0)
      then Z.land flag REQ_WRITE = 0 ∧ block_of (lo_host lo') blk = None
      else block_of (lo_host lo') blk = Some (cio_blk_phy cio')).
Proof. intros Hp Hrep Hs. by apply make_request_spec. Qed.

(** A flush request clears [LOOP_DIRTY] when and only when [vfs_fsync] succeeds, hands
    its error to the requester and completes the request once; block mappings and the cache
    are untouched. *)
Theorem handle_flush_correct lo cio :
  let '(lo', cio') := handle_flush lo cio in
  let ret := (vfs_fsync (lo_host lo)).2 in
  cio_error cio' = ret ∧ cio_allocated cio' = S (cio_allocated cio) ∧
  lo_cache lo' = lo_cache lo ∧ (∀ k, block_of (lo_host lo') k = block_of (lo_host lo) k) ∧
  test_bit LOOP_DIRTY (lo_dirty_state lo') =
    (if decide (ret = 0) then false else test_bit LOOP_DIRTY (lo_dirty_state lo)).
Proof.
  pose proof (handle_flush_host lo cio) as Hk. unfold handle_flush in *.
  destruct (vfs_fsync (lo_host lo)) as [fs ret]; simpl in *.
  case_decide; split_and!; try done.
  simpl. unfold test_bit, clear_bit. rewrite Z.ldiff_spec. apply andb_false_r.
Qed.

End properties.

(** ** Witnesses *)

Definition empty_cache : cache := Cache ∅ ∅ (Some []) 0.

Lemma empty_cache_wf : cache_wf LRU_LENGTH empty_cache.
Proof.
  exists []. constructor; try done; [constructor|by intros ? ?%not_elem_of_nil].
Qed.

(** A new device over an image file whose block 3 lies in host block 40; block 7 is a hole. *)
Definition ex_fs : toy_fs := ToyFs {[ 3 := 40%positive ]} 50.
Definition ex_lanes : lanes cache toy_fs := Lanes empty_cache ex_fs 0 [].
Definition ex_cio (flag blk : Z) : cio_req := CioReq flag blk 0 128 0 0.

(** Two kernels: one that ignores [%n], one whose [%n] stores, to an address that is not
    mapped. *)
#[global] Instance quiet_printk : Printk := λ _, true.
Definition storing_printk : Printk := λ _, false.

Lemma quiet_reports {FS : Type} `{HostFS FS} : errors_reported (FS := FS).
Proof. by intros ?????. Qed.

Lemma ex_lanes_sound : lanes_sound ex_lanes.
Proof. split; [apply empty_cache_wf|done]. Qed.

Lemma handle_translate_correct_witness :
  ∃ lo' cio', handle_translate 2 ex_lanes (ex_cio 0 3) = Ok (lo', cio') ∧ cio_blk_phy cio' = 40 ∧
    lanes_sound lo'.
Proof.
  destruct (handle_translate_correct 2 ex_lanes (ex_cio 0 3)) as (lo' & cio' & E & Hs & _);
    [lia|exact quiet_reports|apply ex_lanes_sound|done|].
  exists lo', cio'. split; [exact E|]. split; [|exact Hs].
  revert E. vm_compute. by intros [= <- <-].
Defined.

Lemma handle_translate_completes_once_witness :
  ∃ lo' cio', handle_translate 2 ex_lanes (ex_cio 1 7) = Ok (lo', cio') ∧
    cio_error cio' = 0 ∧ cio_allocated cio' = 1%nat.
Proof.
  apply (handle_translate_completes_once 2 ex_lanes (ex_cio 1 7));
    [lia|apply ex_lanes_sound|done|exact toy_never_fails].
Defined.

(** Block 99 is mapped, block 100 is on the bad spot. *)
Definition bad_lanes : lanes cache bad_fs :=
  Lanes empty_cache (BadFs (ToyFs {[ 99 := 40%positive ]} 50)) 0 [].

Lemma late_error_completes_twice_witness :
  ∃ lo' cio', handle_translate 2 bad_lanes (ex_cio 0 99) = Ok (lo', cio') ∧
    cio_allocated cio' = 2%nat ∧ cio_error cio' = - EIO.
Proof.
  refine (late_error_completes_twice 2 bad_lanes (ex_cio 0 99) (lo_host bad_lanes)
    (GbResult 0 40 4096) (lo_host bad_lanes) (GbResult (- EIO) 0 4096) _ _ _ _ _ _ _ _ _ _);
    try reflexivity; try done; try lia.
  split; [apply empty_cache_wf|done].
Defined.

Lemma translation_error_faults_witness :
  handle_translate (H1 := storing_printk) 2 bad_lanes (ex_cio 0 100) = Oops.
Proof.
  refine (translation_error_faults (H3 := storing_printk) 2 bad_lanes (ex_cio 0 100) _ _ _ _ _);
    try done. split; [apply empty_cache_wf|done].
Defined.

Lemma no_prefetch_never_completes_witness :
  handle_translate 0 ex_lanes (ex_cio 0 3) = Ok (ex_lanes, ex_cio 0 3).
Proof.
  apply (no_prefetch_never_completes 0 ex_lanes (ex_cio 0 3)); [lia|apply ex_lanes_sound|done].
Defined.

Definition ex_queue : lanes cache toy_fs :=
  ex_lanes <| lo_cio_list := [ex_cio 0 3; ex_cio 1 7] |>.

Lemma loop_thread_drains_witness :
  ∃ lo' out, loop_thread_drain 2 3 ex_queue [] = Ok (lo', out) ∧ lo_cio_list lo' = [] ∧
    cio_blk_phy <$> out = [40; 50].
Proof.
  destruct (loop_thread_drains 2 ex_queue) as (lo' & out & E & Hl & _);
    [lia|exact quiet_reports|apply ex_lanes_sound|].
  exists lo', out. split; [exact E|]. split; [exact Hl|].
  revert E. vm_compute. by intros [= <- <-].
Defined.

Lemma cio_make_request_correct_witness :
  ∃ lo' cio', cio_make_request 2 ex_queue 7 0 (ex_cio 0 0) = Ok (lo', cio') ∧
    cio_blk_phy cio' = 50.
Proof.
  destruct (cio_make_request_correct 2 ex_queue 7 0 (ex_cio 0 0)) as (lo' & cio' & E & _);
    [lia|exact quiet_reports|apply ex_lanes_sound|].
  exists lo', cio'. split; [exact E|]. revert E. vm_compute. by intros [= <- <-].
Defined.

Lemma handle_flush_correct_witness :
  let '(lo', cio') := handle_flush bad_lanes (ex_cio REQ_FLUSH 0) in cio_error cio' = - EIO.
Proof. exact (proj1 (handle_flush_correct bad_lanes (ex_cio REQ_FLUSH 0))). Defined.
