(* ===== verification/Redirect.v ===== *)
(** * Redirection of a bio to the host device

    Models, from drivers/block/loop.c, [lo_new_bio], [lo_send_bio], [loop_handle_bio],
    [redirect_bio] (one definition per phase and per loop) and [loop_make_request].  A bio of
    the virtualized device is cut at the block boundaries of the image file, every block is
    translated through the cache or the translation thread, and physically contiguous pieces
    are gathered in new bios for the host device, which are submitted once all of them exist.

    What the rest of the kernel sees is a trace of events: submissions, completions of the
    original bio, releases.  Allocations are answered by two oracles, [kmalloc_ok] and
    [bio_alloc_ok], indexed by the number of allocations made before. *)
From S2P Require Import Prelude Interfaces Bio BlockCache HostExt3 Translate.

Inductive end_io := LoEndBio | SyncEndBio.

Inductive event :=
  | EvSwitch                                   (** [do_loop_switch (lo, bio->bi_private)] *)
  | EvPut                                      (** [bio_put (old_bio)] *)
  | EvSubmit (rw : Z) (e : end_io) (b : bio)   (** [submit_bio (rw, b)] *)
  | EvEndio (error : Z).                       (** [bio_endio (old_bio, error)] *)

Record lo_bio := LoBio { lb_bio : bio; lb_size : Z }.

Record lo_bio_head := LoBioHead {
  nr_total : Z;
  nr_done : Z;
  head_error : Z;
  head_list : list lo_bio;
}.

(** The page fragment not yet added: [i], [page], [cur_page_offset], [cur_page_len]. *)
Record cursor := Cursor { c_i : nat; c_page : Z; c_offset : Z; c_len : Z }.

(** A block of code ends by falling through or by a [return], whose value is [None] for the
    [return;] statements of this [int] function. *)
Inductive exit (A : Type) := Return (v : option Z) | Next (a : A).
Arguments Return {A} v.
Arguments Next {A} a.

Section redirect.
Context {C FS : Type} `{TranslationCache C} `{HostFS FS} `{Printk} `{HostQueue}.
Variable prefetch_blocks : Z.
(** [inode->i_sb->s_bdev] *)
Variable host_bdev : Z.
(** The bytes found in a [struct cio_req] on the stack. *)
Variable uninit : cio_req.
Variables kmalloc_ok bio_alloc_ok : nat → bool.

Record rstate := RState {
  rs_lanes : lanes C FS;
  rs_kmallocs : nat;
  rs_bios : nat;
  rs_trace : list event;
}.

Definition emit (e : event) (st : rstate) : rstate := st <| rs_trace ::= λ t, t ++ [e] |>.

Definition kmalloc (st : rstate) : res rstate :=
  if kmalloc_ok (rs_kmallocs st) then Ok (st <| rs_kmallocs ::= S |>) else Oops.

Definition lo_new_bio (start nr_segs rw : Z) (st : rstate) : rstate * option bio :=
  let nr_pages := Z.min nr_segs BIO_MAX_PAGES in
  let r := bio_alloc (bio_alloc_ok (rs_bios st)) nr_pages in
  (st <| rs_bios ::= S |>,
   (λ b, b <| bi_sector := start |> <| bi_bdev := Some host_bdev |> <| bi_rw := rw |>) <$> r).

(** The result of [kmalloc] is used without a test. *)
Definition lo_send_bio (hd : lo_bio_head) (b : bio) (st : rstate) : res (rstate * lo_bio_head) :=
  st ← kmalloc st;
  Ok (st, hd <| head_list ::= λ l, l ++ [LoBio b (bi_size b)] |> <| nr_total ::= Z.succ |>).

Definition loop_handle_bio (old : bio) (st : rstate) : rstate :=
  match bi_bdev old with
  | None => emit EvPut (emit EvSwitch st)
  | Some _ => st
  end.

(** The [REQ_FLUSH] and [REQ_FUA] requests: nothing to do on a clean device. *)
Definition flush_if_dirty (rw : Z) (st : rstate) : res (rstate * Z) :=
  if test_bit LOOP_DIRTY (lo_dirty_state (rs_lanes st)) then
    '(lo, cio) ← cio_make_request_flush prefetch_blocks (rs_lanes st) rw uninit;
    Ok (st <| rs_lanes := lo |>, cio_error cio)
  else Ok (st, 0).

(** A flush or FUA request without data: an empty bio with the same flags. *)
Definition redirect_empty (old : bio) (st : rstate) : res (rstate * option Z) :=
  '(st, error) ← flush_if_dirty (bi_rw old) st;
  if decide (error ≠ 0) then Ok (emit (EvEndio (- EIO)) st, None)
  else
    let r := bio_alloc (bio_alloc_ok (rs_bios st)) 0 in
    let st := st <| rs_bios ::= S |> in
    match r with
    | None => Oops
    | Some b =>
        let b := b <| bi_sector := 0 |> <| bi_bdev := Some host_bdev |> <| bi_rw := bi_rw old |> in
        Ok (emit (EvSubmit (bi_rw old) SyncEndBio b) st, Some 0)
    end.

Definition redirect_preflush (old : bio) (st : rstate) : res (rstate * exit ()) :=
  if decide (Z.land (bi_rw old) REQ_FLUSH ≠ 0) then
    '(st, error) ← flush_if_dirty (bi_rw old) st;
    if decide (error ≠ 0) then Ok (emit (EvEndio (- EIO)) st, Return (Some error))
    else Ok (st, Next ())
  else Ok (st, Next ()).

(** [while (remaining_sectors > 0)]: add the page fragments of one block. *)
Fixpoint fill_block (fuel : nat) (old : bio) (sec_nr_phys remaining : Z) (cur : cursor)
    (nb : bio) (hd : lo_bio_head) (st : rstate)
    : res (rstate * exit (cursor * bio * lo_bio_head)) :=
  match fuel with
  | O => NoFuel
  | S fuel =>
      if decide (0 < remaining) then
        cur ← (if decide (c_len cur = 0) then
                 match bi_io_vec old !! c_i cur with
                 | None => Oops
                 | Some v => Ok (Cursor (S (c_i cur)) (bv_page v) (bv_offset v) (bv_len v))
                 end
               else Ok cur);
        let to_written := if decide (c_len cur ≫ 9 < remaining) then c_len cur ≫ 9 else remaining in
        let bytes := to_written ≪ 9 in
        let advance := cur <| c_offset ::= Z.add bytes |> <| c_len ::= λ n, n - bytes |> in
        let '(nb, ret) := bio_add_page nb (c_page cur) bytes (c_offset cur) in
        if decide (ret ≠ bytes) then
          '(st, hd) ← lo_send_bio hd nb st;
          let '(st, nb) := lo_new_bio sec_nr_phys (bi_vcnt old) (bi_rw old) st in
          match nb with
          | None => Ok (emit (EvEndio (- ENOMEM)) st, Return (Some (- ENOMEM)))
          | Some nb =>
              let '(nb, ret) := bio_add_page nb (c_page cur) bytes (c_offset cur) in
              if decide (ret = bytes)
              then fill_block fuel old sec_nr_phys (remaining - to_written) advance nb hd st
              else Oops   (* LO_ASSERT *)
          end
        else fill_block fuel old sec_nr_phys (remaining - to_written) advance nb hd st
      else Ok (st, Next (cur, nb, hd))
  end.

(** [block_cache_lookup], then the translation thread if the cache has no answer. *)
Definition translate_block (old : bio) (blk : Z) (st : rstate) : res (rstate * exit Z) :=
  r ← lift (tc_find (lo_cache (rs_lanes st)) blk);
  let blk_phys := default 0 r in
  if decide (blk_phys = 0) then
    '(lo, cio) ← cio_make_request prefetch_blocks (rs_lanes st) blk (bi_rw old) uninit;
    let st := st <| rs_lanes := lo |> in
    if decide (cio_error cio ≠ 0) then Ok (emit (EvEndio (- EIO)) st, Return None)
    else Ok (st, Next (cio_blk_phy cio))
  else Ok (st, Next blk_phys).

Definition sectors_per_block : Z := 1 ≪ (i_blkbits - 9).

(** Close the current bio if the next sector is not contiguous, and open one if none is. *)
Definition next_bio (old : bio) (count : Z) (sec_nr_phys next_sector : Z) (nb : option bio)
    (hd : lo_bio_head) (st : rstate) : res (rstate * exit (bio * lo_bio_head)) :=
  '(st, nb, hd) ←
    (if decide (count ≠ 0 ∧ sec_nr_phys ≠ next_sector) then
       match nb with
       | None => Oops
       | Some b => '(st, hd) ← lo_send_bio hd b st; Ok (st, None, hd)
       end
     else Ok (st, nb, hd));
  match nb with
  | Some b => Ok (st, Next (b, hd))
  | None =>
      let '(st, nb) := lo_new_bio sec_nr_phys (bi_vcnt old) (bi_rw old) st in
      match nb with
      | None => Ok (emit (EvEndio (- ENOMEM)) st, Return (Some (- ENOMEM)))
      | Some b => Ok (st, Next (b, hd))
      end
  end.

(** [while (nr_total_sectors > 0)]: one block per iteration. *)
Fixpoint redirect_loop (fuel : nat) (old : bio) (total logical next_sector count : Z)
    (cur : cursor) (nb : option bio) (hd : lo_bio_head) (st : rstate)
    : res (rstate * exit (Z * option bio * lo_bio_head)) :=
  match fuel with
  | O => NoFuel
  | S fuel =>
      if decide (0 < total) then
        '(st, t) ← translate_block old (logical ≫ (i_blkbits - 9)) st;
        match t with
        | Return v => Ok (st, Return v)
        | Next blk_phys =>
            let sec_nr_phys := (blk_phys ≪ (i_blkbits - 9)) + logical mod sectors_per_block in
            let remaining := sectors_per_block - logical mod sectors_per_block in
            '(st, r) ← next_bio old count sec_nr_phys next_sector nb hd st;
            match r with
            | Return v => Ok (st, Return v)
            | Next (b, hd) =>
                let count := count + 1 in
                let '(total, remaining) :=
                  if decide (remaining < total) then (total - remaining, remaining) else (0, total) in
                let next_sector := sec_nr_phys + remaining in
                let logical := logical + remaining in
                '(st, f) ← fill_block (S (Z.to_nat remaining + length (bi_io_vec old))) old
                             sec_nr_phys remaining cur b hd st;
                match f with
                | Return v => Ok (st, Return v)
                | Next (cur, b, hd) =>
                    redirect_loop fuel old total logical next_sector count cur (Some b) hd st
                end
            end
        end
      else Ok (st, Next (count, nb, hd))
  end.

(** The bios are submitted in list order, once the list is complete. *)
Definition submit_all (old : bio) (hd : lo_bio_head) (st : rstate) : rstate :=
  st <| rs_trace ::= λ t, t ++ ((λ l, EvSubmit (bi_rw old) LoEndBio (lb_bio l)) <$> head_list hd) |>.

Definition redirect_fua (old : bio) (st : rstate) : res (rstate * option Z) :=
  if decide (Z.land (bi_rw old) REQ_FUA ≠ 0) then
    '(st, error) ← flush_if_dirty (bi_rw old) st;
    if decide (error ≠ 0) then Ok (emit (EvEndio error) st, Some error) else Ok (st, Some 0)
  else Ok (st, Some 0).

Definition redirect_submit (old : bio) (count : Z) (nb : option bio) (hd : lo_bio_head)
    (st : rstate) : res rstate :=
  if decide (count ≠ 0) then
    match nb with
    | None => Oops
    | Some b => '(st, hd) ← lo_send_bio hd b st; Ok (submit_all old hd st)
    end
  else Ok (emit (EvEndio 0) st).

Definition total_sectors (old : bio) : Z := sumZ (λ v, bv_len v ≫ 9) (bio_segments old).

Definition redirect_bio (old : bio) (st : rstate) : res (rstate * option Z) :=
  let st := loop_handle_bio old st in
  st ← kmalloc st;
  let hd := LoBioHead 0 0 0 [] in
  let total := total_sectors old in
  if decide (total = 0 ∧ Z.land (bi_rw old) (Z.lor REQ_FLUSH REQ_FUA) ≠ 0) then
    redirect_empty old st
  else
    '(st, p) ← redirect_preflush old st;
    match p with
    | Return v => Ok (st, v)
    | Next () =>
        '(st, r) ← redirect_loop (S (Z.to_nat total)) old total (bi_sector old) 0 0
                     (Cursor (bi_idx old) 0 0 0) None hd st;
        match r with
        | Return v => Ok (st, v)
        | Next (count, nb, hd) =>
            st ← redirect_submit old count nb hd st;
            redirect_fua old st
        end
    end.

(** [current->bio_list] is saved, cleared during the call, and restored; a bio that is
    neither a read nor a write trips [BUG_ON]. *)
Definition loop_make_request (old : bio) (st : rstate) : res rstate :=
  let rw := bio_rw old in
  let rw := if decide (rw = READA) then READ else rw in
  if decide (rw ≠ READ ∧ rw ≠ WRITE) then Oops
  else '(st, _) ← redirect_bio old st; Ok st.

End redirect.

Arguments RState {C FS} _ _ _ _.
Arguments rs_lanes {C FS} _.
Arguments rs_kmallocs {C FS} _.
Arguments rs_bios {C FS} _.
Arguments rs_trace {C FS} _.
Arguments rstate _ _ : clear implicits.

(** ** Lemmas *)

(** The bio is within the limits of the host device, in whole sectors. *)
Record fits `{HostQueue} (old : bio) : Prop := Fits {
  fits_aligned : Forall vec_aligned (bio_segments old);
  fits_vcnt : bi_vcnt old ≤ BIO_MAX_PAGES;
  fits_segments : bi_vcnt old ≤ queue_max_segments;
  fits_sectors : total_sectors old ≤ queue_max_sectors;
  fits_merge : merge_bvec_fn = None;
}.

(** The data still to be added. *)
Definition cursor_data (old : bio) (cur : cursor) : list (Z * Z) :=
  vec_data (BioVec (c_page cur) (c_len cur) (c_offset cur)) ++
  vecs_data (drop (c_i cur) (bi_io_vec old)).

Record cursor_wf (old : bio) (cur : cursor) : Prop := CursorWf {
  cw_len : 0 ≤ c_len cur;
  cw_sector : c_len cur mod 512 = 0;
  cw_rest : Forall vec_aligned (drop (c_i cur) (bi_io_vec old));
  cw_index : c_len cur = 0 ∨ (0 < c_i cur ≤ length (bi_io_vec old))%nat;
}.

(** A new bio under construction: it has room for one segment per segment of the original
    bio, and its last segment is continued by a half-consumed fragment. *)
Record building (host_bdev : Z) (old nb : bio) (cur : cursor) : Prop := Building {
  bu_cloned : bi_cloned nb = false;
  bu_idx : bi_idx nb = 0%nat;
  bu_bdev : bi_bdev nb = Some host_bdev;
  bu_rw : bi_rw nb = bi_rw old;
  bu_max : bi_max_vecs nb = bi_vcnt old;
  bu_size : bi_size nb = 512 * Z.of_nat (length (vecs_data (bi_io_vec nb)));
  bu_phys : bi_phys_segments nb = bi_vcnt nb;
  bu_aligned : Forall vec_aligned (bi_io_vec nb);
  bu_count : (length (bi_io_vec nb) ≤ c_i cur)%nat;
  bu_mid : c_len cur = 0 ∨ bi_io_vec nb = [] ∨
    ∃ prev, last (bi_io_vec nb) = Some prev ∧ continues prev (c_page cur) (c_offset cur) = true;
}.

Lemma vec_data_length v : length (vec_data v) = Z.to_nat (bv_len v ≫ 9).
Proof. apply page_sectors_length. Qed.

Lemma aligned_length v : vec_aligned v → 512 * Z.of_nat (length (vec_data v)) = bv_len v.
Proof.
  intros [Hp Hm]. rewrite vec_data_length, Z.shiftr_div_pow2 by lia. change (2 ^ 9) with 512.
  apply Z.div_exact in Hm; [|lia]. pose proof (Z.div_pos (bv_len v) 512). lia.
Qed.

Lemma total_sectors_length old :
  Forall vec_aligned (bio_segments old) →
  total_sectors old = Z.of_nat (length (vecs_data (bio_segments old))).
Proof.
  unfold total_sectors. induction 1 as [|v l Hv _ IH]; [done|].
  rewrite vecs_data_cons, length_app. simpl. rewrite IH, vec_data_length.
  destruct Hv as [Hp _]. rewrite Z.shiftr_div_pow2 by lia. change (2 ^ 9) with 512.
  pose proof (Z.div_pos (bv_len v) 512). lia.
Qed.

Lemma removelast_snoc {A} (l : list A) x : removelast (l ++ [x]) = l.
Proof. apply removelast_last. Qed.

Section add_page.
Context `{HostQueue}.

Lemma merge_never s n rw v : merge_bvec_fn = None → merge_refuses s n rw v = false.
Proof. intros Hm. unfold merge_refuses. by rewrite Hm. Qed.

Lemma shift9 (n : nat) : (Z.of_nat n ≪ 9) = 512 * Z.of_nat n.
Proof. rewrite Z.shiftl_mul_pow2 by lia. lia. Qed.

Lemma shift9_div z (n : nat) : z = 512 * Z.of_nat n → z ≫ 9 = Z.of_nat n.
Proof. intros ->. rewrite Z.shiftr_div_pow2, Z.mul_comm by lia. by apply Z.div_mul. Qed.

(** Room for the fragment under the cursor: it continues the last segment, or there is a
    free segment. *)
Definition room (old nb : bio) (cur : cursor) : Prop :=
  (∃ prev, last (bi_io_vec nb) = Some prev ∧ continues prev (c_page cur) (c_offset cur) = true) ∨
  (length (bi_io_vec nb) < length (bi_io_vec old) ∧ length (bi_io_vec nb) < c_i cur)%nat.

Definition advance (n : nat) (cur : cursor) : cursor :=
  cur <| c_offset ::= Z.add (512 * Z.of_nat n) |> <| c_len ::= λ l, l - 512 * Z.of_nat n |>.

(** What a successful [bio_add_page] of [n] sectors leaves. *)
Definition added (bd : Z) (old nb nb' : bio) (cur : cursor) (n : nat) : Prop :=
  bi_sector nb' = bi_sector nb ∧
  vecs_data (bi_io_vec nb') =
    vecs_data (bi_io_vec nb) ++ page_sectors n (c_page cur) (c_offset cur) ∧
  building bd old nb' (advance n cur).

Lemma mod512 (n : nat) z : z mod 512 = 0 → (512 * Z.of_nat n + z) mod 512 = 0.
Proof. intros. rewrite Z.mul_comm, Z.add_comm, Z.mod_add by lia. done. Qed.

Lemma add_segment_spec bd old nb cur0 cur (n : nat) :
  fits old → building bd old nb cur0 → (0 < n)%nat →
  (length (bi_io_vec nb) < length (bi_io_vec old) ∧ length (bi_io_vec nb) < c_i cur)%nat →
  ∃ nb', add_segment nb (c_page cur) (512 * Z.of_nat n) (c_offset cur) =
           (nb', 512 * Z.of_nat n) ∧ added bd old nb nb' cur n.
Proof.
  intros [_ _ Hf2 _ Hm] [] Hn [Hlt Hcnt]. unfold add_segment, recount. rewrite bu_max0.
  destruct (decide (bi_vcnt old ≤ bi_vcnt nb)) as [?|_]; [unfold bi_vcnt in *; lia|].
  destruct (decide (queue_max_segments ≤ bi_phys_segments nb)) as [?|_];
    [unfold bi_vcnt in *; lia|].
  rewrite merge_never by done.
  eexists. split; [reflexivity|]. split; [done|].
  assert (vec_data (BioVec (c_page cur) (512 * Z.of_nat n) (c_offset cur)) =
          page_sectors n (c_page cur) (c_offset cur)) as Hv.
  { unfold vec_data; simpl. by rewrite (shift9_div _ n), Nat2Z.id. }
  simpl. rewrite vecs_data_app, vecs_data_single, Hv. split; [done|].
  constructor; simpl; try done.
  - rewrite vecs_data_app, vecs_data_single, Hv, length_app, page_sectors_length. lia.
  - unfold bi_vcnt in *. simpl. rewrite length_app. simpl. lia.
  - apply Forall_app. split; [done|]. apply Forall_singleton. split; simpl; [lia|].
    by rewrite <- (Z.add_0_r (512 * _)), mod512.
  - rewrite length_app. simpl. lia.
  - right. right. eexists. split; [by rewrite last_snoc|]. unfold continues; simpl.
    rewrite bool_decide_true by done. simpl. apply bool_decide_eq_true. lia.
Qed.

Lemma merge_segment_spec bd old nb cur0 cur (n : nat) l prev :
  building bd old nb cur0 → (c_i cur0 ≤ c_i cur)%nat → (0 < n)%nat →
  bi_io_vec nb = l ++ [prev] → continues prev (c_page cur) (c_offset cur) = true →
  added bd old nb
    (nb <| bi_io_vec := l ++ [BioVec (bv_page prev) (512 * Z.of_nat n + bv_len prev)
                                          (bv_offset prev)] |>
        <| bi_size ::= Z.add (512 * Z.of_nat n) |>) cur n.
Proof.
  intros [] Hle Hn Hl Hc. unfold continues in Hc.
  apply andb_prop in Hc as [Hpg%bool_decide_eq_true Ho%bool_decide_eq_true].
  destruct prev as [pg len off]; simpl in Hpg, Ho. subst pg.
  rewrite Hl in bu_aligned0. apply Forall_app in bu_aligned0 as [Hal1 Hal2].
  apply Forall_singleton in Hal2 as [Hpl Hpm]; simpl in *.
  assert (vecs_data (l ++ [BioVec (c_page cur) (512 * Z.of_nat n + len) off]) =
          vecs_data (bi_io_vec nb) ++ page_sectors n (c_page cur) (c_offset cur)) as Hd.
  { rewrite Hl, !vecs_data_app, !vecs_data_single, Ho, vec_data_grow by lia.
    by rewrite app_assoc. }
  pose proof (mod512 n len Hpm) as Hmod. unfold added, advance.
  remember (512 * Z.of_nat n) as d eqn:Ed.
  split; [done|]. split; [done|].
  constructor; simpl; try done.
  - rewrite Hd, length_app, page_sectors_length. lia.
  - rewrite bu_phys0. unfold bi_vcnt. simpl. by rewrite Hl, !length_app.
  - apply Forall_app. split; [done|]. apply Forall_singleton. split; simpl; [lia|].
    done.
  - rewrite Hl, length_app in bu_count0. rewrite length_app. simpl in *. lia.
  - right. right. eexists. split; [by rewrite last_snoc|]. unfold continues; simpl.
    rewrite bool_decide_true by done. simpl. apply bool_decide_eq_true. lia.
Qed.

(** Adding [n] sectors of the fragment under the cursor succeeds, and the bio is still under
    construction. *)
Lemma add_page_spec bd old nb cur0 cur (n : nat) :
  fits old → building bd old nb cur0 → (c_i cur0 ≤ c_i cur)%nat → (0 < n)%nat →
  (length (vecs_data (bi_io_vec nb)) + n ≤ Z.to_nat (total_sectors old))%nat →
  room old nb cur →
  ∃ nb', bio_add_page nb (c_page cur) (512 * Z.of_nat n) (c_offset cur) =
           (nb', 512 * Z.of_nat n) ∧ added bd old nb nb' cur n.
Proof.
  intros Hf Hb Hle Hn Htot Hroom. unfold bio_add_page. rewrite (bu_cloned _ _ _ _ Hb).
  rewrite (shift9_div _ (length (vecs_data (bi_io_vec nb)) + n))
    by (rewrite (bu_size _ _ _ _ Hb); lia).
  destruct (decide (queue_max_sectors < _)) as [?|_]; [pose proof (fits_sectors _ Hf); lia|].
  destruct (last_inv (bi_io_vec nb)) as [Hnil|(l & prev & Hl)].
  { destruct Hroom as [(? & Hlast & _)|?]; [by rewrite Hnil in Hlast|].
    assert (last (bi_io_vec nb) = None) as -> by (by rewrite Hnil). by eapply add_segment_spec. }
  assert (last (bi_io_vec nb) = Some prev) as -> by (by rewrite Hl, last_snoc).
  destruct (continues prev (c_page cur) (c_offset cur)) eqn:Hc.
  - rewrite merge_never by apply Hf. eexists. split; [reflexivity|].
    rewrite Hl, removelast_snoc. by eapply merge_segment_spec.
  - destruct Hroom as [(? & Hlast & ?)|?]; [rewrite Hl, last_snoc in Hlast; congruence|].
    by eapply add_segment_spec.
Qed.

End add_page.

(** ** The loops *)
Section loops.
Context {C FS : Type} `{TranslationCacheOk C} `{HostFSOk FS} `{Printk} `{HostQueue}.
Variable prefetch_blocks : Z.
Hypothesis prefetch_range : 1 ≤ prefetch_blocks < 2 ^ 19.
Hypothesis reported : errors_reported (FS := FS).
Variable host_bdev : Z.
Variable uninit : cio_req.
Variables kmalloc_ok bio_alloc_ok : nat → bool.
Hypothesis kmalloc_works : ∀ n, kmalloc_ok n = true.

Implicit Types (st : rstate C FS) (old nb : bio) (cur : cursor) (hd : lo_bio_head).

(** The cursor after [if (cur_page_len == 0)]. *)
Lemma fetch_spec old nb cur :
  cursor_wf old cur → building host_bdev old nb cur → cursor_data old cur ≠ [] →
  ∃ cur', (if decide (c_len cur = 0) then
             match bi_io_vec old !! c_i cur with
             | None => Oops
             | Some v => Ok (Cursor (S (c_i cur)) (bv_page v) (bv_offset v) (bv_len v))
             end
           else Ok cur) = Ok cur' ∧
    cursor_wf old cur' ∧ cursor_data old cur' = cursor_data old cur ∧
    (c_i cur ≤ c_i cur')%nat ∧ 0 < c_len cur' ∧ room old nb cur'.
Proof.
  intros [] [] Hne. case_decide as Hz.
  - unfold cursor_data in *. rewrite Hz in Hne |- *. simpl in Hne.
    destruct (drop (c_i cur) (bi_io_vec old)) as [|v rest] eqn:Hd; [done|].
    assert (bi_io_vec old !! c_i cur = Some v) as Hv.
    { rewrite <- (Nat.add_0_r (c_i cur)), <- lookup_drop, Hd. done. }
    assert (drop (S (c_i cur)) (bi_io_vec old) = rest) as Hd'.
    { rewrite <- Nat.add_1_r, <- drop_drop, Hd. done. }
    pose proof (lookup_lt_Some _ _ _ Hv).
    rewrite Hv. eexists. split; [done|]. inversion cw_rest0 as [|? ? [Hvp Hvm] Hrest]; subst.
    simpl. destruct v as [pg len off]; simpl in *. split_and!; [|by rewrite vecs_data_cons|lia|done|].
    + constructor; simpl; [lia|done|done|right; lia].
    + right. simpl. lia.
  - exists cur. destruct cw_index0 as [?|Hi]; [done|].
    split_and!; [done|by constructor; auto|done|lia|lia|].
    destruct bu_mid0 as [?|[Hnil|Hc]]; [done| |by left].
    right. rewrite Hnil. simpl. lia.
Qed.

Lemma cursor_data_advance old cur (n : nat) :
  512 * Z.of_nat n ≤ c_len cur →
  cursor_data old cur =
    page_sectors n (c_page cur) (c_offset cur) ++ cursor_data old (advance n cur).
Proof.
  intros Hn. unfold cursor_data, advance. cbn -[Z.mul]. rewrite (vec_data_split _ _ n) by done.
  rewrite <- app_assoc. by rewrite (Z.add_comm (512 * _)).
Qed.

Lemma cursor_wf_advance old cur (n : nat) :
  cursor_wf old cur → 0 < c_len cur → 512 * Z.of_nat n ≤ c_len cur → cursor_wf old (advance n cur).
Proof.
  intros [] Hp Hn. constructor; cbn -[Z.mul]; [lia| |done|].
  - replace (c_len cur - 512 * Z.of_nat n) with (c_len cur + (- Z.of_nat n) * 512) by lia.
    by rewrite Z.mod_add by lia.
  - destruct cw_index0; [lia|by right].
Qed.

(** Number of sectors taken in one round of the inner loop. *)
Lemma to_written_nat cur (rem : Z) old :
  cursor_wf old cur → 0 < c_len cur → 0 < rem →
  ∃ n : nat, (if decide (c_len cur ≫ 9 < rem) then c_len cur ≫ 9 else rem) = Z.of_nat n ∧
    (0 < n)%nat ∧ Z.of_nat n ≤ rem ∧ 512 * Z.of_nat n ≤ c_len cur.
Proof.
  intros [] Hp Hrem. rewrite Z.shiftr_div_pow2 by lia. change (2 ^ 9) with 512.
  apply Z.div_exact in cw_sector0; [|lia].
  assert (0 < c_len cur / 512) by lia.
  case_decide.
  - exists (Z.to_nat (c_len cur / 512)). lia.
  - exists (Z.to_nat rem). lia.
Qed.

Lemma fill_block_spec fuel old phys rem cur nb hd st :
  fits old → cursor_wf old cur → building host_bdev old nb cur → 0 ≤ rem →
  rem ≤ Z.of_nat (length (cursor_data old cur)) →
  (length (vecs_data (bi_io_vec nb)) + length (cursor_data old cur) ≤
    Z.to_nat (total_sectors old))%nat →
  (Z.to_nat rem < fuel)%nat →
  ∃ cur' nb', fill_block host_bdev kmalloc_ok bio_alloc_ok fuel old phys rem cur nb hd st =
      Ok (st, Next (cur', nb', hd)) ∧
    cursor_wf old cur' ∧ building host_bdev old nb' cur' ∧ bi_sector nb' = bi_sector nb ∧
    vecs_data (bi_io_vec nb') =
      vecs_data (bi_io_vec nb) ++ take (Z.to_nat rem) (cursor_data old cur) ∧
    cursor_data old cur' = drop (Z.to_nat rem) (cursor_data old cur).
Proof.
  intros Hf. revert rem cur nb. induction fuel as [|fuel IH]; [lia|].
  intros rem cur nb Hcw Hb Hge Hrem Htot Hfuel. cbn [fill_block].
  destruct (decide (0 < rem)) as [Hpos|Hnp].
  2:{ replace rem with 0 by lia. exists cur, nb. split_and!; try done. by rewrite app_nil_r. }
  destruct (fetch_spec old nb cur Hcw Hb) as (cur1 & -> & Hcw1 & Hd1 & Hi1 & Hp1 & Hroom).
  { intros Hnil. rewrite Hnil in Hrem. simpl in Hrem. lia. }
  rewrite bind_Ok.
  destruct (to_written_nat cur1 rem old Hcw1 Hp1 Hpos) as (n & -> & Hn0 & Hnr & Hnl).
  rewrite shift9. rewrite <- Hd1 in *.
  pose proof (cursor_data_advance old cur1 n Hnl) as Hda.
  assert (length (cursor_data old cur1) = n + length (cursor_data old (advance n cur1)))%nat as Hlen.
  { by rewrite Hda, length_app, page_sectors_length. }
  destruct (add_page_spec host_bdev old nb cur cur1 n) as (nb1 & -> & Hs1 & Hv1 & Hb1); [done..|lia|done|].
  destruct (decide (512 * Z.of_nat n ≠ 512 * Z.of_nat n)) as [?|_]; [done|].
  destruct (IH (rem - Z.of_nat n) (advance n cur1) nb1) as (cur' & nb' & Heq & Hcw' & Hb' & Hs' & Hv' & Hd').
  { by apply cursor_wf_advance. }
  { done. }
  { lia. }
  { lia. }
  { rewrite Hv1, length_app, page_sectors_length. lia. }
  { lia. }
  exists cur', nb'. split; [exact Heq|]. split_and!; [done|done|congruence| |].
  - rewrite Hv', Hv1, <- app_assoc. f_equal.
    rewrite Hda, take_app_ge by (rewrite page_sectors_length; lia).
    rewrite page_sectors_length. repeat f_equal. lia.
  - rewrite Hd', Hda, drop_app_ge by (rewrite page_sectors_length; lia).
    rewrite page_sectors_length. f_equal. lia.
Qed.

(** *** Translation of sectors *)

(** Sector [s] of the image lies in sector [s'] of the host device. *)
Definition translated (fs : FS) (s s' : Z) : Prop :=
  ∃ v, block_of fs (s ≫ (i_blkbits - 9)) = Some v ∧
    s' = (v ≪ (i_blkbits - 9)) + s mod sectors_per_block.

(** Same page fragment, translated sector. *)
Definition related (fs : FS) (x y : Z * (Z * Z)) : Prop := x.2 = y.2 ∧ translated fs y.1 x.1.

Lemma related_mono fs fs' l1 l2 :
  host_extends fs fs' → Forall2 (related fs) l1 l2 → Forall2 (related fs') l1 l2.
Proof.
  intros Hx HF. eapply Forall2_impl; [exact HF|]. intros x y [Hd (v & Hv & Hs)]. split; [done|].
  exists v. auto.
Qed.

Lemma sectors_per_block_pos : 0 < sectors_per_block.
Proof.
  unfold sectors_per_block. pose proof i_blkbits_range.
  rewrite Z.shiftl_mul_pow2 by lia. rewrite Z.mul_1_l. apply Z.pow_pos_nonneg; lia.
Qed.

Lemma run_translated fs logical v j :
  0 ≤ j < sectors_per_block - logical mod sectors_per_block →
  block_of fs (logical ≫ (i_blkbits - 9)) = Some v →
  translated fs (logical + j) ((v ≪ (i_blkbits - 9)) + logical mod sectors_per_block + j).
Proof.
  intros Hj Hv. pose proof sectors_per_block_pos as Hp. pose proof i_blkbits_range.
  exists v. assert (2 ^ (i_blkbits - 9) = sectors_per_block) as E.
  { unfold sectors_per_block. by rewrite Z.shiftl_mul_pow2, Z.mul_1_l by lia. }
  rewrite !Z.shiftr_div_pow2, E in * by lia.
  pose proof (Z.mod_pos_bound logical _ Hp).
  pose proof (Z.div_mod logical sectors_per_block).
  assert ((logical + j) / sectors_per_block = logical / sectors_per_block) as ->.
  { symmetry. apply (Z.div_unique _ _ _ (logical mod sectors_per_block + j)); lia. }
  split; [done|].
  assert ((logical + j) mod sectors_per_block = logical mod sectors_per_block + j) as ->; [|lia].
  symmetry. apply (Z.mod_unique _ _ (logical / sectors_per_block)); lia.
Qed.

Lemma place_related fs logical v (d : list (Z * Z)) :
  Z.of_nat (length d) ≤ sectors_per_block - logical mod sectors_per_block →
  block_of fs (logical ≫ (i_blkbits - 9)) = Some v →
  Forall2 (related fs)
    (place ((v ≪ (i_blkbits - 9)) + logical mod sectors_per_block) d) (place logical d).
Proof.
  intros Hd Hv. apply Forall2_same_length_lookup_2; [by rewrite !place_length|].
  intros k x y Hx Hy. unfold place in *. rewrite list_lookup_imap in Hx, Hy.
  destruct (d !! k) as [z|] eqn:Hz; simpl in *; simplify_eq. apply lookup_lt_Some in Hz.
  split; [done|]. apply run_translated; [lia|done].
Qed.

(** Every block the bio needs is allocated, or will be because it is a write. *)
Definition needs_no_hole (old : bio) (fs : FS) : Prop :=
  Z.land (bi_rw old) REQ_WRITE ≠ 0 ∨
  ∀ s, bi_sector old ≤ s < bi_sector old + total_sectors old →
    block_of fs (s ≫ (i_blkbits - 9)) ≠ None.

Lemma needs_no_hole_mono old fs fs' :
  host_extends fs fs' → needs_no_hole old fs → needs_no_hole old fs'.
Proof.
  intros Hx [?|Hm]; [by left|right]. intros s Hs. specialize (Hm s Hs).
  destruct (block_of fs _) as [v|] eqn:E; [|done]. by rewrite (Hx _ _ E).
Qed.

(** The failures after which the bio has been ended once, with [e], and nothing was sent. *)
Definition ended (st st' : rstate C FS) : Prop :=
  ∃ e, (e = - EIO ∨ e = - ENOMEM) ∧ rs_trace st' = rs_trace st ++ [EvEndio e].

Definition st_sound (st : rstate C FS) : Prop := lanes_sound (rs_lanes st).
Definition st_extends (st st' : rstate C FS) : Prop :=
  host_extends (lo_host (rs_lanes st)) (lo_host (rs_lanes st')).

Lemma translate_block_spec old blk st :
  st_sound st →
  (Z.land (bi_rw old) REQ_WRITE ≠ 0 ∨ block_of (lo_host (rs_lanes st)) blk ≠ None) →
  ∃ st' r, translate_block prefetch_blocks uninit old blk st = Ok (st', r) ∧
    st_sound st' ∧ st_extends st st' ∧
    match r with
    | Return _ => ended st st'
    | Next p => rs_trace st' = rs_trace st ∧ block_of (lo_host (rs_lanes st')) blk = Some p
    end.
Proof.
  intros [Hwf Hs] Hne. unfold translate_block.
  destruct (tc_find_spec (lo_cache (rs_lanes st)) blk Hwf) as (r & -> & Hr). simpl.
  destruct (decide (default 0 r = 0)) as [Hz|Hnz].
  - destruct (make_request_spec prefetch_blocks prefetch_range reported (rs_lanes st) blk (bi_rw old) uninit)
      as (lo' & cio' & -> & Hs' & Hx & _ & _ & _ & Hans); [by split|].
    rewrite bind_Ok. destruct (decide (cio_error cio' ≠ 0)) as [He|He].
    + eexists _, _. split; [reflexivity|]. split_and!; [done|done|]. exists (- EIO). auto.
    + eexists _, _. split; [reflexivity|]. split_and!; [done|done|done|]. simpl.
      assert (cio_error cio' = 0) as He' by lia. specialize (Hans He').
      case_decide; [|done]. exfalso. destruct Hans as [Hw Hnone], Hne as [?|Hne]; [done|].
      destruct (block_of (lo_host (rs_lanes st)) blk) as [v|] eqn:E; [|done].
      by rewrite (Hx _ _ E) in Hnone.
  - destruct r as [v|]; [|done]. simpl in *. eexists _, _. split; [reflexivity|].
    split_and!; [by split|apply host_extends_refl|done|]. by apply Hs.
Qed.

(** *** The list of new bios *)
Definition pieces (hd : lo_bio_head) (nb : option bio) : list bio :=
  (lb_bio <$> head_list hd) ++ option_list nb.

Definition pieces_map (hd : lo_bio_head) (nb : option bio) : list (Z * (Z * Z)) :=
  concat (bio_map <$> pieces hd nb).

Definition all_sent (old : bio) (hd : lo_bio_head) : Prop :=
  Forall (λ b, bi_bdev b = Some host_bdev ∧ bi_rw b = bi_rw old) (lb_bio <$> head_list hd) ∧
  nr_total hd = Z.of_nat (length (head_list hd)).

Lemma pieces_map_snoc hd b :
  pieces_map hd (Some b) = pieces_map hd None ++ bio_map b.
Proof.
  unfold pieces_map, pieces. simpl. rewrite app_nil_r, fmap_app, concat_app. simpl.
  by rewrite app_nil_r.
Qed.

Lemma send_spec old hd b st :
  all_sent old hd → bi_bdev b = Some host_bdev → bi_rw b = bi_rw old →
  ∃ st' hd', lo_send_bio kmalloc_ok hd b st = Ok (st', hd') ∧
    rs_lanes st' = rs_lanes st ∧ rs_trace st' = rs_trace st ∧ all_sent old hd' ∧
    pieces hd' None = pieces hd (Some b).
Proof.
  intros [Ha Hn] Hb Hr. unfold lo_send_bio, kmalloc. rewrite kmalloc_works, bind_Ok.
  eexists _, _. split; [reflexivity|]. split_and!; [done|done| |].
  - split; simpl.
    + rewrite fmap_app. apply Forall_app. split; [done|]. by apply Forall_singleton.
    + rewrite length_app. simpl. lia.
  - unfold pieces. simpl. by rewrite fmap_app, app_nil_r.
Qed.

Lemma new_bio_spec old cur start st :
  bi_vcnt old ≤ BIO_MAX_PAGES →
  ∃ st' r, lo_new_bio host_bdev bio_alloc_ok start (bi_vcnt old) (bi_rw old) st = (st', r) ∧
    rs_lanes st' = rs_lanes st ∧ rs_trace st' = rs_trace st ∧
    match r with
    | None => True
    | Some b => building host_bdev old b cur ∧ bi_sector b = start ∧ bi_io_vec b = []
    end.
Proof.
  intros Hv. unfold lo_new_bio, bio_alloc. rewrite Z.min_l by done.
  eexists _, _. split; [reflexivity|]. split_and!; [done|done|].
  destruct (bio_alloc_ok _); [|done]. rewrite decide_True by done. simpl.
  split; [|done]. constructor; simpl; try done; auto with lia.
Qed.

(** The current bio and where it ends. *)
Definition current (old : bio) (cur : cursor) (count next_sector : Z) (nb : option bio) : Prop :=
  match nb with
  | None => count = 0
  | Some b => 0 < count ∧ building host_bdev old b cur ∧
      next_sector = bi_sector b + Z.of_nat (length (vecs_data (bi_io_vec b)))
  end.

Lemma building_map b old cur :
  building host_bdev old b cur → bio_map b = place (bi_sector b) (vecs_data (bi_io_vec b)).
Proof. intros []. unfold bio_map, bio_segments. by rewrite bu_idx0. Qed.

(** Opening a bio at [phys] adds nothing to what was gathered. *)
Lemma open_bio_spec old cur phys hd st :
  bi_vcnt old ≤ BIO_MAX_PAGES →
  ∃ st' r,
    (let '(st, nb) := lo_new_bio host_bdev bio_alloc_ok phys (bi_vcnt old) (bi_rw old) st in
     match nb with
     | None => Ok (emit (EvEndio (- ENOMEM)) st, Return (Some (- ENOMEM)))
     | Some b => Ok (st, Next (b, hd))
     end) = Ok (st', r) ∧
    rs_lanes st' = rs_lanes st ∧
    match r with
    | Return _ => ended st st'
    | Next (b, hd') => rs_trace st' = rs_trace st ∧ hd' = hd ∧ building host_bdev old b cur ∧
        bi_sector b = phys ∧ bi_io_vec b = []
    end.
Proof.
  intros Hv. destruct (new_bio_spec old cur phys st Hv) as (st1 & r & -> & Hl & Ht & Hr).
  destruct r as [b|].
  - eexists _, _. split; [reflexivity|]. naive_solver.
  - eexists _, _. split; [reflexivity|]. split; [done|]. exists (- ENOMEM).
    split; [auto|]. simpl. by rewrite Ht.
Qed.

Lemma next_bio_spec old cur count phys next_sector (nb : option bio) hd st :
  bi_vcnt old ≤ BIO_MAX_PAGES → all_sent old hd → current old cur count next_sector nb →
  ∃ st' r, next_bio host_bdev kmalloc_ok bio_alloc_ok old count phys next_sector nb hd st =
      Ok (st', r) ∧ rs_lanes st' = rs_lanes st ∧
    match r with
    | Return _ => ended st st'
    | Next (b, hd') => rs_trace st' = rs_trace st ∧ all_sent old hd' ∧
        pieces_map hd' (Some b) = pieces_map hd nb ∧ building host_bdev old b cur ∧
        bi_sector b + Z.of_nat (length (vecs_data (bi_io_vec b))) = phys
    end.
Proof.
  intros Hv Ha Hc. unfold next_bio.
  assert (∀ hd1 st1, rs_lanes st1 = rs_lanes st → rs_trace st1 = rs_trace st →
    all_sent old hd1 → pieces_map hd1 None = pieces_map hd nb → ∃ st' r,
    (let '(st, nb) := lo_new_bio host_bdev bio_alloc_ok phys (bi_vcnt old) (bi_rw old) st1 in
     match nb with
     | None => Ok (emit (EvEndio (- ENOMEM)) st, Return (Some (- ENOMEM)))
     | Some b => Ok (st, Next (b, hd1))
     end) = Ok (st', r) ∧ rs_lanes st' = rs_lanes st ∧
    match r with
    | Return _ => ended st st'
    | Next (b, hd') => rs_trace st' = rs_trace st ∧ all_sent old hd' ∧
        pieces_map hd' (Some b) = pieces_map hd nb ∧ building host_bdev old b cur ∧
        bi_sector b + Z.of_nat (length (vecs_data (bi_io_vec b))) = phys
    end) as Hopen.
  { intros hd1 st1 Hl1 Ht1 Ha1 Hm1.
    destruct (open_bio_spec old cur phys hd1 st1 Hv) as (st' & r & -> & Hl & Hr).
    eexists _, _. split; [reflexivity|]. split; [congruence|]. destruct r as [v|[b hd']].
    - destruct Hr as (e & He & Ht). exists e. by rewrite Ht, Ht1.
    - destruct Hr as (Ht & -> & Hb & Hs & Hnil). split_and!; try done; [congruence| |].
      + rewrite pieces_map_snoc, Hm1, (building_map _ _ _ Hb), Hnil. apply app_nil_r.
      + rewrite Hs, Hnil. simpl. lia. }
  destruct nb as [b|]; simpl in Hc.
  - destruct Hc as (Hpos & Hb & Hnext).
    destruct (decide (count ≠ 0 ∧ phys ≠ next_sector)) as [[_ Hne]|Hno].
    + destruct (send_spec old hd b st Ha) as (st1 & hd1 & -> & Hl & Ht & Ha1 & Hp);
        [apply Hb|apply Hb|].
      rewrite !bind_Ok. apply Hopen; [done..|]. unfold pieces_map. by rewrite Hp.
    + rewrite bind_Ok. eexists _, _. split; [reflexivity|]. split; [done|].
      split_and!; try done. lia.
  - subst count. destruct (decide (0 ≠ 0 ∧ phys ≠ next_sector)) as [[??]|_]; [done|].
    rewrite bind_Ok. by apply Hopen.
Qed.

Lemma redirect_loop_S fuel old total logical next_sector count cur (nb : option bio) hd st :
  redirect_loop prefetch_blocks host_bdev uninit kmalloc_ok bio_alloc_ok (S fuel) old total
    logical next_sector count cur nb hd st =
  if decide (0 < total) then
    '(st, t) ← translate_block prefetch_blocks uninit old (logical ≫ (i_blkbits - 9)) st;
    match t with
    | Return v => Ok (st, Return v)
    | Next blk_phys =>
        let sec_nr_phys := (blk_phys ≪ (i_blkbits - 9)) + logical mod sectors_per_block in
        let remaining := sectors_per_block - logical mod sectors_per_block in
        '(st, r) ← next_bio host_bdev kmalloc_ok bio_alloc_ok old count sec_nr_phys next_sector
                     nb hd st;
        match r with
        | Return v => Ok (st, Return v)
        | Next (b, hd) =>
            let '(total, remaining) :=
              if decide (remaining < total) then (total - remaining, remaining) else (0, total) in
            '(st, f) ← fill_block host_bdev kmalloc_ok bio_alloc_ok
                         (S (Z.to_nat remaining + length (bi_io_vec old))) old
                         sec_nr_phys remaining cur b hd st;
            match f with
            | Return v => Ok (st, Return v)
            | Next (cur, b, hd) =>
                redirect_loop prefetch_blocks host_bdev uninit kmalloc_ok bio_alloc_ok fuel old
                  total (logical + remaining) (sec_nr_phys + remaining) (count + 1) cur (Some b)
                  hd st
            end
        end
    end
  else Ok (st, Next (count, nb, hd)).
Proof. reflexivity. Qed.

(** Invariant of the outer loop after [k] sectors. *)
Record gathering (old : bio) (k : nat) (cur : cursor) (nb : option bio) (hd : lo_bio_head)
    (fs : FS) : Prop := Gathering {
  ga_wf : cursor_wf old cur;
  ga_rest : cursor_data old cur = drop k (vecs_data (bio_segments old));
  ga_sent : all_sent old hd;
  ga_map : Forall2 (related fs) (pieces_map hd nb)
    (place (bi_sector old) (take k (vecs_data (bio_segments old))));
  ga_bounded : (length (vecs_data (default [] (bi_io_vec <$> nb))) ≤ k)%nat;
}.

Lemma length_place_map old (b : bio) cur :
  building host_bdev old b cur → length (bio_map b) = length (vecs_data (bi_io_vec b)).
Proof. intros Hb. by rewrite (building_map _ _ _ Hb), place_length. Qed.

(** One block: the pieces grow by the translation of its sectors. *)
Lemma block_spec old (k n : nat) cur b hd st p :
  fits old → gathering old k cur (Some b) hd (lo_host (rs_lanes st)) →
  building host_bdev old b cur →
  let logical := bi_sector old + Z.of_nat k in
  block_of (lo_host (rs_lanes st)) (logical ≫ (i_blkbits - 9)) = Some p →
  let phys := (p ≪ (i_blkbits - 9)) + logical mod sectors_per_block in
  bi_sector b + Z.of_nat (length (vecs_data (bi_io_vec b))) = phys →
  Z.of_nat n ≤ sectors_per_block - logical mod sectors_per_block →
  (k + n ≤ length (vecs_data (bio_segments old)))%nat →
  ∃ cur' b', fill_block host_bdev kmalloc_ok bio_alloc_ok
      (S (Z.to_nat (Z.of_nat n) + length (bi_io_vec old))) old phys (Z.of_nat n) cur b hd st =
      Ok (st, Next (cur', b', hd)) ∧
    building host_bdev old b' cur' ∧
    bi_sector b' + Z.of_nat (length (vecs_data (bi_io_vec b'))) = phys + Z.of_nat n ∧
    gathering old (k + n) cur' (Some b') hd (lo_host (rs_lanes st)).
Proof.
  intros Hf [] Hb logical Hp phys Hend Hn Hk. simpl in ga_bounded0.
  set (data := vecs_data (bio_segments old)) in *.
  assert (total_sectors old = Z.of_nat (length data)) as Htot by apply total_sectors_length, Hf.
  assert (length (cursor_data old cur) = length data - k)%nat as Hlen
    by by rewrite ga_rest0, length_drop.
  destruct (fill_block_spec (S (Z.to_nat (Z.of_nat n) + length (bi_io_vec old))) old phys
    (Z.of_nat n) cur b hd st) as (cur' & b' & -> & Hcw & Hb' & Hs & Hv & Hd);
    [done|done|done|lia|lia|lia|lia|].
  rewrite Nat2Z.id in Hv, Hd. rewrite ga_rest0 in Hv, Hd.
  assert (length (take n (drop k data)) = n) as Hlt
    by (rewrite length_take, length_drop; lia).
  exists cur', b'. split; [done|]. split; [done|]. split.
  { rewrite Hs, Hv, length_app, Hlt. lia. }
  constructor; [done| |done| |].
  - by rewrite Hd, drop_drop.
  - rewrite pieces_map_snoc, (building_map _ _ _ Hb'), Hs, Hv, place_app, Hend, app_assoc.
    rewrite pieces_map_snoc, (building_map _ _ _ Hb) in ga_map0.
    rewrite <- take_take_drop, place_app.
    apply Forall2_app; [done|]. fold data.
    rewrite (length_take_le data k) by lia. apply place_related; [rewrite Hlt; exact Hn|exact Hp].
  - simpl. rewrite Hv, length_app, Hlt. lia.
Qed.

Lemma gathering_mono old k cur (nb : option bio) hd fs fs' :
  host_extends fs fs' → gathering old k cur nb hd fs → gathering old k cur nb hd fs'.
Proof. intros Hx []. constructor; eauto using related_mono. Qed.

(** Outcome of the outer loop and of everything up to the submission. *)
Definition loop_outcome (old : bio) (st st' : rstate C FS)
    (r : exit (Z * option bio * lo_bio_head)) : Prop :=
  st_sound st' ∧ st_extends st st' ∧
  match r with
  | Return _ => ended st st'
  | Next (count, nb, hd) => rs_trace st' = rs_trace st ∧ all_sent old hd ∧
      Forall2 (related (lo_host (rs_lanes st'))) (pieces_map hd nb) (bio_map old) ∧
      match nb with
      | None => count = 0 ∧ total_sectors old = 0
      | Some b => 0 < count ∧ bi_bdev b = Some host_bdev ∧ bi_rw b = bi_rw old
      end
  end.

Lemma loop_outcome_trans old st1 st2 st3 r :
  st_extends st1 st2 → rs_trace st2 = rs_trace st1 →
  loop_outcome old st2 st3 r → loop_outcome old st1 st3 r.
Proof.
  intros Hx Ht (Hs & Hx' & Hr). split; [done|]. split; [by eapply host_extends_trans|].
  unfold ended in *. destruct r as [v|[[count nb] hd]]; rewrite <- Ht; done.
Qed.

Lemma block_sectors total rem :
  0 < total → 0 < rem →
  ∃ n : nat, (0 < n)%nat ∧ Z.of_nat n ≤ rem ∧ Z.of_nat n ≤ total ∧
    (if decide (rem < total) then (total - rem, rem) else (0, total)) =
      (total - Z.of_nat n, Z.of_nat n).
Proof.
  intros Ht Hr. case_decide.
  - exists (Z.to_nat rem). rewrite Z2Nat.id by lia. split_and!; done || lia.
  - exists (Z.to_nat total). rewrite Z2Nat.id by lia. rewrite Z.sub_diag.
    split_and!; done || lia.
Qed.

(** The invariant after [next_bio], whatever it did. *)
Lemma gathering_open old k cur (nb : option bio) hd b hd' fs fs' :
  host_extends fs fs' → gathering old k cur nb hd fs → all_sent old hd' →
  pieces_map hd' (Some b) = pieces_map hd nb → building host_bdev old b cur →
  gathering old k cur (Some b) hd' fs'.
Proof.
  intros Hx [] Ha Hm Hb. constructor; [done|done|done| |].
  - rewrite Hm. by eapply related_mono.
  - simpl. apply Forall2_length in ga_map0.
    rewrite <- Hm, pieces_map_snoc, length_app, (length_place_map _ _ _ Hb) in ga_map0.
    rewrite place_length, length_take in ga_map0. lia.
Qed.

Lemma redirect_loop_spec fuel old (k : nat) next_sector count cur (nb : option bio) hd st :
  fits old → st_sound st → needs_no_hole old (lo_host (rs_lanes st)) →
  (k ≤ length (vecs_data (bio_segments old)))%nat →
  gathering old k cur nb hd (lo_host (rs_lanes st)) →
  current old cur count next_sector nb → (nb = None → k = 0%nat) →
  (length (vecs_data (bio_segments old)) - k < fuel)%nat →
  ∃ st' r, redirect_loop prefetch_blocks host_bdev uninit kmalloc_ok bio_alloc_ok fuel old
      (total_sectors old - Z.of_nat k) (bi_sector old + Z.of_nat k) next_sector count cur nb hd st
      = Ok (st', r) ∧ loop_outcome old st st' r.
Proof.
  intros Hf. revert k next_sector count cur nb hd st.
  induction fuel as [|fuel IH]; [lia|].
  intros k next_sector count cur nb hd st Hs Hhole Hk Hg Hc Hnone Hfuel.
  rewrite redirect_loop_S.
  set (data := vecs_data (bio_segments old)) in *.
  assert (total_sectors old = Z.of_nat (length data)) as Htot by apply total_sectors_length, Hf.
  destruct (decide (0 < total_sectors old - Z.of_nat k)) as [Hpos|Hend].
  2:{ eexists _, _. split; [reflexivity|]. split; [done|]. split; [apply host_extends_refl|].
      pose proof (ga_map _ _ _ _ _ _ Hg) as Hm. fold data in Hm. rewrite take_ge in Hm by lia.
      split_and!; [done|apply Hg|done|]. destruct nb as [b|]; simpl in Hc.
      - destruct Hc as (? & Hb & _). split; [done|]. split; apply Hb.
      - specialize (Hnone eq_refl). split; [done|lia]. }
  set (logical := bi_sector old + Z.of_nat k) in *.
  destruct (translate_block_spec old (logical ≫ (i_blkbits - 9)) st Hs)
    as (st1 & t & -> & Hs1 & Hx1 & Ht).
  { destruct Hhole as [?|Hh]; [by left|right]. apply Hh. lia. }
  rewrite bind_Ok. destruct t as [v|p].
  { eexists _, _. split; [reflexivity|]. split_and!; done. }
  destruct Ht as [Ht1 Hp]. cbv zeta.
  set (phys := (p ≪ (i_blkbits - 9)) + logical mod sectors_per_block) in *.
  destruct (next_bio_spec old cur count phys next_sector nb hd st1)
    as (st2 & r & -> & Hl2 & Hr); [apply Hf|apply Hg|done|].
  rewrite bind_Ok. destruct r as [v|[b hd2]].
  { eexists _, _. split; [reflexivity|]. unfold loop_outcome, st_sound, st_extends, ended in *.
    rewrite Hl2. split_and!; [done|done|]. by rewrite <- Ht1. }
  destruct Hr as (Ht2 & Ha2 & Hm2 & Hb2 & Hend2).
  pose proof sectors_per_block_pos as Hspb. pose proof (Z.mod_pos_bound logical _ Hspb) as Hmod.
  destruct (block_sectors (total_sectors old - Z.of_nat k)
    (sectors_per_block - logical mod sectors_per_block)) as (n & Hn0 & Hnr & Hnt & ->); [lia..|].
  cbv iota beta. rewrite <- Hl2 in Hp.
  destruct (block_spec old k n cur b hd2 st2 p Hf) as (cur' & b' & Hfill & Hb' & Hend' & Hg');
    [by eapply gathering_open; [rewrite Hl2|..]|done|done|done|done|fold data; lia|].
  fold logical in Hfill. fold phys in Hfill. rewrite Hfill, bind_Ok.
  destruct (IH (k + n)%nat (phys + Z.of_nat n) (count + 1) cur' (Some b') hd2 st2)
    as (st' & r & Heq & Hout).
  { unfold st_sound. by rewrite Hl2. }
  { rewrite Hl2. by eapply needs_no_hole_mono. }
  { lia. }
  { done. }
  { split_and!; [|done|done]. destruct nb; simpl in Hc; lia. }
  { done. }
  { lia. }
  eexists _, _. split.
  - rewrite <- Heq. unfold logical. f_equal; lia.
  - eapply loop_outcome_trans; [|by rewrite Ht2|done]. unfold st_extends. by rewrite Hl2.
Qed.

(** *** Flushes and the whole function *)
Lemma make_flush_spec (lo : lanes C FS) flag cio :
  lanes_sound lo →
  ∃ lo' cio', cio_make_request_flush prefetch_blocks lo flag cio = Ok (lo', cio') ∧
    lanes_sound lo' ∧ host_extends (lo_host lo) (lo_host lo').
Proof.
  intros Hs. unfold cio_make_request_flush, wait_for_completion.
  set (cio0 := cio_init cio flag (-1)).
  destruct (drain_spec prefetch_blocks prefetch_range reported (lo_cio_list lo ++ [cio0])
    (cio_enqueue lo cio0) []) as (lo' & out & Hdr & Hs' & _ & Hx & _); [exact Hs|done|].
  change (lo_cio_list (cio_enqueue lo cio0)) with (lo_cio_list lo ++ [cio0]).
  rewrite Hdr, bind_Ok. eauto.
Qed.

Lemma flush_if_dirty_spec rw st :
  st_sound st →
  ∃ st' e, flush_if_dirty prefetch_blocks uninit rw st = Ok (st', e) ∧
    st_sound st' ∧ st_extends st st' ∧ rs_trace st' = rs_trace st.
Proof.
  intros Hs. unfold flush_if_dirty. destruct (test_bit _ _).
  - destruct (make_flush_spec (rs_lanes st) rw uninit Hs) as (lo' & cio' & -> & Hs' & Hx).
    rewrite bind_Ok. eexists _, _. split; [reflexivity|]. done.
  - eexists _, _. split; [reflexivity|]. split_and!; [done|apply host_extends_refl|done].
Qed.

Lemma preflush_spec old st :
  st_sound st →
  ∃ st' r, redirect_preflush prefetch_blocks uninit old st = Ok (st', r) ∧
    st_sound st' ∧ st_extends st st' ∧
    match r with Return _ => ended st st' | Next () => rs_trace st' = rs_trace st end.
Proof.
  intros Hs. unfold redirect_preflush. case_decide as Hfl.
  - destruct (flush_if_dirty_spec (bi_rw old) st Hs) as (st' & e & -> & Hs' & Hx & Ht).
    rewrite bind_Ok. case_decide.
    + eexists _, _. split; [reflexivity|]. split_and!; [done|done|].
      exists (- EIO). split; [auto|]. simpl. by rewrite Ht.
    + eexists _, _. split; [reflexivity|]. done.
  - eexists _, _. split; [reflexivity|]. split_and!; [done|apply host_extends_refl|done].
Qed.

(** The bios handed to the host device carry the translated data of [old]. *)
Definition redirected (old : bio) (st st' : rstate C FS) (bios : list bio) : Prop :=
  rs_trace st' = rs_trace st ++ (EvSubmit (bi_rw old) LoEndBio <$> bios) ∧
  Forall (λ b, bi_bdev b = Some host_bdev ∧ bi_rw b = bi_rw old) bios ∧
  Forall2 (related (lo_host (rs_lanes st'))) (concat (bio_map <$> bios)) (bio_map old).

Lemma submit_spec old st st' count (nb : option bio) hd :
  0 < total_sectors old → loop_outcome old st st' (Next (count, nb, hd)) →
  ∃ st'' bios, redirect_submit kmalloc_ok old count nb hd st' = Ok st'' ∧ bios ≠ [] ∧
    rs_lanes st'' = rs_lanes st' ∧ redirected old st st'' bios.
Proof.
  intros Htot (Hs & Hx & Ht & Ha & Hm & Hnb). unfold redirect_submit.
  destruct nb as [b|]; [|lia]. destruct Hnb as (Hc & Hb & Hr).
  destruct (decide (count ≠ 0)) as [_|?]; [|lia].
  destruct (send_spec old hd b st' Ha Hb Hr) as (st1 & hd1 & -> & Hl1 & Ht1 & Ha1 & Hp1).
  rewrite bind_Ok. exists (submit_all old hd1 st1), (lb_bio <$> head_list hd1).
  unfold pieces in Hp1. rewrite app_nil_r in Hp1.
  split_and!; [done| |done|].
  - rewrite Hp1. simpl. by destruct (lb_bio <$> head_list hd).
  - split_and!; [|apply Ha1|].
    + simpl. rewrite Ht1, Ht. f_equal. by rewrite <- list_fmap_compose.
    + simpl. rewrite Hl1, Hp1. exact Hm.
Qed.

(** Everything before the final FUA flush. *)
Lemma redirect_spec old st :
  fits old → st_sound st → needs_no_hole old (lo_host (rs_lanes st)) →
  bi_bdev old ≠ None → 0 < total_sectors old →
  (∃ st' v, redirect_bio prefetch_blocks host_bdev uninit kmalloc_ok bio_alloc_ok old st =
      Ok (st', v) ∧ st_sound st' ∧ st_extends st st' ∧ ended st st') ∨
  (∃ st' bios, redirect_bio prefetch_blocks host_bdev uninit kmalloc_ok bio_alloc_ok old st =
      redirect_fua prefetch_blocks uninit old st' ∧ st_sound st' ∧ st_extends st st' ∧
      bios ≠ [] ∧ redirected old st st' bios).
Proof.
  intros Hf Hs Hh Hbd Htot. unfold redirect_bio.
  assert (loop_handle_bio old st = st) as -> by (unfold loop_handle_bio; by destruct (bi_bdev old)).
  unfold kmalloc. rewrite kmalloc_works, bind_Ok.
  destruct (decide (total_sectors old = 0 ∧ _)) as [[??]|_]; [lia|].
  set (st0 := st <| rs_kmallocs ::= S |>).
  destruct (preflush_spec old st0 Hs) as (st1 & r1 & -> & Hs1 & Hx1 & Ht1).
  rewrite bind_Ok. destruct r1 as [v|[]].
  { left. eexists _, _. split; [reflexivity|]. done. }
  destruct (redirect_loop_spec (S (Z.to_nat (total_sectors old))) old 0 0 0
    (Cursor (bi_idx old) 0 0 0) None (LoBioHead 0 0 0 []) st1) as (st2 & r2 & Heq & Hout);
    try done; try lia.
  { by eapply needs_no_hole_mono. }
  { constructor; [|done|by split; [constructor|]|by rewrite take_0|simpl; lia].
    constructor; simpl; [lia|done| |by left]. apply Hf. }
  { rewrite (total_sectors_length old) by apply Hf. lia. }
  rewrite Z.sub_0_r, Z.add_0_r in Heq. rewrite Heq, bind_Ok.
  apply (loop_outcome_trans old st0) in Hout; [|done|done].
  destruct r2 as [v|[[count nb] hd]].
  { left. eexists _, _. split; [reflexivity|]. exact Hout. }
  right. destruct (submit_spec old st0 st2 count nb hd Htot Hout)
    as (st3 & bios & -> & Hne & Hl3 & Hred).
  rewrite bind_Ok. exists st3, bios. destruct Hout as (Hs2 & Hx2 & _).
  unfold st_sound, st_extends. rewrite Hl3. done.
Qed.

End loops.

(** ** Reads of unallocated blocks *)
Section holes.
Context {C FS : Type} `{TranslationCacheOk C} `{HostFSOk FS} `{Printk} `{HostQueue}.
Variable prefetch_blocks : Z.
Hypothesis prefetch_range : 1 ≤ prefetch_blocks < 2 ^ 19.
Hypothesis reported : errors_reported (FS := FS).

(** A lookup on an idle device leaves the block map as it was. *)
Lemma make_request_idle (lo : lanes C FS) blk flag cio :
  lanes_sound lo → lo_cio_list lo = [] → Z.land flag REQ_WRITE = 0 →
  ∃ lo' cio', cio_make_request prefetch_blocks lo blk flag cio = Ok (lo', cio') ∧
    lanes_sound lo' ∧
    (∀ k, block_of (lo_host lo') k = block_of (lo_host lo) k) ∧
    (cio_error cio' = 0 → block_of (lo_host lo) blk = None → cio_blk_phy cio' = 0).
Proof.
  intros Hs Hl Hw. unfold cio_make_request, wait_for_completion.
  set (cio0 := (cio_init cio flag prefetch_blocks) <| cio_blk_local := blk |>).
  assert (cio_enqueue lo cio0 = lo <| lo_cio_list := [cio0] |>) as ->.
  { unfold cio_enqueue. destruct lo as [c h d l]; simpl in *. by subst l. }
  cbn [length lo_cio_list]. rewrite !loop_thread_drain_S. unfold loop_thread_iter at 1.
  change (lo_cio_list (lo <| lo_cio_list := [cio0] |>)) with [cio0]. cbv iota beta.
  unfold handle_cio. rewrite decide_False by (simpl; lia).
  destruct (translate_spec prefetch_blocks prefetch_range reported
      ((lo <| lo_cio_list := [cio0] |>) <| lo_cio_list := [] |>) cio0)
    as (lo' & cio' & Heq & [] & [] & _); [exact Hs|simpl; lia|].
  rewrite Heq. rewrite !bind_Ok. cbn [length]. rewrite loop_thread_drain_S. unfold loop_thread_iter. rewrite pr_list. simpl.
  eexists _, _. split; [reflexivity|]. split; [done|].
  assert (∀ k, block_of (lo_host lo') k = block_of (lo_host lo) k) as Hmap
    by (intros k; by rewrite pr_lookup).
  split; [done|]. intros He Hnone. simpl in sv_answer.
  destruct (decide (cio_blk_phy cio' = 0)) as [?|Hnz]; [done|].
  specialize (sv_answer ltac:(lia) He).
  by rewrite Hmap, Hnone in sv_answer.
Qed.

Lemma translate_hole uninit old blk (st : rstate C FS) :
  st_sound st → lo_cio_list (rs_lanes st) = [] → Z.land (bi_rw old) REQ_WRITE = 0 →
  block_of (lo_host (rs_lanes st)) blk = None →
  ∃ st' r, translate_block prefetch_blocks uninit old blk st = Ok (st', r) ∧ st_sound st' ∧
    match r with
    | Return _ => ended st st'
    | Next p => rs_trace st' = rs_trace st ∧ p = 0
    end.
Proof.
  intros Hs Hl Hw Hnone. unfold translate_block.
  destruct (tc_find_spec (lo_cache (rs_lanes st)) blk) as (r & -> & Hr); [apply Hs|].
  destruct r as [v|].
  { apply Hs in Hr. by rewrite Hnone in Hr. }
  unfold lift. rewrite bind_Ok.
  destruct (decide (default 0 None = 0)) as [_|?]; [|done].
  destruct (make_request_idle (rs_lanes st) blk (bi_rw old) uninit Hs Hl Hw)
    as (lo' & cio' & -> & Hs' & _ & Hz).
  rewrite bind_Ok. destruct (decide (cio_error cio' ≠ 0)) as [He|He].
  - eexists _, _. split; [reflexivity|]. split; [done|]. exists (- EIO). auto.
  - eexists _, _. split; [reflexivity|]. split; [done|]. split; [done|]. apply Hz; [lia|done].
Qed.

End holes.

(** ** Properties *)
Section properties.
Context {C FS : Type} `{TranslationCacheOk C} `{HostFSOk FS} `{Printk} `{HostQueue}.
Implicit Types (st : rstate C FS) (old : bio).

(** C1: a bio with data, in whole sectors and within the limits of a host queue that has no
    [merge_bvec_fn], whose blocks are allocated or which is a write, and without [REQ_FUA],
    on a driver with [prefetch_blocks] between 1 and [2 ^ 19 - 1]: [redirect_bio] either
    ends it once with [-EIO] or [-ENOMEM] and submits nothing, or it submits bios to the host
    device, with the flags of the original, which move exactly the page fragments of the
    original, each to the translation of its sector; it never follows a bad pointer and its
    loops end.  [bio_alloc] may fail at any time, [get_block] too if [printk] comes back from
    the report of the error (it is given an [int] for [%n]); [kmalloc] may not fail (its
    result is used without a test). *)
Theorem redirect_bio_correct (prefetch_blocks host_bdev : Z) (uninit : cio_req)
    (kmalloc_ok bio_alloc_ok : nat → bool) old st :
  1 ≤ prefetch_blocks < 2 ^ 19 → errors_reported (FS := FS) → (∀ n, kmalloc_ok n = true) →
  fits old → st_sound st → needs_no_hole old (lo_host (rs_lanes st)) →
  bi_bdev old ≠ None → 0 < total_sectors old → Z.land (bi_rw old) REQ_FUA = 0 →
  ∃ st' v, redirect_bio prefetch_blocks host_bdev uninit kmalloc_ok bio_alloc_ok old st =
      Ok (st', v) ∧ st_sound st' ∧ st_extends st st' ∧
    (ended st st' ∨ ∃ bios, bios ≠ [] ∧ redirected host_bdev old st st' bios).
Proof.
  intros Hp Hrep Hk Hf Hs Hh Hbd Htot Hfua.
  destruct (redirect_spec prefetch_blocks Hp Hrep host_bdev uninit kmalloc_ok bio_alloc_ok Hk old st)
    as [(st' & v & -> & ? & ? & ?)|(st' & bios & -> & ? & ? & ? & ?)]; try done.
  - eexists _, _. split; [reflexivity|]. eauto.
  - unfold redirect_fua. destruct (decide _) as [?|_]; [done|].
    eexists _, _. split; [reflexivity|]. eauto 10.
Qed.

(** With [REQ_FUA] the flush that follows the submission may fail; the original bio, whose
    completion now belongs to the submitted bios, is then ended by [redirect_bio] as well. *)
Theorem fua_error_ends_twice (prefetch_blocks host_bdev : Z) (uninit : cio_req)
    (kmalloc_ok bio_alloc_ok : nat → bool) old st :
  1 ≤ prefetch_blocks < 2 ^ 19 → errors_reported (FS := FS) → (∀ n, kmalloc_ok n = true) →
  fits old → st_sound st → needs_no_hole old (lo_host (rs_lanes st)) →
  bi_bdev old ≠ None → 0 < total_sectors old → Z.land (bi_rw old) REQ_FUA ≠ 0 →
  (∃ st' v, redirect_bio prefetch_blocks host_bdev uninit kmalloc_ok bio_alloc_ok old st =
      Ok (st', v) ∧ ended st st') ∨
  ∃ st1 bios, bios ≠ [] ∧ redirected host_bdev old st st1 bios ∧
    ∃ st2 e, flush_if_dirty prefetch_blocks uninit (bi_rw old) st1 = Ok (st2, e) ∧
      rs_trace st2 = rs_trace st1 ∧
      redirect_bio prefetch_blocks host_bdev uninit kmalloc_ok bio_alloc_ok old st =
        if decide (e ≠ 0) then Ok (emit (EvEndio e) st2, Some e) else Ok (st2, Some 0).
Proof.
  intros Hp Hrep Hk Hf Hs Hh Hbd Htot Hfua.
  destruct (redirect_spec prefetch_blocks Hp Hrep host_bdev uninit kmalloc_ok bio_alloc_ok Hk old st)
    as [(st' & v & -> & ? & ? & ?)|(st' & bios & -> & Hs' & ? & ? & ?)]; try done.
  - left. eauto.
  - right. exists st', bios. split_and!; try done.
    destruct (flush_if_dirty_spec prefetch_blocks Hp Hrep uninit (bi_rw old) st' Hs')
      as (st2 & e & Hfl & _ & _ & Ht).
    exists st2, e. split_and!; [done|done|]. unfold redirect_fua.
    destruct (decide (Z.land _ _ ≠ 0)) as [_|?]; [|done]. by rewrite Hfl.
Qed.

(** The bio by which [loop_switch] changes the backing file has no device and no data:
    [redirect_bio] switches, drops its reference to the bio and then still reads it and ends
    it. *)
Theorem switch_bio_used_after_put (prefetch_blocks host_bdev : Z) (uninit : cio_req)
    (kmalloc_ok bio_alloc_ok : nat → bool) old st :
  (∀ n, kmalloc_ok n = true) → bi_bdev old = None → bio_segments old = [] →
  Z.land (bi_rw old) (Z.lor REQ_FLUSH REQ_FUA) = 0 →
  ∃ st', redirect_bio prefetch_blocks host_bdev uninit kmalloc_ok bio_alloc_ok old st =
      Ok (st', Some 0) ∧ rs_trace st' = rs_trace st ++ [EvSwitch; EvPut; EvEndio 0].
Proof.
  intros Hk Hbd Hseg Hfl.
  rewrite Z.land_lor_distr_r in Hfl. apply Z.lor_eq_0_iff in Hfl as [Hfl Hfua].
  unfold redirect_bio, loop_handle_bio, kmalloc. rewrite Hbd, Hk, bind_Ok.
  unfold total_sectors. rewrite Hseg.
  destruct (decide (_ ∧ Z.land (bi_rw old) _ ≠ 0)) as [[_ Hne]|_].
  { destruct Hne. by rewrite Z.land_lor_distr_r, Hfl, Hfua. }
  unfold redirect_preflush. destruct (decide (Z.land _ REQ_FLUSH ≠ 0)) as [?|_]; [done|].
  rewrite bind_Ok. cbn [redirect_loop sumZ foldr Z.to_nat].
  destruct (decide (0 < 0)) as [?|_]; [done|]. rewrite bind_Ok. unfold redirect_submit.
  destruct (decide (0 ≠ 0)) as [?|_]; [done|]. rewrite bind_Ok. unfold redirect_fua.
  destruct (decide (Z.land _ REQ_FUA ≠ 0)) as [?|_]; [done|].
  eexists. split; [reflexivity|]. simpl. by rewrite <- !app_assoc.
Qed.

(** A segment of less than one sector makes the inner loop of [redirect_bio] spin for
    ever: no amount of fuel is enough. *)
Theorem sub_sector_segment_spins (host_bdev : Z) (kmalloc_ok bio_alloc_ok : nat → bool)
    (fuel : nat) old phys rem cur nb hd st :
  0 < rem → 0 < c_len cur < 512 →
  fill_block host_bdev kmalloc_ok bio_alloc_ok fuel old phys rem cur nb hd st = NoFuel.
Proof.
  intros Hrem Hlen. revert rem cur nb hd st Hrem Hlen.
  induction fuel as [|fuel IH]; intros rem cur nb hd st Hrem Hlen; [done|].
  cbn [fill_block]. destruct (decide (0 < rem)) as [_|?]; [|lia].
  destruct (decide (c_len cur = 0)) as [?|_]; [lia|]. rewrite bind_Ok.
  assert (c_len cur ≫ 9 = 0) as ->.
  { rewrite Z.shiftr_div_pow2 by lia. apply Z.div_small. lia. }
  destruct (decide (0 < rem)) as [_|?]; [|lia]. change (0 ≪ 9) with 0.
  destruct (bio_add_page nb (c_page cur) 0 (c_offset cur)) as [nb1 ret] eqn:E.
  assert (ret = 0) as ->.
  { revert E. unfold bio_add_page, add_segment, recount.
    repeat first [case_match|case_decide]; intros; simplify_eq; done. }
  destruct (decide (0 ≠ 0)) as [?|_]; [done|]. apply IH; simpl; lia.
Qed.

(** All sectors of a bio, in one block, go to one new bio. *)
Lemma fill_whole host_bdev kmalloc_ok bio_alloc_ok fuel old phys b hd (st : rstate C FS) : fits old → 0 < total_sectors old →
  building host_bdev old b (Cursor (bi_idx old) 0 0 0) → bi_io_vec b = [] → (Z.to_nat (total_sectors old) < fuel)%nat →
  ∃ cur b', fill_block host_bdev kmalloc_ok bio_alloc_ok fuel old phys (total_sectors old) (Cursor (bi_idx old) 0 0 0) b hd st = Ok (st, Next (cur, b', hd)) ∧
    bi_sector b' = bi_sector b ∧ bio_map b' = place (bi_sector b) (vecs_data (bio_segments old)).
Proof.
  intros Hf Htot Hb Hnil Hfuel. set (cur0 := Cursor (bi_idx old) 0 0 0) in *.
  assert (total_sectors old = Z.of_nat (length (vecs_data (bio_segments old)))) as Hlen by apply total_sectors_length, Hf.
  assert (cursor_data old cur0 = vecs_data (bio_segments old)) as Hcd by done.
  destruct (fill_block_spec host_bdev kmalloc_ok bio_alloc_ok fuel old phys (total_sectors old) cur0 b hd st)
    as (cur' & b' & E & _ & Hb' & Hs' & Hv' & _); [done| |done|lia|rewrite Hcd; lia|rewrite Hnil, Hcd; simpl; lia|done|].
  { constructor; simpl; [lia|done|apply Hf|by left]. }
  exists cur', b'. split_and!; [done..|]. rewrite (building_map _ _ _ _ Hb'), Hs', Hv', Hnil, Hcd. simpl. by rewrite take_ge by lia.
Qed.

(** One bio is submitted for a read. *)
Lemma submit_read prefetch_blocks uninit kmalloc_ok old b (st : rstate C FS) : (∀ n, kmalloc_ok n = true) → bi_rw old = READ →
  ∃ st', redirect_submit kmalloc_ok old (0 + 1) (Some b) (LoBioHead 0 0 0 []) st = Ok st' ∧ redirect_fua prefetch_blocks uninit old st' = Ok (st', Some 0) ∧
    rs_trace st' = rs_trace st ++ [EvSubmit READ LoEndBio b].
Proof.
  intros Hk Hrw. unfold redirect_submit. destruct (decide (0 + 1 ≠ 0)) as [_|?]; [|lia].
  unfold lo_send_bio, kmalloc. rewrite Hk, !bind_Ok. eexists. split; [reflexivity|]. unfold redirect_fua. rewrite Hrw.
  change (Z.land READ REQ_FUA) with 0. destruct (decide (0 ≠ 0)) as [?|_]; [done|]. simpl. by rewrite Hrw.
Qed.

(** C40: a read of one block that is not allocated in the image file is not answered with
    zeroes: the driver takes physical block number 0 for an answer and reads the host device's
    first block into the caller's pages, unless it ends the bio with an error ([prefetch_blocks]
    between 1 and [2 ^ 19 - 1], the bio within the limits of the host queue, [kmalloc]
    succeeding, errors of [get_block] reported without a fault). *)
Theorem hole_reads_host_block_0 (prefetch_blocks host_bdev : Z) (uninit : cio_req)
    (kmalloc_ok bio_alloc_ok : nat → bool) old st :
  1 ≤ prefetch_blocks < 2 ^ 19 → errors_reported (FS := FS) → (∀ n, kmalloc_ok n = true) →
  fits old → st_sound st → lo_cio_list (rs_lanes st) = [] → bi_rw old = READ →
  bi_bdev old ≠ None → 0 < total_sectors old →
  total_sectors old ≤ sectors_per_block - bi_sector old mod sectors_per_block →
  block_of (lo_host (rs_lanes st)) (bi_sector old ≫ (i_blkbits - 9)) = None →
  ∃ st' v, redirect_bio prefetch_blocks host_bdev uninit kmalloc_ok bio_alloc_ok old st =
      Ok (st', v) ∧
    (ended st st' ∨ ∃ b, rs_trace st' = rs_trace st ++ [EvSubmit READ LoEndBio b] ∧
      bio_map b = place (bi_sector old mod sectors_per_block) (vecs_data (bio_segments old))).
Proof.
  intros Hp Hrep Hk Hf Hs Hl Hrw Hbd Htot Hone Hnone. unfold redirect_bio.
  assert (loop_handle_bio old st = st) as -> by (unfold loop_handle_bio; by destruct (bi_bdev old)).
  unfold kmalloc. rewrite Hk, bind_Ok.
  destruct (decide (total_sectors old = 0 ∧ _)) as [[??]|_]; [lia|].
  set (st0 := st <| rs_kmallocs ::= S |>).
  unfold redirect_preflush. rewrite Hrw. change (Z.land READ REQ_FLUSH) with 0.
  destruct (decide (0 ≠ 0)) as [?|_]; [done|]. rewrite bind_Ok.
  assert (total_sectors old = Z.of_nat (length (vecs_data (bio_segments old)))) as Hlen
    by apply total_sectors_length, Hf.
  destruct (Z.to_nat (total_sectors old)) as [|n0] eqn:En; [lia|].
  rewrite redirect_loop_S. destruct (decide (0 < total_sectors old)) as [_|?]; [|lia].
  destruct (translate_hole prefetch_blocks Hp Hrep uninit old (bi_sector old ≫ (i_blkbits - 9)) st0)
    as (st1 & r & -> & Hs1 & Hr); [done|done|by rewrite Hrw|done|].
  rewrite !bind_Ok. destruct r as [v|p].
  { eexists _, _. split; [reflexivity|]. by left. }
  destruct Hr as [Ht1 ->]. cbv zeta. rewrite Z.shiftl_0_l, Z.add_0_l.
  set (phys := bi_sector old mod sectors_per_block) in *.
  set (cur0 := Cursor (bi_idx old) 0 0 0).
  unfold next_bio. destruct (decide (0 ≠ 0 ∧ _)) as [[??]|_]; [done|]. rewrite bind_Ok.
  destruct (open_bio_spec prefetch_blocks Hp host_bdev bio_alloc_ok old cur0 phys (LoBioHead 0 0 0 []) st1)
    as (st2 & r & Hopen & Hl2 & Hr); [apply Hf|].
  rewrite Hopen, bind_Ok. clear Hopen. destruct r as [v|[b hd2]].
  { eexists _, _. split; [reflexivity|]. left. unfold ended in *. rewrite Ht1 in Hr. exact Hr. }
  destruct Hr as (Ht2 & -> & Hb & Hsec & Hnil).
  destruct (decide (_ < total_sectors old)) as [?|_]; [lia|].
  subst cur0. destruct (fill_whole host_bdev kmalloc_ok bio_alloc_ok (S (Z.to_nat (total_sectors old) + length (bi_io_vec old))) old phys b
    (LoBioHead 0 0 0 []) st2) as (cur' & b' & -> & Hs' & Hm'); [done..|lia|].
  rewrite bind_Ok, redirect_loop_S. destruct (decide (0 < 0)) as [?|_]; [done|]. rewrite bind_Ok.
  destruct (submit_read prefetch_blocks uninit kmalloc_ok old b' st2) as (st3 & -> & Hfua & Ht3); [done..|]. rewrite bind_Ok, Hfua.
  eexists _, _. split; [reflexivity|]. right. exists b'. rewrite Ht3, Ht2, Ht1. split; [done|]. by rewrite Hm', Hsec.
Qed.

End properties.

(** ** Witnesses *)

(** A host queue of [n] sectors per request. *)
Definition queue_of (n : Z) : HostQueue := {|
  queue_max_sectors := n; queue_max_segments := 128; merge_bvec_fn := None;
  blk_recount_segments b := bi_vcnt b |}.

Definition yes (n : nat) : bool := true.

(** Sectors [s, s + 4) in two segments of two pages. *)
Definition ex_bio (rw s : Z) : bio :=
  Bio s (Some 7) rw [BioVec 100 1024 0; BioVec 101 1024 512] 0 2 2048 2 false.
Definition ex_st : rstate cache toy_fs := RState ex_lanes 0 0 [].

Lemma ex_bio_fits rw s : fits (H := queue_of 1024) (ex_bio rw s).
Proof.
  constructor; try (vm_compute; discriminate || reflexivity).
  repeat constructor; done.
Qed.

Lemma ex_mapped s : 24 ≤ s < 32 → block_of (lo_host (rs_lanes ex_st)) (s ≫ (12 - 9)) = Some 40.
Proof.
  intros Hs. rewrite Z.shiftr_div_pow2 by lia. change (2 ^ (12 - 9)) with 8.
  replace (s / 8) with 3; [reflexivity|]. apply Z.div_unique with (s - 24); lia.
Qed.

Lemma redirect_bio_correct_witness :
  let H := queue_of 1024 in
  ∃ st' v, redirect_bio 2 9 (ex_cio 0 0) yes yes (ex_bio READ 25) ex_st = Ok (st', v) ∧
    st_sound st' ∧
    (concat (bio_map <$> omap (λ e, match e with EvSubmit _ _ b => Some b | _ => None end)
                          (rs_trace st'))).*1 = [321; 322; 323; 324].
Proof.
  intros H.
  destruct (redirect_bio_correct 2 9 (ex_cio 0 0) yes yes (ex_bio READ 25) ex_st)
    as (st' & v & E & Hs & _); try (done || lia || apply ex_bio_fits || apply ex_lanes_sound).
  - right. intros s Hs. rewrite ex_mapped; [done|]. vm_compute in Hs. simpl in Hs.
    change (25 ≤ s < 29) in Hs. lia.
  - exists st', v. split; [exact E|]. split; [exact Hs|].
    revert E. vm_compute. by intros [= <- <-].
Defined.

(** A dirty device whose [vfs_fsync] fails. *)
Definition bad_st : rstate cache bad_fs :=
  RState (bad_lanes <| lo_dirty_state := set_bit LOOP_DIRTY 0 |>) 0 0 [].

Lemma bad_st_sound : st_sound bad_st.
Proof. split; [apply empty_cache_wf|done]. Qed.

Lemma fua_error_ends_twice_witness :
  let H := queue_of 1024 in
  ∃ b, redirect_bio 1 9 (ex_cio 0 0) yes yes (ex_bio (Z.lor WRITE REQ_FUA) 792) bad_st ≫=
         (λ '(st, v), Ok (rs_trace st, v)) =
    Ok ([EvSubmit (Z.lor WRITE REQ_FUA) LoEndBio b; EvEndio (- EIO)], Some (- EIO)).
Proof.
  intros H.
  destruct (fua_error_ends_twice 1 9 (ex_cio 0 0) yes yes (ex_bio (Z.lor WRITE REQ_FUA) 792) bad_st)
    as [(st' & v & E & e & _ & Ht)|(st1 & bios & _ & _ & st2 & e & _ & _ & E)];
    try (done || lia || apply ex_bio_fits || apply bad_st_sound || by left).
  - exfalso. revert E Ht. vm_compute. by intros [= <- <-].
  - eexists. vm_compute. reflexivity.
Defined.

Definition switch_bio : bio := Bio 0 None READ [] 0 0 0 0 false.

Lemma switch_bio_used_after_put_witness :
  let H := queue_of 1024 in
  ∃ st', redirect_bio 2 9 (ex_cio 0 0) yes yes switch_bio ex_st = Ok (st', Some 0) ∧
    rs_trace st' = [EvSwitch; EvPut; EvEndio 0].
Proof. intros H. by apply (switch_bio_used_after_put 2 9 (ex_cio 0 0) yes yes switch_bio ex_st). Defined.

Lemma sub_sector_segment_spins_witness :
  let H := queue_of 1024 in
  fill_block 9 yes yes 1000 (Bio 24 (Some 7) READ [BioVec 100 256 0; BioVec 101 768 0] 0 2 1024 2 false)
    320 1 (Cursor 1 100 0 256) (Bio 320 (Some 9) READ [] 0 2 0 0 false) (LoBioHead 0 0 0 []) ex_st =
  NoFuel.
Proof. intros H. apply sub_sector_segment_spins; simpl; lia. Defined.

Lemma hole_reads_host_block_0_witness :
  let H := queue_of 1024 in
  ∃ st' v b, redirect_bio 1 9 (ex_cio 0 0) yes yes (ex_bio READ 57) ex_st = Ok (st', v) ∧
    rs_trace st' = [EvSubmit READ LoEndBio b] ∧ (bio_map b).*1 = [1; 2; 3; 4].
Proof.
  intros H.
  destruct (hole_reads_host_block_0 1 9 (ex_cio 0 0) yes yes (ex_bio READ 57) ex_st)
    as (st' & v & E & [(e & _ & Ht)|(b & Ht & Hm)]);
    try (done || lia || apply ex_bio_fits || apply ex_lanes_sound).
  - exfalso. revert E Ht. vm_compute. by intros [= <- <-].
  - exists st', v, b. split; [exact E|]. split; [exact Ht|]. rewrite Hm. reflexivity.
Defined.

(** When the host queue refuses a fragment in the middle of a block, the new bio starts at
    the first sector of the block again: with a limit of two sectors per request, the four
    sectors of this bio all go to the first two sectors of their place. *)
Theorem refused_fragment_restarts_block :
  let H := queue_of 2 in
  ∃ b1 b2,
    redirect_bio 2 9 (ex_cio 0 0) yes yes (ex_bio WRITE 24) ex_st ≫= (λ '(st, v), Ok (rs_trace st)) =
      Ok [EvSubmit WRITE LoEndBio b1; EvSubmit WRITE LoEndBio b2] ∧
    bio_map b1 = [(320, (100, 0)); (321, (100, 512))] ∧
    bio_map b2 = [(320, (101, 512)); (321, (101, 1024))] ∧
    bio_map (ex_bio WRITE 24) =
      [(24, (100, 0)); (25, (100, 512)); (26, (101, 512)); (27, (101, 1024))].
Proof. intros H. do 2 eexists. vm_compute. split_and!; reflexivity. Qed.
