(* ===== verification/Completion.v ===== *)
(** * Completion of redirected bios

    Models, from drivers/block/loop.c, [lo_end_bio], [lo_free_bio] and [sync_end_bio].  The
    host device completes the bios of a [struct lo_bio_head] in any order; each completion
    finds its [struct lo_bio] through [bi_private] and the head through it.  The last one
    frees the [lo_bio]s, ends the original bio and frees the head.  Freed objects are tracked,
    so that an access after the end would be an [Oops]. *)
From S2P Require Import Prelude Interfaces Bio BlockCache HostExt3 Translate Redirect.

Inductive cevent :=
  | CePut (k : nat)          (** [bio_put] of new bio number [k] *)
  | CeEndio (error : Z).     (** [bio_endio (head->orig_bio, error)] *)

Record cstate := CState {
  cs_head : option lo_bio_head;   (** [None] once [kfree (head)] *)
  cs_live : gset nat;             (** the [lo_bio]s not yet freed, by position in the list *)
  cs_trace : list cevent;
}.

(** Unlink and free every element of the list; nothing while bios are outstanding. *)
Definition lo_free_bio (hd : lo_bio_head) (st : cstate) : cstate * lo_bio_head :=
  if decide (nr_done hd ≠ nr_total hd) then (st, hd)
  else (st <| cs_live ::= λ l, l ∖ list_to_set (seq 0 (length (head_list hd))) |>,
        hd <| head_list := [] |>).

(** [uptodate] is the flag [BIO_UPTODATE] of the completed bio. *)
Definition lo_end_bio (k : nat) (uptodate : bool) (error : Z) (st : cstate) : res cstate :=
  let error := if decide (error ≠ 0) then error else if uptodate then 0 else - EIO in
  if decide (k ∈ cs_live st) then
    hd ← lift (cs_head st);
    let hd := hd <| nr_done ::= Z.succ |> in
    let hd := if decide (head_error hd = 0) then hd <| head_error := error |> else hd in
    let st := st <| cs_trace ::= λ t, t ++ [CePut k] |> in
    if decide (nr_total hd = nr_done hd) then
      let '(st, hd) := lo_free_bio hd st in
      Ok (st <| cs_trace ::= λ t, t ++ [CeEndio (head_error hd)] |> <| cs_head := None |>)
    else Ok (st <| cs_head := Some hd |>)
  else Oops.

(** The empty flush bio: drop it and end the original with the same error. *)
Definition sync_end_bio (error : Z) (st : cstate) : cstate :=
  st <| cs_trace ::= λ t, t ++ [CePut 0; CeEndio error] |>.

(** A completion as the host device delivers it. *)
Record completion := Completion_ { co_bio : nat; co_uptodate : bool; co_error : Z }.

Definition deliver (st : res cstate) (c : completion) : res cstate :=
  st ≫= lo_end_bio (co_bio c) (co_uptodate c) (co_error c).

Definition co_status (c : completion) : Z :=
  if decide (co_error c ≠ 0) then co_error c else if co_uptodate c then 0 else - EIO.

(** The first error, in the order of completion. *)
Definition first_error (cs : list completion) : Z :=
  default 0 (head (filter (.≠ 0) (co_status <$> cs))).

(** The state once [redirect_bio] has built the list. *)
Definition submitted (hd : lo_bio_head) : cstate :=
  CState (Some hd) (list_to_set (seq 0 (length (head_list hd)))) [].

Definition fresh_head (hd : lo_bio_head) : Prop :=
  nr_total hd = Z.of_nat (length (head_list hd)) ∧ nr_done hd = 0 ∧ head_error hd = 0.

Definition after (hd : lo_bio_head) (cs : list completion) : cstate :=
  CState (Some (hd <| nr_done := Z.of_nat (length cs) |> <| head_error := first_error cs |>))
    (list_to_set (seq 0 (length (head_list hd)))) (CePut ∘ co_bio <$> cs).

Lemma first_error_snoc cs c :
  first_error (cs ++ [c]) = if decide (first_error cs = 0) then co_status c else first_error cs.
Proof.
  unfold first_error. rewrite fmap_app, filter_app.
  destruct (filter (.≠ 0) (co_status <$> cs)) as [|e l] eqn:E.
  - simpl. rewrite filter_cons, filter_nil. repeat case_decide; simpl; naive_solver lia.
  - simpl. assert (e ∈ filter (.≠ 0) (co_status <$> cs)) as He by (rewrite E; left).
    apply list_elem_of_filter in He as [He _]. by rewrite decide_False.
Qed.

Lemma after_nil hd : fresh_head hd → submitted hd = after hd [].
Proof. intros (_ & Hd & He). unfold submitted, after. destruct hd; simpl in *. by subst. Qed.

(** One completion that is not the last. *)
Lemma deliver_step hd cs c :
  fresh_head hd → (S (length cs) < length (head_list hd))%nat →
  (co_bio c < length (head_list hd))%nat →
  deliver (Ok (after hd cs)) c = Ok (after hd (cs ++ [c])).
Proof.
  intros (Ht & _ & _) Hlen Hc. unfold deliver. rewrite bind_Ok. unfold lo_end_bio.
  rewrite decide_True by (simpl; apply elem_of_list_to_set, elem_of_seq; lia).
  cbn [after cs_head lift]. rewrite bind_Ok. fold (co_status c).
  set (hd1 := (hd <| nr_done := _ |>) <| head_error := _ |>).
  rewrite decide_False.
  2:{ case_decide; simpl; rewrite Ht; lia. }
  unfold after. f_equal. simpl. rewrite fmap_app, length_app, first_error_snoc. f_equal. f_equal.
  simpl. repeat case_decide; simpl in *; try done;
    by replace (Z.of_nat (length cs + 1)) with (Z.succ (Z.of_nat (length cs))) by lia.
Qed.

Lemma deliver_all hd cs :
  fresh_head hd → (length cs < length (head_list hd))%nat →
  Forall (λ c, co_bio c < length (head_list hd))%nat cs →
  foldl deliver (Ok (submitted hd)) cs = Ok (after hd cs).
Proof.
  intros Hf. induction cs as [|c cs IH] using rev_ind; intros Hlen Hcs.
  - simpl. by rewrite (after_nil hd).
  - rewrite length_app in Hlen. simpl in Hlen. apply Forall_app in Hcs as [Hcs Hc].
    apply (proj1 (Forall_singleton _ _)) in Hc. rewrite foldl_app, IH by (done || lia). simpl.
    apply deliver_step; [done|lia|exact Hc].
Qed.

(** C2: whatever the order in which the host device completes the redirected bios and
    whatever their errors, the original bio is ended exactly once, by the last completion,
    with the first error reported; every new bio is released once, every [lo_bio] and the
    head are freed, and no freed object is touched. *)
Theorem completion_ends_once (hd : lo_bio_head) (cs : list completion) :
  fresh_head hd → head_list hd ≠ [] →
  co_bio <$> cs ≡ₚ seq 0 (length (head_list hd)) →
  foldl deliver (Ok (submitted hd)) cs =
    Ok (CState None ∅ ((CePut ∘ co_bio <$> cs) ++ [CeEndio (first_error cs)])).
Proof.
  intros Hf Hne Hp.
  assert (length cs = length (head_list hd)) as Hlen.
  { apply Permutation_length in Hp. by rewrite length_fmap, length_seq in Hp. }
  assert (Forall (λ c, co_bio c < length (head_list hd))%nat cs) as Hcs.
  { apply Forall_forall. intros c Hc.
    assert (co_bio c ∈ seq 0 (length (head_list hd))) as Hin%elem_of_seq; [|lia].
    rewrite <- Hp. by apply list_elem_of_fmap_2. }
  destruct (last_inv cs) as [->|(cs' & c & ->)].
  { by destruct (head_list hd). }
  rewrite length_app in Hlen. simpl in Hlen. apply Forall_app in Hcs as [Hcs Hc].
  apply (proj1 (Forall_singleton _ _)) in Hc. rewrite foldl_app, deliver_all by (done || lia). cbn [foldl].
  cbn beta in Hc. unfold deliver. rewrite bind_Ok. unfold lo_end_bio.
  rewrite decide_True by (simpl; apply elem_of_list_to_set, elem_of_seq; lia).
  cbn [after cs_head lift]. rewrite bind_Ok. fold (co_status c).
  destruct Hf as (Ht & _ & _).
  rewrite decide_True by (case_decide; simpl; rewrite Ht; lia).
  unfold lo_free_bio. rewrite decide_False by (case_decide; simpl; rewrite Ht; lia).
  rewrite first_error_snoc, fmap_app. f_equal. unfold set. simpl. f_equal.
  - case_decide; simpl; apply leibniz_equiv; set_solver.
  - do 2 f_equal. simpl. repeat case_decide; simpl in *; done.
Qed.

(** Three bios completed in the order 2, 0, 1: the second completion fails. *)
Lemma completion_ends_once_witness :
  let hd := LoBioHead 3 0 0 (replicate 3 (LoBio (ex_bio WRITE 24) 2048)) in
  foldl deliver (Ok (submitted hd))
    [Completion_ 2 true 0; Completion_ 0 false 0; Completion_ 1 true (- ENOMEM)] =
  Ok (CState None ∅ [CePut 2; CePut 0; CePut 1; CeEndio (- EIO)]).
Proof.
  intros hd. apply (completion_ends_once hd); [by split_and!|done|].
  simpl. transitivity [0; 2; 1]%nat; [apply Permutation_swap|]. do 2 constructor.
Defined.
