(* ===== verification/Transfer.v ===== *)
(** * Transfer functions and the file-backed path

    Models, from drivers/block/loop.c, [transfer_none], [transfer_xor], [xor_init],
    [lo_do_transfer], [__do_lo_send_write], [do_lo_send_direct_write], [do_lo_send_write],
    [lo_send], [lo_splice_actor], [loop_add_bio], [loop_get_bio], [do_bio_filebacked] and
    [cpu_bound].  Pages are byte lists in a memory shared by raw and loop pages; the write,
    fsync and fallocate methods of the backing file are parameters (class [BackingFile]). *)
From S2P Require Import Prelude Interfaces Bio BlockCache HostExt3 Translate Redirect.

(** ** Pages *)
Abbreviation mem := (gmap Z (list Z)).

Definition load (m : mem) (page off : Z) : res Z :=
  p ← lift (m !! page); if decide (0 ≤ off) then lift (p !! Z.to_nat off) else Oops.

Definition store (m : mem) (page off v : Z) : res mem :=
  p ← lift (m !! page);
  if decide (0 ≤ off < Z.of_nat (length p)) then Ok (<[page := <[Z.to_nat off := v]> p]> m) else Oops.

(** The bytes [off, off + n) of a page. *)
Fixpoint load_bytes (n : nat) (m : mem) (page off : Z) : res (list Z) :=
  match n with
  | O => Ok []
  | S n => b ← load m page off; l ← load_bytes n m page (off + 1); Ok (b :: l)
  end.

(** ** Transfer functions *)
Definition LO_KEY_SIZE : Z := 32.
Definition PAGE_SIZE : Z := 4096.

(** The transfer functions of the driver, and those registered by other modules. *)
Inductive xfer := XferNone | XferXor | XferExt (n : nat).

#[global] Instance xfer_eq_dec : EqDecision xfer.
Proof. solve_decision. Defined.

(** [memcpy (dst, src, n)], byte by byte. *)
Fixpoint memcpy (n : nat) (src soff dst doff : Z) (m : mem) : res mem :=
  match n with
  | O => Ok m
  | S n =>
      b ← load m src soff; m ← store m dst doff b;
      memcpy n src (soff + 1) dst (doff + 1) m
  end.

Definition transfer_none (cmd rpage roff lpage loff : Z) (size : nat) (m : mem) : res mem :=
  if decide (cmd = READ) then memcpy size rpage roff lpage loff m
  else memcpy size lpage loff rpage roff m.

(** The loop of [transfer_xor] from byte [i]: [key[(i & 511) % keysize]]; a key size of 0
    divides by zero. *)
Fixpoint xor_loop (n : nat) (key : list Z) (keysize i : Z) (src soff dst doff : Z) (m : mem)
    : res mem :=
  match n with
  | O => Ok m
  | S n =>
      if decide (keysize = 0) then Oops else
      k ← lift (key !! Z.to_nat (Z.rem (Z.land i 511) keysize));
      b ← load m src soff;
      m ← store m dst doff (Z.lxor b k);
      xor_loop n key keysize (i + 1) src (soff + 1) dst (doff + 1) m
  end.

Definition transfer_xor (key : list Z) (keysize cmd rpage roff lpage loff : Z) (size : nat)
    (m : mem) : res mem :=
  if decide (cmd = READ) then xor_loop size key keysize 0 rpage roff lpage loff m
  else xor_loop size key keysize 0 lpage loff rpage roff m.

Definition xor_init (key_size : Z) : Z := if decide (key_size ≤ 0) then - EINVAL else 0.

Section paths.
Context {C FS : Type} `{TranslationCache C} `{HostFS FS} `{Printk} `{HostQueue}.
(** Transfer functions of other modules: number, command, pages, size, sector. *)
Variable ext_transfer : nat → Z → Z → Z → Z → Z → nat → Z → mem → res (mem * Z).

(** The fields of [struct loop_device] these functions use. *)
Record crypt := Crypt {
  cr_transfer : option xfer;
  cr_key : list Z;
  cr_key_size : Z;
  cr_offset : Z;
}.

Definition lo_do_transfer (lo : crypt) (cmd rpage roffs lpage loffs : Z) (size : nat)
    (rblock : Z) (m : mem) : res (mem * Z) :=
  match cr_transfer lo with
  | None => Ok (m, 0)
  | Some XferNone => m ← transfer_none cmd rpage roffs lpage loffs size m; Ok (m, 0)
  | Some XferXor =>
      m ← transfer_xor (cr_key lo) (cr_key_size lo) cmd rpage roffs lpage loffs size m; Ok (m, 0)
  | Some (XferExt n) => ext_transfer n cmd rpage roffs lpage loffs size rblock m
  end.

(** ** Writing to the backing file *)
Class BackingFile (F : Type) := {
  (** [file->f_op->write (file, buf, len, &pos)] *)
  f_op_write : F → list Z → Z → F * Z;
  f_op_fsync : F → F * Z;
  (** [None] when the file has no [fallocate] method; arguments: mode, offset, length *)
  f_op_fallocate : option (F → Z → Z → Z → F * Z);
  bf_byte : F → Z → Z;
}.

Context {F : Type} `{BackingFile F}.

Definition __do_lo_send_write (f : F) (buf : list Z) (pos : Z) : F * Z :=
  let '(f, bw) := f_op_write f buf pos in
  if decide (bw = Z.of_nat (length buf)) then (f, 0)
  else (f, if decide (0 ≤ bw) then - EIO else bw).

Definition do_lo_send_direct_write (v : bio_vec) (pos : Z) (m : mem) (f : F) : res (F * Z) :=
  buf ← load_bytes (Z.to_nat (bv_len v)) m (bv_page v) (bv_offset v);
  Ok (__do_lo_send_write f buf pos).

(** [page] is the bounce page. *)
Definition do_lo_send_write (lo : crypt) (v : bio_vec) (pos page : Z) (m : mem) (f : F)
    : res (mem * F * Z) :=
  '(m, ret) ← lo_do_transfer lo WRITE page 0 (bv_page v) (bv_offset v) (Z.to_nat (bv_len v))
                (pos ≫ 9) m;
  if decide (ret = 0) then
    buf ← load_bytes (Z.to_nat (bv_len v)) m page 0;
    let '(f, ret) := __do_lo_send_write f buf pos in Ok (m, f, ret)
  else Ok (m, f, if decide (0 < ret) then - EIO else ret).

(** [bio_for_each_segment], left at the first error. *)
Fixpoint send_segments (lo : crypt) (bounce : option Z) (l : list bio_vec) (pos : Z) (m : mem)
    (f : F) : res (mem * F * Z) :=
  match l with
  | [] => Ok (m, f, 0)
  | v :: l =>
      '(m, f, ret) ← match bounce with
                     | Some page => do_lo_send_write lo v pos page m f
                     | None => '(f, ret) ← do_lo_send_direct_write v pos m f; Ok (m, f, ret)
                     end;
      if decide (ret < 0) then Ok (m, f, ret)
      else match l with
           | [] => Ok (m, f, ret)
           | _ => send_segments lo bounce l (pos + bv_len v) m f
           end
  end.

(** [page] is the page [alloc_page] returns, if any. *)
Definition lo_send (lo : crypt) (b : bio) (pos : Z) (page : option Z) (m : mem) (f : F)
    : res (mem * F * Z) :=
  if decide (cr_transfer lo ≠ Some XferNone) then
    match page with
    | None => Ok (m, f, - ENOMEM)
    | Some p => send_segments lo (Some p) (bio_segments b) pos m f
    end
  else send_segments lo None (bio_segments b) pos m f.

(** ** Reading through splice: one pipe buffer *)
Record lo_read_data := LoReadData { rd_page : Z; rd_offset : Z; rd_bsize : Z }.

Definition lo_splice_actor (lo : crypt) (page index offset len : Z) (p : lo_read_data) (m : mem)
    : res (mem * lo_read_data * Z) :=
  let IV := (index ≪ (12 - 9)) + (offset ≫ 9) in
  let size := if decide (rd_bsize p < len) then rd_bsize p else len in
  '(m, ret) ← lo_do_transfer lo READ page offset (rd_page p) (rd_offset p) (Z.to_nat size) IV m;
  let size := if decide (ret ≠ 0) then - EINVAL else size in
  Ok (m, if decide (0 < size) then p <| rd_offset ::= Z.add size |> else p, size).

(** ** The file-backed request *)
Definition FALLOC_FL_KEEP_SIZE : Z := 1.
Definition FALLOC_FL_PUNCH_HOLE : Z := 2.

Variable prefetch_blocks host_bdev : Z.
Variable uninit : cio_req.
Variables kmalloc_ok bio_alloc_ok : nat → bool.

Record fstate := FState {
  fst_file : F;
  fst_mem : mem;
  fst_redirect : rstate C FS;
}.

(** An error of [vfs_fsync] other than [-EINVAL] counts as [-EIO]. *)
Definition fsync_status (ret : Z) : Z := if decide (ret ≠ 0 ∧ ret ≠ - EINVAL) then - EIO else ret.

Definition do_discard (lo : crypt) (b : bio) (pos : Z) (f : F) : F * Z :=
  match f_op_fallocate with
  | None => (f, - EOPNOTSUPP)
  | Some fallocate =>
      if decide (cr_key_size lo ≠ 0) then (f, - EOPNOTSUPP) else
      let '(f, ret) := fallocate f (Z.lor FALLOC_FL_PUNCH_HOLE FALLOC_FL_KEEP_SIZE) pos (bi_size b) in
      (f, if decide (ret ≠ 0 ∧ ret ≠ - EINVAL ∧ ret ≠ - EOPNOTSUPP) then - EIO else ret)
  end.

Definition do_bio_filebacked (lo : crypt) (page : option Z) (b : bio) (st : fstate)
    : res (fstate * option Z) :=
  let pos := (bi_sector b ≪ 9) + cr_offset lo in
  if decide (bio_rw b = WRITE) then
    let '(f, ret) := if decide (Z.land (bi_rw b) REQ_FLUSH ≠ 0)
                     then f_op_fsync (fst_file st) else (fst_file st, 0) in
    let st := st <| fst_file := f |> in
    if decide (ret ≠ 0 ∧ ret ≠ - EINVAL) then Ok (st, Some (- EIO)) else
    if decide (Z.land (bi_rw b) REQ_DISCARD ≠ 0) then
      let '(f, ret) := do_discard lo b pos (fst_file st) in Ok (st <| fst_file := f |>, Some ret)
    else
      '(m, f, ret) ← lo_send lo b pos page (fst_mem st) (fst_file st);
      let st := st <| fst_mem := m |> <| fst_file := f |> in
      if decide (Z.land (bi_rw b) REQ_FUA ≠ 0 ∧ ret = 0) then
        let '(f, ret) := f_op_fsync (fst_file st) in
        Ok (st <| fst_file := f |>, Some (fsync_status ret))
      else Ok (st, Some ret)
  else
    '(r, v) ← redirect_bio prefetch_blocks host_bdev uninit kmalloc_ok bio_alloc_ok b
                (fst_redirect st);
    Ok (st <| fst_redirect := r |>, v).

End paths.

(** ** The pending list *)
Record bio_queue := BioQueue { lo_bio_list : list bio; lo_bio_count : Z }.

Definition loop_add_bio (b : bio) (q : bio_queue) : bio_queue :=
  q <| lo_bio_count ::= λ n, wrapu 32 (n + 1) |> <| lo_bio_list ::= λ l, l ++ [b] |>.

Definition loop_get_bio (q : bio_queue) : bio_queue * option bio :=
  match lo_bio_list q with
  | [] => (q, None)
  | b :: l => (q <| lo_bio_list := l |> <| lo_bio_count ::= λ n, wrapu 32 (n - 1) |>, Some b)
  end.

(** ** Binding the thread: the CPU mask given to [set_cpus_allowed_ptr], if it is called *)
Fixpoint cpumask_upto (n : nat) : Z :=
  match n with O => 0 | S n => Z.lor (cpumask_upto n) (Z.shiftl 1 (Z.of_nat n)) end.

Definition cpu_bound (num : Z) : option Z :=
  if decide (num = 0) then None else Some (cpumask_upto (Z.to_nat num)).

(** ** Lemmas *)
Section transfer_lemmas.
Implicit Types (m : mem) (key : list Z).

Lemma load_insert_ne m page page' off p :
  page ≠ page' → load (<[page' := p]> m) page off = load m page off.
Proof. intros. unfold load. by rewrite lookup_insert_ne. Qed.

Lemma store_Ok m page off v b :
  load m page off = Ok b →
  ∃ m', store m page off v = Ok m' ∧ load m' page off = Ok v ∧
    (∀ page' off', page' ≠ page ∨ off' ≠ off → load m' page' off' = load m page' off').
Proof.
  unfold load, store. destruct (m !! page) as [p|] eqn:E; [|done]. simpl.
  case_decide as Ho; [|done]. intros Hb.
  destruct (p !! Z.to_nat off) as [x|] eqn:Ep; [|done]. apply lookup_lt_Some in Ep.
  rewrite decide_True by lia. eexists. split; [reflexivity|]. split.
  - rewrite lookup_insert_eq. simpl. by rewrite list_lookup_insert_eq.
  - intros page' off' Hne. destruct (decide (page' = page)) as [->|Hp].
    + rewrite lookup_insert_eq, E. simpl. destruct Hne as [?|Hne]; [done|].
      case_decide; [|done]. rewrite list_lookup_insert_ne; [done|]. lia.
    + by rewrite lookup_insert_ne by done.
Qed.

(** The byte of the key used for byte [i]. *)
Definition key_byte key (keysize i : Z) : option Z :=
  key !! Z.to_nat (Z.rem (Z.land i 511) keysize).

Lemma key_byte_Some key keysize i :
  0 < keysize ≤ Z.of_nat (length key) → ∃ k, key_byte key keysize i = Some k.
Proof.
  intros Hk. unfold key_byte. apply lookup_lt_is_Some_2.
  assert (0 ≤ Z.land i 511) by (apply Z.land_nonneg; lia).
  pose proof (Z.rem_bound_pos (Z.land i 511) keysize). lia.
Qed.

(** [transfer_xor] between two pages: every byte of the range is xored, nothing else is
    written. *)
Lemma xor_loop_spec key keysize n i src soff dst doff m :
  0 < keysize ≤ Z.of_nat (length key) → src ≠ dst →
  (∀ j, 0 ≤ j < Z.of_nat n → ∃ b, load m src (soff + j) = Ok b) →
  (∀ j, 0 ≤ j < Z.of_nat n → ∃ b, load m dst (doff + j) = Ok b) →
  ∃ m', xor_loop n key keysize i src soff dst doff m = Ok m' ∧
    (∀ j b k, 0 ≤ j < Z.of_nat n → load m src (soff + j) = Ok b →
      key_byte key keysize (i + j) = Some k → load m' dst (doff + j) = Ok (Z.lxor b k)) ∧
    (∀ page off, page ≠ dst ∨ ¬ (doff ≤ off < doff + Z.of_nat n) → load m' page off = load m page off).
Proof.
  intros Hk Hne. revert i soff doff m. induction n as [|n IH]; intros i soff doff m Hs Hd.
  { exists m. split; [done|]. split; [lia|done]. }
  cbn [xor_loop]. rewrite decide_False by lia.
  destruct (key_byte_Some key keysize i Hk) as [k Hkb]. unfold key_byte in Hkb.
  rewrite Hkb. unfold lift at 1. rewrite bind_Ok.
  destruct (Hs 0) as [b Hb]; [lia|]. destruct (Hd 0) as [b' Hb']; [lia|].
  rewrite Z.add_0_r in Hb, Hb'. rewrite Hb, bind_Ok.
  destruct (store_Ok m dst doff (Z.lxor b k) b' Hb') as (m1 & -> & Hm1 & Hm1'). rewrite bind_Ok.
  assert (∀ off, load m1 src off = load m src off) as Hsrc by (intros; apply Hm1'; by left).
  destruct (IH (i + 1) (soff + 1) (doff + 1) m1) as (m' & -> & Hx & Hu).
  { intros j Hj. rewrite Hsrc. destruct (Hs (1 + j)) as [x Hx]; [lia|].
    exists x. by rewrite <- Z.add_assoc. }
  { intros j Hj. destruct (Hd (1 + j)) as [x Hx]; [lia|]. exists x.
    rewrite Hm1' by (right; lia). by rewrite <- Z.add_assoc. }
  exists m'. split; [done|]. split.
  - intros j x kj Hj Hxj Hkj. destruct (decide (j = 0)) as [->|Hj0].
    + rewrite Z.add_0_r in *. rewrite Hu by (right; lia).
      unfold key_byte in Hkj. rewrite Hb in Hxj. by simplify_eq.
    + replace (doff + j) with (doff + 1 + (j - 1)) by lia. apply Hx; [lia| |].
      * rewrite Hsrc. by replace (soff + 1 + (j - 1)) with (soff + j) by lia.
      * by replace (i + 1 + (j - 1)) with (i + j) by lia.
  - intros page off Hoff. rewrite Hu by lia. apply Hm1'. destruct Hoff; [by left|right; lia].
Qed.

Lemma load_bytes_ext n m m' page off page' off' :
  (∀ j, 0 ≤ j < Z.of_nat n → load m' page' (off' + j) = load m page (off + j)) →
  load_bytes n m' page' off' = load_bytes n m page off.
Proof.
  revert off off'. induction n as [|n IH]; intros off off' Hl; [done|]. cbn [load_bytes].
  pose proof (Hl 0 ltac:(lia)) as H0. rewrite !Z.add_0_r in H0. rewrite H0.
  rewrite (IH (off + 1) (off' + 1)); [done|]. intros j Hj.
  rewrite <- !Z.add_assoc. apply Hl. lia.
Qed.

Lemma load_bytes_load n m page off l :
  load_bytes n m page off = Ok l → ∀ j, 0 ≤ j < Z.of_nat n → ∃ b, load m page (off + j) = Ok b.
Proof.
  revert off l. induction n as [|n IH]; intros off l Hl j Hj; [lia|]. cbn [load_bytes] in Hl.
  apply res_bind_Ok in Hl as (b & Hb & Hl). apply res_bind_Ok in Hl as (l' & Hl' & _).
  destruct (decide (j = 0)) as [->|Hj0].
  - exists b. by rewrite Z.add_0_r.
  - destruct (IH _ _ Hl' (j - 1)) as [x Hx]; [lia|]. exists x. rewrite <- Hx. f_equal. lia.
Qed.

End transfer_lemmas.

(** The xor transfer is its own inverse: what a write puts into the raw page, a read of
    the same range brings back, for any key of 1 to 32 bytes, and neither touches a byte
    outside its destination. *)
Theorem transfer_xor_roundtrip (key : list Z) (keysize rpage roff lpage loff lpage' loff' : Z)
    (n : nat) (m : mem) (data raw buf : list Z) :
  0 < keysize ≤ Z.of_nat (length key) → lpage ≠ rpage → lpage' ≠ rpage →
  load_bytes n m lpage loff = Ok data → load_bytes n m rpage roff = Ok raw →
  load_bytes n m lpage' loff' = Ok buf →
  ∃ m1 m2, transfer_xor key keysize WRITE rpage roff lpage loff n m = Ok m1 ∧
    transfer_xor key keysize READ rpage roff lpage' loff' n m1 = Ok m2 ∧
    load_bytes n m2 lpage' loff' = Ok data ∧
    (∀ page off, page ≠ rpage → load m1 page off = load m page off).
Proof.
  intros Hk Hne Hne' Hd Hr Hb. unfold transfer_xor.
  destruct (decide (WRITE = READ)) as [?|_]; [done|]. destruct (decide (READ = READ)) as [_|?]; [|done].
  destruct (xor_loop_spec key keysize n 0 lpage loff rpage roff m) as (m1 & -> & Hx1 & Hu1);
    [done|done|by eapply load_bytes_load|by eapply load_bytes_load|].
  assert (∀ page off, page ≠ rpage → load m1 page off = load m page off) as Hk1
    by (intros; apply Hu1; by left).
  destruct (xor_loop_spec key keysize n 0 rpage roff lpage' loff' m1) as (m2 & Hm2 & Hx2 & Hu2).
  { done. } { done. }
  { intros j Hj. destruct (load_bytes_load _ _ _ _ _ Hd j Hj) as [b Hbj].
    destruct (key_byte_Some key keysize (0 + j) Hk) as [k Hkj]. eauto. }
  { intros j Hj. rewrite Hk1 by done. by eapply load_bytes_load. }
  exists m1, m2. split_and!; [done|done| |done].
  rewrite <- Hd. apply load_bytes_ext. intros j Hj.
  destruct (load_bytes_load _ _ _ _ _ Hd j Hj) as [b Hbj].
  destruct (key_byte_Some key keysize (0 + j) Hk) as [k Hkj].
  rewrite Hbj. erewrite Hx2; [|done| |exact Hkj]; [|by eapply Hx1].
  by rewrite Z.lxor_assoc, Z.lxor_nilpotent, Z.lxor_0_r.
Qed.

Lemma transfer_xor_roundtrip_witness :
  ∃ m1 m2, transfer_xor [7; 9] 2 WRITE 1 1 2 0 3 {[1 := [0; 0; 0; 0]; 2 := [65; 66; 67]]} = Ok m1 ∧
    transfer_xor [7; 9] 2 READ 1 1 2 0 3 m1 = Ok m2 ∧ load_bytes 3 m2 2 0 = Ok [65; 66; 67] ∧
    load_bytes 4 m1 1 0 = Ok [0; 70; 75; 68].
Proof.
  destruct (transfer_xor_roundtrip [7; 9] 2 1 1 2 0 2 0 3
    {[1 := [0; 0; 0; 0]; 2 := [65; 66; 67]]} [65; 66; 67] [0; 0; 0] [65; 66; 67])
    as (m1 & m2 & H1 & H2 & H3 & _); try done; try (simpl; lia).
  exists m1, m2. split; [exact H1|]. split; [exact H2|]. split; [exact H3|].
  revert H1. vm_compute. by intros [= <-].
Defined.

(** ** The direct write path *)

(** What a full write does, as documented for [write]. *)
Class BackingFileOk (F : Type) `{BackingFile F} := {
  write_full (f : F) buf pos f' :
    f_op_write f buf pos = (f', Z.of_nat (length buf)) →
    ∀ k, bf_byte f' k =
      if decide (pos ≤ k < pos + Z.of_nat (length buf))
      then buf !!! Z.to_nat (k - pos) else bf_byte f k;
}.

Section send.
Context {F : Type} `{BackingFileOk F}.
Variable ext_transfer : nat → Z → Z → Z → Z → Z → nat → Z → mem → res (mem * Z).

(** The data of a list of segments. *)
Fixpoint segments_bytes (m : mem) (l : list bio_vec) : res (list Z) :=
  match l with
  | [] => Ok []
  | v :: l =>
      b ← load_bytes (Z.to_nat (bv_len v)) m (bv_page v) (bv_offset v);
      r ← segments_bytes m l; Ok (b ++ r)
  end.

Lemma load_bytes_length n m page off l : load_bytes n m page off = Ok l → length l = n.
Proof.
  revert off l. induction n as [|n IH]; intros off l Hl; cbn [load_bytes] in Hl; [by simplify_eq|].
  apply res_bind_Ok in Hl as (b & _ & Hl). apply res_bind_Ok in Hl as (l' & Hl' & [= <-]).
  simpl. by rewrite (IH _ _ Hl').
Qed.

(** [data] written at [pos]. *)
Definition written (f f' : F) (data : list Z) (pos : Z) : Prop :=
  ∀ k, bf_byte f' k = if decide (pos ≤ k < pos + Z.of_nat (length data))
                      then data !!! Z.to_nat (k - pos) else bf_byte f k.

Lemma written_nil f pos : written f f [] pos.
Proof. intros k. rewrite decide_False; [done|simpl; lia]. Qed.

Lemma written_app f1 f2 f3 d1 d2 pos :
  written f1 f2 d1 pos → written f2 f3 d2 (pos + Z.of_nat (length d1)) →
  written f1 f3 (d1 ++ d2) pos.
Proof.
  intros H1 H2 k. rewrite H2, H1, length_app.
  destruct (decide (pos + Z.of_nat (length d1) ≤ k < _)) as [Ha|Ha].
  - rewrite decide_True by lia. rewrite lookup_total_app_r by lia. f_equal. lia.
  - destruct (decide (pos ≤ k < pos + Z.of_nat (length d1))) as [Hb|Hb].
    + rewrite decide_True by lia. by rewrite lookup_total_app_l by lia.
    + by rewrite decide_False by lia.
Qed.

Lemma send_write_spec f buf pos :
  ∃ f' ret, __do_lo_send_write f buf pos = (f', ret) ∧
    (ret = 0 ∧ written f f' buf pos ∨ ret < 0).
Proof.
  unfold __do_lo_send_write. destruct (f_op_write f buf pos) as [f' bw] eqn:E.
  case_decide as Hbw.
  - exists f', 0. split; [done|]. left. split; [done|]. subst bw.
    intros k. by apply write_full.
  - eexists _, _. split; [reflexivity|]. right. case_decide; unfold EIO; lia.
Qed.

Lemma send_segments_spec lo l pos m f data :
  Forall (λ v, 0 ≤ bv_len v) l → segments_bytes m l = Ok data →
  ∃ f' ret, send_segments ext_transfer lo None l pos m f = Ok (m, f', ret) ∧
    (ret = 0 ∧ written f f' data pos ∨ ret < 0).
Proof.
  intros Hl. revert pos f data. induction Hl as [|v l Hv Hl IH]; intros pos f data Hd.
  { simpl in Hd. simplify_eq. exists f, 0. split; [done|]. left. auto using written_nil. }
  cbn [segments_bytes] in Hd. apply res_bind_Ok in Hd as (b & Hb & Hd).
  apply res_bind_Ok in Hd as (r & Hr & [= <-]).
  cbn [send_segments]. unfold do_lo_send_direct_write. rewrite Hb, !bind_Ok.
  destruct (send_write_spec f b pos) as (f1 & ret & -> & Hret). rewrite !bind_Ok.
  assert (Z.of_nat (length b) = bv_len v) as Hlen by (rewrite (load_bytes_length _ _ _ _ _ Hb); lia).
  destruct (decide (ret < 0)) as [?|Hge].
  { eexists _, _. split; [reflexivity|]. by right. }
  destruct Hret as [[-> Hw]|?]; [|lia].
  destruct l as [|v' l'].
  { eexists _, _. split; [reflexivity|]. left. split; [done|]. simpl in Hr. simplify_eq.
    by rewrite app_nil_r. }
  destruct (IH (pos + bv_len v) f1 r Hr) as (f' & ret & -> & [[-> Hw']|?]).
  - eexists _, _. split; [reflexivity|]. left. split; [done|].
    eapply written_app; [done|]. by rewrite Hlen.
  - eexists _, _. split; [reflexivity|]. by right.
Qed.

End send.

(** C29: on a device without a transfer function ([XferNone]; the xor and the external ones write
    transformed data), [lo_send] writes the data of the bio's segments, in order,
    at [pos] of the backing file and nothing else, or reports a negative error. *)
Theorem lo_send_correct {F : Type} `{BackingFileOk F}
    (ext_transfer : nat → Z → Z → Z → Z → Z → nat → Z → mem → res (mem * Z))
    (lo : crypt) (b : bio) (pos : Z) (page : option Z) (m : mem) (f : F) (data : list Z) :
  cr_transfer lo = Some XferNone → Forall (λ v, 0 ≤ bv_len v) (bio_segments b) →
  segments_bytes m (bio_segments b) = Ok data →
  ∃ f' ret, lo_send ext_transfer lo b pos page m f = Ok (m, f', ret) ∧
    (ret = 0 ∧ written f f' data pos ∨ ret < 0).
Proof.
  intros Hx Hl Hd. unfold lo_send. rewrite Hx.
  destruct (decide (Some XferNone ≠ Some XferNone)) as [?|_]; [done|].
  by apply send_segments_spec.
Qed.

(** A file whose writes are full as long as they end before byte 10. *)
#[local] Instance small_file : BackingFile (Z → Z) := {
  f_op_write f buf pos :=
    if decide (pos + Z.of_nat (length buf) ≤ 10) then
      (λ k, if decide (pos ≤ k < pos + Z.of_nat (length buf))
            then buf !!! Z.to_nat (k - pos) else f k, Z.of_nat (length buf))
    else (f, - EFBIG);
  f_op_fsync f := (f, 0);
  f_op_fallocate := None;
  bf_byte f := f;
}.

#[local] Instance small_file_ok : BackingFileOk (Z → Z).
Proof. split. simpl. intros f buf pos f'. case_decide; intros Hw; [by injection Hw as <-|].
  injection Hw as _ Hw. unfold EFBIG in *. lia.
Qed.

Lemma lo_send_correct_witness :
  let m := {[1 := [65; 66; 67]; 2 := [68; 69]]} in
  let b := Bio 0 None WRITE [BioVec 1 2 1; BioVec 2 1 0] 0 2 3 2 false in
  ∃ f' : Z → Z, lo_send (λ _ _ _ _ _ _ _ _ m, Ok (m, 0)) (Crypt (Some XferNone) [] 0 0) b 4 None m
      (λ _, 0) = Ok (m, f', 0) ∧ (f' <$> [3; 4; 5; 6; 7]) = [0; 66; 67; 68; 0].
Proof.
  intros m b.
  destruct (lo_send_correct (λ _ _ _ _ _ _ _ _ m, Ok (m, 0)) (Crypt (Some XferNone) [] 0 0) b 4
    None m (λ _ : Z, 0) [66; 67; 68]) as (f' & ret & E & Hw); 
    [done|by apply (bool_decide_unpack _)|done|].
  assert (ret = 0) as -> by (revert E; vm_compute; by intros [= <- <-]).
  exists f'. split; [exact E|]. destruct Hw as [[_ Hw]|?]; [|lia].
  unfold written in Hw. simpl in Hw |- *. by rewrite !Hw.
Defined.
