(* ===== verification/LoopInfo.v ===== *)
(** * Status structures of the loop ioctls

    Models, from drivers/block/loop.c, [loop_info64_from_old], [loop_info64_to_old],
    [struct compat_loop_info], [loop_info64_from_compat] and [loop_info64_to_compat], with
    every field kept at its C width.  The two old layouts (native and 32-bit compat) have the
    same fields and differ in the widths of [dev_t] and [unsigned long], which are parameters
    of [loop_info]. *)
From S2P Require Import Prelude.

Definition LO_NAME_SIZE : Z := 64.
Definition LO_CRYPT_CRYPTOAPI : Z := 18.

Record loop_info64 := LoopInfo64 {
  i64_device : Z;            (* __u64 *)
  i64_inode : Z;
  i64_rdevice : Z;
  i64_offset : Z;
  i64_sizelimit : Z;
  i64_number : Z;            (* __u32 *)
  i64_encrypt_type : Z;
  i64_encrypt_key_size : Z;
  i64_flags : Z;
  i64_file_name : list Z;
  i64_crypt_name : list Z;
  i64_encrypt_key : list Z;
  i64_init0 : Z;             (* __u64 *)
  i64_init1 : Z;
}.

(** Widths of [dev_t] and [unsigned long] in a layout of [struct loop_info]. *)
Record layout := Layout { w_dev : Z; w_ulong : Z }.
Definition native : layout := Layout 64 64.
Definition compat : layout := Layout 16 32.

Record loop_info := LoopInfo {
  lo_number : Z;             (* int *)
  lo_device : Z;             (* dev_t *)
  lo_inode : Z;              (* unsigned long *)
  lo_rdevice : Z;            (* dev_t *)
  lo_offset : Z;             (* int *)
  lo_encrypt_type : Z;       (* int *)
  lo_encrypt_key_size : Z;   (* int *)
  lo_flags : Z;              (* int *)
  lo_name : list Z;
  lo_encrypt_key : list Z;
  lo_init0 : Z;              (* unsigned long *)
  lo_init1 : Z;
}.

#[global] Instance loop_info_eq_dec : EqDecision loop_info.
Proof. solve_decision. Defined.

Definition zeros (n : Z) : list Z := replicate (Z.to_nat n) 0.

(** [memset], the assignments with their conversions, and the two [memcpy]. *)
Definition loop_info64_from_old (info : loop_info) : loop_info64 := {|
  i64_number := wrapu 32 (lo_number info);
  i64_device := wrapu 64 (lo_device info);
  i64_inode := wrapu 64 (lo_inode info);
  i64_rdevice := wrapu 64 (lo_rdevice info);
  i64_offset := wrapu 64 (lo_offset info);
  i64_sizelimit := 0;
  i64_encrypt_type := wrapu 32 (lo_encrypt_type info);
  i64_encrypt_key_size := wrapu 32 (lo_encrypt_key_size info);
  i64_flags := wrapu 32 (lo_flags info);
  i64_init0 := wrapu 64 (lo_init0 info);
  i64_init1 := wrapu 64 (lo_init1 info);
  i64_crypt_name := if decide (lo_encrypt_type info = LO_CRYPT_CRYPTOAPI)
                    then lo_name info else zeros LO_NAME_SIZE;
  i64_file_name := if decide (lo_encrypt_type info = LO_CRYPT_CRYPTOAPI)
                   then zeros LO_NAME_SIZE else lo_name info;
  i64_encrypt_key := lo_encrypt_key info;
|}.

(** The assignments of [loop_info64_to_old] and [loop_info64_to_compat]. *)
Definition truncate_info (L : layout) (i : loop_info64) : loop_info :=
  let type := wraps 32 (i64_encrypt_type i) in {|
  lo_number := wraps 32 (i64_number i);
  lo_device := wrapu (w_dev L) (i64_device i);
  lo_inode := wrapu (w_ulong L) (i64_inode i);
  lo_rdevice := wrapu (w_dev L) (i64_rdevice i);
  lo_offset := wraps 32 (i64_offset i);
  lo_encrypt_type := type;
  lo_encrypt_key_size := wraps 32 (i64_encrypt_key_size i);
  lo_flags := wraps 32 (i64_flags i);
  lo_init0 := wrapu (w_ulong L) (i64_init0 i);
  lo_init1 := wrapu (w_ulong L) (i64_init1 i);
  lo_name := if decide (type = LO_CRYPT_CRYPTOAPI) then i64_crypt_name i else i64_file_name i;
  lo_encrypt_key := i64_encrypt_key i;
|}.

(** The comparison [info->lo_offset != info64->lo_offset] converts the [int] to 64 bits. *)
Definition truncated (i : loop_info64) (info : loop_info) : bool :=
  bool_decide (lo_device info ≠ i64_device i ∨ lo_rdevice info ≠ i64_rdevice i ∨
               lo_inode info ≠ i64_inode i ∨ wrapu 64 (lo_offset info) ≠ i64_offset i).

Definition loop_info64_to_old (i : loop_info64) : loop_info * Z :=
  let info := truncate_info native i in
  (info, if truncated i info then - EOVERFLOW else 0).

(** [None] is a failed [copy_from_user]. *)
Definition loop_info64_from_compat (arg : option loop_info) : Z * option loop_info64 :=
  match arg with
  | None => (- EFAULT, None)
  | Some info => (0, Some (loop_info64_from_old info))
  end.

(** [copy_ok] says whether [copy_to_user] succeeds; the result is what user space gets. *)
Definition loop_info64_to_compat (i : loop_info64) (copy_ok : bool) : Z * option loop_info :=
  let info := truncate_info compat i in
  if truncated i info || bool_decide (lo_init0 info ≠ i64_init0 i ∨ lo_init1 info ≠ i64_init1 i)
  then (- EOVERFLOW, None)
  else if copy_ok then (0, Some info) else (- EFAULT, None).

(** ** Well-typed values *)
Record info_typed (L : layout) (info : loop_info) : Prop := InfoTyped {
  ty_number : - 2 ^ 31 ≤ lo_number info < 2 ^ 31;
  ty_device : 0 ≤ lo_device info < 2 ^ w_dev L;
  ty_inode : 0 ≤ lo_inode info < 2 ^ w_ulong L;
  ty_rdevice : 0 ≤ lo_rdevice info < 2 ^ w_dev L;
  ty_offset : - 2 ^ 31 ≤ lo_offset info < 2 ^ 31;
  ty_type : - 2 ^ 31 ≤ lo_encrypt_type info < 2 ^ 31;
  ty_key_size : - 2 ^ 31 ≤ lo_encrypt_key_size info < 2 ^ 31;
  ty_flags : - 2 ^ 31 ≤ lo_flags info < 2 ^ 31;
  ty_init0 : 0 ≤ lo_init0 info < 2 ^ w_ulong L;
  ty_init1 : 0 ≤ lo_init1 info < 2 ^ w_ulong L;
}.

Definition layout_ok (L : layout) : Prop := 0 < w_dev L ≤ 64 ∧ 0 < w_ulong L ≤ 64.

Lemma wraps_wrapu w v z : 0 < w ≤ v → wraps w (wrapu v z) = wraps w z.
Proof.
  intros Hw. unfold wraps, wrapu.
  assert ((z mod 2 ^ v) mod 2 ^ w = z mod 2 ^ w) as ->; [|done].
  replace v with (w + (v - w)) by lia. rewrite Z.pow_add_r by lia.
  rewrite Z.rem_mul_r by (try apply Z.pow_nonzero; lia || (apply Z.pow_pos_nonneg; lia)).
  rewrite (Z.mul_comm (2 ^ w)), Z.mod_add by (apply Z.pow_nonzero; lia).
  apply Z.mod_mod, Z.pow_nonzero; lia.
Qed.

Lemma wrapu_small_le w v z : 0 ≤ w ≤ v → 0 ≤ z < 2 ^ w → wrapu v z = z.
Proof.
  intros Hw Hz. apply wrapu_small. split; [lia|].
  apply Z.lt_le_trans with (2 ^ w); [lia|]. apply Z.pow_le_mono_r; lia.
Qed.

Lemma truncate_from_old L info :
  layout_ok L → info_typed L info → truncate_info L (loop_info64_from_old info) = info.
Proof.
  intros [Hd Hu] []. unfold truncate_info, loop_info64_from_old. simpl.
  repeat rewrite wraps_wrapu by lia. repeat rewrite wraps_small by lia.
  rewrite (wrapu_small_le (w_dev L) 64 (lo_device info)),
    (wrapu_small_le (w_dev L) 64 (lo_rdevice info)),
    (wrapu_small_le (w_ulong L) 64 (lo_inode info)),
    (wrapu_small_le (w_ulong L) 64 (lo_init0 info)),
    (wrapu_small_le (w_ulong L) 64 (lo_init1 info)) by lia.
  repeat rewrite wrapu_small by lia. destruct info; simpl. f_equal. by repeat case_decide.
Qed.

Lemma truncated_from_old L info :
  layout_ok L → info_typed L info →
  truncated (loop_info64_from_old info) info = false.
Proof.
  intros [Hd Hu] []. unfold truncated, loop_info64_from_old. simpl.
  rewrite (wrapu_small_le (w_dev L) 64 (lo_device info)),
    (wrapu_small_le (w_dev L) 64 (lo_rdevice info)),
    (wrapu_small_le (w_ulong L) 64 (lo_inode info)) by lia.
  apply bool_decide_eq_false. tauto.
Qed.

(** C30: the conversions of the old and of the compat status structure to [loop_info64] and back
    are inverse: converting there and back gives the same structure and no overflow error, sign
    extension of the offset and the placing of the one name of the old layout into the file or
    cipher name included.  This is about the conversion functions alone: the device does not keep
    all fields of a status it was given. *)
Theorem loop_info_roundtrip (info : loop_info) :
  (info_typed native info → loop_info64_to_old (loop_info64_from_old info) = (info, 0)) ∧
  (info_typed compat info →
    ∃ i, loop_info64_from_compat (Some info) = (0, Some i) ∧
      loop_info64_to_compat i true = (0, Some info)).
Proof.
  split; intros Ht.
  - assert (layout_ok native) as Hl by (unfold layout_ok; simpl; lia).
    unfold loop_info64_to_old. by rewrite truncate_from_old, (truncated_from_old native).
  - assert (layout_ok compat) as Hl by (unfold layout_ok; simpl; lia).
    eexists. split; [reflexivity|]. unfold loop_info64_to_compat.
    rewrite truncate_from_old, (truncated_from_old compat) by done. simpl.
    destruct Ht. repeat rewrite (wrapu_small_le 32 64) by (simpl in *; lia).
    rewrite bool_decide_eq_false_2; [done|tauto].
Qed.

(** [loop_info64_to_compat] reports [-EOVERFLOW] exactly when a device number needs more
    than 16 bits, the inode number or an init word more than 32, or the offset is not the
    64-bit image of an [int]; otherwise nothing of these fields is lost. *)
Theorem compat_overflow_iff (i : loop_info64) :
  0 ≤ i64_device i < 2 ^ 64 → 0 ≤ i64_rdevice i < 2 ^ 64 → 0 ≤ i64_inode i < 2 ^ 64 →
  0 ≤ i64_offset i < 2 ^ 64 → 0 ≤ i64_init0 i < 2 ^ 64 → 0 ≤ i64_init1 i < 2 ^ 64 →
  (loop_info64_to_compat i true).1 = - EOVERFLOW ↔
  ¬ (i64_device i < 2 ^ 16 ∧ i64_rdevice i < 2 ^ 16 ∧ i64_inode i < 2 ^ 32 ∧
     (i64_offset i < 2 ^ 31 ∨ 2 ^ 64 - 2 ^ 31 ≤ i64_offset i) ∧
     i64_init0 i < 2 ^ 32 ∧ i64_init1 i < 2 ^ 32).
Proof.
  intros Hd Hr Hi Ho H0 H1. unfold loop_info64_to_compat, truncated. simpl.
  assert (∀ w z, 0 ≤ w → 0 ≤ z → wrapu w z ≠ z ↔ ¬ z < 2 ^ w) as Hw.
  { intros w z Hw Hz. split; [intros Hne Hlt; apply Hne, wrapu_small; lia|].
    intros Hge E. pose proof (wrapu_bound w z Hw). lia. }
  assert (wrapu 64 (wraps 32 (i64_offset i)) ≠ i64_offset i ↔
          ¬ (i64_offset i < 2 ^ 31 ∨ 2 ^ 64 - 2 ^ 31 ≤ i64_offset i)) as Hoff.
  { pose proof (wraps_bound 32 (i64_offset i) ltac:(lia)) as Hb. unfold wraps, wrapu in *.
    pose proof (Z.mod_pos_bound (i64_offset i) (2 ^ 32)).
    pose proof (Z.div_mod (i64_offset i) (2 ^ 32)).
    repeat case_bool_decide; rewrite Zmod_eq_full by lia; Z.div_mod_to_equations; lia. }
  pose proof (Hw 16 (i64_device i) ltac:(lia) ltac:(lia)).
  pose proof (Hw 16 (i64_rdevice i) ltac:(lia) ltac:(lia)).
  pose proof (Hw 32 (i64_inode i) ltac:(lia) ltac:(lia)).
  pose proof (Hw 32 (i64_init0 i) ltac:(lia) ltac:(lia)).
  pose proof (Hw 32 (i64_init1 i) ltac:(lia) ltac:(lia)).
  case_bool_decide; simpl; [split; [tauto|done]|].
  case_bool_decide; simpl; [split; [tauto|done]|]. unfold EOVERFLOW. split; [lia|tauto].
Qed.

Definition ex_info : loop_info :=
  LoopInfo 3 1793 77 1793 (-512) 18 16 4 (replicate 64 120) (replicate 32 1) 5 6.

Lemma loop_info_roundtrip_witness :
  loop_info64_to_old (loop_info64_from_old ex_info) = (ex_info, 0) ∧
  i64_offset (loop_info64_from_old ex_info) = 2 ^ 64 - 512.
Proof.
  split; [|reflexivity]. apply (proj1 (loop_info_roundtrip ex_info)).
  constructor; simpl; lia.
Defined.

Lemma compat_overflow_iff_witness :
  (loop_info64_to_compat ((loop_info64_from_old ex_info) <| i64_inode := 2 ^ 32 |>) true).1 =
    - EOVERFLOW.
Proof.
  apply (compat_overflow_iff ((loop_info64_from_old ex_info) <| i64_inode := 2 ^ 32 |>));
    vm_compute; intuition congruence.
Defined.
