(* ===== verification/LoopDev.v ===== *)
(** * The loop device object

    [struct loop_device] (include/linux/loop.h) with the fields of its gendisk, queue and
    block device the driver sets, the open files it refers to, and the state monad in which
    the control operations are written.  The world holds the device objects by address, the
    index [loop_index_idr], the files with their reference counts, the file descriptor table
    of the caller, the table [xfer_funcs] and the module reference counts.  Locking a held
    mutex (a self-deadlock) and releasing a free one are [Oops]. *)
From S2P Require Import Prelude Interfaces StateMonad Transfer LoopInfo.

Inductive lo_state := Lo_unbound | Lo_bound | Lo_rundown.

#[global] Instance lo_state_eq_dec : EqDecision lo_state.
Proof. solve_decision. Defined.

Definition LO_FLAGS_READ_ONLY : Z := 1.
Definition LO_FLAGS_AUTOCLEAR : Z := 4.
Definition LO_FLAGS_PARTSCAN : Z := 8.
Definition MAX_LO_CRYPT : Z := 20.
Definition GFP_IO_FS : Z := 192.   (* __GFP_IO | __GFP_FS *)

(** ** Open files

    [Blk (Some a)] is the block device file of the loop device object [a]. *)
Inductive fkind := Reg | Blk (loop : option Z) | Other.

#[global] Instance fkind_eq_dec : EqDecision fkind.
Proof. solve_decision. Defined.

Record file := File {
  f_kind : fkind;
  f_size : Z;              (** [i_size_read (file->f_mapping->host)] *)
  f_mode_write : bool;     (** [f_mode & FMODE_WRITE] *)
  f_has_write : bool;
  f_has_fsync : bool;
  f_has_fallocate : bool;
  f_bd_block_size : Z;     (** of the block device, if it is one *)
  f_s_blocksize : Z;
  f_gfp : Z;               (** [mapping_gfp_mask] *)
  f_count : Z;
}.

Record queue_limits := QueueLimits {
  discard_granularity : Z;
  discard_alignment : Z;
  max_discard_sectors : Z;
  discard_zeroes_data : Z;
  queue_flag_discard : bool;
}.

Record loop_device := LoopDevice {
  lo_number : Z;
  lo_refcnt : Z;
  lo_offset : Z;
  lo_sizelimit : Z;
  lo_flags : Z;
  lo_transfer : option xfer;
  lo_file_name : list Z;
  lo_crypt_name : list Z;
  lo_encrypt_key : list Z;
  lo_encrypt_key_size : Z;
  lo_encryption : option xfer;
  lo_init0 : Z;
  lo_init1 : Z;
  lo_key_owner : Z;
  lo_ioctl_fn : option xfer;
  lo_backing_file : option Z;
  lo_device : option Z;       (** the block device: its object's address *)
  lo_blocksize : Z;
  old_gfp_mask : Z;
  lo_st : lo_state;
  lo_ctl_mutex : bool;
  lo_thread : option Z;
  (** the gendisk, its queue and its block device *)
  lo_capacity : Z;
  lo_no_part_scan : bool;
  lo_bd_size : Z;
  lo_bd_ro : bool;
  lo_bd_blocksize : Z;
  lo_queue_flush : Z;
  lo_limits : queue_limits;
}.

Record world := World {
  w_devs : gmap Z loop_device;
  w_idr : gmap Z Z;
  w_index_mutex : bool;
  w_files : gmap Z file;
  w_fds : gmap Z Z;
  w_module : Z;                      (** reference count of THIS_MODULE *)
  w_xfer_funcs : list (option xfer);
  w_xfer_refs : gmap nat Z;          (** of the modules that registered transfers *)
}.

(** ** The monad *)
Abbreviation M := (ST world).
Abbreviation oops := st_oops.
Abbreviation get := st_get.
Abbreviation modify := st_modify.
Definition from_option {A} (o : option A) : M A := λ w, a ← lift o; Ok (a, w).

Definition dev (a : Z) : M loop_device := d ← get w_devs; from_option (d !! a).
Definition set_dev (a : Z) (f : loop_device → loop_device) : M () :=
  d ← dev a; modify (λ w, w <| w_devs ::= <[a := f d]> |>).

Definition the_file (p : Z) : M file := fs ← get w_files; from_option (fs !! p).
Definition set_file (p : Z) (f : file → file) : M () :=
  x ← the_file p; modify (λ w, w <| w_files ::= <[p := f x]> |>).

Definition mutex_lock (a : Z) : M () :=
  d ← dev a; if lo_ctl_mutex d then oops else set_dev a (λ d, d <| lo_ctl_mutex := true |>).
Definition mutex_unlock (a : Z) : M () :=
  d ← dev a; if lo_ctl_mutex d then set_dev a (λ d, d <| lo_ctl_mutex := false |>) else oops.

(** [fget (fd)], [fput (file)]. *)
Definition fget (fd : Z) : M (option Z) :=
  t ← get w_fds;
  match t !! fd with
  | None => mret None
  | Some p => _ ← set_file p (λ f, f <| f_count ::= Z.succ |>); mret (Some p)
  end.
Definition fput (p : Z) : M () := set_file p (λ f, f <| f_count ::= Z.pred |>).

Definition module_get : M () := modify (λ w, w <| w_module ::= Z.succ |>).
Definition module_put : M () := modify (λ w, w <| w_module ::= Z.pred |>).

(** ** Total correctness *)
Lemma wp_dev a d Q w : w_devs w !! a = Some d → Q d w → wp (dev a) Q w.
Proof.
  intros Hd HQ. apply wp_bind, wp_get. exists d, w. split; [|done].
  unfold from_option. by rewrite Hd.
Qed.

Lemma wp_set_dev a d g Q w :
  w_devs w !! a = Some d → Q () (w <| w_devs ::= <[a := g d]> |>) → wp (set_dev a g) Q w.
Proof. intros Hd HQ. apply wp_bind. eapply wp_dev; [done|]. by apply wp_modify. Qed.

Lemma wp_the_file p x Q w : w_files w !! p = Some x → Q x w → wp (the_file p) Q w.
Proof.
  intros Hd HQ. apply wp_bind, wp_get. exists x, w. split; [|done].
  unfold from_option. by rewrite Hd.
Qed.

Lemma wp_set_file p x g Q w :
  w_files w !! p = Some x → Q () (w <| w_files ::= <[p := g x]> |>) → wp (set_file p g) Q w.
Proof. intros Hd HQ. apply wp_bind. eapply wp_the_file; [done|]. by apply wp_modify. Qed.

Lemma wp_mutex_lock a d Q w :
  w_devs w !! a = Some d → lo_ctl_mutex d = false →
  Q () (w <| w_devs ::= <[a := d <| lo_ctl_mutex := true |>]> |>) → wp (mutex_lock a) Q w.
Proof.
  intros Hd Hm HQ. apply wp_bind. eapply wp_dev; [done|]. rewrite Hm. by eapply wp_set_dev.
Qed.

Lemma wp_mutex_unlock a d Q w :
  w_devs w !! a = Some d → lo_ctl_mutex d = true →
  Q () (w <| w_devs ::= <[a := d <| lo_ctl_mutex := false |>]> |>) → wp (mutex_unlock a) Q w.
Proof.
  intros Hd Hm HQ. apply wp_bind. eapply wp_dev; [done|]. rewrite Hm. by eapply wp_set_dev.
Qed.
