(* ===== verification/LoopCtl.v ===== *)
(** * Control operations of a loop device

    Models, from drivers/block/loop.c: [get_size], [get_loop_size], [figure_loop_size],
    [loop_switch], [loop_flush], [do_loop_switch], [loop_change_fd], [is_loop_device],
    [loop_config_discard], [loop_set_fd], [loop_release_xfer], [loop_init_xfer],
    [loop_clr_fd], [loop_set_status], [loop_get_status] and their old, 64-bit and compat
    variants, [loop_set_capacity], [lo_ioctl], [lo_compat_ioctl], [lo_open], [lo_release] and
    the sysfs attributes.  Transfer modules outside the repository are the parameters
    [ext_number], [ext_init], [ext_release], [ext_ioctl] and [ext_live]. *)
From S2P Require Import Prelude Interfaces StateMonad Transfer LoopInfo LoopDev.

(** Who calls: [current_uid ()], [capable (CAP_SYS_ADMIN)], [mode & FMODE_WRITE]. *)
Record caller := Caller { uid : Z; cap_sys_admin : bool; mode_write : bool }.

Section ctl.
Variable ext_number : nat → Z.
Variable ext_init : nat → loop_info64 → Z.
Variable ext_release : nat → Z.
Variable ext_ioctl : nat → Z → Z → Z.
Variable ext_live : nat → bool.
(** The module parameter [part_shift]. *)
Variable part_shift : Z.

(** ** Sizes

    All of [loff_t], 64 bits with a sign. *)
Definition get_size (offset sizelimit : Z) (f : file) : Z :=
  let loopsize := wraps 64 (f_size f - offset) in
  if decide (loopsize < 0) then 0
  else (if decide (0 < sizelimit ∧ sizelimit < loopsize) then sizelimit else loopsize) ≫ 9.

Definition get_loop_size (d : loop_device) (f : file) : Z :=
  get_size (lo_offset d) (lo_sizelimit d) f.

(** [offset] and [sizelimit] arrive as [loff_t], converted from 64-bit unsigned fields. *)
Definition figure_loop_size (a offset sizelimit : Z) : M Z :=
  d ← dev a;
  p ← from_option (lo_backing_file d);
  f ← the_file p;
  let size := get_size offset sizelimit f in
  let x := wrapu 64 size in
  if decide (wraps 64 x ≠ size) then mret (- EFBIG) else
  _ ← set_dev a (λ d, d <| lo_offset := offset |> <| lo_sizelimit := sizelimit |>
                        <| lo_capacity := x |>);
  mret 0.

(** ** Switching the backing file *)
Definition do_loop_switch (a : Z) (file : option Z) : M () :=
  match file with
  | None => mret ()
  | Some p =>
      d ← dev a;
      old ← from_option (lo_backing_file d);
      _ ← set_file old (λ f, f <| f_gfp := old_gfp_mask d |>);
      f ← the_file p;
      let bs := match f_kind f with Blk _ => f_bd_block_size f | _ => PAGE_SIZE end in
      _ ← set_dev a (λ d, d <| lo_backing_file := Some p |> <| lo_blocksize := bs |>
                            <| old_gfp_mask := f_gfp f |>);
      set_file p (λ f, f <| f_gfp := Z.ldiff (f_gfp f) GFP_IO_FS |>)
  end.

(** What the allocator does during a switch. *)
Record switch_env := SwitchEnv {
  sw_bio : bool;    (** [bio_alloc] gives the magic bio *)
  sw_head : bool;   (** [kmalloc] gives the [lo_bio_head] of [redirect_bio] *)
  sw_kept : bool;   (** the magic bio, freed by the [bio_put] of [loop_handle_bio], still reads
                        as it was until [redirect_bio] returns *)
}.

(** [redirect_bio] for the magic bio: it takes the inode of the backing file, switches, drops
    the last reference to the bio, fills in a new [lo_bio_head], which it does not test, and
    then reads [bi_sector], the segments (none), [bi_idx] and [bi_rw] (0) of the bio it has
    dropped, and ends it.  (The whole function is in Redirect.v; its trace for such a bio is
    the theorem [switch_bio_used_after_put] there.) *)
Definition redirect_switch (env : switch_env) (a : Z) (file : option Z) : M () :=
  d ← dev a;
  p ← from_option (lo_backing_file d);
  _ ← the_file p;
  _ ← do_loop_switch a file;
  if sw_head env then if sw_kept env then mret () else oops else oops.

Definition loop_switch (env : switch_env) (a : Z) (file : option Z) : M Z :=
  if sw_bio env then _ ← redirect_switch env a file; mret 0 else mret (- ENOMEM).

Definition loop_flush (env : switch_env) (a : Z) : M Z :=
  d ← dev a;
  match lo_thread d with
  | None => mret 0
  | Some _ => loop_switch env a None
  end.

Definition loop_change_fd (env : switch_env) (a arg : Z) : M Z :=
  d ← dev a;
  if decide (lo_st d ≠ Lo_bound) then mret (- ENXIO) else
  if decide (Z.land (lo_flags d) LO_FLAGS_READ_ONLY = 0) then mret (- EINVAL) else
  r ← fget arg;
  match r with
  | None => mret (- EBADF)
  | Some p =>
      f ← the_file p;
      old ← from_option (lo_backing_file d);
      oldf ← the_file old;
      if decide (f_kind f = Other) then _ ← fput p; mret (- EINVAL) else
      if decide (get_loop_size d f ≠ get_loop_size d oldf) then _ ← fput p; mret (- EINVAL) else
      error ← loop_switch env a (Some p);
      if decide (error ≠ 0) then _ ← fput p; mret error else
      _ ← fput old; mret 0
  end.

(** The loop device behind a file, if it is one. *)
Definition is_loop_device (f : file) : option Z :=
  match f_kind f with Blk (Some a) => Some a | _ => None end.

(** ** Binding *)
Definition loop_config_discard (a : Z) : M () :=
  d ← dev a;
  p ← from_option (lo_backing_file d);
  f ← the_file p;
  if decide (f_has_fallocate f = false ∨ lo_encrypt_key_size d ≠ 0) then
    set_dev a (λ d, d <| lo_limits := QueueLimits 0 0 0 0 false |>)
  else
    set_dev a (λ d, d <| lo_limits := QueueLimits (f_s_blocksize f) 0 ((2 ^ 32 - 1) ≫ 9) 1 true |>).

(** [while (is_loop_device (f))]: the error to report, or 0. *)
Fixpoint avoid_recursion (fuel : nat) (a p : Z) : M Z :=
  match fuel with
  | O => λ w, NoFuel
  | S fuel =>
      f ← the_file p;
      match is_loop_device f with
      | None => mret 0
      | Some b =>
          if decide (b = a) then mret (- EBUSY) else
          l ← dev b;
          if decide (lo_st l = Lo_unbound) then mret (- EINVAL) else
          p ← from_option (lo_backing_file l);
          avoid_recursion fuel a p
      end
  end.

(** The fields set once the checks have passed. *)
Definition bind_fields (a p flags bs size gfp : Z) (fsync : bool) (d : loop_device) : loop_device :=
  let d := d <| lo_bd_ro := bool_decide (Z.land flags LO_FLAGS_READ_ONLY ≠ 0) |>
    <| lo_blocksize := bs |> <| lo_device := Some a |> <| lo_flags := flags |>
    <| lo_backing_file := Some p |> <| lo_transfer := Some XferNone |> <| lo_ioctl_fn := None |>
    <| lo_sizelimit := 0 |> <| old_gfp_mask := gfp |> in
  let d := if decide (Z.land flags LO_FLAGS_READ_ONLY = 0 ∧ fsync = true)
           then d <| lo_queue_flush := Bio.REQ_FLUSH |> else d in
  d <| lo_capacity := size |> <| lo_bd_size := size ≪ 9 |> <| lo_bd_blocksize := bs |>.

(** The label [out_clr]. *)
Definition unbind_fields (d : loop_device) : loop_device :=
  d <| lo_thread := None |> <| lo_device := None |> <| lo_backing_file := None |>
    <| lo_flags := 0 |> <| lo_capacity := 0 |> <| lo_bd_size := 0 |> <| lo_st := Lo_unbound |>.

Definition LOOP_FUEL (w : world) : nat := S (S (size (w_devs w))).

(** [kthread] is the result of [kthread_create]: an error or a task. *)
Definition loop_set_fd (kthread : Z + Z) (c : caller) (a arg : Z) : M Z :=
  _ ← module_get;
  r ← fget arg;
  match r with
  | None => _ ← module_put; mret (- EBADF)
  | Some p =>
      let out_putf error := _ ← fput p; _ ← module_put; mret error in
      d ← dev a;
      if decide (lo_st d ≠ Lo_unbound) then out_putf (- EBUSY) else
      fuel ← get LOOP_FUEL;
      e ← avoid_recursion fuel a p;
      if decide (e ≠ 0) then out_putf e else
      f ← the_file p;
      if decide (f_kind f = Other) then out_putf (- EINVAL) else
      let flags := if f_mode_write f && mode_write c && f_has_write f then 0
                   else LO_FLAGS_READ_ONLY in
      let bs := match f_kind f with Blk _ => f_bd_block_size f | _ => PAGE_SIZE end in
      let size := get_loop_size d f in
      if decide (wraps 64 (wrapu 64 size) ≠ size) then out_putf (- EFBIG) else
      _ ← set_dev a (bind_fields a p flags bs size (f_gfp f) (f_has_fsync f));
      _ ← set_file p (λ f, f <| f_gfp := Z.ldiff (f_gfp f) GFP_IO_FS |>);
      match kthread with
      | inl error =>
          d ← dev a;
          _ ← set_dev a unbind_fields;
          _ ← set_file p (λ f, f <| f_gfp := old_gfp_mask d |>);
          out_putf error
      | inr t =>
          _ ← set_dev a (λ d, d <| lo_thread := Some t |> <| lo_st := Lo_bound |>);
          _ ← (if decide (part_shift ≠ 0)
               then set_dev a (λ d, d <| lo_flags ::= Z.lor LO_FLAGS_PARTSCAN |>) else mret ());
          mret 0
      end
  end.

(** ** Transfer modules *)
Definition xfer_put (x : xfer) : M () :=
  match x with
  | XferExt n => modify (λ w, w <| w_xfer_refs ::= λ r, <[n := default 0 (r !! n) - 1]> r |>)
  | _ => mret ()
  end.

Definition try_module_get (x : xfer) : M bool :=
  match x with
  | XferExt n =>
      if ext_live n then
        _ ← modify (λ w, w <| w_xfer_refs ::= λ r, <[n := default 0 (r !! n) + 1]> r |>); mret true
      else mret false
  | _ => mret true
  end.

Definition xfer_number (x : xfer) : Z :=
  match x with XferNone => 0 | XferXor => 1 | XferExt n => ext_number n end.

Definition xfer_init (x : xfer) (i : loop_info64) : Z :=
  match x with XferNone => 0 | XferXor => xor_init (i64_encrypt_key_size i) | XferExt n => ext_init n i end.

Definition loop_release_xfer (a : Z) : M Z :=
  d ← dev a;
  match lo_encryption d with
  | None => mret 0
  | Some x =>
      let err := match x with XferExt n => ext_release n | _ => 0 end in
      _ ← set_dev a (λ d, d <| lo_transfer := None |> <| lo_encryption := None |>);
      _ ← xfer_put x;
      mret err
  end.

Definition loop_init_xfer (a : Z) (x : option xfer) (i : loop_info64) : M Z :=
  match x with
  | None => mret 0
  | Some x =>
      ok ← try_module_get x;
      if negb ok then mret (- EINVAL) else
      let err := xfer_init x i in
      if decide (err ≠ 0) then _ ← xfer_put x; mret err
      else _ ← set_dev a (λ d, d <| lo_encryption := Some x |>); mret 0
  end.

(** ** Unbinding *)
Definition clear_fields (d : loop_device) : loop_device :=
  d <| lo_backing_file := None |> <| lo_transfer := None |> <| lo_ioctl_fn := None |>
    <| lo_device := None |> <| lo_encryption := None |> <| lo_offset := 0 |>
    <| lo_sizelimit := 0 |> <| lo_encrypt_key_size := 0 |> <| lo_thread := None |>
    <| lo_encrypt_key := zeros LO_KEY_SIZE |> <| lo_crypt_name := zeros LO_NAME_SIZE |>
    <| lo_file_name := zeros LO_NAME_SIZE |> <| lo_capacity := 0 |>
    <| lo_bd_size := match lo_device d with Some _ => 0 | None => lo_bd_size d end |>
    <| lo_st := Lo_unbound |> <| lo_flags := 0 |>
    <| lo_no_part_scan := if decide (part_shift = 0) then true else lo_no_part_scan d |>.

(** Releases [lo_ctl_mutex] itself when it returns 0. *)
Definition loop_clr_fd (a : Z) : M Z :=
  d ← dev a;
  if decide (lo_st d ≠ Lo_bound) then mret (- ENXIO) else
  if decide (1 < lo_refcnt d) then
    _ ← set_dev a (λ d, d <| lo_flags ::= Z.lor LO_FLAGS_AUTOCLEAR |>);
    _ ← mutex_unlock a; mret 0
  else
    match lo_backing_file d with
    | None => mret (- EINVAL)
    | Some p =>
        _ ← set_dev a (λ d, d <| lo_st := Lo_rundown |>);
        _ ← set_dev a (λ d, d <| lo_backing_file := None |>);
        _ ← loop_release_xfer a;
        _ ← set_dev a clear_fields;
        _ ← set_file p (λ f, f <| f_gfp := old_gfp_mask d |>);
        _ ← module_put;
        _ ← mutex_unlock a;
        _ ← fput p;
        mret 0
    end.

(** ** Status *)
Definition terminate_name (n : list Z) : list Z := <[Z.to_nat (LO_NAME_SIZE - 1) := 0]> n.

(** The tail of [loop_set_status], after the size has been settled. *)
Definition set_status_fields (c : caller) (x : option xfer) (i : loop_info64) (d : loop_device)
    : loop_device :=
  let x' := default XferNone x in
  let d := d <| lo_file_name := terminate_name (i64_file_name i) |>
    <| lo_crypt_name := terminate_name (i64_crypt_name i) |>
    <| lo_transfer := Some x' |>
    <| lo_ioctl_fn := match x' with XferExt n => Some x' | _ => None end |> in
  let d := if decide (Z.land (lo_flags d) LO_FLAGS_AUTOCLEAR ≠ Z.land (i64_flags i) LO_FLAGS_AUTOCLEAR)
           then d <| lo_flags ::= Z.lxor LO_FLAGS_AUTOCLEAR |> else d in
  let d := if decide (Z.land (i64_flags i) LO_FLAGS_PARTSCAN ≠ 0 ∧
                      Z.land (lo_flags d) LO_FLAGS_PARTSCAN = 0)
           then d <| lo_flags ::= Z.lor LO_FLAGS_PARTSCAN |> <| lo_no_part_scan := false |> else d in
  let d := d <| lo_encrypt_key_size := i64_encrypt_key_size i |>
    <| lo_init0 := wrapu 32 (i64_init0 i) |> <| lo_init1 := wrapu 32 (i64_init1 i) |> in
  if decide (i64_encrypt_key_size i ≠ 0) then
    d <| lo_encrypt_key ::= λ k, take (Z.to_nat (i64_encrypt_key_size i)) (i64_encrypt_key i) ++
                                 drop (Z.to_nat (i64_encrypt_key_size i)) k |>
      <| lo_key_owner := uid c |>
  else d.

(** The transfer asked for: an error, or the table entry. *)
Definition lookup_xfer (i : loop_info64) : M (Z + option xfer) :=
  if decide (i64_encrypt_type i ≠ 0) then
    if decide (MAX_LO_CRYPT ≤ i64_encrypt_type i) then mret (inl (- EINVAL)) else
    t ← get w_xfer_funcs;
    match mjoin (t !! Z.to_nat (i64_encrypt_type i)) with
    | None => mret (inl (- EINVAL))
    | Some x => mret (inr (Some x))
    end
  else mret (inr None).

Definition loop_set_status (c : caller) (a : Z) (i : loop_info64) : M Z :=
  d ← dev a;
  if decide (lo_encrypt_key_size d ≠ 0 ∧ lo_key_owner d ≠ uid c ∧ cap_sys_admin c = false)
  then mret (- EPERM) else
  if decide (lo_st d ≠ Lo_bound) then mret (- ENXIO) else
  if decide (LO_KEY_SIZE < i64_encrypt_key_size i) then mret (- EINVAL) else
  err ← loop_release_xfer a;
  if decide (err ≠ 0) then mret err else
  r ← lookup_xfer i;
  match r with
  | inl err => mret err
  | inr x =>
      err ← loop_init_xfer a x i;
      if decide (err ≠ 0) then mret err else
      err ← (if decide (wrapu 64 (lo_offset d) ≠ i64_offset i ∨ wrapu 64 (lo_sizelimit d) ≠ i64_sizelimit i)
             then figure_loop_size a (wraps 64 (i64_offset i)) (wraps 64 (i64_sizelimit i))
             else mret 0);
      if decide (err ≠ 0) then mret (- EFBIG) else
      _ ← loop_config_discard a;
      _ ← set_dev a (set_status_fields c x i);
      mret 0
  end.

(** What [vfs_getattr] reports of the backing file: an error, or device, inode, rdevice. *)
Record kstat := Kstat { st_dev : Z; st_ino : Z; st_rdev : Z }.

Definition loop_get_status (c : caller) (stat : Z + kstat) (a : Z) : M (Z + loop_info64) :=
  d ← dev a;
  if decide (lo_st d ≠ Lo_bound) then mret (inl (- ENXIO)) else
  match stat with
  | inl error => mret (inl error)
  | inr s =>
      let key := bool_decide (lo_encrypt_key_size d ≠ 0) && cap_sys_admin c in
      mret (inr {|
        i64_number := wrapu 32 (lo_number d);
        i64_device := st_dev s;
        i64_inode := st_ino s;
        i64_rdevice := match lo_device d with Some _ => st_rdev s | None => st_dev s end;
        i64_offset := wrapu 64 (lo_offset d);
        i64_sizelimit := wrapu 64 (lo_sizelimit d);
        i64_flags := wrapu 32 (lo_flags d);
        i64_file_name := lo_file_name d;
        i64_crypt_name := lo_crypt_name d;
        i64_encrypt_type := match lo_encryption d with
                            | Some x => wrapu 32 (xfer_number x) | None => 0 end;
        i64_encrypt_key_size := if key then lo_encrypt_key_size d else 0;
        i64_encrypt_key := if key
          then take (Z.to_nat (lo_encrypt_key_size d)) (lo_encrypt_key d) ++
               drop (Z.to_nat (lo_encrypt_key_size d)) (zeros LO_KEY_SIZE)
          else zeros LO_KEY_SIZE;
        i64_init0 := 0; i64_init1 := 0 |})
  end.

(** [arg = None]: [copy_from_user] fails. *)
Definition loop_set_status_old (c : caller) (a : Z) (arg : option loop_info) : M Z :=
  match arg with
  | None => mret (- EFAULT)
  | Some info => loop_set_status c a (loop_info64_from_old info)
  end.

Definition loop_set_status64 (c : caller) (a : Z) (arg : option loop_info64) : M Z :=
  match arg with
  | None => mret (- EFAULT)
  | Some i => loop_set_status c a i
  end.

(** The error and what is copied to user space; [arg_null]: the pointer is NULL. *)
Definition loop_get_status_old (c : caller) (stat : Z + kstat) (a : Z) (arg_null copy_ok : bool)
    : M (Z * option loop_info) :=
  if arg_null then mret (- EINVAL, None) else
  r ← loop_get_status c stat a;
  match r with
  | inl err => mret (err, None)
  | inr i =>
      let '(info, err) := loop_info64_to_old i in
      if decide (err ≠ 0) then mret (err, None)
      else if copy_ok then mret (0, Some info) else mret (- EFAULT, None)
  end.

Definition loop_get_status64 (c : caller) (stat : Z + kstat) (a : Z) (arg_null copy_ok : bool)
    : M (Z * option loop_info64) :=
  if arg_null then mret (- EINVAL, None) else
  r ← loop_get_status c stat a;
  match r with
  | inl err => mret (err, None)
  | inr i => if copy_ok then mret (0, Some i) else mret (- EFAULT, None)
  end.

Definition loop_set_status_compat (c : caller) (a : Z) (arg : option loop_info) : M Z :=
  let '(ret, i) := loop_info64_from_compat arg in
  match i with
  | Some i => if decide (ret < 0) then mret ret else loop_set_status c a i
  | None => mret ret
  end.

Definition loop_get_status_compat (c : caller) (stat : Z + kstat) (a : Z) (arg_null copy_ok : bool)
    : M (Z * option loop_info) :=
  if arg_null then mret (- EINVAL, None) else
  r ← loop_get_status c stat a;
  match r with
  | inl err => mret (err, None)
  | inr i => mret (loop_info64_to_compat i copy_ok)
  end.

Definition loop_set_capacity (a : Z) : M Z :=
  d ← dev a;
  if decide (lo_st d ≠ Lo_bound) then mret (- ENXIO) else
  err ← figure_loop_size a (lo_offset d) (lo_sizelimit d);
  if decide (err ≠ 0) then mret err else
  _ ← set_dev a (λ d, d <| lo_bd_size := wraps 64 (lo_capacity d ≪ 9) |>);
  mret err.

(** ** The ioctl entry points

    A command carries its argument as read from user space and what the environment answers
    during the call. *)
Inductive loop_cmd :=
  | LOOP_SET_FD (fd : Z) (kthread : Z + Z)
  | LOOP_CHANGE_FD (fd : Z) (env : switch_env)
  | LOOP_CLR_FD
  | LOOP_SET_STATUS (arg : option loop_info)
  | LOOP_GET_STATUS (stat : Z + kstat) (arg_null copy_ok : bool)
  | LOOP_SET_STATUS64 (arg : option loop_info64)
  | LOOP_GET_STATUS64 (stat : Z + kstat) (arg_null copy_ok : bool)
  | LOOP_SET_CAPACITY
  | LOOP_OTHER (cmd arg : Z).

(** What is copied to user space. *)
Inductive uout := NoOut | OutInfo (i : option loop_info) | OutInfo64 (i : option loop_info64).

Definition privileged (c : caller) : bool := mode_write c || cap_sys_admin c.

(** The [switch]: the error, the output, and whether [lo_ctl_mutex] is already released. *)
Definition lo_ioctl_switch (c : caller) (a : Z) (cmd : loop_cmd) : M (Z * uout * bool) :=
  match cmd with
  | LOOP_SET_FD fd kthread => err ← loop_set_fd kthread c a fd; mret (err, NoOut, false)
  | LOOP_CHANGE_FD fd env => err ← loop_change_fd env a fd; mret (err, NoOut, false)
  | LOOP_CLR_FD => err ← loop_clr_fd a; mret (err, NoOut, bool_decide (err = 0))
  | LOOP_SET_STATUS arg =>
      err ← (if privileged c then loop_set_status_old c a arg else mret (- EPERM));
      mret (err, NoOut, false)
  | LOOP_GET_STATUS stat arg_null copy_ok =>
      '(err, o) ← loop_get_status_old c stat a arg_null copy_ok; mret (err, OutInfo o, false)
  | LOOP_SET_STATUS64 arg =>
      err ← (if privileged c then loop_set_status64 c a arg else mret (- EPERM));
      mret (err, NoOut, false)
  | LOOP_GET_STATUS64 stat arg_null copy_ok =>
      '(err, o) ← loop_get_status64 c stat a arg_null copy_ok; mret (err, OutInfo64 o, false)
  | LOOP_SET_CAPACITY =>
      err ← (if privileged c then loop_set_capacity a else mret (- EPERM));
      mret (err, NoOut, false)
  | LOOP_OTHER cmd arg =>
      d ← dev a;
      mret (match lo_ioctl_fn d with Some (XferExt n) => ext_ioctl n cmd arg | _ => - EINVAL end,
            NoOut, false)
  end.

Definition lo_ioctl (c : caller) (a : Z) (cmd : loop_cmd) : M (Z * uout) :=
  _ ← mutex_lock a;
  '(err, o, unlocked) ← lo_ioctl_switch c a cmd;
  _ ← (if (unlocked : bool) then mret () else mutex_unlock a);
  mret (err, o).

(** The status commands are served here, without a test of the caller's rights. *)
Definition lo_compat_ioctl (c : caller) (a : Z) (cmd : loop_cmd) : M (Z * uout) :=
  match cmd with
  | LOOP_SET_STATUS arg =>
      _ ← mutex_lock a;
      err ← loop_set_status_compat c a arg;
      _ ← mutex_unlock a; mret (err, NoOut)
  | LOOP_GET_STATUS stat arg_null copy_ok =>
      _ ← mutex_lock a;
      '(err, o) ← loop_get_status_compat c stat a arg_null copy_ok;
      _ ← mutex_unlock a; mret (err, OutInfo o)
  | LOOP_OTHER _ _ => mret (- ENOIOCTLCMD, NoOut)
  | _ => lo_ioctl c a cmd
  end.

(** ** Open and release

    [private]: [bdev->bd_disk->private_data]. *)
Definition lo_open (private : option Z) : M Z :=
  held ← get w_index_mutex;
  if (held : bool) then oops else
  _ ← modify (λ w, w <| w_index_mutex := true |>);
  err ← match private with
        | None => mret (- ENXIO)
        | Some a =>
            _ ← mutex_lock a;
            _ ← set_dev a (λ d, d <| lo_refcnt ::= Z.succ |>);
            _ ← mutex_unlock a; mret 0
        end;
  _ ← modify (λ w, w <| w_index_mutex := false |>);
  mret err.

Definition lo_release (env : switch_env) (a : Z) : M Z :=
  _ ← mutex_lock a;
  _ ← set_dev a (λ d, d <| lo_refcnt ::= Z.pred |>);
  d ← dev a;
  if decide (lo_refcnt d ≠ 0) then _ ← mutex_unlock a; mret 0 else
  if decide (Z.land (lo_flags d) LO_FLAGS_AUTOCLEAR ≠ 0) then
    err ← loop_clr_fd a;
    if decide (err = 0) then mret 0 else _ ← mutex_unlock a; mret 0
  else
    _ ← loop_flush env a; _ ← mutex_unlock a; mret 0.

(** ** Attributes in sysfs *)
Definition loop_attr_offset_show (d : loop_device) : Z := wrapu 64 (lo_offset d).
Definition loop_attr_sizelimit_show (d : loop_device) : Z := wrapu 64 (lo_sizelimit d).
Definition loop_attr_autoclear_show (d : loop_device) : bool :=
  bool_decide (Z.land (lo_flags d) LO_FLAGS_AUTOCLEAR ≠ 0).
Definition loop_attr_partscan_show (d : loop_device) : bool :=
  bool_decide (Z.land (lo_flags d) LO_FLAGS_PARTSCAN ≠ 0).

End ctl.

(** ** Tracking one device through an operation

    [tracks a w0 w d δ μ]: since [w0] only device [a] changed, to [d]; the reference count of
    file [p] changed by [δ p] (files otherwise differ in their gfp mask only) and the module's
    by [μ]. *)
Definition same_file (f f' : file) : Prop :=
  f' = f <| f_gfp := f_gfp f' |> <| f_count := f_count f' |>.

Record tracks (a : Z) (w0 w : world) (d : loop_device) (δ : Z → Z) (μ : Z) : Prop := Tracks {
  tr_devs : w_devs w = <[a := d]> (w_devs w0);
  tr_idr : w_idr w = w_idr w0;
  tr_index : w_index_mutex w = w_index_mutex w0;
  tr_fds : w_fds w = w_fds w0;
  tr_table : w_xfer_funcs w = w_xfer_funcs w0;
  tr_files : ∀ p, match w_files w0 !! p, w_files w !! p with
    | Some f, Some f' => same_file f f' ∧ f_count f' = f_count f + δ p
    | None, None => True
    | _, _ => False
    end;
  tr_module : w_module w = w_module w0 + μ;
}.

Definition only (p : Z) (n : Z) : Z → Z := λ q, if decide (q = p) then n else 0.
Definition plus (δ ε : Z → Z) : Z → Z := λ q, δ q + ε q.

Section tracking.
Variables (a : Z) (w0 : world).

Lemma tracks_refl d : w_devs w0 !! a = Some d → tracks a w0 w0 d (λ _, 0) 0.
Proof.
  intros Hd. constructor; try done; [by rewrite insert_id| |lia].
  intros p. destruct (w_files w0 !! p) as [f|]; [|done]. split; [|lia]. by destruct f.
Qed.

Lemma tracks_lookup w d δ μ : tracks a w0 w d δ μ → w_devs w !! a = Some d.
Proof. intros []. by rewrite tr_devs0, lookup_insert_eq. Qed.

Lemma tracks_file w d δ μ p f :
  tracks a w0 w d δ μ → w_files w0 !! p = Some f →
  ∃ f', w_files w !! p = Some f' ∧ same_file f f' ∧ f_count f' = f_count f + δ p.
Proof.
  intros [] Hf. specialize (tr_files0 p). rewrite Hf in tr_files0.
  destruct (w_files w !! p) as [f'|]; [|done]. by exists f'.
Qed.

Lemma tk_dev w d δ μ (Q : loop_device → world → Prop) :
  tracks a w0 w d δ μ → Q d w → wp (dev a) Q w.
Proof. intros Ht HQ. eapply wp_dev; [by eapply tracks_lookup|done]. Qed.

Lemma tk_set_dev w d δ μ g (Q : () → world → Prop) :
  tracks a w0 w d δ μ → (∀ w', tracks a w0 w' (g d) δ μ → Q () w') → wp (set_dev a g) Q w.
Proof.
  intros Ht HQ. eapply wp_set_dev; [by eapply tracks_lookup|]. apply HQ.
  destruct Ht. constructor; try done. simpl. by rewrite tr_devs0, insert_insert_eq.
Qed.

Lemma tk_mutex_lock w d δ μ (Q : () → world → Prop) :
  tracks a w0 w d δ μ → lo_ctl_mutex d = false →
  (∀ w', tracks a w0 w' (d <| lo_ctl_mutex := true |>) δ μ → Q () w') → wp (mutex_lock a) Q w.
Proof.
  intros Ht Hm HQ. apply wp_bind. eapply tk_dev; [done|]. rewrite Hm.
  by eapply (tk_set_dev _ _ _ _ _ _ Ht).
Qed.

Lemma tk_mutex_unlock w d δ μ (Q : () → world → Prop) :
  tracks a w0 w d δ μ → lo_ctl_mutex d = true →
  (∀ w', tracks a w0 w' (d <| lo_ctl_mutex := false |>) δ μ → Q () w') → wp (mutex_unlock a) Q w.
Proof.
  intros Ht Hm HQ. apply wp_bind. eapply tk_dev; [done|]. rewrite Hm.
  by eapply (tk_set_dev _ _ _ _ _ _ Ht).
Qed.

Lemma tk_the_file w d δ μ p f (Q : file → world → Prop) :
  tracks a w0 w d δ μ → w_files w0 !! p = Some f →
  (∀ f', same_file f f' → Q f' w) → wp (the_file p) Q w.
Proof.
  intros Ht Hf HQ. destruct (tracks_file _ _ _ _ _ _ Ht Hf) as (f' & Hf' & Hs & _).
  eapply wp_the_file; [done|auto].
Qed.

(** A change of gfp mask and reference count only. *)
Lemma tk_set_file w d δ μ p f g n (Q : () → world → Prop) :
  tracks a w0 w d δ μ → w_files w0 !! p = Some f →
  (∀ x, same_file x (g x) ∧ f_count (g x) = f_count x + n) →
  (∀ w', tracks a w0 w' d (plus δ (only p n)) μ → Q () w') → wp (set_file p g) Q w.
Proof.
  intros Ht Hf Hg HQ. destruct (tracks_file _ _ _ _ _ _ Ht Hf) as (f' & Hf' & Hs & Hc).
  eapply wp_set_file; [done|]. apply HQ. destruct Ht. constructor; try done. intros q. simpl.
  unfold plus, only. destruct (decide (q = p)) as [->|Hq].
  - rewrite Hf, lookup_insert_eq. destruct (Hg f') as [Hs' ->]. split; [|lia].
    unfold same_file in *. rewrite Hs', Hs. by destruct f.
  - rewrite lookup_insert_ne by done. specialize (tr_files0 q).
    destruct (w_files w0 !! q), (w_files w !! q); try done. by rewrite Z.add_0_r.
Qed.

Lemma tk_module w d δ μ n (Q : () → world → Prop) :
  tracks a w0 w d δ μ → (∀ w', tracks a w0 w' d δ (μ + n) → Q () w') →
  wp (modify (λ w, w <| w_module ::= λ m, m + n |>)) Q w.
Proof.
  intros Ht HQ. apply wp_modify, HQ. destruct Ht. constructor; try done. simpl. lia.
Qed.

Lemma tk_xfer_refs w d δ μ g (Q : () → world → Prop) :
  tracks a w0 w d δ μ → (∀ w', tracks a w0 w' d δ μ → Q () w') →
  wp (modify (λ w, w <| w_xfer_refs ::= g |>)) Q w.
Proof. intros [] HQ. apply wp_modify, HQ. by constructor. Qed.

End tracking.
