(* ===== verification/LoopInv.v ===== *)
(** * Invariant of the control operations

    Every ioctl, open and release of drivers/block/loop.c keeps a device consistent: it is
    unbound with nothing attached or bound with its backing file, thread and block device;
    [lo_ctl_mutex] is free again; the reference counts of files and of the module follow the
    binding; no other device is touched.  [loop_set_fd] also keeps the chains of stacked loop
    devices finite, which makes its own walk along them terminate; [loop_change_fd] does
    not.  The flush bio of a release is used after it was dropped: the invariant is for releases
    where that goes well, and the theorem [release_uses_freed_bio] for the others. *)
From S2P Require Import Prelude Interfaces StateMonad Transfer LoopInfo LoopDev LoopCtl.

Definition held (d : loop_device) (p : Z) : Z :=
  if decide (lo_backing_file d = Some p) then 1 else 0.
Definition bound (d : loop_device) : Z := if decide (lo_st d = Lo_bound) then 1 else 0.

Definition dev_ok (files : gmap Z file) (a : Z) (d : loop_device) : Prop :=
  match lo_st d with
  | Lo_unbound => lo_backing_file d = None ∧ lo_thread d = None ∧ lo_device d = None ∧
      lo_flags d = 0 ∧ lo_capacity d = 0
  | Lo_bound => (∃ p f, lo_backing_file d = Some p ∧ files !! p = Some f ∧ f_kind f ≠ Other) ∧
      lo_thread d ≠ None ∧ lo_device d = Some a
  | Lo_rundown => False
  end.

Record world_ok (w : world) : Prop := WorldOk {
  wo_devs : ∀ a d, w_devs w !! a = Some d → dev_ok (w_files w) a d ∧ lo_ctl_mutex d = false;
  wo_fds : ∀ fd p, w_fds w !! fd = Some p → is_Some (w_files w !! p);
  wo_loops : ∀ p f b, w_files w !! p = Some f → is_loop_device f = Some b → is_Some (w_devs w !! b);
  wo_index : w_index_mutex w = false;
}.

(** The state an operation on device [a] may leave, seen from its start; [m] is the state of
    [lo_ctl_mutex]. *)
Definition settled (a : Z) (w0 : world) (d0 : loop_device) (m : bool) (w : world) : Prop :=
  ∃ d δ μ, tracks a w0 w d δ μ ∧ lo_ctl_mutex d = m ∧ dev_ok (w_files w0) a d ∧
    (∀ p, δ p = held d p - held d0 p) ∧ μ = bound d - bound d0.

(** ** Chains of loop devices *)
Definition next_dev (w : world) (a : Z) : option Z :=
  d ← w_devs w !! a; p ← lo_backing_file d; f ← w_files w !! p; is_loop_device f.

Fixpoint ends (w : world) (n : nat) (a : Z) : bool :=
  match n with
  | O => false
  | S n => match next_dev w a with None => true | Some b => ends w n b end
  end.

Definition file_ends (w : world) (n : nat) (p : Z) : bool :=
  match w_files w !! p ≫= is_loop_device with None => true | Some b => ends w n b end.

Definition acyclic (w : world) : Prop := ∀ a, ∃ n, ends w n a = true.

Lemma ends_mono w n m a : (n ≤ m)%nat → ends w n a = true → ends w m a = true.
Proof.
  revert m a. induction n as [|n IH]; intros m a Hle He; [done|].
  destruct m as [|m]; [lia|]. simpl in *. destruct (next_dev w a); [|done]. apply IH; [lia|done].
Qed.

(** A chain that ends has as many links as there are devices at most. *)
Lemma ends_path w n a :
  ends w n a = true → (∀ m, (m < n)%nat → ends w m a = false) →
  ∃ l, NoDup l ∧ S (length l) = n ∧ Forall (λ b, is_Some (w_devs w !! b) ∧ ends w n b = true) l.
Proof.
  revert a. induction n as [|n IH]; intros a He Hmin; [done|].
  simpl in He. destruct (next_dev w a) as [b|] eqn:Hb.
  - destruct (IH b He) as (l & Hnd & Hlen & Hl).
    { intros m Hm. specialize (Hmin (S m) ltac:(lia)). simpl in Hmin. by rewrite Hb in Hmin. }
    exists (a :: l). split; [|split; [simpl; lia|]].
    + constructor; [|done]. intros [_ Ha]%(proj1 (Forall_forall _ _) Hl).
      rewrite (Hmin n) in Ha by lia. done.
    + constructor.
      * split; [|simpl; by rewrite Hb]. unfold next_dev in Hb. by destruct (w_devs w !! a).
      * eapply Forall_impl; [done|]. intros c [? Hc]. split; [done|]. eapply ends_mono; [|exact Hc]. lia.
  - exists []. split; [constructor|]. split; [|constructor].
    destruct n; [done|]. specialize (Hmin 1%nat ltac:(lia)). simpl in Hmin. by rewrite Hb in Hmin.
Qed.

Lemma ends_bounded w n a : ends w n a = true → ends w (S (size (w_devs w))) a = true.
Proof.
  induction n as [n IH] using (well_founded_induction lt_wf). intros He.
  destruct (decide (Exists (λ m, ends w m a = true) (seq 0 n))) as [(m & Hm & Hem)%Exists_exists|Hno].
  { apply elem_of_seq in Hm. apply (IH m); [lia|done]. }
  destruct (ends_path w n a He) as (l & Hnd & Hlen & Hl).
  { intros m Hm. destruct (ends w m a) eqn:E; [|done]. exfalso. apply Hno, Exists_exists.
    exists m. split; [apply elem_of_seq; lia|done]. }
  eapply ends_mono; [|exact He]. rewrite <- Hlen, <- size_dom. apply le_n_S.
  rewrite <- (size_list_to_set (C := gset Z) l Hnd). apply subseteq_size.
  intros b Hb%elem_of_list_to_set. apply elem_of_dom.
  by apply (proj1 (Forall_forall _ _) Hl) in Hb as [? _].
Qed.

(** Worlds that differ in device [a] only, as far as chains are concerned. *)
Definition agree (a : Z) (w w' : world) : Prop :=
  (∀ b, b ≠ a → w_devs w' !! b = w_devs w !! b) ∧
  (∀ p, is_loop_device <$> w_files w' !! p = is_loop_device <$> w_files w !! p).

Lemma agree_next a w w' b : agree a w w' → b ≠ a → next_dev w' b = next_dev w b.
Proof.
  intros [Hd Hf] Hb. unfold next_dev. rewrite Hd by done.
  destruct (w_devs w !! b) as [d|]; [|done]. simpl. destruct (lo_backing_file d) as [p|]; [|done].
  simpl. specialize (Hf p).
  destruct (w_files w !! p), (w_files w' !! p); simpl in *; by simplify_eq.
Qed.

Lemma tracks_agree a w0 w d δ μ : tracks a w0 w d δ μ → agree a w0 w.
Proof.
  intros []. split.
  - intros b Hb. by rewrite tr_devs, lookup_insert_ne.
  - intros p. specialize (tr_files p).
    destruct (w_files w0 !! p) as [f|], (w_files w !! p) as [f'|]; try done.
    destruct tr_files as [Hs _]. simpl. rewrite Hs. by destruct f.
Qed.

(** If the chain of device [a] ends after the change, every chain does. *)
Lemma agree_acyclic a w w' :
  agree a w w' → acyclic w → (∃ n, ends w' n a = true) → acyclic w'.
Proof.
  intros Hag Hw [na Hna] x. destruct (Hw x) as [n Hn]. revert x Hn.
  induction n as [|n IH]; intros x Hn; [done|].
  destruct (decide (x = a)) as [->|Hx]; [by exists na|].
  simpl in Hn. rewrite <- (agree_next a w w') in Hn by done.
  destruct (next_dev w' x) as [b|] eqn:Hb.
  - destruct (IH b Hn) as [m Hm]. exists (S m). simpl. by rewrite Hb.
  - exists 1%nat. simpl. by rewrite Hb.
Qed.

(** ** The walk of [loop_set_fd] *)
Lemma avoid_recursion_spec a w0 w d δ μ n fuel p f :
  world_ok w0 → tracks a w0 w d δ μ → w_files w0 !! p = Some f →
  file_ends w0 n p = true → (n < fuel)%nat →
  wp (avoid_recursion fuel a p)
    (λ e w', w' = w ∧ (e = 0 → ∀ w1, agree a w0 w1 → file_ends w1 n p = true)) w.
Proof.
  intros Hok Ht. revert n p f. induction fuel as [|fuel IH]; intros n p f Hf He Hlt; [lia|].
  cbn [avoid_recursion]. apply wp_bind. eapply tk_the_file; [done|done|]. intros f' Hs.
  assert (is_loop_device f' = is_loop_device f) as -> by (rewrite Hs; by destruct f).
  unfold file_ends in He. rewrite Hf in He. simpl in He.
  assert (∀ w1, agree a w0 w1 → w_files w1 !! p ≫= is_loop_device = is_loop_device f) as Hloop.
  { intros w1 [_ Hag]. specialize (Hag p). rewrite Hf in Hag.
    destruct (w_files w1 !! p); simpl in *; by simplify_eq. }
  destruct (is_loop_device f) as [b|] eqn:Hb.
  2:{ apply wp_ret. split; [done|]. intros _ w1 Hag. unfold file_ends. by rewrite Hloop. }
  case_decide as Hba.
  { apply wp_ret. split; [done|]. intros Hz. by unfold EBUSY in Hz. }
  destruct (wo_loops _ Hok _ _ _ Hf Hb) as [l Hl].
  destruct (wo_devs _ Hok _ _ Hl) as [Hdev _].
  apply wp_bind. eapply wp_dev; [by rewrite (tr_devs _ _ _ _ _ _ Ht), lookup_insert_ne by done|].
  case_decide as Hst.
  { apply wp_ret. split; [done|]. intros Hz. by unfold EINVAL in Hz. }
  unfold dev_ok in Hdev. destruct (lo_st l); try done.
  destruct Hdev as ((p' & f1 & Hp' & Hf1 & _) & _).
  apply wp_bind. exists p', w. split; [unfold from_option; by rewrite Hp'|].
  destruct n as [|n]; [done|].
  assert (∀ w1, agree a w0 w1 → ends w1 (S n) b = file_ends w1 n p') as Hstep.
  { intros w1 Hag. simpl. unfold next_dev, file_ends.
    rewrite (proj1 Hag) by done. rewrite Hl. simpl. rewrite Hp'. done. }
  eapply wp_mono; [eapply (IH n p' f1); [done| |lia]|].
  - rewrite <- Hstep; [done|]. split; done.
  - intros e w' [-> Hn]. split; [done|]. intros Hz w1 Hag. unfold file_ends.
    rewrite Hloop by done. rewrite Hstep by done. auto.
Qed.

(** ** Symbolic execution *)
Section rules.
Context {a : Z} {w0 : world}.

Lemma tk_fget w d δ μ fd (Q : option Z → world → Prop) :
  world_ok w0 → tracks a w0 w d δ μ →
  (w_fds w0 !! fd = None → Q None w) →
  (∀ p f w', w_fds w0 !! fd = Some p → w_files w0 !! p = Some f →
    tracks a w0 w' d (plus δ (only p 1)) μ → Q (Some p) w') →
  wp (fget fd) Q w.
Proof.
  intros Hok Ht HN HS. apply wp_bind, wp_get. rewrite (tr_fds _ _ _ _ _ _ Ht).
  destruct (w_fds w0 !! fd) as [p|] eqn:Hfd; [|by apply wp_ret, HN].
  destruct (wo_fds _ Hok _ _ Hfd) as [f Hf]. apply wp_bind.
  eapply (tk_set_file _ _ _ _ _ _ _ _ _ 1 _ Ht Hf).
  - intros x. split; [by destruct x|]. simpl. lia.
  - intros w' Ht'. apply wp_ret. eauto.
Qed.

Lemma tk_fput w d δ μ p f (Q : () → world → Prop) :
  tracks a w0 w d δ μ → w_files w0 !! p = Some f →
  (∀ w', tracks a w0 w' d (plus δ (only p (-1))) μ → Q () w') → wp (fput p) Q w.
Proof.
  intros Ht Hf HQ. eapply (tk_set_file _ _ _ _ _ _ _ _ _ (-1) _ Ht Hf); [|done].
  intros x. split; [by destruct x|]. simpl. lia.
Qed.

Lemma tk_set_gfp w d δ μ p f g (Q : () → world → Prop) :
  tracks a w0 w d δ μ → w_files w0 !! p = Some f →
  (∀ w', tracks a w0 w' d (plus δ (only p 0)) μ → Q () w') →
  wp (set_file p (λ f, f <| f_gfp := g f |>)) Q w.
Proof.
  intros Ht Hf HQ. eapply (tk_set_file _ _ _ _ _ _ _ _ _ 0 _ Ht Hf); [|done].
  intros x. split; [by destruct x|]. simpl. lia.
Qed.

Lemma tk_module_get w d δ μ (Q : () → world → Prop) :
  tracks a w0 w d δ μ → (∀ w', tracks a w0 w' d δ (μ + 1) → Q () w') → wp module_get Q w.
Proof. apply (tk_module _ _ _ _ _ _ 1). Qed.

Lemma tk_module_put w d δ μ (Q : () → world → Prop) :
  tracks a w0 w d δ μ → (∀ w', tracks a w0 w' d δ (μ + -1) → Q () w') → wp module_put Q w.
Proof. apply (tk_module _ _ _ _ _ _ (-1)). Qed.

Lemma wp_from_option {A} (o : option A) x (Q : A → world → Prop) w :
  o = Some x → Q x w → wp (from_option o) Q w.
Proof. intros -> HQ. by exists x, w. Qed.

End rules.

(** Run the straight-line part of an operation. *)
Ltac tk_step :=
  lazymatch goal with
  | |- wp (mret _) _ _ => apply wp_ret
  | |- wp (_ ≫= _) _ _ => apply wp_bind
  | |- wp (get _) _ _ => apply wp_get
  | |- wp (dev _) _ _ => eapply tk_dev; [eassumption|]
  | |- wp (set_dev _ _) _ _ => eapply tk_set_dev; [eassumption|intros ? ?]
  | |- wp (fput _) _ _ => eapply tk_fput; [eassumption|eassumption|intros ? ?]
  | |- wp (set_file _ (λ f, f <| f_gfp := @?g f |>)) _ _ =>
      eapply (tk_set_gfp _ _ _ _ _ _ g); [eassumption|eassumption|intros ? ?]
  | |- wp (the_file _) _ _ => eapply tk_the_file; [eassumption|eassumption|intros ? ?]
  | |- wp module_get _ _ => eapply tk_module_get; [eassumption|intros ? ?]
  | |- wp module_put _ _ => eapply tk_module_put; [eassumption|intros ? ?]
  | |- wp (mutex_lock _) _ _ => eapply tk_mutex_lock; [eassumption|try done|intros ? ?]
  | |- wp (mutex_unlock _) _ _ => eapply tk_mutex_unlock; [eassumption|try done|intros ? ?]
  | |- wp (from_option _) _ _ => eapply wp_from_option; [eassumption|]
  end; cbv beta.
Ltac tk_steps := repeat tk_step.

(** Close a [settled] goal from the last [tracks]. *)
Ltac tk_account :=
  intros; unfold plus, only, held, bound in *; cbn in *; repeat case_decide; try congruence; try lia.
Ltac tk_settled :=
  lazymatch goal with
  | H : tracks ?a ?w0 ?w ?d ?δ ?μ |- settled ?a ?w0 ?d0 _ ?w =>
      exists d, δ, μ; split; [exact H|]
  end.

Section specs.
Variable ext_number : nat → Z.
Variable ext_init : nat → loop_info64 → Z.
Variable ext_release : nat → Z.
Variable ext_ioctl : nat → Z → Z → Z.
Variable ext_live : nat → bool.
Variable part_shift : Z.
Context {a : Z} {w0 : world} {d0 : loop_device}.
Hypothesis ok0 : world_ok w0.
Hypothesis acyclic0 : acyclic w0.
Hypothesis dev0 : w_devs w0 !! a = Some d0.

(** The state in which the handlers run: only the mutex has been taken. *)
Definition locked (w : world) : Prop :=
  tracks a w0 w (d0 <| lo_ctl_mutex := true |>) (λ _, 0) 0.

Lemma locked_settled w : locked w → settled a w0 d0 true w.
Proof.
  intros Ht. unfold locked in Ht. tk_settled. destruct (wo_devs _ ok0 _ _ dev0) as [Hd _].
  split_and!; [done|exact Hd|tk_account..].
Qed.

Lemma settled_undo w d δ μ :
  tracks a w0 w d δ μ → d = d0 <| lo_ctl_mutex := true |> → (∀ p, δ p = 0) → μ = 0 →
  settled a w0 d0 true w.
Proof.
  intros Ht -> Hδ ->. tk_settled. destruct (wo_devs _ ok0 _ _ dev0) as [Hd _].
  split_and!; [done|exact Hd| |].
  - intros p. rewrite Hδ. tk_account.
  - tk_account.
Qed.

Lemma set_fd_ends w d δ μ p f :
  tracks a w0 w d δ μ → w_files w0 !! p = Some f → lo_backing_file d = Some p →
  (∀ w1, agree a w0 w1 → ∃ n, file_ends w1 n p = true) → acyclic w.
Proof.
  intros Ht Hf Hp He. pose proof (tracks_agree _ _ _ _ _ _ Ht) as Hag.
  eapply agree_acyclic; [done|done|]. destruct (He w Hag) as [n Hn]. exists (S n).
  simpl. unfold next_dev. rewrite (tracks_lookup _ _ _ _ _ _ Ht). simpl. rewrite Hp. simpl.
  unfold file_ends in Hn. by destruct (w_files w !! p).
Qed.

Lemma file_ends_exists p f : w_files w0 !! p = Some f → file_ends w0 (S (size (w_devs w0))) p = true.
Proof.
  intros Hf. unfold file_ends. rewrite Hf. simpl. destruct (is_loop_device f) as [b|]; [|done].
  destruct (acyclic0 b) as [n Hn]. by eapply ends_bounded.
Qed.

(** Binding no longer or still the same file keeps the chains finite. *)
Lemma same_backing_acyclic w d δ μ :
  tracks a w0 w d δ μ → lo_backing_file d = None ∨ lo_backing_file d = lo_backing_file d0 →
  acyclic w.
Proof.
  intros Ht Hb. pose proof (tracks_agree _ _ _ _ _ _ Ht) as Hag. destruct Hb as [Hb|Hb].
  - eapply agree_acyclic; [done|done|]. exists 1%nat. simpl. unfold next_dev.
    by rewrite (tracks_lookup _ _ _ _ _ _ Ht); simpl; rewrite Hb.
  - assert (∀ x, next_dev w x = next_dev w0 x) as Hn.
    { intros x. destruct (decide (x = a)) as [->|Hx]; [|by eapply agree_next].
      unfold next_dev. rewrite (tracks_lookup _ _ _ _ _ _ Ht), dev0. simpl. rewrite Hb.
      destruct (lo_backing_file d0) as [p|]; [|done]. simpl. destruct Hag as [_ Hf].
      specialize (Hf p). destruct (w_files w !! p), (w_files w0 !! p); simpl in *; by simplify_eq. }
    intros x. destruct (acyclic0 x) as [n Hx]. exists n. revert x Hx.
    induction n as [|n IH]; intros x Hx; [done|]. simpl in *. rewrite Hn.
    destruct (next_dev w0 x); auto.
Qed.

(** What every handler guarantees. *)
Definition handled (m : bool) (w : world) : Prop := settled a w0 d0 m w ∧ acyclic w.

Lemma undo_handled w δ μ :
  tracks a w0 w (d0 <| lo_ctl_mutex := true |>) δ μ → (∀ p, δ p = 0) → μ = 0 → handled true w.
Proof.
  intros Ht Hδ Hμ. split; [by eapply settled_undo|]. eapply same_backing_acyclic; [done|by right].
Qed.

Lemma loop_set_fd_spec kthread c fd w :
  locked w → wp (loop_set_fd part_shift kthread c a fd) (λ _, handled true) w.
Proof.
  intros Ht. unfold locked in Ht. unfold loop_set_fd. do 2 tk_step. apply wp_bind.
  eapply tk_fget; [done|done| |].
  { intros _. tk_steps. by eapply undo_handled; [done|..]. }
  intros p f w2 Hfd Hf Ht2. do 2 tk_step. case_decide as Hst; cbn in Hst.
  { tk_steps. eapply undo_handled; [done|tk_account..]. }
  do 2 tk_step. apply wp_bind.
  assert (LOOP_FUEL w2 = LOOP_FUEL w0) as ->.
  { unfold LOOP_FUEL. rewrite (tr_devs _ _ _ _ _ _ Ht2).
    by rewrite map_size_insert_Some by (by rewrite dev0). }
  eapply wp_mono.
  { eapply (avoid_recursion_spec _ _ _ _ _ _ (S (size (w_devs w0))));
      [done|done|done|by eapply file_ends_exists|unfold LOOP_FUEL; lia]. }
  intros e w3 [-> He]. case_decide as Hne.
  { tk_steps. eapply undo_handled; [done|tk_account..]. }
  specialize (He Hne). apply wp_bind. eapply tk_the_file; [done|done|]. intros f' Hs.
  assert (f_kind f' = f_kind f) as Hkind by (rewrite Hs; by destruct f).
  case_decide as Hk.
  { tk_steps. eapply undo_handled; [done|tk_account..]. }
  case_decide as Hbig.
  { tk_steps. eapply undo_handled; [done|tk_account..]. }
  do 2 tk_step. do 2 tk_step.
  assert (∀ w1, agree a w0 w1 → ∃ n, file_ends w1 n p = true) as Hends by eauto.
  destruct (wo_devs _ ok0 _ _ dev0) as [Hd0 _]. unfold dev_ok in Hd0. rewrite Hst in Hd0.
  destruct Hd0 as (Hb0 & Ht0 & Hdev0 & Hfl0 & Hcap0). destruct kthread as [err|t].
  - tk_steps. split.
    + tk_settled. split_and!; [|done|tk_account..].
      cbn. unfold bind_fields. by case_decide.
    + eapply same_backing_acyclic; [done|by left].
  - do 2 tk_step. apply wp_bind.
    assert (∀ w d δ μ, tracks a w0 w d δ μ → lo_backing_file d = Some p → lo_st d = Lo_bound →
      lo_thread d = Some t → lo_device d = Some a → lo_ctl_mutex d = true →
      (∀ q, δ q = only p 1 q) → μ = 1 → handled true w) as Hfin.
    { intros w5 d5 δ5 μ5 Ht5 Hb5 Hst5 Hth5 Hdv5 Hm5 Hδ5 Hμ5. split.
      - exists d5, δ5, μ5. split_and!; [done|done| | |].
        + unfold dev_ok. rewrite Hst5, Hth5. split_and!; [|done|done].
          exists p, f. by rewrite <- Hkind.
        + intros q. rewrite Hδ5. unfold only, held. rewrite Hb5, Hb0. by repeat case_decide; congruence || lia.
        + unfold bound. rewrite Hst5, Hst, decide_True, decide_False by done. lia.
      - by eapply set_fd_ends. }
    destruct (decide (part_shift ≠ 0)); tk_steps; eapply Hfin; try done; try tk_account;
      cbn; unfold bind_fields; by repeat case_decide.
Qed.

(** ** Operations that keep the binding *)
Definition core (d : loop_device) : lo_state * option Z * option Z * option Z * bool :=
  (lo_st d, lo_backing_file d, lo_thread d, lo_device d, lo_ctl_mutex d).

(** No reference was taken or dropped, and the binding is that of [d0], locked. *)
Definition kept (w : world) : Prop :=
  ∃ d δ, tracks a w0 w d δ 0 ∧ core d = core (d0 <| lo_ctl_mutex := true |>) ∧ (∀ p, δ p = 0) ∧
    (lo_st d0 = Lo_bound ∨ d = d0 <| lo_ctl_mutex := true |>).

Lemma locked_kept w : locked w → kept w.
Proof. intros Ht. eexists _, _. split; [exact Ht|]. auto. Qed.

Lemma kept_handled w : kept w → handled true w.
Proof.
  intros (d & δ & Ht & Hc & Hδ & Hst). destruct Hst as [Hst| ->]; [|by eapply undo_handled].
  injection Hc as H1 H2 H3 H4 H5. cbn in *.
  destruct (wo_devs _ ok0 _ _ dev0) as [Hd0 _]. split.
  - exists d, δ, 0. split_and!; [done|done| | |].
    + unfold dev_ok in *. rewrite H1, H2, H3, H4, Hst in *. exact Hd0.
    + intros p. rewrite Hδ. unfold held. rewrite H2. lia.
    + unfold bound. rewrite H1. lia.
  - eapply same_backing_acyclic; [done|by right].
Qed.

Lemma kept_dev w (Q : loop_device → world → Prop) :
  kept w → (∀ d, core d = core (d0 <| lo_ctl_mutex := true |>) → Q d w) → wp (dev a) Q w.
Proof. intros (d & δ & Ht & Hc & _) HQ. eapply tk_dev; [done|auto]. Qed.

Lemma kept_set_dev w g (Q : () → world → Prop) :
  lo_st d0 = Lo_bound → kept w → (∀ d, core (g d) = core d) → (∀ w', kept w' → Q () w') → wp (set_dev a g) Q w.
Proof.
  intros Hst (d & δ & Ht & Hc & Hδ & _) Hg HQ. eapply tk_set_dev; [done|]. intros w' Ht'.
  apply HQ. exists (g d), δ. rewrite Hg. auto.
Qed.

Lemma kept_file w p f (Q : file → world → Prop) :
  kept w → w_files w0 !! p = Some f → (∀ f', same_file f f' → Q f' w) → wp (the_file p) Q w.
Proof. intros (d & δ & Ht & _) Hf HQ. by eapply tk_the_file. Qed.

Lemma kept_refs w g (Q : () → world → Prop) :
  kept w → (∀ w', kept w' → Q () w') → wp (modify (λ w, w <| w_xfer_refs ::= g |>)) Q w.
Proof.
  intros (d & δ & Ht & Hc & Hδ & Hst) HQ. eapply tk_xfer_refs; [done|]. intros w' Ht'.
  apply HQ. by exists d, δ.
Qed.

(** Only the transfer and its module's count change. *)
Lemma release_xfer_tracks w d δ μ :
  tracks a w0 w d δ μ →
  wp (loop_release_xfer ext_release a) (λ _ w', ∃ d', tracks a w0 w' d' δ μ ∧ core d' = core d) w.
Proof.
  intros Ht. unfold loop_release_xfer. do 2 tk_step.
  destruct (lo_encryption d) as [x|]; [|apply wp_ret; by exists d].
  do 2 tk_step. apply wp_bind. destruct x; cbn; [apply wp_ret, wp_ret; by eexists..|].
  eapply tk_xfer_refs; [done|]. intros w2 Ht2. apply wp_ret. by eexists.
Qed.

Section bound.
Hypothesis bound0 : lo_st d0 = Lo_bound.

Lemma release_xfer_kept w : kept w → wp (loop_release_xfer ext_release a) (λ _, kept) w.
Proof.
  intros (d & δ & Ht & Hc & Hδ & _). eapply wp_mono; [by apply release_xfer_tracks|].
  intros _ w' (d' & Ht' & Hc'). exists d', δ. rewrite Hc'. auto.
Qed.

Lemma init_xfer_kept w x i : kept w → wp (loop_init_xfer ext_init ext_live a x i) (λ _, kept) w.
Proof.
  intros Hk. unfold loop_init_xfer. destruct x as [x|]; [|by apply wp_ret].
  apply wp_bind. apply (wp_mono _ (λ _, kept)).
  { destruct x; cbn; [by apply wp_ret..|]. destruct (ext_live n); [|by apply wp_ret].
    apply wp_bind. eapply kept_refs; [done|]. intros. by apply wp_ret. }
  intros ok w1 Hk1. destruct ok; cbn; [|by apply wp_ret]. case_decide.
  - apply wp_bind. apply (wp_mono _ (λ _, kept)); [|intros; by apply wp_ret].
    destruct x; cbn; [by apply wp_ret..|]. eapply kept_refs; [done|]. done.
  - apply wp_bind. eapply kept_set_dev; [done|done|done|]. intros. by apply wp_ret.
Qed.

Context {p : Z} {f : file}.
Hypothesis backing0 : lo_backing_file d0 = Some p.
Hypothesis file0 : w_files w0 !! p = Some f.

Lemma core_backing d : core d = core (d0 <| lo_ctl_mutex := true |>) → lo_backing_file d = Some p.
Proof. intros Hc. injection Hc as _ Hb _ _ _. by rewrite Hb. Qed.

Lemma figure_size_kept w offset sizelimit :
  kept w → wp (figure_loop_size a offset sizelimit) (λ _, kept) w.
Proof.
  intros Hk. unfold figure_loop_size. apply wp_bind. eapply kept_dev; [done|]. intros d Hc.
  apply wp_bind. eapply wp_from_option; [by apply core_backing|].
  apply wp_bind. eapply kept_file; [done|done|]. intros f' _. case_decide; [by apply wp_ret|].
  apply wp_bind. eapply kept_set_dev; [done|done|done|]. intros. by apply wp_ret.
Qed.

Lemma config_discard_kept w : kept w → wp (loop_config_discard a) (λ _, kept) w.
Proof.
  intros Hk. unfold loop_config_discard. apply wp_bind. eapply kept_dev; [done|]. intros d Hc.
  apply wp_bind. eapply wp_from_option; [by apply core_backing|].
  apply wp_bind. eapply kept_file; [done|done|]. intros f' _.
  case_decide; (eapply kept_set_dev; [done|done|done|done]).
Qed.

End bound.

(** The backing file of a bound device. *)
Lemma bound_file : lo_st d0 = Lo_bound → ∃ p f, lo_backing_file d0 = Some p ∧ w_files w0 !! p = Some f.
Proof.
  intros Hst. destruct (wo_devs _ ok0 _ _ dev0) as [Hd _]. unfold dev_ok in Hd.
  rewrite Hst in Hd. naive_solver.
Qed.

Lemma set_status_kept c i w :
  kept w → wp (loop_set_status ext_init ext_release ext_live c a i) (λ _, kept) w.
Proof.
  intros Hk. unfold loop_set_status. apply wp_bind. eapply kept_dev; [done|]. intros d Hc.
  case_decide; [by apply wp_ret|]. case_decide as Hst; [by apply wp_ret|].
  assert (lo_st d0 = Lo_bound) as Hst0 by (injection Hc as H1 _ _ _ _; cbn in H1; congruence).
  destruct (bound_file Hst0) as (p & f & Hp & Hf).
  case_decide; [by apply wp_ret|].
  apply wp_bind. eapply wp_mono; [by apply release_xfer_kept|]. intros e w1 Hk1.
  case_decide; [by apply wp_ret|]. apply wp_bind. apply (wp_mono _ (λ _, kept)).
  { unfold lookup_xfer. repeat case_decide; try by apply wp_ret.
    apply wp_bind, wp_get. case_match; by apply wp_ret. }
  intros r w2 Hk2. destruct r as [err|x]; [by apply wp_ret|].
  apply wp_bind. eapply wp_mono; [by apply init_xfer_kept|]. intros e2 w3 Hk3.
  case_decide; [by apply wp_ret|]. apply wp_bind. apply (wp_mono _ (λ _, kept)).
  { case_decide; [by eapply figure_size_kept|by apply wp_ret]. }
  intros e3 w4 Hk4. case_decide; [by apply wp_ret|].
  apply wp_bind. eapply wp_mono; [by eapply config_discard_kept|]. intros [] w5 Hk5.
  apply wp_bind. eapply kept_set_dev; [done|done| |intros; by apply wp_ret].
  intros d'. unfold set_status_fields. repeat case_decide; done.
Qed.

Lemma set_capacity_kept w : kept w → wp (loop_set_capacity a) (λ _, kept) w.
Proof.
  intros Hk. unfold loop_set_capacity. apply wp_bind. eapply kept_dev; [done|]. intros d Hc.
  case_decide as Hst; [by apply wp_ret|].
  assert (lo_st d0 = Lo_bound) as Hst0 by (injection Hc as H1 _ _ _ _; cbn in H1; congruence).
  destruct (bound_file Hst0) as (p & f & Hp & Hf).
  apply wp_bind. eapply wp_mono; [by eapply figure_size_kept|]. intros e w1 Hk1.
  case_decide; [by apply wp_ret|]. apply wp_bind. eapply kept_set_dev; [done|done|done|].
  intros. by apply wp_ret.
Qed.

Lemma get_status_kept c stat w :
  kept w → wp (loop_get_status ext_number c stat a) (λ _, kept) w.
Proof.
  intros Hk. unfold loop_get_status. apply wp_bind. eapply kept_dev; [done|]. intros d Hc.
  case_decide; [by apply wp_ret|]. destruct stat; by apply wp_ret.
Qed.

(** ** Unbinding *)
Lemma clear_fields_spec n d :
  let d' := clear_fields n d in
  lo_backing_file d' = None ∧ lo_st d' = Lo_unbound ∧ lo_thread d' = None ∧ lo_device d' = None ∧
  lo_flags d' = 0 ∧ lo_capacity d' = 0 ∧ lo_ctl_mutex d' = lo_ctl_mutex d.
Proof. by destruct d. Qed.

(** The device with a changed reference count, as [lo_release] leaves it to [loop_clr_fd]. *)
Lemma loop_clr_fd_spec n w :
  tracks a w0 w (d0 <| lo_refcnt := n |> <| lo_ctl_mutex := true |>) (λ _, 0) 0 →
  wp (loop_clr_fd ext_release part_shift a)
    (λ e w', (e = 0 → handled false w') ∧ (e ≠ 0 → w' = w)) w.
Proof.
  intros Ht. unfold loop_clr_fd. do 2 tk_step. cbn.
  case_decide as Hst; [by apply wp_ret|].
  destruct (wo_devs _ ok0 _ _ dev0) as [Hd0 _]. destruct (bound_file Hst) as (p & f & Hp & Hf).
  case_decide as Hn.
  { tk_steps. split; [|done]. intros _. split.
    - tk_settled. split_and!; [done| |tk_account..]. unfold dev_ok in *. cbn. by rewrite Hst in *.
    - eapply same_backing_acyclic; [done|by right]. }
  rewrite Hp. do 4 tk_step. apply wp_bind.
  eapply wp_mono; [by eapply release_xfer_tracks|]. intros e w3 (d3 & Ht3 & Hc3).
  injection Hc3 as Hc1 Hc2 Hc3 Hc4 Hc5. cbn in Hc1, Hc2, Hc3, Hc4, Hc5.
  apply wp_bind. eapply tk_set_dev; [done|]. intros w4 Ht4.
  destruct (clear_fields_spec part_shift d3) as (Hb & Hst4 & Hth & Hdv & Hfl & Hcp & Hmx).
  generalize dependent (clear_fields part_shift d3). intros d4 Ht4 Hb Hst4 Hth Hdv Hfl Hcp Hmx.
  rewrite Hc5 in Hmx. tk_steps. split; [|done]. intros _. split.
  - tk_settled. split_and!; [done| | |].
    + unfold dev_ok. cbn. by rewrite Hst4.
    + tk_account.
    + tk_account.
  - eapply same_backing_acyclic; [done|by left].
Qed.

(** The memory a switch needs is there, or the switch is not begun. *)
Definition switch_ok (env : switch_env) : Prop :=
  sw_bio env = true → sw_head env = true ∧ sw_kept env = true.

(** ** Changing the backing file: everything but the chains *)
Lemma loop_change_fd_spec env fd w :
  switch_ok env → locked w → wp (loop_change_fd env a fd) (λ _, settled a w0 d0 true) w.
Proof.
  intros Henv Ht. unfold locked in Ht. unfold loop_change_fd. do 2 tk_step. cbn.
  assert (settled a w0 d0 true w) as Hsame by by apply locked_settled.
  case_decide as Hst; [by apply wp_ret|]. case_decide; [by apply wp_ret|].
  destruct (wo_devs _ ok0 _ _ dev0) as [Hd0 _]. destruct (bound_file Hst) as (q & g & Hq & Hg).
  apply wp_bind. eapply tk_fget; [done|done|intros _; by apply wp_ret|].
  intros p f w1 Hfd Hf Ht1. apply wp_bind. eapply tk_the_file; [done|done|]. intros f' Hs.
  assert (f_kind f' = f_kind f) as Hkind by (rewrite Hs; by destruct f).
  apply wp_bind. eapply wp_from_option; [exact Hq|].
  apply wp_bind. eapply tk_the_file; [exact Ht1|exact Hg|]. intros g' _.
  case_decide as Hk.
  { tk_steps. eapply settled_undo; [done|done|tk_account..]. }
  case_decide.
  { tk_steps. eapply settled_undo; [done|done|tk_account..]. }
  apply wp_bind. unfold loop_switch. destruct (sw_bio env) eqn:Eb; cbn.
  2:{ tk_steps. case_decide; [|done]. tk_steps. eapply settled_undo; [done|done|tk_account..]. }
  destruct (Henv Eb) as [Hh Hkp].
  unfold redirect_switch. rewrite Hh, Hkp. apply wp_bind. do 2 tk_step. cbn.
  apply wp_bind. eapply wp_from_option; [exact Hq|].
  apply wp_bind. eapply tk_the_file; [exact Ht1|exact Hg|]. intros g1 _.
  apply wp_bind. do 2 tk_step. cbn. apply wp_bind. eapply wp_from_option; [exact Hq|].
  apply wp_bind. eapply (tk_set_gfp _ _ _ _ _ _ (λ _, _)); [exact Ht1|exact Hg|]. intros w2 Ht2.
  apply wp_bind. eapply tk_the_file; [exact Ht2|exact Hf|]. intros f2 _. do 2 tk_step.
  eapply (tk_set_gfp _ _ _ _ _ _ (λ f, Z.ldiff (f_gfp f) GFP_IO_FS)); [done|exact Hf|].
  intros w4 Ht4. apply wp_ret, wp_ret. case_decide; [done|]. apply wp_bind.
  eapply tk_fput; [exact Ht4|exact Hg|]. intros w5 Ht5. apply wp_ret.
  tk_settled. unfold dev_ok in *. rewrite Hst in Hd0. split_and!; [done| |tk_account..].
  cbn. rewrite Hst. destruct Hd0 as (_ & ? & ?). split_and!; [|done|done].
  exists p, f. by rewrite <- Hkind.
Qed.

(** ** The entry points *)
Definition is_change (cmd : loop_cmd) : bool :=
  match cmd with LOOP_CHANGE_FD _ _ => true | _ => false end.
Definition cmd_ok (cmd : loop_cmd) : Prop :=
  match cmd with LOOP_CHANGE_FD _ env => switch_ok env | _ => True end.

Lemma not_change_ok cmd : is_change cmd = false → cmd_ok cmd.
Proof. by destruct cmd. Qed.

Lemma unlock_settled w :
  settled a w0 d0 true w → wp (mutex_unlock a) (λ _, settled a w0 d0 false) w.
Proof.
  intros (d & δ & μ & Ht & Hm & Hd & Hδ & Hμ). eapply tk_mutex_unlock; [done|done|].
  intros w' Ht'. by exists (d <| lo_ctl_mutex := false |>), δ, μ.
Qed.

Lemma unlock_handled w :
  handled true w → wp (mutex_unlock a) (λ _, handled false) w.
Proof.
  intros [(d & δ & μ & Ht & Hm & Hd & Hδ & Hμ) Hac]. eapply tk_mutex_unlock; [done|done|].
  intros w' Ht'. split; [by exists (d <| lo_ctl_mutex := false |>), δ, μ|].
  intros x. destruct (Hac x) as [n Hn]. exists n. rewrite <- Hn. revert x Hn.
  assert (∀ x, next_dev w' x = next_dev w x) as Hnext.
  { intros x. unfold next_dev. rewrite (tr_devs _ _ _ _ _ _ Ht), (tr_devs _ _ _ _ _ _ Ht').
    pose proof (tracks_agree _ _ _ _ _ _ Ht) as [_ Hf].
    pose proof (tracks_agree _ _ _ _ _ _ Ht') as [_ Hf'].
    assert (∀ p, w_files w' !! p ≫= is_loop_device = w_files w !! p ≫= is_loop_device) as E.
    { intros p. specialize (Hf p). specialize (Hf' p). rewrite <- Hf in Hf'.
      destruct (w_files w' !! p), (w_files w !! p); simpl in *; by simplify_eq. }
    destruct (decide (x = a)) as [->|Hx].
    - rewrite !lookup_insert_eq. simpl. destruct (lo_backing_file d); [|done]. simpl. apply E.
    - rewrite !lookup_insert_ne by done. destruct (w_devs w0 !! x) as [dx|]; [|done]. simpl.
      destruct (lo_backing_file dx); [|done]. simpl. apply E. }
  clear -Hnext. induction n as [|n IH]; intros x Hn; [done|]. simpl in *. rewrite Hnext.
  destruct (next_dev w x); [|done]. apply IH. done.
Qed.

(** The handler's verdict: whether it released the mutex itself. *)
Lemma ioctl_switch_spec c cmd w :
  cmd_ok cmd → locked w →
  wp (lo_ioctl_switch ext_number ext_init ext_release ext_ioctl ext_live part_shift c a cmd)
    (λ r w', settled a w0 d0 (negb r.2) w' ∧
       (is_change cmd = false → handled (negb r.2) w')) w.
Proof.
  intros Hcmd Hl. pose proof (locked_kept _ Hl) as Hk.
  assert (∀ w', kept w' → settled a w0 d0 true w' ∧
    (is_change cmd = false → handled true w')) as Hkept.
  { intros w' Hk'. pose proof (kept_handled _ Hk') as Hh. split; [apply Hh|done]. }
  assert (∀ c i, wp (loop_set_status ext_init ext_release ext_live c a i) (λ _, kept) w) as Hset
    by (intros; by apply set_status_kept).
  destruct cmd; cbn [lo_ioctl_switch]; apply wp_bind.
  - eapply wp_mono; [by apply loop_set_fd_spec|]. intros e w' Hh. apply wp_ret. cbn.
    split; [apply Hh|done].
  - eapply wp_mono; [by apply loop_change_fd_spec|]. intros e w' Hs. apply wp_ret. cbn.
    done.
  - assert (d0 <| lo_refcnt := lo_refcnt d0 |> = d0) as E by by destruct d0.
    eapply wp_mono; [apply (loop_clr_fd_spec (lo_refcnt d0)); rewrite E; exact Hl|].
    intros e w' [H0 H1]. apply wp_ret. cbn. case_bool_decide as He; cbn.
    + split; [by apply H0|intros _; by apply H0].
    + rewrite H1 by done. by apply Hkept.
  - apply (wp_mono _ (λ _, kept)); [|intros; apply wp_ret; by apply Hkept].
    destruct (privileged c); [|by apply wp_ret]. destruct arg; cbn; [apply Hset|by apply wp_ret].
  - apply (wp_mono _ (λ _, kept)); [|intros [] ? ?; apply wp_ret; by apply Hkept].
    unfold loop_get_status_old. destruct arg_null; [by apply wp_ret|]. apply wp_bind.
    eapply wp_mono; [by apply get_status_kept|]. intros [|i] w1 Hk1; [by apply wp_ret|].
    destruct (loop_info64_to_old i). case_decide; [by apply wp_ret|].
    destruct copy_ok; by apply wp_ret.
  - apply (wp_mono _ (λ _, kept)); [|intros; apply wp_ret; by apply Hkept].
    destruct (privileged c); [|by apply wp_ret]. destruct arg; cbn; [apply Hset|by apply wp_ret].
  - apply (wp_mono _ (λ _, kept)); [|intros [] ? ?; apply wp_ret; by apply Hkept].
    unfold loop_get_status64. destruct arg_null; [by apply wp_ret|]. apply wp_bind.
    eapply wp_mono; [by apply get_status_kept|]. intros [|i] w1 Hk1; [by apply wp_ret|].
    destruct copy_ok; by apply wp_ret.
  - apply (wp_mono _ (λ _, kept)); [|intros; apply wp_ret; by apply Hkept].
    destruct (privileged c); [|by apply wp_ret]. by apply set_capacity_kept.
  - eapply kept_dev; [done|]. intros d Hc. apply wp_ret. by apply Hkept.
Qed.

Lemma lock_spec (Q : () → world → Prop) : (∀ w, locked w → Q () w) → wp (mutex_lock a) Q w0.
Proof.
  intros HQ. destruct (wo_devs _ ok0 _ _ dev0) as [_ Hm].
  eapply tk_mutex_lock; [by apply tracks_refl|done|]. intros w Ht. by apply HQ.
Qed.

Lemma lo_ioctl_spec c cmd :
  cmd_ok cmd → wp (lo_ioctl ext_number ext_init ext_release ext_ioctl ext_live part_shift c a cmd)
    (λ _ w, settled a w0 d0 false w ∧ (is_change cmd = false → handled false w)) w0.
Proof.
  intros Hcmd. unfold lo_ioctl. apply wp_bind, lock_spec. intros w Hl. apply wp_bind.
  eapply wp_mono; [by apply ioctl_switch_spec|]. intros [[err o] unlocked] w1 [Hs Hh]. cbn in Hs, Hh.
  destruct unlocked; cbn in *; [by apply wp_bind, wp_ret, wp_ret|]. apply wp_bind.
  destruct (is_change cmd).
  - eapply wp_mono; [by apply unlock_settled|]. intros [] w2 Hs2. by apply wp_ret.
  - eapply wp_mono; [by apply unlock_handled, Hh|]. intros [] w2 Hh2. apply wp_ret.
    split; [apply Hh2|done].
Qed.

Lemma locked_op {A} (m : M A) :
  (∀ w, locked w → wp m (λ _, handled true) w) →
  wp (mutex_lock a ≫= λ _, m ≫= λ r, mutex_unlock a ≫= λ _, mret r) (λ _, handled false) w0.
Proof.
  intros Hm. apply wp_bind, lock_spec. intros w Hl. apply wp_bind.
  eapply wp_mono; [by apply Hm|]. intros r w1 Hh. apply wp_bind.
  eapply wp_mono; [by apply unlock_handled|]. intros [] w2 Hh2. by apply wp_ret.
Qed.

Lemma lo_compat_ioctl_spec c cmd :
  cmd_ok cmd → wp (lo_compat_ioctl ext_number ext_init ext_release ext_ioctl ext_live part_shift c a cmd)
    (λ _ w, settled a w0 d0 false w ∧ (is_change cmd = false → handled false w)) w0.
Proof.
  intros Hcmd. assert (∀ {A} (m : M A), wp m (λ _, handled false) w0 → wp m (λ _ w, settled a w0 d0 false w ∧
    (is_change cmd = false → handled false w)) w0) as Hweak.
  { intros A m Hm. eapply wp_mono; [done|]. intros r w Hh. split; [apply Hh|done]. }
  pose proof (lo_ioctl_spec c cmd Hcmd) as Hio.
  destruct cmd; try exact Hio; cbn [lo_compat_ioctl]; apply Hweak; clear Hweak.
  - apply wp_bind, lock_spec. intros w Hl. apply wp_bind. apply (wp_mono _ (λ _, kept)).
    + unfold loop_set_status_compat. destruct arg as [i|]; cbn;
        [by apply set_status_kept, locked_kept|by apply wp_ret, locked_kept].
    + intros e w1 Hk. apply wp_bind. eapply wp_mono; [by apply unlock_handled, kept_handled|].
      intros [] w2 Hh2. by apply wp_ret.
  - apply wp_bind, lock_spec. intros w Hl. apply wp_bind. apply (wp_mono _ (λ _, kept)).
    + unfold loop_get_status_compat. destruct arg_null; [by apply wp_ret, locked_kept|].
      apply wp_bind. eapply wp_mono; [by apply get_status_kept, locked_kept|].
      intros [|i] w1 Hk1; by apply wp_ret.
    + intros [e o] w1 Hk. apply wp_bind. eapply wp_mono; [by apply unlock_handled, kept_handled|].
      intros [] w2 Hh2. by apply wp_ret.
  - apply wp_ret. destruct (wo_devs _ ok0 _ _ dev0) as [Hd Hm]. split; [|done].
    exists d0, (λ _, 0), 0. split_and!; [by apply tracks_refl|done|done|tk_account..].
Qed.

Lemma lo_release_spec env :
  switch_ok env → wp (lo_release ext_release part_shift env a) (λ _, handled false) w0.
Proof.
  intros Henv. unfold lo_release. apply wp_bind, lock_spec. intros w Hl. unfold locked in Hl. apply wp_bind.
  eapply tk_set_dev; [done|]. intros w1 Ht1. do 2 tk_step. cbn.
  destruct (wo_devs _ ok0 _ _ dev0) as [Hd _].
  assert (d0 <| lo_ctl_mutex := true |> <| lo_refcnt ::= Z.pred |> =
          d0 <| lo_refcnt := Z.pred (lo_refcnt d0) |> <| lo_ctl_mutex := true |>) as E by by destruct d0.
  assert (handled true w1) as Hh.
  { split.
    - tk_settled. split_and!; [done|exact Hd|tk_account..].
    - eapply same_backing_acyclic; [done|by right]. }
  assert (wp (mutex_unlock a ≫= λ _, mret 0) (λ _, handled false) w1) as Hun.
  { apply wp_bind. eapply wp_mono; [by apply unlock_handled|]. intros. by apply wp_ret. }
  case_decide; [done|]. case_decide.
  - apply wp_bind. eapply wp_mono.
    { eapply (loop_clr_fd_spec (Z.pred (lo_refcnt d0))). rewrite <- E. done. }
    intros e w2 [He0 He1]. case_decide; [by apply wp_ret, He0|]. by rewrite He1.
  - apply wp_bind. unfold loop_flush. do 2 tk_step. cbn.
    destruct (lo_thread d0) eqn:Eth; [|by apply wp_ret]. unfold loop_switch.
    destruct (sw_bio env) eqn:Eb; [|by apply wp_ret]. destruct (Henv Eb) as [Hhd Hkp].
    assert (lo_st d0 = Lo_bound) as Hst.
    { unfold dev_ok in Hd. destruct (lo_st d0); naive_solver. }
    destruct (bound_file Hst) as (q & g & Hq & Hg).
    apply wp_bind. unfold redirect_switch. rewrite Hhd, Hkp. do 2 tk_step. cbn.
    apply wp_bind. eapply wp_from_option; [exact Hq|].
    apply wp_bind. eapply tk_the_file; [exact Ht1|exact Hg|]. intros g1 _.
    by apply wp_bind, wp_ret, wp_ret, wp_ret.
Qed.

End specs.

(** ** Sequences of operations *)
Definition sumM (f : loop_device → Z) (m : gmap Z loop_device) : Z := map_fold (λ _ d s, f d + s) 0 m.

Lemma sumM_update f m a d0 d :
  m !! a = Some d0 → sumM f (<[a := d]> m) = sumM f m - f d0 + f d.
Proof.
  intros Hd. unfold sumM. rewrite <- (insert_delete_eq m a d).
  rewrite <- (insert_id m a d0 Hd) at 2. rewrite <- (insert_delete_eq m a d0).
  assert (∀ x, map_fold (λ _ (d : loop_device) s, f d + s) 0 (<[a:=x]> (delete a m)) =
    f x + map_fold (λ _ (d : loop_device) s, f d + s) 0 (delete a m)) as E.
  { intros x. rewrite (map_fold_insert_L (λ _ d s, f d + s)); [done| |apply lookup_delete_eq].
    intros; lia. }
  rewrite !E. lia.
Qed.

Inductive ctl_op :=
  | OpIoctl (c : caller) (a : Z) (cmd : loop_cmd)
  | OpCompat (c : caller) (a : Z) (cmd : loop_cmd)
  | OpOpen (private : option Z)
  | OpRelease (env : switch_env) (a : Z).

Section machine.
Variable ext_number : nat → Z.
Variable ext_init : nat → loop_info64 → Z.
Variable ext_release : nat → Z.
Variable ext_ioctl : nat → Z → Z → Z.
Variable ext_live : nat → bool.
Variable part_shift : Z.

Definition run_op (op : ctl_op) : M () :=
  match op with
  | OpIoctl c a cmd =>
      _ ← lo_ioctl ext_number ext_init ext_release ext_ioctl ext_live part_shift c a cmd; mret ()
  | OpCompat c a cmd =>
      _ ← lo_compat_ioctl ext_number ext_init ext_release ext_ioctl ext_live part_shift c a cmd; mret ()
  | OpOpen private => _ ← lo_open private; mret ()
  | OpRelease env a => _ ← lo_release ext_release part_shift env a; mret ()
  end.

Fixpoint run_ops (ops : list ctl_op) : M () :=
  match ops with [] => mret () | op :: ops => _ ← run_op op; run_ops ops end.

(** The device an operation is applied to exists; it is not [LOOP_CHANGE_FD]; a release finds
    the memory of its flush in order. *)
Definition op_ok (w : world) (op : ctl_op) : Prop :=
  match op with
  | OpIoctl _ a cmd | OpCompat _ a cmd => is_Some (w_devs w !! a) ∧ is_change cmd = false
  | OpOpen private => ∀ a, private = Some a → is_Some (w_devs w !! a)
  | OpRelease env a => is_Some (w_devs w !! a) ∧ switch_ok env
  end.

(** The books are kept: references of files and of the module in excess of the bindings. *)
Definition balanced (w w' : world) : Prop :=
  (∀ a, is_Some (w_devs w' !! a) ↔ is_Some (w_devs w !! a)) ∧
  (∀ p f, w_files w !! p = Some f → ∃ f', w_files w' !! p = Some f' ∧
    f_count f' - sumM (λ d, held d p) (w_devs w') = f_count f - sumM (λ d, held d p) (w_devs w)) ∧
  w_module w' - sumM bound (w_devs w') = w_module w - sumM bound (w_devs w).

Lemma balanced_refl w : balanced w w.
Proof. split_and!; [done| |done]. intros p f Hf. by exists f. Qed.

Lemma balanced_trans w1 w2 w3 : balanced w1 w2 → balanced w2 w3 → balanced w1 w3.
Proof.
  intros (Ha & Hf & Hm) (Ha' & Hf' & Hm'). split_and!; [naive_solver| |lia].
  intros p f Hp. destruct (Hf p f Hp) as (f2 & Hp2 & E2).
  destruct (Hf' p f2 Hp2) as (f3 & Hp3 & E3). exists f3. split; [done|lia].
Qed.

Lemma settled_balanced a w d0 w' :
  w_devs w !! a = Some d0 → settled a w d0 false w' → balanced w w'.
Proof.
  intros Hd (d & δ & μ & Ht & _ & _ & Hδ & Hμ). split_and!.
  - intros b. rewrite (tr_devs _ _ _ _ _ _ Ht). destruct (decide (b = a)) as [->|Hb].
    + rewrite lookup_insert_eq, Hd. naive_solver.
    + by rewrite lookup_insert_ne.
  - intros p f Hf. destruct (tracks_file _ _ _ _ _ _ _ _ Ht Hf) as (f' & Hf' & _ & Hc).
    exists f'. split; [done|]. rewrite (tr_devs _ _ _ _ _ _ Ht), (sumM_update _ _ _ _ _ Hd).
    rewrite Hc, Hδ. lia.
  - rewrite (tr_devs _ _ _ _ _ _ Ht), (sumM_update _ _ _ _ _ Hd), (tr_module _ _ _ _ _ _ Ht). lia.
Qed.

Lemma dev_ok_files files files' a d :
  (∀ p f, files !! p = Some f → ∃ f', files' !! p = Some f' ∧ f_kind f' = f_kind f) →
  dev_ok files a d → dev_ok files' a d.
Proof.
  intros Hf. unfold dev_ok. destruct (lo_st d); [done| |done].
  intros ((p & f & Hp & Hpf & Hk) & ?). split; [|done].
  destruct (Hf p f Hpf) as (f' & ? & E). exists p, f'. by rewrite E.
Qed.

Lemma settled_world_ok a w d0 w' :
  world_ok w → w_devs w !! a = Some d0 → settled a w d0 false w' → world_ok w'.
Proof.
  intros Hok Hd (d & δ & μ & Ht & Hm & Hdev & _).
  assert (∀ p f, w_files w !! p = Some f →
    ∃ f', w_files w' !! p = Some f' ∧ f_kind f' = f_kind f) as Hfiles.
  { intros p f Hf. destruct (tracks_file _ _ _ _ _ _ _ _ Ht Hf) as (f' & Hf' & Hs & _).
    exists f'. split; [done|]. rewrite Hs. by destruct f. }
  constructor.
  - intros b db. rewrite (tr_devs _ _ _ _ _ _ Ht). destruct (decide (b = a)) as [->|Hb].
    + rewrite lookup_insert_eq. intros [= <-]. split; [by eapply dev_ok_files|done].
    + rewrite lookup_insert_ne by done. intros Hdb. destruct (wo_devs _ Hok _ _ Hdb).
      split; [by eapply dev_ok_files|done].
  - intros fd p. rewrite (tr_fds _ _ _ _ _ _ Ht). intros Hfd.
    destruct (wo_fds _ Hok _ _ Hfd) as [f Hf]. destruct (Hfiles _ _ Hf) as (f' & -> & _). by eexists.
  - intros p f' b Hf' Hb. rewrite (tr_devs _ _ _ _ _ _ Ht).
    pose proof (tr_files _ _ _ _ _ _ Ht p) as Hp. rewrite Hf' in Hp.
    destruct (w_files w !! p) as [f|] eqn:Hf; [|done]. destruct Hp as [Hs _].
    assert (is_loop_device f = Some b) as Hb' by (rewrite <- Hb, Hs; by destruct f).
    destruct (wo_loops _ Hok _ _ _ Hf Hb') as [x Hx].
    destruct (decide (b = a)) as [->|?]; [rewrite lookup_insert_eq|rewrite lookup_insert_ne by done]; eauto.
  - rewrite (tr_index _ _ _ _ _ _ Ht). apply Hok.
Qed.

Lemma lo_open_spec w private :
  world_ok w → acyclic w → (∀ a, private = Some a → is_Some (w_devs w !! a)) →
  wp (lo_open private) (λ _ w', world_ok w' ∧ acyclic w' ∧ balanced w w') w.
Proof.
  intros Hok Hac Hp. unfold lo_open. apply wp_bind, wp_get. rewrite (wo_index _ Hok).
  apply wp_bind, wp_modify. apply wp_bind. destruct private as [a|].
  2:{ apply wp_ret, wp_bind, wp_modify, wp_ret.
      assert (((w <| w_index_mutex := true |>) <| w_index_mutex := false |>) = w) as ->.
      { pose proof (wo_index _ Hok) as E. destruct w; simpl in *. by subst. }
      split; [done|]. split; [done|]. apply balanced_refl. }
  destruct (Hp a eq_refl) as [d0 Hd]. destruct (wo_devs _ Hok _ _ Hd) as [Hdev Hm].
  apply wp_bind. eapply wp_mutex_lock; [exact Hd|done|].
  apply wp_bind. eapply wp_set_dev; [by simpl; rewrite lookup_insert_eq|].
  apply wp_bind. eapply wp_mutex_unlock; [by simpl; rewrite lookup_insert_eq|done|].
  apply wp_ret, wp_bind, wp_modify, wp_ret.
  match goal with |- world_ok ?w' ∧ _ => set (w1 := w') end.
  set (d1 := (((d0 <| lo_ctl_mutex := true |>) <| lo_refcnt ::= Z.succ |>) <| lo_ctl_mutex := false |>)).
  assert (tracks a w w1 d1 (λ _, 0) 0) as Ht.
  { constructor; try done.
    - unfold w1. simpl. by rewrite !insert_insert_eq.
    - by rewrite (wo_index _ Hok).
    - intros p. simpl. destruct (w_files w !! p) as [f|]; [|done]. split; [by destruct f|lia].
    - simpl. lia. }
  assert (settled a w d0 false w1) as Hs.
  { exists d1, (λ _, 0), 0. split_and!; [done|done|exact Hdev|tk_account..]. }
  split; [by eapply settled_world_ok|]. split; [|by eapply settled_balanced].
  eapply same_backing_acyclic; [done|exact Hd|exact Ht|by right].
Qed.

Lemma run_op_spec w op :
  world_ok w → acyclic w → op_ok w op →
  wp (run_op op) (λ _ w', world_ok w' ∧ acyclic w' ∧ balanced w w') w.
Proof.
  intros Hok Hac Hop.
  assert (∀ A (m : M A) a d0, w_devs w !! a = Some d0 →
    wp m (λ _, handled (a := a) (w0 := w) (d0 := d0) false) w →
    wp (_ ← m; mret ()) (λ _ w', world_ok w' ∧ acyclic w' ∧ balanced w w') w) as Hfin.
  { intros A m a d0 Hd Hm. apply wp_bind. eapply wp_mono; [exact Hm|]. intros r w' [Hs Ha].
    apply wp_ret. eauto using settled_world_ok, settled_balanced. }
  destruct op as [c a cmd|c a cmd|private|env a]; simpl in *.
  - destruct Hop as [[d0 Hd] Hch]. eapply Hfin; [done|].
    eapply wp_mono; [by apply lo_ioctl_spec, not_change_ok|]. intros r w' [_ Hh]. auto.
  - destruct Hop as [[d0 Hd] Hch]. eapply Hfin; [done|].
    eapply wp_mono; [by apply lo_compat_ioctl_spec, not_change_ok|]. intros r w' [_ Hh]. auto.
  - apply wp_bind. eapply wp_mono; [by apply lo_open_spec|]. intros. by apply wp_ret.
  - destruct Hop as [[d0 Hd] Henv]. eapply Hfin; [done|]. by apply lo_release_spec.
Qed.

End machine.

(** ** Properties *)

(** C3: any sequence of ioctls (native or compat, whatever their arguments), opens and
    releases on existing devices, [LOOP_CHANGE_FD] apart, runs without a bad pointer, a
    self-deadlock or an unbalanced unlock, and its loops end, provided that each release that
    sends the flush bio gets the [lo_bio_head] that [redirect_bio] does not test and finds the
    bio, which [redirect_bio] uses after its last [bio_put], unchanged.  Afterwards every
    device is cleanly bound or cleanly unbound with its mutex free, the chains of stacked
    devices are finite, and each file and the module hold exactly as many references more than
    before as there are more bindings. *)
Theorem control_ops_safe (ext_number : nat → Z) (ext_init : nat → loop_info64 → Z)
    (ext_release : nat → Z) (ext_ioctl : nat → Z → Z → Z) (ext_live : nat → bool)
    (part_shift : Z) (ops : list ctl_op) (w : world) :
  world_ok w → acyclic w → Forall (op_ok w) ops →
  ∃ w', run_ops ext_number ext_init ext_release ext_ioctl ext_live part_shift ops w = Ok ((), w') ∧
    world_ok w' ∧ acyclic w' ∧ balanced w w'.
Proof.
  revert w. induction ops as [|op ops IH]; intros w Hok Hac Hops.
  { exists w. split; [done|]. auto using balanced_refl. }
  apply Forall_cons in Hops as [Hop Hops].
  destruct (run_op_spec ext_number ext_init ext_release ext_ioctl ext_live part_shift w op Hok Hac Hop)
    as ([] & w1 & E1 & Hok1 & Hac1 & Hb1).
  destruct (IH w1 Hok1 Hac1) as (w2 & E2 & Hok2 & Hac2 & Hb2).
  { eapply Forall_impl; [exact Hops|]. destruct Hb1 as (Ha & _).
    intros [c a cmd|c a cmd|[a|]|ok a]; simpl; rewrite ?Ha; try done.
    intros Hx b [= ->]. rewrite Ha. auto. }
  exists w2. split; [|eauto using balanced_trans].
  simpl. unfold mbind, ST_bind. by rewrite E1, bind_Ok.
Qed.

(** A single ioctl of any kind, [LOOP_CHANGE_FD] (with memory for the switch) included, on a
    consistent world returns
    with the device consistent, its mutex free, the reference counts settled and no other
    device touched. *)
Theorem lo_ioctl_settles (ext_number : nat → Z) (ext_init : nat → loop_info64 → Z)
    (ext_release : nat → Z) (ext_ioctl : nat → Z → Z → Z) (ext_live : nat → bool)
    (part_shift : Z) (c : caller) (a : Z) (cmd : loop_cmd) (w : world) (d : loop_device) :
  world_ok w → acyclic w → w_devs w !! a = Some d → cmd_ok cmd →
  ∃ r w', lo_ioctl ext_number ext_init ext_release ext_ioctl ext_live part_shift c a cmd w =
      Ok (r, w') ∧ world_ok w' ∧ balanced w w' ∧
    ∀ b, b ≠ a → w_devs w' !! b = w_devs w !! b.
Proof.
  intros Hok Hac Hd Hcmd.
  destruct (lo_ioctl_spec ext_number ext_init ext_release ext_ioctl ext_live part_shift
    Hok Hac Hd c cmd Hcmd) as (r & w' & E & Hs & _).
  exists r, w'. split; [done|]. split; [by eapply settled_world_ok|].
  split; [by eapply settled_balanced|]. destruct Hs as (d' & δ & μ & Ht & _).
  by destruct (tracks_agree _ _ _ _ _ _ Ht) as [Hb _].
Qed.

(** *** A concrete world

    File 1 is an image of 1 MiB, file 2 the block device of loop device 0, file 3 that of
    device 1.  Both devices are unbound. *)
Definition ex_file (k : fkind) : file := File k 1048576 true true true true 4096 4096 210 1.
Definition new_dev (n : Z) : loop_device :=
  LoopDevice n 1 0 0 0 None [] [] [] 0 None 0 0 0 None None None 0 0 Lo_unbound false None
    0 true 0 false 0 0 (QueueLimits 0 0 0 0 false).
Definition ex_world : world :=
  World {[0 := new_dev 0; 1 := new_dev 1]} {[0 := 0; 1 := 1]} false
    {[1 := ex_file Reg; 2 := ex_file (Blk (Some 0)); 3 := ex_file (Blk (Some 1))]}
    {[11 := 1; 12 := 2; 13 := 3]} 5 [Some XferNone; Some XferXor] ∅.

Definition no_num (n : nat) : Z := 0.
Definition no_init (n : nat) (i : loop_info64) : Z := 0.
Definition no_ioctl (n : nat) (c x : Z) : Z := 0.
Definition no_live (n : nat) : bool := false.
Definition root_user : caller := Caller 0 true true.

Lemma ex_world_ok : world_ok ex_world.
Proof.
  constructor; [| | |done].
  - intros a d Hd. unfold ex_world in Hd. simpl in Hd.
    apply lookup_insert_Some in Hd as [[<- <-]|[_ [<- <-]%lookup_singleton_Some]]; done.
  - intros fd p. unfold ex_world. simpl. intros [[_ <-]|[_ [[_ <-]|[_ [_ <-]%lookup_singleton_Some]]
      %lookup_insert_Some]]%lookup_insert_Some; by eexists.
  - intros p f b. unfold ex_world. simpl.
    intros [[_ <-]|[_ [[_ <-]|[_ [_ <-]%lookup_singleton_Some]]%lookup_insert_Some]]%lookup_insert_Some;
      unfold is_loop_device; cbn; intros; simplify_eq; eexists; reflexivity.
Qed.

Lemma ex_world_acyclic : acyclic ex_world.
Proof.
  intros a. exists 1%nat. simpl. unfold next_dev, ex_world. simpl.
  destruct (decide (a = 0)) as [->|H0]; [reflexivity|]. rewrite lookup_insert_ne by done.
  destruct (decide (a = 1)) as [->|H1]; [reflexivity|]. by rewrite lookup_singleton_ne by done.
Qed.

(** Bind device 0 to the image and device 1 to device 0, try to bind 0 to 1, unbind all. *)
Definition ex_ops : list ctl_op :=
  [OpIoctl root_user 0 (LOOP_SET_FD 11 (inr 100)); OpIoctl root_user 1 (LOOP_SET_FD 12 (inr 101));
   OpIoctl root_user 0 (LOOP_SET_FD 13 (inr 102)); OpOpen (Some 1); OpRelease (SwitchEnv true true true) 1;
   OpIoctl root_user 1 LOOP_CLR_FD; OpIoctl root_user 0 LOOP_CLR_FD].

Lemma control_ops_safe_witness :
  ∃ w', run_ops no_num no_init no_num no_ioctl no_live 0 ex_ops ex_world = Ok ((), w') ∧
    world_ok w' ∧ w_module w' = 5 ∧ f_count <$> w_files w' !! 1 = Some 1.
Proof.
  destruct (control_ops_safe no_num no_init no_num no_ioctl no_live 0 ex_ops ex_world)
    as (w' & E & Hok & _).
  { apply ex_world_ok. }
  { apply ex_world_acyclic. }
  { repeat (apply Forall_cons; split; [simpl; first [split; [by eexists|done]|by intros ? [= <-]; eexists]|]).
    constructor. }
  exists w'. split; [exact E|]. split; [exact Hok|].
  revert E. vm_compute. by intros [= <-].
Defined.

Lemma lo_ioctl_settles_witness :
  ∃ r w', lo_ioctl no_num no_init no_num no_ioctl no_live 0 root_user 0 (LOOP_SET_FD 11 (inl (- ENOMEM)))
      ex_world = Ok (r, w') ∧ r = (- ENOMEM, NoOut) ∧ world_ok w' ∧ w_module w' = 5.
Proof.
  destruct (lo_ioctl_settles no_num no_init no_num no_ioctl no_live 0 root_user 0
    (LOOP_SET_FD 11 (inl (- ENOMEM))) ex_world (new_dev 0)) as (r & w' & E & Hok & _).
  { apply ex_world_ok. } { apply ex_world_acyclic. } { done. } { done. }
  exists r, w'. split; [exact E|]. revert E Hok. vm_compute. by intros [= <- <-].
Defined.

Lemma dev_run a d w : w_devs w !! a = Some d → dev a w = Ok (d, w).
Proof. intros Hd. destruct (wp_dev a d (λ r w', r = d ∧ w' = w) w Hd) as (? & ? & E & -> & ->); done. Qed.

Lemma file_run p f w : w_files w !! p = Some f → the_file p w = Ok (f, w).
Proof. intros Hf. destruct (wp_the_file p f (λ r w', r = f ∧ w' = w) w Hf) as (? & ? & E & -> & ->); done. Qed.

Lemma set_dev_run a d g w :
  w_devs w !! a = Some d → set_dev a g w = Ok ((), w <| w_devs ::= <[a := g d]> |>).
Proof. intros Hd. unfold set_dev. by rewrite (ST_bind_Ok _ _ _ _ _ (dev_run _ _ _ Hd)). Qed.

Lemma lock_run a d w :
  w_devs w !! a = Some d → lo_ctl_mutex d = false →
  mutex_lock a w = Ok ((), w <| w_devs ::= <[a := d <| lo_ctl_mutex := true |>]> |>).
Proof.
  intros Hd Hm. unfold mutex_lock. rewrite (ST_bind_Ok _ _ _ _ _ (dev_run _ _ _ Hd)), Hm.
  by apply set_dev_run.
Qed.

(** The last release of a bound device that is not to be cleared sends the flush bio
    through [redirect_bio], which drops it and goes on to use it: if the memory is taken by
    another allocation in between, or if there is no memory for the [lo_bio_head], the release
    follows a bad pointer. *)
Theorem release_uses_freed_bio (ext_release : nat → Z) (part_shift : Z) (env : switch_env)
    (a : Z) (w : world) (d : loop_device) :
  world_ok w → w_devs w !! a = Some d → lo_st d = Lo_bound → lo_refcnt d = 1 →
  Z.land (lo_flags d) LO_FLAGS_AUTOCLEAR = 0 →
  sw_bio env = true → sw_head env && sw_kept env = false →
  lo_release ext_release part_shift env a w = Oops.
Proof.
  intros Hok Hd Hst Href Hfl Hb He. destruct (wo_devs _ Hok _ _ Hd) as [Hdev Hm].
  unfold dev_ok in Hdev. rewrite Hst in Hdev. destruct Hdev as ((p & f & Hp & Hf & _) & Hth & _).
  destruct (lo_thread d) as [t|] eqn:Et; [|done].
  assert (∀ w' d', w_devs w' !! a = Some d' → lo_backing_file d' = Some p → w_files w' = w_files w →
    lo_thread d' = Some t → loop_flush env a w' = Oops) as Hflush.
  { intros w' d' Hd' Hp' Hfs Ht'. unfold loop_flush.
    rewrite (ST_bind_Ok _ _ _ _ _ (dev_run _ _ _ Hd')), Ht'. unfold loop_switch. rewrite Hb.
    apply ST_bind_Oops. unfold redirect_switch.
    rewrite (ST_bind_Ok _ _ _ _ _ (dev_run _ _ _ Hd')), Hp'. rewrite <- Hfs in Hf.
    erewrite (ST_bind_Ok (from_option _)) by reflexivity.
    rewrite (ST_bind_Ok _ _ _ _ _ (file_run _ _ _ Hf)).
    erewrite (ST_bind_Ok (do_loop_switch _ _)) by reflexivity.
    by destruct (sw_head env), (sw_kept env). }
  unfold lo_release. rewrite (ST_bind_Ok _ _ _ _ _ (lock_run _ _ _ Hd Hm)).
  erewrite (ST_bind_Ok (set_dev _ _)) by (eapply set_dev_run; simpl; apply lookup_insert_eq).
  erewrite (ST_bind_Ok (dev _)) by (eapply dev_run; simpl; apply lookup_insert_eq).
  rewrite decide_False by (simpl; rewrite Href; intros Hx; by apply Hx).
  rewrite decide_False by (simpl; rewrite Hfl; intros Hx; by apply Hx).
  apply ST_bind_Oops. eapply Hflush; [simpl; apply lookup_insert_eq|done..].
Qed.

(** *** [LOOP_CHANGE_FD] does not look for recursion *)

(** A device that backs itself keeps the walk of [loop_set_fd] for any other device busy for
    ever. *)
Lemma self_backed_spins (fuel : nat) a b p w l f :
  b ≠ a → w_files w !! p = Some f → is_loop_device f = Some b → w_devs w !! b = Some l →
  lo_st l = Lo_bound → lo_backing_file l = Some p →
  avoid_recursion fuel a p w = NoFuel ∧ ends w fuel b = false.
Proof.
  intros Hne Hf Hb Hl Hst Hp. induction fuel as [|fuel [IH1 IH2]]; [done|]. split.
  - cbn [avoid_recursion]. unfold the_file, dev, from_option, st_get, mbind, ST_bind.
    rewrite !bind_Ok, Hf. cbn [lift]. rewrite !bind_Ok, Hb, decide_False by done.
    rewrite !bind_Ok, Hl. cbn [lift]. rewrite !bind_Ok, decide_False by congruence.
    rewrite Hp. cbn [lift]. rewrite !bind_Ok. exact IH1.
  - simpl. unfold next_dev. by rewrite Hl; simpl; rewrite Hp; simpl; rewrite Hf; simpl; rewrite Hb.
Qed.

(** Device 0 bound read-only to the image, then changed to its own block device. *)
Definition after_op (op : ctl_op) (w : world) : world :=
  match run_op no_num no_init no_num no_ioctl no_live 0 op w with Ok (_, w') => w' | _ => w end.
Definition ex_bound : world :=
  after_op (OpIoctl (Caller 0 true false) 0 (LOOP_SET_FD 11 (inr 100))) ex_world.
Definition ex_changed : world := after_op (OpIoctl root_user 0 (LOOP_CHANGE_FD 12 (SwitchEnv true true true))) ex_bound.

Lemma ex_bound_good : world_ok ex_bound ∧ acyclic ex_bound.
Proof.
  destruct (run_op_spec no_num no_init no_num no_ioctl no_live 0 ex_world
    (OpIoctl (Caller 0 true false) 0 (LOOP_SET_FD 11 (inr 100)))) as ([] & w & E & Hok & Hac & _).
  { apply ex_world_ok. } { apply ex_world_acyclic. } { split; [by eexists|done]. }
  unfold ex_bound, after_op. by rewrite E.
Qed.

Lemma release_uses_freed_bio_witness :
  lo_release no_num 0 (SwitchEnv true true false) 0 ex_bound = Oops.
Proof.
  refine (release_uses_freed_bio no_num 0 (SwitchEnv true true false) 0 ex_bound
    (default (new_dev 0) (w_devs ex_bound !! 0)) _ _ _ _ _ _ _);
    first [exact (proj1 ex_bound_good)|vm_compute; reflexivity].
Defined.

(** [loop_change_fd] accepts the block device of the very device it changes: a consistent
    world with finite chains, in which a read-only device is switched to itself without error,
    and in which [loop_set_fd] of any other device on top of it would then walk for ever. *)
Theorem change_fd_makes_cycle :
  ∃ w w', world_ok w ∧ acyclic w ∧
    lo_ioctl no_num no_init no_num no_ioctl no_live 0 root_user 0 (LOOP_CHANGE_FD 12 (SwitchEnv true true true)) w =
      Ok ((0, NoOut), w') ∧
    ¬ acyclic w' ∧ ∀ fuel, avoid_recursion fuel 1 2 w' = NoFuel.
Proof.
  exists ex_bound, ex_changed. split; [apply ex_bound_good|]. split; [apply ex_bound_good|].
  split; [vm_compute; reflexivity|].
  assert (∀ fuel, avoid_recursion fuel 1 2 ex_changed = NoFuel ∧ ends ex_changed fuel 0 = false)
    as Hspin.
  { intros fuel. eapply (self_backed_spins _ _ _ _ _
      (default (new_dev 0) (w_devs ex_changed !! 0)) (default (ex_file Reg) (w_files ex_changed !! 2)));
      [done|vm_compute; reflexivity..]. }
  split; [|intros fuel; apply Hspin]. intros Hcyc. destruct (Hcyc 0) as [n Hn].
  destruct (Hspin n) as [_ Hf]. by rewrite Hf in Hn.
Qed.
