(* ===== verification/LoopIndex.v ===== *)
(** * The index of loop devices and the module entry points

    Models, from drivers/block/loop.c: [loop_register_transfer], [unregister_transfer_cb],
    [loop_unregister_transfer], [loop_add], [loop_remove], [find_free_cb], [loop_lookup],
    [loop_probe], [loop_control_ioctl], [loop_init] and [loop_exit].  The idr library is
    outside the repository: [idr_get_new_above] (an error or an id) and the order in which
    [idr_for_each] visits the entries are parameters with their documented laws. *)
From S2P Require Import Prelude Interfaces StateMonad Transfer LoopInfo LoopDev LoopCtl.

(** What the allocators answer during [loop_add]. *)
Record add_env := AddEnv {
  e_addr : Z;          (** address of the new object *)
  e_kzalloc : bool;
  e_idr_pre_get : bool;
  e_queue : bool;      (** [blk_alloc_queue] *)
  e_disk : bool;       (** [alloc_disk] *)
}.

Section index.
Variable idr_get_new_above : gmap Z Z → Z → Z + Z.
Variable idr_entries : gmap Z Z → list (Z * Z).
Variable ext_number : nat → Z.
Variable ext_release : nat → Z.
Variable part_shift : Z.

(** ** Transfer modules *)
Definition loop_register_transfer (x : xfer) : M Z :=
  let n := wrapu 32 (xfer_number ext_number x) in
  t ← get w_xfer_funcs;
  if decide (MAX_LO_CRYPT ≤ n ∨ mjoin (t !! Z.to_nat n) ≠ None) then mret (- EINVAL) else
  _ ← modify (λ w, w <| w_xfer_funcs ::= <[Z.to_nat n := Some x]> |>); mret 0.

Definition unregister_transfer_cb (x : xfer) (a : Z) : M () :=
  _ ← mutex_lock a;
  d ← dev a;
  _ ← (if decide (lo_encryption d = Some x) then loop_release_xfer ext_release a else mret 0);
  mutex_unlock a.

Fixpoint for_each (l : list (Z * Z)) (f : Z → M ()) : M () :=
  match l with [] => mret () | (_, a) :: l => _ ← f a; for_each l f end.

Definition loop_unregister_transfer (number : Z) : M Z :=
  let n := wrapu 32 number in
  t ← get w_xfer_funcs;
  match mjoin (t !! Z.to_nat n) with
  | Some x =>
      if decide (n = 0 ∨ MAX_LO_CRYPT ≤ n) then mret (- EINVAL) else
      _ ← modify (λ w, w <| w_xfer_funcs ::= <[Z.to_nat n := None]> |>);
      idr ← get w_idr;
      _ ← for_each (idr_entries idr) (unregister_transfer_cb x);
      mret 0
  | None => mret (- EINVAL)
  end.

(** ** Adding and removing devices *)
Definition zero_dev : loop_device :=
  LoopDevice 0 0 0 0 0 None (zeros LO_NAME_SIZE) (zeros LO_NAME_SIZE) (zeros LO_KEY_SIZE) 0 None
    0 0 0 None None None 0 0 Lo_unbound false None 0 false 0 false 0 0 (QueueLimits 0 0 0 0 false).

Definition kfree_dev (a : Z) : M () := modify (λ w, w <| w_devs ::= delete a |>).

(** The index entry: an error, or the number obtained. *)
Definition take_index (a i : Z) : M (Z + Z) :=
  idr ← get w_idr;
  if decide (0 ≤ i) then
    match idr_get_new_above idr i with
    | inl err => mret (inl err)
    | inr m =>
        _ ← modify (λ w, w <| w_idr ::= <[m := a]> |>);
        if decide (i ≠ m) then
          _ ← modify (λ w, w <| w_idr ::= delete m |>); mret (inl (- EEXIST))
        else mret (inr i)
    end
  else if decide (i = -1) then
    match idr_get_new_above idr 0 with
    | inl err => mret (inl err)
    | inr m => _ ← modify (λ w, w <| w_idr ::= <[m := a]> |>); mret (inr m)
    end
  else mret (inl (- EINVAL)).

(** When the queue or the disk cannot be allocated, [err] still holds the 0 of the idr call
    and the index entry stays. *)
Definition loop_add (e : add_env) (i : Z) : M (Z * option Z) :=
  if negb (e_kzalloc e) then mret (- ENOMEM, None) else
  let a := e_addr e in
  _ ← modify (λ w, w <| w_devs ::= <[a := zero_dev]> |>);
  if negb (e_idr_pre_get e) then _ ← kfree_dev a; mret (- ENOMEM, None) else
  r ← take_index a i;
  match r with
  | inl err => _ ← kfree_dev a; mret (err, None)
  | inr i =>
      if negb (e_queue e && e_disk e) then _ ← kfree_dev a; mret (0, None) else
      _ ← set_dev a (λ d, d <| lo_number := i |> <| lo_thread := None |>
                            <| lo_no_part_scan := bool_decide (part_shift = 0) |>);
      mret (i, Some a)
  end.

Definition loop_remove (a : Z) : M () := kfree_dev a.

(** [idr_for_each] with [find_free_cb]. *)
Fixpoint find_free (l : list (Z * Z)) : M (option Z) :=
  match l with
  | [] => mret None
  | (_, a) :: l =>
      d ← dev a;
      if decide (lo_st d = Lo_unbound) then mret (Some a) else find_free l
  end.

Definition loop_lookup (i : Z) : M (Z * option Z) :=
  idr ← get w_idr;
  if decide (i < 0) then
    r ← find_free (idr_entries idr);
    match r with
    | Some a => d ← dev a; mret (lo_number d, Some a)
    | None => mret (- ENODEV, None)
    end
  else
    match idr !! i with
    | Some a => d ← dev a; mret (lo_number d, Some a)
    | None => mret (- ENODEV, None)
    end.

Definition index_lock : M () :=
  held ← get w_index_mutex;
  if (held : bool) then oops else modify (λ w, w <| w_index_mutex := true |>).
Definition index_unlock : M () :=
  held ← get w_index_mutex;
  if (held : bool) then modify (λ w, w <| w_index_mutex := false |>) else oops.

(** The disk returned: that of the device at the address; an uninitialised pointer otherwise. *)
Definition loop_probe (e : add_env) (minor : Z) : M (Z * option Z) :=
  _ ← index_lock;
  r ← loop_lookup (minor ≫ part_shift);
  '(err, a) ← (if decide (r.1 < 0) then loop_add e (minor ≫ part_shift) else mret r);
  _ ← index_unlock;
  if decide (err < 0) then mret (err, None)
  else a ← from_option a; mret (err, Some a).

(** ** /dev/loop-control

    [parm] is an [unsigned long]; [loop_lookup] and [loop_add] take an [int]. *)
Inductive ctl_cmd := LOOP_CTL_ADD (parm : Z) | LOOP_CTL_REMOVE (parm : Z) | LOOP_CTL_GET_FREE | CTL_OTHER.

Definition ctl_remove (parm : Z) : M Z :=
  '(ret, r) ← loop_lookup parm;
  if decide (ret < 0) then mret ret else
  a ← from_option r;
  _ ← mutex_lock a;
  d ← dev a;
  if decide (lo_st d ≠ Lo_unbound) then _ ← mutex_unlock a; mret (- EBUSY) else
  if decide (0 < lo_refcnt d) then _ ← mutex_unlock a; mret (- EBUSY) else
  _ ← mutex_unlock a;
  _ ← modify (λ w, w <| w_idr ::= delete (lo_number d) |>);
  _ ← loop_remove a;
  mret ret.

Definition loop_control_ioctl (e : add_env) (cmd : ctl_cmd) : M Z :=
  _ ← index_lock;
  ret ← match cmd with
        | LOOP_CTL_ADD parm =>
            '(ret, _) ← loop_lookup (wraps 32 parm);
            if decide (0 ≤ ret) then mret (- EEXIST)
            else '(ret, _) ← loop_add e (wraps 32 parm); mret ret
        | LOOP_CTL_REMOVE parm => ctl_remove (wraps 32 parm)
        | LOOP_CTL_GET_FREE =>
            '(ret, _) ← loop_lookup (-1);
            if decide (0 ≤ ret) then mret ret
            else '(ret, _) ← loop_add e (-1); mret ret
        | CTL_OTHER => mret (- ENOSYS)
        end;
  _ ← index_unlock;
  mret ret.

(** ** Module start and exit *)
Definition DISK_MAX_PARTS : Z := 256.
Definition MINORBITS : Z := 20.

Definition fls (x : Z) : Z := if decide (x ≤ 0) then 0 else Z.log2 x + 1.

(** [part_shift], the adjusted [max_part], the number of devices and the range of minors; or
    an error. *)
Definition loop_init_params (max_part max_loop min_count : Z) : Z + (Z * Z * Z * Z) :=
  let shift := if decide (0 < max_part) then fls max_part else 0 in
  let max_part := if decide (0 < max_part) then (1 ≪ shift) - 1 else max_part in
  if decide (DISK_MAX_PARTS < 1 ≪ shift) then inl (- EINVAL) else
  if decide (1 ≪ (MINORBITS - shift) < wrapu 64 max_loop) then inl (- EINVAL) else
  let '(nr, range) := if decide (max_loop ≠ 0) then (max_loop, max_loop ≪ shift)
                      else (min_count, 1 ≪ MINORBITS) in
  inr (shift, max_part, nr, range).

Fixpoint init_devices (envs : list add_env) (i : Z) : M () :=
  match envs with [] => mret () | e :: envs => _ ← loop_add e i; init_devices envs (i + 1) end.

(** [envs]: one set of answers per device to create; [prefetch_blocks] is the module
    parameter in KiB, in blocks afterwards. *)
Definition loop_init (envs : list add_env) (misc_err blkdev_err max_part max_loop prefetch_blocks : Z)
    : M (Z * Z) :=
  if decide (misc_err < 0) then mret (misc_err, prefetch_blocks) else
  match loop_init_params max_part max_loop (Z.of_nat (length envs)) with
  | inl err => mret (err, prefetch_blocks)
  | inr (_, _, nr, _) =>
      if decide (blkdev_err ≠ 0) then mret (- EIO, prefetch_blocks) else
      _ ← index_lock;
      _ ← init_devices (take (Z.to_nat nr) envs) 0;
      _ ← index_unlock;
      mret (0, Z.quot prefetch_blocks 4)
  end.

Definition loop_exit : M () :=
  idr ← get w_idr;
  _ ← for_each (idr_entries idr) loop_remove;
  modify (λ w, w <| w_idr := ∅ |>).

(** ** Lemmas *)

(** Documented behaviour of the idr: an id at or above the one asked for, free, and the one
    asked for if it is free; a traversal visits exactly the entries. *)
Record idr_laws : Prop := IdrLaws {
  idr_fresh idr i m : idr_get_new_above idr i = inr m → i ≤ m ∧ idr !! m = None;
  idr_exact idr i m : idr_get_new_above idr i = inr m → idr !! i = None → m = i;
  idr_err idr i err : idr_get_new_above idr i = inl err → err < 0;
  idr_all idr i a : (i, a) ∈ idr_entries idr ↔ idr !! i = Some a;
}.
Hypothesis laws : idr_laws.

(** The index and the objects agree. *)
Record index_ok (w : world) : Prop := IndexOk {
  ix_dev : ∀ i a, w_idr w !! i = Some a →
    0 ≤ i ∧ ∃ d, w_devs w !! a = Some d ∧ lo_number d = i ∧ lo_ctl_mutex d = false;
  ix_inj : ∀ i j a, w_idr w !! i = Some a → w_idr w !! j = Some a → i = j;
  ix_all : ∀ a d, w_devs w !! a = Some d → w_idr w !! lo_number d = Some a;
}.

Lemma find_free_spec w l :
  index_ok w → (∀ i a, (i, a) ∈ l → w_idr w !! i = Some a) →
  wp (find_free l) (λ r w', w' = w ∧
    match r with
    | Some a => ∃ d, w_devs w !! a = Some d ∧ lo_st d = Lo_unbound
    | None => ∀ i a d, (i, a) ∈ l → w_devs w !! a = Some d → lo_st d ≠ Lo_unbound
    end) w.
Proof.
  intros Hok. induction l as [|[i a] l IH]; intros Hl; cbn [find_free].
  { apply wp_ret. split; [done|]. by intros i a d ?%not_elem_of_nil. }
  destruct (ix_dev _ Hok i a) as (_ & d & Hd & _); [apply Hl; left|].
  apply wp_bind. eapply wp_dev; [exact Hd|]. case_decide as Hst.
  { apply wp_ret. split; [done|]. by exists d. }
  eapply wp_mono; [apply IH; intros; apply Hl; by right|]. intros r w' [-> Hr]. split; [done|].
  destruct r as [b|]; [done|]. intros j b db [[= -> ->]|Hin]%elem_of_cons Hdb; [congruence|].
  by eapply Hr.
Qed.

(** [loop_lookup] never meets a freed object. *)
Lemma loop_lookup_spec w i :
  index_ok w →
  wp (loop_lookup i) (λ '(ret, r) w', w' = w ∧
    match r with
    | Some a => ∃ d, w_devs w !! a = Some d ∧ ret = lo_number d ∧ 0 ≤ ret ∧
        w_idr w !! ret = Some a ∧ lo_ctl_mutex d = false ∧
        (if decide (i < 0) then lo_st d = Lo_unbound else ret = i)
    | None => ret = - ENODEV ∧
        if decide (i < 0) then ∀ a d, w_devs w !! a = Some d → lo_st d ≠ Lo_unbound
        else w_idr w !! i = None
    end) w.
Proof.
  intros Hok. unfold loop_lookup. apply wp_bind, wp_get.
  assert (∀ a d, w_devs w !! a = Some d →
    0 ≤ lo_number d ∧ w_idr w !! lo_number d = Some a ∧ lo_ctl_mutex d = false) as Hdev.
  { intros a d Hd. pose proof (ix_all _ Hok _ _ Hd) as Hi.
    destruct (ix_dev _ Hok _ _ Hi) as (? & d' & Hd' & ? & ?). by simplify_eq. }
  destruct (decide (i < 0)) as [Hi|Hi].
  - apply wp_bind. eapply wp_mono.
    { apply (find_free_spec w); [done|]. intros j a. apply (idr_all laws). }
    intros r w' [-> Hr]. destruct r as [a|].
    + destruct Hr as (d & Hd & Hst). apply wp_bind. eapply wp_dev; [exact Hd|]. apply wp_ret.
      split; [done|]. destruct (Hdev a d Hd) as (? & ? & ?). exists d. done.
    + apply wp_ret. split; [done|]. split; [done|]. intros a d Hd.
      apply (Hr (lo_number d) a d); [|done]. apply (idr_all laws), (ix_all _ Hok _ _ Hd).
  - destruct (w_idr w !! i) as [a|] eqn:Ha; [|by apply wp_ret].
    destruct (ix_dev _ Hok _ _ Ha) as (_ & d & Hd & Hn & Hm).
    apply wp_bind. eapply wp_dev; [exact Hd|]. apply wp_ret. split; [done|].
    exists d. rewrite Hn. split_and!; done || lia.
Qed.

(** A device that exists under [ret], unbound. *)
Definition free_device (w : world) (ret : Z) : Prop :=
  ∃ a d, w_idr w !! ret = Some a ∧ w_devs w !! a = Some d ∧ lo_st d = Lo_unbound.

(** A device neither bound nor open has been taken out of the index and freed. *)
Definition removed (w : world) (ret : Z) (w' : world) : Prop :=
  ∃ a d, w_idr w !! ret = Some a ∧ w_devs w !! a = Some d ∧ lo_st d = Lo_unbound ∧
    lo_refcnt d ≤ 0 ∧ w_idr w' = delete ret (w_idr w) ∧ w_devs w' = delete a (w_devs w).

Definition added (e : add_env) (i : Z) (w : world) (r : Z * option Z) (w' : world) : Prop :=
  match r with
  | (ret, Some a) => a = e_addr e ∧ index_ok w' ∧ free_device w' ret ∧ w_idr w !! ret = None ∧
      (0 ≤ i → ret = i) ∧ 0 ≤ ret ∧ w_index_mutex w' = w_index_mutex w
  | (ret, None) => ret < 0 ∧ w' = w
  end.

Lemma index_ok_insert w a m d :
  index_ok w → w_devs w !! a = None → w_idr w !! m = None → 0 ≤ m →
  lo_number d = m → lo_ctl_mutex d = false →
  index_ok (w <| w_devs ::= <[a := d]> |> <| w_idr ::= <[m := a]> |>).
Proof.
  intros [] Ha Hm Hge Hn Hmx. constructor; simpl.
  - intros i b [[<- <-]|[Hne Hi]]%lookup_insert_Some.
    + split; [done|]. exists d. by rewrite lookup_insert_eq.
    + destruct (ix_dev0 i b Hi) as (? & db & Hdb & ? & ?). split; [done|]. exists db.
      rewrite lookup_insert_ne; [done|]. congruence.
  - intros i j b [[<- <-]|[Hi Hib]]%lookup_insert_Some [[<- Hb]|[Hj Hjb]]%lookup_insert_Some; try done.
    + destruct (ix_dev0 j a Hjb) as (_ & db & Hdb & _). congruence.
    + subst b. destruct (ix_dev0 i a Hib) as (_ & db & Hdb & _). congruence.
    + by eapply ix_inj0.
  - intros b db [[<- <-]|[Hne Hb]]%lookup_insert_Some; [by rewrite Hn, lookup_insert_eq|].
    pose proof (ix_all0 b db Hb) as Hx. rewrite lookup_insert_ne; [done|]. congruence.
Qed.

Lemma world_undo w a x :
  w_devs w !! a = None → w <| w_devs ::= <[a := x]> |> <| w_devs ::= delete a |> = w.
Proof. intros Ha. destruct w; simpl in *. unfold set. simpl. by rewrite delete_insert_id. Qed.

Lemma loop_add_spec e i w :
  index_ok w → w_devs w !! e_addr e = None → e_queue e = true → e_disk e = true →
  wp (loop_add e i) (added e i w) w.
Proof.
  intros Hok Hfr Hq Hdk. unfold loop_add. destruct (e_kzalloc e); cbn [negb]; [|by apply wp_ret].
  apply wp_bind, wp_modify. set (w1 := w <| w_devs ::= _ |>).
  assert (∀ err, err < 0 → wp (kfree_dev (e_addr e) ≫= λ _, mret (err, None)) (added e i w) w1) as Hfail.
  { intros err Herr. apply wp_bind, wp_modify, wp_ret. split; [done|]. by apply world_undo. }
  destruct (e_idr_pre_get e); cbn [negb]; [|by apply Hfail].
  rewrite Hq, Hdk. cbn [andb negb].
  assert (∀ m w2, w_idr w !! m = None → 0 ≤ m → (0 ≤ i → m = i) →
    w2 = w1 <| w_idr ::= <[m := e_addr e]> |> →
    wp (_ ← set_dev (e_addr e) (λ d, d <| lo_number := m |> <| lo_thread := None |>
              <| lo_no_part_scan := bool_decide (part_shift = 0) |>); mret (m, Some (e_addr e)))
      (added e i w) w2) as Hgood.
  { intros m w2 Hm Hge Hi ->. apply wp_bind.
    eapply wp_set_dev; [by simpl; rewrite lookup_insert_eq|]. apply wp_ret.
    assert (∀ d, (w1 <| w_idr ::= <[m := e_addr e]> |>) <| w_devs ::= <[e_addr e := d]> |> =
      w <| w_devs ::= <[e_addr e := d]> |> <| w_idr ::= <[m := e_addr e]> |>) as ->.
    { intros d. unfold w1, set. destruct w; simpl. by rewrite insert_insert_eq. }
    split; [done|]. split; [by apply index_ok_insert|]. split_and!; try done.
    eexists _, _. simpl. by rewrite !lookup_insert_eq. }
  apply wp_bind. unfold take_index. apply wp_bind, wp_get.
  change (w_idr w1) with (w_idr w).
  destruct (decide (0 ≤ i)) as [Hi|Hi].
  - destruct (idr_get_new_above (w_idr w) i) as [err|m] eqn:Em.
    { apply wp_ret, Hfail. by apply (idr_err laws) in Em. }
    destruct (idr_fresh laws _ _ _ Em) as [Hle Hm].
    apply wp_bind, wp_modify. destruct (decide (i ≠ m)) as [Hne|Hne].
    + apply wp_bind, wp_modify, wp_ret.
      assert ((w1 <| w_idr ::= <[m := e_addr e]> |>) <| w_idr ::= delete m |> = w1) as ->;
        [|by apply Hfail].
      unfold w1, set. destruct w; simpl in *. by rewrite delete_insert_id.
    + assert (m = i) as -> by lia. apply wp_ret, Hgood; done.
  - destruct (decide (i = -1)); [|by apply wp_ret, Hfail].
    destruct (idr_get_new_above (w_idr w) 0) as [err|m] eqn:Em.
    { apply wp_ret, Hfail. by apply (idr_err laws) in Em. }
    destruct (idr_fresh laws _ _ _ Em) as [Hle Hm].
    apply wp_bind, wp_modify, wp_ret, Hgood; try done.
Qed.

Lemma index_ok_mutex w b : index_ok w → index_ok (w <| w_index_mutex := b |>).
Proof. by intros []. Qed.

(** Removing an unbound, unused device. *)
Lemma index_ok_delete w a d :
  index_ok w → w_devs w !! a = Some d →
  index_ok (w <| w_idr ::= delete (lo_number d) |> <| w_devs ::= delete a |>).
Proof.
  intros [] Hd. pose proof (ix_all0 a d Hd) as Hi. constructor; simpl.
  - intros i b [Hne Hib]%lookup_delete_Some. destruct (ix_dev0 i b Hib) as (? & db & Hdb & ? & ?).
    split; [done|]. exists db. rewrite lookup_delete_ne; [done|]. intros ->.
    apply Hne. by eapply ix_inj0.
  - intros i j b [_ Hib]%lookup_delete_Some [_ Hjb]%lookup_delete_Some. by eapply ix_inj0.
  - intros b db [Hne Hb]%lookup_delete_Some. pose proof (ix_all0 b db Hb) as Hx.
    rewrite lookup_delete_ne; [done|]. intros E. rewrite E in Hi. congruence.
Qed.

Lemma ctl_remove_spec w parm :
  index_ok w →
  wp (ctl_remove parm) (λ ret w', index_ok w' ∧ w_index_mutex w' = w_index_mutex w ∧
    (0 ≤ ret → removed w ret w' ∧ (0 ≤ parm → ret = parm)) ∧ (ret < 0 → w' = w)) w.
Proof.
  intros Hok. unfold ctl_remove. apply wp_bind. eapply wp_mono; [by apply loop_lookup_spec|].
  intros [ret r] w' [-> Hr]. destruct r as [a|].
  2:{ destruct Hr as [-> _]. case_decide as Hneg; [|by unfold ENODEV in Hneg]. apply wp_ret.
      split; [done|]. split; [done|]. split; [unfold ENODEV; lia|done]. }
  destruct Hr as (d & Hd & Hret & Hge & Hidr & Hmx & Hparm). rewrite decide_False by lia.
  apply wp_bind. exists a, w. split; [done|]. apply wp_bind.
  eapply wp_mutex_lock; [exact Hd|done|].
  apply wp_bind. eapply wp_dev; [by simpl; rewrite lookup_insert_eq|]. simpl.
  assert ((w <| w_devs ::= <[a := d <| lo_ctl_mutex := true |>]> |>)
            <| w_devs ::= <[a := (d <| lo_ctl_mutex := true |>) <| lo_ctl_mutex := false |>]> |> = w) as Hback.
  { assert ((d <| lo_ctl_mutex := true |>) <| lo_ctl_mutex := false |> = d) as ->
      by (destruct d; simpl in *; by subst).
    unfold set. destruct w; simpl in *. by rewrite insert_insert_eq, insert_id. }
  assert (wp (_ ← mutex_unlock a; mret (- EBUSY)) (λ ret w', index_ok w' ∧
    w_index_mutex w' = w_index_mutex w ∧
    (0 ≤ ret → removed w ret w' ∧ (0 ≤ parm → ret = parm)) ∧ (ret < 0 → w' = w))
    (w <| w_devs ::= <[a := d <| lo_ctl_mutex := true |>]> |>)) as Hbusy.
  { apply wp_bind. eapply wp_mutex_unlock; [by simpl; rewrite lookup_insert_eq|done|].
    rewrite Hback. apply wp_ret. unfold EBUSY. split_and!; [done|done|lia|done]. }
  destruct (decide (lo_st d ≠ Lo_unbound)) as [_|Hst]; [exact Hbusy|].
  destruct (decide (0 < lo_refcnt d)) as [_|Href]; [exact Hbusy|]. apply dec_stable in Hst.
  apply wp_bind. eapply wp_mutex_unlock; [by simpl; rewrite lookup_insert_eq|done|].
  rewrite Hback. apply wp_bind, wp_modify, wp_bind, wp_modify, wp_ret.
  split; [by apply index_ok_delete|]. split; [done|]. split; [|lia]. intros _. subst ret. split.
  - exists a, d. split_and!; [done..|lia|done|done].
  - intros Hp. by rewrite decide_False in Hparm by lia.
Qed.

End index.

(** ** Properties *)

(** The end of [loop_control_ioctl]: the mutex is released. *)
Lemma wp_index_unlock (P : Z → world → Prop) ret w : index_ok w → w_index_mutex w = true → P ret (w <| w_index_mutex := false |>) →
  wp (_ ← index_unlock; mret ret) (λ ret w', index_ok w' ∧ w_index_mutex w' = false ∧ P ret w') w.
Proof.
  intros Hok Hm HP. apply wp_bind. unfold index_unlock. apply wp_bind, wp_get. rewrite Hm. apply wp_modify, wp_ret.
  split; [by apply index_ok_mutex|]. done.
Qed.

(** C27: as long as queues and disks can be allocated, every command of /dev/loop-control keeps
    the index and the device objects in step and releases the index mutex; [GET_FREE] returns
    the number of an unbound device, [ADD] of a number (its low 32 bits as an [int]) creates
    exactly that device or fails, [REMOVE] takes out of the index, and frees, only a device
    that is neither bound nor open (for a negative number, any one); a command that fails
    changes nothing. *)
Theorem loop_control_correct (idr_get_new_above : gmap Z Z → Z → Z + Z)
    (idr_entries : gmap Z Z → list (Z * Z)) (part_shift : Z) (e : add_env) (cmd : ctl_cmd)
    (w : world) :
  idr_laws idr_get_new_above idr_entries → index_ok w → w_index_mutex w = false →
  w_devs w !! e_addr e = None → e_queue e = true → e_disk e = true →
  ∃ ret w', loop_control_ioctl idr_get_new_above idr_entries part_shift e cmd w = Ok (ret, w') ∧
    index_ok w' ∧ w_index_mutex w' = false ∧
    (0 ≤ ret → match cmd with
     | LOOP_CTL_ADD parm => w_idr w !! ret = None ∧ free_device w' ret ∧
         (0 ≤ wraps 32 parm → ret = wraps 32 parm)
     | LOOP_CTL_REMOVE parm => removed w ret w' ∧ (0 ≤ wraps 32 parm → ret = wraps 32 parm)
     | LOOP_CTL_GET_FREE => free_device w' ret
     | CTL_OTHER => False
     end) ∧ (ret < 0 → w' = w).
Proof.
  intros laws Hok Hmx Hfr Hq Hd.
  enough (wp (loop_control_ioctl idr_get_new_above idr_entries part_shift e cmd)
    (λ ret w', index_ok w' ∧ w_index_mutex w' = false ∧ (0 ≤ ret → match cmd with
     | LOOP_CTL_ADD parm => w_idr w !! ret = None ∧ free_device w' ret ∧
         (0 ≤ wraps 32 parm → ret = wraps 32 parm)
     | LOOP_CTL_REMOVE parm => removed w ret w' ∧ (0 ≤ wraps 32 parm → ret = wraps 32 parm)
     | LOOP_CTL_GET_FREE => free_device w' ret
     | CTL_OTHER => False
     end) ∧ (ret < 0 → w' = w)) w) as (ret & w' & ? & ?) by eauto.
  unfold loop_control_ioctl. apply wp_bind. unfold index_lock. apply wp_bind, wp_get. rewrite Hmx.
  apply wp_modify. set (w1 := w <| w_index_mutex := true |>).
  assert (index_ok w1) as Hok1 by by apply index_ok_mutex.
  assert (∀ i, wp (loop_add idr_get_new_above part_shift e i) (added e i w1) w1) as Hadd
    by (intros; by eapply loop_add_spec).
  assert (w1 <| w_index_mutex := false |> = w) as Hw by (unfold w1; destruct w; simpl in *; by subst).
  match goal with |- wp _ ?P w1 => assert (∀ ret, ret < 0 → wp (_ ← index_unlock; mret ret) P w1) as Hfail end.
  { intros ret Hneg. apply wp_index_unlock; [done|done|]. rewrite Hw. split; [lia|done]. }
  apply wp_bind. destruct cmd as [parm|parm| |].
  - apply wp_bind. eapply wp_mono; [by apply (loop_lookup_spec _ _ laws)|]. intros [ret r] w' [-> Hr].
    destruct (decide (0 ≤ ret)) as [Hge|Hge].
    + by apply wp_ret, Hfail.
    + apply wp_bind. eapply wp_mono; [apply Hadd|]. intros [ret2 [a|]] w2 Hw2.
      * destruct Hw2 as (_ & Hok2 & Hfree & Hnone & Hparm & Hge2 & Hm2).
        apply wp_ret, wp_index_unlock; [done|done|]. split; [done|lia].
      * destruct Hw2 as [Hneg ->]. by apply wp_ret, Hfail.
  - eapply wp_mono; [by apply (ctl_remove_spec _ _ laws)|]. intros ret w' (Hok' & Hm' & Hr).
    destruct Hr as [Hr Hr']. apply wp_index_unlock; [done|by rewrite Hm'|]. split; [exact Hr|].
    intros Hlt. by rewrite (Hr' Hlt).
  - apply wp_bind. eapply wp_mono; [by apply (loop_lookup_spec _ _ laws)|]. intros [ret r] w' [-> Hr].
    destruct (decide (0 ≤ ret)) as [Hge|Hge].
    + apply wp_ret, wp_index_unlock; [done|done|]. split; [|lia]. intros _. destruct r as [a|]; [|unfold ENODEV in Hr; lia].
      destruct Hr as (d & Hda & _ & _ & Hi & _ & Hst). exists a, d. by rewrite decide_True in Hst by lia.
    + apply wp_bind. eapply wp_mono; [apply Hadd|]. intros [ret2 [a|]] w2 Hw2.
      * destruct Hw2 as (_ & Hok2 & Hfree & Hnone & Hparm & Hge2 & Hm2).
        apply wp_ret, wp_index_unlock; [done|done|]. split; [done|lia].
      * destruct Hw2 as [Hneg ->]. by apply wp_ret, Hfail.
  - by apply wp_ret, Hfail.
Qed.

(** When the queue or the disk cannot be allocated, [loop_add] frees the device but leaves
    its index entry and returns 0, a success: the index then points to freed memory, and the
    next lookup of that number dereferences it. *)
Theorem loop_add_leaves_dangling_entry (idr_get_new_above : gmap Z Z → Z → Z + Z)
    (idr_entries : gmap Z Z → list (Z * Z)) (part_shift : Z) (e : add_env) (i : Z) (w : world) :
  0 ≤ i → idr_get_new_above (w_idr w) i = inr i →
  e_kzalloc e = true → e_idr_pre_get e = true → e_queue e && e_disk e = false →
  ∃ w', loop_add idr_get_new_above part_shift e i w = Ok ((0, None), w') ∧
    w_idr w' !! i = Some (e_addr e) ∧ w_devs w' !! e_addr e = None ∧
    loop_lookup idr_entries i w' = Oops.
Proof.
  intros Hi Hnew Hk Hp Hqd. unfold loop_add. rewrite Hk, Hp, Hqd. cbn [negb].
  set (W := ((w <| w_devs ::= <[e_addr e := zero_dev]> |>) <| w_idr ::= <[i := e_addr e]> |>)
              <| w_devs ::= delete (e_addr e) |>).
  assert (wp (_ ← modify (λ w, w <| w_devs ::= <[e_addr e := zero_dev]> |>);
              r ← take_index idr_get_new_above (e_addr e) i;
              match r with
              | inl err => _ ← kfree_dev (e_addr e); mret (err, @None Z)
              | inr _ => _ ← kfree_dev (e_addr e); mret (0, @None Z)
              end) (λ r w', r = (0, None) ∧ w' = W) w) as (r & w' & E & -> & ->).
  { apply wp_bind, wp_modify, wp_bind. unfold take_index. apply wp_bind, wp_get.
    rewrite decide_True by done.
    change (w_idr (w <| w_devs ::= <[e_addr e := zero_dev]> |>)) with (w_idr w). rewrite Hnew.
    apply wp_bind, wp_modify. rewrite decide_False by lia. by apply wp_ret, wp_bind, wp_modify, wp_ret. }
  exists W. split; [exact E|]. simpl. rewrite lookup_insert_eq, lookup_delete_eq.
  split_and!; [done|done|]. unfold loop_lookup, dev, st_get, from_option, mbind, ST_bind.
  rewrite !bind_Ok, decide_False by lia. simpl. rewrite lookup_insert_eq. simpl.
  by rewrite lookup_delete_eq.
Qed.

(** The module parameters: with a positive [max_part] the partition shift is the smallest
    with room for [max_part] partitions beside the whole disk, the exported [max_part] becomes
    [2^shift - 1], no disk gets more than 256 minors, and all devices asked for have minors of
    20 bits. *)
Theorem loop_init_params_ok (max_part max_loop min_count shift max_part' nr range : Z) :
  loop_init_params max_part max_loop min_count = inr (shift, max_part', nr, range) →
  0 ≤ max_loop < 2 ^ 31 →
  0 ≤ shift ≤ 8 ∧ (0 < max_part → 2 ^ (shift - 1) ≤ max_part ≤ max_part' ∧ max_part' = 2 ^ shift - 1) ∧
  (max_loop ≠ 0 → nr = max_loop ∧ nr * 2 ^ shift ≤ 2 ^ 20 ∧ range = nr * 2 ^ shift).
Proof.
  unfold loop_init_params. intros E Hml.
  set (sh := if decide (0 < max_part) then fls max_part else 0) in *.
  assert (0 ≤ sh) as Hsh0.
  { unfold sh, fls. pose proof (Z.log2_nonneg max_part). repeat case_decide; lia. }
  rewrite !(Z.shiftl_mul_pow2 1 sh), Z.mul_1_l in E by lia.
  destruct (decide (DISK_MAX_PARTS < 2 ^ sh)) as [?|Hparts]; [done|].
  assert (sh ≤ 8) as Hsh.
  { unfold DISK_MAX_PARTS in Hparts. change 256 with (2 ^ 8) in Hparts.
    apply (Z.pow_le_mono_r_iff 2); lia. }
  unfold MINORBITS in *. rewrite (Z.shiftl_mul_pow2 1 (20 - sh)), Z.mul_1_l in E by lia.
  rewrite wrapu_small in E by lia.
  destruct (decide (2 ^ (20 - sh) < max_loop)) as [?|Hml2]; [done|].
  assert (2 ^ 20 = 2 ^ (20 - sh) * 2 ^ sh) as E20 by (rewrite <- Z.pow_add_r; [f_equal|..]; lia).
  assert (0 < 2 ^ sh) by (apply Z.pow_pos_nonneg; lia).
  assert (0 < max_part → 2 ^ (sh - 1) ≤ max_part < 2 ^ sh) as Hfls.
  { intros Hp. unfold sh, fls. rewrite decide_True, decide_False by lia.
    replace (Z.log2 max_part + 1 - 1) with (Z.log2 max_part) by lia. by apply Z.log2_spec. }
  destruct (decide (max_loop ≠ 0)) as [Hne|Hz]; injection E as <- <- <- <-;
    (split; [lia|]); (split; [intros Hp; specialize (Hfls Hp); rewrite decide_True by done; lia|]).
  - intros _. rewrite Z.shiftl_mul_pow2 by lia. split_and!; [done|nia|done].
  - done.
Qed.

(** *** Witnesses *)
Definition ex_entries (m : gmap Z Z) : list (Z * Z) := map_to_list m.

(** The next id after the largest, unless the one asked for is free. *)
Definition ex_new_above (m : gmap Z Z) (i : Z) : Z + Z :=
  if decide (m !! i = None) then inr i
  else inr (Z.max i (foldr Z.max 0 (map_to_list m).*1 + 1)).

Lemma ex_idr_laws : idr_laws ex_new_above ex_entries.
Proof.
  constructor.
  - intros idr i m. unfold ex_new_above. case_decide; intros [= <-]; [done|]. split; [lia|].
    apply eq_None_not_Some. intros [a Ha%elem_of_map_to_list].
    assert (∀ l x, x ∈ l → x ≤ foldr Z.max 0 l) as Hmax.
    { induction l as [|y l IH]; intros x; [by intros ?%not_elem_of_nil|]. simpl.
      intros [->|Hx]%elem_of_cons; [lia|]. specialize (IH x Hx). lia. }
    assert (Z.max i (foldr Z.max 0 (map_to_list idr).*1 + 1) ≤ foldr Z.max 0 (map_to_list idr).*1) as Hle.
    { apply Hmax. apply (list_elem_of_fmap_2 fst) in Ha. exact Ha. }
    lia.
  - intros idr i m. unfold ex_new_above. by case_decide; intros [= <-].
  - intros idr i err. unfold ex_new_above. by case_decide.
  - intros idr i a. apply elem_of_map_to_list.
Qed.

Definition one_device : world :=
  World {[7 := zero_dev <| lo_number := 0 |>]} {[0 := 7]} false ∅ ∅ 0 [] ∅.

Lemma one_device_ok : index_ok one_device.
Proof.
  constructor; unfold one_device; simpl.
  - intros i a [<- <-]%lookup_singleton_Some. split; [lia|]. by eexists.
  - by intros i j a [<- _]%lookup_singleton_Some [<- _]%lookup_singleton_Some.
  - by intros a d [<- <-]%lookup_singleton_Some.
Qed.

Lemma loop_control_correct_witness :
  ∃ ret w', loop_control_ioctl ex_new_above ex_entries 0 (AddEnv 8 true true true true)
      (LOOP_CTL_ADD 4) one_device = Ok (ret, w') ∧ ret = 4 ∧ index_ok w'.
Proof.
  destruct (loop_control_correct ex_new_above ex_entries 0 (AddEnv 8 true true true true)
    (LOOP_CTL_ADD 4) one_device) as (ret & w' & E & Hok & _); try done.
  { apply ex_idr_laws. } { apply one_device_ok. }
  exists ret, w'. split; [exact E|]. split; [|exact Hok]. revert E. vm_compute. by intros [= <- _].
Defined.

Lemma loop_add_leaves_dangling_entry_witness :
  ∃ w', loop_add ex_new_above 0 (AddEnv 8 true true true false) 4 one_device = Ok ((0, None), w') ∧
    loop_lookup ex_entries 4 w' = Oops.
Proof.
  destruct (loop_add_leaves_dangling_entry ex_new_above ex_entries 0
    (AddEnv 8 true true true false) 4 one_device) as (w' & E & _ & _ & H); try done.
  exists w'. split; [exact E|exact H].
Defined.

Lemma loop_init_params_ok_witness :
  loop_init_params 15 8 8 = inr (4, 15, 8, 128) ∧ 8 * 2 ^ 4 ≤ 2 ^ 20.
Proof.
  split; [reflexivity|].
  apply (loop_init_params_ok 15 8 8 4 15 8 128); [reflexivity|lia|lia].
Defined.
