(* ===== verification/SfsDispatch.v ===== *)
(** * SFS: bitmaps, dispatching and CPU accounting

    Models, from sfs16/sfs_fs.h, [test_bitmap], [set_bitmap] and [struct sfs_dentry], and from
    sfs16/dispatch.c, [dispatch], [select_normal_dir_rr], [local_dispatch] (without
    [PARTITIONED], which the header leaves undefined), [init_cpu2fs_mapping],
    [destroy_cpu2fs_mapping], [assign_cpus], [inc_concurrency], [dec_cocurrency],
    [check_concurrency], [migrate_on_update], [bind_on_update], their [_1] variants and
    [finish_update].  SFS spreads the objects of a directory over several underlying file
    systems (replicas); [dispatch] deals out replicas in rotation. *)
From S2P Require Import Prelude Interfaces.

Definition MAX : Z := 1024.
Definition SPAN_THRESHOLD : Z := 20.
Definition CLONE_NORMAL : Z := 1.
Definition CLONE_SHADOW : Z := 0.

(** ** Bitmaps of replicas: 64 bits *)
Definition test_bitmap (bitmap shift : Z) : Z := Z.land (wrapu 64 (1 ≪ shift)) bitmap.
Definition set_bitmap (bitmap shift : Z) : Z := Z.lor bitmap (wrapu 64 (1 ≪ shift)).

(** [replicas]: dentries of the underlying file systems, by identity. *)
Record sfs_dentry := SfsDentry {
  replicas : list (option Z);
  unused_replica_dentry : option Z;
  replica_id : Z;
  meta_id : Z;
  local_counter : Z;
  global_counter : Z;
  normal_dir_count : Z;
  first_normal_dir_id : Z;
  normal_dir_map : Z;
}.

Lemma test_bitmap_bit m i : 0 ≤ i < 64 → bool_decide (test_bitmap m i ≠ 0) = Z.testbit m i.
Proof.
  intros Hi. unfold test_bitmap. rewrite Z.shiftl_mul_pow2, Z.mul_1_l by lia.
  rewrite wrapu_small.
  2:{ split; [apply Z.pow_nonneg; lia|]. apply Z.pow_lt_mono_r; lia. }
  destruct (Z.testbit m i) eqn:E.
  - apply bool_decide_eq_true. intros H0.
    assert (Z.testbit (Z.land (2 ^ i) m) i = true) as H1.
    { by rewrite Z.land_spec, E, Z.pow2_bits_true by lia. }
    by rewrite H0, Z.bits_0 in H1.
  - apply bool_decide_eq_false. intros H0. apply H0. apply Z.bits_inj'. intros j Hj.
    rewrite Z.bits_0, Z.land_spec. destruct (decide (i = j)) as [<-|Hne].
    + by rewrite E, andb_false_r.
    + by rewrite Z.pow2_bits_false by done.
Qed.

Lemma set_bitmap_bit m i j :
  0 ≤ i < 64 → 0 ≤ j → Z.testbit (set_bitmap m i) j = Z.testbit m j || bool_decide (i = j).
Proof.
  intros Hi Hj. unfold set_bitmap. rewrite Z.shiftl_mul_pow2, Z.mul_1_l by lia.
  rewrite wrapu_small.
  2:{ split; [apply Z.pow_nonneg; lia|]. apply Z.pow_lt_mono_r; lia. }
  rewrite Z.lor_spec. f_equal. case_bool_decide as E.
  - subst. by rewrite Z.pow2_bits_true by lia.
  - by rewrite Z.pow2_bits_false by done.
Qed.

Section dispatch.
(** [get_replica_count ()]: the number of underlying file systems. *)
Variable replica_count : Z.

(** ** Rotation

    The state is the atomic [last_dispatch]. *)
Definition dispatch (last_dispatch : Z) : Z * Z :=
  if decide (replica_count = 1) then (last_dispatch, 0) else
  let id := last_dispatch + 1 in
  (if decide (MAX < id) then 0 else id, (id - 1) mod replica_count).

(** [while (!test_bitmap (map, counter)) counter = (counter + 1) % replica_count] *)
Fixpoint next_normal (fuel : nat) (map counter : Z) : res Z :=
  match fuel with
  | O => NoFuel
  | S fuel =>
      if decide (test_bitmap map counter ≠ 0) then Ok counter
      else next_normal fuel map ((counter + 1) mod replica_count)
  end.

Definition select_normal_dir_rr (d : sfs_dentry) : res (sfs_dentry * Z) :=
  if decide (normal_dir_count d = 0) then Ok (d, -1) else
  ret ← next_normal (Z.to_nat replica_count) (normal_dir_map d) (local_counter d);
  Ok (d <| local_counter := (ret + 1) mod replica_count |>, ret).

(** [do ret = dispatch (); while (test_bitmap (map, ret))] *)
Fixpoint dispatch_fresh (fuel : nat) (map last : Z) : res (Z * Z) :=
  match fuel with
  | O => NoFuel
  | S fuel =>
      let '(last, ret) := dispatch last in
      if decide (test_bitmap map ret ≠ 0) then dispatch_fresh fuel map last else Ok (last, ret)
  end.

Definition span_threshold : Z :=
  if decide (SPAN_THRESHOLD < replica_count) then SPAN_THRESHOLD else replica_count.

Definition local_dispatch (d : sfs_dentry) (last : Z) : res (sfs_dentry * Z * Z) :=
  if decide (normal_dir_count d < span_threshold) then
    '(last, ret) ← dispatch_fresh (2 * Z.to_nat replica_count) (normal_dir_map d) last;
    Ok (d, last, ret)
  else
    ret ← next_normal (Z.to_nat replica_count) (normal_dir_map d) (local_counter d);
    Ok (d <| local_counter := (ret + 1) mod replica_count |>, last, ret).

(** ** Lemmas *)
Hypothesis replica_range : 1 ≤ replica_count ≤ 64.

Lemma next_normal_spec map c t :
  0 ≤ c < replica_count → 0 ≤ t < replica_count → Z.testbit map t = true →
  ∃ ret, next_normal (Z.to_nat replica_count) map c = Ok ret ∧ 0 ≤ ret < replica_count ∧
    Z.testbit map ret = true.
Proof.
  intros Hc Ht Hbit.
  (* [k]: the distance from the counter to [t], going round *)
  assert (∀ fuel c, 0 ≤ c < replica_count → (Z.to_nat ((t - c) mod replica_count) < fuel)%nat →
    ∃ ret, next_normal fuel map c = Ok ret ∧ 0 ≤ ret < replica_count ∧ Z.testbit map ret = true) as Hgo.
  { clear c Hc. induction fuel as [|fuel IH]; intros c Hc Hf; [lia|]. simpl.
    pose proof (test_bitmap_bit map c ltac:(lia)) as Hb.
    destruct (decide (test_bitmap map c ≠ 0)) as [Hset|Hclear].
    - exists c. rewrite bool_decide_eq_true_2 in Hb by done. done.
    - rewrite bool_decide_eq_false_2 in Hb by done.
      assert (c ≠ t) as Hct by congruence.
      pose proof (Z.mod_pos_bound (t - c) replica_count ltac:(lia)) as Hm.
      assert ((t - c) mod replica_count ≠ 0) as Hm0.
      { intros H0. apply Z.mod_divide in H0; [|lia]. destruct H0 as [q Hq].
        destruct (decide (q = 0)) as [->|?]; [lia|]. destruct (decide (1 ≤ q)); nia. }
      apply IH; [apply Z.mod_pos_bound; lia|].
      assert ((t - (c + 1) mod replica_count) mod replica_count = (t - c) mod replica_count - 1) as ->.
      { rewrite Zminus_mod_idemp_r. symmetry. apply Z.mod_unique_pos with ((t - c) / replica_count).
        - lia.
        - pose proof (Z.div_mod (t - c) replica_count ltac:(lia)). lia. }
      lia. }
  apply Hgo; [done|]. pose proof (Z.mod_pos_bound (t - c) replica_count ltac:(lia)). lia.
Qed.

Definition last_ok (last : Z) : Prop := 0 ≤ last ≤ MAX.

Lemma dispatch_spec last :
  last_ok last → last_ok (dispatch last).1 ∧ 0 ≤ (dispatch last).2 < replica_count.
Proof.
  unfold dispatch, last_ok, MAX. intros Hl. case_decide; simpl; [lia|].
  split; [case_decide; lia|]. apply Z.mod_pos_bound. lia.
Qed.

Lemma dispatch_next last :
  replica_count ≠ 1 → (dispatch last).1 = if decide (MAX < last + 1) then 0 else last + 1.
Proof. intros Hne. unfold dispatch. by rewrite decide_False. Qed.

(** From a counter below [t] in the run up to the next reset, [t mod replica_count] comes. *)
Lemma dispatch_fresh_reach map (n fuel : nat) last :
  replica_count ≠ 1 → last_ok last → last + Z.of_nat n ≤ MAX → (n < fuel)%nat →
  Z.testbit map ((last + Z.of_nat n) mod replica_count) = false →
  ∃ last' ret, dispatch_fresh fuel map last = Ok (last', ret) ∧ last_ok last' ∧
    0 ≤ ret < replica_count ∧ Z.testbit map ret = false.
Proof.
  intros Hne. revert fuel last. induction n as [|n IH]; intros fuel last Hl Hmax Hf Hbit;
    (destruct fuel as [|fuel]; [lia|]); simpl;
    pose proof (dispatch_spec last Hl) as [Hl' Hr];
    pose proof (test_bitmap_bit map (dispatch last).2 ltac:(lia)) as Hb;
    destruct (dispatch last) as [last' ret] eqn:E; simpl in *.
  - assert (Z.testbit map ret = false) as Hret.
    { unfold dispatch in E. rewrite decide_False in E by done. simplify_eq.
      by rewrite Z.add_0_r in Hbit; replace (last + 1 - 1) with last by lia. }
    rewrite Hret in Hb. rewrite decide_False by (by apply bool_decide_eq_false_1 in Hb).
    exists last', ret. done.
  - destruct (decide (test_bitmap map ret ≠ 0)) as [Hset|Hclear].
    + apply IH; [done| |lia|].
      * unfold dispatch, MAX in *. rewrite decide_False in E by done. simplify_eq.
        rewrite decide_False by lia. lia.
      * unfold dispatch, MAX in *. rewrite decide_False in E by done. simplify_eq.
        rewrite decide_False by lia.
        by replace (last + 1 + Z.of_nat n) with (last + Z.of_nat (S n)) by lia.
    + exists last', ret. rewrite bool_decide_eq_false_2 in Hb by done. done.
Qed.

(** Past the reset: the rotation starts again from replica 0. *)
Lemma dispatch_fresh_reset map (m fuel : nat) last t :
  replica_count ≠ 1 → last_ok last → last + Z.of_nat m = MAX →
  0 ≤ t < replica_count → Z.testbit map t = false →
  (S m + S (Z.to_nat t) ≤ fuel)%nat →
  ∃ last' ret, dispatch_fresh fuel map last = Ok (last', ret) ∧ last_ok last' ∧
    0 ≤ ret < replica_count ∧ Z.testbit map ret = false.
Proof.
  intros Hne. revert fuel last. induction m as [|m IH]; intros fuel last Hl Hmax Ht Hbit Hf;
    (destruct fuel as [|fuel]; [lia|]); simpl;
    pose proof (dispatch_spec last Hl) as [Hl' Hr];
    pose proof (test_bitmap_bit map (dispatch last).2 ltac:(lia)) as Hb;
    pose proof (dispatch_next last Hne) as En;
    destruct (dispatch last) as [last' ret] eqn:E; simpl in *;
    (destruct (decide (test_bitmap map ret = 0)) as [Hclear|Hset];
      [rewrite decide_False by (intros Hn; by apply Hn);
       exists last', ret; rewrite bool_decide_eq_false_2 in Hb by (intros Hn; by apply Hn); done|
       rewrite decide_True by done]).
  - rewrite En, decide_True by lia. apply (dispatch_fresh_reach map (Z.to_nat t));
      unfold last_ok, MAX; try lia; [].
    rewrite Z.add_0_l, Z2Nat.id, Z.mod_small by lia. done.
  - rewrite En in *. rewrite decide_False in * by lia. apply IH; try done; lia.
Qed.

Lemma dispatch_fresh_spec map last t :
  last_ok last → 0 ≤ t < replica_count → Z.testbit map t = false →
  ∃ last' ret, dispatch_fresh (2 * Z.to_nat replica_count) map last = Ok (last', ret) ∧
    last_ok last' ∧ 0 ≤ ret < replica_count ∧ Z.testbit map ret = false.
Proof.
  intros Hl Ht Hbit. destruct (decide (replica_count = 1)) as [H1|Hne].
  { assert (t = 0) as -> by lia. replace (2 * Z.to_nat replica_count)%nat with 2%nat by lia.
    cbn [dispatch_fresh]. unfold dispatch. rewrite decide_True by done.
    pose proof (test_bitmap_bit map 0 ltac:(lia)) as Hb. rewrite Hbit in Hb.
    rewrite decide_False by (by apply bool_decide_eq_false_1 in Hb). eexists _, _. split; [done|]. lia || done. }
  pose proof (Z.mod_pos_bound (t - last) replica_count ltac:(lia)) as Hk.
  set (k := (t - last) mod replica_count) in *.
  destruct (decide (last + k ≤ MAX)).
  - apply (dispatch_fresh_reach map (Z.to_nat k)); try done; try lia.
    rewrite Z2Nat.id by lia. unfold k. rewrite Zplus_mod_idemp_r.
    replace (last + (t - last)) with t by lia. by rewrite Z.mod_small.
  - apply (dispatch_fresh_reset map (Z.to_nat (MAX - last)) _ last t); try done;
      unfold last_ok, MAX in *; lia.
Qed.

(** ** Directory entries *)
Definition bits (map : Z) : list Z := filter (λ i, Z.testbit map i = true) (seqZ 0 replica_count).

(** The counters of a directory's private data agree with its bitmap. *)
Record normal_ok (d : sfs_dentry) : Prop := NormalOk {
  no_count : normal_dir_count d = Z.of_nat (length (bits (normal_dir_map d)));
  no_local : 0 ≤ local_counter d < replica_count;
}.

Lemma bits_Some map : bits map ≠ [] → ∃ t, 0 ≤ t < replica_count ∧ Z.testbit map t = true.
Proof.
  intros Hne. destruct (bits map) as [|t l] eqn:E; [done|]. exists t.
  assert (t ∈ bits map) as [Hb Hin%elem_of_seqZ]%list_elem_of_filter by (rewrite E; left).
  split; [lia|done].
Qed.

Lemma bits_None map :
  (length (bits map) < Z.to_nat replica_count)%nat →
  ∃ t, 0 ≤ t < replica_count ∧ Z.testbit map t = false.
Proof.
  intros Hlt. destruct (decide (Exists (λ i, Z.testbit map i = false) (seqZ 0 replica_count)))
    as [(t & Hin%elem_of_seqZ & Hb)%Exists_exists|Hno].
  { exists t. split; [lia|done]. }
  exfalso. assert (bits map = seqZ 0 replica_count) as E.
  { unfold bits. apply filter_all. intros i Hi.
    destruct (Z.testbit map i) eqn:Eb; [done|]. exfalso. apply Hno, Exists_exists. eauto. }
  rewrite E, length_seqZ in Hlt. lia.
Qed.

Lemma span_threshold_range : 1 ≤ span_threshold ≤ replica_count.
Proof. unfold span_threshold, SPAN_THRESHOLD. case_decide; lia. Qed.

Lemma local_dispatch_spec d last :
  normal_ok d → last_ok last →
  ∃ d' last' ret, local_dispatch d last = Ok (d', last', ret) ∧ normal_ok d' ∧ last_ok last' ∧
    0 ≤ ret < replica_count ∧ normal_dir_map d' = normal_dir_map d ∧
    Z.testbit (normal_dir_map d) ret = bool_decide (span_threshold ≤ normal_dir_count d).
Proof.
  intros [Hc Hloc] Hl. unfold local_dispatch. pose proof span_threshold_range.
  destruct (decide (normal_dir_count d < span_threshold)) as [Hlt|Hge].
  - destruct (bits_None (normal_dir_map d)) as (t & Ht & Hb); [lia|].
    destruct (dispatch_fresh_spec (normal_dir_map d) last t Hl Ht Hb) as (last' & ret & -> & ? & ? & ?).
    rewrite bind_Ok. eexists _, _, _. split; [reflexivity|].
    rewrite bool_decide_eq_false_2 by lia. done.
  - destruct (bits_Some (normal_dir_map d)) as (t & Ht & Hb).
    { intros E. rewrite E in Hc. simpl in Hc. lia. }
    destruct (next_normal_spec (normal_dir_map d) (local_counter d) t Hloc Ht Hb) as (ret & -> & Hr & Hbr).
    rewrite bind_Ok. eexists _, _, _. split; [reflexivity|].
    rewrite bool_decide_eq_true_2 by lia. split; [|done].
    constructor; [done|]. simpl. apply Z.mod_pos_bound. lia.
Qed.

(** ** Fairness of the round robin

    [order c]: the replicas in the order the counter visits them from [c]. *)
Definition order (c : Z) : list Z := map (λ i, (c + i) mod replica_count) (seqZ 0 replica_count).

Definition rotation (d : sfs_dentry) : list Z :=
  filter (λ i, Z.testbit (normal_dir_map d) i = true) (order (local_counter d)).

Lemma order_unfold c :
  0 ≤ c < replica_count →
  order c = c :: map (λ i, (c + i) mod replica_count) (seqZ 1 (replica_count - 1)).
Proof.
  intros Hc. unfold order. rewrite seqZ_cons by lia. simpl.
  rewrite Z.add_0_r, Z.mod_small by lia. by rewrite Z.sub_1_r.
Qed.

Lemma order_next c t :
  0 ≤ c < replica_count → order c = c :: t → order ((c + 1) mod replica_count) = t ++ [c].
Proof.
  intros Hc. rewrite order_unfold by done. intros [= <-]. unfold order.
  assert (seqZ 0 replica_count = seqZ 0 (replica_count - 1) ++ [replica_count - 1]) as ->.
  { rewrite <- (Z.sub_add 1 replica_count) at 1. rewrite seqZ_app by lia. by rewrite Z.add_0_l. }
  rewrite map_app. f_equal; simpl.
  - replace 1 with (1 + 0) at 2 by lia. rewrite <- fmap_add_seqZ, <- list_fmap_compose.
    apply list_fmap_ext. intros _ i _. simpl. rewrite Zplus_mod_idemp_l. f_equal. lia.
  - f_equal. rewrite Zplus_mod_idemp_l.
    replace (c + 1 + (replica_count - 1)) with (c + 1 * replica_count) by lia.
    by rewrite Z.mod_add, Z.mod_small by lia.
Qed.

Lemma order_range c i : i ∈ order c → 0 ≤ i < replica_count.
Proof. intros (j & -> & _)%list_elem_of_fmap. apply Z.mod_pos_bound. lia. Qed.

Lemma order_perm c : 0 ≤ c < replica_count → order c ≡ₚ seqZ 0 replica_count.
Proof.
  intros Hc. assert (∀ n : nat, Z.of_nat n < replica_count → order (Z.of_nat n) ≡ₚ seqZ 0 replica_count) as H.
  { induction n as [|n IH]; intros Hn.
    - assert (order 0 = seqZ 0 replica_count) as E; [|change (order 0 ≡ₚ seqZ 0 replica_count); by rewrite E].
      unfold order. rewrite <- (list_fmap_id (seqZ 0 replica_count)) at 2.
      apply list_fmap_ext. intros k i Hk%list_elem_of_lookup_2%elem_of_seqZ.
      simpl. rewrite Z.mod_small by lia. done.
    - pose proof (order_next (Z.of_nat n) _ ltac:(lia) (order_unfold (Z.of_nat n) ltac:(lia))) as E.
      rewrite Z.mod_small in E by lia. rewrite Nat2Z.inj_succ, <- Z.add_1_r, E.
      rewrite <- Permutation_cons_append, <- order_unfold by lia. apply IH. lia. }
  specialize (H (Z.to_nat c)). rewrite Z2Nat.id in H by lia. apply H. lia.
Qed.

(** The search passes over [l1] and stops at [r]. *)
Lemma next_normal_order map l1 r l2 fuel c :
  0 ≤ c < replica_count → order c = l1 ++ r :: l2 →
  Forall (λ i, Z.testbit map i = false) l1 → Z.testbit map r = true → (length l1 < fuel)%nat →
  next_normal fuel map c = Ok r ∧ order ((r + 1) mod replica_count) = l2 ++ l1 ++ [r].
Proof.
  revert l2 fuel c. induction l1 as [|x l1 IH]; intros l2 [|fuel] c Hc Ho Hall Hr Hf; try (simpl in Hf; lia);
    simpl in *; pose proof (test_bitmap_bit map c ltac:(lia)) as Hb;
    rewrite order_unfold in Ho by done; injection Ho as E1 E2; subst.
  - rewrite Hr in Hb. apply bool_decide_eq_true_1 in Hb. rewrite decide_True by done. split; [done|].
    apply order_next; [done|]. by apply order_unfold.
  - apply Forall_cons in Hall as [Hx Hall]. rewrite Hx in Hb. apply bool_decide_eq_false_1 in Hb.
    rewrite decide_False by done.
    pose proof (order_next x _ Hc (order_unfold x Hc)) as Hn. rewrite E2 in Hn.
    destruct (IH (l2 ++ [x]) fuel ((x + 1) mod replica_count)) as [-> ->]; [|by rewrite Hn, <- app_assoc|done|done|lia|].
    { apply Z.mod_pos_bound. lia. }
    split; [done|]. by rewrite <- !app_assoc.
Qed.

(** One call takes the head of the rotation and puts it last. *)
Lemma select_normal_dir_rr_spec d r l :
  normal_ok d → rotation d = r :: l →
  ∃ d', select_normal_dir_rr d = Ok (d', r) ∧ normal_ok d' ∧ rotation d' = l ++ [r].
Proof.
  intros [Hcnt Hloc] Hrot. unfold rotation in Hrot.
  assert (∃ l1 l2, order (local_counter d) = l1 ++ r :: l2 ∧
    Forall (λ i, Z.testbit (normal_dir_map d) i = false) l1) as (l1 & l2 & Ho & Hall).
  { destruct (head_filter_Some (λ i, Z.testbit (normal_dir_map d) i = true) (order (local_counter d)) r)
      as (l1 & l2 & Ho & Hall); [by rewrite Hrot|].
    exists l1, l2. split; [done|]. eapply Forall_impl; [done|]. intros i Hi. by apply not_true_is_false. }
  assert (r ∈ filter (λ i, Z.testbit (normal_dir_map d) i = true) (order (local_counter d))) as [Hr Hin]%list_elem_of_filter.
  { rewrite Hrot. left. }
  pose proof (order_perm _ Hloc) as Hperm.
  assert (normal_dir_count d ≠ 0) as Hne.
  { rewrite Hcnt. unfold bits. rewrite <- Hperm, Hrot. simpl. lia. }
  destruct (next_normal_order (normal_dir_map d) l1 r l2 (Z.to_nat replica_count) (local_counter d))
    as [E1 E2]; [done..| |].
  { apply Permutation_length in Hperm. rewrite Ho, length_app, length_seqZ in Hperm. simpl in Hperm. lia. }
  unfold select_normal_dir_rr. rewrite decide_False by done. rewrite E1, bind_Ok.
  eexists. split; [reflexivity|]. split.
  { constructor; [done|]. simpl. apply Z.mod_pos_bound. lia. }
  unfold rotation. simpl. rewrite E2, !filter_app.
  rewrite Ho, filter_app, filter_cons_True in Hrot by done.
  assert (filter (λ i, Z.testbit (normal_dir_map d) i = true) l1 = []) as Hnil.
  { clear -Hall. induction Hall as [|i l Hi Hall IH]; [done|].
    rewrite filter_cons_False by congruence. done. }
  rewrite Hnil in *. simpl in *. injection Hrot as ->. by rewrite filter_cons_True.
Qed.

Fixpoint select_times (n : nat) (d : sfs_dentry) : res (sfs_dentry * list Z) :=
  match n with
  | O => Ok (d, [])
  | S n => '(d, r) ← select_normal_dir_rr d; '(d, l) ← select_times n d; Ok (d, r :: l)
  end.

Lemma select_times_spec l1 d l2 :
  normal_ok d → rotation d = l1 ++ l2 →
  ∃ d', select_times (length l1) d = Ok (d', l1) ∧ normal_ok d' ∧ rotation d' = l2 ++ l1.
Proof.
  revert d l2. induction l1 as [|r l1 IH]; intros d l2 Hd Hrot; simpl.
  { exists d. rewrite app_nil_r. done. }
  destruct (select_normal_dir_rr_spec d r (l1 ++ l2) Hd Hrot) as (d1 & -> & Hd1 & Hr1).
  destruct (IH d1 (l2 ++ [r])) as (d2 & E & Hd2 & Hr2); [done|by rewrite app_assoc|].
  rewrite bind_Ok, E, bind_Ok. eexists. split; [reflexivity|]. split; [done|].
  by rewrite Hr2, <- app_assoc.
Qed.

Lemma rotation_perm d : normal_ok d → rotation d ≡ₚ bits (normal_dir_map d).
Proof. intros [_ Hloc]. unfold rotation, bits. by rewrite order_perm. Qed.

End dispatch.

(** ** CPU accounting of a replica *)
Record sb_counts := SbCounts {
  nr_accessing_cpus : Z;
  nr_percpu : list Z;
  cpu_set : Z;
}.

Definition inc_concurrency (cpu : nat) (s : sb_counts) : res sb_counts :=
  n ← lift (nr_percpu s !! cpu);
  let s := s <| nr_percpu ::= <[cpu := wrapu 64 (n + 1)]> |> in
  Ok (if decide (wrapu 64 (n + 1) = 1)
      then s <| nr_accessing_cpus ::= λ c, wrapu 64 (c + 1) |> else s).

Definition dec_cocurrency (cpu : nat) (s : sb_counts) : res sb_counts :=
  n ← lift (nr_percpu s !! cpu);
  let s := s <| nr_percpu ::= <[cpu := wrapu 64 (n - 1)]> |> in
  Ok (if decide (wrapu 64 (n - 1) = 0)
      then s <| nr_accessing_cpus ::= λ c, wrapu 64 (c - 1) |> else s).

(** The test of the threshold is commented out. *)
Definition check_concurrency (s : sb_counts) : bool := false.

(** The thread: its allowed CPUs and the one it runs on; [place] is the CPU the scheduler
    picks from a mask. *)
Record task := Task { cpus_allowed : Z; task_cpu : Z }.

Section migrate.
Variable place : Z → Z → Z.

Definition set_cpus_allowed (mask : Z) (t : task) : task :=
  t <| cpus_allowed := mask |> <| task_cpu := place mask (task_cpu t) |>.

(** The variants [_1] migrate and count, but nothing calls them.  The new thread, counts, saved
    mask and destination CPU. *)
Definition migrate_on_update_1 (s : sb_counts) (t : task) : res (sb_counts * task * Z * Z) :=
  let saved := cpus_allowed t in
  let t := if check_concurrency s then set_cpus_allowed (cpu_set s) t
           else set_cpus_allowed (1 ≪ task_cpu t) t in
  let dest := wrapu 32 (task_cpu t) in
  s ← inc_concurrency (Z.to_nat dest) s;
  Ok (s, t, saved, dest).

Definition bind_on_update_1 (s : sb_counts) (t : task) : res (sb_counts * task * Z * Z) :=
  let saved := cpus_allowed t in
  let t := set_cpus_allowed (cpu_set s) t in
  let dest := wrapu 32 (task_cpu t) in
  s ← inc_concurrency (Z.to_nat dest) s;
  Ok (s, t, saved, dest).

(** The versions in use only store [-1] in the unsigned destination. *)
Definition migrate_on_update : Z := wrapu 32 (-1).
Definition bind_on_update : Z := wrapu 32 (-1).

Definition finish_update (saved dest : Z) (s : sb_counts) (t : task) : res (sb_counts * task) :=
  if decide (dest ≠ wrapu 32 (-1)) then
    let t := set_cpus_allowed saved t in
    s ← dec_cocurrency (Z.to_nat dest) s; Ok (s, t)
  else Ok (s, t).

End migrate.


(** ** Mapping CPUs to replicas

    The slots of [cpu2fs_mapping]: memory kmalloc left as it was, a NULL pointer, or an
    allocated cell with the replica stored in it. *)
Inductive slot := Garbage | Null | Slot (sbi : option Z).

Record cpu2fs := Cpu2fs {
  mapping : option (list slot);
  nr_online_cpus : Z;
  last_dispatch : Z;
}.

(** The loop over the slots; [false]: an allocation failed. *)
Fixpoint alloc_slots (kmalloc_ok : nat → bool) (n i : nat) (m : list slot) : list slot * bool :=
  match n with
  | O => (m, true)
  | S n =>
      if kmalloc_ok (S i) then alloc_slots kmalloc_ok n (S i) (<[i := Slot None]> m)
      else (<[i := Null]> m, false)
  end.

(** [kmalloc_ok i]: the outcome of the [i]-th allocation. *)
Definition init_cpu2fs_mapping (online : nat) (kmalloc_ok : nat → bool) (s : cpu2fs) : cpu2fs * Z :=
  let s := s <| nr_online_cpus := Z.of_nat online |> in
  if kmalloc_ok 0%nat then
    let '(m, ok) := alloc_slots kmalloc_ok online 0 (replicate online Garbage) in
    let s := s <| mapping := Some m |> in
    if ok then (s <| last_dispatch := 0 |>, 0) else (s, - ENOMEM)
  else (s <| mapping := None |>, - ENOMEM).

(** [kfree] of a slot: anything but garbage; reading past the array is an invalid access.
    The slots freed are returned. *)
Fixpoint free_slots (n i : nat) (m : list slot) : res nat :=
  match n with
  | O => Ok O
  | S n =>
      match m !! i with
      | Some Null => free_slots n (S i) m
      | Some (Slot _) => k ← free_slots n (S i) m; Ok (S k)
      | _ => Oops
      end
  end.

Definition destroy_cpu2fs_mapping (s : cpu2fs) : res nat :=
  match mapping s with
  | None => if decide (0 < nr_online_cpus s) then Oops else Ok O
  | Some m => free_slots (Z.to_nat (nr_online_cpus s)) 0 m
  end.

Section assign.
Variable NR_CPUS : nat.

(** [while (count--)]: the CPUs of one replica. *)
Fixpoint assign_replica (count : nat) (r cpus : Z) (i : nat) (m : list slot)
    : res (Z * nat * list slot) :=
  match count with
  | O => Ok (cpus, i, m)
  | S count =>
      if decide (i < NR_CPUS)%nat then
        match m !! i with
        | Some (Slot _) =>
            assign_replica count r (Z.setbit cpus (Z.of_nat i)) (S i) (<[i := Slot (Some r)]> m)
        | _ => Oops
        end
      else Oops
  end.

(** [list_for_each_replica]; a replica is its identity and its [cpu_set]. *)
Fixpoint assign_all (ratio : nat) (rs : list (Z * Z)) (i : nat) (m : list slot)
    : res (list (Z * Z) * list slot) :=
  match rs with
  | [] => Ok ([], m)
  | (r, cpus) :: rs =>
      '(cpus, i, m) ← assign_replica ratio r cpus i m;
      '(rs, m) ← assign_all ratio rs i m;
      Ok ((r, cpus) :: rs, m)
  end.

(** [nr_online_cpus] is overwritten with 16; with no replica the division faults. *)
Definition assign_cpus (rs : list (Z * Z)) (s : cpu2fs) : res (list (Z * Z) * cpu2fs * Z) :=
  let count := Z.of_nat (length rs) in
  let s := s <| nr_online_cpus := 16 |> in
  if decide (nr_online_cpus s < count) then Ok (rs, s, - E2BIG) else
  if decide (count = 0) then Oops else
  let ratio := (nr_online_cpus s + count - 1) / count in
  m ← lift (mapping s);
  '(rs, m) ← assign_all (Z.to_nat ratio) rs 0 m;
  Ok (rs, s <| mapping := Some m |>, 0).

(** *** What the loops compute *)
Lemma alloc_slots_ok n i m :
  (i + n = length m)%nat →
  alloc_slots (λ _, true) n i m = (take i m ++ replicate n (Slot None), true).
Proof.
  revert i m. induction n as [|n IH]; intros i m Hl; simpl.
  { rewrite take_ge by lia. by rewrite app_nil_r. }
  rewrite IH by (rewrite length_insert; lia).
  rewrite (take_S_r _ i (Slot None)) by (apply list_lookup_insert_eq; lia).
  by rewrite take_insert_ge, <- app_assoc.
Qed.

Lemma assign_replica_spec count r cpus pre n :
  (length pre + n ≤ NR_CPUS)%nat →
  assign_replica count r cpus (length pre) (pre ++ replicate n (Slot None)) =
  if decide (count ≤ n)%nat then
    Ok (foldl Z.setbit cpus (seqZ (Z.of_nat (length pre)) (Z.of_nat count)), (length pre + count)%nat,
        pre ++ replicate count (Slot (Some r)) ++ replicate (n - count) (Slot None))
  else Oops.
Proof.
  revert cpus pre n. induction count as [|count IH]; intros cpus pre n Hn;
    cbn [assign_replica].
  { rewrite decide_True by lia. cbn [replicate app]. by rewrite Nat.add_0_r, Nat.sub_0_r. }
  destruct n as [|n].
  { rewrite (decide_False (P := (S count ≤ 0)%nat)) by lia. cbn [replicate]. rewrite app_nil_r.
    rewrite lookup_ge_None_2 by lia. by destruct (decide _). }
  rewrite (decide_True (P := (length pre < NR_CPUS)%nat)) by lia.
  rewrite (list_lookup_middle pre (replicate n (Slot None)) (Slot None)) by done.
  cbn [replicate]. rewrite insert_app_r_alt, Nat.sub_diag by lia. cbn [list_insert].
  specialize (IH (Z.setbit cpus (Z.of_nat (length pre))) (pre ++ [Slot (Some r)]) n).
  rewrite length_app, <- app_assoc in IH. cbn [length app] in IH.
  rewrite Nat.add_1_r in IH. cbn [list_insert insert] in *.
  rewrite IH by lia. destruct (decide (count ≤ n)%nat).
  - rewrite decide_True by lia. f_equal. f_equal; [f_equal; [|lia]|].
    + rewrite (seqZ_cons _ (Z.of_nat (S count))) by lia. simpl. f_equal. f_equal; lia.
    + by rewrite <- app_assoc.
  - by rewrite decide_False by lia.
Qed.

(** The CPUs of the [k]-th replica. *)
Definition cpu_block (ratio k : nat) : list Z := seqZ (Z.of_nat (k * ratio)) (Z.of_nat ratio).

Lemma assign_all_spec ratio rs k pre n :
  length pre = (k * ratio)%nat → (length pre + n ≤ NR_CPUS)%nat →
  assign_all ratio rs (length pre) (pre ++ replicate n (Slot None)) =
  if decide (ratio * length rs ≤ n)%nat then
    Ok (imap (λ j p, (p.1, foldl Z.setbit p.2 (cpu_block ratio (k + j)))) rs,
        pre ++ (rs ≫= λ p, replicate ratio (Slot (Some p.1))) ++
        replicate (n - ratio * length rs) (Slot None))
  else Oops.
Proof.
  revert k pre n. induction rs as [|[r cpus] rs IH]; intros k pre n Hk Hn; cbn [assign_all length].
  { rewrite decide_True by lia. by rewrite Nat.mul_0_r, Nat.sub_0_r. }
  rewrite assign_replica_spec by done. destruct (decide (ratio ≤ n)%nat) as [Hle|Hgt].
  2:{ by rewrite decide_False by nia. }
  rewrite bind_Ok. specialize (IH (S k) (pre ++ replicate ratio (Slot (Some r))) (n - ratio)%nat).
  rewrite length_app, length_replicate, <- app_assoc in IH. rewrite IH by lia.
  destruct (decide (ratio * length rs ≤ n - ratio)%nat).
  - rewrite decide_True by lia. rewrite bind_Ok. f_equal. f_equal.
    + cbn [imap]. f_equal; [by rewrite Nat.add_0_r, Hk|].
      apply imap_ext. intros j p _. unfold compose. by rewrite Nat.add_succ_r.
    + replace (n - ratio * S (length rs))%nat with (n - ratio - ratio * length rs)%nat by lia.
      cbn [mbind list_bind fst]. by rewrite <- !app_assoc.
  - by rewrite decide_False by nia.
Qed.

Lemma foldl_setbit l x j :
  Forall (λ i, 0 ≤ i) l → 0 ≤ j → Z.testbit (foldl Z.setbit x l) j = Z.testbit x j || bool_decide (j ∈ l).
Proof.
  intros Hl Hj. revert x. induction Hl as [|i l Hi Hl IH]; intros x; simpl.
  { by rewrite orb_false_r. }
  rewrite IH, Z.setbit_eqb by lia. rewrite (orb_comm (i =? j)), <- orb_assoc. f_equal.
  apply eq_true_iff_eq. rewrite orb_true_iff, !bool_decide_eq_true, Z.eqb_eq, elem_of_cons.
  naive_solver.
Qed.

End assign.

(** ** Accounting of the CPUs that update a replica

    [upd_step]: an update begins on the CPU the thread is bound to, or one of the updates in
    flight ends. *)
Record upd := Upd { u_task : task; u_saved : Z; u_dest : Z }.

Section accounting.
Variable place : Z → Z → Z.
Variable NR_CPUS : nat.

Inductive upd_step : sb_counts * list upd → sb_counts * list upd → Prop :=
  | upd_migrate s fl t s' t' saved dest :
      migrate_on_update_1 place s t = Ok (s', t', saved, dest) →
      upd_step (s, fl) (s', Upd t' saved dest :: fl)
  | upd_bind s fl t s' t' saved dest :
      bind_on_update_1 place s t = Ok (s', t', saved, dest) →
      upd_step (s, fl) (s', Upd t' saved dest :: fl)
  | upd_finish s fl1 fl2 u s' t' :
      finish_update place (u_saved u) (u_dest u) s (u_task u) = Ok (s', t') →
      upd_step (s, fl1 ++ u :: fl2) (s', fl1 ++ fl2).

Definition on_cpu (c : nat) (fl : list upd) : Z :=
  sumZ (λ u, if decide (u_dest u = Z.of_nat c) then 1 else 0) fl.

Definition busy (n : Z) : Z := if decide (n = 0) then 0 else 1.

(** The counters say how many updates run on each CPU, and on how many CPUs. *)
Record counts_ok (st : sb_counts * list upd) : Prop := CountsOk {
  co_len : length (nr_percpu st.1) = NR_CPUS;
  co_percpu : ∀ c n, nr_percpu st.1 !! c = Some n → n = on_cpu c st.2;
  co_cpus : nr_accessing_cpus st.1 = sumZ busy (nr_percpu st.1);
  co_dest : Forall (λ u, 0 ≤ u_dest u < Z.of_nat NR_CPUS) st.2;
}.

(** The scheduler places a thread on an existing CPU; counters of [unsigned long]. *)
Hypothesis place_range : ∀ mask c, 0 ≤ place mask c < Z.of_nat NR_CPUS.
Hypothesis cpus_bound : Z.of_nat NR_CPUS < 2 ^ 32 - 1.

Lemma on_cpu_bound c fl : 0 ≤ on_cpu c fl ≤ Z.of_nat (length fl).
Proof. unfold on_cpu. induction fl as [|u fl IH]; simpl; [lia|]. case_decide; lia. Qed.

Lemma sumZ_busy_bound l : 0 ≤ sumZ busy l ≤ Z.of_nat (length l).
Proof. induction l as [|n l IH]; simpl; [lia|]. unfold busy at 1 3. case_decide; lia. Qed.

Lemma wrap32_cpu c : 0 ≤ c < Z.of_nat NR_CPUS → wrapu 32 c = c.
Proof. intros. apply wrapu_small. lia. Qed.

Lemma percpu_on_cpu st c :
  counts_ok st → (c < NR_CPUS)%nat → nr_percpu st.1 !! c = Some (on_cpu c st.2).
Proof.
  intros Hok Hc. destruct (lookup_lt_is_Some_2 (nr_percpu st.1) c) as [n Hn].
  { by rewrite (co_len _ Hok). }
  by rewrite Hn, (co_percpu _ Hok c n Hn).
Qed.

Lemma inc_concurrency_spec s fl u :
  counts_ok (s, fl) → 0 ≤ u_dest u < Z.of_nat NR_CPUS → Z.of_nat (length fl) < 2 ^ 64 - 1 →
  ∃ s', inc_concurrency (Z.to_nat (u_dest u)) s = Ok s' ∧ counts_ok (s', u :: fl).
Proof.
  intros Hok Hd Hfl. pose proof (percpu_on_cpu _ (Z.to_nat (u_dest u)) Hok ltac:(lia)) as Hn.
  set (c := Z.to_nat (u_dest u)) in *. simpl in Hn.
  pose proof (on_cpu_bound c fl) as Hb. unfold inc_concurrency. rewrite Hn. cbn [lift]. rewrite bind_Ok.
  rewrite (wrapu_small 64) by lia. eexists. split; [reflexivity|].
  pose proof (sumZ_busy_bound (nr_percpu s)) as Hsb. pose proof (co_len _ Hok) as Hlen. simpl in Hlen.
  pose proof (co_cpus _ Hok) as Hcpus. simpl in Hcpus.
  pose proof (sumZ_insert busy (nr_percpu s) c _ (on_cpu c fl + 1) Hn) as Hins.
  assert (on_cpu c (u :: fl) = on_cpu c fl + 1) as Hc.
  { unfold on_cpu. simpl. rewrite decide_True by lia. lia. }
  assert (∀ c', c' ≠ c → on_cpu c' (u :: fl) = on_cpu c' fl) as Hc'.
  { intros c' Hne. unfold on_cpu. simpl. rewrite decide_False by lia. lia. }
  unfold busy in Hins at 3 4. rewrite (decide_False (P := on_cpu c fl + 1 = 0)) in Hins by lia.
  assert (∀ cpus', cpus' = sumZ busy (<[c:=on_cpu c fl + 1]> (nr_percpu s)) →
    counts_ok (SbCounts cpus' (<[c:=on_cpu c fl + 1]> (nr_percpu s)) (cpu_set s), u :: fl)) as Hmk.
  { intros cpus' ->. constructor; cbn [fst snd nr_percpu nr_accessing_cpus].
    - rewrite length_insert. apply (co_len _ Hok).
    - intros c' n' Hl. destruct (decide (c' = c)) as [->|Hne].
      + rewrite list_lookup_insert_eq in Hl by (by eapply lookup_lt_Some). simplify_eq. lia.
      + rewrite list_lookup_insert_ne in Hl by done. rewrite Hc' by done. by apply (co_percpu _ Hok).
    - done.
    - constructor; [lia|apply (co_dest _ Hok)]. }
  destruct (decide (on_cpu c fl + 1 = 1)) as [H1|H1].
  - apply (Hmk (wrapu 64 (nr_accessing_cpus s + 1))). rewrite Hins, (decide_True (P := on_cpu c fl = 0)) by lia. rewrite Hcpus.
    rewrite Z.sub_0_r. apply wrapu_small. lia.
  - apply (Hmk (nr_accessing_cpus s)). rewrite Hins, (decide_False (P := on_cpu c fl = 0)) by lia. lia.
Qed.

Lemma on_cpu_middle c fl1 u fl2 :
  on_cpu c (fl1 ++ u :: fl2) = on_cpu c (fl1 ++ fl2) + if decide (u_dest u = Z.of_nat c) then 1 else 0.
Proof. unfold on_cpu. rewrite !sumZ_app. simpl. lia. Qed.

Lemma dec_cocurrency_spec s fl1 u fl2 :
  counts_ok (s, fl1 ++ u :: fl2) → Z.of_nat (length (fl1 ++ u :: fl2)) < 2 ^ 64 →
  ∃ s', dec_cocurrency (Z.to_nat (u_dest u)) s = Ok s' ∧ counts_ok (s', fl1 ++ fl2).
Proof.
  intros Hok Hfl. pose proof (co_dest _ Hok) as Hdest. simpl in Hdest.
  rewrite Forall_app, Forall_cons in Hdest. destruct Hdest as (Hd1 & Hd & Hd2).
  pose proof (percpu_on_cpu _ (Z.to_nat (u_dest u)) Hok ltac:(lia)) as Hn.
  set (c := Z.to_nat (u_dest u)) in *. simpl in Hn. rewrite on_cpu_middle, decide_True in Hn by lia.
  pose proof (on_cpu_bound c (fl1 ++ fl2)) as Hb. unfold dec_cocurrency. rewrite Hn. cbn [lift].
  rewrite bind_Ok. rewrite Z.add_simpl_r, (wrapu_small 64) by (rewrite !length_app in *; simpl in *; lia).
  eexists. split; [reflexivity|].
  pose proof (sumZ_busy_bound (nr_percpu s)) as Hsb. pose proof (co_len _ Hok) as Hlen. simpl in Hlen.
  pose proof (co_cpus _ Hok) as Hcpus. simpl in Hcpus.
  pose proof (sumZ_insert busy (nr_percpu s) c _ (on_cpu c (fl1 ++ fl2)) Hn) as Hins.
  unfold busy in Hins at 3 4. rewrite (decide_False (P := on_cpu c _ + 1 = 0)) in Hins by lia.
  pose proof (sumZ_busy_bound (<[c:=on_cpu c (fl1 ++ fl2)]> (nr_percpu s))) as Hsb'.
  assert (∀ cpus', cpus' = sumZ busy (<[c:=on_cpu c (fl1 ++ fl2)]> (nr_percpu s)) →
    counts_ok (SbCounts cpus' (<[c:=on_cpu c (fl1 ++ fl2)]> (nr_percpu s)) (cpu_set s), fl1 ++ fl2)) as Hmk.
  { intros cpus' ->. constructor; cbn [fst snd nr_percpu nr_accessing_cpus].
    - rewrite length_insert. apply (co_len _ Hok).
    - intros c' n' Hl. destruct (decide (c' = c)) as [->|Hne].
      + rewrite list_lookup_insert_eq in Hl by (by eapply lookup_lt_Some). by simplify_eq.
      + rewrite list_lookup_insert_ne in Hl by done. rewrite (co_percpu _ Hok c' n' Hl). simpl.
        rewrite on_cpu_middle, decide_False by lia. lia.
    - done.
    - by rewrite Forall_app. }
  destruct (decide (on_cpu c (fl1 ++ fl2) = 0)) as [H0|H0].
  - apply (Hmk (wrapu 64 (nr_accessing_cpus s - 1))). rewrite Hins in *. rewrite Hcpus, Z.add_0_r. apply wrapu_small. lia.
  - apply (Hmk (nr_accessing_cpus s)). rewrite Hins, Hcpus. lia.
Qed.

(** Both ways to begin an update bind the thread, then count it. *)
Lemma begin_update_spec s fl mask t :
  counts_ok (s, fl) → Z.of_nat (length fl) < 2 ^ 64 - 1 →
  let t' := set_cpus_allowed place mask t in
  ∃ s', inc_concurrency (Z.to_nat (wrapu 32 (task_cpu t'))) s = Ok s' ∧
    ∀ saved, counts_ok (s', Upd t' saved (wrapu 32 (task_cpu t')) :: fl).
Proof.
  intros Hok Hfl t'. assert (0 ≤ task_cpu t' < Z.of_nat NR_CPUS) as Hr by apply place_range.
  rewrite wrap32_cpu by done.
  destruct (inc_concurrency_spec s fl (Upd t' 0 (task_cpu t')) Hok Hr Hfl) as (s' & E & [H1 H2 H3 H4]).
  exists s'. split; [done|]. intros saved. constructor; [done| |done|].
  - intros c n Hn. rewrite (H2 c n Hn). done.
  - simpl in H4. rewrite !Forall_cons in *. naive_solver.
Qed.

(** Ending an update that is in flight succeeds and gives the thread its mask back. *)
Lemma end_update_spec s fl1 u fl2 :
  counts_ok (s, fl1 ++ u :: fl2) → Z.of_nat (length (fl1 ++ u :: fl2)) < 2 ^ 64 →
  ∃ s' t', finish_update place (u_saved u) (u_dest u) s (u_task u) = Ok (s', t') ∧
    counts_ok (s', fl1 ++ fl2) ∧ cpus_allowed t' = u_saved u.
Proof.
  intros Hok Hfl. destruct (dec_cocurrency_spec _ _ _ _ Hok Hfl) as (s' & E & Hok').
  pose proof (co_dest _ Hok) as Hdest. simpl in Hdest.
  rewrite Forall_app, Forall_cons in Hdest. destruct Hdest as (_ & Hd & _).
  unfold finish_update. rewrite decide_True.
  - rewrite E, bind_Ok. eexists _, _. split; [reflexivity|]. done.
  - assert (wrapu 32 (-1) = 2 ^ 32 - 1) as -> by reflexivity. lia.
Qed.

(** Every step keeps the invariant, while fewer than [2^64 - 1] updates are in flight. *)
Lemma upd_step_ok st st' :
  counts_ok st → Z.of_nat (length st.2) < 2 ^ 64 - 1 → upd_step st st' → counts_ok st'.
Proof.
  intros Hok Hfl Hstep.
  destruct Hstep as [s fl t s' t' saved dest Hm|s fl t s' t' saved dest Hm|s fl1 fl2 u s' t' Hf];
    cbn [fst snd] in *.
  - destruct (begin_update_spec s fl (1 ≪ task_cpu t) t Hok Hfl) as (s2 & E & Hs2).
    unfold migrate_on_update_1 in Hm. cbn [check_concurrency] in Hm. rewrite E, bind_Ok in Hm.
    simplify_eq. apply Hs2.
  - destruct (begin_update_spec s fl (cpu_set s) t Hok Hfl) as (s2 & E & Hs2).
    unfold bind_on_update_1 in Hm. rewrite E, bind_Ok in Hm. simplify_eq. apply Hs2.
  - destruct (end_update_spec s fl1 u fl2 Hok ltac:(lia)) as (s2 & t2 & E & Hs2 & _).
    rewrite Hf in E. by simplify_eq.
Qed.

(** Runs of the accounting, with a bound on the updates in flight. *)
Definition bounded_step (st st' : sb_counts * list upd) : Prop :=
  upd_step st st' ∧ Z.of_nat (length st.2) < 2 ^ 64 - 1.

Lemma run_counts_ok st st' : rtc bounded_step st st' → counts_ok st → counts_ok st'.
Proof. induction 1 as [|st st1 st' [Hstep Hb] _ IH]; [done|]. intros Hok. by apply IH, (upd_step_ok st). Qed.

Lemma counts_ok_init mask : counts_ok (SbCounts 0 (replicate NR_CPUS 0) mask, []).
Proof.
  constructor; cbn [fst snd nr_percpu nr_accessing_cpus].
  - apply length_replicate.
  - intros c n [-> _]%lookup_replicate_1. done.
  - generalize NR_CPUS as m. intros m. induction m as [|m IH]; [done|]. simpl. by rewrite <- IH.
  - done.
Qed.

End accounting.

(** * Properties *)

(** C19: [local_dispatch] always returns, though its loops have no bound of their own: below
    the span threshold it names a replica where the directory has no normal directory yet,
    and from the threshold on a replica where it has one. *)
Theorem local_dispatch_correct replica_count d last :
  1 ≤ replica_count ≤ 64 → normal_ok replica_count d → last_ok last →
  ∃ d' last' ret, local_dispatch replica_count d last = Ok (d', last', ret) ∧
    normal_ok replica_count d' ∧ last_ok last' ∧ 0 ≤ ret < replica_count ∧
    normal_dir_map d' = normal_dir_map d ∧
    Z.testbit (normal_dir_map d) ret =
      bool_decide (span_threshold replica_count ≤ normal_dir_count d).
Proof. intros Hrc Hd Hl. by apply local_dispatch_spec. Qed.

Definition example_dir : sfs_dentry := SfsDentry (replicate 4 None) None (-1) (-1) 3 0 2 0 6.

Lemma local_dispatch_correct_witness :
  ∃ d' last' ret, local_dispatch 4 example_dir 1024 = Ok (d', last', ret) ∧
    normal_ok 4 d' ∧ last_ok last' ∧ 0 ≤ ret < 4 ∧
    normal_dir_map d' = normal_dir_map example_dir ∧
    Z.testbit (normal_dir_map example_dir) ret =
      bool_decide (span_threshold 4 ≤ normal_dir_count example_dir).
Proof.
  apply local_dispatch_correct; [lia| |unfold last_ok, MAX; lia].
  constructor; [reflexivity|simpl; lia].
Defined.

(** Round robin is fair: as many calls of [select_normal_dir_rr] as the directory has
    normal directories return each of them exactly once, and leave the rotation as it was. *)
Theorem select_normal_dir_rr_fair replica_count d :
  1 ≤ replica_count ≤ 64 → normal_ok replica_count d →
  ∃ d' l, select_times replica_count (Z.to_nat (normal_dir_count d)) d = Ok (d', l) ∧
    l ≡ₚ bits replica_count (normal_dir_map d) ∧ NoDup l ∧
    rotation replica_count d' = rotation replica_count d.
Proof.
  intros Hrc Hd. pose proof (rotation_perm _ Hrc d Hd) as Hp.
  destruct (select_times_spec _ Hrc (rotation replica_count d) d []) as (d' & E & _ & Hr);
    [done|by rewrite app_nil_r|].
  replace (Z.to_nat (normal_dir_count d)) with (length (rotation replica_count d)).
  2:{ rewrite (no_count _ _ Hd), Nat2Z.id. by apply Permutation_length. }
  eexists _, _. split; [done|]. split; [done|]. split; [|done].
  rewrite Hp. apply NoDup_filter, NoDup_seqZ.
Qed.

Lemma select_normal_dir_rr_fair_witness :
  ∃ d' l, select_times 4 2 example_dir = Ok (d', l) ∧ l ≡ₚ bits 4 6 ∧ NoDup l ∧
    rotation 4 d' = rotation 4 example_dir.
Proof.
  apply (select_normal_dir_rr_fair 4 example_dir); [lia|].
  constructor; [reflexivity|simpl; lia].
Defined.

(** The updates SFS performs begin with [migrate_on_update] or [bind_on_update], which count
    nothing, and so end without an effect on the counters or on the thread. *)
Lemma updates_count_nothing place saved s t :
  finish_update place saved migrate_on_update s t = Ok (s, t) ∧
  finish_update place saved bind_on_update s t = Ok (s, t).
Proof. by unfold finish_update, migrate_on_update, bind_on_update; rewrite decide_False by (intros H; by apply H). Qed.

(** Were the unused variants [migrate_on_update_1] and [bind_on_update_1] called, then whatever
    the interleaving of beginning and ending updates, [nr_accessing_processes_percpu]
    holds the number of updates in flight on each CPU and [nr_accessing_cpus] the number of
    CPUs with at least one; every update in flight can be ended, and its thread then gets its
    own CPU mask back. *)
Theorem concurrency_accounting place NR_CPUS mask s fl :
  (∀ m c, 0 ≤ place m c < Z.of_nat NR_CPUS) → Z.of_nat NR_CPUS < 2 ^ 32 - 1 →
  rtc (bounded_step place) (SbCounts 0 (replicate NR_CPUS 0) mask, []) (s, fl) →
  (∀ c, (c < NR_CPUS)%nat → nr_percpu s !! c = Some (on_cpu c fl)) ∧
  nr_accessing_cpus s = sumZ (λ c, busy (on_cpu c fl)) (seq 0 NR_CPUS) ∧
  ∀ fl1 u fl2, fl = fl1 ++ u :: fl2 → Z.of_nat (length fl) < 2 ^ 64 →
    ∃ s' t', finish_update place (u_saved u) (u_dest u) s (u_task u) = Ok (s', t') ∧
      cpus_allowed t' = u_saved u.
Proof.
  intros Hpl Hn Hrun.
  pose proof (run_counts_ok _ _ Hpl Hn _ _ Hrun (counts_ok_init NR_CPUS mask)) as Hok.
  assert (∀ c, (c < NR_CPUS)%nat → nr_percpu s !! c = Some (on_cpu c fl)) as Hper.
  { intros c Hc. apply (percpu_on_cpu NR_CPUS (s, fl) c Hok Hc). }
  split; [done|]. split.
  - pose proof (co_cpus _ _ Hok) as Hcpus. cbn [fst] in Hcpus. rewrite Hcpus.
    assert (nr_percpu s = map (λ c, on_cpu c fl) (seq 0 NR_CPUS)) as ->.
    { apply list_eq. intros c. rewrite list_lookup_fmap. destruct (decide (c < NR_CPUS)%nat) as [Hc|Hc].
      - rewrite Hper, lookup_seq_lt by done. done.
      - pose proof (co_len _ _ Hok) as Hlen. simpl in Hlen.
        rewrite lookup_seq_ge by lia. apply lookup_ge_None_2. lia. }
    unfold sumZ. generalize (seq 0 NR_CPUS) as cs. intros cs. induction cs as [|c cs IH]; [done|].
    simpl in *. by rewrite IH.
  - intros fl1 u fl2 -> Hfl.
    destruct (end_update_spec place NR_CPUS Hn s fl1 u fl2 Hok Hfl) as (s' & t' & E & _ & Hm). eauto.
Qed.

Definition example_place (mask c : Z) : Z := if decide (0 ≤ c < 4) then c else 0.

Lemma concurrency_accounting_witness :
  nr_accessing_cpus (SbCounts 1 [0; 1; 0; 0] 0) = 1 ∧
  (∀ fl1 u fl2, [Upd (Task 2 1) 15 1] = fl1 ++ u :: fl2 →
    ∃ s' t', finish_update example_place (u_saved u) (u_dest u) (SbCounts 1 [0; 1; 0; 0] 0) (u_task u)
      = Ok (s', t') ∧ cpus_allowed t' = u_saved u).
Proof.
  destruct (concurrency_accounting example_place 4 0 (SbCounts 1 [0; 1; 0; 0] 0) [Upd (Task 2 1) 15 1])
    as (_ & _ & Hf).
  - intros m c. unfold example_place. case_decide; lia.
  - reflexivity.
  - apply rtc_once. split; [|simpl; lia]. apply upd_migrate with (Task 15 1). reflexivity.
  - split; [reflexivity|]. intros. apply (Hf fl1 u fl2); [done|]. reflexivity.
Defined.

Definition cpu_ratio (count : nat) : nat := Z.to_nat ((16 + Z.of_nat count - 1) / Z.of_nat count).

Lemma cpu_ratio_table count :
  (1 ≤ count ≤ 16)%nat →
  (16 ≤ cpu_ratio count * count)%nat ∧
  ((cpu_ratio count * count ≤ 16)%nat ↔ (Z.of_nat count | 16)).
Proof.
  intros Hc. assert (count ∈ seq 1 16) as Hin by (apply elem_of_seq; lia).
  rewrite <- Z.mod_divide by lia. clear Hc. revert count Hin.
  apply Forall_forall. apply (bool_decide_unpack _). vm_compute. done.
Qed.

Lemma free_slots_all n i m :
  (i + n ≤ length m)%nat → (∀ j x, m !! j = Some x → ∃ v, x = Slot v) → free_slots n i m = Ok n.
Proof.
  revert i. induction n as [|n IH]; intros i Hl Hall; [done|]. cbn [free_slots].
  destruct (lookup_lt_is_Some_2 m i) as [x Hx]; [lia|].
  destruct (Hall i x Hx) as [v ->]. rewrite Hx, IH by (lia || done). done.
Qed.

Lemma init_cpu2fs_mapping_ok n s :
  init_cpu2fs_mapping n (λ _, true) s = (Cpu2fs (Some (replicate n (Slot None))) (Z.of_nat n) 0, 0).
Proof. unfold init_cpu2fs_mapping. by rewrite alloc_slots_ok by (by rewrite length_replicate). Qed.

Lemma replicate_slots_all ratio (rs : list (Z * Z)) k j x :
  ((rs ≫= λ p, replicate ratio (Slot (Some p.1))) ++ replicate k (Slot None)) !! j = Some x →
  ∃ v, x = Slot v.
Proof.
  intros [Hx|Hx]%list_elem_of_lookup_2%elem_of_app.
  - apply list_elem_of_bind in Hx as (p & Hx & _). apply elem_of_replicate in Hx as [-> _]. eauto.
  - apply elem_of_replicate in Hx as [-> _]. eauto.
Qed.

Lemma length_bind_replicate ratio (rs : list (Z * Z)) :
  length (rs ≫= λ p, replicate ratio (Slot (Some p.1))) = (ratio * length rs)%nat.
Proof. induction rs as [|p rs IH]; cbn; [lia|]. rewrite length_app, length_replicate. cbn in IH. lia. Qed.

Lemma cpu_block_bit ratio k x j :
  0 ≤ j → Z.testbit (foldl Z.setbit x (cpu_block ratio k)) j =
    Z.testbit x j || bool_decide (Z.of_nat (k * ratio) ≤ j < Z.of_nat (S k * ratio)).
Proof.
  intros Hj. rewrite foldl_setbit; [|apply Forall_forall; intros i Hi%elem_of_seqZ; lia|done].
  f_equal. apply bool_decide_ext. unfold cpu_block. rewrite elem_of_seqZ. lia.
Qed.

(** With [n] CPUs online when SFS was loaded, [assign_cpus] gives the [k]-th replica the CPUs
    from [k * ratio] on and points the slots of those CPUs at it, provided [ratio * count <= n];
    otherwise it writes past [cpu2fs_mapping].  On 16 CPUs that is exactly when the number of
    replicas does not divide 16.  Unloading afterwards frees 16 slots, however many there are. *)
Theorem assign_cpus_correct NR_CPUS n rs s :
  (n ≤ NR_CPUS)%nat → (1 ≤ length rs ≤ 16)%nat →
  let ratio := cpu_ratio (length rs) in
  (init_cpu2fs_mapping n (λ _, true) s).2 = 0 ∧
  (let r := assign_cpus NR_CPUS rs (init_cpu2fs_mapping n (λ _, true) s).1 in
   if decide (ratio * length rs ≤ n)%nat then
     ∃ rs' s', r = Ok (rs', s', 0) ∧
       mapping s' = Some ((rs ≫= λ p, replicate ratio (Slot (Some p.1))) ++
                          replicate (n - ratio * length rs) (Slot None)) ∧
       rs'.*1 = rs.*1 ∧
       (∀ k p p' j, rs !! k = Some p → rs' !! k = Some p' → 0 ≤ j →
         Z.testbit p'.2 j = Z.testbit p.2 j || bool_decide (Z.of_nat (k * ratio) ≤ j < Z.of_nat (S k * ratio))) ∧
       destroy_cpu2fs_mapping s' = Ok 16%nat
   else r = Oops) ∧
  (n = 16%nat → (ratio * length rs ≤ n)%nat ↔ (Z.of_nat (length rs) | 16)).
Proof.
  intros Hn Hrs ratio. destruct (cpu_ratio_table (length rs) Hrs) as [H16 Hdiv].
  rewrite init_cpu2fs_mapping_ok. split; [done|]. split; [|by intros ->].
  unfold assign_cpus. cbn [fst nr_online_cpus mapping]. cbv zeta. unfold set, RecordSettersUsingExistingGetters.const. cbn [nr_online_cpus mapping last_dispatch].
  rewrite (decide_False (P := 16 < _)), (decide_False (P := Z.of_nat (length rs) = 0)) by lia.
  cbn [lift]. rewrite bind_Ok.
  change (Z.to_nat ((16 + Z.of_nat (length rs) - 1) / Z.of_nat (length rs))) with ratio.
  pose proof (assign_all_spec NR_CPUS ratio rs 0 [] n) as E. cbn [length app] in E. rewrite E by lia.
  destruct (decide (ratio * length rs ≤ n)%nat) as [Hle|Hgt]; [|done].
  rewrite bind_Ok. eexists _, _. split; [reflexivity|]. cbn [mapping]. split; [done|]. split_and!.
  - rewrite fmap_imap. apply list_eq. intros k. rewrite list_lookup_imap, list_lookup_fmap. by destruct (rs !! k).
  - intros k p p' j Hk Hk' Hj. rewrite list_lookup_imap, Hk in Hk'. simplify_eq/=. by apply cpu_block_bit.
  - unfold destroy_cpu2fs_mapping. cbn [mapping nr_online_cpus].
    apply free_slots_all; [|apply replicate_slots_all].
    rewrite length_app, length_bind_replicate. change (Z.to_nat 16) with 16%nat. lia.
Qed.

Lemma assign_cpus_correct_witness :
  assign_cpus 64 [(0, 0); (1, 0); (2, 0)]
    (init_cpu2fs_mapping 16 (λ _, true) (Cpu2fs None 0 0)).1 = Oops ∧
  (∃ rs' s', assign_cpus 64 [(0, 0); (1, 0)]
    (init_cpu2fs_mapping 16 (λ _, true) (Cpu2fs None 0 0)).1 = Ok (rs', s', 0) ∧
    destroy_cpu2fs_mapping s' = Ok 16%nat).
Proof.
  split.
  - exact (proj1 (proj2 (assign_cpus_correct 64 16 [(0, 0); (1, 0); (2, 0)] (Cpu2fs None 0 0)
      ltac:(lia) ltac:(simpl; lia)))).
  - destruct (proj1 (proj2 (assign_cpus_correct 64 16 [(0, 0); (1, 0)] (Cpu2fs None 0 0)
      ltac:(lia) ltac:(simpl; lia)))) as (rs' & s' & E & _ & _ & _ & Hd). eauto.
Defined.
