(* ===== verification/SfsKv.v ===== *)
(** * SFS: pointers between replicas, kept in extended attributes

    Models sfs16/kv.c: [reset], [modify], [put] and [get].  An attribute holds four replica
    identifiers as text, printed with [sprintf] and read back with [sscanf] ("%d:%d:%d:%d").
    The extended attributes of the underlying file systems are code of the kernel, used
    through the class [Xattr] and its laws [XattrOk]. *)
From S2P Require Import Prelude Interfaces.

(** ** [sprintf] and [sscanf] of the kernel, for the format in use

    A string is a list of character codes ended by 0. *)
Definition c_minus : Z := 45.
Definition c_colon : Z := 58.
Definition isdigit (c : Z) : bool := bool_decide (48 ≤ c ≤ 57).
Definition isspace (c : Z) : bool := bool_decide (9 ≤ c ≤ 13 ∨ c = 32).

Fixpoint digits (fuel : nat) (n : Z) : list Z :=
  match fuel with
  | O => []
  | S fuel => if decide (n < 10) then [48 + n] else digits fuel (n / 10) ++ [48 + n mod 10]
  end.

(** [%d]: an [int] has ten digits at most. *)
Definition print_d (n : Z) : list Z := if decide (n < 0) then c_minus :: digits 10 (- n) else digits 10 n.

Definition format4 (v : list Z) : list Z :=
  match v with
  | [a; b; c; d] => print_d a ++ c_colon :: print_d b ++ c_colon :: print_d c ++ c_colon :: print_d d
  | _ => []
  end.

(** [sprintf (buf, ...)]: writing past the buffer is an invalid access. *)
Definition sprintf4 (buf v : list Z) : res (list Z) :=
  if decide (length v = 4%nat) then
    let s := format4 v ++ [0] in
    if decide (length s ≤ length buf)%nat then Ok (s ++ drop (length s) buf) else Oops
  else Oops.

Fixpoint skip_spaces (s : list Z) : res (list Z) :=
  match s with
  | [] => Oops
  | c :: s' => if isspace c then skip_spaces s' else Ok s
  end.

Fixpoint scan_digits (s : list Z) (acc : Z) : res (Z * list Z) :=
  match s with
  | [] => Oops
  | c :: s' => if isdigit c then scan_digits s' (acc * 10 + (c - 48)) else Ok (acc, s)
  end.

(** [%d]: [None] when the input does not start with a number. *)
Definition scan_d (s : list Z) : res (option (Z * list Z)) :=
  s ← skip_spaces s;
  match s with
  | [] => Oops
  | c :: s' =>
      if decide (c = c_minus) then
        d ← lift (head s');
        if isdigit d then '(n, s) ← scan_digits s' 0; Ok (Some (wraps 32 (- n), s)) else Ok None
      else if isdigit c then '(n, s) ← scan_digits s 0; Ok (Some (wraps 32 n, s)) else Ok None
  end.

(** [n] conversions, separated by [':'], into [value], from index [i] on. *)
Fixpoint sscanf_from (n i : nat) (s value : list Z) : res (list Z) :=
  match n with
  | O => Ok value
  | S n =>
      c ← lift (head s);
      if decide (c = 0) then Ok value else
      r ← scan_d s;
      match r with
      | None => Ok value
      | Some (x, s) =>
          if decide (i < length value)%nat then
            let value := <[i := x]> value in
            match n with
            | O => Ok value
            | S _ =>
                c ← lift (head s);
                if decide (c = c_colon) then sscanf_from n (S i) (drop 1 s) value else Ok value
            end
          else Oops
      end
  end.

Definition sscanf4 (s value : list Z) : res (list Z) := sscanf_from 4 0 s value.

(** ** Extended attributes of the underlying file systems *)
Class Xattr (X K : Type) := {
  (** [vfs_setxattr (dentry, key, value, size, 0)]; [K]: dentry and key *)
  vfs_setxattr : X → K → list Z → X * Z;
  (** [vfs_getxattr (dentry, key, buf, size)] and [generic_getxattr]: the length, or an error,
      and the bytes stored *)
  vfs_getxattr : X → K → Z → Z * list Z;
  generic_getxattr : X → K → Z → Z * list Z;
}.

(** Documented behaviour: what was stored is read back when the buffer is large enough. *)
Class XattrOk (X K : Type) `{Xattr X K} := {
  getxattr_set x key v x' size :
    vfs_setxattr x key v = (x', 0) → Z.of_nat (length v) ≤ size →
    vfs_getxattr x' key size = (Z.of_nat (length v), v);
  generic_getxattr_set x key v x' size :
    vfs_setxattr x key v = (x', 0) → Z.of_nat (length v) ≤ size →
    generic_getxattr x' key size = (Z.of_nat (length v), v);
}.

Section kv.
Context {X K : Type} `{!Xattr X K}.

(** The content of an uninitialised buffer of [n] bytes on the stack. *)
Variable stack : nat → list Z.

(** What a read leaves in the buffer. *)
Definition fill (buf data : list Z) : list Z := data ++ drop (length data) buf.

Definition reset (x : X) (key : K) : res (X * Z) :=
  let pointer := [-1; -1; -1; -1] in
  buf ← sprintf4 (stack 20) pointer;
  Ok (vfs_setxattr x key buf).

Definition modify (x : X) (key : K) (value sequence : Z) : res (X * Z) :=
  let buf := stack 20 in
  let pointer := [-1; -1; -1; -1] in
  let '(ret, data) := generic_getxattr x key (Z.of_nat (length buf)) in
  let buf := if decide (0 < ret) then fill buf data else buf in
  pointer ← (if decide (0 < ret) then sscanf4 buf pointer else Ok pointer);
  if decide (0 ≤ sequence < 4) then
    let pointer := <[Z.to_nat sequence := value]> pointer in
    buf ← sprintf4 buf pointer;
    Ok (vfs_setxattr x key buf)
  else Oops.

Definition put (x : X) (key : K) (value : list Z) : res (X * Z) :=
  buf ← sprintf4 (stack 15) value;
  Ok (vfs_setxattr x key buf).

(** The new content of [value] and what [vfs_getxattr] returned. *)
Definition get (x : X) (key : K) (value : list Z) : res (list Z * Z) :=
  let '(ret, data) := vfs_getxattr x key 20 in
  value ← (if decide (0 < ret) then sscanf4 (fill (stack 20) data) value else Ok value);
  Ok (value, ret).
End kv.

(** ** Printing and scanning *)
Definition value_of (ds : list Z) (acc : Z) : Z := foldl (λ a c, a * 10 + (c - 48)) acc ds.

Lemma digits_ok fuel n :
  (0 < fuel)%nat → 0 ≤ n < 10 ^ Z.of_nat fuel →
  Forall (λ c, isdigit c = true) (digits fuel n) ∧ value_of (digits fuel n) 0 = n ∧ digits fuel n ≠ [].
Proof.
  revert n. induction fuel as [|fuel IH]; intros n Hf Hn; [lia|]. cbn [digits].
  destruct (decide (n < 10)) as [Hlt|Hge].
  { split_and!; [|cbn; lia|done]. repeat constructor. apply bool_decide_eq_true. lia. }
  assert (0 ≤ n / 10 < 10 ^ Z.of_nat fuel) as Hdiv.
  { rewrite Nat2Z.inj_succ, Z.pow_succ_r in Hn by lia.
    split; [apply Z.div_pos; lia|apply Z.div_lt_upper_bound; lia]. }
  assert (0 < fuel)%nat as Hf'.
  { destruct fuel; [simpl in Hn; lia|lia]. }
  destruct (IH (n / 10) Hf' Hdiv) as (Hall & Hval & Hne).
  pose proof (Z.mod_pos_bound n 10 ltac:(lia)) as Hm. split_and!.
  - apply Forall_app. split; [done|]. repeat constructor. apply bool_decide_eq_true. lia.
  - unfold value_of in *. rewrite foldl_app, Hval. cbn [foldl].
    pose proof (Z.div_mod n 10 ltac:(lia)). lia.
  - by destruct (digits fuel (n / 10)).
Qed.

Lemma scan_digits_app ds c rest acc :
  Forall (λ c, isdigit c = true) ds → isdigit c = false →
  scan_digits (ds ++ c :: rest) acc = Ok (value_of ds acc, c :: rest).
Proof.
  intros Hds Hc. revert acc. induction Hds as [|d ds Hd Hds IH]; intros acc; simpl.
  - by rewrite Hc.
  - by rewrite Hd, IH.
Qed.

Lemma isdigit_class c : isdigit c = true → isspace c = false ∧ c ≠ c_minus ∧ c ≠ 0.
Proof.
  intros Hc%bool_decide_eq_true. split; [apply bool_decide_eq_false; lia|unfold c_minus; lia].
Qed.

(** Reading back what [%d] printed. *)
Lemma scan_print_d n c rest :
  - 2 ^ 31 ≤ n < 2 ^ 31 → isdigit c = false → scan_d (print_d n ++ c :: rest) = Ok (Some (n, c :: rest)).
Proof.
  intros Hn Hc. unfold print_d, scan_d. destruct (decide (n < 0)) as [Hneg|Hpos].
  - destruct (digits_ok 10 (- n)) as (Hall & Hval & Hne); [lia|simpl; lia|].
    destruct (digits 10 (- n)) as [|d ds] eqn:E; [done|]. cbn [app skip_spaces].
    assert (isspace c_minus = false) as -> by reflexivity. rewrite bind_Ok.
    rewrite decide_True by done. cbn [head lift]. rewrite bind_Ok.
    pose proof (Forall_inv Hall) as Hd. simpl in Hd. rewrite Hd.
    change (d :: ds ++ c :: rest) with ((d :: ds) ++ c :: rest).
    rewrite scan_digits_app, bind_Ok, Hval, wraps_small by (done || lia). do 3 f_equal. lia.
  - destruct (digits_ok 10 n) as (Hall & Hval & Hne); [lia|simpl; lia|].
    destruct (digits 10 n) as [|d ds] eqn:E; [done|]. cbn [app skip_spaces].
    pose proof (Forall_inv Hall) as Hd. simpl in Hd. destruct (isdigit_class d Hd) as (-> & Hm & _).
    rewrite bind_Ok, decide_False by done. rewrite Hd.
    change (d :: ds ++ c :: rest) with ((d :: ds) ++ c :: rest).
    rewrite scan_digits_app, bind_Ok, Hval, wraps_small by (done || lia). done.
Qed.

(** Four printed numbers, then the end of the string. *)
Definition ids_ok (v : list Z) : Prop := length v = 4%nat ∧ Forall (λ n, - 2 ^ 31 ≤ n < 2 ^ 31) v.

Lemma print_d_head n s :
  - 2 ^ 31 ≤ n < 2 ^ 31 → ∃ c s', print_d n ++ s = c :: s' ∧ c ≠ 0.
Proof.
  intros Hn. unfold print_d. destruct (decide (n < 0)); [by eexists _, _|].
  destruct (digits_ok 10 n) as (Hall & _ & Hne); [lia|simpl; lia|].
  destruct (digits 10 n) as [|d ds]; [done|]. exists d, (ds ++ s). split; [done|].
  pose proof (Forall_inv Hall) as Hd. by apply isdigit_class in Hd as (_ & _ & ?).
Qed.

Lemma sscanf_step n i v c rest value :
  - 2 ^ 31 ≤ v < 2 ^ 31 → isdigit c = false → (i < length value)%nat →
  sscanf_from (S n) i (print_d v ++ c :: rest) value =
  match n with
  | O => Ok (<[i := v]> value)
  | S _ => if decide (c = c_colon) then sscanf_from n (S i) rest (<[i := v]> value)
           else Ok (<[i := v]> value)
  end.
Proof.
  intros Hv Hc Hi. destruct (print_d_head v (c :: rest) Hv) as (h & s' & E & Hh).
  cbn [sscanf_from]. rewrite E at 1. cbn [head lift]. rewrite bind_Ok, decide_False by done.
  rewrite scan_print_d, bind_Ok by done. rewrite decide_True by done. by destruct n.
Qed.

Lemma sscanf_format v rest value :
  ids_ok v → length value = 4%nat → sscanf4 (format4 v ++ 0 :: rest) value = Ok v.
Proof.
  intros [Hl Hv] Hval. destruct v as [|a [|b [|c [|d [|]]]]]; try done.
  destruct value as [|x0 [|x1 [|x2 [|x3 [|]]]]]; try done.
  rewrite !Forall_cons in Hv. destruct Hv as (Ha & Hb & Hc & Hd & _).
  unfold sscanf4, format4. repeat (rewrite <- app_assoc; cbn [app]).
  rewrite sscanf_step by (done || simpl; lia). rewrite decide_True by done.
  rewrite sscanf_step by (done || simpl; lia). rewrite decide_True by done.
  rewrite sscanf_step by (done || simpl; lia). rewrite decide_True by done.
  by rewrite sscanf_step by (done || simpl; lia).
Qed.

Lemma sprintf4_fits buf v :
  length v = 4%nat → (length (format4 v) < length buf)%nat →
  sprintf4 buf v = Ok (format4 v ++ 0 :: drop (S (length (format4 v))) buf).
Proof.
  intros Hv Hl. unfold sprintf4. rewrite decide_True by done.
  rewrite length_app. cbn [length]. rewrite decide_True by lia.
  rewrite <- app_assoc, Nat.add_1_r. done.
Qed.

Lemma sprintf4_length buf v s :
  sprintf4 buf v = Ok s → length s = length buf.
Proof.
  unfold sprintf4. intros H. do 2 (case_decide; [|done]). simplify_eq.
  rewrite length_app, length_drop. lia.
Qed.

Lemma sprintf4_fill buf v b buf' :
  sprintf4 buf v = Ok b → ∃ rest, fill buf' b = format4 v ++ 0 :: rest.
Proof.
  unfold sprintf4, fill. intros H. do 2 (case_decide; [|done]). simplify_eq.
  eexists. by rewrite <- !app_assoc.
Qed.

(** *** Length of the text *)
Lemma digits_length fuel n k :
  (k ≤ fuel)%nat → (0 < k)%nat → 0 ≤ n < 10 ^ Z.of_nat k → (length (digits fuel n) ≤ k)%nat.
Proof.
  revert n k. induction fuel as [|fuel IH]; intros n k Hk Hk0 Hn; [lia|]. cbn [digits].
  destruct (decide (n < 10)); [simpl; lia|]. rewrite length_app. simpl.
  destruct k as [|k]; [lia|].
  assert (0 < k)%nat by (destruct k; [simpl in Hn; lia|lia]).
  assert (length (digits fuel (n / 10)) ≤ k)%nat; [|lia].
  apply IH; [lia|done|]. rewrite Nat2Z.inj_succ, Z.pow_succ_r in Hn by lia.
  split; [apply Z.div_pos; lia|apply Z.div_lt_upper_bound; lia].
Qed.

Lemma print_d_length n : -10 < n < 100 → (length (print_d n) ≤ 2)%nat.
Proof.
  intros Hn. unfold print_d. case_decide.
  - assert (length (digits 10 (- n)) ≤ 1)%nat as Hd.
    { apply digits_length; [lia..|]. change (10 ^ Z.of_nat 1) with 10. lia. }
    cbn [length]. lia.
  - apply digits_length; [lia..|]. change (10 ^ Z.of_nat 2) with 100. lia.
Qed.

(** Identifiers of replicas: [-1] (none) or below 64. *)
Definition replica_ids (v : list Z) : Prop := length v = 4%nat ∧ Forall (λ n, -1 ≤ n < 64) v.

Lemma replica_ids_ok v : replica_ids v → ids_ok v ∧ (length (format4 v) ≤ 11)%nat.
Proof.
  intros [Hl Hv]. split; [split; [done|]; eapply Forall_impl; [done|]; simpl; lia|].
  destruct v as [|a [|b [|c [|d [|]]]]]; try done. rewrite !Forall_cons in Hv.
  destruct Hv as (Ha & Hb & Hc & Hd & _). unfold format4.
  rewrite !length_app. cbn [length]. rewrite !length_app. cbn [length]. rewrite !length_app. cbn [length].
  pose proof (print_d_length a ltac:(lia)). pose proof (print_d_length b ltac:(lia)).
  pose proof (print_d_length c ltac:(lia)). pose proof (print_d_length d ltac:(lia)). lia.
Qed.

Section laws.
Context {X K : Type} `{!Xattr X K, !XattrOk X K}.
Variable stack : nat → list Z.
Hypothesis stack_length : ∀ n, length (stack n) = n.

(** Text written by [sprintf] into a buffer of at most 20 bytes and stored without an error is
    what the next [get] reads. *)
Lemma get_stored x key buf v b x' value :
  ids_ok v → length value = 4%nat → (length buf ≤ 20)%nat → (0 < length buf)%nat →
  sprintf4 buf v = Ok b → vfs_setxattr x key b = (x', 0) →
  get stack x' key value = Ok (v, Z.of_nat (length buf)).
Proof.
  intros Hv Hval Hlen Hpos Hb Hset. pose proof (sprintf4_length _ _ _ Hb) as Hbl.
  unfold get. rewrite (getxattr_set x key b x' 20 Hset) by lia.
  rewrite decide_True by lia. destruct (sprintf4_fill buf v b (stack 20) Hb) as [rest ->].
  rewrite sscanf_format, bind_Ok by done. by rewrite Hbl.
Qed.

(** [modify] reads the four pointers back, or starts from four times [-1]. *)
Lemma modify_stored x key buf v b x' value sequence :
  ids_ok v → (length buf ≤ 20)%nat → (0 < length buf)%nat →
  sprintf4 buf v = Ok b → vfs_setxattr x key b = (x', 0) → 0 ≤ sequence < 4 →
  ∃ buf', length buf' = 20%nat ∧
    modify stack x' key value sequence =
    (b' ← sprintf4 buf' (<[Z.to_nat sequence := value]> v); Ok (vfs_setxattr x' key b')).
Proof.
  intros Hv Hlen Hpos Hb Hset Hs. pose proof (sprintf4_length _ _ _ Hb) as Hbl.
  unfold modify. rewrite stack_length, (generic_getxattr_set x key b x' _ Hset) by lia.
  rewrite (decide_True (P := 0 < _)) by lia. rewrite (decide_True (P := 0 < _)) by lia. exists (fill (stack 20) b). split.
  { unfold fill. rewrite length_app, length_drop, stack_length. lia. }
  destruct (sprintf4_fill buf v b (stack 20) Hb) as [rest E]. rewrite E.
  rewrite sscanf_format, bind_Ok by done. by rewrite decide_True.
Qed.
End laws.

(** A store that satisfies the laws. *)
Abbreviation map_store := (gmap Z (list Z)).

#[export] Instance map_xattr : Xattr map_store Z := {|
  vfs_setxattr x key v := (<[key := v]> x, 0);
  vfs_getxattr x key size := match x !! key with Some v => (Z.of_nat (length v), v) | None => (-61, []) end;
  generic_getxattr x key size := match x !! key with Some v => (Z.of_nat (length v), v) | None => (-61, []) end;
|}.

#[export] Instance map_xattr_ok : XattrOk map_store Z.
Proof.
  constructor; intros x key v x' size Hset _;
    unfold vfs_setxattr, vfs_getxattr, generic_getxattr, map_xattr in *;
    injection Hset as <-; by rewrite lookup_insert_eq.
Qed.

(** * Properties *)

(** C21: Pointers round-trip through an extended attribute.  What [put] stores is what [get]
    reads; a [modify] in between changes exactly the pointer it names; and [reset] leaves four
    times [-1].  The bytes the code leaves unset on its stack never matter. *)
Theorem kv_roundtrip {X K} `{XattrOk X K} (stack : nat → list Z) x key v value x1 :
  (∀ n, length (stack n) = n) → replica_ids v → length value = 4%nat →
  put stack x key v = Ok (x1, 0) →
  get stack x1 key value = Ok (v, 15) ∧
  (∀ sequence id x2, 0 ≤ sequence < 4 → -1 ≤ id < 64 →
    modify stack x1 key id sequence = Ok (x2, 0) →
    get stack x2 key value = Ok (<[Z.to_nat sequence := id]> v, 20)) ∧
  (∀ x2, reset stack x1 key = Ok (x2, 0) → get stack x2 key value = Ok ([-1; -1; -1; -1], 20)).
Proof.
  intros Hst Hv Hval Hput. destruct (replica_ids_ok v Hv) as [Hids Hlen].
  unfold put in Hput. apply res_bind_Ok in Hput as (b & Hb & Hset). injection Hset as Hset.
  split_and!.
  - rewrite (get_stored stack x key (stack 15%nat) v b x1 value) by (rewrite ?Hst; done || lia).
    by rewrite Hst.
  - intros sequence id x2 Hs Hid Hmod.
    destruct (modify_stored stack Hst x key (stack 15%nat) v b x1 id sequence) as (buf' & Hb' & E);
      try (rewrite ?Hst; done || lia).
    rewrite E in Hmod. apply res_bind_Ok in Hmod as (b2 & Hb2 & Hset2). injection Hset2 as Hset2.
    assert (replica_ids (<[Z.to_nat sequence:=id]> v)) as Hv2.
    { destruct Hv as [Hl Hall]. split; [by rewrite length_insert|]. by apply Forall_insert. }
    rewrite (get_stored stack x1 key buf' (<[Z.to_nat sequence:=id]> v) b2 x2 value)
      by first [by apply replica_ids_ok | rewrite ?Hb'; done || lia].
    by rewrite Hb'.
  - intros x2 Hres. unfold reset in Hres. apply res_bind_Ok in Hres as (b2 & Hb2 & Hset2).
    injection Hset2 as Hset2.
    rewrite (get_stored stack x1 key (stack 20%nat) [-1; -1; -1; -1] b2 x2 value)
      by first [by split; [|repeat constructor] | rewrite ?Hst; done || lia].
    by rewrite Hst.
Qed.

Definition zero_stack (n : nat) : list Z := replicate n 0.

Lemma kv_roundtrip_witness :
  ∃ x1, put (X := map_store) zero_stack ∅ 7 [3; -1; 12; 0] = Ok (x1, 0) ∧
    get zero_stack x1 7 [9; 9; 9; 9] = Ok ([3; -1; 12; 0], 15) ∧
    (∀ x2, modify zero_stack x1 7 63 1 = Ok (x2, 0) →
      get zero_stack x2 7 [9; 9; 9; 9] = Ok ([3; 63; 12; 0], 20)).
Proof.
  eexists. split; [reflexivity|].
  destruct (kv_roundtrip (X := map_store) zero_stack ∅ 7 [3; -1; 12; 0] [9; 9; 9; 9]
    (<[7 := [51; 58; 45; 49; 58; 49; 50; 58; 48; 0; 0; 0; 0; 0; 0]]> ∅)) as (H1 & H2 & _).
  - intros n. apply length_replicate.
  - split; [reflexivity|]. repeat constructor; lia.
  - reflexivity.
  - reflexivity.
  - split; [done|]. intros x2 Hm. apply (H2 1 63 x2); [lia|lia|done].
Defined.

(** [put] has a buffer of 15 bytes while the other operations have 20: it writes past its
    stack buffer exactly when the text takes 15 characters or more, which identifiers below
    100 never do and four identifiers of three digits do. *)
Theorem put_overflow_iff {X K} `{Xattr X K} (stack : nat → list Z) x key v :
  (∀ n, length (stack n) = n) → length v = 4%nat →
  (put stack x key v = Oops ↔ (15 ≤ length (format4 v))%nat) ∧
  (Forall (λ n, -10 < n < 100) v → put stack x key v ≠ Oops) ∧
  (Forall (λ n, 100 ≤ n < 1000) v → put stack x key v = Oops).
Proof.
  intros Hst Hl.
  assert (put stack x key v = Oops ↔ (15 ≤ length (format4 v))%nat) as Hiff.
  { unfold put, sprintf4. rewrite decide_True by done. rewrite Hst, length_app. cbn [length].
    case_decide; cbn; split; intros; (done || lia). }
  split; [done|]. rewrite Hiff.
  destruct v as [|a [|b [|c [|d [|]]]]]; try done. unfold format4.
  rewrite !length_app. cbn [length]. rewrite !length_app. cbn [length]. rewrite !length_app. cbn [length].
  split; intros Hall; rewrite !Forall_cons in Hall; destruct Hall as (Ha & Hb & Hc & Hd & _).
  - pose proof (print_d_length a Ha). pose proof (print_d_length b Hb).
    pose proof (print_d_length c Hc). pose proof (print_d_length d Hd). lia.
  - assert (∀ n, 100 ≤ n < 1000 → length (print_d n) = 3%nat) as H3.
    { intros n Hn. unfold print_d. rewrite decide_False by lia. cbn [digits].
      rewrite (decide_False (P := n < 10)) by lia.
      rewrite (decide_False (P := n / 10 < 10)) by (apply Z.le_ngt, Z.div_le_lower_bound; lia).
      rewrite (decide_True (P := n / 10 / 10 < 10)); [done|].
      rewrite Z.div_div by lia. apply Z.div_lt_upper_bound; lia. }
    rewrite !H3 by done. lia.
Qed.

Lemma put_overflow_iff_witness :
  put (X := map_store) zero_stack ∅ 7 [100; 101; 102; 103] = Oops ∧
  put (X := map_store) zero_stack ∅ 7 [-1; 63; 0; 5] ≠ Oops.
Proof.
  split.
  - apply put_overflow_iff; [intros n; apply length_replicate|reflexivity|repeat constructor; lia].
  - apply put_overflow_iff; [intros n; apply length_replicate|reflexivity|repeat constructor; lia].
Defined.
