(* ===== verification/SfsDentry.v ===== *)
(** * SFS: the private data of a dentry

    Models sfs16/dentry.c ([clean_sfs_dentry], [clean_dentry], [sfs_dentry_real_alloc],
    [get_sfs_dentry], [sfs_dentry_alloc], [sfs_dentry_delete], [sfs_dentry_release]) and the
    accessors of sfs16/sfs_fs.h.  An SFS dentry holds one reference to a dentry of each
    underlying file system where the object exists; what happens to those references and to
    the memory of the private data is recorded as a trace of events. *)
From S2P Require Import Prelude Interfaces SfsDispatch.

(** [EvDrop] and [EvDput] name a dentry of an underlying file system. *)
Inductive dent_event :=
  | EvDrop (d : Z)
  | EvDput (d : Z)
  | EvFreeReplicas
  | EvFreeDentry.

#[export] Instance dent_event_eq_dec : EqDecision dent_event.
Proof. solve_decision. Defined.

(** ** Accessors *)
Definition set_replica_id (id : Z) (d : sfs_dentry) : sfs_dentry := d <| replica_id := id |>.
Definition set_meta_id (id : Z) (d : sfs_dentry) : sfs_dentry := d <| meta_id := id |>.
Definition get_replica_id (d : sfs_dentry) : Z := replica_id d.
Definition get_meta_id (d : sfs_dentry) : Z := meta_id d.

(** [replicas[i]]: outside the array, an invalid access.  A [replicas] pointer that is NULL is
    an array without elements. *)
Definition find_replica_dentry (d : sfs_dentry) (i : Z) : res (option Z) :=
  if decide (0 ≤ i) then lift (replicas d !! Z.to_nat i) else Oops.

Definition list_first_replica_dentry (d : sfs_dentry) : res (option Z) :=
  find_replica_dentry d (replica_id d).

Section dentry.
(** [get_replica_count ()] *)
Variable replica_count : nat.

(** The first assignments of [sfs_dentry_real_alloc], which [clean_sfs_dentry] repeats.
    [first_normal_dir_id] is in neither. *)
Definition init_fields (d : sfs_dentry) : sfs_dentry :=
  d <| unused_replica_dentry := None |> <| local_counter := 0 |> <| global_counter := 0 |>
    <| normal_dir_count := 0 |> <| replica_id := -1 |> <| meta_id := -1 |>.

Definition clean_sfs_dentry (d : sfs_dentry) : res sfs_dentry :=
  let d := init_fields d <| normal_dir_map := 0 |> in
  if decide (replica_count ≤ length (replicas d))%nat then
    Ok (d <| replicas ::= λ l, replicate replica_count None ++ drop replica_count l |>)
  else Oops.

(** [for (loop = 0; loop < replica_count; loop++) if (replica) dput (replica)] *)
Fixpoint put_replicas (n : nat) (loop : Z) (d : sfs_dentry) : res (list dent_event) :=
  match n with
  | O => Ok []
  | S n =>
      r ← find_replica_dentry d loop;
      evs ← put_replicas n (loop + 1) d;
      Ok (match r with Some x => EvDput x :: evs | None => evs end)
  end.

Definition put_unused (d : sfs_dentry) : list dent_event :=
  match unused_replica_dentry d with Some x => [EvDput x] | None => [] end.

(** [d_fsdata]: the private data of the dentry, if any. *)
Definition clean_dentry (d_fsdata : option sfs_dentry) : res (option sfs_dentry * list dent_event) :=
  match d_fsdata with
  | None => Ok (None, [])
  | Some d =>
      evs ← put_replicas replica_count 0 d;
      d' ← clean_sfs_dentry d;
      Ok (Some d', evs ++ put_unused d)
  end.

(** The memory comes from a slab whose object holds [slab]; [kmem_ok] and [kzalloc_ok] say
    whether the two allocations succeed.  The new [d_fsdata] and the value returned. *)
Definition sfs_dentry_real_alloc (slab : sfs_dentry) (kmem_ok kzalloc_ok : bool)
    (d_fsdata : option sfs_dentry) : option sfs_dentry * (Z + sfs_dentry) :=
  if kmem_ok then
    let d := init_fields slab in
    if kzalloc_ok then
      let d := d <| replicas := replicate replica_count None |> <| normal_dir_map := 0 |> in
      (Some d, inr d)
    else (Some (d <| replicas := [] |>), inl (- ENOMEM))
  else (d_fsdata, inl (- ENOMEM)).

Definition get_sfs_dentry := sfs_dentry_real_alloc.
Definition sfs_dentry_alloc := get_sfs_dentry.

(** [sfs_dentry_delete] drops every replica, present or not. *)
Fixpoint delete_replicas (n : nat) (loop : Z) (d : sfs_dentry) : res (list dent_event) :=
  match n with
  | O => Ok []
  | S n =>
      r ← find_replica_dentry d loop;
      x ← lift r;
      evs ← delete_replicas n (loop + 1) d;
      Ok (EvDrop x :: EvDput x :: evs)
  end.

Definition sfs_dentry_delete (d_fsdata : option sfs_dentry) : res (list dent_event * Z) :=
  match d_fsdata with
  | None => Ok ([], 0)
  | Some d =>
      evs ← delete_replicas replica_count 0 d;
      Ok (evs ++ put_unused d ++ [EvFreeReplicas; EvFreeDentry], 0)
  end.

(** [sfs_dentry_release] tests each replica. *)
Fixpoint release_replicas (n : nat) (loop : Z) (d : sfs_dentry) : res (list dent_event) :=
  match n with
  | O => Ok []
  | S n =>
      r ← find_replica_dentry d loop;
      evs ← release_replicas n (loop + 1) d;
      Ok (match r with Some x => EvDrop x :: EvDput x :: evs | None => evs end)
  end.

Definition sfs_dentry_release (d_fsdata : option sfs_dentry) : res (list dent_event) :=
  match d_fsdata with
  | None => Ok []
  | Some d =>
      evs ← release_replicas replica_count 0 d;
      Ok (evs ++ put_unused d ++ [EvFreeReplicas; EvFreeDentry])
  end.

(** ** References held *)

(** The references the private data owns. *)
Definition held (d : sfs_dentry) : list Z :=
  omap id (replicas d) ++ match unused_replica_dentry d with Some x => [x] | None => [] end.

Definition puts (evs : list dent_event) : list Z :=
  omap (λ e, match e with EvDput x => Some x | _ => None end) evs.

(** Both loops visit the replicas in order. *)
Lemma replica_loop_spec (body : Z → list dent_event)
    (loopf : nat → Z → sfs_dentry → res (list dent_event)) d :
  (∀ i, loopf O i d = Ok []) →
  (∀ n i, loopf (S n) i d = r ← find_replica_dentry d i; evs ← loopf n (i + 1) d;
    Ok (match r with Some x => body x ++ evs | None => evs end)) →
  ∀ n i, (i + n ≤ length (replicas d))%nat →
  loopf n (Z.of_nat i) d = Ok (omap id (take n (drop i (replicas d))) ≫= body).
Proof.
  intros H0 HS n. induction n as [|n IH]; intros i Hi; [by rewrite H0|].
  destruct (lookup_lt_is_Some_2 (replicas d) i) as [r Hr]; [lia|].
  rewrite HS. unfold find_replica_dentry. rewrite decide_True by lia.
  rewrite Nat2Z.id, Hr. cbn [lift]. rewrite bind_Ok.
  replace (Z.of_nat i + 1) with (Z.of_nat (S i)) by lia. rewrite IH, bind_Ok by lia.
  rewrite (drop_S _ _ _ Hr). by destruct r.
Qed.

Lemma put_replicas_spec d :
  length (replicas d) = replica_count →
  put_replicas replica_count 0 d = Ok (omap id (replicas d) ≫= λ x, [EvDput x]).
Proof.
  intros Hl. rewrite (replica_loop_spec (λ x, [EvDput x]) put_replicas d) with (i := 0%nat);
    [|done|done|lia].
  by rewrite drop_0, take_ge by lia.
Qed.

Lemma release_replicas_spec d :
  length (replicas d) = replica_count →
  release_replicas replica_count 0 d = Ok (omap id (replicas d) ≫= λ x, [EvDrop x; EvDput x]).
Proof.
  intros Hl. rewrite (replica_loop_spec (λ x, [EvDrop x; EvDput x]) release_replicas d) with (i := 0%nat);
    [|done|done|lia].
  by rewrite drop_0, take_ge by lia.
Qed.

(** What cleaning and allocating leave. *)
Definition blank (first : Z) : sfs_dentry :=
  SfsDentry (replicate replica_count None) None (-1) (-1) 0 0 0 first 0.

Lemma clean_sfs_dentry_spec d :
  length (replicas d) = replica_count → clean_sfs_dentry d = Ok (blank (first_normal_dir_id d)).
Proof.
  destruct d as [rs u r m lc gc c f map]. cbn [replicas]. intros Hl. unfold clean_sfs_dentry.
  cbn. rewrite decide_True by lia.
  transitivity (Ok (SfsDentry (replicate replica_count None ++ drop replica_count rs) None (-1) (-1) 0 0 0 f 0));
    [done|].
  rewrite drop_ge by lia. by rewrite app_nil_r.
Qed.

Lemma sfs_dentry_alloc_spec slab other :
  sfs_dentry_alloc slab true true other =
    (Some (blank (first_normal_dir_id slab)), inr (blank (first_normal_dir_id slab))).
Proof. by destruct slab. Qed.

Lemma puts_app evs1 evs2 : puts (evs1 ++ evs2) = puts evs1 ++ puts evs2.
Proof. apply omap_app. Qed.

Lemma puts_flat (body : Z → list dent_event) l :
  (∀ x, puts (body x) = [x]) → puts (l ≫= body) = l.
Proof.
  intros Hb. induction l as [|x l IH]; [done|]. cbn [mbind list_bind] in *.
  by rewrite puts_app, Hb, IH.
Qed.

Lemma puts_unused d :
  puts (put_unused d) = match unused_replica_dentry d with Some x => [x] | None => [] end.
Proof. unfold put_unused. by destruct (unused_replica_dentry d). Qed.

End dentry.

(** * Properties *)

(** C22: references to the dentries of the underlying file systems are balanced.  Private data
    with an array of the right size gives back each reference it holds exactly once, whether
    it is cleaned or released; releasing drops each of them from the cache just before and
    frees the array and the data.  Cleaned data and freshly allocated data, whatever the slab
    object held, agree in every field but [first_normal_dir_id], which neither sets: cleaning
    leaves the old value, allocation that of the slab object. *)
Theorem dentry_references_balanced (replica_count : nat) (d : sfs_dentry) :
  length (replicas d) = replica_count →
  (∃ d' evs, clean_dentry replica_count (Some d) = Ok (Some d', evs) ∧ puts evs = held d ∧
    first_normal_dir_id d' = first_normal_dir_id d ∧
    ∀ slab other, let fresh := d' <| first_normal_dir_id := first_normal_dir_id slab |> in
      sfs_dentry_alloc replica_count slab true true other = (Some fresh, inr fresh)) ∧
  (∃ evs, sfs_dentry_release replica_count (Some d) = Ok (evs ++ [EvFreeReplicas; EvFreeDentry]) ∧
    puts evs = held d ∧
    evs = (omap id (replicas d) ≫= λ x, [EvDrop x; EvDput x]) ++ put_unused d).
Proof.
  intros Hl. split.
  - unfold clean_dentry. rewrite put_replicas_spec, bind_Ok by done.
    rewrite clean_sfs_dentry_spec, bind_Ok by done.
    eexists _, _. split; [reflexivity|]. split.
    + rewrite puts_app, puts_flat, puts_unused by done. done.
    + split; [done|]. intros slab other. cbn zeta. by rewrite sfs_dentry_alloc_spec.
  - unfold sfs_dentry_release. rewrite release_replicas_spec, bind_Ok by done.
    eexists. split; [by rewrite app_assoc|]. split; [|done].
    rewrite puts_app, puts_flat, puts_unused by done. done.
Qed.

Lemma dentry_references_balanced_witness :
  ∃ evs, sfs_dentry_release 3 (Some (SfsDentry [Some 7; None; Some 9] (Some 4) 0 (-1) 0 0 1 0 5)) =
      Ok (evs ++ [EvFreeReplicas; EvFreeDentry]) ∧ puts evs = [7; 9; 4].
Proof.
  destruct (dentry_references_balanced 3 (SfsDentry [Some 7; None; Some 9] (Some 4) 0 (-1) 0 0 1 0 5)
    eq_refl) as (_ & evs & E & Hp & _).
  exists evs. split; [exact E|exact Hp].
Defined.

(** When the array of replicas cannot be allocated, [sfs_dentry_real_alloc] reports the error but
    has already hooked the half-built data into the dentry: releasing the dentry, or cleaning
    it, then follows the NULL array. *)
Lemma failed_alloc_breaks_release (replica_count : nat) slab other :
  (0 < replica_count)%nat →
  let '(fsdata, r) := sfs_dentry_alloc replica_count slab true false other in
  r = inl (- ENOMEM) ∧ sfs_dentry_release replica_count fsdata = Oops ∧
  clean_dentry replica_count fsdata = Oops.
Proof. intros Hn. destruct replica_count as [|n]; [lia|]. done. Qed.

(** [sfs_dentry_delete], which no operation table refers to, would follow a NULL pointer for any
    object missing from one of the underlying file systems. *)
Lemma dentry_delete_needs_all (replica_count : nat) d i :
  length (replicas d) = replica_count → replicas d !! i = Some None →
  sfs_dentry_delete replica_count (Some d) = Oops.
Proof.
  intros Hl Hi. unfold sfs_dentry_delete.
  assert (∀ n j : nat, (j ≤ i < j + n)%nat → delete_replicas n (Z.of_nat j) d = Oops) as H.
  { induction n as [|n IH]; intros j Hj; [lia|]. cbn [delete_replicas].
    unfold find_replica_dentry. rewrite decide_True by lia. rewrite Nat2Z.id.
    destruct (replicas d !! j) as [[x|]|] eqn:E; [|done|done]. cbn [lift]. rewrite !bind_Ok.
    replace (Z.of_nat j + 1) with (Z.of_nat (S j)) by lia. rewrite IH; [done|].
    assert (i ≠ j) by congruence. lia. }
  apply lookup_lt_Some in Hi as Hlt. pose proof (H replica_count 0%nat ltac:(lia)) as E. change (Z.of_nat 0) with 0 in E. by rewrite E.
Qed.
