(* ===== verification/SfsDir.v ===== *)
(** * SFS: reading directories

    Models sfs16/dir.c as built for kernels from 3.11 on (the other branch of the version test
    does not compile, since [sfs_filldir] uses [orign_ctx]): the hash table of names seen,
    [sfs_filldir], [sfs_skip_filldir], [sfs_dir_seek], [sfs_iterate], [end_of_file],
    [sfs_dir_llseek], [sfs_dir_open], [sfs_release_dir] and [sfs_sync_dir], with the helpers of
    sfs16/file.c and sfs_fs.h they call.  A directory of SFS is the union of directories of the
    underlying file systems; sub-directories occur in several of them and are listed once. *)
From S2P Require Import Prelude Interfaces SfsDispatch SfsDentry.

(** ** Entries *)
Record dirent := Dirent { d_name : list Z; d_offset : Z; d_ino : Z; d_type : Z }.

Definition DT_UNKNOWN : Z := 0.
Definition DT_DIR : Z := 4.

(** [struct dir_entry]: 40 bytes, the name from byte 38 on. *)
Record dir_entry := DirEntry {
  de_hash : Z;
  de_offset : Z;
  de_ino : Z;
  de_name_len : Z;
  de_file_type : Z;
  de_name : list Z;
}.

Definition sizeof_dir_entry : Z := 40.
Definition offsetof_name : Z := 38.

(** [struct dir_info]; [dirent_bucket = None] is the error pointer of a failed allocation, files
    are named by their place in the list of the directory's replica files. *)
Record dir_info := DirInfo {
  dirent_bucket : option (list (list dir_entry));
  hash_len : Z;
  last_pos : Z;
  curr_file : option nat;
  end_file : option nat;
  curr_major_pos : Z;
  curr_minor_pos : Z;
}.

Definition AVARAGE_DIR_LEN : Z := 32.

Definition caculate_hash_len (size : Z) : Z :=
  let min_len := 1 ≪ 6 in
  let ret := wrapu 32 (size / AVARAGE_DIR_LEN) in
  if decide (ret < min_len) then min_len else ret.

(** [do ... while (tcount)] on an [unsigned]. *)
Fixpoint cmp_loop (n : nat) (cs ct : list Z) : res Z :=
  match n with
  | O => Ok 0
  | S n =>
      a ← lift (head cs); b ← lift (head ct);
      if decide (a ≠ b) then Ok 1 else
      cmp_loop n (tail cs) (tail ct)
  end.

Definition dir_string_cmp (cs ct : list Z) (tcount : Z) : res Z :=
  cmp_loop (Z.to_nat (if decide (tcount = 0) then 2 ^ 32 else tcount)) cs ct.

(** ** The underlying directories

    [fs_iterate file pos actor st]: the [iterate] operation of the file at the position [pos]
    calls [actor] on each entry; the new state of the caller, the new position and the value
    returned.  [llseek_start] is [vfs_llseek (file, 0, SEEK_SET)]. *)
Class DirFS (F : Type) := {
  fs_iterate : ∀ {St : Type}, F → Z → (St → dirent → res (St * Z)) → St → res (St * Z * Z);
  i_size : F → Z;
  llseek_start : F → Z;
  (** entries from a position on *)
  remaining : F → Z → list dirent;
}.

(** Entries are handed over in order until the actor returns non-zero. *)
Fixpoint walk {St} (actor : St → dirent → res (St * Z)) (l : list dirent) (st : St) : res (St * list dirent) :=
  match l with
  | [] => Ok (st, [])
  | e :: l' => '(st, ret) ← actor st e; if decide (ret = 0) then walk actor l' st else Ok (st, l)
  end.

(** Documented behaviour of [iterate]: it stops where the actor refuses, keeps the position, and
    returns 0 then too. *)
Class DirFSOk (F : Type) `{DirFS F} := {
  fs_iterate_spec {St} f pos (actor : St → dirent → res (St * Z)) st :
    match walk actor (remaining f pos) st with
    | Ok (st', rest) => ∃ pos', fs_iterate f pos actor st = Ok (st', pos', 0) ∧ remaining f pos' = rest
    | Oops => fs_iterate f pos actor st = Oops
    | NoFuel => fs_iterate f pos actor st = NoFuel
    end;
  llseek_start_spec f : llseek_start f = 0;
  i_size_nonneg f : 0 ≤ i_size f;
}.

Section dir.
Context {F : Type} `{!DirFS F}.
(** The user's side of [readdir]: its state and its [filldir]. *)
Context {U : Type}.
Variable filldir : U → list Z → Z → Z → Z → U * Z.
(** [full_name_hash], and the size of the object [kmalloc] returns for a request. *)
Variable name_hash : list Z → Z.
Variable ksize : Z → Z.
(** [kmalloc_ok n]: whether the [n]-th allocation succeeds. *)
Variable kmalloc_ok : nat → bool.
(** [i_size] of the SFS inode *)
Variable master_size : Z.

(** What a [readdir] works on: the private data, the user's state, allocations made so far. *)
Record rdstate := RdState { rd_info : dir_info; rd_user : U; rd_allocs : nat }.

Fixpoint alloc_buckets (n k : nat) : bool :=
  match n with
  | O => true
  | S n => if kmalloc_ok k then alloc_buckets n (S k) else false
  end.

(** The table, or the error pointer; [k]: allocations made so far. *)
Definition alloc_hash_table (len : Z) (k : nat) : option (list (list dir_entry)) :=
  if kmalloc_ok k then
    if alloc_buckets (Z.to_nat len) (S k) then Some (replicate (Z.to_nat len) []) else None
  else None.

Fixpoint free_hash_table (n i : nat) (t : list (list dir_entry)) : res () :=
  match n with
  | O => Ok ()
  | S n => _ ← lift (t !! i); free_hash_table n (S i) t
  end.

(** The entries of each bucket are unlinked and freed; their number. *)
Fixpoint free_entries (n i : nat) (t : list (list dir_entry)) : res nat :=
  match n with
  | O => Ok O
  | S n => b ← lift (t !! i); k ← free_entries n (S i) t; Ok (length b + k)%nat
  end.

Definition sfs_free_hash_dirent (info : dir_info) : res nat :=
  t ← lift (dirent_bucket info);
  k ← free_entries (Z.to_nat (hash_len info)) 0 t;
  _ ← free_hash_table (Z.to_nat (hash_len info)) 0 t;
  Ok k.

Definition sfs_alloc_dir_info (k : nat) : Z + (dir_info * nat) :=
  if kmalloc_ok k then
    let len := caculate_hash_len master_size in
    inr (DirInfo (alloc_hash_table len (S k)) len 0 None None 0 0, (S k + S (Z.to_nat len))%nat)
  else inl (- ENOMEM).

Definition sfs_refresh_hash_dirent (info : dir_info) (k : nat) : res (dir_info * nat) :=
  let new_hash_len := caculate_hash_len master_size in
  if decide (hash_len info + 64 < new_hash_len) then
    _ ← sfs_free_hash_dirent info;
    Ok (info <| hash_len := new_hash_len |> <| dirent_bucket := alloc_hash_table new_hash_len k |>,
        (k + S (Z.to_nat new_hash_len))%nat)
  else Ok (info, k).

Definition dir_name_hash (name : list Z) : Z := name_hash name.

Fixpoint lookup_chain (b : list dir_entry) (name : list Z) (namelen hash : Z) : res bool :=
  match b with
  | [] => Ok false
  | e :: b =>
      if decide (de_hash e ≠ hash) then lookup_chain b name namelen hash else
      if decide (de_name_len e ≠ namelen) then lookup_chain b name namelen hash else
      c ← dir_string_cmp (de_name e) name namelen;
      if decide (c = 0) then Ok true else lookup_chain b name namelen hash
  end.

Definition bucket_of (info : dir_info) (hash : Z) : res (list (list dir_entry) * nat) :=
  t ← lift (dirent_bucket info);
  if decide (hash_len info = 0) then Oops else Ok (t, Z.to_nat (hash mod hash_len info)).

Definition dir_lookup (info : dir_info) (name : list Z) (namelen hash : Z) : res bool :=
  '(t, i) ← bucket_of info hash; b ← lift (t !! i); lookup_chain b name namelen hash.

Definition dir_hash_add (info : dir_info) (e : dir_entry) : res dir_info :=
  '(t, i) ← bucket_of info (de_hash e); b ← lift (t !! i);
  Ok (info <| dirent_bucket := Some (<[i := e :: b]> t) |>).

(** The new entry: [memcpy] of the name past the object is an invalid access. *)
Definition new_dir_entry (e : dirent) (namelen hash : Z) : res dir_entry :=
  if decide (offsetof_name + namelen ≤ ksize sizeof_dir_entry) then
    Ok (DirEntry hash (d_offset e) (wrapu 32 (d_ino e)) (wrapu 8 namelen) (wrapu 8 (d_type e)) (d_name e))
  else Oops.

(** The callback that passes entries on to the user. *)
Definition emit (e : dirent) (st : rdstate) : rdstate * Z :=
  let namelen := Z.of_nat (length (d_name e)) in
  let info := rd_info st in
  let curr_pos := curr_major_pos info + curr_minor_pos info in
  let '(u, err) := filldir (rd_user st) (d_name e) curr_pos (d_ino e) (d_type e) in
  let st := RdState info u (rd_allocs st) in
  (if decide (err = 0) then st <| rd_info ::= λ i, i <| curr_minor_pos ::= Z.add namelen |> |> else st, err).

Definition sfs_filldir (st : rdstate) (e : dirent) : res (rdstate * Z) :=
  let namelen := Z.of_nat (length (d_name e)) in
  let hash := dir_name_hash (d_name e) in
  if decide (d_type e = DT_DIR ∨ d_type e = DT_UNKNOWN) then
    found ← dir_lookup (rd_info st) (d_name e) namelen hash;
    if (found : bool) then Ok (st <| rd_info ::= λ i, i <| curr_minor_pos ::= Z.add namelen |> |>, 0) else
    if kmalloc_ok (rd_allocs st) then
      entry ← new_dir_entry e namelen hash;
      info ← dir_hash_add (rd_info st) entry;
      Ok (emit e (RdState info (rd_user st) (S (rd_allocs st))))
    else Ok (st <| rd_allocs ::= S |>, - ENOMEM)
  else Ok (emit e st).

Definition sfs_skip_filldir (inline_pos : Z) (info : dir_info) (e : dirent) : res (dir_info * Z) :=
  let namelen := Z.of_nat (length (d_name e)) in
  if decide (inline_pos < curr_minor_pos info + namelen) then Ok (info, - EINVAL)
  else Ok (info <| curr_minor_pos ::= Z.add namelen |>, 0).

(** An open directory: the replica files with their positions, the private data, the position
    of the SFS file, the user's state and the number of allocations so far. *)
Record dir_state := DirState {
  ds_files : list (F * Z);
  ds_info : option dir_info;
  ds_pos : Z;
  ds_user : U;
  ds_allocs : nat;
}.

(** [list_for_each_replica] of [sfs_dir_seek]: the file the position falls into. *)
Fixpoint seek_file (files : list (F * Z)) (i : nat) (inline_pos : Z) (info : dir_info) : dir_info * Z :=
  match files with
  | [] => (info, inline_pos)
  | (f, _) :: files =>
      if decide (i_size f ≤ inline_pos) then
        seek_file files (S i) (inline_pos - i_size f) (info <| curr_major_pos ::= Z.add (i_size f) |>)
      else (info <| curr_file := Some i |>, inline_pos)
  end.

(** The callback of the skip keeps the [inline_pos] it was given at the start. *)
Definition sfs_dir_seek (files : list (F * Z)) (info : dir_info) (f_pos : Z)
    : res (list (F * Z) * dir_info * Z) :=
  let info := info <| curr_file := None |> <| curr_major_pos := 0 |> <| curr_minor_pos := 0 |> in
  let '(info, inline_pos) := seek_file files 0 f_pos info in
  match curr_file info with
  | None => Ok (files, info, - EINVAL)
  | Some i =>
      '(f, pos) ← lift (files !! i);
      let err := llseek_start f in
      let files := if decide (err = 0) then <[i := (f, 0)]> files else files in
      if decide (inline_pos ≠ 0) then
        '(info, _, err) ← fs_iterate f 0 (sfs_skip_filldir f_pos) info;
        Ok (files, info, err)
      else Ok (files, info, err)
  end.

(** [list_for_each_replica_from]: [n] files from number [i] on.  The last component tells whether
    the loop was left by [goto out]. *)
Fixpoint iterate_files (n i : nat) (files : list (F * Z)) (error : Z) (st : rdstate)
    : res (list (F * Z) * rdstate * Z * bool) :=
  match n with
  | O => Ok (files, st, error, false)
  | S n =>
      '(f, pos) ← lift (files !! i);
      let st := st <| rd_info ::= λ d, d <| curr_file := Some i |> <| end_file := Some i |> |> in
      '(st, pos, error) ← fs_iterate f pos sfs_filldir st;
      let files := <[i := (f, pos)]> files in
      if decide (error ≠ 0) then Ok (files, st, error, true) else
      let st := st <| rd_info ::= λ d,
        d <| curr_major_pos ::= Z.add (i_size f) |> <| curr_minor_pos := 0 |> |> in
      let error := llseek_start f in
      let files := if decide (error = 0) then <[i := (f, 0)]> files else files in
      iterate_files n (S i) files error st
  end.

Definition next_replica_file (fl : nat) (files : list (F * Z)) : option nat :=
  if decide (S fl = length files) then None else Some (S fl).

(** [out:] the position becomes the one reached. *)
Definition set_pos (files : list (F * Z)) (info : dir_info) (u : U) (k : nat) : dir_state :=
  let p := curr_major_pos info + curr_minor_pos info in
  DirState files (Some (info <| last_pos := p |>)) p u k.

(** From the test of [curr_file] on. *)
Definition iterate_from (files : list (F * Z)) (info : dir_info) (s : dir_state) (k : nat) (error : Z)
    : res (dir_state * Z) :=
  i ← (match curr_file info with
       | Some i => Ok (Some i)
       | None => e ← lift (end_file info); Ok (next_replica_file e files)
       end);
  match i with
  | None => Ok (DirState files (Some info) (ds_pos s) (ds_user s) k, 0)
  | Some i =>
      '(files, st, error, stopped) ← iterate_files (length files - i) i files error (RdState info (ds_user s) k);
      let info := if (stopped : bool) then rd_info st else (rd_info st) <| curr_file := None |> in
      Ok (set_pos files info (rd_user st) (rd_allocs st), error)
  end.

(** From the private data on: seek if the position was changed, rewind if it is 0. *)
Definition iterate_with (info : dir_info) (k : nat) (s : dir_state) : res (dir_state * Z) :=
  '(files, info, k, error) ←
    (if decide (ds_pos s ≠ last_pos info) then
       '(info, k) ← sfs_refresh_hash_dirent info k;
       '(files, info, error) ← sfs_dir_seek (ds_files s) info (ds_pos s);
       Ok (files, info, k, error)
     else Ok (ds_files s, info, k, 0));
  if decide (error ≠ 0) then Ok (set_pos files info (ds_user s) k, error) else
  if decide (ds_pos s = 0) then
    '(f, _) ← lift (files !! 0%nat);
    let info := info <| curr_file := Some 0%nat |> <| curr_major_pos := 0 |> <| curr_minor_pos := 0 |> in
    let error := llseek_start f in
    iterate_from (if decide (error = 0) then <[0%nat := (f, 0)]> files else files) info s k error
  else iterate_from files info s k error.

Definition sfs_iterate (s : dir_state) : res (dir_state * Z) :=
  match ds_info s with
  | Some info => iterate_with info (ds_allocs s) s
  | None =>
      match sfs_alloc_dir_info (ds_allocs s) with
      | inl err => Ok (s <| ds_allocs ::= S |>, err)
      | inr (info, k) => iterate_with info k s
      end
  end.
End dir.

(** ** Opening, closing, seeking and syncing *)
Section file_ops.
Context {F : Type}.
Variable replica_count : nat.
(** [kmem_ok n]: the outcome of the [n]-th allocation of a [struct sfs_file]. *)
Variable kmem_ok : nat → bool.
(** [d_inode] of a dentry of an underlying file system, and [dentry_open] of it on the mount of
    its replica. *)
Variable has_inode : Z → bool.
Variable dentry_open : Z → Z → Z + F.

(** [sfs_master_file_alloc] and [sfs_replica_file_alloc]: [n] counts the allocations. *)
Definition sfs_file_alloc (n : nat) : Z + () := if kmem_ok n then inr () else inl (- ENOMEM).

(** [f_add_replica] appends. *)
Definition f_add_replica (files : list F) (f : F) : list F := files ++ [f].

(** The loop of [sfs_dir_open]: the files opened, those put again, and the error. *)
Fixpoint open_replicas (n : nat) (loop : Z) (k : nat) (d : sfs_dentry) (files : list F)
    : res (list F * list F * Z) :=
  match n with
  | O => Ok (files, [], 0)
  | S n =>
      r ← find_replica_dentry d loop;
      match r with
      | None => open_replicas n (loop + 1) k d files
      | Some x =>
          if negb (has_inode x) then open_replicas n (loop + 1) k d files else
          if decide (test_bitmap (normal_dir_map d) loop = 0) then open_replicas n (loop + 1) k d files else
          match dentry_open loop x with
          | inl err => Ok (files, [], err)
          | inr f =>
              match sfs_file_alloc k with
              | inl err => Ok (files, [f], err)
              | inr _ => open_replicas n (loop + 1) (S k) d (f_add_replica files f)
              end
          end
      end
  end.

(** The files in the list of the new [sfs_file], the files put, and the error. *)
Definition sfs_dir_open (d : option sfs_dentry) : res (list F * list F * Z) :=
  match sfs_file_alloc 0 with
  | inl err => Ok ([], [], err)
  | inr _ =>
      match d with
      | None => Ok ([], [], - EIO)
      | Some d => open_replicas replica_count 0 1 d []
      end
  end.

(** The files put and the entries freed. *)
Definition sfs_release_dir (files : list F) (info : option dir_info) : res (list F * nat) :=
  match info with
  | None => Ok (files, O)
  | Some info => k ← sfs_free_hash_dirent info; Ok (files, k)
  end.

(** [sfs_sync_dir]: [ret] is not initialised; the loop leaves at the first success. *)
Fixpoint sync_replicas (fsync : F → Z) (files : list F) (ret : Z) (done : list F) : Z * list F :=
  match files with
  | [] => (ret, done)
  | f :: files =>
      let err := fsync f in
      if decide (err = 0) then (err, done ++ [f]) else sync_replicas fsync files ret (done ++ [f])
  end.

Definition sfs_sync_dir (fsync : F → Z) (files : list F) (uninit : Z) : Z * list F :=
  sync_replicas fsync files uninit [].

(** [list_for_each_replica (sfs_file, sfs_file)]: the cursor is the variable the head of the list
    is computed from, and both members lie at the same offset of the union, so the test for the
    end of the list holds at once. *)
Definition offset_replicas : Z := 16.
Definition offset_replica_list : Z := 16.

(** Otherwise the body would read the uninitialised [sfs_replica_file]. *)
Definition eof_loop (sfs_file : Z) (ret : Z) : res Z :=
  if decide (sfs_file + offset_replica_list = sfs_file + offset_replicas) then Ok ret else Oops.

(** [next]: the pointers of the list, by address of the member. *)
Definition end_of_file (next : Z → Z) (sfs_file : Z) : res Z :=
  eof_loop (next (sfs_file + offset_replicas) - offset_replica_list) 0.

Definition sfs_dir_llseek (generic_file_llseek_size : Z → Z → Z → Z → Z) (next : Z → Z) (sfs_file : Z)
    (offset whence maxsize : Z) : res Z :=
  eof ← end_of_file next sfs_file;
  Ok (generic_file_llseek_size offset whence maxsize eof).
End file_ops.

(** ** The table of names *)
Lemma cmp_loop_spec (a b : list Z) :
  length a = length b → cmp_loop (length a) a b = Ok (if decide (a = b) then 0 else 1).
Proof.
  revert b. induction a as [|x a IH]; intros [|y b] Hl; [done..|]. injection Hl as Hl.
  cbn [length cmp_loop head tail lift]. rewrite !bind_Ok.
  destruct (decide (x = y)) as [->|Hne].
  - rewrite (decide_False (P := y ≠ y)) by (intros H; by apply H). rewrite IH by done.
    destruct (decide (a = b)) as [->|Hab].
    + by rewrite decide_True.
    + rewrite decide_False; [done|]. by intros [= ?].
  - rewrite decide_True by done. rewrite decide_False; [done|]. by intros [= ?].
Qed.

Section table.
Variable name_hash : list Z → Z.

(** Names fit into a [u8] length and are not empty. *)
Definition name_ok (name : list Z) : Prop := (1 ≤ length name ≤ 255)%nat.

Definition entry_ok (len : Z) (i : nat) (e : dir_entry) : Prop :=
  name_ok (de_name e) ∧ de_hash e = name_hash (de_name e) ∧
  de_name_len e = Z.of_nat (length (de_name e)) ∧ i = Z.to_nat (de_hash e mod len).

(** [t] holds the names [seen], each in its bucket. *)
Record table_ok (t : list (list dir_entry)) (len : Z) (seen : list (list Z)) : Prop := TableOk {
  to_pos : 0 < len;
  to_len : length t = Z.to_nat len;
  to_entries : ∀ i b e, t !! i = Some b → e ∈ b → entry_ok len i e;
  to_names : ∀ name, name ∈ seen ↔ ∃ i b e, t !! i = Some b ∧ e ∈ b ∧ de_name e = name;
}.

Lemma lookup_chain_spec b name len i :
  name_ok name → (∀ e, e ∈ b → entry_ok len i e) →
  lookup_chain b name (Z.of_nat (length name)) (name_hash name) = Ok (bool_decide (name ∈ de_name <$> b)).
Proof.
  intros Hname. induction b as [|e b IH]; intros Hb; [done|]. cbn [lookup_chain].
  destruct (Hb e) as (Hne & Hh & Hl & _); [left|].
  assert (lookup_chain b name (Z.of_nat (length name)) (name_hash name) =
    Ok (bool_decide (name ∈ de_name <$> b))) as IH' by (apply IH; intros; apply Hb; by right). clear IH.
  assert (name ≠ de_name e → bool_decide (name ∈ de_name <$> b) =
    bool_decide (name ∈ de_name <$> e :: b)) as Hext.
  { intros Hd. apply bool_decide_ext. rewrite fmap_cons, elem_of_cons. naive_solver. }
  destruct (decide (name = de_name e)) as [E|Hd].
  - rewrite decide_False by (rewrite Hh, E; intros H; by apply H).
    rewrite decide_False by (rewrite Hl, E; intros H; by apply H).
    unfold dir_string_cmp. rewrite decide_False by (unfold name_ok in Hname; lia).
    rewrite Nat2Z.id, E, cmp_loop_spec, bind_Ok by done.
    rewrite (decide_True (P := de_name e = de_name e)) by done. rewrite decide_True by done.
    rewrite bool_decide_eq_true_2; [done|]. rewrite fmap_cons. left.
  - rewrite <- Hext, IH' by done.
    destruct (decide (de_hash e ≠ name_hash name)) as [_|_]; [done|].
    destruct (decide (de_name_len e ≠ Z.of_nat (length name))) as [_|Hlen]; [done|].
    unfold dir_string_cmp. rewrite (decide_False (P := Z.of_nat _ = 0)) by (unfold name_ok in Hname; lia).
    apply dec_stable in Hlen. rewrite Nat2Z.id. rewrite Hl in Hlen. apply Nat2Z.inj in Hlen.
    rewrite <- Hlen at 1. rewrite cmp_loop_spec, bind_Ok by done.
    rewrite (decide_False (P := de_name e = name)) by congruence. by rewrite decide_False by done.
Qed.

Lemma bucket_index h len : 0 < len → (Z.to_nat (h mod len) < Z.to_nat len)%nat.
Proof. intros Hl. pose proof (Z.mod_pos_bound h len Hl). lia. Qed.

Lemma dir_lookup_spec t len seen lp cf ef maj min name :
  table_ok t len seen → name_ok name →
  dir_lookup (DirInfo (Some t) len lp cf ef maj min) name (Z.of_nat (length name)) (name_hash name) =
  Ok (bool_decide (name ∈ seen)).
Proof.
  intros [Hpos Hlen Hent Hnames] Hname. unfold dir_lookup, bucket_of. cbn [dirent_bucket hash_len lift].
  rewrite bind_Ok, decide_False by lia. rewrite bind_Ok.
  destruct (lookup_lt_is_Some_2 t (Z.to_nat (name_hash name mod len))) as [b Hb].
  { rewrite Hlen. by apply bucket_index. }
  rewrite Hb. cbn [lift]. rewrite bind_Ok, (lookup_chain_spec b name len (Z.to_nat (name_hash name mod len)));
    [|done|by intros e He; apply (Hent _ _ _ Hb)].
  f_equal. apply bool_decide_ext. rewrite list_elem_of_fmap, Hnames. split.
  - intros (e & -> & He). eauto 10.
  - intros (i & b' & e & Hi & He & <-). exists e. split; [done|].
    destruct (Hent _ _ _ Hi He) as (_ & Hh & _ & ->). rewrite Hh in Hi. by simplify_eq.
Qed.

Lemma dir_hash_add_spec t len seen lp cf ef maj min e :
  table_ok t len seen → name_ok (de_name e) → de_hash e = name_hash (de_name e) →
  de_name_len e = Z.of_nat (length (de_name e)) →
  ∃ t', dir_hash_add (DirInfo (Some t) len lp cf ef maj min) e =
      Ok (DirInfo (Some t') len lp cf ef maj min) ∧ table_ok t' len (de_name e :: seen).
Proof.
  intros [Hpos Hlen Hent Hnames] Hname Hh Hl. unfold dir_hash_add, bucket_of.
  cbn [dirent_bucket hash_len lift]. rewrite bind_Ok, decide_False by lia. rewrite bind_Ok.
  set (i := Z.to_nat (de_hash e mod len)).
  destruct (lookup_lt_is_Some_2 t i) as [b Hb]; [rewrite Hlen; by apply bucket_index|].
  rewrite Hb. cbn [lift]. rewrite bind_Ok. eexists. split; [reflexivity|].
  assert (∀ j b', <[i := e :: b]> t !! j = Some b' →
    (j = i ∧ b' = e :: b) ∨ (j ≠ i ∧ t !! j = Some b')) as Hins.
  { intros j b' Hj. destruct (decide (j = i)) as [->|Hne].
    - rewrite list_lookup_insert_eq in Hj by (by eapply lookup_lt_Some). left. by simplify_eq.
    - rewrite list_lookup_insert_ne in Hj by done. by right. }
  constructor; [done|by rewrite length_insert| |].
  - intros j b' e' Hj He'. destruct (Hins j b' Hj) as [[-> ->]|[_ Hj']]; [|by eapply Hent].
    apply elem_of_cons in He' as [->|He']; [|by eapply Hent]. by unfold entry_ok.
  - intros name. rewrite elem_of_cons, Hnames. split.
    + intros [->|(j & b' & e' & Hj & He' & <-)].
      * exists i, (e :: b), e. rewrite list_lookup_insert_eq by (by eapply lookup_lt_Some).
        split; [done|]. split; [left|done].
      * destruct (decide (j = i)) as [->|Hne].
        -- exists i, (e :: b), e'. rewrite list_lookup_insert_eq by (by eapply lookup_lt_Some).
           simplify_eq. split; [done|]. split; [by right|done].
        -- exists j, b', e'. by rewrite list_lookup_insert_ne.
    + intros (j & b' & e' & Hj & He' & <-).
      destruct (Hins j b' Hj) as [[-> ->]|[_ Hj']]; [|eauto 10].
      apply elem_of_cons in He' as [->|He']; eauto 10.
Qed.

Lemma table_ok_empty len : 0 < len → table_ok (replicate (Z.to_nat len) []) len [].
Proof.
  intros Hl. constructor; [done|apply length_replicate| |].
  - intros i b e [-> _]%lookup_replicate_1 He. by apply not_elem_of_nil in He.
  - intros name. split; [by intros ?%not_elem_of_nil|].
    intros (i & b & e & [-> _]%lookup_replicate_1 & He & _). by apply not_elem_of_nil in He.
Qed.
End table.

(** ** Listing *)

(** Entries whose duplicates are dropped. *)
Definition dir_like (e : dirent) : Prop := d_type e = DT_DIR ∨ d_type e = DT_UNKNOWN.
#[export] Instance dir_like_dec e : Decision (dir_like e).
Proof. unfold dir_like. apply _. Defined.

(** The entries a reader should see, given the names of directories [seen] before; and the names
    seen afterwards. *)
Fixpoint visible (seen : list (list Z)) (l : list dirent) : list dirent :=
  match l with
  | [] => []
  | e :: l =>
      if decide (dir_like e) then
        if decide (d_name e ∈ seen) then visible seen l else e :: visible (d_name e :: seen) l
      else e :: visible seen l
  end.

Fixpoint seen_after (seen : list (list Z)) (l : list dirent) : list (list Z) :=
  match l with
  | [] => seen
  | e :: l => seen_after (if decide (dir_like e ∧ d_name e ∉ seen) then d_name e :: seen else seen) l
  end.

Lemma seen_after_spec l seen name :
  name ∈ seen_after seen l ↔ name ∈ seen ∨ ∃ e, e ∈ l ∧ dir_like e ∧ d_name e = name.
Proof.
  revert seen. induction l as [|e l IH]; intros seen; simpl; [set_solver|]. rewrite IH.
  case_decide as Hd; [set_solver|]. split; [set_solver|].
  intros [?|(e' & [->|?]%elem_of_cons & Hl & <-)]; [by left| |set_solver].
  left. apply dec_stable. naive_solver.
Qed.

Lemma visible_app seen l1 l2 : visible seen (l1 ++ l2) = visible seen l1 ++ visible (seen_after seen l1) l2.
Proof.
  revert seen. induction l1 as [|e l1 IH]; intros seen; [done|]. simpl.
  destruct (decide (dir_like e)) as [Hd|Hd].
  - destruct (decide (d_name e ∈ seen)) as [Hs|Hs].
    + rewrite IH, (decide_False (P := _ ∧ _)) by naive_solver. done.
    + rewrite IH, (decide_True (P := _ ∧ _)) by naive_solver. done.
  - rewrite IH, (decide_False (P := _ ∧ _)) by naive_solver. done.
Qed.

Lemma seen_after_app seen l1 l2 : seen_after seen (l1 ++ l2) = seen_after (seen_after seen l1) l2.
Proof. revert seen. induction l1 as [|e l1 IH]; intros seen; [done|]. simpl. by rewrite IH. Qed.

(** What a reader should see: every name once at most among directories, and none lost. *)
Lemma visible_spec l seen :
  (∀ e, e ∈ l → dir_like e → d_name e ∉ seen → ∃ e', e' ∈ visible seen l ∧ d_name e' = d_name e) ∧
  (∀ e, e ∈ l → ¬ dir_like e → e ∈ visible seen l) ∧
  (∀ e, e ∈ visible seen l → e ∈ l ∧ (dir_like e → d_name e ∉ seen)) ∧
  NoDup (d_name <$> filter dir_like (visible seen l)).
Proof.
  revert seen. induction l as [|e l IH]; intros seen; simpl.
  { split_and!; [set_solver..|constructor]. }
  destruct (decide (dir_like e)) as [Hd|Hd].
  - destruct (decide (d_name e ∈ seen)) as [Hs|Hs].
    + destruct (IH seen) as (H1 & H2 & H3 & H4). split_and!; [|set_solver|set_solver|done].
      intros e' [->|He']%elem_of_cons; [done|by apply H1].
    + destruct (IH (d_name e :: seen)) as (H1 & H2 & H3 & H4). split_and!.
      * intros e' [->|He']%elem_of_cons Hd' Hs'; [exists e; set_solver|].
        destruct (decide (d_name e' = d_name e)) as [E|Hne]; [exists e; set_solver|].
        destruct (H1 e' He' Hd') as (e'' & ? & ?); set_solver.
      * intros e' [->|He']%elem_of_cons Hd'; [done|]. right. by apply H2.
      * intros e' [->|He']%elem_of_cons; [set_solver|]. destruct (H3 e' He'). set_solver.
      * rewrite filter_cons_True by done. simpl. constructor; [|done].
        intros (e' & E & [Hd' He']%list_elem_of_filter)%list_elem_of_fmap.
        destruct (H3 e' He') as [_ Hn]. specialize (Hn Hd'). set_solver.
  - destruct (IH seen) as (H1 & H2 & H3 & H4). split_and!.
    + intros e' [->|He']%elem_of_cons Hd' Hs'; [done|]. destruct (H1 e' He' Hd' Hs') as (e'' & ? & ?). set_solver.
    + intros e' [->|He']%elem_of_cons Hd'; [left|]. right. by apply H2.
    + intros e' [->|He']%elem_of_cons; [set_solver|]. destruct (H3 e' He'). set_solver.
    + by rewrite filter_cons_False.
Qed.

Section listing.
Context {F : Type} `{!DirFS F, !DirFSOk F} {U : Type}.
Variable filldir : U → list Z → Z → Z → Z → U * Z.
Variable name_hash : list Z → Z.
Variable ksize : Z → Z.
Variable master_size : Z.
Abbreviation yes := (λ _ : nat, true).
Abbreviation fill := (sfs_filldir filldir name_hash ksize yes).

(** Names the code can store: 255 bytes at most and inside the object [kmalloc] returned. *)
Definition entry_fits (e : dirent) : Prop :=
  dir_like e → name_ok (d_name e) ∧ offsetof_name + Z.of_nat (length (d_name e)) ≤ ksize sizeof_dir_entry.

Definition rd (t : list (list dir_entry)) (len lp : Z) (cf ef : option nat) (maj min : Z) (u : U) (k : nat)
    : rdstate := RdState (DirInfo (Some t) len lp cf ef maj min) u k.

(** One entry: a directory seen before is passed over, everything else goes to the user. *)
Lemma sfs_filldir_spec t len seen lp cf ef maj min u k e :
  table_ok name_hash t len seen → entry_fits e →
  ∃ t' u' ret min' k', fill (rd t len lp cf ef maj min u k) e = Ok (rd t' len lp cf ef maj min' u' k', ret) ∧
    table_ok name_hash t' len (seen_after seen [e]) ∧
    (u', ret) = if decide (dir_like e ∧ d_name e ∈ seen) then (u, 0)
                else filldir u (d_name e) (maj + min) (d_ino e) (d_type e).
Proof.
  intros Ht Hfit. unfold sfs_filldir. cbn [seen_after].
  assert (∀ t' k', ∃ u' ret min', emit filldir e (rd t' len lp cf ef maj min u k') =
      (rd t' len lp cf ef maj min' u' k', ret) ∧
      (u', ret) = filldir u (d_name e) (maj + min) (d_ino e) (d_type e)) as Hemit.
  { intros t' k'. unfold emit, rd. cbn [rd_info rd_user rd_allocs curr_major_pos curr_minor_pos].
    destruct (filldir u (d_name e) (maj + min) (d_ino e) (d_type e)) as [u' ret].
    destruct (decide (ret = 0)); eexists _, _, _; (split; [reflexivity|done]). }
  destruct (decide (d_type e = DT_DIR ∨ d_type e = DT_UNKNOWN)) as [Hd|Hd].
  - destruct (Hfit Hd) as [Hname Hroom]. unfold dir_name_hash. cbn [rd rd_info].
    rewrite (dir_lookup_spec name_hash t len seen) by done. rewrite bind_Ok.
    destruct (decide (d_name e ∈ seen)) as [Hs|Hs].
    + rewrite bool_decide_eq_true_2 by done.
      rewrite (decide_False (P := dir_like e ∧ d_name e ∉ seen)) by naive_solver.
      rewrite (decide_True (P := dir_like e ∧ d_name e ∈ seen)) by done.
      eexists _, _, _, _, _. split; [reflexivity|]. done.
    + rewrite bool_decide_eq_false_2 by done.
      rewrite (decide_True (P := dir_like e ∧ d_name e ∉ seen)) by done.
      rewrite (decide_False (P := dir_like e ∧ d_name e ∈ seen)) by naive_solver.
      unfold new_dir_entry. rewrite decide_True by done. rewrite bind_Ok.
      destruct (dir_hash_add_spec name_hash t len seen lp cf ef maj min
        (DirEntry (name_hash (d_name e)) (d_offset e) (wrapu 32 (d_ino e))
          (wrapu 8 (Z.of_nat (length (d_name e)))) (wrapu 8 (d_type e)) (d_name e)) Ht) as (t' & E & Ht');
        [done|done|apply wrapu_small; unfold name_ok in Hname; simpl; lia|].
      rewrite E, bind_Ok. destruct (Hemit t' (S k)) as (u' & ret & min' & E' & Hu).
      unfold rd in *. cbn [rd_user rd_allocs]. rewrite E'. eauto 10.
  - rewrite (decide_False (P := dir_like e ∧ d_name e ∉ seen)) by naive_solver.
    rewrite (decide_False (P := dir_like e ∧ d_name e ∈ seen)) by naive_solver.
    destruct (Hemit t k) as (u' & ret & min' & E' & Hu). rewrite E'. eauto 10.
Qed.

(** A whole directory of one underlying file system, for any user: the table stays well formed. *)
Lemma walk_any l t len seen lp cf ef maj min u k :
  table_ok name_hash t len seen → Forall entry_fits l →
  ∃ t' seen' u' min' k' rest, walk fill l (rd t len lp cf ef maj min u k) =
      Ok (rd t' len lp cf ef maj min' u' k', rest) ∧ table_ok name_hash t' len seen'.
Proof.
  intros Ht Hl. revert t seen min u k Ht. induction Hl as [|e l He Hl IH]; intros t seen min u k Ht.
  { eexists _, _, _, _, _, _. done. }
  cbn [walk]. destruct (sfs_filldir_spec t len seen lp cf ef maj min u k e Ht He)
    as (t' & u' & ret & min' & k' & -> & Ht' & _).
  rewrite bind_Ok. destruct (decide (ret = 0)); [by eapply IH|]. eexists _, _, _, _, _, _. done.
Qed.

(** A user with room for everything, who keeps the entries and not their positions. *)
Variable keep : U → dirent → U.

Lemma walk_accept l t len seen lp cf ef maj min u k :
  (∀ u e pos, filldir u (d_name e) pos (d_ino e) (d_type e) = (keep u e, 0)) →
  table_ok name_hash t len seen → Forall entry_fits l →
  ∃ t' min' k', walk fill l (rd t len lp cf ef maj min u k) =
      Ok (rd t' len lp cf ef maj min' (foldl keep u (visible seen l)) k', []) ∧
    table_ok name_hash t' len (seen_after seen l).
Proof.
  intros Hacc Ht Hl. revert t seen min u k Ht. induction Hl as [|e l He Hl IH]; intros t seen min u k Ht.
  { eexists _, _, _. done. }
  cbn [walk]. destruct (sfs_filldir_spec t len seen lp cf ef maj min u k e Ht He)
    as (t' & u' & ret & min' & k' & -> & Ht' & Hu).
  rewrite Hacc in Hu. cbn [seen_after] in Ht'. rewrite bind_Ok. cbn [visible seen_after].
  destruct (decide (dir_like e ∧ d_name e ∈ seen)) as [[Hd Hs]|Hn]; injection Hu as -> ->; rewrite decide_True by done.
  - rewrite (decide_True (P := dir_like e)), (decide_True (P := d_name e ∈ seen)) by done.
    rewrite (decide_False (P := _ ∧ _)) in * by naive_solver. by apply IH.
  - destruct (IH _ _ min' (keep u e) k' Ht') as (t2 & min2 & k2 & E2 & Ht2).
    eexists _, _, _. split; [rewrite E2|done]. f_equal. f_equal. f_equal.
    destruct (decide (dir_like e)) as [Hd|Hd].
    + rewrite (decide_False (P := d_name e ∈ seen)) by naive_solver.
      by rewrite (decide_True (P := _ ∧ _)) by naive_solver.
    + by rewrite (decide_False (P := _ ∧ _)) by naive_solver.
Qed.
End listing.

Section iterate.
Context {F : Type} `{!DirFS F, !DirFSOk F} {U : Type}.
Variable filldir : U → list Z → Z → Z → Z → U * Z.
Variable name_hash : list Z → Z.
Variable ksize : Z → Z.
Variable master_size : Z.
Abbreviation fill := (sfs_filldir filldir name_hash ksize (λ _ : nat, true)).
Abbreviation iter := (sfs_iterate filldir name_hash ksize (λ _ : nat, true) master_size).

(** The entries of the replica directories, and their sizes. *)
Definition all_entries (files : list (F * Z)) : list dirent := files ≫= λ p, remaining p.1 0.
Definition total_size (files : list (F * Z)) : Z := sumZ (λ p, i_size p.1) files.

(** An invariant [J] of table and user, kept by reading a directory: it depends on the entries
    handed over so far. *)
Variable J : list dirent → list (list dir_entry) → U → Prop.
Variable len : Z.
Hypothesis J_walk : ∀ done l t u lp cf ef maj min k,
  J done t u → Forall (entry_fits ksize) l →
  ∃ t' u' min' k' rest, walk fill l (rd t len lp cf ef maj min u k) =
    Ok (rd t' len lp cf ef maj min' u' k', rest) ∧ J (done ++ l) t' u'.

Lemma iterate_files_step n i files f done t u lp cf ef maj min k err :
  files !! i = Some (f, 0) → Forall (entry_fits ksize) (remaining f 0) → J done t u →
  ∃ t' u' k', iterate_files filldir name_hash ksize (λ _, true) (S n) i files err (rd t len lp cf ef maj min u k) =
      iterate_files filldir name_hash ksize (λ _, true) n (S i) files 0
        (rd t' len lp (Some i) (Some i) (i_size f + maj) 0 u' k') ∧
    J (done ++ remaining f 0) t' u'.
Proof.
  intros Hf Hfit HJ.
  destruct (J_walk done (remaining f 0) t u lp (Some i) (Some i) maj min k HJ Hfit)
    as (t1 & u1 & min1 & k1 & rest & Ew & HJ1).
  pose proof (fs_iterate_spec f 0 fill (rd t len lp (Some i) (Some i) maj min u k)) as Hit.
  rewrite Ew in Hit. destruct Hit as (pos' & Eit & _).
  exists t1, u1, k1. split; [|done]. cbn [iterate_files]. rewrite Hf. cbn [lift]. rewrite bind_Ok.
  transitivity (fs_iterate f 0 fill (rd t len lp (Some i) (Some i) maj min u k) ≫=
    (λ '(st, pos, error),
      if decide (error ≠ 0) then Ok (<[i := (f, pos)]> files, st, error, true) else
      iterate_files filldir name_hash ksize (λ _, true) n (S i)
        (if decide (llseek_start f = 0) then <[i := (f, 0)]> (<[i := (f, pos)]> files)
         else <[i := (f, pos)]> files) (llseek_start f)
        (st <| rd_info ::= λ d, d <| curr_major_pos ::= Z.add (i_size f) |> <| curr_minor_pos := 0 |> |>)));
    [done|].
  rewrite Eit, bind_Ok, llseek_start_spec. rewrite (decide_False (P := 0 ≠ 0)) by (intros H; by apply H).
  rewrite (decide_True (P := 0 = 0)) by done. rewrite list_insert_insert_eq, list_insert_id by done. done.
Qed.

(** Whatever the user accepts, the loop goes on to the last replica and rewinds each of them. *)
Lemma iterate_files_spec n i files done t u lp cf ef maj min k err :
  (i + S n = length files)%nat → (∀ j p, files !! j = Some p → p.2 = 0) →
  Forall (entry_fits ksize) (all_entries files) → J done t u →
  ∃ t' u' k', iterate_files filldir name_hash ksize (λ _, true) (S n) i files err (rd t len lp cf ef maj min u k) =
      Ok (files, rd t' len lp (Some (i + n)%nat) (Some (i + n)%nat) (maj + total_size (drop i files)) 0 u' k',
          0, false) ∧
    J (done ++ all_entries (drop i files)) t' u'.
Proof.
  revert i done t u cf ef maj min k err.
  induction n as [|n IH]; intros i done t u cf ef maj min k err Hi Hpos Hfit HJ.
  all: destruct (lookup_lt_is_Some_2 files i) as [[f pos] Hf]; [lia|].
  all: pose proof (Hpos _ _ Hf) as Hp0; simpl in Hp0; subst pos.
  all: assert (Forall (entry_fits ksize) (remaining f 0)) as Hff
    by (apply Forall_forall; intros e He; eapply Forall_forall; [exact Hfit|];
        apply list_elem_of_bind; exists (f, 0); split; [done|by eapply list_elem_of_lookup_2]).
  all: rewrite (drop_S _ _ _ Hf).
  all: assert (total_size ((f, 0) :: drop (S i) files) = i_size f + total_size (drop (S i) files)) as -> by done.
  all: assert (all_entries ((f, 0) :: drop (S i) files) = remaining f 0 ++ all_entries (drop (S i) files)) as -> by done.
  - destruct (iterate_files_step 0 i files f done t u lp cf ef maj min k err Hf Hff HJ)
      as (t1 & u1 & k1 & -> & HJ1).
    assert (drop (S i) files = []) as -> by (apply drop_ge; lia).
    exists t1, u1, k1. cbn [iterate_files]. rewrite Nat.add_0_r, Z.add_comm. unfold all_entries. cbn.
    by rewrite app_nil_r, Z.add_0_r.
  - destruct (iterate_files_step (S n) i files f done t u lp cf ef maj min k err Hf Hff HJ)
      as (t1 & u1 & k1 & -> & HJ1).
    destruct (IH (S i) (done ++ remaining f 0) t1 u1 (Some i) (Some i) (i_size f + maj) 0 k1 0)
      as (t2 & u2 & k2 & -> & HJ2); [lia|done|done|done|].
    exists t2, u2, k2. rewrite <- app_assoc in HJ2. split; [|done].
    replace (S i + n)%nat with (i + S n)%nat by lia.
    by rewrite (Z.add_comm (i_size f)), Z.add_assoc.
Qed.

(** A listing from position 0 on reads every replica to its end, once, and leaves the directory at
    its end. *)
Lemma seek_file_zero files i b lp ef maj :
  0 < total_size files →
  ∃ j p maj', seek_file files i 0 (DirInfo b len lp None ef maj 0) =
      (DirInfo b len lp (Some (i + j)%nat) ef maj' 0, 0) ∧ files !! j = Some p.
Proof.
  revert i maj. induction files as [|[f q] files IH]; intros i maj Hpos; [done|]. cbn [seek_file].
  pose proof (i_size_nonneg f). destruct (decide (i_size f ≤ 0)) as [Hle|Hgt].
  - assert (i_size f = 0) as Hz by lia.
    destruct (IH (S i) (i_size f + maj)) as (j & p & maj' & E & Hp).
    { unfold total_size in *. simpl in Hpos. lia. }
    exists (S j), p, maj'. rewrite <- Nat.add_succ_comm. split; [|done].
    rewrite Hz, Z.sub_0_r in *. exact E.
  - exists 0%nat, (f, q), maj. by rewrite Nat.add_0_r.
Qed.

Lemma sfs_dir_seek_zero files b lp cf ef maj min :
  (∀ j p, files !! j = Some p → p.2 = 0) → 0 < total_size files →
  ∃ j maj', sfs_dir_seek files (DirInfo b len lp cf ef maj min) 0 =
    Ok (files, DirInfo b len lp (Some j) ef maj' 0, 0).
Proof.
  intros Hzero Hpos. destruct (seek_file_zero files 0 b lp ef 0 Hpos) as (j & [f q] & maj' & E & Hp).
  exists j, maj'. unfold sfs_dir_seek.
  change ((DirInfo b len lp cf ef maj min) <| curr_file := None |> <| curr_major_pos := 0 |> <| curr_minor_pos := 0 |>)
    with (DirInfo b len lp None ef 0 0). rewrite E. cbn [curr_file Nat.add]. rewrite Hp. cbn [lift].
  rewrite bind_Ok, llseek_start_spec. rewrite (decide_True (P := 0 = 0)) by done.
  rewrite (decide_False (P := 0 ≠ 0)) by (intros H; by apply H).
  pose proof (Hzero _ _ Hp) as Hq. simpl in Hq. subst q. by rewrite list_insert_id.
Qed.

Definition at_end (files : list (F * Z)) (t : list (list dir_entry)) (u : U) (k : nat) : dir_state :=
  DirState files (Some (DirInfo (Some t) len (total_size files) None (Some (length files - 1)%nat)
    (total_size files) 0)) (total_size files) u k.

Lemma iterate_from_zero files s t lp ef k err :
  files ≠ [] → (∀ j p, files !! j = Some p → p.2 = 0) → Forall (entry_fits ksize) (all_entries files) →
  J [] t (ds_user s) →
  ∃ t' u' k', iterate_from filldir name_hash ksize (λ _, true) files (DirInfo (Some t) len lp (Some 0%nat) ef 0 0) s k err =
    Ok (at_end files t' u' k', 0) ∧ J (all_entries files) t' u'.
Proof.
  intros Hne Hzero Hfit HJ. destruct files as [|p files]; [done|].
  destruct (iterate_files_spec (length files) 0 (p :: files) [] t (ds_user s) lp (Some 0%nat) ef 0 0 k err)
    as (t' & u' & k' & E & HJ'); [done..|].
  exists t', u', k'. split; [|done]. unfold iterate_from. cbn [curr_file]. rewrite bind_Ok.
  change (length (p :: files) - 0)%nat with (S (length files)).
  unfold rd in E. rewrite E, bind_Ok. rewrite drop_0, Z.add_0_l. unfold set_pos, at_end. cbn.
  by rewrite Nat.sub_0_r, Z.add_0_r.
Qed.

Lemma iterate_with_zero files t lp cf ef maj min k a u i0 :
  files ≠ [] → (∀ j p, files !! j = Some p → p.2 = 0) → Forall (entry_fits ksize) (all_entries files) →
  J [] t u → lp = 0 ∨ (caculate_hash_len master_size ≤ len + 64 ∧ 0 < total_size files) →
  ∃ t' u' k', iterate_with filldir name_hash ksize (λ _, true) master_size (DirInfo (Some t) len lp cf ef maj min) k
      (DirState files i0 0 u a) = Ok (at_end files t' u' k', 0) ∧ J (all_entries files) t' u'.
Proof.
  intros Hne Hzero Hfit HJ Hlp. unfold iterate_with. cbn [ds_pos ds_files ds_user last_pos].
  assert (∃ b' cf' ef' maj' min', (if decide (0 ≠ lp) then
      '(info, k) ← sfs_refresh_hash_dirent (λ _, true) master_size (DirInfo (Some t) len lp cf ef maj min) k;
      '(files, info, error) ← sfs_dir_seek files info 0; Ok (files, info, k, error)
    else Ok (files, DirInfo (Some t) len lp cf ef maj min, k, 0)) =
    Ok (files, DirInfo b' len lp cf' ef' maj' min', k, 0) ∧ b' = Some t)
    as (b' & cf' & ef' & maj' & min' & -> & ->).
  { destruct (decide (0 ≠ lp)) as [Hlp0|]; [|by eexists _, _, _, _, _].
    destruct Hlp as [->|[Hgrow Htot]]; [done|].
    unfold sfs_refresh_hash_dirent. cbn [hash_len]. rewrite decide_False by lia. rewrite bind_Ok.
    destruct (sfs_dir_seek_zero files (Some t) lp cf ef maj min Hzero Htot) as (j & maj' & ->).
    rewrite bind_Ok. by eexists _, _, _, _, _. }
  rewrite bind_Ok. rewrite (decide_False (P := 0 ≠ 0)) by (intros H; by apply H).
  rewrite (decide_True (P := 0 = 0)) by done.
  destruct files as [|[f q] files]; [done|]. pose proof (Hzero 0%nat _ eq_refl) as Hq. simpl in Hq. subst q.
  cbn [lookup list_lookup lift]. rewrite bind_Ok, llseek_start_spec, decide_True by done.
  rewrite list_insert_id by done.
  apply (iterate_from_zero ((f, 0) :: files) (DirState ((f, 0) :: files) i0 0 u a) t lp ef' k 0); done.
Qed.

(** At the end there is nothing more to read. *)
Lemma iterate_at_end files t u k :
  files ≠ [] → total_size files ≠ 0 → iter (at_end files t u k) = Ok (at_end files t u k, 0).
Proof.
  intros Hne Htot. unfold sfs_iterate, at_end, iterate_with. cbn [ds_info ds_pos ds_files ds_user ds_allocs last_pos].
  rewrite (decide_False (P := _ ≠ _)) by (intros H; by apply H). rewrite bind_Ok.
  rewrite (decide_False (P := 0 ≠ 0)) by (intros H; by apply H). rewrite decide_False by done.
  unfold iterate_from. cbn [curr_file end_file lift]. rewrite bind_Ok, bind_Ok.
  unfold next_replica_file. rewrite decide_True; [done|]. destruct files; [done|]. simpl. lia.
Qed.

(** A directory opened but not read yet. *)
Definition opened (files : list (F * Z)) (u : U) (k : nat) : dir_state := DirState files None 0 u k.

Lemma iterate_opened files u k :
  caculate_hash_len master_size = len → 0 < len →
  files ≠ [] → (∀ j p, files !! j = Some p → p.2 = 0) → Forall (entry_fits ksize) (all_entries files) →
  J [] (replicate (Z.to_nat len) []) u →
  ∃ t' u' k', iter (opened files u k) = Ok (at_end files t' u' k', 0) ∧ J (all_entries files) t' u'.
Proof.
  intros Hlen Hpos Hne Hzero Hfit HJ. unfold sfs_iterate, opened, sfs_alloc_dir_info. cbn [ds_info ds_allocs].
  rewrite Hlen. assert (∀ k, alloc_hash_table (λ _, true) len k = Some (replicate (Z.to_nat len) [])) as ->.
  { intros k'. unfold alloc_hash_table. assert (∀ n k, alloc_buckets (λ _, true) n k = true) as ->; [|done].
    intros n. induction n as [|n IH]; [done|]. intros. apply IH. }
  by apply iterate_with_zero; auto.
Qed.

(** [lseek (fd, 0, SEEK_SET)] on the directory: SFS only notices at the next read. *)
Definition rewound (s : @dir_state F U) : dir_state := DirState (ds_files s) (ds_info s) 0 (ds_user s) (ds_allocs s).

Lemma iterate_rewound files t u k :
  caculate_hash_len master_size ≤ len + 64 → files ≠ [] → 0 < total_size files →
  (∀ j p, files !! j = Some p → p.2 = 0) → Forall (entry_fits ksize) (all_entries files) → J [] t u →
  ∃ t' u' k', iter (rewound (at_end files t u k)) = Ok (at_end files t' u' k', 0) ∧ J (all_entries files) t' u'.
Proof.
  intros Hlen Hne Htot Hzero Hfit HJ. unfold sfs_iterate, rewound, at_end. cbn [ds_info ds_files ds_user ds_allocs].
  apply iterate_with_zero; auto.
Qed.
End iterate.

Lemma caculate_hash_len_pos size : 64 ≤ caculate_hash_len size.
Proof. unfold caculate_hash_len. change (1 ≪ 6) with 64. cbv zeta. case_decide; lia. Qed.

Lemma visible_all_seen l seen :
  (∀ e, e ∈ l → dir_like e → d_name e ∈ seen) → visible seen l = filter (λ e, ¬ dir_like e) l.
Proof.
  induction l as [|e l IH]; intros Hs; [done|]. cbn [visible]. rewrite filter_cons.
  destruct (decide (dir_like e)) as [Hd|Hd].
  - rewrite (decide_True (P := d_name e ∈ seen)) by (apply Hs; [left|done]).
    rewrite (decide_False (P := ¬ dir_like e)) by auto. apply IH. intros; apply Hs; [by right|done].
  - rewrite (decide_True (P := ¬ dir_like e)) by done. f_equal. apply IH. intros; apply Hs; [by right|done].
Qed.

(** ** A directory file system that satisfies the laws: a list of entries and a size. *)
Record list_dir := ListDir { ld_entries : list dirent; ld_size : nat }.

#[export] Instance list_dir_fs : DirFS list_dir := {|
  fs_iterate St f pos actor st :=
    '(st, rest) ← walk actor (drop (Z.to_nat pos) (ld_entries f)) st;
    Ok (st, Z.of_nat (length (ld_entries f) - length rest), 0);
  i_size f := Z.of_nat (ld_size f);
  llseek_start _ := 0;
  remaining f pos := drop (Z.to_nat pos) (ld_entries f);
|}.

Lemma walk_suffix {St} (actor : St → dirent → res (St * Z)) l st st' rest :
  walk actor l st = Ok (st', rest) → ∃ l1, l = l1 ++ rest.
Proof.
  revert st. induction l as [|e l IH]; intros st; cbn [walk].
  - intros [= <- <-]. by exists [].
  - intros ([st1 ret] & E & H)%res_bind_Ok. case_decide.
    + destruct (IH _ H) as [l1 ->]. by exists (e :: l1).
    + injection H as <- <-. by exists [].
Qed.

#[export] Instance list_dir_fs_ok : DirFSOk list_dir.
Proof.
  constructor; [|done|simpl; lia].
  intros St f pos actor st. cbn [remaining fs_iterate list_dir_fs].
  destruct (walk actor (drop (Z.to_nat pos) (ld_entries f)) st) as [[st' rest]| |] eqn:E; [|done|done].
  rewrite bind_Ok. eexists. split; [reflexivity|].
  destruct (walk_suffix _ _ _ _ _ E) as [l1 Hl]. rewrite Nat2Z.id.
  rewrite <- (take_drop (Z.to_nat pos) (ld_entries f)), Hl, app_assoc.
  apply drop_app_length'. rewrite !length_app. lia.
Qed.

(** ** The other operations *)

(** A directory name longer than the room behind [name\[1\]] is copied past the object. *)
Lemma long_name_overflows {U} (filldir : U → list Z → Z → Z → Z → U * Z) name_hash ksize
    t len seen lp cf ef maj min u k e :
  table_ok name_hash t len seen → dir_like e → name_ok (d_name e) → d_name e ∉ seen →
  ksize sizeof_dir_entry < offsetof_name + Z.of_nat (length (d_name e)) →
  sfs_filldir filldir name_hash ksize (λ _, true) (rd t len lp cf ef maj min u k) e = Oops.
Proof.
  intros Ht Hd Hname Hs Hroom. unfold sfs_filldir. rewrite decide_True by done. unfold dir_name_hash. cbn [rd rd_info].
  rewrite (dir_lookup_spec name_hash t len seen) by done. rewrite bind_Ok, bool_decide_eq_false_2 by done.
  unfold new_dir_entry. by rewrite decide_False by lia.
Qed.

(** [sfs_sync_dir] leaves its loop at the first replica that could be synced, and returns an
    uninitialised value when none could. *)
Lemma sync_replicas_spec {F} (fsync : F → Z) files ret done :
  sync_replicas fsync files ret done =
  match list_find (λ f, fsync f = 0) files with
  | Some (i, f) => (0, done ++ take (S i) files)
  | None => (ret, done ++ files)
  end.
Proof.
  revert done. induction files as [|f files IH]; intros done; cbn [sync_replicas list_find].
  { by rewrite app_nil_r. }
  destruct (decide (fsync f = 0)) as [E|E]; [by rewrite E|]. rewrite IH.
  destruct (list_find _ files) as [[i f']|]; cbn; by rewrite <- app_assoc.
Qed.

(** The end of an SFS directory, as [SEEK_END] sees it, is always 0. *)
Lemma end_of_file_zero next sfs_file : end_of_file next sfs_file = Ok 0.
Proof. unfold end_of_file, eof_loop. by rewrite decide_True. Qed.

Section open.
Context {F : Type}.
Variable has_inode : Z → bool.
Variable opener : Z → Z → F.
Variable d : sfs_dentry.

(** The replica directories a reader needs: present and normal. *)
Definition normal_files (i : nat) (rs : list (option Z)) : list F :=
  concat (imap (λ j r, match r with
    | Some x => if has_inode x && Z.testbit (normal_dir_map d) (Z.of_nat (i + j))
                then [opener (Z.of_nat (i + j)) x] else []
    | None => [] end) rs).

Lemma normal_files_cons i r rs :
  normal_files i (r :: rs) = match r with
    | Some x => if has_inode x && Z.testbit (normal_dir_map d) (Z.of_nat i) then [opener (Z.of_nat i) x] else []
    | None => [] end ++ normal_files (S i) rs.
Proof.
  unfold normal_files. cbn [imap concat]. rewrite Nat.add_0_r. f_equal. f_equal.
  apply imap_ext. intros j r' _. unfold compose. by rewrite Nat.add_succ_r.
Qed.

Lemma open_replicas_spec n i k files :
  (i + n = length (replicas d))%nat → (length (replicas d) ≤ 64)%nat →
  open_replicas (λ _, true) has_inode (λ i x, inr (opener i x)) n (Z.of_nat i) k d files =
  Ok (files ++ normal_files i (drop i (replicas d)), [], 0).
Proof.
  revert i k files. induction n as [|n IH]; intros i k files Hi H64; cbn [open_replicas].
  { by rewrite drop_ge, app_nil_r by lia. }
  destruct (lookup_lt_is_Some_2 (replicas d) i) as [r Hr]; [lia|].
  unfold find_replica_dentry. rewrite decide_True by lia. rewrite Nat2Z.id, Hr. cbn [lift]. rewrite bind_Ok.
  rewrite (drop_S _ _ _ Hr), normal_files_cons.
  replace (Z.of_nat i + 1) with (Z.of_nat (S i)) by lia.
  pose proof (test_bitmap_bit (normal_dir_map d) (Z.of_nat i) ltac:(lia)) as Hb.
  destruct r as [x|]; [|by rewrite IH by lia].
  destruct (has_inode x); cbn [negb andb]; [|by rewrite IH by lia].
  destruct (decide (test_bitmap (normal_dir_map d) (Z.of_nat i) = 0)) as [Hz|Hnz].
  - rewrite bool_decide_eq_false_2 in Hb by (intros H; by apply H). rewrite <- Hb. by rewrite IH by lia.
  - rewrite bool_decide_eq_true_2 in Hb by done. rewrite <- Hb. cbn [sfs_file_alloc].
    rewrite IH by lia. unfold f_add_replica. by rewrite <- app_assoc.
Qed.
End open.

(** Opening a directory opens exactly its normal replicas, in order, when nothing fails. *)
Lemma sfs_dir_open_correct {F} (has_inode : Z → bool) (opener : Z → Z → F) d :
  (length (replicas d) ≤ 64)%nat →
  sfs_dir_open (length (replicas d)) (λ _, true) has_inode (λ i x, inr (opener i x)) (Some d) =
  Ok (normal_files has_inode opener d 0 (replicas d), [], 0).
Proof.
  intros H64. unfold sfs_dir_open. cbn [sfs_file_alloc].
  apply (open_replicas_spec has_inode opener d (length (replicas d)) 0 1 []); lia.
Qed.

(** Releasing an open directory frees its table and puts every replica file, provided the table
    could be allocated. *)
Lemma sfs_release_dir_spec {F} (files : list F) t len seen lp cf ef maj min name_hash :
  table_ok name_hash t len seen →
  ∃ k, sfs_release_dir files (Some (DirInfo (Some t) len lp cf ef maj min)) = Ok (files, k).
Proof.
  intros Ht. pose proof (to_len _ _ _ _ Ht) as Hl. unfold sfs_release_dir, sfs_free_hash_dirent.
  cbn [dirent_bucket hash_len lift]. rewrite bind_Ok.
  assert (∀ n i, (i + n ≤ length t)%nat → ∃ k, free_entries n i t = Ok k ∧ free_hash_table n i t = Ok ()) as Hfree.
  { induction n as [|n IH]; intros i Hi; [by eexists|]. cbn [free_entries free_hash_table].
    destruct (lookup_lt_is_Some_2 t i) as [b ->]; [lia|]. destruct (IH (S i)) as (k & -> & ->); [lia|].
    by eexists. }
  destruct (Hfree (Z.to_nat len) 0%nat) as (k & -> & ->); [lia|]. by eexists.
Qed.

(** * Properties *)

(** C20: the first listing after an open, for a reader with room for everything, is the union of
    the replica directories: every name of every replica, directories once however many replicas
    hold them, nothing else; the directory is then at its end.  It is assumed that the names of
    directories fit into the object [kmalloc] returns for a [struct dir_entry] (longer ones
    overflow it, [long_name_overflows]), that [kmalloc] has memory, and that the replica files are
    at their start; the table of names seen is empty, which it is not for a second listing. *)
Theorem sfs_listing_complete {F} `{DirFSOk F} {U} (filldir : U → list Z → Z → Z → Z → U * Z)
    (keep : U → dirent → U) name_hash ksize master_size (files : list (F * Z)) u k :
  (∀ u e pos, filldir u (d_name e) pos (d_ino e) (d_type e) = (keep u e, 0)) →
  files ≠ [] → (∀ j p, files !! j = Some p → p.2 = 0) → Forall (entry_fits ksize) (all_entries files) →
  ∃ t l k', sfs_iterate filldir name_hash ksize (λ _, true) master_size (opened files u k) =
      Ok (at_end (caculate_hash_len master_size) files t (foldl keep u l) k', 0) ∧
    (∀ e, e ∈ all_entries files → ∃ e', e' ∈ l ∧ d_name e' = d_name e) ∧
    (∀ e, e ∈ l → e ∈ all_entries files) ∧
    (∀ e, e ∈ all_entries files → ¬ dir_like e → e ∈ l) ∧
    NoDup (d_name <$> filter dir_like l).
Proof.
  intros Hacc Hne Hzero Hfit. pose proof (caculate_hash_len_pos master_size) as Hlen.
  destruct (iterate_opened filldir name_hash ksize master_size
    (λ done t u', table_ok name_hash t (caculate_hash_len master_size) (seen_after [] done) ∧
      u' = foldl keep u (visible [] done)) (caculate_hash_len master_size)) with (files := files) (u := u) (k := k)
    as (t & u' & k' & E & _ & ->); try done; [|lia|..].
  - intros done l t u' lp cf ef maj min k0 [Ht ->] Hl.
    destruct (walk_accept filldir name_hash ksize keep l t (caculate_hash_len master_size)
      (seen_after [] done) lp cf ef maj min (foldl keep u (visible [] done)) k0 Hacc Ht Hl)
      as (t' & min' & k' & E & Ht'). eexists _, _, _, _, _. split; [exact E|].
    by rewrite seen_after_app, visible_app, foldl_app.
  - split; [|done]. apply table_ok_empty. lia.
  - destruct (visible_spec (all_entries files) []) as (H1 & H2 & H3 & H4).
    eexists _, _, _. split; [exact E|]. split_and!; [|by intros e He; apply H3|done|done].
    intros e He. destruct (decide (dir_like e)) as [Hd|Hd]; [by apply H1; [| |apply not_elem_of_nil]|].
    exists e. split; [by apply H2|done].
Qed.

Definition ex_dir (name : Z) : dirent := Dirent [name] 0 name DT_DIR.
Definition ex_file (name : Z) : dirent := Dirent [name] 0 name 8.
Definition ex_files : list (list_dir * Z) :=
  [(ListDir [ex_dir 97; ex_file 102] 4096, 0); (ListDir [ex_file 103; ex_dir 97] 4096, 0)].

Definition collect (u : list Z) (name : list Z) (pos ino type : Z) : list Z * Z := (u ++ [ino], 0).

Lemma ex_files_fit : Forall (entry_fits (λ _, 64)) (all_entries ex_files).
Proof.
  change (all_entries ex_files) with [ex_dir 97; ex_file 102; ex_file 103; ex_dir 97].
  repeat (apply Forall_cons; split;
    [intros _; unfold name_ok, offsetof_name; cbn [d_name ex_dir ex_file length]; lia|]). constructor.
Qed.

Lemma sfs_listing_complete_witness :
  ∃ t l k', sfs_iterate collect (λ n, Z.of_nat (length n)) (λ _, 64) (λ _, true) 4096 (opened ex_files [] 0) =
      Ok (at_end (caculate_hash_len 4096) ex_files t (foldl (λ u e, u ++ [d_ino e]) [] l) k', 0) ∧
    NoDup (d_name <$> filter dir_like l).
Proof.
  destruct (sfs_listing_complete (F := list_dir) collect (λ u e, u ++ [d_ino e]) (λ n, Z.of_nat (length n))
    (λ _, 64) 4096 ex_files [] 0) as (t & l & k' & E & _ & _ & _ & Hnd); [done|done| |apply ex_files_fit|eauto].
  intros [|[|j]] p [= <-]; done.
Defined.

(** A listing is never continued.  Whatever the user's [filldir] accepted, one call of
    [sfs_iterate] runs through all replicas, ignores that an entry was refused, and leaves the
    directory at its end: the next call returns nothing.  Entries that did not fit into the
    first buffer are lost. *)
Theorem listing_not_continued {F} `{DirFSOk F} {U} (filldir : U → list Z → Z → Z → Z → U * Z)
    name_hash ksize master_size (files : list (F * Z)) u k :
  files ≠ [] → 0 < total_size files → (∀ j p, files !! j = Some p → p.2 = 0) →
  Forall (entry_fits ksize) (all_entries files) →
  ∃ s, sfs_iterate filldir name_hash ksize (λ _, true) master_size (opened files u k) = Ok (s, 0) ∧
    sfs_iterate filldir name_hash ksize (λ _, true) master_size s = Ok (s, 0).
Proof.
  intros Hne Htot Hzero Hfit. pose proof (caculate_hash_len_pos master_size) as Hlen.
  destruct (iterate_opened filldir name_hash ksize master_size
    (λ done t u', ∃ seen, table_ok name_hash t (caculate_hash_len master_size) seen)
    (caculate_hash_len master_size)) with (files := files) (u := u) (k := k)
    as (t & u' & k' & E & _); try done; [|lia|..].
  - intros done l t u' lp cf ef maj min k0 [seen Ht] Hl.
    destruct (walk_any filldir name_hash ksize l t _ seen lp cf ef maj min u' k0 Ht Hl)
      as (t' & seen' & u2 & min' & k' & rest & Ew & Ht'). eauto 10.
  - exists []. apply table_ok_empty. lia.
  - eexists. split; [exact E|]. apply iterate_at_end; [done|lia].
Qed.

(** A buffer for one entry. *)
Definition collect_one (u : list Z) (name : list Z) (pos ino type : Z) : list Z * Z :=
  if decide (u = []) then ([ino], 0) else (u, - EINVAL).

Lemma listing_not_continued_witness :
  ∃ s, sfs_iterate collect_one (λ n, Z.of_nat (length n)) (λ _, 64) (λ _, true) 4096 (opened ex_files [] 0) = Ok (s, 0) ∧
    sfs_iterate collect_one (λ n, Z.of_nat (length n)) (λ _, 64) (λ _, true) 4096 s = Ok (s, 0).
Proof.
  apply (listing_not_continued (F := list_dir) collect_one); [done|done| |apply ex_files_fit].
  intros [|[|j]] p [= <-]; done.
Defined.

(** The table of names survives a rewind: after a complete listing and [lseek (fd, 0, SEEK_SET)],
    and as long as the directory has not grown much, the second listing shows no directory at
    all, only the other entries. *)
Theorem rewind_hides_directories {F} `{DirFSOk F} {U} (filldir : U → list Z → Z → Z → Z → U * Z)
    (keep : U → dirent → U) name_hash ksize master_size (files : list (F * Z)) u k :
  (∀ u e pos, filldir u (d_name e) pos (d_ino e) (d_type e) = (keep u e, 0)) →
  files ≠ [] → 0 < total_size files → (∀ j p, files !! j = Some p → p.2 = 0) →
  Forall (entry_fits ksize) (all_entries files) →
  ∃ s1 s2, sfs_iterate filldir name_hash ksize (λ _, true) master_size (opened files u k) = Ok (s1, 0) ∧
    sfs_iterate filldir name_hash ksize (λ _, true) master_size (rewound s1) = Ok (s2, 0) ∧
    ds_user s2 = foldl keep (ds_user s1) (filter (λ e, ¬ dir_like e) (all_entries files)).
Proof.
  intros Hacc Hne Htot Hzero Hfit. pose proof (caculate_hash_len_pos master_size) as Hlen.
  assert (∀ seen0 u0 done l t u' lp cf ef maj min k0,
    (table_ok name_hash t (caculate_hash_len master_size) (seen_after seen0 done) ∧
      u' = foldl keep u0 (visible seen0 done)) → Forall (entry_fits ksize) l →
    ∃ t' u2 min' k' rest, walk (sfs_filldir filldir name_hash ksize (λ _, true)) l
        (rd t (caculate_hash_len master_size) lp cf ef maj min u' k0) =
      Ok (rd t' (caculate_hash_len master_size) lp cf ef maj min' u2 k', rest) ∧
      table_ok name_hash t' (caculate_hash_len master_size) (seen_after seen0 (done ++ l)) ∧
      u2 = foldl keep u0 (visible seen0 (done ++ l))) as Hwalk.
  { intros seen0 u0 done l t u' lp cf ef maj min k0 [Ht ->] Hl.
    destruct (walk_accept filldir name_hash ksize keep l t (caculate_hash_len master_size)
      (seen_after seen0 done) lp cf ef maj min (foldl keep u0 (visible seen0 done)) k0 Hacc Ht Hl)
      as (t' & min' & k' & E & Ht'). eexists _, _, _, _, _. split; [exact E|].
    by rewrite seen_after_app, visible_app, foldl_app. }
  destruct (iterate_opened filldir name_hash ksize master_size _ (caculate_hash_len master_size) (Hwalk [] u))
    with (files := files) (u := u) (k := k) as (t & u' & k' & E & Ht & ->); try done; [lia|split; [apply table_ok_empty; lia|done]|].
  destruct (iterate_rewound filldir name_hash ksize master_size _ (caculate_hash_len master_size)
    (Hwalk (seen_after [] (all_entries files)) (foldl keep u (visible [] (all_entries files)))))
    with (files := files) (t := t) (u := foldl keep u (visible [] (all_entries files))) (k := k')
    as (t2 & u2 & k2 & E2 & _ & ->); try done; [lia|].
  eexists _, _. split; [exact E|]. split; [exact E2|]. cbn [ds_user at_end].
  rewrite (visible_all_seen _ (seen_after [] (all_entries files))); [done|]. intros e He Hd. apply seen_after_spec. right. eauto.
Qed.

Lemma rewind_hides_directories_witness :
  ∃ s1 s2, sfs_iterate collect (λ n, Z.of_nat (length n)) (λ _, 64) (λ _, true) 4096 (opened ex_files [] 0) = Ok (s1, 0) ∧
    sfs_iterate collect (λ n, Z.of_nat (length n)) (λ _, 64) (λ _, true) 4096 (rewound s1) = Ok (s2, 0) ∧
    ds_user s2 = foldl (λ u e, u ++ [d_ino e]) (ds_user s1) (filter (λ e, ¬ dir_like e) (all_entries ex_files)).
Proof.
  apply (rewind_hides_directories (F := list_dir) collect (λ u e, u ++ [d_ino e]) (λ n, Z.of_nat (length n))
    (λ _, 64) 4096 ex_files [] 0); [done|done|done| |apply ex_files_fit].
  intros [|[|j]] p [= <-]; done.
Defined.
