(* ===== verification/SfsFile.v ===== *)
(** * SFS: open files

    Models sfs16/file.c: opening and releasing a regular file of SFS, and the file operations, which
    are forwarded to the open file of the replica that holds the data.  The open files of the
    underlying file systems are the class [FileOps], with the laws [FileOpsOk]. *)
From S2P Require Import Prelude Interfaces SfsDispatch SfsDentry.

(** An open file below is named by a number.  [vfs_read] and [vfs_write] take a position and return
    the new one; the position stored in the file is [fo_pos]. *)
Class FileOps (F : Type) := {
  fo_pos : F → Z → Z;
  fo_version : F → Z → Z;
  fo_set_pos : F → Z → Z → F;
  dentry_open : F → Z → option Z → Z → F * (Z + Z);
  get_file : F → Z → F;
  fput : F → Z → F;
  vfs_llseek : F → Z → Z → Z → F * Z;
  vfs_read : F → Z → Z → Z → F * (Z * Z * list Z);
  vfs_write : F → Z → list Z → Z → F * (Z * Z);
  f_aio_read : F → Z → Z → Z → F * (Z * list Z);
  f_aio_write : F → Z → list Z → Z → F * Z;
  f_ioctl : F → Z → Z → Z → F * Z;
  f_compat_ioctl : F → Z → Z → Z → F * Z;
  f_mmap : F → Z → F * Z;
  vfs_fsync_range : F → Z → Z → Z → Z → F * Z;
  f_splice_read : F → Z → Z → Z → F * (Z * Z * list Z);
  f_splice_write : F → Z → list Z → Z → F * (Z * Z);
  f_fallocate : F → Z → Z → Z → Z → F * Z;
}.

(** [struct sfs_file] of a master: the replica files, first the one with the data. *)
Record sfs_file := SfsFile {
  f_replicas : list (Z * Z);     (** file and [replica_id] *)
  is_partitioned : bool;
  meta_persistent : Z;
}.

Section file.
Context {F : Type} `{!FileOps F}.
(** [get_replica_sbi (id)->s_mnt]; [None] where [get_replica_sbi] is NULL. *)
Variable s_mnt : Z → option Z.
Variable kmalloc_ok : nat → bool.

(** An open file of SFS and the files below. *)
Record fstate := FState {
  low : F;
  f_pos : Z;
  f_version : Z;
  f_flags : Z;
  private_data : option sfs_file;
  f_vma : option Z;              (** [vma->vm_file] *)
  f_allocs : nat;
}.

Definition FM (A : Type) : Type := fstate → res (A * fstate).
#[global] Instance FM_ret : MRet FM := λ A a s, Ok (a, s).
#[global] Instance FM_bind : MBind FM := λ A B f m s, '(a, s) ← m s; f a s.

Definition f_deref {A} (o : option A) : FM A := λ s, a ← lift o; Ok (a, s).
Definition f_call {A} (f : F → F * A) : FM A := λ s, let '(l, a) := f (low s) in Ok (a, s <| low := l |>).
Definition f_effect (f : F → F) : FM () := λ s, Ok ((), s <| low := f (low s) |>).
Definition f_get {A} (f : fstate → A) : FM A := λ s, Ok (f s, s).
Definition f_put (f : fstate → fstate) : FM () := λ s, Ok ((), f s).
Definition f_kmalloc : FM bool := λ s, Ok (kmalloc_ok (f_allocs s), s <| f_allocs ::= S |>).

(** [SFS_F (file)] *)
Definition SFS_F : FM sfs_file := p ← f_get private_data; f_deref p.
Definition set_F (f : sfs_file → sfs_file) : FM () := f_put (λ s, s <| private_data ::= fmap f |>).

(** The first entry of an empty list is no file. *)
Definition list_first_replica_file : FM (Z * Z) := f ← SFS_F; f_deref (head (f_replicas f)).
Definition replica_file : FM Z := r ← list_first_replica_file; mret r.1.

(** ** Opening and releasing *)
Definition sfs_master_file_alloc : FM (Z + ()) :=
  ok ← f_kmalloc;
  if (ok : bool) then _ ← f_put (λ s, s <| private_data := Some (SfsFile [] false 0) |>); mret (inr ())
  else mret (inl (- ENOMEM)).

Definition sfs_replica_file_alloc (file : Z) : FM (Z + Z) :=
  ok ← f_kmalloc;
  if (ok : bool) then mret (inr file) else mret (inl (- ENOMEM)).

(** [file_struct_sync (src, target)], from a replica file to the master. *)
Definition file_struct_sync (src : Z) : FM () :=
  f_put (λ s, s <| f_pos := fo_pos (low s) src |> <| f_version := fo_version (low s) src |>).

Definition f_add_replica (file replica_id : Z) : FM () :=
  _ ← SFS_F; set_F (λ f, f <| f_replicas ::= λ l, l ++ [(file, replica_id)] |>).

Definition sfs_new_file (replica replica_id : Z) : FM Z :=
  r ← sfs_master_file_alloc;
  match r with
  | inl error => mret error
  | inr _ =>
      r ← sfs_replica_file_alloc replica;
      match r with
      | inl error => mret error
      | inr f => _ ← f_add_replica f replica_id; mret 0
      end
  end.

Definition simple_file_open (mnt : Z) (dentry : option Z) (replica_id : Z) : FM Z :=
  flags ← f_get f_flags;
  r ← f_call (λ l, dentry_open l mnt dentry flags);
  match r with
  | inl error => mret error
  | inr replica_filp =>
      a ← sfs_replica_file_alloc replica_filp;
      match a with
      | inl error => _ ← f_effect (λ l, fput l replica_filp); mret error
      | inr f => _ ← f_add_replica f replica_id; mret 0
      end
  end.

(** [d]: the private data of the dentry.  After an error the files opened so far stay open. *)
Definition sfs_file_open (d : sfs_dentry) : FM Z :=
  let rid := get_replica_id d in
  replica_dentry ← ((λ s, r ← find_replica_dentry d rid; Ok (r, s)) : FM (option Z));
  r ← sfs_master_file_alloc;
  match r with
  | inl error => mret error
  | inr _ =>
      mnt ← f_deref (s_mnt rid);
      error ← simple_file_open mnt replica_dentry rid;
      if decide (error ≠ 0) then mret error else
      let mid := get_meta_id d in
      if decide (mid = -1) then mret 0 else
      _ ← set_F (λ f, f <| is_partitioned := true |>);
      meta_dentry ← ((λ s, r ← find_replica_dentry d mid; Ok (r, s)) : FM (option Z));
      mnt ← f_deref (s_mnt mid);
      simple_file_open mnt meta_dentry mid
  end.

(** [list_del_replica_file] and [fput] of the first replica. *)
Definition put_first : FM () :=
  r ← list_first_replica_file;
  _ ← set_F (λ f, f <| f_replicas ::= tail |>);
  f_effect (λ l, fput l r.1).

Definition sfs_release_file : FM Z :=
  _ ← put_first;
  f ← SFS_F;
  _ ← (if is_partitioned f then put_first else mret ());
  _ ← f_put (λ s, s <| private_data := None |>);
  mret 0.

(** ** Operations *)
Definition file_pos_write (file pos : Z) : FM () := f_effect (λ l, fo_set_pos l file pos).

Definition sfs_file_llseek (offset whence : Z) : FM Z :=
  f ← replica_file;
  ret ← f_call (λ l, vfs_llseek l f offset whence);
  _ ← file_struct_sync f;
  mret ret.

(** The value returned, the new position and the data. *)
Definition sfs_file_read (len ppos : Z) : FM (Z * Z * list Z) :=
  f ← replica_file;
  r ← f_call (λ l, vfs_read l f len ppos);
  _ ← file_pos_write f r.1.2;
  mret r.

Definition sfs_file_write (buf : list Z) (ppos : Z) : FM (Z * Z) :=
  f ← replica_file;
  r ← f_call (λ l, vfs_write l f buf ppos);
  _ ← file_pos_write f r.2;
  mret r.

(** The position stored is the one the transfer started from. *)
Definition sfs_file_aio_write (iov : list Z) (pos : Z) : FM Z :=
  f ← replica_file;
  ret ← f_call (λ l, f_aio_write l f iov pos);
  _ ← file_pos_write f pos;
  mret ret.

Definition sfs_file_aio_read (len pos : Z) : FM (Z * list Z) :=
  f ← replica_file;
  r ← f_call (λ l, f_aio_read l f len pos);
  _ ← file_pos_write f pos;
  mret r.

Definition sfs_ioctl (cmd arg : Z) : FM Z := f ← replica_file; f_call (λ l, f_ioctl l f cmd arg).
Definition sfs_compat_ioctl (cmd arg : Z) : FM Z := f ← replica_file; f_call (λ l, f_compat_ioctl l f cmd arg).

(** The mapping refers to the replica file, whose reference is put again. *)
Definition sfs_file_mmap : FM Z :=
  f ← replica_file;
  _ ← f_effect (λ l, get_file l f);
  _ ← f_put (λ s, s <| f_vma := Some f |>);
  error ← f_call (λ l, f_mmap l f);
  _ ← f_effect (λ l, fput l f);
  mret error.

Definition sfs_sync_file (start end_ datasync : Z) : FM Z :=
  f ← replica_file; f_call (λ l, vfs_fsync_range l f start end_ datasync).

Definition sfs_file_splice_read (ppos len : Z) : FM (Z * Z * list Z) :=
  f ← replica_file;
  r ← f_call (λ l, f_splice_read l f ppos len);
  _ ← file_pos_write f r.1.2;
  mret r.

Definition sfs_file_splice_write (pipe : list Z) (ppos : Z) : FM (Z * Z) :=
  f ← replica_file;
  r ← f_call (λ l, f_splice_write l f pipe ppos);
  _ ← file_pos_write f r.2;
  mret r.

Definition sfs_fallocate (mode offset len : Z) : FM Z :=
  f ← replica_file; f_call (λ l, f_fallocate l f mode offset len).

Definition sfs_readpage : FM Z := mret 0.
Definition sfs_direct_IO : FM Z := mret 0.
Definition sfs_get_xip_mem : FM Z := mret 0.
End file.

(** ** System calls

    The way fs/read_write.c calls the operations of a file: [read] and [write] take the position of the
    file and store the new one, [pread] leaves it alone. *)
Section calls.
Context {F : Type} `{!FileOps F}.

Inductive file_op := Read (len : Z) | Write (buf : list Z) | Seek (offset whence : Z).
(** The value returned and the data read. *)
Definition outcome : Type := Z * list Z.

Definition sys_read (len : Z) : FM (F := F) outcome :=
  pos ← f_get f_pos;
  r ← sfs_file_read len pos;
  _ ← f_put (λ s, s <| f_pos := r.1.2 |>);
  mret (r.1.1, r.2).

Definition sys_write (buf : list Z) : FM (F := F) outcome :=
  pos ← f_get f_pos;
  r ← sfs_file_write buf pos;
  _ ← f_put (λ s, s <| f_pos := r.2 |>);
  mret (r.1, []).

Definition sys_lseek (offset whence : Z) : FM (F := F) outcome := ret ← sfs_file_llseek offset whence; mret (ret, []).

Definition sys_pread (len pos : Z) : FM (F := F) outcome := r ← sfs_file_read len pos; mret (r.1.1, r.2).

Definition sys_call (op : file_op) : FM (F := F) outcome :=
  match op with Read len => sys_read len | Write buf => sys_write buf | Seek o w => sys_lseek o w end.

Fixpoint sys_calls (ops : list file_op) : FM (F := F) (list outcome) :=
  match ops with
  | [] => mret []
  | op :: ops => r ← sys_call op; rs ← sys_calls ops; mret (r :: rs)
  end.

(** The same calls on the replica file itself. *)
Definition low_call (op : file_op) (l : F) (h : Z) : F * outcome :=
  match op with
  | Read len => let '(l, (ret, pos, data)) := vfs_read l h len (fo_pos l h) in (fo_set_pos l h pos, (ret, data))
  | Write buf => let '(l, (ret, pos)) := vfs_write l h buf (fo_pos l h) in (fo_set_pos l h pos, (ret, []))
  | Seek o w => let '(l, ret) := vfs_llseek l h o w in (l, (ret, []))
  end.

Fixpoint low_calls (ops : list file_op) (l : F) (h : Z) : F * list outcome :=
  match ops with
  | [] => (l, [])
  | op :: ops => let '(l, r) := low_call op l h in let '(l, rs) := low_calls ops l h in (l, r :: rs)
  end.

Class FileOpsOk : Prop := {
  set_pos_ok (l : F) h pos : fo_pos (fo_set_pos l h pos) h = pos;
  (** [lseek (0, SEEK_CUR)] tells the position *)
  seek_cur_ok (l : F) h : vfs_llseek l h 0 1 = (l, fo_pos l h);
}.

(** ** Lemmas *)

(** [h] is the data file. *)
Definition first_is (s : fstate (F := F)) (h : Z) : Prop :=
  ∃ f id rest, private_data s = Some f ∧ f_replicas f = (h, id) :: rest.

Lemma replica_file_ok s h : first_is s h → replica_file s = Ok (h, s).
Proof.
  intros (f & id & rest & Hp & Hf). unfold replica_file, list_first_replica_file, SFS_F, mbind, FM_bind, f_get, f_deref.
  rewrite bind_Ok, Hp. cbn. by rewrite Hf.
Qed.

Lemma FM_bind_Ok {A B} (m : FM (F := F) A) (k : A → FM B) s a s1 : m s = Ok (a, s1) → (m ≫= k) s = k a s1.
Proof. intros E. unfold mbind, FM_bind. by rewrite E. Qed.

Lemma sys_call_ok `{!FileOpsOk} op s h :
  first_is s h → f_pos s = fo_pos (low s) h →
  let '(l, r) := low_call op (low s) h in
  ∃ s', sys_call op s = Ok (r, s') ∧ low s' = l ∧ first_is s' h ∧ f_pos s' = fo_pos l h.
Proof.
  intros Hf Hp. destruct op as [len|buf|o w]; cbn [low_call sys_call].
  - destruct (vfs_read (low s) h len (fo_pos (low s) h)) as [l [[ret pos] data]] eqn:E.
    eexists. split; [|split_and!].
    + unfold sys_read, sfs_file_read. rewrite (FM_bind_Ok _ _ s (f_pos s) s) by done.
      erewrite FM_bind_Ok; [|erewrite FM_bind_Ok; [|by apply replica_file_ok]; erewrite FM_bind_Ok; [|by unfold f_call; rewrite Hp, E];
        erewrite FM_bind_Ok; [|reflexivity]; reflexivity].
      erewrite FM_bind_Ok; [|reflexivity]. reflexivity.
    + done.
    + destruct Hf as (f & id & rest & ? & ?). by exists f, id, rest.
    + cbn. by rewrite set_pos_ok.
  - destruct (vfs_write (low s) h buf (fo_pos (low s) h)) as [l [ret pos]] eqn:E.
    eexists. split; [|split_and!].
    + unfold sys_write, sfs_file_write. rewrite (FM_bind_Ok _ _ s (f_pos s) s) by done.
      erewrite FM_bind_Ok; [|erewrite FM_bind_Ok; [|by apply replica_file_ok]; erewrite FM_bind_Ok; [|by unfold f_call; rewrite Hp, E];
        erewrite FM_bind_Ok; [|reflexivity]; reflexivity].
      erewrite FM_bind_Ok; [|reflexivity]. reflexivity.
    + done.
    + destruct Hf as (f & id & rest & ? & ?). by exists f, id, rest.
    + cbn. by rewrite set_pos_ok.
  - destruct (vfs_llseek (low s) h o w) as [l ret] eqn:E. eexists. split; [|split_and!].
    + unfold sys_lseek, sfs_file_llseek.
      erewrite FM_bind_Ok; [|erewrite FM_bind_Ok; [|by apply replica_file_ok]; erewrite FM_bind_Ok; [|by unfold f_call; rewrite E];
        erewrite FM_bind_Ok; [|reflexivity]; reflexivity].
      reflexivity.
    + done.
    + destruct Hf as (f & id & rest & ? & ?). by exists f, id, rest.
    + done.
Qed.
End calls.
Arguments FileOpsOk F {_}.

(** ** Opening and releasing *)
Section balance.
Context {F : Type} `{!FileOps F}.
Variable s_mnt : Z → option Z.
Variable kmalloc_ok : nat → bool.

(** An open file holds one reference per replica file, two when it is partitioned. *)
Definition open_ok (s : fstate (F := F)) (hs : list Z) : Prop :=
  ∃ f, private_data s = Some f ∧ map fst (f_replicas f) = hs ∧ length hs = if is_partitioned f then 2%nat else 1%nat.

Lemma release_ok s hs :
  open_ok s hs → ∃ s', sfs_release_file s = Ok (0, s') ∧ low s' = foldl fput (low s) hs ∧ private_data s' = None.
Proof.
  intros (f & Hp & Hm & Hl). destruct s as [l pos ver fl pd vma al]. cbn in Hp. subst pd hs.
  destruct f as [reps part mp]. cbn in Hl. unfold sfs_release_file, put_first, list_first_replica_file, SFS_F, set_F.
  rewrite length_map in Hl. destruct part, reps as [|[h1 i1] [|[h2 i2] [|]]]; cbn in Hl; try done; eexists; split_and!; reflexivity.
Qed.

(** Opening: [dentry_open] returns a file or a negative error. *)
Hypothesis open_errors : ∀ (l l' : F) mnt d flags e, dentry_open l mnt d flags = (l', inl e) → e < 0.

Lemma simple_file_open_ok mnt dentry id s f :
  private_data s = Some f →
  ∃ err s', simple_file_open kmalloc_ok mnt dentry id s = Ok (err, s') ∧
    if decide (err = 0) then ∃ h, private_data s' = Some (f <| f_replicas ::= λ l, l ++ [(h, id)] |>)
    else private_data s' = Some f.
Proof.
  intros Hp. unfold simple_file_open. rewrite (FM_bind_Ok _ _ s (f_flags s) s) by done.
  destruct (dentry_open (low s) mnt dentry (f_flags s)) as [l r] eqn:E.
  rewrite (FM_bind_Ok _ _ s r (s <| low := l |>)) by (unfold f_call; by rewrite E).
  destruct r as [e|h].
  { eexists _, _. split; [reflexivity|]. apply open_errors in E. by rewrite decide_False by lia. }
  unfold sfs_replica_file_alloc. set (s1 := s <| low := l |>).
  destruct (kmalloc_ok (f_allocs s1)) eqn:Ek.
  - erewrite FM_bind_Ok.
    2:{ erewrite FM_bind_Ok; [|reflexivity]. rewrite Ek. reflexivity. }
    cbn beta match. erewrite FM_bind_Ok.
    2:{ unfold f_add_replica, SFS_F. erewrite FM_bind_Ok; [reflexivity|]. erewrite FM_bind_Ok; [|reflexivity].
        unfold f_deref. cbn. rewrite Hp. reflexivity. }
    eexists _, _. split; [reflexivity|]. rewrite decide_True by done. exists h. cbn. by rewrite Hp.
  - erewrite FM_bind_Ok.
    2:{ erewrite FM_bind_Ok; [|reflexivity]. rewrite Ek. reflexivity. }
    cbn beta match. erewrite FM_bind_Ok; [|reflexivity]. eexists _, _. split; [reflexivity|]. by rewrite decide_False.
Qed.

Lemma sfs_file_open_ok d s mnt rd :
  find_replica_dentry d (replica_id d) = Ok rd → s_mnt (replica_id d) = Some mnt →
  (meta_id d ≠ -1 → ∃ md mnt', find_replica_dentry d (meta_id d) = Ok md ∧ s_mnt (meta_id d) = Some mnt') →
  ∃ err s', sfs_file_open s_mnt kmalloc_ok d s = Ok (err, s') ∧ (err = 0 → ∃ hs, open_ok s' hs).
Proof.
  intros Hrd Hmnt Hmeta. unfold sfs_file_open, get_replica_id, get_meta_id.
  erewrite FM_bind_Ok; [|rewrite Hrd; reflexivity].
  destruct (kmalloc_ok (f_allocs s)) eqn:Ek.
  2:{ erewrite FM_bind_Ok.
      2:{ unfold sfs_master_file_alloc. erewrite FM_bind_Ok; [|reflexivity]. rewrite Ek. reflexivity. }
      cbn beta match. eexists _, _. split; [reflexivity|]. done. }
  erewrite FM_bind_Ok.
  2:{ unfold sfs_master_file_alloc. erewrite FM_bind_Ok; [|reflexivity]. rewrite Ek. reflexivity. }
  cbn beta match. rewrite Hmnt. erewrite FM_bind_Ok; [|reflexivity].
  match goal with |- context [(_ ≫= _) ?st] =>
    destruct (simple_file_open_ok mnt rd (replica_id d) st (SfsFile [] false 0)) as (err & s1 & E & H1); [reflexivity|]
  end.
  rewrite (FM_bind_Ok _ _ _ _ _ E). destruct (decide (err = 0)) as [->|Hne].
  2:{ rewrite decide_True by done. eexists _, _. split; [reflexivity|]. done. }
  destruct H1 as (h & H1). rewrite decide_False by (intros H; by apply H).
  destruct (decide (meta_id d = -1)) as [Hm|Hm].
  { eexists _, _. split; [reflexivity|]. intros _. exists [h]. by eexists. }
  destruct (Hmeta Hm) as (md & mnt' & Hmd & Hmnt'). erewrite FM_bind_Ok; [|reflexivity].
  erewrite FM_bind_Ok; [|rewrite Hmd; reflexivity]. rewrite Hmnt'. erewrite FM_bind_Ok; [|reflexivity].
  match goal with |- context [simple_file_open _ _ _ _ ?st] =>
    destruct (simple_file_open_ok mnt' md (meta_id d) st (SfsFile [(h, replica_id d)] true 0)) as (err2 & s2 & E2 & H2);
      [cbn; by rewrite H1|]
  end.
  eexists _, _. split; [exact E2|]. intros ->. rewrite decide_True in H2 by done. destruct H2 as (h2 & H2).
  exists [h; h2]. by eexists.
Qed.
End balance.

(** ** Files in memory: an instance *)
Record mfiles := MFiles { mf_data : list Z; mf_pos : gmap Z Z; mf_refs : list Z; mf_next : Z }.

Definition m_read (l : mfiles) (len pos : Z) : Z * Z * list Z :=
  let data := take (Z.to_nat len) (drop (Z.to_nat pos) (mf_data l)) in
  (Z.of_nat (length data), pos + Z.of_nat (length data), data).

Definition m_write (l : mfiles) (buf : list Z) (pos : Z) : mfiles :=
  l <| mf_data ::= λ d, take (Z.to_nat pos) d ++ buf ++ drop (Z.to_nat pos + length buf) d |>.

Definition m_pos (l : mfiles) (h : Z) : Z := default 0 (mf_pos l !! h).

#[export] Instance mfiles_ops : FileOps mfiles := {|
  fo_pos := m_pos;
  fo_version l h := 0;
  fo_set_pos l h pos := l <| mf_pos ::= <[h := pos]> |>;
  dentry_open l mnt d flags := (l <| mf_refs ::= cons (mf_next l) |> <| mf_next ::= Z.succ |>, inr (mf_next l));
  get_file l h := l <| mf_refs ::= cons h |>;
  fput l h := l <| mf_refs ::= List.filter (λ x, bool_decide (x ≠ h)) |>;
  vfs_llseek l h offset whence :=
    let pos := if decide (whence = 0) then offset else if decide (whence = 1) then m_pos l h + offset
               else Z.of_nat (length (mf_data l)) + offset in
    if decide (offset = 0 ∧ whence = 1) then (l, m_pos l h) else (l <| mf_pos ::= <[h := pos]> |>, pos);
  vfs_read l h len pos := (l, m_read l len pos);
  vfs_write l h buf pos := (m_write l buf pos, (Z.of_nat (length buf), pos + Z.of_nat (length buf)));
  f_aio_read l h len pos := (l, ((m_read l len pos).1.1, (m_read l len pos).2));
  f_aio_write l h buf pos := (m_write l buf pos, Z.of_nat (length buf));
  f_ioctl l h cmd arg := (l, - ENOSYS);
  f_compat_ioctl l h cmd arg := (l, - ENOSYS);
  f_mmap l h := (l, 0);
  vfs_fsync_range l h s e d := (l, 0);
  f_splice_read l h pos len := (l, m_read l len pos);
  f_splice_write l h buf pos := (m_write l buf pos, (Z.of_nat (length buf), pos + Z.of_nat (length buf)));
  f_fallocate l h mode offset len := (l, 0);
|}.

#[export] Instance mfiles_ok : FileOpsOk mfiles.
Proof.
  constructor.
  - intros l h pos. unfold fo_pos, fo_set_pos, mfiles_ops, m_pos. cbn. by rewrite lookup_insert_eq.
  - done.
Qed.

Definition open_file : fstate (F := mfiles) :=
  FState (MFiles [10; 20; 30; 40; 50] ∅ [5] 6) 0 0 0 (Some (SfsFile [(5, 2)] false 0)) None 0.

(** * Properties *)

(** C31: An open file of SFS behaves as the file of the replica that holds the data: any sequence of
    [read], [write] and [lseek] returns the same values and data, leaves the same files below and the
    same position as the calls made on the replica's file. *)
Theorem file_calls_equivalent {F} `{!FileOps F, !FileOpsOk F} ops (s : fstate (F := F)) h :
  first_is s h → f_pos s = fo_pos (low s) h →
  ∃ s', sys_calls ops s = Ok ((low_calls ops (low s) h).2, s') ∧ low s' = (low_calls ops (low s) h).1 ∧
    f_pos s' = fo_pos (low s') h.
Proof.
  revert s. induction ops as [|op ops IH]; intros s Hf Hp; [by exists s|]. cbn [sys_calls low_calls].
  pose proof (sys_call_ok op s h Hf Hp) as H. destruct (low_call op (low s) h) as [l r].
  destruct H as (s1 & E1 & <- & Hf1 & Hp1). rewrite (FM_bind_Ok _ _ _ _ _ E1).
  destruct (IH s1 Hf1 Hp1) as (s2 & E2 & Hl2 & Hp2). destruct (low_calls ops (low s1) h) as [l2 rs].
  rewrite (FM_bind_Ok _ _ _ _ _ E2). exists s2. done.
Qed.

Lemma file_calls_equivalent_witness :
  ∃ s', sys_calls [Read 2; Write [7; 8]; Seek 1 0; Read 3] open_file = Ok ([(2, [10; 20]); (2, []); (1, []); (3, [20; 7; 8])], s').
Proof.
  destruct (file_calls_equivalent [Read 2; Write [7; 8]; Seek 1 0; Read 3] open_file 5) as (s' & E & _).
  - by eexists _, _, _.
  - reflexivity.
  - exists s'. rewrite E. reflexivity.
Defined.

(** A positioned read moves the file position: [pread] stores the end of its transfer in the
    replica's file, and the next [lseek (0, SEEK_CUR)] reports that position, makes it the position
    of the SFS file and so of the next read. *)
Theorem pread_moves_position {F} `{!FileOps F, !FileOpsOk F} (s : fstate (F := F)) h len pos l r p data :
  first_is s h → vfs_read (low s) h len pos = (l, (r, p, data)) →
  ∃ s1 s2, sys_pread len pos s = Ok ((r, data), s1) ∧ f_pos s1 = f_pos s ∧
    sys_lseek 0 1 s1 = Ok ((p, []), s2) ∧ f_pos s2 = p.
Proof.
  intros Hf E. eexists _, _. split_and!.
  - unfold sys_pread, sfs_file_read.
    erewrite FM_bind_Ok; [|erewrite FM_bind_Ok; [|by apply replica_file_ok]; erewrite FM_bind_Ok; [|by unfold f_call; rewrite E];
      erewrite FM_bind_Ok; [|reflexivity]; reflexivity].
    reflexivity.
  - reflexivity.
  - unfold sys_lseek, sfs_file_llseek.
    erewrite FM_bind_Ok.
    2:{ erewrite FM_bind_Ok.
        2:{ apply replica_file_ok. destruct Hf as (f & id & rest & ? & ?). by exists f, id, rest. }
        erewrite FM_bind_Ok; [|unfold f_call; cbn; rewrite seek_cur_ok; reflexivity].
        erewrite FM_bind_Ok; [|reflexivity]. reflexivity. }
    cbn beta. rewrite set_pos_ok. reflexivity.
  - cbn. by rewrite ?set_pos_ok.
Qed.

Lemma pread_moves_position_witness :
  ∃ s1 s2, sys_pread 2 3 open_file = Ok ((2, [40; 50]), s1) ∧ f_pos s1 = 0 ∧ sys_lseek 0 1 s1 = Ok ((5, []), s2).
Proof.
  destruct (pread_moves_position open_file 5 2 3 (low open_file) 2 5 [40; 50]) as (s1 & s2 & E1 & Hp & E2 & _).
  - by eexists _, _, _.
  - reflexivity.
  - by exists s1, s2.
Defined.

(** A successful open holds the data file, and the pointer file of a partitioned file; releasing it
    puts exactly those references and the private data. *)
Theorem open_release_balanced {F} `{!FileOps F} s_mnt kmalloc_ok d (s : fstate (F := F)) mnt rd :
  (∀ (l l' : F) mnt d flags e, dentry_open l mnt d flags = (l', inl e) → e < 0) →
  find_replica_dentry d (replica_id d) = Ok rd → s_mnt (replica_id d) = Some mnt →
  (meta_id d ≠ -1 → ∃ md mnt', find_replica_dentry d (meta_id d) = Ok md ∧ s_mnt (meta_id d) = Some mnt') →
  ∃ err s1, sfs_file_open s_mnt kmalloc_ok d s = Ok (err, s1) ∧
    (err = 0 → ∃ hs s2, open_ok s1 hs ∧ sfs_release_file s1 = Ok (0, s2) ∧
      low s2 = foldl fput (low s1) hs ∧ private_data s2 = None).
Proof.
  intros He Hrd Hm Hmeta. destruct (sfs_file_open_ok s_mnt kmalloc_ok He d s mnt rd Hrd Hm Hmeta) as (err & s1 & E & H).
  exists err, s1. split; [done|]. intros E0. destruct (H E0) as (hs & Hok). destruct (release_ok s1 hs Hok) as (s2 & ? & ? & ?).
  by exists hs, s2.
Qed.

Lemma open_release_balanced_witness :
  ∃ s1 s2, sfs_file_open (λ _, Some 0) (λ _, true) (SfsDentry [Some 110; Some 111] None 1 0 0 0 0 (-1) 0)
      (FState (MFiles [] ∅ [] 6) 0 0 0 None None 0) = Ok (0, s1) ∧
    mf_refs (low s1) = [7; 6] ∧ sfs_release_file s1 = Ok (0, s2) ∧ mf_refs (low s2) = [].
Proof.
  destruct (open_release_balanced (F := mfiles) (λ _, Some 0) (λ _, true) (SfsDentry [Some 110; Some 111] None 1 0 0 0 0 (-1) 0)
    (FState (MFiles [] ∅ [] 6) 0 0 0 None None 0) 0 (Some 111)) as (err & s1 & E & H).
  - done.
  - reflexivity.
  - reflexivity.
  - intros _. eexists _, _. split; reflexivity.
  - pose proof E as E'. vm_compute in E'. injection E' as <- Hs1. destruct (H eq_refl) as (hs & s2 & Hok & E2 & Hl & _).
    exists s1, s2. split_and!; [exact E|by rewrite <- Hs1|exact E2|].
    destruct Hok as (f & Hf & Hhs & _). rewrite <- Hs1 in Hf, Hl. vm_compute in Hf. injection Hf as <-. subst hs. by rewrite Hl.
Defined.
