(* ===== verification/SfsVfs.v ===== *)
(** * SFS: the layer below and the state of the name operations

    The operations of the kernel and of the underlying file systems that sfs16/namei.c calls,
    as the class [Vfs]; the state of SFS itself (its tree of dentries with their private data);
    and the state monad in which the operations are written, with rules for total correctness.
    Dentries and inodes of the underlying file systems are named by numbers. *)
From S2P Require Import Prelude Interfaces SfsDispatch SfsKv SfsDentry.

Definition name := list Z.

(** "trusted.sfs.meta" and "trusted.sfs.shadow" *)
Inductive attr := MetaAttr | ShadowAttr.

#[export] Instance attr_eq_dec : EqDecision attr.
Proof. solve_decision. Defined.

Inductive op_type := Creat | Mkdir | Symlink | Mknod | Link | Rename.

#[export] Instance op_type_eq_dec : EqDecision op_type.
Proof. solve_decision. Defined.

(** [i_*] are the inode operations of the underlying file system; a directory is given by its inode,
    as in the source.  [i_lookup]: [None] stands for the NULL of a lookup that used the dentry it was
    given.  [d_detach] and [d_attach] are what [clean_replica_dentry] and
    [instantiate_replica_dentry] do to the dentry cache. *)
Class Vfs (W : Type) := {
  d_inode : W → Z → option Z;
  d_parent : W → Z → Z;
  i_mode : W → Z → Z;
  i_op : W → Z → op_type → bool;
  d_alloc : W → Z → name → W * option Z;
  i_lookup : W → Z → Z → W * option (Z + Z);
  i_create : W → Z → Z → Z → bool → W * Z;
  i_mkdir : W → Z → Z → Z → W * Z;
  i_symlink : W → Z → Z → name → W * Z;
  i_mknod : W → Z → Z → Z → Z → W * Z;
  i_link : W → Z → Z → Z → W * Z;
  i_unlink : W → Z → Z → W * Z;
  i_rmdir : W → Z → Z → W * Z;
  i_rename : W → Z → Z → Z → Z → W * Z;
  d_delete : W → Z → W;
  d_drop : W → Z → W;
  d_move : W → Z → Z → W;
  d_detach : W → Z → W;
  d_attach : W → Z → Z → W;
  dput : W → Z → W;
  set_dead : W → Z → W;
  write_inode_now : W → Z → W;
  vfs_xattr :: Xattr W (Z * attr);
}.

(** A dentry of SFS: parent, name, private data, and mode and link count of its inode if it has
    one. *)
Record snode := SNode {
  n_parent : Z;
  n_name : name;
  n_fs : option sfs_dentry;
  n_mode : option Z;
  n_nlink : Z;
}.

Section state.
Context {W : Type} `{!Vfs W}.

Record sfs := Sfs {
  s_vfs : W;
  s_tree : gmap Z snode;
  s_last : Z;          (** [last_dispatch] *)
  s_allocs : nat;      (** allocations so far *)
}.

Definition N (A : Type) : Type := sfs → res (A * sfs).

#[global] Instance N_ret : MRet N := λ A a s, Ok (a, s).
#[global] Instance N_bind : MBind N := λ A B f m s, '(a, s) ← m s; f a s.

Definition crash {A} : N A := λ s, Oops.
(** The fuel of a loop was too little. *)
Definition no_fuel {A} : N A := λ s, NoFuel.

(** A pointer that may be NULL. *)
Definition deref {A} (o : option A) : N A := λ s, a ← lift o; Ok (a, s).
(** A pointer that may be an error pointer, used without a test. *)
Definition deref_err {A} (r : Z + A) : N A := match r with inr a => mret a | inl _ => crash end.

Definition observe {A} (f : W → A) : N A := λ s, Ok (f (s_vfs s), s).
(** A call of the layer below. *)
Definition call {A} (f : W → W * A) : N A :=
  λ s, let '(w, a) := f (s_vfs s) in Ok (a, s <| s_vfs := w |>).
Definition effect (f : W → W) : N () := λ s, Ok ((), s <| s_vfs := f (s_vfs s) |>).

Definition node (n : Z) : N snode := λ s, a ← lift (s_tree s !! n); Ok (a, s).
Definition set_node (n : Z) (f : snode → snode) : N () :=
  x ← node n; ((λ s, Ok ((), s <| s_tree ::= <[n := f x]> |>)) : N ()).

(** [SFS_D (dentry)] *)
Definition SFS_D (n : Z) : N sfs_dentry := x ← node n; deref (n_fs x).
Definition set_D (n : Z) (f : sfs_dentry → sfs_dentry) : N () :=
  _ ← SFS_D n; set_node n (λ x, x <| n_fs ::= fmap f |>).

(** [find_replica_dentry (dentry, i)] *)
Definition replica (n i : Z) : N (option Z) :=
  d ← SFS_D n; ((λ s, a ← find_replica_dentry d i; Ok (a, s)) : N (option Z)).

Definition inode (d : Z) : N (option Z) := observe (λ w, d_inode w d).

(** Is it there, and does it have an inode? *)
Definition present (o : option Z) : N bool :=
  match o with
  | None => mret false
  | Some d => i ← inode d; mret (bool_decide (is_Some i))
  end.

(** ** Total correctness *)
Definition wpn {A} (m : N A) (Q : A → sfs → Prop) (s : sfs) : Prop :=
  ∃ a s', m s = Ok (a, s') ∧ Q a s'.

Lemma wpn_ret {A} (a : A) Q s : Q a s → wpn (mret a) Q s.
Proof. intros. by exists a, s. Qed.

Lemma wpn_bind {A B} (m : N A) (f : A → N B) Q s :
  wpn m (λ a s', wpn (f a) Q s') s → wpn (m ≫= f) Q s.
Proof.
  intros (a & s1 & H1 & b & s2 & H2 & HQ). exists b, s2. split; [|done].
  unfold mbind, N_bind. by rewrite H1.
Qed.

(** A bad pointer after a run that ends. *)
Lemma oops_bind {A B} (m : N A) (f : A → N B) (Q : A → sfs → Prop) s :
  wpn m Q s → (∀ a s', Q a s' → f a s' = Oops) → (m ≫= f) s = Oops.
Proof. intros (a & s1 & H1 & HQ) Hf. unfold mbind, N_bind. rewrite H1. by apply Hf. Qed.

Lemma oops_here {A B} (m : N A) (f : A → N B) s : m s = Oops → (m ≫= f) s = Oops.
Proof. intros E. unfold mbind, N_bind. by rewrite E. Qed.

Lemma wpn_mono {A} (m : N A) (Q Q' : A → sfs → Prop) s :
  wpn m Q s → (∀ a s', Q a s' → Q' a s') → wpn m Q' s.
Proof. intros (a & s1 & H1 & HQ) HQQ. exists a, s1. auto. Qed.

Lemma wpn_deref {A} (a : A) Q s : Q a s → wpn (deref (Some a)) Q s.
Proof. intros. by exists a, s. Qed.

Lemma wpn_observe {A} (f : W → A) Q s : Q (f (s_vfs s)) s → wpn (observe f) Q s.
Proof. intros. by eexists _, _. Qed.

Lemma wpn_call {A} (f : W → W * A) Q s w a :
  f (s_vfs s) = (w, a) → Q a (s <| s_vfs := w |>) → wpn (call f) Q s.
Proof. intros E HQ. exists a, (s <| s_vfs := w |>). split; [|done]. unfold call. by rewrite E. Qed.

Lemma wpn_effect (f : W → W) Q s : Q () (s <| s_vfs := f (s_vfs s) |>) → wpn (effect f) Q s.
Proof. intros. by eexists _, _. Qed.

Lemma wpn_node n x Q s : s_tree s !! n = Some x → Q x s → wpn (node n) Q s.
Proof. intros Hx HQ. exists x, s. split; [|done]. unfold node. by rewrite Hx. Qed.

Lemma wpn_set_node n x f Q s :
  s_tree s !! n = Some x → Q () (s <| s_tree ::= <[n := f x]> |>) → wpn (set_node n f) Q s.
Proof. intros Hx HQ. apply wpn_bind. eapply wpn_node; [done|]. by eexists _, _. Qed.

Lemma wpn_SFS_D n x d Q s :
  s_tree s !! n = Some x → n_fs x = Some d → Q d s → wpn (SFS_D n) Q s.
Proof. intros Hx Hd HQ. apply wpn_bind. eapply wpn_node; [done|]. rewrite Hd. by apply wpn_deref. Qed.

Lemma wpn_replica n x d i r Q s :
  s_tree s !! n = Some x → n_fs x = Some d → find_replica_dentry d i = Ok r → Q r s →
  wpn (replica n i) Q s.
Proof.
  intros Hx Hd Hr HQ. apply wpn_bind. eapply wpn_SFS_D; [done..|]. exists r, s. by rewrite Hr.
Qed.
End state.

Arguments sfs : clear implicits.
Arguments N : clear implicits.
