(* ===== verification/SfsView.v ===== *)
(** * SFS: what the name operations rely on below

    The behaviour of the dentry cache and of the underlying file systems that the proofs about
    sfs16/namei.c and sfs16/rename.c assume: the class [VfsView], the content of the file
    systems, and the laws [VfsOk].  [mvfs] is a file system in memory that has it all. *)
From S2P Require Import Prelude Interfaces SfsDispatch SfsKv SfsDentry SfsVfs.

(** [child w p n]: the inode the directory of dentry [p] holds under [n]; [place]: parent and name
    of a dentry; [known]: the dentry is in use; [attr_of]: an extended attribute of an inode. *)
Class VfsView (W : Type) := {
  child : W → Z → name → option Z;
  place : W → Z → option (Z * name);
  known : W → Z → Prop;
  attr_of : W → Z → attr → option (list Z);
}.

Section laws.
Context {W : Type} `{!Vfs W, !VfsView W}.

(** Dentries in use are where they were and show the same inode. *)
Definition same_dentries (w w' : W) : Prop :=
  ∀ d, known w d → known w' d ∧ place w' d = place w d ∧ d_inode w' d = d_inode w d.
Definition same_dirs (w w' : W) : Prop := ∀ p n, child w' p n = child w p n.
Definition same_attrs (w w' : W) : Prop := ∀ i a, attr_of w' i a = attr_of w i a.
Definition same (w w' : W) : Prop := same_dentries w w' ∧ same_dirs w w' ∧ same_attrs w w'.

(** [vfs_getxattr] with a buffer of [size] bytes: [-ENODATA] or [-ERANGE]. *)
Definition read_attr (o : option (list Z)) (size : Z) : Z * list Z :=
  match o with
  | None => (-61, [])
  | Some v => if decide (Z.of_nat (length v) ≤ size) then (Z.of_nat (length v), v) else (-34, [])
  end.

(** [d] looks at [n] in [p] and shows what is there. *)
Definition shows (w : W) (d p : Z) (n : name) : Prop :=
  known w d ∧ place w d = Some (p, n) ∧ d_inode w d = child w p n.

Class VfsOk : Prop := {
  getxattr_ok w d a size i : d_inode w d = Some i → vfs_getxattr w (d, a) size = read_attr (attr_of w i a) size;
  generic_getxattr_ok w d a size i :
    d_inode w d = Some i → generic_getxattr w (d, a) size = read_attr (attr_of w i a) size;
  setxattr_ok w d a v w' e i :
    d_inode w d = Some i → vfs_setxattr w (d, a) v = (w', e) →
    same_dentries w w' ∧ same_dirs w w' ∧
    (e = 0 → attr_of w' i a = Some v) ∧ (∀ i' a', e ≠ 0 ∨ (i', a') ≠ (i, a) → attr_of w' i' a' = attr_of w i' a');
  (** after [unlink] and [d_delete] the name is gone; nothing is said about the inode the dentry
      shows, which stays when others use the dentry *)
  unlink_ok w dir d w' p n :
    i_unlink w dir d = (w', 0) → d_inode w p = Some dir → shows w d p n → is_Some (child w p n) →
    let w2 := d_delete w' d in
    same_attrs w w2 ∧ known w2 d ∧ place w2 d = Some (p, n) ∧
    (∀ p' n', child w2 p' n' = if decide ((p', n') = (p, n)) then None else child w p' n') ∧
    (∀ d', known w d' → place w d' ≠ Some (p, n) →
       known w2 d' ∧ place w2 d' = place w d' ∧ d_inode w2 d' = d_inode w d');
  unlink_error w dir d w' e : i_unlink w dir d = (w', e) → e ≠ 0 → same w w';
  write_inode_ok w i : same w (write_inode_now w i);
  (** a dentry allocated and looked up shows what is there *)
  lookup_ok w p n dir w1 d w2 :
    known w p → d_inode w p = Some dir → d_alloc w p n = (w1, Some d) → i_lookup w1 dir d = (w2, None) →
    same w w2 ∧ shows w2 d p n;
  lookup_alias_ok w p n dir w1 d w2 d' :
    known w p → d_inode w p = Some dir → d_alloc w p n = (w1, Some d) → i_lookup w1 dir d = (w2, Some (inr d')) →
    same w (dput w2 d) ∧ shows (dput w2 d) d' p n;
}.

(** No lookup fails: there is memory and the directories can be read. *)
Definition lookups_work : Prop :=
  ∀ w p n, ∃ w1 d, d_alloc w p n = (w1, Some d) ∧ ∀ dir w2 e, i_lookup w1 dir d ≠ (w2, Some (inl e)).

Lemma same_refl w : same w w.
Proof. split_and!; intros ?; intros; done. Qed.

Lemma same_trans w1 w2 w3 : same w1 w2 → same w2 w3 → same w1 w3.
Proof.
  intros (H1 & H2 & H3) (H4 & H5 & H6). split_and!.
  - intros d Hd. destruct (H1 d Hd) as (Hk & ? & ?). destruct (H4 d Hk) as (? & ? & ?).
    split_and!; [done|congruence|congruence].
  - intros p n. by rewrite H5, H2.
  - intros i a. by rewrite H6, H3.
Qed.
End laws.
Arguments VfsOk W {_ _}.
Arguments lookups_work W {_}.

#[export] Instance attr_countable : Countable attr.
Proof.
  refine (inj_countable' (λ a, bool_decide (a = MetaAttr)) (λ b : bool, if b then MetaAttr else ShadowAttr) _).
  by intros [].
Defined.

(** ** A file system in memory

    Names, inodes with a mode and attributes, dentries given by their place; [m_root]: dentries
    of directories that always show their inode. *)
Record mvfs := MVfs {
  m_child : gmap (Z * name) Z;
  m_root : gmap Z Z;
  m_place : gmap Z (Z * name);
  m_mode : gmap Z Z;
  m_attr : gmap (Z * attr) (list Z);
  m_next : Z;    (** dentries below are in use *)
  m_ino : Z;     (** the next inode *)
}.

Definition m_inode (w : mvfs) (d : Z) : option Z :=
  match m_place w !! d with Some pn => m_child w !! pn | None => m_root w !! d end.

Definition m_make (w : mvfs) (d mode : Z) : mvfs * Z :=
  match m_place w !! d with
  | Some pn => (w <| m_child ::= <[pn := m_ino w]> |> <| m_mode ::= <[m_ino w := mode]> |> <| m_ino ::= Z.succ |>, 0)
  | None => (w, - ENOENT)
  end.

Definition m_remove (w : mvfs) (d : Z) : mvfs * Z :=
  match m_place w !! d with
  | Some pn => (w <| m_child ::= delete pn |>, 0)
  | None => (w, - ENOENT)
  end.

Definition m_rename (w : mvfs) (o n : Z) : mvfs * Z :=
  match m_place w !! o, m_place w !! n with
  | Some po, Some pn =>
      match m_child w !! po with
      | Some i => (w <| m_child ::= (λ m, <[pn := i]> (delete po m)) |>, 0)
      | None => (w, - ENOENT)
      end
  | _, _ => (w, - ENOENT)
  end.

Definition m_move (w : mvfs) (o n : Z) : mvfs :=
  match m_place w !! o, m_place w !! n with
  | Some po, Some pn => w <| m_place ::= (λ m, <[o := pn]> (<[n := po]> m)) |>
  | _, _ => w
  end.

#[export] Instance mvfs_vfs : Vfs mvfs := {|
  d_inode := m_inode;
  d_parent w d := match m_place w !! d with Some (p, _) => p | None => d end;
  i_mode w i := default 0 (m_mode w !! i);
  i_op w i o := true;
  d_alloc w p n := (w <| m_place ::= <[m_next w := (p, n)]> |> <| m_next ::= Z.succ |>, Some (m_next w));
  i_lookup w dir d := (w, None);
  i_create w dir d mode excl := m_make w d mode;
  i_mkdir w dir d mode := m_make w d mode;
  i_symlink w dir d target := m_make w d 40960;
  i_mknod w dir d mode dev := m_make w d mode;
  i_link w old dir d :=
    match m_inode w old, m_place w !! d with
    | Some i, Some pn => (w <| m_child ::= <[pn := i]> |>, 0)
    | _, _ => (w, - ENOENT)
    end;
  i_unlink w dir d := m_remove w d;
  i_rmdir w dir d := m_remove w d;
  i_rename w od o nd n := m_rename w o n;
  d_delete w d := w;
  d_drop w d := w;
  d_move := m_move;
  d_detach w d := w;
  d_attach w d p := w <| m_place ::= alter (λ pn, (p, pn.2)) d |>;
  dput w d := w;
  set_dead w d := w;
  write_inode_now w i := w;
  vfs_xattr := {|
    vfs_setxattr w k v :=
      match m_inode w k.1 with Some i => (w <| m_attr ::= <[(i, k.2) := v]> |>, 0) | None => (w, - ENOENT) end;
    vfs_getxattr w k size :=
      match m_inode w k.1 with Some i => read_attr (m_attr w !! (i, k.2)) size | None => (- ENOENT, []) end;
    generic_getxattr w k size :=
      match m_inode w k.1 with Some i => read_attr (m_attr w !! (i, k.2)) size | None => (- ENOENT, []) end;
  |};
|}.

#[export] Instance mvfs_view : VfsView mvfs := {|
  child w p n := m_child w !! (p, n);
  place w d := m_place w !! d;
  known w d := d < m_next w;
  attr_of w i a := m_attr w !! (i, a);
|}.

Lemma mvfs_alloc_same (w : mvfs) (p : Z) (n : name) :
  same w (w <| m_place ::= <[m_next w := (p, n)]> |> <| m_next ::= Z.succ |>).
Proof.
  split_and!; [|done|done]. intros d Hd. cbn in *. unfold m_inode; cbn.
  rewrite lookup_insert_ne by lia. split_and!; [lia|done|done].
Qed.

#[export] Instance mvfs_ok : VfsOk mvfs.
Proof.
  constructor.
  - intros w d a size i Hi. cbn in *. by rewrite Hi.
  - intros w d a size i Hi. cbn in *. by rewrite Hi.
  - intros w d a v w' e i Hi E. cbn in *. rewrite Hi in E. injection E as <- <-.
    split_and!; [done|done| |]; cbn.
    + intros _. apply lookup_insert_eq.
    + intros i' a' [?|Hne]; [done|]. by rewrite lookup_insert_ne.
  - intros w dir d w' p n E Hdir (Hk & Hpl & Hi) Hc. cbn in *. unfold m_remove in E. rewrite Hpl in E.
    injection E as <-. split_and!; [done..| |].
    + intros p' n'. cbn. case_decide as Hd; [rewrite Hd; apply lookup_delete_eq|by rewrite lookup_delete_ne].
    + intros d' Hk' Hne. split_and!; [done..|]. unfold m_inode; cbn.
      destruct (m_place w !! d') as [pn|]; [|done]. rewrite lookup_delete_ne; congruence.
  - intros w dir d w' e E Hne. cbn in *. unfold m_remove in E.
    destruct (m_place w !! d); injection E as <- <-; [done|apply same_refl].
  - intros w i. apply same_refl.
  - intros w p n dir w1 d w2 Hk Hdir E1 E2. cbn in *. injection E1 as <- <-. injection E2 as <-.
    split; [apply mvfs_alloc_same|]. split_and!; cbn; [lia|apply lookup_insert_eq|].
    unfold m_inode; cbn. by rewrite lookup_insert_eq.
  - intros w p n dir w1 d w2 d' Hk Hdir E1 E2. by cbn in E2.
Qed.

Lemma mvfs_lookups : lookups_work mvfs.
Proof. intros w p n. eexists _, _. split; [reflexivity|]. by intros dir w2 e. Qed.
