(* ===== verification/SfsNamei.v ===== *)
(** * SFS: names

    Models sfs16/namei.c: normal and shadow directories, replica dentries, the validation of
    partitioned files, lookup, cloning of branches, creation, linking and removal of entries;
    with [sfs_new_inode] of sfs16/inode.c.  Functions that end in [goto out] with an error return
    it; an error pointer is [inl], a NULL pointer [None]. *)
From S2P Require Import Prelude Interfaces SfsDispatch SfsKv SfsDentry SfsVfs.

Definition POINTER : nat := 0.
Definition RENAME : nat := 1.
Definition HIDDEN : nat := 2.
Definition STALE : nat := 3.

Definition S_IFMT : Z := 61440.
Definition S_IFREG : Z := 32768.
Definition S_IFDIR : Z := 16384.
Definition S_IFLNK : Z := 40960.
Definition S_ISDIR (mode : Z) : bool := bool_decide (Z.land mode S_IFMT = S_IFDIR).

(** "normal", with the bytes that follow it in a [char\[8\]]. *)
Definition normal_value : list Z := [110; 111; 114; 109; 97; 108; 0; 0].

(** [!strcmp (value, "normal")] *)
Definition is_normal (value : list Z) : bool := bool_decide (take 7 value = take 7 normal_value).

Definition no_pointers : list Z := [-1; -1; -1; -1].
Definition ptr (p : list Z) (i : nat) : Z := nth i p (-1).

Section namei.
Context {W : Type} `{!Vfs W}.
(** [get_replica_count ()] *)
Variable replica_count : nat.
(** Uninitialised memory: buffers on the stack, and the slab of private data. *)
Variable stack : nat → list Z.
Variable slab : sfs_dentry.
(** [kmalloc_ok n]: the outcome of the [n]-th allocation. *)
Variable kmalloc_ok : nat → bool.

Abbreviation N := (SfsVfs.N W).

Definition kmalloc : N bool := λ s, Ok (kmalloc_ok (s_allocs s), s <| s_allocs ::= S |>).

(** ** Attributes *)
Definition kv_get (d : Z) (value : list Z) : N (list Z * Z) :=
  λ s, r ← get stack (s_vfs s) (d, MetaAttr) value; Ok (r, s).
Definition kv_set (op : W → res (W * Z)) : N Z :=
  λ s, '(w, err) ← op (s_vfs s); Ok (err, s <| s_vfs := w |>).
Definition kv_put (d : Z) (value : list Z) : N Z := kv_set (λ w, put stack w (d, MetaAttr) value).
Definition kv_reset (d : Z) : N Z := kv_set (λ w, reset stack w (d, MetaAttr)).
Definition kv_modify (d value : Z) (sequence : nat) : N Z :=
  kv_set (λ w, modify stack w (d, MetaAttr) value (Z.of_nat sequence)).

(** ** Helpers *)

(** The callers pass [parent->d_inode]. *)
Definition dir_inode (p : option Z) : N (option Z) := p ← deref p; inode p.

Definition simple_unlink_not_put (replica_dir : option Z) (replica_dentry : Z) : N Z :=
  dir ← deref replica_dir;
  i ← inode replica_dentry; _ ← deref i;
  error ← call (λ w, i_unlink w dir replica_dentry);
  if decide (error = 0) then _ ← effect (λ w, d_delete w replica_dentry); mret error
  else mret error.

Definition simple_unlink (replica_dir : option Z) (replica_dentry : Z) : N Z :=
  error ← simple_unlink_not_put replica_dir replica_dentry;
  if decide (error = 0) then _ ← effect (λ w, dput w replica_dentry); mret error
  else mret error.

(** The test of the count ends in a semicolon: the assignment that follows it is always made. *)
Definition check_normal_dir (parent replica_id : Z) : N Z :=
  r ← replica parent replica_id;
  replica_parent ← deref r;
  '(ret, data) ← observe (λ w, vfs_getxattr w (replica_parent, ShadowAttr) 8);
  if decide (0 < ret ∧ is_normal (fill (stack 8) data) = true) then
    _ ← set_D parent (λ d, d <| first_normal_dir_id := replica_id |>
                             <| normal_dir_count ::= Z.succ |>
                             <| normal_dir_map ::= λ m, set_bitmap m replica_id |>);
    mret 1
  else mret 0.

Definition set_normal_dir (parent replica_id : Z) : N Z :=
  sfs_parent ← SFS_D parent;
  if decide (test_bitmap (normal_dir_map sfs_parent) replica_id ≠ 0) then mret 0 else
  r ← replica parent replica_id;
  replica_parent ← deref r;
  error ← call (λ w, vfs_setxattr w (replica_parent, ShadowAttr) normal_value);
  if decide (error = 0) then
    _ ← set_D parent (λ d, (if decide (normal_dir_count d = 0)
                            then d <| first_normal_dir_id := replica_id |> else d)
                             <| normal_dir_count ::= Z.succ |>
                             <| normal_dir_map ::= λ m, set_bitmap m replica_id |>);
    mret error
  else mret error.

Definition can_turn2normal (dentry replica_id : Z) : N bool :=
  d ← SFS_D dentry;
  let threshold := if decide (Z.of_nat replica_count < SPAN_THRESHOLD)
                   then Z.of_nat replica_count else SPAN_THRESHOLD in
  mret (negb (bool_decide (test_bitmap (normal_dir_map d) replica_id = 0 ∧
                           threshold ≤ normal_dir_count d))).

Definition d_add_replica (dentry replica_dentry replica_id : Z) : N () :=
  r ← replica dentry replica_id;
  match r with
  | Some _ => mret ()
  | None => set_D dentry (λ d, d <| replicas ::= <[Z.to_nat replica_id := Some replica_dentry]> |>)
  end.

Definition clean_replica_dentry (d : Z) : N () := effect (λ w, d_detach w d).
Definition instantiate_replica_dentry (d replica_parent : Z) : N () :=
  effect (λ w, d_attach w d replica_parent).

Definition sfs_lookup_one_len (nm : name) (replica_parent : Z) : N (Z + Z) :=
  b ← inode replica_parent;
  new ← call (λ w, d_alloc w replica_parent nm);
  base ← deref b;
  new ← deref new;
  old ← call (λ w, i_lookup w base new);
  match old with
  | None => mret (inr new)
  | Some old => _ ← effect (λ w, dput w new); mret old
  end.

Definition get_replica_dentry (replica_parent : option Z) (dentry replica_id : Z) : N (Z + Z) :=
  r ← replica dentry replica_id;
  match r with
  | Some d => mret (inr d)
  | None =>
      sd ← SFS_D dentry;
      match unused_replica_dentry sd with
      | Some d =>
          _ ← clean_replica_dentry d;
          p ← deref replica_parent;
          _ ← instantiate_replica_dentry d p;
          _ ← set_D dentry (λ sd, sd <| unused_replica_dentry := None |>);
          _ ← d_add_replica dentry d replica_id;
          mret (inr d)
      | None =>
          p ← deref replica_parent;
          i ← inode p; _ ← deref i;
          x ← node dentry;
          r ← sfs_lookup_one_len (n_name x) p;
          match r with
          | inl err => mret (inl err)
          | inr d => _ ← d_add_replica dentry d replica_id; mret (inr d)
          end
      end
  end.

(** ** Validation of partitioned files

    [unlink_in parent d]: [simple_unlink_not_put (parent->d_inode, d)], and when it succeeds and
    [sync] is set, [write_inode_now (parent->d_inode, 1)]. *)
Definition unlink_in (parent : option Z) (d : Z) (sync : bool) : N Z :=
  dir ← dir_inode parent;
  err ← simple_unlink_not_put dir d;
  if decide (err ≠ 0) then mret err else
  if sync then i ← deref dir; _ ← effect (λ w, write_inode_now w i); mret 0 else mret 0.

(** The replica of [dentry] that a pointer names: its parent, and the dentry, used without a test
    for an error pointer. *)
Definition follow (dentry parent id : Z) : N (option Z * Z) :=
  rp ← replica parent id;
  r ← get_replica_dentry rp dentry id;
  d ← deref_err r;
  mret (rp, d).

(** Unlink what a pointer names, if it is there. *)
Definition unlink_pointed (dentry parent id : Z) (sync : bool) : N Z :=
  '(rp, d) ← follow dentry parent id;
  i ← inode d;
  if decide (is_Some i) then unlink_in rp d sync else mret 0.

(** Condition 0: a file hidden by this one is left over. *)
Definition recover_stale (dentry parent local_id local_dentry : Z) (pointer : list Z) : N Z :=
  let stale_id := ptr pointer STALE in
  '(stale_parent, stale_dentry) ← follow dentry parent stale_id;
  i ← inode stale_dentry;
  err ← (if decide (is_Some i) then
           '(data_pointer, ret) ← kv_get stale_dentry no_pointers;
           err ← (if decide (0 < ret ∧ ptr data_pointer POINTER ≠ -1)
                  then unlink_pointed dentry parent (ptr data_pointer POINTER) true else mret 0);
           if decide (err ≠ 0) then mret err else unlink_in stale_parent stale_dentry true
         else mret 0);
  if decide (err ≠ 0) then mret err else
  err ← kv_reset local_dentry;
  if decide (err ≠ 0) then mret err else
  _ ← set_D dentry (set_replica_id local_id);
  mret 0.

(** Condition 1: the file is hidden.  [None]: go on with the next condition. *)
Definition recover_hidden (dentry parent local_id : Z) (local_parent : option Z) (local_dentry : Z)
    (pointer : list Z) : N (option Z) :=
  let remote_id := ptr pointer HIDDEN in
  '(_, remote_dentry) ← follow dentry parent remote_id;
  i ← inode remote_dentry;
  if decide (is_Some i) then
    let stale_id := ptr pointer POINTER in
    err ← (if decide (stale_id ≠ -1) then unlink_pointed dentry parent stale_id false else mret 0);
    if decide (err ≠ 0) then mret (Some err) else
    err ← unlink_in local_parent local_dentry true;
    if decide (err ≠ 0) then mret (Some err) else
    err ← kv_reset remote_dentry;
    if decide (err ≠ 0) then mret (Some err) else
    _ ← d_add_replica dentry remote_dentry remote_id;
    _ ← set_D dentry (set_replica_id remote_id);
    mret (Some 0)
  else
    err ← kv_modify local_dentry (-1) HIDDEN;
    if decide (err ≠ 0) then mret (Some err) else
    _ ← set_D dentry (set_replica_id local_id);
    mret None.

(** Condition 2: the file points to the target of a rename. *)
Definition recover_rename (dentry parent local_id local_dentry : Z) (pointer : list Z)
    : N (option Z) :=
  let remote_id := ptr pointer RENAME in
  if decide (remote_id = local_id) then
    err ← kv_reset local_dentry;
    if decide (err ≠ 0) then mret (Some err) else
    _ ← set_D dentry (set_replica_id local_id);
    mret (Some 0)
  else
    '(_, remote_dentry) ← follow dentry parent remote_id;
    i ← inode remote_dentry;
    if decide (is_Some i) then
      err ← (if decide (0 ≤ ptr pointer POINTER)
             then unlink_pointed dentry parent (ptr pointer POINTER) false else mret 0);
      if decide (err ≠ 0) then mret (Some err) else
      err ← kv_put local_dentry [remote_id; -1; -1; -1];
      if decide (err ≠ 0) then mret (Some err) else
      _ ← d_add_replica dentry remote_dentry remote_id;
      _ ← set_D dentry (set_replica_id remote_id);
      _ ← set_D dentry (set_meta_id local_id);
      mret (Some 0)
    else
      err ← kv_modify local_dentry (-1) RENAME;
      if decide (err ≠ 0) then mret (Some err) else mret None.

(** Condition 3: a partitioned file, or a data file. *)
Definition recover_pointer (dentry parent local_id : Z) (local_parent : option Z) (local_dentry : Z)
    (pointer : list Z) : N Z :=
  if decide (0 ≤ ptr pointer POINTER) then
    let remote_id := ptr pointer POINTER in
    '(_, remote_dentry) ← follow dentry parent remote_id;
    i ← inode remote_dentry;
    if decide (is_Some i) then
      '(data_pointer, ret) ← kv_get remote_dentry no_pointers;
      err ← (if decide (ret ≤ 0 ∨ ptr data_pointer POINTER ≠ local_id)
             then kv_put remote_dentry [local_id; -1; -1; -1] else mret 0);
      if decide (err ≠ 0) then mret err else
      _ ← d_add_replica dentry remote_dentry remote_id;
      _ ← set_D dentry (set_replica_id remote_id);
      _ ← set_D dentry (set_meta_id local_id);
      mret 0
    else unlink_in local_parent local_dentry false
  else _ ← set_D dentry (set_replica_id local_id); mret 0.

Definition validate_partitioned_file (dentry local_id : Z) : N Z :=
  x ← node dentry;
  let parent := n_parent x in
  ld ← replica dentry local_id;
  local_parent ← replica parent local_id;
  local_dentry ← deref ld;
  '(pointer, ret) ← kv_get local_dentry no_pointers;
  if decide (0 < ret) then
    if decide (0 ≤ ptr pointer STALE) then recover_stale dentry parent local_id local_dentry pointer else
    r ← (if decide (0 ≤ ptr pointer HIDDEN)
         then recover_hidden dentry parent local_id local_parent local_dentry pointer else mret None);
    match r with
    | Some err => mret err
    | None =>
        r ← (if decide (0 ≤ ptr pointer RENAME)
             then recover_rename dentry parent local_id local_dentry pointer else mret None);
        match r with
        | Some err => mret err
        | None => recover_pointer dentry parent local_id local_parent local_dentry pointer
        end
    end
  else _ ← set_D dentry (set_replica_id local_id); mret 0.

Definition validate_file (dentry : Z) : N Z :=
  d ← SFS_D dentry;
  validate_partitioned_file dentry (if decide (meta_id d ≠ -1) then meta_id d else replica_id d).

(** [clean_dentry]: the references are put. *)
Definition do_clean_dentry (dentry : Z) : N () :=
  x ← node dentry;
  '(fs, evs) ← ((λ s, r ← clean_dentry replica_count (n_fs x); Ok (r, s)) : N _);
  _ ← effect (λ w, foldl dput w (puts evs));
  set_node dentry (λ x, x <| n_fs := fs |>).

(** [sfs_new_inode]: the result of [new_inode] is used before it is tested. *)
Definition sfs_new_inode (mode : Z) : N (Z + Z) :=
  ok ← kmalloc;
  if (ok : bool) then
    if decide (Z.land mode S_IFMT = S_IFREG ∨ Z.land mode S_IFMT = S_IFDIR ∨ Z.land mode S_IFMT = S_IFLNK)
    then mret (inr mode) else mret (inl (- EIO))
  else crash.

(** ** Lookup

    One visit of replica [loop].  [new]: a negative dentry left from an earlier replica.  The next
    value of [fullscan], [loop], [new], [found] and the mode, or the value returned. *)
Inductive scan :=
  | Continue (fullscan : bool) (loop : Z) (new : option Z) (found : bool) (mode : Z)
  | Done (found : bool) (mode : Z)
  | Fail (err : Z).

Definition visit (dentry parent : Z) (fullscan : bool) (loop : Z) (new : option Z) (found : bool) (mode : Z)
    : N scan :=
  sp ← SFS_D parent;
  if decide (fullscan = false ∧ test_bitmap (normal_dir_map sp) loop = 0)
  then mret (Continue fullscan (loop + 1) new found mode) else
  rp ← replica parent loop;
  match rp with
  | None => mret (Continue fullscan (loop + 1) new found mode)
  | Some replica_parent =>
      b ← inode replica_parent;
      match b with
      | None => mret (Continue fullscan (loop + 1) new found mode)
      | Some base =>
          r ← replica dentry loop;
          match r with
          | Some _ => mret (Continue fullscan (loop + 1) new found mode)
          | None =>
              x ← node dentry;
              n ← (match new with
                   | None => o ← call (λ w, d_alloc w replica_parent (n_name x)); deref o
                   | Some n => _ ← clean_replica_dentry n;
                               _ ← instantiate_replica_dentry n replica_parent; mret n
                   end);
              old ← call (λ w, i_lookup w base n);
              r ← (match old with
                   | None => mret (inr n)
                   | Some old => _ ← effect (λ w, dput w n); mret old
                   end);
              match r with
              | inl err => mret (Fail err)
              | inr n =>
                  i ← inode n;
                  match i with
                  | None => mret (Continue fullscan (loop + 1) (Some n) found mode)
                  | Some i =>
                      _ ← d_add_replica dentry n loop;
                      mode ← observe (λ w, i_mode w i);
                      if S_ISDIR mode then
                        err ← check_normal_dir dentry loop;
                        if decide (err < 0) then _ ← do_clean_dentry dentry; mret (Fail err) else
                        mret (Continue true (if fullscan then loop + 1 else 0) None true mode)
                      else
                        err ← validate_partitioned_file dentry loop;
                        if decide (err ≠ 0) then _ ← do_clean_dentry dentry; mret (Fail err) else
                        d ← SFS_D dentry;
                        mret (Done (bool_decide (replica_id d ≠ -1)) mode)
                  end
              end
          end
      end
  end.

Fixpoint scan_replicas (fuel : nat) (dentry parent : Z) (fullscan : bool) (loop : Z) (new : option Z)
    (found : bool) (mode : Z) : N scan :=
  match fuel with
  | O => no_fuel
  | S fuel =>
      if decide (loop < Z.of_nat replica_count) then
        r ← visit dentry parent fullscan loop new found mode;
        match r with
        | Continue fullscan loop new found mode => scan_replicas fuel dentry parent fullscan loop new found mode
        | _ => mret r
        end
      else
        match new with
        | Some n => _ ← effect (λ w, dput w n); mret (Done found mode)
        | None => mret (Done found mode)
        end
  end.

(** The value returned: 0 or an error ([d_splice_alias] makes the dentry positive when [found]). *)
Definition sfs_lookup (dentry : Z) : N Z :=
  x ← node dentry;
  ok1 ← kmalloc; ok2 ← kmalloc;
  let '(fs, r) := sfs_dentry_alloc replica_count slab ok1 ok2 (n_fs x) in
  _ ← set_node dentry (λ x, x <| n_fs := fs |>);
  match r with
  | inl _ => mret (- ENOMEM)
  | inr _ =>
      (* two passes over the replicas at most *)
      r ← scan_replicas (2 * replica_count + 2) dentry (n_parent x) false 0 None false 0;
      match r with
      | Done true mode =>
          i ← sfs_new_inode mode;
          match i with
          | inl err => mret err
          | inr m => _ ← set_node dentry (λ x, x <| n_mode := Some m |> <| n_nlink := 1 |>); mret 0
          end
      | Done false _ => mret 0
      | Fail err => mret err
      | Continue _ _ _ _ _ => mret 0   (* not returned by [scan_replicas] *)
      end
  end.

(** ** Cloning a branch

    From [dentry] up to the first ancestor that exists in the replica: the ancestor's replica
    dentry and the SFS dentries passed, topmost first.  [depth] bounds the way to the root.  The test
    for [s_data_root] never holds: that field is only set for the replicas, NULL in the super block of SFS. *)
Fixpoint collect_path (depth : nat) (tmp replica_id : Z) (path : list Z) : N (Z + Z * list Z) :=
  match depth with
  | O => no_fuel
  | S depth =>
      ok ← kmalloc;
      if (ok : bool) then
        found ← replica tmp replica_id;
        x ← node tmp;
        match found with
        | None => collect_path depth (n_parent x) replica_id (tmp :: path)
        | Some f =>
            i ← inode f;
            if decide (is_Some i) then mret (inr (f, path))
            else collect_path depth (n_parent x) replica_id (tmp :: path)
        end
      else mret (inl (- ENOMEM))
  end.

(** Make the directories of the path; the last one. *)
Fixpoint make_path (tmp replica_id : Z) (path : list Z) (last : Z + Z) : N (Z + Z) :=
  match path with
  | [] => mret last
  | n :: path =>
      dir ← inode tmp;
      r ← get_replica_dentry (Some tmp) n replica_id;
      match r with
      | inl err => mret (inl err)
      | inr d =>
          x ← node n;
          mode ← deref (n_mode x);
          i ← inode d;
          if decide (is_Some i) then make_path d replica_id path (inr d) else
          dir ← deref dir;
          err ← call (λ w, i_mkdir w dir d mode);
          if decide (err ≠ 0) then mret (inl err) else make_path d replica_id path (inr d)
      end
  end.

Definition sfs_clone_branch (depth : nat) (dentry replica_id : Z) : N (Z + Z) :=
  r ← collect_path depth dentry replica_id [];
  match r with
  | inl err => mret (inl err)
  | inr (found, path) => make_path found replica_id path (inl (- EIO))
  end.

(** ** Adding entries *)

(** The depth of the SFS tree. *)
Variable depth : nat.

Definition create_replica_dir (dentry replica_id clone_type : Z) : N (Z + Z) :=
  r ← replica dentry replica_id;
  p ← present r;
  r ← (match r with
       | Some d => if (p : bool) then mret (inr d) else sfs_clone_branch depth dentry replica_id
       | None => sfs_clone_branch depth dentry replica_id
       end);
  match r with
  | inl err => mret (inl err)
  | inr d =>
      if decide (clone_type = CLONE_NORMAL) then
        err ← set_normal_dir dentry replica_id;
        if decide (err ≠ 0) then mret (inl err) else mret (inr d)
      else mret (inr d)
  end.

(** [struct add_arg]: the union by its member in use. *)
Inductive add_what :=
  | ACreat (excl : bool)
  | AMkdir
  | ASymlink (oldname : name)
  | AMknod (dev : Z)
  | ALink (old_replica_dentry : option Z).

Record add_arg := AddArg { a_what : add_what; a_mode : Z }.

Definition simple_add_dir_entry (dentry mode replica_id clone_type : Z) : N Z :=
  x ← node dentry;
  r ← create_replica_dir (n_parent x) replica_id clone_type;
  match r with
  | inl err => mret err
  | inr replica_parent =>
      i ← inode replica_parent;
      replica_dir ← deref i;
      has ← observe (λ w, i_op w replica_dir Mkdir);
      if negb has then mret (- EACCES) else
      r ← replica dentry replica_id;
      p ← present r;
      if (p : bool) then mret 0 else
      r ← get_replica_dentry (Some replica_parent) dentry replica_id;
      match r with
      | inl err => mret err
      | inr new => call (λ w, i_mkdir w replica_dir new mode)
      end
  end.

Definition clear_nlink (dentry : Z) : N () := set_node dentry (λ x, x <| n_nlink := 0 |>).
Definition d_instantiate (dentry mode : Z) : N () :=
  set_node dentry (λ x, x <| n_mode := Some mode |> <| n_nlink := 1 |>).

Definition next_dispatch : N Z :=
  λ s, let '(l, r) := dispatch (Z.of_nat replica_count) (s_last s) in Ok (r, s <| s_last := l |>).

Definition sfs_add_dir_entry (dentry : Z) (arg : add_arg) : N Z :=
  x ← node dentry;
  let parent := n_parent x in
  d ← SFS_D parent;
  dispatch_id ← (if decide (normal_dir_count d = 0) then next_dispatch else mret (first_normal_dir_id d));
  let mode := Z.lor (a_mode arg) S_IFDIR in
  i ← sfs_new_inode mode;
  match i with
  | inl err => mret err
  | inr m =>
      err ← simple_add_dir_entry dentry mode dispatch_id CLONE_NORMAL;
      if decide (err = 0) then
        _ ← set_node parent (λ x, x <| n_nlink ::= Z.succ |>);
        _ ← d_instantiate dentry m; mret 0
      else mret err
  end.

(** The two halves of a partitioned entry: a step of the [switch], with its early exits. *)
Definition add_halves (arg : add_arg) (local_dir remote_dir local_new remote_new local_id remote_id : Z) : N Z :=
  let pointed (make : N Z) :=
    err ← call (λ w, i_create w local_dir local_new (a_mode arg)
                       (match a_what arg with ACreat excl => excl | _ => false end));
    if decide (err ≠ 0) then mret err else
    err ← kv_put local_new [remote_id; -1; -1; -1];
    if decide (err ≠ 0) then mret err else
    err ← make;
    if decide (err ≠ 0) then mret err else
    kv_put remote_new [local_id; -1; -1; -1] in
  match a_what arg with
  | ACreat excl => pointed (call (λ w, i_create w remote_dir remote_new (a_mode arg) excl))
  | ALink old =>
      pointed (o ← deref old; i ← inode o; _ ← deref i; call (λ w, i_link w o remote_dir remote_new))
  | _ => mret (- EIO)
  end.

(** The second test looks at [local_new] again: a failed lookup of the remote dentry goes on as
    an error pointer. *)
Definition simple_add_partitioned_entry (dentry : Z) (arg : add_arg) (local_id remote_id : Z) : N Z :=
  x ← node dentry;
  let parent := n_parent x in
  r ← create_replica_dir parent local_id CLONE_NORMAL;
  match r with
  | inl err => mret err
  | inr local_parent =>
      r ← create_replica_dir parent remote_id CLONE_SHADOW;
      match r with
      | inl err => mret err
      | inr remote_parent =>
          li ← inode local_parent;
          ri ← inode remote_parent;
          r ← get_replica_dentry (Some local_parent) dentry local_id;
          match r with
          | inl err => mret err
          | inr local_new =>
              r ← get_replica_dentry (Some remote_parent) dentry remote_id;
              remote_new ← deref_err r;
              local_dir ← deref li;
              remote_dir ← deref ri;
              add_halves arg local_dir remote_dir local_new remote_new local_id remote_id
          end
      end
  end.

Definition op_of (a : add_what) : op_type :=
  match a with
  | ACreat _ => Creat | AMkdir => Mkdir | ASymlink _ => Symlink | AMknod _ => Mknod | ALink _ => Link
  end.

Definition simple_add_entry (dentry : Z) (arg : add_arg) (local_id : Z) : N Z :=
  x ← node dentry;
  let parent := n_parent x in
  r ← create_replica_dir parent local_id CLONE_NORMAL;
  match r with
  | inl err => mret err
  | inr replica_parent =>
      ri ← inode replica_parent;
      r ← get_replica_dentry (Some replica_parent) dentry local_id;
      match r with
      | inl err => mret err
      | inr new =>
          replica_dir ← deref ri;
          has ← observe (λ w, i_op w replica_dir (op_of (a_what arg)));
          if negb has then mret (- EACCES) else
          match a_what arg with
          | ACreat excl => call (λ w, i_create w replica_dir new (a_mode arg) excl)
          | AMkdir => call (λ w, i_mkdir w replica_dir new (a_mode arg))
          | ASymlink oldname => call (λ w, i_symlink w replica_dir new oldname)
          | AMknod dev => call (λ w, i_mknod w replica_dir new (a_mode arg) dev)
          | ALink old =>
              o ← deref old; i ← inode o; _ ← deref i;
              call (λ w, i_link w o replica_dir new)
          end
      end
  end.

Definition do_local_dispatch (parent : Z) : N Z :=
  d ← SFS_D parent;
  '(d, id) ← ((λ s, '(d, last, id) ← local_dispatch (Z.of_nat replica_count) d (s_last s);
                Ok ((d, id), s <| s_last := last |>)) : N _);
  _ ← set_D parent (λ _, d);
  mret id.

(** [local_dispatch] never sets [partitioned_id]. *)
Definition sfs_add_entry (dentry : Z) (arg : add_arg) : N Z :=
  x ← node dentry;
  dispatch_id ← do_local_dispatch (n_parent x);
  let partitioned_id := -1 in
  i ← sfs_new_inode (a_mode arg);
  match i with
  | inl err => mret err
  | inr m =>
      err ← (if decide (partitioned_id = -1) then simple_add_entry dentry arg dispatch_id
             else simple_add_partitioned_entry dentry arg dispatch_id partitioned_id);
      if decide (err = 0) then
        _ ← (if decide (partitioned_id = -1) then set_D dentry (set_replica_id dispatch_id)
             else _ ← set_D dentry (set_replica_id partitioned_id); set_D dentry (set_meta_id dispatch_id));
        _ ← d_instantiate dentry m; mret err
      else mret err
  end.

Definition sfs_create (dentry mode : Z) (excl : bool) : N Z := sfs_add_entry dentry (AddArg (ACreat excl) mode).
Definition sfs_mkdir (dentry mode : Z) : N Z := sfs_add_dir_entry dentry (AddArg AMkdir mode).
(** [arg.mode] is left 0. *)
Definition sfs_symlink (dentry : Z) (oldname : name) : N Z := sfs_add_entry dentry (AddArg (ASymlink oldname) 0).
Definition sfs_mknod (dentry mode rdev : Z) : N Z := sfs_add_entry dentry (AddArg (AMknod rdev) mode).

(** ** Removing entries *)

Definition sfs_dec_count (dentry : Z) : N () :=
  x ← node dentry;
  mode ← deref (n_mode x);
  if decide (S_ISDIR mode = false ∨ 2 < n_nlink x) then set_node dentry (λ x, x <| n_nlink ::= Z.pred |>)
  else mret ().

(** Remove the directory in one replica. *)
Definition rmdir_replica (replica_dentry : Z) : N Z :=
  replica_parent ← observe (λ w, d_parent w replica_dentry);
  i ← inode replica_parent;
  replica_dir ← deref i;
  i ← inode replica_dentry; _ ← deref i;
  error ← call (λ w, i_rmdir w replica_dir replica_dentry);
  if decide (error ≠ 0) then mret error else
  _ ← effect (λ w, d_delete (set_dead w replica_dentry) replica_dentry);
  mret 0.

(** [inl]: the loop is left by [goto err_out]. *)
Fixpoint rmdir_others (n : nat) (loop dentry skip error : Z) : N (Z + Z) :=
  match n with
  | O => mret (inr error)
  | S n =>
      if decide (loop = skip) then rmdir_others n (loop + 1) dentry skip error else
      r ← replica dentry loop;
      p ← present r;
      match r with
      | Some d =>
          if (p : bool) then
            error ← rmdir_replica d;
            if decide (error ≠ 0) then mret (inl error) else rmdir_others n (loop + 1) dentry skip error
          else rmdir_others n (loop + 1) dentry skip error
      | None => rmdir_others n (loop + 1) dentry skip error
      end
  end.

(** When no replica was removed and the parent has no normal directory, [-ENOENT] is returned but
    the dentry is cleaned all the same. *)
Definition sfs_rmdir (dentry : Z) : N Z :=
  x ← node dentry;
  d ← SFS_D (n_parent x);
  let parent_normal_dir_id := if decide (0 < normal_dir_count d) then first_normal_dir_id d else -1 in
  r ← rmdir_others replica_count 0 dentry parent_normal_dir_id (- ENOENT);
  finish ← (match r with
            | inl error => mret (inl error)
            | inr error =>
            if decide (parent_normal_dir_id < 0) then mret (inr error) else
            r ← replica dentry parent_normal_dir_id;
            p ← present r;
            match r with
            | Some rd => if (p : bool) then
                           error ← rmdir_replica rd;
                           mret (if decide (error ≠ 0) then inl error else inr error)
                         else mret (inl (- EIO))
            | None => mret (inl (- EIO))
            end
            end);
  match finish with
  | inl error => mret error
  | inr error =>
      _ ← clear_nlink dentry;
      _ ← do_clean_dentry dentry;
      mret error
  end.

(** First the data, then the pointer to it. *)
Definition delete_partitioned_file (dentry : Z) : N Z :=
  d ← SFS_D dentry;
  l ← replica dentry (meta_id d); r ← replica dentry (replica_id d);
  local ← deref l; remote ← deref r;
  lp ← observe (λ w, d_parent w local); rp ← observe (λ w, d_parent w remote);
  local_dir ← inode lp; remote_dir ← inode rp;
  error ← simple_unlink_not_put remote_dir remote;
  if decide (error ≠ 0) then mret error else simple_unlink_not_put local_dir local.

Definition sfs_unlink (dentry : Z) : N Z :=
  error ← validate_file dentry;
  if decide (error ≠ 0) then mret error else
  d ← SFS_D dentry;
  error ← (if decide (meta_id d ≠ -1) then delete_partitioned_file dentry else
           r ← replica dentry (replica_id d);
           rd ← deref r;
           rp ← observe (λ w, d_parent w rd);
           dir ← inode rp;
           simple_unlink_not_put dir rd);
  if decide (error = 0) then
    _ ← set_node dentry (λ x, x <| n_nlink ::= Z.pred |>);
    _ ← do_clean_dentry dentry;
    mret error
  else mret error.

Definition do_select_normal_dir_rr (parent : Z) : N Z :=
  d ← SFS_D parent;
  '(d, id) ← ((λ s, r ← select_normal_dir_rr (Z.of_nat replica_count) d; Ok (r, s)) : N _);
  _ ← set_D parent (λ _, d);
  mret id.

(** [new_meta_id] is unsigned; [-1] stands for its largest value. *)
Definition sfs_link (old_dentry new_dentry : Z) : N Z :=
  od ← SFS_D old_dentry;
  old_replica_dentry ← replica old_dentry (replica_id od);
  x ← node new_dentry;
  can ← can_turn2normal (n_parent x) (replica_id od);
  new_meta_id ← (if (can : bool) then mret (-1) else do_select_normal_dir_rr (n_parent x));
  ox ← node old_dentry;
  mode ← deref (n_mode ox);
  i ← sfs_new_inode mode;
  match i with
  | inl err => mret err
  | inr m =>
      let arg := AddArg (ALink old_replica_dentry) mode in
      err ← (if decide (new_meta_id = -1) then simple_add_entry new_dentry arg (replica_id od)
             else simple_add_partitioned_entry new_dentry arg new_meta_id (replica_id od));
      if decide (err = 0) then
        _ ← d_instantiate new_dentry m;
        _ ← set_D new_dentry (set_replica_id (replica_id od));
        _ ← (if decide (new_meta_id = -1) then mret () else set_D new_dentry (set_meta_id new_meta_id));
        mret err
      else mret err
  end.
End namei.
