(* ===== verification/SfsLookup.v ===== *)
(** * SFS: lookup and creation, termination and errors

    [sfs_lookup] of sfs16/namei.c visits the replicas in a loop that it restarts once, when it meets
    the first directory; the bound of the model's loop is enough.  And the modes of new entries
    that [sfs_new_inode] of sfs16/inode.c refuses. *)
From S2P Require Import Prelude Interfaces SfsDispatch SfsKv SfsDentry SfsVfs SfsView SfsNamei.

(** ** Code that does not run out of fuel *)
Create HintDb ends.

Definition res_ends {A} (r : res A) : Prop := r ≠ NoFuel.

Lemma res_ends_Ok {A} (a : A) : res_ends (Ok a).
Proof. done. Qed.
Lemma res_ends_Oops {A} : res_ends (@Oops A).
Proof. done. Qed.
Lemma res_ends_bind {A B} (m : res A) (f : A → res B) : res_ends m → (∀ a, res_ends (f a)) → res_ends (m ≫= f).
Proof. intros Hm Hf. destruct m as [a| |]; [apply Hf|done|done]. Qed.
Lemma res_ends_lift {A} (o : option A) : res_ends (lift o).
Proof. by destruct o. Qed.

#[export] Hint Resolve res_ends_Ok res_ends_Oops res_ends_lift : ends.

Ltac res_ends :=
  repeat first [ solve [eauto with ends] | apply res_ends_bind; [|intros ?] | case_decide | case_match ].

Lemma res_ends_find d i : res_ends (find_replica_dentry d i).
Proof. unfold find_replica_dentry. res_ends. Qed.
Lemma res_ends_sprintf4 buf v : res_ends (sprintf4 buf v).
Proof. unfold sprintf4. res_ends. Qed.
Lemma res_ends_skip_spaces s : res_ends (skip_spaces s).
Proof. induction s; simpl; res_ends. Qed.
Lemma res_ends_scan_digits s acc : res_ends (scan_digits s acc).
Proof. revert acc. induction s; intros acc; simpl; res_ends. Qed.
#[export] Hint Resolve res_ends_find res_ends_sprintf4 res_ends_skip_spaces res_ends_scan_digits : ends.

Lemma res_ends_sscanf n i s value : res_ends (sscanf_from n i s value).
Proof. revert i s value. induction n; intros i s value; simpl; [res_ends|]. unfold scan_d. res_ends. Qed.
#[export] Hint Resolve res_ends_sscanf : ends.

Lemma res_ends_put_replicas n loop d : res_ends (put_replicas n loop d).
Proof. revert loop. induction n; intros loop; simpl; res_ends. Qed.
#[export] Hint Resolve res_ends_put_replicas : ends.

Section monad.
Context {W : Type}.

Definition ends {A} (m : N W A) : Prop := ∀ s, res_ends (m s).

Lemma ends_ret {A} (a : A) : ends (mret a).
Proof. by intros s. Qed.
Lemma ends_bind {A B} (m : N W A) (f : A → N W B) : ends m → (∀ a, ends (f a)) → ends (m ≫= f).
Proof. intros Hm Hf s. unfold mbind, N_bind. apply res_ends_bind; [apply Hm|]. intros [a s']. apply Hf. Qed.
Lemma ends_lifted {A} (r : res A) : res_ends r → ends (λ s, a ← r; Ok (a, s)).
Proof. intros Hr s. res_ends. Qed.
Lemma ends_deref {A} (o : option A) : ends (deref o).
Proof. apply ends_lifted. res_ends. Qed.
Lemma ends_observe {A} (f : W → A) : ends (observe f).
Proof. by intros s. Qed.
Lemma ends_call {A} (f : W → W * A) : ends (call f).
Proof. intros s. unfold call. by destruct (f (s_vfs s)). Qed.
Lemma ends_effect (f : W → W) : ends (effect f).
Proof. by intros s. Qed.
Lemma ends_node n : ends (node n).
Proof. intros s. unfold node. res_ends. Qed.
End monad.

(** ** Values returned *)
Definition returns {W A} (m : N W A) (P : A → Prop) : Prop := ∀ s a s', m s = Ok (a, s') → P a.

Section returns.
Context {W : Type}.

Lemma returns_ret {A} (a : A) P : P a → returns (W := W) (mret a) P.
Proof. intros H s b s' [= <- <-]. done. Qed.
Lemma returns_bind {A B} (m : N W A) (f : A → N W B) P : (∀ a, returns (f a) P) → returns (m ≫= f) P.
Proof.
  intros Hf s b s' H. unfold mbind, N_bind in H. apply res_bind_Ok in H as ([a s1] & _ & H). by eapply Hf.
Qed.
End returns.

#[export] Hint Resolve ends_ret ends_deref ends_observe ends_call ends_effect ends_node : ends.

Ltac ends := repeat first [ solve [eauto with ends] | apply ends_bind; [|intros ?] | case_decide | case_match ].

Section lookup.
Context {W : Type} `{!Vfs W}.
Variable replica_count : nat.
Variable stack : nat → list Z.
Variable slab : sfs_dentry.
Variable kmalloc_ok : nat → bool.

Lemma ends_set_node n f : ends (W := W) (set_node n f).
Proof. apply ends_bind; [ends|]. by intros x s. Qed.
#[local] Hint Resolve ends_set_node : ends.
Lemma ends_SFS_D n : ends (W := W) (SFS_D n).
Proof. unfold SFS_D. ends. Qed.
#[local] Hint Resolve ends_SFS_D : ends.
Lemma ends_set_D n f : ends (W := W) (set_D n f).
Proof. unfold set_D. ends. Qed.
Lemma ends_replica n i : ends (W := W) (replica n i).
Proof. unfold replica. ends. apply ends_lifted. res_ends. Qed.
Lemma ends_inode d : ends (W := W) (inode d).
Proof. unfold inode. ends. Qed.
#[local] Hint Resolve ends_set_D ends_replica ends_inode : ends.
Lemma ends_deref_err {A} (r : Z + A) : ends (W := W) (deref_err r).
Proof. destruct r; [by intros s|]. cbn. ends. Qed.
Lemma ends_kv_get d value : ends (W := W) (kv_get stack d value).
Proof. intros s. unfold kv_get, get, sscanf4. res_ends. Qed.
Lemma ends_kv_put d value : ends (W := W) (kv_put stack d value).
Proof. intros s. unfold kv_put, kv_set, put. res_ends. Qed.
Lemma ends_kv_reset d : ends (W := W) (kv_reset stack d).
Proof. intros s. unfold kv_reset, kv_set, reset. res_ends. Qed.
Lemma ends_kv_modify d value sequence : ends (W := W) (kv_modify stack d value sequence).
Proof. intros s. unfold kv_modify, kv_set, modify, sscanf4. res_ends. Qed.
#[local] Hint Resolve ends_deref_err ends_kv_get ends_kv_put ends_kv_reset ends_kv_modify : ends.

Lemma ends_d_add_replica dentry d i : ends (W := W) (d_add_replica dentry d i).
Proof. unfold d_add_replica. ends. Qed.
#[local] Hint Resolve ends_d_add_replica : ends.
Lemma ends_get_replica_dentry p dentry i : ends (W := W) (get_replica_dentry p dentry i).
Proof. unfold get_replica_dentry, sfs_lookup_one_len, clean_replica_dentry, instantiate_replica_dentry. ends. Qed.
#[local] Hint Resolve ends_get_replica_dentry : ends.
Lemma ends_unlink_in p d sync : ends (W := W) (unlink_in p d sync).
Proof. unfold unlink_in, dir_inode, simple_unlink_not_put. ends. Qed.
Lemma ends_follow dentry parent i : ends (W := W) (follow dentry parent i).
Proof. unfold follow. ends. Qed.
#[local] Hint Resolve ends_unlink_in ends_follow : ends.
Lemma ends_unlink_pointed dentry parent i sync : ends (W := W) (unlink_pointed dentry parent i sync).
Proof. unfold unlink_pointed. ends. Qed.
#[local] Hint Resolve ends_unlink_pointed : ends.

Lemma ends_validate_partitioned_file dentry l : ends (W := W) (validate_partitioned_file stack dentry l).
Proof.
  unfold validate_partitioned_file, recover_stale, recover_hidden, recover_rename, recover_pointer. ends.
Qed.
Lemma ends_check_normal_dir dentry l : ends (W := W) (check_normal_dir stack dentry l).
Proof. unfold check_normal_dir. ends. Qed.
Lemma ends_do_clean_dentry dentry : ends (W := W) (do_clean_dentry replica_count dentry).
Proof.
  unfold do_clean_dentry. ends. apply ends_lifted. unfold clean_dentry, clean_sfs_dentry. res_ends.
Qed.
#[local] Hint Resolve ends_validate_partitioned_file ends_check_normal_dir ends_do_clean_dentry : ends.

Lemma ends_visit dentry parent full loop new found mode :
  ends (W := W) (visit replica_count stack dentry parent full loop new found mode).
Proof. unfold visit, clean_replica_dentry, instantiate_replica_dentry. ends. Qed.

(** The loop goes on with the next replica, or, once, from the first one. *)
Lemma visit_next dentry parent full loop new found mode :
  returns (W := W) (visit replica_count stack dentry parent full loop new found mode)
    (λ r, match r with
          | Continue full' loop' _ _ _ => full' = full ∧ loop' = loop + 1 ∨ full = false ∧ full' = true ∧ loop' = 0
          | _ => True
          end).
Proof.
  unfold visit. repeat first [ apply returns_bind; intros ? | apply returns_ret | case_decide | case_match ];
    auto; destruct full; auto.
Qed.

Definition remaining (full : bool) (loop : Z) : nat :=
  Z.to_nat (Z.of_nat replica_count - loop) + if full then 0 else S replica_count.

Lemma ends_scan_replicas fuel dentry parent full loop new found mode :
  0 ≤ loop → (remaining full loop < fuel)%nat →
  ends (W := W) (scan_replicas replica_count stack fuel dentry parent full loop new found mode).
Proof.
  revert full loop new found mode. induction fuel as [|fuel IH]; intros full loop new found mode Hl Hf; [lia|].
  cbn [scan_replicas]. case_decide as Hlt; [|ends]. intros s. unfold mbind, N_bind.
  destruct (visit replica_count stack dentry parent full loop new found mode s) as [[r s1]| |] eqn:E; [|done|].
  2:{ by apply ends_visit in E. }
  apply visit_next in E. cbn. destruct r as [full' loop' new' found' mode'| |]; [|done|done].
  apply IH; unfold remaining in *; destruct E as [[-> ->]|(-> & -> & ->)]; try lia.
Qed.
End lookup.

(** * Properties *)

(** C23: [sfs_lookup] ends, in every state and whatever the layer below answers: the loop over the
    replicas, which starts over when the first directory is found, makes at most two passes. *)
Theorem sfs_lookup_terminates {W} `{!Vfs W} replica_count stack slab kmalloc_ok dentry (s : sfs W) :
  sfs_lookup replica_count stack slab kmalloc_ok dentry s ≠ NoFuel.
Proof.
  change (res_ends (sfs_lookup replica_count stack slab kmalloc_ok dentry s)). revert s.
  change (ends (sfs_lookup replica_count stack slab kmalloc_ok dentry)). unfold sfs_lookup, kmalloc, sfs_new_inode, kmalloc.
  pose proof (ends_set_node (W := W)). pose proof (ends_scan_replicas (W := W) replica_count stack).
  ends; try done. apply ends_scan_replicas; unfold remaining; lia.
Qed.

(** [sfs_add_entry] with a mode [sfs_new_inode] does not know: a replica is chosen, nothing else
    happens. *)
Lemma add_entry_refused {W} `{!Vfs W} (replica_count : nat) stack kmalloc_ok depth dentry what mode (s : sfs W) x px d :
  1 ≤ Z.of_nat replica_count ≤ 64 →
  s_tree s !! dentry = Some x → s_tree s !! n_parent x = Some px → n_fs px = Some d →
  normal_ok (Z.of_nat replica_count) d → last_ok (s_last s) → kmalloc_ok (s_allocs s) = true →
  Z.land mode S_IFMT ∉ [S_IFREG; S_IFDIR; S_IFLNK] →
  ∃ s', sfs_add_entry replica_count stack kmalloc_ok depth dentry (AddArg what mode) s = Ok (- EIO, s') ∧
    s_vfs s' = s_vfs s ∧ delete (n_parent x) (s_tree s') = delete (n_parent x) (s_tree s).
Proof.
  intros Hrc Hx Hpx Hd Hn Hl Hk Hmode.
  destruct (local_dispatch_spec (Z.of_nat replica_count) Hrc d (s_last s) Hn Hl) as (d' & last' & ret & E & _).
  assert (wpn (sfs_add_entry replica_count stack kmalloc_ok depth dentry (AddArg what mode)) (λ r s', r = - EIO ∧
    s_vfs s' = s_vfs s ∧ delete (n_parent x) (s_tree s') = delete (n_parent x) (s_tree s)) s) as (r & s' & Hr & -> & ? & ?).
  2:{ by exists s'. }
  unfold sfs_add_entry. apply wpn_bind. eapply wpn_node; [done|]. apply wpn_bind. unfold do_local_dispatch.
  apply wpn_bind. eapply wpn_SFS_D; [done..|]. apply wpn_bind. eexists _, _. split; [by rewrite E, bind_Ok|].
  apply wpn_bind, wpn_bind. eapply wpn_SFS_D; [done..|]. eapply wpn_set_node; [done|]. apply wpn_ret.
  unfold sfs_new_inode. apply wpn_bind, wpn_bind. eexists _, _. split; [reflexivity|]. cbn [a_mode s_allocs].
  match goal with |- context [kmalloc_ok ?n] => replace (kmalloc_ok n) with true by (symmetry; exact Hk) end.
  rewrite decide_False.
  2:{ rewrite !not_elem_of_cons in Hmode. destruct Hmode as (? & ? & ? & _). by intros [?|[?|?]]. }
  apply wpn_ret, wpn_ret. split_and!; [done..|]. cbn [s_tree]. apply delete_insert_eq.
Qed.

(** [sfs_symlink] always fails with [-EIO] and creates nothing: it leaves the mode of the new
    entry 0, which [sfs_new_inode] refuses.  So does [sfs_mknod] for devices, fifos and sockets. *)
Theorem symlink_always_fails {W} `{!Vfs W} (replica_count : nat) stack kmalloc_ok depth dentry (s : sfs W) x px d :
  1 ≤ Z.of_nat replica_count ≤ 64 →
  s_tree s !! dentry = Some x → s_tree s !! n_parent x = Some px → n_fs px = Some d →
  normal_ok (Z.of_nat replica_count) d → last_ok (s_last s) → kmalloc_ok (s_allocs s) = true →
  (∀ oldname, ∃ s', sfs_symlink replica_count stack kmalloc_ok depth dentry oldname s = Ok (- EIO, s') ∧
    s_vfs s' = s_vfs s ∧ delete (n_parent x) (s_tree s') = delete (n_parent x) (s_tree s)) ∧
  (∀ mode rdev, Z.land mode S_IFMT ∉ [S_IFREG; S_IFDIR; S_IFLNK] →
    ∃ s', sfs_mknod replica_count stack kmalloc_ok depth dentry mode rdev s = Ok (- EIO, s') ∧
    s_vfs s' = s_vfs s ∧ delete (n_parent x) (s_tree s') = delete (n_parent x) (s_tree s)).
Proof.
  intros. split; intros; eapply add_entry_refused; try done. cbn. rewrite !not_elem_of_cons. by split_and!; [..|apply not_elem_of_nil].
Qed.

Lemma symlink_always_fails_witness :
  ∃ s' : sfs mvfs, sfs_symlink 4 zero_stack (λ _, true) 2 1 [98]
    (Sfs (MVfs ∅ ∅ ∅ ∅ ∅ 0 0) (<[1 := SNode 0 [97] None None 0]> (<[0 := SNode 0 [47] (Some example_dir) (Some S_IFDIR) 2]> ∅)) 0 0)
    = Ok (- EIO, s').
Proof.
  destruct (symlink_always_fails (W := mvfs) 4 zero_stack (λ _, true) 2 1
    (Sfs (MVfs ∅ ∅ ∅ ∅ ∅ 0 0) (<[1 := SNode 0 [97] None None 0]> (<[0 := SNode 0 [47] (Some example_dir) (Some S_IFDIR) 2]> ∅)) 0 0)
    (SNode 0 [97] None None 0) (SNode 0 [47] (Some example_dir) (Some S_IFDIR) 2) example_dir) as [H _].
  - lia.
  - reflexivity.
  - reflexivity.
  - reflexivity.
  - constructor; [reflexivity|simpl; lia].
  - unfold last_ok, MAX. cbn [s_last]. lia.
  - reflexivity.
  - destruct (H [98]) as (s' & E & _). by exists s'.
Defined.
