(* ===== verification/SfsRecover.v ===== *)
(** * SFS: recovery of partitioned files

    A file of SFS may be split into a pointer file and a data file on two replicas, tied by the
    four links POINTER, RENAME, HIDDEN and STALE in extended attributes; a crash in the middle of
    a rename leaves links behind, and [validate_partitioned_file] of sfs16/namei.c repairs them.
    This file states what the repair does as a function [recover] on views (which replicas hold
    the name, and with which links), proves that the code refines it, and studies [recover]. *)
From S2P Require Import Prelude Interfaces SfsDispatch SfsKv SfsDentry SfsVfs SfsView SfsNamei.

(** ** Links *)
Definition set_link (i : nat) (x : Z) (v : list Z) : list Z := <[i := x]> v.

(** The attribute of an inode as links: absent means none. *)
Definition encodes (b v : list Z) : Prop :=
  replica_ids v ∧ (length b ≤ 20)%nat ∧ ∃ rest, b = format4 v ++ 0 :: rest.

Section links.
Context {W : Type} `{!VfsView W}.

Definition has_links (w : W) (i : Z) (v : list Z) : Prop :=
  match attr_of w i MetaAttr with
  | None => v = no_pointers
  | Some b => encodes b v
  end.
End links.

(** [modify] rewrites the links it reads. *)
Lemma modify_text {X K} `{Xattr X K} (stack : nat → list Z) (x : X) (key : K) o k v :
  (∀ n, length (stack n) = n) → generic_getxattr x key 20 = read_attr o 20 →
  match o with None => v = no_pointers | Some b => encodes b v end → (k < 4)%nat →
  ∃ buf, length buf = 20%nat ∧ modify stack x key (-1) (Z.of_nat k) =
    (b ← sprintf4 buf (set_link k (-1) v); Ok (vfs_setxattr x key b)).
Proof.
  intros Hst Hget Hl Hk. unfold modify. rewrite Hst. change (Z.of_nat 20) with 20. rewrite Hget. unfold read_attr.
  destruct o as [b|].
  - destruct Hl as (Hids & Hlen & rest & ->). rewrite (decide_True (P := Z.of_nat _ ≤ _)) by lia.
    assert (0 < Z.of_nat (length (format4 v ++ 0 :: rest))) by (rewrite length_app; simpl; lia).
    rewrite !(decide_True (P := 0 < _)) by done. exists (fill (stack 20%nat) (format4 v ++ 0 :: rest)).
    split; [unfold fill; rewrite length_app, length_drop, Hst; lia|].
    assert (∃ r2, fill (stack 20%nat) (format4 v ++ 0 :: rest) = format4 v ++ 0 :: r2) as [r2 ->].
    { unfold fill. rewrite <- app_assoc. by eexists. }
    rewrite sscanf_format, bind_Ok by (done || by apply replica_ids_ok).
    by rewrite (decide_True (P := 0 ≤ Z.of_nat k < 4)), Nat2Z.id by lia.
  - subst v. rewrite !(decide_False (P := 0 < _)) by lia. exists (stack 20%nat). rewrite Hst, bind_Ok.
    by rewrite (decide_True (P := 0 ≤ Z.of_nat k < 4)), Nat2Z.id by lia.
Qed.

(** ** The repair, on views

    [V i]: the links of the file in replica [i], if it is there. *)
Definition view := Z → option (list Z).
Definition upd (V : view) (i : Z) (o : option (list Z)) : view := λ j, if decide (j = i) then o else V j.
Definition del (i : Z) (V : view) : view := upd V i None.

(** New view, [replica_id] and [meta_id]. *)
Record verdict := Verdict { v_view : view; v_replica : Z; v_meta : Z }.

Definition recover_point (V : view) (l : Z) (p : list Z) (rid mid : Z) : verdict :=
  let r := ptr p POINTER in
  if decide (0 ≤ r) then
    match V r with
    | None => Verdict (del l V) rid mid
    | Some q => Verdict (if decide (ptr q POINTER ≠ l) then upd V r (Some [l; -1; -1; -1]) else V) r l
    end
  else Verdict V l mid.

Definition recover_ren (V : view) (l : Z) (p p' : list Z) (rid mid : Z) : verdict :=
  let r := ptr p RENAME in
  if decide (0 ≤ r) then
    if decide (r = l) then Verdict (upd V l (Some no_pointers)) l mid else
    match V r with
    | Some _ =>
        let V := if decide (0 ≤ ptr p POINTER) then del (ptr p POINTER) V else V in
        Verdict (upd V l (Some [r; -1; -1; -1])) r l
    | None => recover_point (upd V l (Some (set_link RENAME (-1) p'))) l p rid mid
    end
  else recover_point V l p rid mid.

Definition recover (V : view) (l rid mid : Z) : verdict :=
  match V l with
  | None => Verdict V rid mid
  | Some p =>
      if decide (0 ≤ ptr p STALE) then
        let V1 := match V (ptr p STALE) with
                  | Some q => del (ptr p STALE) (if decide (ptr q POINTER ≠ -1) then del (ptr q POINTER) V else V)
                  | None => V
                  end in
        Verdict (upd V1 l (Some no_pointers)) l mid
      else if decide (0 ≤ ptr p HIDDEN) then
        match V (ptr p HIDDEN) with
        | Some _ =>
            let V1 := if decide (ptr p POINTER ≠ -1) then del (ptr p POINTER) V else V in
            Verdict (upd (del l V1) (ptr p HIDDEN) (Some no_pointers)) (ptr p HIDDEN) mid
        | None => recover_ren (upd V l (Some (set_link HIDDEN (-1) p))) l p (set_link HIDDEN (-1) p) l mid
        end
      else recover_ren V l p p rid mid
  end.

(** ** The code against the view *)
Section refine.
Context {W : Type} `{!Vfs W, !VfsView W, !VfsOk W}.
Variable replica_count : nat.
Variable stack : nat → list Z.
Hypothesis stack_length : ∀ n, length (stack n) = n.
Hypothesis lookups : lookups_work W.

(** The SFS dentry, its parent, its name and the private data of the parent. *)
Variable dn pn : Z.
Variable nm : name.
Variable pd : sfs_dentry.
Hypothesis pd_len : length (replicas pd) = replica_count.
Hypothesis count_64 : (replica_count ≤ 64)%nat.
Hypothesis dn_pn : dn ≠ pn.
(** The parent's replicas are different dentries. *)
Hypothesis parents_inj : ∀ i j p, replicas pd !! i = Some (Some p) → replicas pd !! j = Some (Some p) → i = j.

(** The parent directory in replica [i]. *)
Definition parent_at (i p : Z) : Prop := 0 ≤ i ∧ replicas pd !! Z.to_nat i = Some (Some p).

Definition slot (s : sfs W) (i e : Z) : Prop :=
  ∃ x d, s_tree s !! dn = Some x ∧ n_fs x = Some d ∧ 0 ≤ i ∧ replicas d !! Z.to_nat i = Some (Some e).

(** The private data of the file. *)
Record file_ok (s : sfs W) (rid mid : Z) : Prop := FileOk {
  fo_node : ∃ x d, s_tree s !! dn = Some x ∧ n_parent x = pn ∧ n_name x = nm ∧ n_fs x = Some d ∧
    length (replicas d) = replica_count ∧ unused_replica_dentry d = None ∧
    replica_id d = rid ∧ meta_id d = mid;
  fo_parent : ∃ px, s_tree s !! pn = Some px ∧ n_fs px = Some pd;
}.

(** The view [V]; [D]: replicas where the file was unlinked, whose dentries may be out of date. *)
Record agrees (w : W) (V : view) : Prop := Agrees {
  ag_parent : ∀ i p, parent_at i p → known w p ∧ ∃ dir, d_inode w p = Some dir;
  ag_view : ∀ i p, parent_at i p → match child w p nm with
      | Some ino => ∃ v, V i = Some v ∧ has_links w ino v
      | None => V i = None
      end;
  ag_apart : ∀ i j p q a, parent_at i p → parent_at j q →
    child w p nm = Some a → child w q nm = Some a → i = j;
  ag_place : ∀ i j p q, parent_at i p → parent_at j q → place w p ≠ Some (q, nm);
}.

Definition slots_ok (s : sfs W) (D : Z → Prop) : Prop :=
  ∀ i e, slot s i e → ∃ p, parent_at i p ∧ known (s_vfs s) e ∧ place (s_vfs s) e = Some (p, nm) ∧
    (¬ D i → d_inode (s_vfs s) e = child (s_vfs s) p nm).

Record inv (s : sfs W) (V : view) (D : Z → Prop) (rid mid : Z) : Prop := Inv {
  iv_file : file_ok s rid mid;
  iv_agrees : agrees (s_vfs s) V;
  iv_slots : slots_ok s D;
}.

(** Slots are only added. *)
Definition keeps (s s' : sfs W) : Prop := ∀ i e, slot s i e → slot s' i e.

Lemma keeps_refl s : keeps s s.
Proof. by intros i e. Qed.
Lemma keeps_trans s1 s2 s3 : keeps s1 s2 → keeps s2 s3 → keeps s1 s3.
Proof. intros H1 H2 i e Hs. auto. Qed.

Lemma agrees_same w w' V : agrees w V → same w w' → agrees w' V.
Proof.
  intros [H1 H2 H3 H4] (Hd & Hc & Ha). constructor.
  - intros i p Hp. destruct (H1 i p Hp) as (Hk & dir & Hdir). destruct (Hd p Hk) as (? & ? & E).
    split; [done|]. exists dir. by rewrite E.
  - intros i p Hp. rewrite Hc. specialize (H2 i p Hp). destruct (child w p nm) as [ino|]; [|done].
    destruct H2 as (v & Hv & Hl). exists v. split; [done|]. unfold has_links in *. by rewrite Ha.
  - intros i j p q a Hp Hq. rewrite !Hc. by eapply H3.
  - intros i j p q Hp Hq. destruct (H1 i p Hp) as (Hk & _). destruct (Hd p Hk) as (_ & -> & _).
    by eapply H4.
Qed.

Lemma slots_same s w' D : slots_ok s D → same_dentries (s_vfs s) w' → same_dirs (s_vfs s) w' →
  slots_ok (s <| s_vfs := w' |>) D.
Proof.
  intros Hs Hd Hc i e He. destruct (Hs i e He) as (p & Hp & Hk & Hpl & Hi). exists p. cbn [s_vfs].
  destruct (Hd e Hk) as (? & E1 & E2). split_and!; [done|done| |].
  - change (place w' e = Some (p, nm)). by rewrite E1.
  - intros HD. change (d_inode w' e = child w' p nm). by rewrite E2, Hc, Hi.
Qed.

Lemma inv_vfs s w' V D rid mid :
  inv s V D rid mid → same (s_vfs s) w' → inv (s <| s_vfs := w' |>) V D rid mid.
Proof.
  intros [[Hn Hp] Ha Hs] Hsame. constructor.
  - by constructor.
  - by eapply agrees_same.
  - destruct Hsame as (? & ? & _). by apply slots_same.
Qed.

(** *** Replica dentries *)
Lemma parent_at_range i p : parent_at i p → 0 ≤ i < Z.of_nat replica_count.
Proof. intros [Hi Hp]. apply lookup_lt_Some in Hp. lia. Qed.

Lemma wpn_parent_replica i p s V D rid mid (Q : option Z → sfs W → Prop) :
  inv s V D rid mid → parent_at i p → Q (Some p) s → wpn (replica pn i) Q s.
Proof.
  intros [[_ (px & Hpx & Hpd)] _ _] [Hi Hp] HQ. eapply wpn_replica; [done..| |done].
  unfold find_replica_dentry. rewrite decide_True by done. by rewrite Hp.
Qed.

Lemma wpn_slot i e s (Q : option Z → sfs W → Prop) :
  slot s i e → Q (Some e) s → wpn (replica dn i) Q s.
Proof.
  intros (x & d & Hx & Hd & Hi & He) HQ. eapply wpn_replica; [done..| |done].
  unfold find_replica_dentry. rewrite decide_True by done. by rewrite He.
Qed.

(** Setting a field of the private data that is not an array. *)
Lemma inv_set_D s V D rid mid rid' mid' f :
  inv s V D rid mid →
  (∀ d, replica_id d = rid → meta_id d = mid →
    replicas (f d) = replicas d ∧ unused_replica_dentry (f d) = unused_replica_dentry d ∧
    replica_id (f d) = rid' ∧ meta_id (f d) = mid') →
  wpn (set_D dn f) (λ _ s', inv s' V D rid' mid' ∧ keeps s s' ∧ s_vfs s' = s_vfs s) s.
Proof.
  intros [[(x & d & Hx & Hpar & Hnm & Hd & Hlen & Hu & Hr & Hm) (px & Hpx & Hpd)] Ha Hs] Hf.
  destruct (Hf d Hr Hm) as (F1 & F2 & F3 & F4).
  apply wpn_bind. eapply wpn_SFS_D; [done..|]. eapply wpn_set_node; [done|].
  set (x' := x <| n_fs ::= fmap f |>).
  assert (n_fs x' = Some (f d)) as Hx' by (unfold x'; simpl; by rewrite Hd).
  set (s' := s <| s_tree ::= <[dn := x']> |>).
  assert (s_tree s' !! dn = Some x') as Hl by (apply lookup_insert_eq).
  assert (∀ i e, slot s' i e ↔ slot s i e) as Hslot.
  { intros i e. split.
    - intros (y & dy & Hy & Hdy & Hi & He). rewrite Hl in Hy. injection Hy as <-. rewrite Hx' in Hdy.
      injection Hdy as <-. rewrite F1 in He. by exists x, d.
    - intros (y & dy & Hy & Hdy & Hi & He). rewrite Hx in Hy. injection Hy as <-. rewrite Hd in Hdy.
      injection Hdy as <-. exists x', (f d). by rewrite F1. }
  split; [|split; [|done]].
  - constructor; [|done|intros i e He; apply (Hs i e), Hslot, He].
    constructor.
    + exists x', (f d). split_and!; try done; [by rewrite F1|by rewrite F2].
    + exists px. split; [|done]. unfold s'. simpl. by rewrite lookup_insert_ne.
  - intros i e He. by apply Hslot.
Qed.

Lemma slot_dec s V D rid mid i p :
  inv s V D rid mid → parent_at i p →
  (∃ e, slot s i e) ∨
  ∃ x d, s_tree s !! dn = Some x ∧ n_fs x = Some d ∧ n_name x = nm ∧ n_parent x = pn ∧
    unused_replica_dentry d = None ∧ replicas d !! Z.to_nat i = Some None.
Proof.
  intros [[(x & d & Hx & Hpar & Hnm & Hd & Hlen & Hu & _) _] _ _] Hp.
  pose proof (parent_at_range i p Hp) as Hr.
  destruct (lookup_lt_is_Some_2 (replicas d) (Z.to_nat i)) as [[e|] He]; [lia| |].
  - left. exists e, x, d. split_and!; (done || lia).
  - right. exists x, d. done.
Qed.

(** Hooking a dentry into an empty slot. *)
Lemma wpn_d_add_replica_new s V D rid mid i p e :
  inv s V D rid mid → parent_at i p → shows (s_vfs s) e p nm →
  (∃ x d, s_tree s !! dn = Some x ∧ n_fs x = Some d ∧ replicas d !! Z.to_nat i = Some None) →
  wpn (d_add_replica dn e i) (λ _ s', inv s' V D rid mid ∧ keeps s s' ∧ slot s' i e ∧ s_vfs s' = s_vfs s) s.
Proof.
  intros [[(x & d & Hx & Hpar & Hnm & Hd & Hlen & Hu & Hr & Hm) (px & Hpx & Hpd)] Ha Hs] Hp (Hk & Hpl & Hin)
    (x2 & d2 & Hx2 & Hd2 & Hnone). rewrite Hx in Hx2. injection Hx2 as <-. rewrite Hd in Hd2. injection Hd2 as <-.
  pose proof Hp as [Hi _]. unfold d_add_replica. apply wpn_bind. eapply wpn_replica; [done..| |].
  { unfold find_replica_dentry. rewrite decide_True by done. by rewrite Hnone. }
  apply wpn_bind. eapply wpn_SFS_D; [done..|]. eapply wpn_set_node; [done|].
  set (f := λ d : sfs_dentry, d <| replicas ::= <[Z.to_nat i := Some e]> |>).
  set (x' := x <| n_fs ::= fmap f |>).
  assert (n_fs x' = Some (f d)) as Hx' by (unfold x'; simpl; by rewrite Hd).
  set (s' := s <| s_tree ::= <[dn := x']> |>).
  assert (s_tree s' !! dn = Some x') as Hl by (apply lookup_insert_eq).
  assert (replicas (f d) = <[Z.to_nat i := Some e]> (replicas d)) as Hf by done.
  pose proof (lookup_lt_Some _ _ _ Hnone) as Hlt.
  assert (slot s' i e) as Hse.
  { exists x', (f d). split_and!; try done. rewrite Hf. by apply list_lookup_insert_eq. }
  assert (keeps s s') as Hkeep.
  { intros j e' (y & dy & Hy & Hdy & Hj & He'). rewrite Hx in Hy. injection Hy as <-. rewrite Hd in Hdy.
    injection Hdy as <-. exists x', (f d). split_and!; try done. rewrite Hf, list_lookup_insert_ne; [done|]. congruence. }
  split_and!; [|done|done|done]. constructor; [|done|].
  - constructor.
    + exists x', (f d). split_and!; try done. rewrite Hf. by rewrite length_insert.
    + exists px. split; [|done]. unfold s'. simpl. by rewrite lookup_insert_ne.
  - intros j e' (y & dy & Hy & Hdy & Hj & He'). rewrite Hl in Hy. injection Hy as <-. rewrite Hx' in Hdy.
    injection Hdy as <-. rewrite Hf in He'. destruct (decide (Z.to_nat j = Z.to_nat i)) as [E|Hne].
    + assert (j = i) as -> by lia. rewrite list_lookup_insert_eq in He' by done. injection He' as <-.
      exists p. by split_and!.
    + rewrite list_lookup_insert_ne in He' by done. apply (Hs j e'). by exists x, d.
Qed.

Lemma wpn_d_add_replica_old s i e (Q : () → sfs W → Prop) :
  slot s i e → Q () s → wpn (d_add_replica dn e i) Q s.
Proof. intros He HQ. apply wpn_bind. eapply wpn_slot; [done|]. by apply wpn_ret. Qed.

(** The lookup below: a dentry that shows what is there. *)
Lemma wpn_lookup_one s V D rid mid i p :
  inv s V D rid mid → parent_at i p →
  wpn (sfs_lookup_one_len nm p) (λ r s', ∃ e w', r = inr e ∧ s' = s <| s_vfs := w' |> ∧
    same (s_vfs s) w' ∧ shows w' e p nm) s.
Proof.
  intros [_ Ha _] Hp. destruct (ag_parent _ _ Ha i p Hp) as (Hk & dir & Hdir).
  unfold sfs_lookup_one_len. apply wpn_bind, wpn_observe. rewrite Hdir.
  destruct (lookups (s_vfs s) p nm) as (w1 & d & Hal & Hlk). apply wpn_bind.
  eapply wpn_call; [done|]. apply wpn_bind, wpn_deref, wpn_bind, wpn_deref, wpn_bind.
  destruct (i_lookup w1 dir d) as [w2 o] eqn:E. eapply wpn_call; [exact E|].
  destruct o as [[e|d']|].
  - by destruct (Hlk dir w2 e).
  - destruct (lookup_alias_ok _ _ _ _ _ _ _ _ Hk Hdir Hal E) as [Hs Hsh].
    apply wpn_bind, wpn_effect, wpn_ret. exists d', (dput w2 d). by split_and!.
  - destruct (lookup_ok _ _ _ _ _ _ _ Hk Hdir Hal E) as [Hs Hsh]. apply wpn_ret. exists d, w2. by split_and!.
Qed.

(** Following a link to replica [i]. *)
Lemma wpn_follow s V D rid mid i p :
  inv s V D rid mid → parent_at i p →
  wpn (follow dn pn i) (λ r s', ∃ e, r = (Some p, e) ∧ slot s' i e ∧ inv s' V D rid mid ∧ keeps s s') s.
Proof.
  intros Hinv Hp. unfold follow. apply wpn_bind. eapply wpn_parent_replica; [done..|]. apply wpn_bind.
  unfold get_replica_dentry. apply wpn_bind.
  destruct (slot_dec s V D rid mid i p Hinv Hp) as [[e He]|(x & d & Hx & Hd & Hnm & Hpn & Hu & Hnone)].
  - eapply wpn_slot; [done|]. apply wpn_ret. apply wpn_bind, wpn_ret, wpn_ret.
    exists e. split_and!; [done..|apply keeps_refl].
  - eapply wpn_replica; [done..| |].
    { unfold find_replica_dentry. destruct Hp as [Hi _]. rewrite decide_True by done. by rewrite Hnone. }
    apply wpn_bind. eapply wpn_SFS_D; [done..|]. rewrite Hu. apply wpn_bind, wpn_deref.
    destruct (ag_parent _ _ (iv_agrees _ _ _ _ _ Hinv) i p Hp) as (Hk & dir & Hdir).
    apply wpn_bind, wpn_observe. rewrite Hdir. apply wpn_bind, wpn_deref.
    apply wpn_bind. eapply wpn_node; [done|]. rewrite Hnm. apply wpn_bind.
    eapply wpn_mono; [by eapply wpn_lookup_one|]. intros r s1 (e & w' & -> & -> & Hsame & Hsh).
    apply wpn_bind. eapply wpn_mono.
    { apply (wpn_d_add_replica_new (s <| s_vfs := w' |>) V D rid mid i p e); [by apply inv_vfs|done|done|].
      exists x, d. done. }
    intros _ s2 (Hinv2 & Hkeep & Hslot & _). apply wpn_ret, wpn_bind, wpn_ret, wpn_ret.
    exists e. split_and!; done.
Qed.

Lemma slot_fun s i e e' : slot s i e → slot s i e' → e = e'.
Proof. intros (x & d & Hx & Hd & _ & He) (x' & d' & Hx' & Hd' & _ & He'). congruence. Qed.

Lemma parent_at_fun i p p' : parent_at i p → parent_at i p' → p = p'.
Proof. intros [_ H1] [_ H2]. congruence. Qed.

Lemma parent_at_inj i j p : parent_at i p → parent_at j p → i = j.
Proof. intros [Hi H1] [Hj H2]. apply Z2Nat.inj; [done..|]. by eapply parents_inj. Qed.

Lemma keeps_tree s s' : s_tree s' = s_tree s → keeps s s'.
Proof. intros E i e He. unfold slot. by rewrite E. Qed.

(** The file that a slot in use shows. *)
Lemma slot_inode s V D rid mid i p e v :
  inv s V D rid mid → parent_at i p → slot s i e → ¬ D i → V i = Some v →
  ∃ ino, d_inode (s_vfs s) e = Some ino ∧ child (s_vfs s) p nm = Some ino ∧ has_links (s_vfs s) ino v ∧
    shows (s_vfs s) e p nm.
Proof.
  intros [_ Ha Hs] Hp He HD Hv. destruct (Hs i e He) as (p' & Hp' & Hk & Hpl & Hi).
  pose proof (parent_at_fun _ _ _ Hp Hp') as <-. pose proof (ag_view _ _ Ha i p Hp) as Hview.
  destruct (child (s_vfs s) p nm) as [ino|] eqn:Ec; [|congruence].
  destruct Hview as (v' & Hv' & Hl). rewrite Hv in Hv'. injection Hv' as <-.
  specialize (Hi HD). exists ino. split_and!; try done. split_and!; [done..|congruence].
Qed.

Lemma slot_empty s V D rid mid i p e :
  inv s V D rid mid → parent_at i p → slot s i e → ¬ D i → V i = None → d_inode (s_vfs s) e = None.
Proof.
  intros [_ Ha Hs] Hp He HD Hv. destruct (Hs i e He) as (p' & Hp' & Hk & Hpl & Hi).
  pose proof (parent_at_fun _ _ _ Hp Hp') as <-. pose proof (ag_view _ _ Ha i p Hp) as Hview.
  rewrite (Hi HD). destruct (child (s_vfs s) p nm) as [ino|]; [|done]. destruct Hview as (? & ? & _). congruence.
Qed.

(** *** Attributes *)
Lemma wpn_kv_get s V D rid mid i p e v :
  inv s V D rid mid → parent_at i p → slot s i e → ¬ D i → V i = Some v →
  wpn (kv_get stack e no_pointers) (λ r s', s' = s ∧ r.1 = v ∧ (0 < r.2 ∨ v = no_pointers)) s.
Proof.
  intros Hinv Hp He HD Hv. destruct (slot_inode _ _ _ _ _ _ _ _ _ Hinv Hp He HD Hv) as (ino & Hino & _ & Hl & _).
  unfold kv_get, get, wpn. rewrite (getxattr_ok _ _ _ _ _ Hino). unfold has_links in Hl. unfold read_attr.
  destruct (attr_of (s_vfs s) ino MetaAttr) as [b|].
  - destruct Hl as (Hids & Hlen & rest & ->). rewrite (decide_True (P := Z.of_nat _ ≤ 20)) by lia.
    assert (0 < Z.of_nat (length (format4 v ++ 0 :: rest))) by (rewrite length_app; simpl; lia).
    rewrite (decide_True (P := 0 < _)) by done.
    assert (∃ r2, fill (stack 20) (format4 v ++ 0 :: rest) = format4 v ++ 0 :: r2) as [r2 ->].
    { unfold fill. rewrite <- app_assoc. by eexists. }
    rewrite sscanf_format by (done || by apply replica_ids_ok). rewrite !bind_Ok. eexists _, _. split; [done|]. auto.
  - subst v. rewrite decide_False by lia. rewrite !bind_Ok. eexists _, _. split; [done|]. auto.
Qed.

(** The links of one file change. *)
Lemma agrees_set w w' V i p ino v' b :
  agrees w V → parent_at i p → child w p nm = Some ino → same_dentries w w' → same_dirs w w' →
  attr_of w' ino MetaAttr = Some b → encodes b v' →
  (∀ i' a', (i', a') ≠ (ino, MetaAttr) → attr_of w' i' a' = attr_of w i' a') →
  agrees w' (upd V i (Some v')).
Proof.
  intros [H1 H2 H3 H4] Hp Hch Hd Hc Hb Henc Hoth. constructor.
  - intros j q Hq. destruct (H1 j q Hq) as (Hk & dir & Hdir). destruct (Hd q Hk) as (? & _ & E2).
    split; [done|]. exists dir. congruence.
  - intros j q Hq. rewrite Hc. specialize (H2 j q Hq). destruct (child w q nm) as [ino'|] eqn:Eq.
    + unfold upd. destruct (decide (j = i)) as [->|Hne].
      * pose proof (parent_at_fun _ _ _ Hp Hq) as <-. assert (ino' = ino) as -> by congruence.
        exists v'. split; [done|]. unfold has_links. by rewrite Hb.
      * destruct H2 as (u & Hu & Hl). exists u. split; [done|]. unfold has_links in *.
        rewrite Hoth; [done|]. intros [= ->]. by destruct Hne, (H3 j i q p ino).
    + unfold upd. destruct (decide (j = i)) as [->|Hne]; [|done].
      pose proof (parent_at_fun _ _ _ Hp Hq) as <-. congruence.
  - intros j k q r a Hq Hr. rewrite !Hc. by eapply H3.
  - intros j k q r Hq Hr. destruct (H1 j q Hq) as (Hk & _). destruct (Hd q Hk) as (_ & -> & _). by eapply H4.
Qed.

(** The file in one replica is removed. *)
Lemma agrees_remove w w2 V i :
  agrees w V → same_attrs w w2 →
  (∀ j q, parent_at j q → known w2 q ∧ place w2 q = place w q ∧ d_inode w2 q = d_inode w q) →
  (∀ j q, parent_at j q → child w2 q nm = if decide (j = i) then None else child w q nm) →
  agrees w2 (del i V).
Proof.
  intros [H1 H2 H3 H4] Hat Hparents Hc. constructor.
  - intros j q Hq. destruct (Hparents j q Hq) as (? & _ & E2). split; [done|].
    destruct (H1 j q Hq) as (_ & dir' & ?). exists dir'. congruence.
  - intros j q Hq. rewrite (Hc j q Hq). unfold del, upd. specialize (H2 j q Hq). destruct (decide (j = i)); [done|].
    destruct (child w q nm) as [a|]; [|done]. destruct H2 as (u & Hu & Hl).
    exists u. split; [done|]. unfold has_links in *. by rewrite Hat.
  - intros j k q r a Hq Hr. rewrite (Hc j q Hq), (Hc k r Hr). do 2 (case_decide; [done|]). by eapply H3.
  - intros j k q r Hq Hr. destruct (Hparents j q Hq) as (_ & -> & _). by eapply H4.
Qed.

Lemma agrees_unlink w w2 V i p :
  agrees w V → parent_at i p → same_attrs w w2 →
  (∀ p' n', child w2 p' n' = if decide ((p', n') = (p, nm)) then None else child w p' n') →
  (∀ d, known w d → place w d ≠ Some (p, nm) → known w2 d ∧ place w2 d = place w d ∧ d_inode w2 d = d_inode w d) →
  agrees w2 (del i V).
Proof.
  intros Ha Hp Hat Hc Hoth. apply (agrees_remove w); [done|done| |].
  - intros j q Hq. destruct (ag_parent _ _ Ha j q Hq) as (Hk & _). apply Hoth; [done|]. by eapply ag_place.
  - intros j q Hq. rewrite Hc. destruct (decide (j = i)) as [->|Hj].
    + pose proof (parent_at_fun _ _ _ Hp Hq) as <-. by rewrite decide_True.
    + rewrite decide_False; [done|]. intros [= ->]. apply Hj. by eapply parent_at_inj.
Qed.

(** Storing links. *)
Lemma wpn_kv_store s V D rid mid i p e v v' op buf :
  inv s V D rid mid → parent_at i p → slot s i e → ¬ D i → V i = Some v → replica_ids v' →
  (11 < length buf ≤ 20)%nat →
  op (s_vfs s) = (b ← sprintf4 buf v'; Ok (vfs_setxattr (s_vfs s) (e, MetaAttr) b)) →
  wpn (kv_set op) (λ err s', (err = 0 → inv s' (upd V i (Some v')) D rid mid) ∧ keeps s s') s.
Proof.
  intros Hinv Hp He HD Hv Hids Hbuf Hop.
  destruct (slot_inode _ _ _ _ _ _ _ _ _ Hinv Hp He HD Hv) as (ino & Hino & Hch & _ & _).
  destruct (replica_ids_ok v' Hids) as [Hok Hlen].
  rewrite sprintf4_fits in Hop by (apply Hids || lia). rewrite bind_Ok in Hop.
  set (b := format4 v' ++ 0 :: drop (S (length (format4 v'))) buf) in Hop.
  destruct (vfs_setxattr (s_vfs s) (e, MetaAttr) b) as [w' err] eqn:E.
  destruct (setxattr_ok _ _ _ _ _ _ _ Hino E) as (Hd & Hc & Hset & Hoth).
  exists err, (s <| s_vfs := w' |>). split.
  { unfold kv_set. by rewrite Hop. }
  split; [|by apply keeps_tree]. intros ->. specialize (Hset eq_refl).
  destruct Hinv as [[Hn Hpar] Ha Hs]. constructor; [by constructor| |by apply slots_same].
  eapply agrees_set; [done..| |intros i' a' Hne; by apply Hoth; right].
  split_and!; [done| |by eexists]. unfold b. rewrite length_app, length_cons, length_drop. lia.
Qed.

Lemma wpn_kv_put s V D rid mid i p e v v' :
  inv s V D rid mid → parent_at i p → slot s i e → ¬ D i → V i = Some v → replica_ids v' →
  wpn (kv_put stack e v') (λ err s', (err = 0 → inv s' (upd V i (Some v')) D rid mid) ∧ keeps s s') s.
Proof.
  intros. eapply (wpn_kv_store _ _ _ _ _ _ _ _ _ _ _ (stack 15)); [done..| |done]. rewrite stack_length. lia.
Qed.

Lemma wpn_kv_reset s V D rid mid i p e v :
  inv s V D rid mid → parent_at i p → slot s i e → ¬ D i → V i = Some v →
  wpn (kv_reset stack e) (λ err s', (err = 0 → inv s' (upd V i (Some no_pointers)) D rid mid) ∧ keeps s s') s.
Proof.
  intros. eapply (wpn_kv_store _ _ _ _ _ _ _ _ _ _ _ (stack 20)); [done..| | |done].
  - split; [done|]. repeat constructor; lia.
  - rewrite stack_length. lia.
Qed.

Lemma wpn_kv_modify s V D rid mid i p e v k :
  inv s V D rid mid → parent_at i p → slot s i e → ¬ D i → V i = Some v → replica_ids v → (k < 4)%nat →
  wpn (kv_modify stack e (-1) k)
    (λ err s', (err = 0 → inv s' (upd V i (Some (set_link k (-1) v))) D rid mid) ∧ keeps s s') s.
Proof.
  intros Hinv Hp He HD Hv Hids Hk.
  destruct (slot_inode _ _ _ _ _ _ _ _ _ Hinv Hp He HD Hv) as (ino & Hino & _ & Hl & _).
  assert (replica_ids (set_link k (-1) v)) as Hids'.
  { destruct Hids as [Hlen Hall]. split; [by unfold set_link; rewrite length_insert|].
    apply Forall_insert; [done|lia]. }
  destruct (modify_text stack (s_vfs s) (e, MetaAttr) (attr_of (s_vfs s) ino MetaAttr) k v) as (buf & Hb & E);
    [done|by rewrite (generic_getxattr_ok _ _ _ _ _ Hino)|exact Hl|done|].
  eapply (wpn_kv_store _ _ _ _ _ _ _ _ _ _ _ buf); [done..| |done]. lia.
Qed.

(** *** Removal *)
Definition also (D : Z → Prop) (i : Z) : Z → Prop := λ j, j = i ∨ D j.

Lemma inv_unlinked s w' V D rid mid i p e v dir :
  inv s V D rid mid → parent_at i p → slot s i e → ¬ D i → V i = Some v →
  d_inode (s_vfs s) p = Some dir → i_unlink (s_vfs s) dir e = (w', 0) →
  inv (s <| s_vfs := d_delete w' e |>) (del i V) (also D i) rid mid.
Proof.
  intros Hinv Hp He HD Hv Hdir E.
  destruct (slot_inode _ _ _ _ _ _ _ _ _ Hinv Hp He HD Hv) as (ino & Hino & Hch & _ & Hsh).
  destruct (unlink_ok _ _ _ _ _ _ E Hdir Hsh) as (Hat & Hk2 & Hpl2 & Hc & Hoth); [by rewrite Hch|].
  destruct Hinv as [[Hn Hpar] Ha Hs]. set (w2 := d_delete w' e) in *.
  assert (∀ j q, parent_at j q → j ≠ i → q ≠ p) as Hne.
  { intros j q Hq Hj ->. apply Hj. by eapply parent_at_inj. }
  constructor; [by constructor| |]; cbn [s_vfs].
  - by eapply agrees_unlink.
  - intros j e' He'. destruct (Hs j e' He') as (q & Hq & Hk & Hpl & Hi). exists q.
    change (s_vfs (s <| s_vfs := w2 |>)) with w2. destruct (decide (j = i)) as [->|Hj].
    { pose proof (parent_at_fun _ _ _ Hp Hq) as <-. pose proof (slot_fun _ _ _ _ He He') as <-.
      split_and!; [done..|]. intros []. by left. }
    destruct (Hoth e' Hk) as (? & E1 & E2).
    { rewrite Hpl. intros [= ?]. by eapply Hne. }
    split_and!; [done|done|congruence|]. intros HD'. rewrite E2, Hc.
    rewrite decide_False by (intros [= ?]; by eapply Hne). apply Hi. intros ?. apply HD'. by right.
Qed.

Lemma wpn_unlink_in s V D rid mid i p e v sync :
  inv s V D rid mid → parent_at i p → slot s i e → ¬ D i → V i = Some v →
  wpn (unlink_in (Some p) e sync)
    (λ err s', (err = 0 → inv s' (del i V) (also D i) rid mid) ∧ keeps s s') s.
Proof.
  intros Hinv Hp He HD Hv.
  destruct (slot_inode _ _ _ _ _ _ _ _ _ Hinv Hp He HD Hv) as (ino & Hino & _).
  destruct (ag_parent _ _ (iv_agrees _ _ _ _ _ Hinv) i p Hp) as (_ & dir & Hdir).
  unfold unlink_in, dir_inode, simple_unlink_not_put. apply wpn_bind, wpn_bind, wpn_deref, wpn_observe.
  rewrite Hdir. apply wpn_bind, wpn_bind, wpn_deref, wpn_bind, wpn_observe. rewrite Hino.
  apply wpn_bind, wpn_deref, wpn_bind. destruct (i_unlink (s_vfs s) dir e) as [w' err] eqn:E.
  eapply wpn_call; [exact E|]. destruct (decide (err = 0)) as [->|Hne].
  - pose proof (inv_unlinked _ _ _ _ _ _ _ _ _ _ _ Hinv Hp He HD Hv Hdir E) as Hinv'.
    apply wpn_bind, wpn_effect, wpn_ret. cbn beta. rewrite decide_False by (intros H; by apply H).
    destruct sync; [|apply wpn_ret; split; [done|by apply keeps_tree]].
    apply wpn_bind, wpn_deref, wpn_bind, wpn_effect, wpn_ret. split; [|by apply keeps_tree].
    intros _. exact (inv_vfs _ _ _ _ _ _ Hinv' (write_inode_ok (d_delete w' e) dir)).
  - apply wpn_ret. cbn beta. rewrite decide_True by done. apply wpn_ret. split; [done|]. by apply keeps_tree.
Qed.

(** Unlinking what a link names, if it is there; the view does not change if it is not. *)
Lemma del_absent V i : V i = None → ∀ j, del i V j = V j.
Proof. intros Hi j. unfold del, upd. by case_decide; subst. Qed.

Lemma inv_ext s V V' (D D' : Z → Prop) rid mid :
  (∀ i, V i = V' i) → (∀ i, D i → D' i) → inv s V D rid mid → inv s V' D' rid mid.
Proof.
  intros HV HD [Hf [H1 H2 H3 H4] Hs]. constructor; [done| |].
  - constructor; [done| |done|done]. intros i p Hp. specialize (H2 i p Hp). by rewrite <- HV.
  - intros i e He. destruct (Hs i e He) as (p & ? & ? & ? & Hi). exists p. split_and!; auto.
Qed.

Lemma wpn_unlink_pointed s V D rid mid i p sync :
  inv s V D rid mid → parent_at i p → ¬ D i →
  wpn (unlink_pointed dn pn i sync)
    (λ err s', (err = 0 → inv s' (del i V) (also D i) rid mid) ∧ keeps s s') s.
Proof.
  intros Hinv Hp HD. unfold unlink_pointed. apply wpn_bind. eapply wpn_mono; [by eapply wpn_follow|].
  intros r s1 (e & -> & He & Hinv1 & Hk1). apply wpn_bind, wpn_observe.
  destruct (V i) as [v|] eqn:Hv.
  - destruct (slot_inode _ _ _ _ _ _ _ _ _ Hinv1 Hp He HD Hv) as (ino & Hino & _).
    rewrite Hino, decide_True by done. eapply wpn_mono; [by eapply wpn_unlink_in|].
    intros err s2 [H2 Hk2]. split; [done|]. by eapply keeps_trans.
  - rewrite (slot_empty _ _ _ _ _ _ _ _ Hinv1 Hp He HD Hv), decide_False by (by intros []).
    apply wpn_ret. split; [|done]. intros _. eapply inv_ext; [|intros j Hj; by right|exact Hinv1].
    intros j. by rewrite del_absent.
Qed.

(** *** The four conditions *)

(** A step that may fail: the code goes on only when it returned 0. *)
Lemma wpn_try {B} (m : N W Z) (f : Z → B) (k : N W B) (P : sfs W → Prop) Q s :
  wpn m (λ err s', (err = 0 → P s') ∧ keeps s s') s →
  (∀ s', P s' → keeps s s' → wpn k Q s') → (∀ err s', err ≠ 0 → keeps s s' → Q (f err) s') →
  wpn (err ← m; if decide (err ≠ 0) then mret (f err) else k) Q s.
Proof.
  intros Hm Hk Hf. apply wpn_bind. eapply wpn_mono; [done|]. intros err s' [HP Hkeep]. cbn beta.
  destruct (decide (err ≠ 0)) as [Hne|He]; [apply wpn_ret; auto|].
  apply Hk; [|done]. apply HP. by apply dec_stable.
Qed.

Definition target (i : Z) : Prop := ∃ p, parent_at i p.

(** Links [p] of the file in replica [l] that recovery can follow: they name replicas where the
    directory exists, and not the same one for two purposes. *)
Record linked (V : view) (l : Z) (p : list Z) : Prop := Linked {
  ln_local : V l = Some p;
  ln_target : target l;
  ln_follow : ∀ k, ptr p k = -1 ∨ target (ptr p k);
  ln_other : ∀ k, k ≠ RENAME → ptr p k ≠ l;
  ln_apart : ptr p POINTER ≠ -1 → ptr p POINTER ≠ ptr p HIDDEN ∧ ptr p POINTER ≠ ptr p RENAME;
  ln_stale : ∀ q, V (ptr p STALE) = Some q →
    ptr q POINTER = -1 ∨ target (ptr q POINTER) ∧ ptr q POINTER ≠ l ∧ ptr q POINTER ≠ ptr p STALE;
}.

Definition settles (s : sfs W) (r : verdict) : Prop := ∃ D, inv s (v_view r) D (v_replica r) (v_meta r).

Lemma links_ids s V D rid mid i p v :
  inv s V D rid mid → parent_at i p → V i = Some v → replica_ids v.
Proof.
  intros [_ [_ H2 _ _] _] Hp Hv. specialize (H2 i p Hp). destruct (child (s_vfs s) p nm) as [ino|]; [|congruence].
  destruct H2 as (u & Hu & Hl). rewrite Hv in Hu. injection Hu as <-. unfold has_links in Hl.
  destruct (attr_of _ _ _); [by destruct Hl|]. subst. split; [done|]. repeat constructor; lia.
Qed.

Lemma target_nonneg i : target i → 0 ≤ i.
Proof. by intros [p [? _]]. Qed.

Lemma upd_ne V i o j : j ≠ i → upd V i o j = V j.
Proof. intros. unfold upd. by rewrite decide_False. Qed.

Lemma follow_nonneg V l p k : linked V l p → 0 ≤ ptr p k → target (ptr p k).
Proof. intros HL Hk. destruct (ln_follow _ _ _ HL k); [lia|done]. Qed.

Lemma follow_not_none V l p k : linked V l p → ptr p k ≠ -1 → target (ptr p k).
Proof. intros HL Hk. by destruct (ln_follow _ _ _ HL k). Qed.

(** Set [replica_id]. *)
Lemma wpn_set_replica s V D rid mid i :
  inv s V D rid mid → wpn (set_D dn (set_replica_id i)) (λ _ s', inv s' V D i mid ∧ keeps s s') s.
Proof.
  intros Hinv. eapply wpn_mono; [apply (inv_set_D s V D rid mid i mid); [done|]|by intros _ s' (? & ? & _)].
  intros d _ Hm. done.
Qed.

Lemma wpn_set_meta s V D rid mid i :
  inv s V D rid mid → wpn (set_D dn (set_meta_id i)) (λ _ s', inv s' V D rid i ∧ keeps s s') s.
Proof.
  intros Hinv. eapply wpn_mono; [apply (inv_set_D s V D rid mid rid i); [done|]|by intros _ s' (? & ? & _)].
  intros d Hr _. done.
Qed.

(** The end of a branch: set [replica_id] and return. *)
Lemma wpn_finish {B} (b : B) s V D rid mid i Q :
  inv s V D rid mid → (∀ s', inv s' V D i mid → keeps s s' → Q b s') →
  wpn (_ ← set_D dn (set_replica_id i); mret b) Q s.
Proof.
  intros Hinv HQ. apply wpn_bind. eapply wpn_mono; [by eapply (wpn_set_replica _ _ _ _ _ i)|].
  intros _ s' [H Hk]. apply wpn_ret. auto.
Qed.

(** The same for a partitioned file. *)
Lemma wpn_finish_pointed {B} (b : B) s V D rid mid r e l Q :
  inv s V D rid mid → slot s r e → (∀ s', inv s' V D r l → Q b s') →
  wpn (_ ← d_add_replica dn e r; _ ← set_D dn (set_replica_id r); _ ← set_D dn (set_meta_id l); mret b) Q s.
Proof.
  intros Hinv He HQ. apply wpn_bind. eapply wpn_d_add_replica_old; [done|]. apply wpn_bind.
  eapply wpn_mono; [by eapply (wpn_set_replica _ _ _ _ _ r)|]. intros _ s1 [H1 _]. apply wpn_bind.
  eapply wpn_mono; [by eapply (wpn_set_meta _ _ _ _ _ l)|]. intros _ s2 [H2 _]. apply wpn_ret. auto.
Qed.

(** Following a link, and whether the file is there. *)
Lemma wpn_followed s V D rid mid i p :
  inv s V D rid mid → parent_at i p → ¬ D i →
  wpn (follow dn pn i) (λ r s', ∃ e, r = (Some p, e) ∧ slot s' i e ∧ inv s' V D rid mid ∧ keeps s s' ∧
    (is_Some (d_inode (s_vfs s') e) ↔ is_Some (V i))) s.
Proof.
  intros Hinv Hp HD. eapply wpn_mono; [by eapply wpn_follow|].
  intros r s' (e & -> & He & Hinv' & Hkeep). exists e. split_and!; [done..|].
  destruct (V i) as [v|] eqn:Hv.
  - by destruct (slot_inode _ _ _ _ _ _ _ _ _ Hinv' Hp He HD Hv) as (ino & -> & _).
  - by rewrite (slot_empty _ _ _ _ _ _ _ _ Hinv' Hp He HD Hv).
Qed.

Lemma wpn_recover_pointer s V0 V l e pp p rid mid :
  linked V0 l p → inv s V (λ _, False) rid mid → (∃ p', V l = Some p') →
  parent_at l pp → slot s l e →
  wpn (recover_pointer stack dn pn l (Some pp) e p)
    (λ err s', err = 0 → settles s' (recover_point V l p rid mid)) s.
Proof.
  intros HL Hinv [p' Hl] Hpp He. unfold recover_pointer, recover_point.
  destruct (decide (0 ≤ ptr p POINTER)) as [Hge|Hlt].
  - destruct (follow_nonneg _ _ _ POINTER HL Hge) as [q Hq].
    apply wpn_bind. eapply wpn_mono; [eapply wpn_followed; [done..|by intros ?]|].
    intros r s1 (e1 & -> & He1 & Hinv1 & Hk1 & Hin). apply wpn_bind, wpn_observe.
    destruct (V (ptr p POINTER)) as [u|] eqn:Hu.
    + rewrite decide_True by (by apply Hin). apply wpn_bind.
      eapply wpn_mono; [eapply wpn_kv_get; [done..|by intros ?|done]|].
      intros [u' ret] s2 (-> & E & Hret). cbn [fst snd] in *. subst u'.
      assert (target l) as Hlt by by eexists.
      eapply (wpn_try _ id _ (λ s2, inv s2
        (if decide (ptr u POINTER ≠ l) then upd V (ptr p POINTER) (Some [l; -1; -1; -1]) else V)
        (λ _, False) rid mid)).
      * destruct (decide (ptr u POINTER ≠ l)) as [Hne|Heq].
        { rewrite decide_True by auto. eapply wpn_kv_put; [done..|by intros ?|done|].
          pose proof (parent_at_range _ _ Hpp). split; [done|]. repeat constructor; lia. }
        rewrite decide_False; [apply wpn_ret; split; [done|apply keeps_refl]|]. intros [Hr|Hr]; [|done].
        destruct Hret as [?| ->]; [lia|]. apply dec_stable in Heq.
        pose proof (target_nonneg l Hlt). unfold ptr in Heq. simpl in Heq. lia.
      * intros s2 Hinv2 Hk2. eapply wpn_finish_pointed; [done|by apply Hk2|].
        intros s3 Hinv3 _. by exists (λ _, False).
      * intros err s2 Hne ?. done.
    + rewrite decide_False by (rewrite Hin; by intros []).
      eapply wpn_mono; [eapply wpn_unlink_in; [done|done|by apply Hk1|by intros ?|done]|].
      intros err s2 [H2 _] ->. by eexists; apply H2.
  - eapply wpn_finish; [done|]. intros s' Hinv' _ _. by exists (λ _, False).
Qed.

Lemma wpn_recover_rename s V0 V l e pp p p' rid mid :
  linked V0 l p → inv s V (λ _, False) rid mid → V l = Some p' →
  parent_at l pp → slot s l e → 0 ≤ ptr p RENAME →
  wpn (recover_rename stack dn pn l e p)
    (λ r s', match r with
             | Some err => err = 0 → settles s' (recover_ren V l p p' rid mid)
             | None => ∃ V', inv s' V' (λ _, False) rid mid ∧ is_Some (V' l) ∧ keeps s s' ∧
                 recover_ren V l p p' rid mid = recover_point V' l p rid mid
             end) s.
Proof.
  intros HL Hinv Hl Hpp He Hge. unfold recover_rename, recover_ren. rewrite !(decide_True (P := 0 ≤ ptr p RENAME)) by done.
  pose proof (parent_at_range _ _ Hpp) as Hrange.
  destruct (decide (ptr p RENAME = l)) as [Heq|Hne].
  { eapply wpn_try; [eapply (wpn_kv_reset _ _ _ _ _ l); [exact Hinv|exact Hpp|exact He|by intros ?|exact Hl]| |by intros err s' ??].
    intros s1 Hinv1 _. eapply wpn_finish; [exact Hinv1|]. intros s2 Hinv2 _ _. by exists (λ _, False). }
  destruct (follow_nonneg _ _ _ RENAME HL Hge) as [q Hq]. pose proof (parent_at_range _ _ Hq) as Hqr.
  apply wpn_bind. eapply wpn_mono; [eapply wpn_followed; [done..|by intros ?]|].
  intros r s1 (e1 & -> & He1 & Hinv1 & Hk1 & Hin). apply wpn_bind, wpn_observe.
  destruct (V (ptr p RENAME)) as [u|] eqn:Hu.
  - rewrite decide_True by (by apply Hin).
    eapply (wpn_try _ _ _ (λ s2, ∃ D, ¬ D l ∧ inv s2
      (if decide (0 ≤ ptr p POINTER) then del (ptr p POINTER) V else V) D rid mid)).
    + destruct (decide (0 ≤ ptr p POINTER)) as [Hp0|Hp0].
      * destruct (follow_nonneg _ _ _ POINTER HL Hp0) as [q2 Hq2].
        eapply wpn_mono; [eapply wpn_unlink_pointed; [done..|by intros ?]|]. intros err s2 [H2 Hk2].
        split; [|done]. intros E. eexists. split; [|by apply H2]. intros [Hx|[]].
        by destruct (ln_other _ _ _ HL POINTER).
      * apply wpn_ret. split; [|apply keeps_refl]. intros _. exists (λ _, False). split; [by intros ?|done].
    + intros s2 (D & HD & Hinv2) Hk2.
      eapply wpn_try; [eapply (wpn_kv_put _ _ _ _ _ l); [done|done|by apply Hk2, Hk1|done| |]| |by intros err s' ??].
      * destruct (decide (0 ≤ ptr p POINTER)); [|done]. unfold del. rewrite upd_ne; [done|].
        intros Hx. by destruct (ln_other _ _ _ HL POINTER).
      * split; [done|]. repeat constructor; lia.
      * intros s3 Hinv3 Hk3. eapply wpn_finish_pointed; [exact Hinv3|by apply Hk3, Hk2|].
        intros s4 Hinv4 _. by exists D.
    + by intros err s' ??.
  - rewrite decide_False by (rewrite Hin; by intros []).
    eapply wpn_try; [eapply (wpn_kv_modify _ _ _ _ _ l); [done|done|by apply Hk1|by intros ?|done| |unfold RENAME; lia]| |by intros err s' ??].
    + exact (links_ids _ _ _ _ _ _ _ _ Hinv Hpp Hl).
    + intros s2 Hinv2 Hk2. apply wpn_ret. eexists. split_and!; [exact Hinv2| |by eapply keeps_trans|done].
      unfold upd. by rewrite decide_True.
Qed.

Lemma wpn_recover_hidden s V l e pp p rid mid :
  linked V l p → inv s V (λ _, False) rid mid →
  parent_at l pp → slot s l e → 0 ≤ ptr p HIDDEN → ptr p STALE < 0 →
  wpn (recover_hidden stack dn pn l (Some pp) e p)
    (λ r s', match r with
             | Some err => err = 0 → settles s' (recover V l rid mid)
             | None => let p' := set_link HIDDEN (-1) p in let V' := upd V l (Some p') in
                 inv s' V' (λ _, False) l mid ∧ keeps s s' ∧ recover V l rid mid = recover_ren V' l p p' l mid
             end) s.
Proof.
  intros HL Hinv Hpp He Hge Hst. pose proof (ln_local _ _ _ HL) as Hl.
  unfold recover_hidden, recover. rewrite Hl. rewrite (decide_False (P := 0 ≤ ptr p STALE)) by lia.
  rewrite (decide_True (P := 0 ≤ ptr p HIDDEN)) by done.
  destruct (follow_nonneg _ _ _ HIDDEN HL Hge) as [q Hq].
  assert (ptr p HIDDEN ≠ l) as Hhl by by apply (ln_other _ _ _ HL).
  apply wpn_bind. eapply wpn_mono; [eapply wpn_followed; [done..|by intros ?]|].
  intros r s1 (e1 & -> & He1 & Hinv1 & Hk1 & Hin). apply wpn_bind, wpn_observe.
  destruct (V (ptr p HIDDEN)) as [u|] eqn:Hu.
  - rewrite decide_True by (by apply Hin).
    set (V1 := if decide (ptr p POINTER ≠ -1) then del (ptr p POINTER) V else V).
    assert (V1 l = Some p ∧ V1 (ptr p HIDDEN) = Some u) as [HV1l HV1h].
    { unfold V1. destruct (decide (ptr p POINTER ≠ -1)) as [Hp1|]; [|done]. unfold del.
      pose proof (ln_other _ _ _ HL POINTER ltac:(done)). destruct (ln_apart _ _ _ HL Hp1) as [? _].
      by rewrite !upd_ne by congruence. }
    eapply (wpn_try _ _ _ (λ s2, ∃ D, ¬ D l ∧ ¬ D (ptr p HIDDEN) ∧ inv s2 V1 D rid mid)); [| |by intros err s' ??].
    + unfold V1. destruct (decide (ptr p POINTER ≠ -1)) as [Hp0|Hp0].
      * destruct (follow_not_none _ _ _ POINTER HL Hp0) as [q2 Hq2].
        eapply wpn_mono; [eapply wpn_unlink_pointed; [done..|by intros ?]|]. intros err s2 [H2 Hk2].
        split; [|done]. intros E. eexists. split_and!; [| |by apply H2].
        -- intros [Hx|[]]. by destruct (ln_other _ _ _ HL POINTER).
        -- intros [Hx|[]]. by destruct (ln_apart _ _ _ HL Hp0) as [[] _].
      * apply wpn_ret. split; [|apply keeps_refl]. intros _. exists (λ _, False). split_and!; [by intros ?..|done].
    + intros s2 (D & HD & HDh & Hinv2) Hk2.
      eapply wpn_try; [eapply (wpn_unlink_in _ _ _ _ _ l); [done|done|by apply Hk2, Hk1|done|done]| |by intros err s' ??].
      intros s3 Hinv3 Hk3.
      eapply wpn_try; [eapply (wpn_kv_reset _ _ _ _ _ (ptr p HIDDEN)); [exact Hinv3|done|by apply Hk3, Hk2| |]|
        |by intros err s' ??].
      * by intros [?|?].
      * unfold del. by rewrite upd_ne.
      * intros s4 Hinv4 Hk4. apply wpn_bind. eapply wpn_d_add_replica_old; [by apply Hk4, Hk3, Hk2|].
        eapply wpn_finish; [exact Hinv4|]. intros s5 Hinv5 _ _. by eexists.
  - rewrite decide_False by (rewrite Hin; by intros []).
    eapply wpn_try; [eapply (wpn_kv_modify _ _ _ _ _ l); [done|done|by apply Hk1|by intros ?|done| |unfold HIDDEN; lia]|
      |by intros err s' ??].
    + exact (links_ids _ _ _ _ _ _ _ _ Hinv Hpp Hl).
    + intros s2 Hinv2 Hk2. eapply wpn_finish; [exact Hinv2|]. intros s3 Hinv3 Hk3. cbn zeta.
      split_and!; [done| |done]. by do 2 (eapply keeps_trans; [done|]).
Qed.

Lemma wpn_recover_stale s V l e pp p rid mid :
  linked V l p → inv s V (λ _, False) rid mid → parent_at l pp → slot s l e → 0 ≤ ptr p STALE →
  wpn (recover_stale stack dn pn l e p) (λ err s', err = 0 → settles s' (recover V l rid mid)) s.
Proof.
  intros HL Hinv Hpp He Hge. pose proof (ln_local _ _ _ HL) as Hl.
  unfold recover_stale, recover. rewrite Hl. rewrite (decide_True (P := 0 ≤ ptr p STALE)) by done.
  destruct (follow_nonneg _ _ _ STALE HL Hge) as [q Hq].
  assert (ptr p STALE ≠ l) as Hsl by by apply (ln_other _ _ _ HL).
  apply wpn_bind. eapply wpn_mono; [eapply wpn_followed; [done..|by intros ?]|].
  intros r s1 (e1 & -> & He1 & Hinv1 & Hk1 & Hin). apply wpn_bind, wpn_observe. cbn zeta.
  set (V1 := match V (ptr p STALE) with
    | Some q0 => del (ptr p STALE) (if decide (ptr q0 POINTER ≠ -1) then del (ptr q0 POINTER) V else V)
    | None => V end).
  eapply (wpn_try _ _ _ (λ s2, ∃ D, ¬ D l ∧ inv s2 V1 D rid mid ∧ V1 l = Some p)); [| |by intros err s' ??].
  - unfold V1. destruct (V (ptr p STALE)) as [u|] eqn:Hu.
    + rewrite decide_True by (by apply Hin). apply wpn_bind.
      eapply wpn_mono; [eapply wpn_kv_get; [done..|by intros ?|done]|].
      intros [u' ret] s2 (-> & E & Hret). cbn [fst snd] in *. subst u'.
      set (V2 := if decide (ptr u POINTER ≠ -1) then del (ptr u POINTER) V else V).
      eapply (wpn_try _ _ _ (λ s3, ∃ D, ¬ D l ∧ ¬ D (ptr p STALE) ∧ inv s3 V2 D rid mid ∧
        V2 l = Some p ∧ V2 (ptr p STALE) = Some u)).
      * unfold V2. destruct (decide (ptr u POINTER ≠ -1)) as [Hp0|Hp0].
        -- destruct (ln_stale _ _ _ HL u Hu) as [?|([q2 Hq2] & Hul & Hus)]; [done|].
           rewrite decide_True.
           2:{ split; [|done]. destruct Hret as [?| ->]; [done|]. by destruct Hp0. }
           eapply wpn_mono; [eapply wpn_unlink_pointed; [done..|by intros ?]|]. intros err s2 [H2 Hk2].
           split; [|done]. intros E. eexists. split_and!; [| |by apply H2|..].
           ++ intros [Hx|[]]. by destruct Hul.
           ++ intros [Hx|[]]. by destruct Hus.
           ++ unfold del. by rewrite upd_ne.
           ++ unfold del. by rewrite upd_ne.
        -- rewrite decide_False by (by intros [_ ?]). apply wpn_ret. split; [|apply keeps_refl].
           intros _. exists (λ _, False). split_and!; [by intros ?..|done|done|done].
      * intros s3 (D & HD & HDs & Hinv3 & HV2l & HV2s) Hk3.
        eapply wpn_mono; [eapply (wpn_unlink_in _ _ _ _ _ (ptr p STALE)); [done|done|by apply Hk3|done|done]|].
        intros err s4 [H4 Hk4]. split; [|by eapply keeps_trans]. intros ->. eexists. split_and!; [|by apply H4|].
        -- by intros [?|?].
        -- unfold del. by rewrite upd_ne.
      * intros err s3 Hne Hk3. by split.
    + rewrite decide_False by (rewrite Hin; by intros []). apply wpn_ret. split; [|apply keeps_refl].
      intros _. exists (λ _, False). split_and!; [by intros ?|done|done].
  - intros s2 (D & HD & Hinv2 & HV1) Hk2.
    eapply wpn_try; [eapply (wpn_kv_reset _ _ _ _ _ l); [exact Hinv2|done|by apply Hk2, Hk1|done|done]| |by intros err s' ??].
    intros s3 Hinv3 _. eapply wpn_finish; [exact Hinv3|]. intros s4 Hinv4 _ _. by exists D.
Qed.

(** The whole of [validate_partitioned_file]. *)
(** Without memory for the dentry a link cannot be followed. *)
Lemma follow_fails s V D rid mid i p :
  inv s V D rid mid → parent_at i p → (∀ e, ¬ slot s i e) → (∀ w q n, (d_alloc w q n).2 = None) →
  follow dn pn i s = Oops.
Proof.
  intros Hinv Hp Hno Hal. unfold follow.
  eapply (oops_bind _ _ (λ r s', r = Some p ∧ s' = s)); [by eapply wpn_parent_replica|]. intros ? ? [-> ->].
  apply oops_here. unfold get_replica_dentry.
  destruct (slot_dec s V D rid mid i p Hinv Hp) as [[e He]|(x & d & Hx & Hd & Hnm & Hpn & Hu & Hnone)]; [by destruct (Hno e)|].
  eapply (oops_bind _ _ (λ r s', r = None ∧ s' = s)).
  { eapply (wpn_replica dn x d i None); [done..| |done]. unfold find_replica_dentry. destruct Hp as [Hi _]. rewrite decide_True by done. by rewrite Hnone. }
  intros ? ? [-> ->]. eapply (oops_bind _ _ (λ r s', r = d ∧ s' = s)); [by eapply wpn_SFS_D|]. intros ? ? [-> ->]. rewrite Hu.
  destruct (ag_parent _ _ (iv_agrees _ _ _ _ _ Hinv) i p Hp) as (Hk & dir & Hdir).
  eapply (oops_bind _ _ (λ r s', r = p ∧ s' = s)); [by apply wpn_deref|]. intros ? ? [-> ->].
  eapply (oops_bind _ _ (λ r s', r = Some dir ∧ s' = s)); [by apply wpn_observe|]. intros ? ? [-> ->].
  eapply (oops_bind _ _ (λ r s', s' = s)); [by apply wpn_deref|]. intros ? ? ->.
  eapply (oops_bind _ _ (λ r s', r = x ∧ s' = s)); [by eapply wpn_node|]. intros ? ? [-> ->].
  apply oops_here. unfold sfs_lookup_one_len.
  eapply (oops_bind _ _ (λ r s', r = Some dir ∧ s' = s)); [by apply wpn_observe|]. intros ? ? [-> ->].
  eapply (oops_bind _ _ (λ r _, r = None)).
  { destruct (d_alloc (s_vfs s) p (n_name x)) as [w1 r] eqn:E. eapply wpn_call; [exact E|].
    rewrite <- (Hal (s_vfs s) p (n_name x)). by rewrite E. }
  intros ? s1 ->. eapply (oops_bind _ _ (λ _ _, True)); [by apply wpn_deref|]. intros ? s2 _. by apply oops_here.
Qed.

Lemma validate_fails s V l e p rid mid :
  linked V l p → inv s V (λ _, False) rid mid → slot s l e → (∀ w q n, (d_alloc w q n).2 = None) →
  (∀ k, k ≠ POINTER → ptr p k < 0) → 0 ≤ ptr p POINTER → (∀ e', ¬ slot s (ptr p POINTER) e') →
  validate_partitioned_file stack dn l s = Oops.
Proof.
  intros HL Hinv He Hal Hc Hptr Hno. destruct (ln_target _ _ _ HL) as [pp Hpp]. pose proof (ln_local _ _ _ HL) as Hl.
  destruct (ln_follow _ _ _ HL POINTER) as [?|[rp Hrp]]; [lia|].
  assert (ptr p STALE < 0 ∧ ptr p HIDDEN < 0 ∧ ptr p RENAME < 0) as (? & ? & ?) by (split_and!; by apply Hc).
  destruct (fo_node _ _ _ (iv_file _ _ _ _ _ Hinv)) as (x & d & Hx & Hpar & _). unfold validate_partitioned_file.
  eapply (oops_bind _ _ (λ r s', r = x ∧ s' = s)); [by eapply wpn_node|]. intros ? ? [-> ->]. rewrite Hpar.
  eapply (oops_bind _ _ (λ r s', r = Some e ∧ s' = s)); [by eapply wpn_slot|]. intros ? ? [-> ->].
  eapply (oops_bind _ _ (λ r s', s' = s)); [by eapply wpn_parent_replica|]. intros ? ? ->.
  eapply (oops_bind _ _ (λ r s', r = e ∧ s' = s)); [by apply wpn_deref|]. intros ? ? [-> ->].
  eapply oops_bind; [apply (wpn_kv_get s V (λ _, False) rid mid l pp e p Hinv Hpp He (λ H, H) Hl)|].
  intros [p' ret] s2 (-> & E & Hret). cbn [fst snd] in *. subst p'.
  destruct (decide (0 < ret)) as [_|?]; [|destruct Hret as [?| ->]; [lia|by vm_compute in Hptr]]. rewrite !decide_False by lia.
  eapply (oops_bind _ _ (λ r s', r = None ∧ s' = s)); [by apply wpn_ret|]. intros ? ? [-> ->].
  eapply (oops_bind _ _ (λ r s', r = None ∧ s' = s)); [by apply wpn_ret|]. intros ? ? [-> ->].
  unfold recover_pointer. rewrite decide_True by done. apply oops_here. by eapply follow_fails.
Qed.

Lemma wpn_validate s V l e p rid mid :
  linked V l p → inv s V (λ _, False) rid mid → slot s l e →
  wpn (validate_partitioned_file stack dn l) (λ err s', err = 0 → settles s' (recover V l rid mid)) s.
Proof.
  intros HL Hinv He. destruct (ln_target _ _ _ HL) as [pp Hpp]. pose proof (ln_local _ _ _ HL) as Hl.
  unfold validate_partitioned_file.
  destruct (fo_node _ _ _ (iv_file _ _ _ _ _ Hinv)) as (x & d & Hx & Hpar & _).
  apply wpn_bind. eapply wpn_node; [done|]. rewrite Hpar. apply wpn_bind. eapply wpn_slot; [done|].
  apply wpn_bind. eapply wpn_parent_replica; [done..|]. apply wpn_bind, wpn_deref, wpn_bind.
  eapply wpn_mono; [eapply wpn_kv_get; [done..|by intros ?|done]|].
  intros [p' ret] s2 (-> & E & Hret). cbn [fst snd] in *. subst p'.
  destruct (decide (0 < ret)) as [Hpos|Hneg].
  2:{ destruct Hret as [?| ->]; [done|]. eapply wpn_finish; [done|]. intros s' Hinv' _ _.
      unfold recover. rewrite Hl. by exists (λ _, False). }
  destruct (decide (0 ≤ ptr p STALE)) as [Hst|Hst]; [by eapply wpn_recover_stale|].
  apply wpn_bind.
  eapply (wpn_mono _ (λ r s', match r with
    | Some err => err = 0 → settles s' (recover V l rid mid)
    | None => ∃ V' p' rid', inv s' V' (λ _, False) rid' mid ∧ V' l = Some p' ∧ keeps s s' ∧
        recover V l rid mid = recover_ren V' l p p' rid' mid
    end)).
  { destruct (decide (0 ≤ ptr p HIDDEN)) as [Hh|Hh].
    - eapply wpn_mono; [eapply wpn_recover_hidden; [done..|lia]|]. intros [err|] s' Hs'; [done|].
      destruct Hs' as (Hinv' & Hk' & E). eexists _, _, _. split_and!; [exact Hinv'| |done|exact E].
      unfold upd. by rewrite decide_True.
    - apply wpn_ret. exists V, p, rid. split_and!; [done..|apply keeps_refl|]. unfold recover.
      rewrite Hl, !decide_False by done. done. }
  intros [err|] s1 Hs1; [by apply wpn_ret|]. destruct Hs1 as (V1 & p1 & rid1 & Hinv1 & Hl1 & Hk1 & E). rewrite E.
  apply wpn_bind. eapply (wpn_mono _ (λ r s', match r with
    | Some err => err = 0 → settles s' (recover_ren V1 l p p1 rid1 mid)
    | None => ∃ V', inv s' V' (λ _, False) rid1 mid ∧ is_Some (V' l) ∧ keeps s s' ∧
        recover_ren V1 l p p1 rid1 mid = recover_point V' l p rid1 mid
    end)).
  { destruct (decide (0 ≤ ptr p RENAME)) as [Hr|Hr].
    - eapply wpn_mono; [eapply wpn_recover_rename; [done|done|done|done|by apply Hk1|done]|].
      intros [err|] s' Hs'; [done|]. destruct Hs' as (V' & ? & ? & Hk' & ?). exists V'. split_and!; [done..| |done].
      by eapply keeps_trans.
    - apply wpn_ret. exists V1. split_and!; [done|by rewrite Hl1|done|]. unfold recover_ren. by rewrite decide_False. }
  intros [err|] s2 Hs2; [by apply wpn_ret|]. destruct Hs2 as (V2 & Hinv2 & [p2 Hl2] & Hk2 & E2). rewrite E2.
  eapply wpn_recover_pointer; [done|done|by exists p2|done|by apply Hk2].
Qed.

End refine.

Section achieve.
Variable pd : sfs_dentry.

(** No recovery is pending: at most the link POINTER is set. *)
Definition clean (v : list Z) : Prop := ∀ k, k ≠ POINTER → ptr v k < 0.

(** A file SFS can use: it is there, and when it is partitioned, with its pointer file in replica
    [meta], that points to the data. *)
Definition usable (V : view) (rep meta : Z) : Prop :=
  (meta = -1 ∧ ∃ v, V rep = Some v ∧ clean v ∧ ptr v POINTER < 0) ∨
  (meta ≠ -1 ∧ 0 ≤ rep ∧ is_Some (V rep) ∧ ∃ v, V meta = Some v ∧ clean v ∧ ptr v POINTER = rep).

(** The pointer file was removed, since the data it points to is not there. *)
Definition gone (V V' : view) (l : Z) (p : list Z) : Prop :=
  0 ≤ ptr p POINTER ∧ V (ptr p POINTER) = None ∧ V' l = None.

(** *** What the repair achieves *)
Lemma upd_eq V i o : upd V i o i = o.
Proof. unfold upd. by rewrite decide_True. Qed.

Lemma clean_pointer x : clean [x; -1; -1; -1].
Proof. intros [|[|[|[|k]]]] Hk; unfold ptr; simpl; (done || lia || by destruct k). Qed.

Lemma clean_set v k :
  length v = 4%nat → (∀ j, j ≠ POINTER → j ≠ k → ptr v j < 0) → clean (set_link k (-1) v).
Proof.
  intros Hlen Hv j Hj. unfold ptr, set_link in *. destruct (decide (j = k)) as [->|Hne].
  - destruct (decide (k < length v)%nat).
    + erewrite nth_lookup_Some; [|by apply list_lookup_insert_eq]. lia.
    + rewrite nth_overflow; [lia|]. rewrite length_insert. lia.
  - rewrite nth_lookup, list_lookup_insert_ne, <- nth_lookup by done. by apply Hv.
Qed.

Lemma ptr_set v k j x : j ≠ k → ptr (set_link k x v) j = ptr v j.
Proof. intros. unfold ptr, set_link. by rewrite nth_lookup, list_lookup_insert_ne, <- nth_lookup. Qed.

Lemma recover_point_usable V l p p' rid :
  0 ≤ l → ptr p POINTER ≠ l → V l = Some p' → ptr p' POINTER = ptr p POINTER → clean p' →
  let r := recover_point V l p rid (-1) in
  usable (v_view r) (v_replica r) (v_meta r) ∨ gone V (v_view r) l p.
Proof.
  intros Hl0 Hpl Hl Hp' Hc. unfold recover_point.
  destruct (decide (0 ≤ ptr p POINTER)) as [Hge|Hlt]; cbn [v_view v_replica v_meta].
  - destruct (V (ptr p POINTER)) as [q|] eqn:Hq; cbn [v_view v_replica v_meta].
    + left. right. split_and!; [lia|done|case_decide; [by rewrite upd_eq|by rewrite Hq]|].
      exists p'. split_and!; [|done|done]. case_decide; [|done]. by rewrite upd_ne by congruence.
    + right. split_and!; [done..|]. apply upd_eq.
  - left. left. split; [done|]. exists p'. split_and!; [done..|lia].
Qed.

Lemma recover_ren_usable V0 V l p p' rid :
  linked pd V0 l p → (∀ j, j ≠ l → V j = V0 j) → V l = Some p' → length p' = 4%nat →
  ptr p' POINTER = ptr p POINTER → ptr p' RENAME = ptr p RENAME → ptr p' STALE < 0 → ptr p' HIDDEN < 0 →
  let r := recover_ren V l p p' rid (-1) in
  usable (v_view r) (v_replica r) (v_meta r) ∨ gone V0 (v_view r) l p.
Proof.
  intros HL HV Hl Hlen Hpp Hpr Hps Hph. pose proof (ln_other _ _ _ _ HL POINTER ltac:(done)) as Hpl.
  pose proof (target_nonneg _ _ (ln_target _ _ _ _ HL)) as Hl0.
  assert (∀ j, j ≠ POINTER → j ≠ RENAME → ptr p' j < 0) as Hothers.
  { intros [|[|[|[|j]]]] ??; try done. unfold ptr. rewrite nth_overflow; lia. }
  assert (∀ V'', gone V V'' l p → gone V0 V'' l p) as Hgone.
  { intros V'' (? & ? & ?). split_and!; [done| |done]. by rewrite <- HV. }
  unfold recover_ren. destruct (decide (0 ≤ ptr p RENAME)) as [Hr|Hr]; cbn zeta.
  2:{ destruct (recover_point_usable V l p p' rid) as [?|?]; [done..| |by left|right; by apply Hgone].
      intros j Hj. destruct (decide (j = RENAME)) as [->|]; [lia|auto]. }
  destruct (decide (ptr p RENAME = l)) as [He|Hne]; cbn [v_view v_replica v_meta].
  { left. left. split; [done|]. exists no_pointers. split_and!; [apply upd_eq|apply clean_pointer|done]. }
  destruct (V (ptr p RENAME)) as [u|] eqn:Hu; cbn [v_view v_replica v_meta].
  - left. right. split_and!; [lia|done| |].
    + rewrite upd_ne by done. destruct (decide (0 ≤ ptr p POINTER)) as [Hp|Hp]; [|by rewrite Hu].
      unfold del. rewrite upd_ne; [by rewrite Hu|]. destruct (ln_apart _ _ _ _ HL); [lia|congruence].
    + eexists. split_and!; [apply upd_eq|apply clean_pointer|done].
  - destruct (recover_point_usable (upd V l (Some (set_link RENAME (-1) p'))) l p (set_link RENAME (-1) p') rid)
      as [?|(? & Hg & ?)].
    + done.
    + done.
    + by rewrite upd_eq.
    + by rewrite ptr_set.
    + apply clean_set; auto.
    + by left.
    + right. apply Hgone. split_and!; [done| |done]. by rewrite upd_ne in Hg.
Qed.

Lemma recover_usable V l p rid :
  linked pd V l p → length p = 4%nat →
  let r := recover V l rid (-1) in
  usable (v_view r) (v_replica r) (v_meta r) ∨ gone V (v_view r) l p.
Proof.
  intros HL Hlen. pose proof (ln_local _ _ _ _ HL) as Hl.
  assert (∀ i V' mid, mid = -1 → usable (upd V' i (Some no_pointers)) i mid) as Hreset.
  { intros i V' mid ->. left. split; [done|]. exists no_pointers. split_and!; [apply upd_eq|apply clean_pointer|done]. }
  unfold recover. rewrite Hl. destruct (decide (0 ≤ ptr p STALE)) as [Hst|Hst]; [left; by apply Hreset|].
  destruct (decide (0 ≤ ptr p HIDDEN)) as [Hh|Hh].
  - destruct (V (ptr p HIDDEN)) as [u|]; [left; by apply Hreset|].
    assert (ptr (set_link HIDDEN (-1) p) HIDDEN < 0).
    { unfold ptr, set_link, HIDDEN in *. by destruct p as [|a [|b [|c p]]]. }
    apply recover_ren_usable; rewrite ?ptr_set by done; try done.
    + intros j Hj. by rewrite upd_ne.
    + by rewrite upd_eq.
    + unfold set_link. by rewrite length_insert.
    + lia.
  - apply recover_ren_usable; (done || lia).
Qed.

(** A usable file needs no further repair: validating it again finds the same data. *)
Lemma usable_stable V rep meta :
  usable V rep meta →
  let r := recover V (if decide (meta ≠ -1) then meta else rep) rep meta in
  v_replica r = rep ∧ v_meta r = meta ∧ usable (v_view r) rep meta.
Proof.
  assert (∀ v, clean v → ¬ 0 ≤ ptr v STALE ∧ ¬ 0 ≤ ptr v HIDDEN ∧ ¬ 0 ≤ ptr v RENAME) as Hclean.
  { intros v Hv. pose proof (Hv STALE). pose proof (Hv HIDDEN). pose proof (Hv RENAME).
    unfold STALE, HIDDEN, RENAME, POINTER in *. lia. }
  intros HU. destruct HU as [(-> & v & Hv & Hc & Hp)|(Hm & Hr0 & [u Hr] & v & Hv & Hc & Hp)].
  - rewrite decide_False by (intros H; by apply H). unfold recover, recover_ren, recover_point. rewrite Hv.
    destruct (Hclean v Hc) as (? & ? & ?). rewrite !decide_False by (done || lia). split_and!; [done..|].
    left. split; [done|]. by exists v.
  - rewrite decide_True by done. unfold recover, recover_ren, recover_point. rewrite Hv.
    destruct (Hclean v Hc) as (? & ? & ?). do 3 (rewrite decide_False by done).
    rewrite decide_True by lia. rewrite Hp, Hr. split_and!; [done..|].
    right. cbn [v_view]. destruct (decide (ptr u POINTER ≠ meta)); [|split_and!; [done..|by rewrite Hr|by exists v]].
    split_and!; [done|done|by rewrite upd_eq|].
    destruct (decide (meta = rep)) as [->|Hne].
    + exists [rep; -1; -1; -1]. split_and!; [by rewrite upd_eq|apply clean_pointer|done].
    + exists v. by rewrite upd_ne.
Qed.
End achieve.

(** ** A rename interrupted: an instance

    Three replicas of the directory; the file's pointer file in replica 0 still points to the old
    data in replica 2, and its RENAME link to the new data, already in replica 1. *)
Definition text (v : list Z) : list Z := format4 v ++ [0].

Definition crashed_vfs : mvfs := {|
  m_child := <[(100, [97]) := 10]> (<[(101, [97]) := 11]> (<[(102, [97]) := 12]> ∅));
  m_root := <[100 := 1]> (<[101 := 2]> (<[102 := 3]> ∅));
  m_place := <[110 := (100, [97])]> ∅;
  m_mode := ∅;
  m_attr := <[(10, MetaAttr) := text [2; 1; -1; -1]]> (<[(11, MetaAttr) := text [-1; 0; -1; -1]]>
    (<[(12, MetaAttr) := text [0; -1; -1; -1]]> ∅));
  m_next := 200;
  m_ino := 20;
|}.

Definition dir3 : sfs_dentry := SfsDentry [Some 100; Some 101; Some 102] None (-1) (-1) 0 0 1 0 1.
Definition file3 : sfs_dentry := SfsDentry [Some 110; None; None] None (-1) (-1) 0 0 0 (-1) 0.

Definition crashed : sfs mvfs := {|
  s_vfs := crashed_vfs;
  s_tree := <[1 := SNode 0 [97] (Some file3) None 0]> (<[0 := SNode 0 [47] (Some dir3) (Some S_IFDIR) 2]> ∅);
  s_last := 0;
  s_allocs := 0;
|}.

Definition crashed_view : view := λ i,
  if decide (i = 0) then Some [2; 1; -1; -1] else if decide (i = 1) then Some [-1; 0; -1; -1]
  else if decide (i = 2) then Some [0; -1; -1; -1] else None.

Lemma dir3_parents i p :
  parent_at dir3 i p → (i = 0 ∧ p = 100) ∨ (i = 1 ∧ p = 101) ∨ (i = 2 ∧ p = 102).
Proof.
  intros [Hi Hp]. destruct (Z.to_nat i) as [|[|[|k]]] eqn:E; cbn in Hp; simplify_eq;
    [left|right; left|right; right]; split; (done || lia).
Qed.

Lemma dir3_distinct i j q :
  replicas dir3 !! i = Some (Some q) → replicas dir3 !! j = Some (Some q) → i = j.
Proof. destruct i as [|[|[|i]]], j as [|[|[|j]]]; cbn; intros; simplify_eq; done. Qed.

Lemma crashed_inv : inv 3 1 0 [97] dir3 crashed crashed_view (λ _, False) (-1) (-1).
Proof.
  constructor.
  - constructor; [|eexists; by split]. by eexists _, _.
  - assert (∀ v : list Z, replica_ids v → (length (format4 v) < 20)%nat → encodes (text v) v) as Henc.
    { intros v Hv Hl. split_and!; [done|unfold text; rewrite length_app; simpl; lia|by exists []]. }
    constructor.
    + intros i p Hp. destruct (dir3_parents i p Hp) as [[-> ->]|[[-> ->]|[-> ->]]]; (split; [done|by eexists]).
    + intros i p Hp. destruct (dir3_parents i p Hp) as [[-> ->]|[[-> ->]|[-> ->]]];
        (eexists; split; [reflexivity|apply Henc; [split; [done|repeat constructor; lia]|vm_compute; lia]]).
    + intros i j p q a Hp Hq. destruct (dir3_parents i p Hp) as [[-> ->]|[[-> ->]|[-> ->]]];
        destruct (dir3_parents j q Hq) as [[-> ->]|[[-> ->]|[-> ->]]]; vm_compute; congruence.
    + intros i j p q Hp Hq. destruct (dir3_parents i p Hp) as [[-> ->]|[[-> ->]|[-> ->]]]; done.
  - intros i e (x & d & Hx & Hd & Hi & He). vm_compute in Hx. injection Hx as <-. vm_compute in Hd. injection Hd as <-.
    destruct (Z.to_nat i) as [|[|[|k]]] eqn:E; simpl in He; simplify_eq.
    assert (i = 0) as -> by lia. exists 100. by split_and!.
Qed.

Lemma crashed_linked : linked dir3 crashed_view 0 [2; 1; -1; -1].
Proof.
  assert (∀ i : Z, 0 ≤ i < 3 → target dir3 i) as Ht.
  { intros i Hi. destruct (lookup_lt_is_Some_2 (replicas dir3) (Z.to_nat i)) as [[p|] Hp]; [simpl; lia| |].
    - exists p. split; [lia|done].
    - by destruct (Z.to_nat i) as [|[|[|k]]]. }
  constructor.
  - done.
  - apply Ht. lia.
  - intros [|[|[|[|[|k]]]]]; unfold ptr; cbn [nth]; first [left; done|right; apply Ht; lia].
  - intros [|[|[|[|[|k]]]]] Hk; unfold ptr; cbn [nth]; done.
  - done.
  - intros q Hq. by vm_compute in Hq.
Qed.

(** * Properties *)

(** C17: [validate_partitioned_file] refines the repair of the links.  It follows links through
    dentries it may have to look up, reads and writes them as text in extended attributes, and
    unlinks files; when the links name replicas where the directory exists, and no replica
    twice, it runs without an invalid access, and when it returns 0 the files and links of all
    replicas and the identifiers in the dentry are those of [recover].  This is for lookups in the
    layer below that do not fail ([lookups_work]: [d_alloc] has memory and [lookup] returns no
    error pointer), since the code uses the result of [get_replica_dentry] untested
    ([failed_lookup_faults] shows what happens otherwise), and for a directory whose dentry has
    one slot per replica, which leaves out the 64 slots of the root. *)
Theorem validate_refines_recover {W} `{!Vfs W, !VfsView W, !VfsOk W} (replica_count : nat) stack (dn pn : Z) nm pd
    s V l e p rid mid :
  (∀ n, length (stack n) = n) → lookups_work W →
  length (replicas pd) = replica_count → (replica_count ≤ 64)%nat → dn ≠ pn →
  (∀ i j q, replicas pd !! i = Some (Some q) → replicas pd !! j = Some (Some q) → i = j) →
  inv replica_count dn pn nm pd s V (λ _, False) rid mid → linked pd V l p → slot dn s l e →
  ∃ err s', validate_partitioned_file stack dn l s = Ok (err, s') ∧
    (err = 0 → settles replica_count dn pn nm pd s' (recover V l rid mid)).
Proof. intros. by eapply wpn_validate. Qed.

Lemma validate_refines_recover_witness :
  ∃ err s', validate_partitioned_file zero_stack 1 0 crashed = Ok (err, s') ∧ err = 0 ∧
    settles 3 1 0 [97] dir3 s' (recover crashed_view 0 (-1) (-1)) ∧
    v_replica (recover crashed_view 0 (-1) (-1)) = 1 ∧ v_meta (recover crashed_view 0 (-1) (-1)) = 0.
Proof.
  destruct (validate_refines_recover (W := mvfs) 3 zero_stack 1 0 [97] dir3 crashed crashed_view 0 110
    [2; 1; -1; -1] (-1) (-1)) as (err & s' & E & Hs).
  - intros n. apply length_replicate.
  - apply mvfs_lookups.
  - reflexivity.
  - lia.
  - lia.
  - apply dir3_distinct.
  - apply crashed_inv.
  - apply crashed_linked.
  - eexists _, _. split_and!; [reflexivity|reflexivity|lia|reflexivity].
  - assert (err = 0) as ->.
    { assert (match validate_partitioned_file zero_stack 1 0 crashed with Ok (e, _) => e | _ => 1 end = 0) as E0
        by (vm_compute; reflexivity). by rewrite E in E0. }
    exists 0, s'. split_and!; [done|done|by apply Hs|reflexivity|reflexivity].
Defined.

(** The lookups must succeed: [validate_partitioned_file] does not test what [get_replica_dentry]
    returns.  For a partitioned file whose data is not in the dentry's array yet, it follows a bad
    pointer when there is no memory for the new dentry. *)
Theorem failed_lookup_faults {W} `{!Vfs W, !VfsView W, !VfsOk W} (replica_count : nat) stack (dn pn : Z) nm pd
    s V l e p rid mid :
  (∀ n, length (stack n) = n) →
  length (replicas pd) = replica_count → (replica_count ≤ 64)%nat → dn ≠ pn →
  inv replica_count dn pn nm pd s V (λ _, False) rid mid → linked pd V l p → slot dn s l e →
  clean p → 0 ≤ ptr p POINTER → (∀ e', ¬ slot dn s (ptr p POINTER) e') →
  (∀ w q n, (d_alloc w q n).2 = None) →
  validate_partitioned_file stack dn l s = Oops.
Proof. intros. by eapply validate_fails. Qed.

(** C18: After a lookup's validation the file is usable: either the pointer file was removed
    because the data it points to does not exist, or the data is there and, for a partitioned
    file, the pointer file points to it with no repair pending.  Validating a usable file again
    keeps it as it is.  As above, for lookups below that do not fail and a directory other than
    the root. *)
Theorem validation_settles {W} `{!Vfs W, !VfsView W, !VfsOk W} (replica_count : nat) stack (dn pn : Z) nm pd
    s V l e p rid :
  (∀ n, length (stack n) = n) → lookups_work W →
  length (replicas pd) = replica_count → (replica_count ≤ 64)%nat → dn ≠ pn →
  (∀ i j q, replicas pd !! i = Some (Some q) → replicas pd !! j = Some (Some q) → i = j) →
  inv replica_count dn pn nm pd s V (λ _, False) rid (-1) → linked pd V l p → slot dn s l e →
  ∃ err s', validate_partitioned_file stack dn l s = Ok (err, s') ∧
    (err = 0 → ∃ V' D rep meta, inv replica_count dn pn nm pd s' V' D rep meta ∧
      (gone V V' l p ∨
       usable V' rep meta ∧
       let r := recover V' (if decide (meta ≠ -1) then meta else rep) rep meta in
       v_replica r = rep ∧ v_meta r = meta ∧ usable (v_view r) rep meta)).
Proof.
  intros ?????? Hinv HL He. destruct (ln_target _ _ _ _ HL) as [pp Hpp].
  assert (wpn (validate_partitioned_file stack dn l)
    (λ err s', err = 0 → settles replica_count dn pn nm pd s' (recover V l rid (-1))) s) as (err & s' & E & Hs)
    by by eapply wpn_validate.
  exists err, s'. split; [done|]. intros E0. destruct (Hs E0) as [D HD]. eexists _, D, _, _. split; [exact HD|].
  destruct (recover_usable pd V l p rid HL) as [Hu|Hg].
  - assert (replica_ids p) as [? _]; [|done]. eapply links_ids; [done|done|exact Hinv|exact Hpp|exact (ln_local _ _ _ _ HL)].
  - right. split; [done|]. by apply usable_stable.
  - by left.
Qed.

Lemma validation_settles_witness :
  ∃ s' V' D, validate_partitioned_file zero_stack 1 0 crashed = Ok (0, s') ∧
    inv 3 1 0 [97] dir3 s' V' D 1 0 ∧ usable V' 1 0.
Proof.
  destruct (validation_settles (W := mvfs) 3 zero_stack 1 0 [97] dir3 crashed crashed_view 0 110
    [2; 1; -1; -1] (-1)) as (err & s' & E & Hs).
  - intros n. apply length_replicate.
  - apply mvfs_lookups.
  - reflexivity.
  - lia.
  - lia.
  - apply dir3_distinct.
  - apply crashed_inv.
  - apply crashed_linked.
  - eexists _, _. split_and!; [reflexivity|reflexivity|lia|reflexivity].
  - assert (err = 0) as ->.
    { assert (match validate_partitioned_file zero_stack 1 0 crashed with Ok (e, _) => e | _ => 1 end = 0) as E0
        by (vm_compute; reflexivity). by rewrite E in E0. }
    destruct (Hs eq_refl) as (V' & D & rep & meta & Hinv & HU).
    exists s', V', D.
    assert (match validate_partitioned_file zero_stack 1 0 crashed with
      | Ok (_, s) => match s_tree s !! 1 with Some (SNode _ _ (Some d) _ _) => (replica_id d, meta_id d) | _ => (9, 9) end
      | _ => (9, 9) end = (1, 0)) as Eids by (vm_compute; reflexivity).
    rewrite E in Eids.
    destruct (fo_node _ _ _ _ _ _ _ _ (iv_file _ _ _ _ _ _ _ _ _ _ Hinv)) as (x & d & Hx & _ & _ & Hd & _ & _ & Hr & Hm).
    rewrite Hx in Eids. destruct x as [? ? fs ? ?]. cbn in Hd. subst fs. injection Eids as E1 E2.
    assert (rep = 1) as -> by congruence. assert (meta = 0) as -> by congruence.
    split_and!; [done..|]. destruct HU as [(_ & Hg & _)|[HU _]]; [by vm_compute in Hg|done].
Defined.
