(* ===== verification/SfsRename.v ===== *)
(** * SFS: rename

    Models sfs16/rename.c: the order of locks, the exchange of replica dentries, renaming of
    directories and of files, to a name that does not exist ([rename2non]) and to one that does
    ([rename2exist]).  A rename moves the data file inside its replica; links in extended
    attributes announce the move before it and are cleared after it, so that a lookup after a
    crash can tell which file is the right one (see [validate_partitioned_file]). *)
From S2P Require Import Prelude Interfaces SfsDispatch SfsKv SfsDentry SfsVfs SfsView SfsNamei.

(** A mutex held: the one of the super block for renames, or the one of a directory with its
    lockdep class. *)
Inductive mutex_class := I_MUTEX_OTHER_NORMAL | I_MUTEX_OTHER_PARENT | I_MUTEX_OTHER_CHILD.
Inductive lock := RenameMutex | DirMutex (dentry : Z) (class : mutex_class).

Section rename.
Context {W : Type} `{!Vfs W}.
Variable replica_count : nat.
Variable stack : nat → list Z.
Variable kmalloc_ok : nat → bool.
(** The depth of the trees. *)
Variable depth : nat.
(** [fs_flags & FS_RENAME_DOES_D_MOVE] of the file system of a directory. *)
Variable rename_does_d_move : Z → bool.

Abbreviation N := (SfsVfs.N W).

(** ** Locks *)

(** [d_ancestor (p1, p2)]: the child of [p1] on the way from [p2] to the root. *)
Fixpoint ancestor_loop (fuel : nat) (w : W) (p1 p : Z) : res (option Z) :=
  match fuel with
  | O => NoFuel
  | S fuel =>
      if decide (d_parent w p = p) then Ok None
      else if decide (d_parent w p = p1) then Ok (Some p) else ancestor_loop fuel w p1 (d_parent w p)
  end.

Definition d_ancestor (w : W) (p1 p2 : Z) : res (option Z) := ancestor_loop depth w p1 p2.

(** The locks in the order they are taken. *)
Definition sfs_lock_rename (w : W) (p1 p2 : Z) : res (option Z * list lock) :=
  if decide (p1 = p2) then Ok (None, [DirMutex p1 I_MUTEX_OTHER_PARENT]) else
  p ← d_ancestor w p2 p1;
  match p with
  | Some p => Ok (Some p, [RenameMutex; DirMutex p2 I_MUTEX_OTHER_PARENT; DirMutex p1 I_MUTEX_OTHER_CHILD])
  | None =>
      p ← d_ancestor w p1 p2;
      match p with
      | Some p => Ok (Some p, [RenameMutex; DirMutex p1 I_MUTEX_OTHER_PARENT; DirMutex p2 I_MUTEX_OTHER_CHILD])
      | None => Ok (None, [RenameMutex; DirMutex p1 I_MUTEX_OTHER_PARENT; DirMutex p2 I_MUTEX_OTHER_CHILD])
      end
  end.

(** The mutexes released, in order: [None] stands for the one of the super block. *)
Definition sfs_unlock_rename (p1 p2 : Z) : list (option Z) :=
  if decide (p1 = p2) then [Some p1] else [Some p1; Some p2; None].

(** ** Replica dentries *)

(** The assignment of NULL is written as a comparison: the slot keeps the dentry that is put. *)
Definition reset_replica_dentry (target replica_id : Z) : N () :=
  r ← replica target replica_id;
  match r with
  | Some d => effect (λ w, dput w d)
  | None => mret ()
  end.

Fixpoint move_from (n : nat) (loop dentry target replica_id : Z) : N () :=
  match n with
  | O => mret ()
  | S n =>
      if decide (loop = replica_id) then move_from n (loop + 1) dentry target replica_id else
      r ← replica dentry loop;
      t ← replica target loop;
      _ ← set_D dentry (λ d, d <| replicas ::= <[Z.to_nat loop := t]> |>);
      _ ← set_D target (λ d, d <| replicas ::= <[Z.to_nat loop := r]> |>);
      move_from n (loop + 1) dentry target replica_id
  end.

Definition sfs_d_move (dentry target replica_id : Z) : N () := move_from replica_count 0 dentry target replica_id.

(** [write_inode_now (d->d_inode, 1)] *)
Definition sync (d : Z) : N () :=
  i ← inode d; i ← deref i; effect (λ w, write_inode_now w i).

(** [old_parent->d_inode->i_op->rename (...)], between [sfs_lock_rename] and [sfs_unlock_rename]. *)
Definition do_rename (old_parent old new_parent new : Z) : N Z :=
  od ← inode old_parent; od ← deref od;
  nd ← inode new_parent; nd ← deref nd;
  call (λ w, i_rename w od old nd new).

(** ** Directories *)

(** The replicas one by one; [inl]: the loop is left by [goto revert].  The result of [rename] is
    not returned. *)
Fixpoint rename_replicas (n : nat) (loop old_dentry old_parent new_dentry new_parent : Z) : N (Z + ()) :=
  match n with
  | O => mret (inr ())
  | S n =>
      r ← replica old_dentry loop;
      p ← present r;
      match r with
      | Some old_replica_dentry =>
          if (p : bool) then
            op ← replica old_parent loop;
            old_replica_parent ← deref op;
            oi ← inode old_replica_parent;
            if decide (oi = None) then mret (inl (- EIO)) else
            np ← create_replica_dir kmalloc_ok depth new_parent loop CLONE_SHADOW;
            new_replica_parent ← deref_err np;
            r ← get_replica_dentry (Some new_replica_parent) new_dentry loop;
            match r with
            | inl err => mret (inl err)
            | inr new_replica_dentry =>
                error ← do_rename old_replica_parent old_replica_dentry new_replica_parent new_replica_dentry;
                oi ← deref oi;
                _ ← (if decide (error = 0 ∧ rename_does_d_move oi = false)
                     then effect (λ w, d_move w old_replica_dentry new_replica_dentry) else mret ());
                rename_replicas n (loop + 1) old_dentry old_parent new_dentry new_parent
            end
          else
            _ ← set_D old_dentry (λ d, d <| replicas ::= <[Z.to_nat loop := None]> |>);
            rename_replicas n (loop + 1) old_dentry old_parent new_dentry new_parent
      | None =>
          _ ← set_D old_dentry (λ d, d <| replicas ::= <[Z.to_nat loop := None]> |>);
          rename_replicas n (loop + 1) old_dentry old_parent new_dentry new_parent
      end
  end.

Definition sfs_rename_dir (old_dentry new_dentry : Z) : N Z :=
  nx ← node new_dentry;
  error ← (if decide (is_Some (n_mode nx)) then sfs_rmdir replica_count new_dentry else mret 0);
  if decide (error ≠ 0) then mret error else
  ox ← node old_dentry;
  mode ← deref (n_mode ox);
  r ← rename_replicas replica_count 0 old_dentry (n_parent ox) new_dentry (n_parent nx);
  match r with
  | inl error => mret error
  | inr _ =>
      d ← SFS_D (n_parent nx);
      replica_id ← (if decide (first_normal_dir_id d = -1) then next_dispatch replica_count
                    else mret (first_normal_dir_id d));
      simple_add_dir_entry kmalloc_ok depth new_dentry mode replica_id CLONE_NORMAL
  end.

(** ** Files *)

(** Remove the pointer file of the source, if any; failure is left to a later lookup. *)
Definition unlink_parent_of (d : Z) : N Z :=
  p ← observe (λ w, d_parent w d); dir ← inode p; simple_unlink_not_put dir d.

(** The new name gets the replica itself ([can_turn]). *)
Definition move_simple (old_dentry old_replica_id old_meta_id old_replica_parent old_replica_dentry
    new_replica_parent new_replica_dentry : Z) : N Z :=
  err ← (if decide (old_meta_id ≠ -1) then
           err ← kv_put stack old_replica_dentry [-1; old_replica_id; -1; -1];
           if decide (err ≠ 0) then mret err else _ ← sync old_replica_dentry; mret 0
         else mret 0);
  if decide (err ≠ 0) then mret err else
  err ← do_rename old_replica_parent old_replica_dentry new_replica_parent new_replica_dentry;
  if decide (err ≠ 0) then mret err else
  _ ← effect (λ w, d_move w old_replica_dentry new_replica_dentry);
  _ ← sync old_replica_parent; _ ← sync new_replica_parent;
  _ ← (if decide (old_meta_id ≠ -1) then _ ← kv_reset stack old_replica_dentry; mret () else mret ());
  _ ← set_D old_dentry (set_meta_id (-1));
  mret 0.

(** The new name gets a pointer file in a normal directory. *)
Definition move_pointed (old_dentry new_dentry new_parent old_replica_id old_replica_parent old_replica_dentry
    new_replica_parent new_replica_dentry : Z) : N Z :=
  new_meta_id ← do_select_normal_dir_rr replica_count new_parent;
  mp ← replica new_parent new_meta_id;
  r ← get_replica_dentry mp new_dentry new_meta_id;
  ox ← node old_dentry;
  mode ← deref (n_mode ox);
  new_meta_parent ← deref mp;
  dir ← inode new_meta_parent; dir ← deref dir;
  new_meta_dentry ← deref_err r;
  err ← call (λ w, i_create w dir new_meta_dentry mode false);
  if decide (err ≠ 0) then mret err else
  err ← kv_put stack new_meta_dentry [old_replica_id; -1; -1; -1];
  if decide (err ≠ 0) then mret err else
  _ ← sync new_meta_dentry;
  err ← kv_put stack old_replica_dentry [-1; new_meta_id; -1; -1];
  if decide (err ≠ 0) then mret err else
  _ ← sync old_replica_dentry;
  err ← do_rename old_replica_parent old_replica_dentry new_replica_parent new_replica_dentry;
  if decide (err ≠ 0) then mret err else
  _ ← effect (λ w, d_move w old_replica_dentry new_replica_dentry);
  _ ← sync old_replica_parent; _ ← sync new_replica_parent;
  _ ← kv_put stack old_replica_dentry [new_meta_id; -1; -1; -1];
  _ ← set_D old_dentry (set_meta_id new_meta_id);
  mret 0.

Definition rename2non (old_dentry new_dentry : Z) : N Z :=
  od ← SFS_D old_dentry;
  let old_replica_id := replica_id od in
  let old_meta_id := meta_id od in
  ord ← replica old_dentry old_replica_id;
  ox ← node old_dentry;
  nx ← node new_dentry;
  orp ← replica (n_parent ox) old_replica_id;
  can_turn ← can_turn2normal replica_count (n_parent nx) old_replica_id;
  r ← create_replica_dir kmalloc_ok depth (n_parent nx) old_replica_id (if (can_turn : bool) then CLONE_NORMAL else CLONE_SHADOW);
  match r with
  | inl err => mret err
  | inr new_replica_parent =>
      r ← get_replica_dentry (Some new_replica_parent) new_dentry old_replica_id;
      match r with
      | inl err => mret err
      | inr new_replica_dentry =>
          old_replica_dentry ← deref ord;
          old_replica_parent ← deref orp;
          err ← (if (can_turn : bool)
                 then move_simple old_dentry old_replica_id old_meta_id old_replica_parent old_replica_dentry
                        new_replica_parent new_replica_dentry
                 else move_pointed old_dentry new_dentry (n_parent nx) old_replica_id old_replica_parent
                        old_replica_dentry new_replica_parent new_replica_dentry);
          if decide (err ≠ 0) then mret err else
          _ ← (if decide (old_meta_id ≠ -1) then
                 om ← replica old_dentry old_meta_id; om ← deref om;
                 _ ← unlink_parent_of om; mret ()
               else mret ());
          _ ← sfs_d_move old_dentry new_dentry old_replica_id;
          mret 0
      end
  end.

(** What [rename2exist] knows of the two files; [-1] and [None] where there is no pointer file. *)
Record files := Files {
  old_replica_id : Z; old_meta_id : Z;
  old_replica_dentry : Z; old_replica_parent : Z;
  exist_replica_id : Z; exist_meta_id : Z;
  exist_replica_dentry : option Z; exist_replica_parent : option Z;
  exist_meta_dentry : option Z; exist_meta_parent : option Z;
  new_replica_parent : Z; new_replica_dentry : Z;
}.

(** [simple_unlink_not_put (parent->d_inode, d)] *)
Definition unlink_at (parent d : option Z) : N Z :=
  dir ← dir_inode parent; d ← deref d; simple_unlink_not_put dir d.
Definition sync_dir (parent : option Z) : N () := p ← deref parent; sync p.

(** Condition 1: the destination needs no pointer file.  [inl]: [goto err_out]. *)
Definition announce_simple (f : files) : N Z :=
  if decide (exist_replica_id f = old_replica_id f ∨ exist_meta_id f = old_replica_id f) then
    kv_put stack (old_replica_dentry f) [-1; old_replica_id f; -1; -1]
  else
    let '(hidden, hidden_id) := if decide (exist_meta_id f ≠ -1) then (exist_meta_dentry f, exist_meta_id f)
                                else (exist_replica_dentry f, exist_replica_id f) in
    err ← kv_put stack (old_replica_dentry f) [-1; -1; -1; hidden_id];
    if decide (err ≠ 0) then mret err else
    _ ← sync (old_replica_dentry f);
    hidden ← deref hidden;
    err ← kv_put stack hidden [-1; -1; old_replica_id f; -1];
    if decide (err ≠ 0) then mret err else
    _ ← sync hidden; mret 0.

(** The rename failed. *)
Definition revert_simple (f : files) : N () :=
  if decide (exist_replica_id f = old_replica_id f ∨ exist_meta_id f = old_replica_id f) then
    _ ← kv_modify stack (old_replica_dentry f) (-1) RENAME; mret ()
  else
    _ ← kv_modify stack (old_replica_dentry f) (-1) STALE;
    hidden ← deref (if decide (exist_meta_id f ≠ -1) then exist_meta_dentry f else exist_replica_dentry f);
    _ ← kv_modify stack hidden (-1) HIDDEN; mret ().

(** After the rename: the files of the destination that are left are removed, and the links. *)
Definition clear_simple (f : files) : N () :=
  let clear := (_ ← kv_put stack (old_replica_dentry f) no_pointers; mret ()) : N () in
  if decide (exist_replica_id f = old_replica_id f ∨ exist_meta_id f = old_replica_id f) then
    if decide (old_replica_id f = exist_meta_id f) then
      err ← unlink_at (exist_replica_parent f) (exist_replica_dentry f);
      if decide (err ≠ 0) then mret () else _ ← sync_dir (exist_replica_parent f); clear
    else clear
  else
    err ← (if decide (exist_meta_id f ≠ -1) then
             err ← unlink_at (exist_meta_parent f) (exist_meta_dentry f);
             if decide (err ≠ 0) then mret err else _ ← sync_dir (exist_meta_parent f); mret 0
           else mret 0);
    if decide (err ≠ 0) then mret () else
    err ← unlink_at (exist_replica_parent f) (exist_replica_dentry f);
    if decide (err ≠ 0) then mret () else _ ← sync_dir (exist_replica_parent f); clear.

Definition replace_simple (old_dentry : Z) (f : files) : N Z :=
  err ← announce_simple f;
  if decide (err ≠ 0) then mret err else
  err ← do_rename (old_replica_parent f) (old_replica_dentry f) (new_replica_parent f) (new_replica_dentry f);
  if decide (err ≠ 0) then _ ← revert_simple f; mret err else
  _ ← effect (λ w, d_move w (old_replica_dentry f) (new_replica_dentry f));
  _ ← set_D old_dentry (set_meta_id (-1));
  _ ← sync (old_replica_parent f); _ ← sync (new_replica_parent f);
  _ ← clear_simple f;
  mret 0.

(** Condition 2: a file of the destination becomes the pointer file. *)
Definition replace_pointed (old_dentry : Z) (f : files) : N Z :=
  let '(meta, new_meta_id) := if decide (exist_meta_id f ≠ -1) then (exist_meta_dentry f, exist_meta_id f)
                              else (exist_replica_dentry f, exist_replica_id f) in
  meta ← deref meta;
  err ← kv_put stack meta [-1; old_replica_id f; -1; -1];
  if decide (err ≠ 0) then mret err else
  _ ← sync meta;
  err ← kv_put stack (old_replica_dentry f) [-1; new_meta_id; -1; -1];
  if decide (err ≠ 0) then mret err else
  _ ← sync (old_replica_dentry f);
  err ← do_rename (old_replica_parent f) (old_replica_dentry f) (new_replica_parent f) (new_replica_dentry f);
  if decide (err ≠ 0) then mret err else
  _ ← effect (λ w, d_move w (old_replica_dentry f) (new_replica_dentry f));
  _ ← set_D old_dentry (set_meta_id new_meta_id);
  _ ← sync (old_replica_parent f); _ ← sync (new_replica_parent f);
  err ← (if decide (exist_meta_id f ≠ -1 ∧ exist_replica_id f ≠ old_replica_id f) then
           err ← unlink_at (exist_replica_parent f) (exist_replica_dentry f);
           if decide (err ≠ 0) then mret err else _ ← sync_dir (exist_replica_parent f); mret 0
         else mret 0);
  if decide (err ≠ 0) then mret 0 else
  _ ← kv_put stack (old_replica_dentry f) [new_meta_id; -1; -1; -1];
  _ ← kv_put stack meta [old_replica_id f; -1; -1; -1];
  mret 0.

(** A pointer file, if there is one, and its directory. *)
Definition meta_of (dentry parent meta_id : Z) : N (option Z * option Z) :=
  if decide (meta_id ≠ -1) then d ← replica dentry meta_id; p ← replica parent meta_id; mret (d, p)
  else mret (None, None).

Definition rename2exist (old_dentry new_dentry : Z) : N Z :=
  ox ← node old_dentry; nx ← node new_dentry;
  let old_parent := n_parent ox in
  let new_parent := n_parent nx in
  od ← SFS_D old_dentry;
  ord ← replica old_dentry (replica_id od);
  '(old_meta_dentry, old_meta_parent) ← meta_of old_dentry old_parent (meta_id od);
  orp ← replica old_parent (replica_id od);
  nd ← SFS_D new_dentry;
  erd ← replica new_dentry (replica_id nd);
  erp ← replica new_parent (replica_id nd);
  '(emd, emp) ← meta_of new_dentry new_parent (meta_id nd);
  can_turn ← can_turn2normal replica_count new_parent (replica_id od);
  r ← create_replica_dir kmalloc_ok depth new_parent (replica_id od) (if (can_turn : bool) then CLONE_NORMAL else CLONE_SHADOW);
  match r with
  | inl err => mret err
  | inr nrp =>
      r ← get_replica_dentry (Some nrp) new_dentry (replica_id od);
      match r with
      | inl err => mret err
      | inr nrd =>
          ord ← deref ord; orp ← deref orp;
          let f := Files (replica_id od) (meta_id od) ord orp (replica_id nd) (meta_id nd) erd erp emd emp nrp nrd in
          err ← (if (can_turn : bool) then replace_simple old_dentry f else replace_pointed old_dentry f);
          if decide (err ≠ 0) then mret err else
          _ ← (if decide (meta_id od ≠ -1) then _ ← unlink_at old_meta_parent old_meta_dentry; mret () else mret ());
          _ ← sfs_d_move old_dentry new_dentry (replica_id od);
          mret 0
      end
  end.

Definition sfs_rename_other (old_dentry new_dentry : Z) : N Z :=
  err ← validate_file stack old_dentry;
  if decide (err ≠ 0) then mret err else
  nx ← node new_dentry;
  if decide (is_Some (n_mode nx)) then
    err ← validate_file stack new_dentry;
    if decide (err ≠ 0) then mret err else rename2exist old_dentry new_dentry
  else rename2non old_dentry new_dentry.

Definition sfs_rename (old_dentry new_dentry : Z) : N Z :=
  ox ← node old_dentry;
  mode ← deref (n_mode ox);
  if S_ISDIR mode then sfs_rename_dir old_dentry new_dentry else sfs_rename_other old_dentry new_dentry.
End rename.

(** ** Lemmas on locks *)
Section locks.
Context {W : Type} `{!Vfs W}.

(** [a] is above [p]. *)
Inductive above (w : W) (a : Z) : Z → Prop :=
  | above_parent p : d_parent w p ≠ p → d_parent w p = a → above w a p
  | above_up p : d_parent w p ≠ p → above w a (d_parent w p) → above w a p.

(** Every way up reaches a root within [depth] steps. *)
Definition tree_ok (depth : nat) (w : W) : Prop :=
  ∃ rank : Z → nat, (∀ p, (rank p < depth)%nat) ∧ ∀ p, d_parent w p ≠ p → (rank (d_parent w p) < rank p)%nat.

Lemma d_ancestor_spec depth w a p :
  tree_ok depth w → ∃ r, d_ancestor depth w a p = Ok r ∧ (is_Some r ↔ above w a p).
Proof.
  intros (rank & Hd & Hup). unfold d_ancestor.
  assert (∀ fuel p, (rank p < fuel)%nat → ∃ r, ancestor_loop fuel w a p = Ok r ∧ (is_Some r ↔ above w a p)) as Hgo.
  { clear p. induction fuel as [|fuel IH]; intros p Hp; [lia|]. cbn [ancestor_loop].
    destruct (decide (d_parent w p = p)) as [Hr|Hr].
    { exists None. split; [done|]. split; [by intros []|]. by destruct 1. }
    destruct (decide (d_parent w p = a)) as [Ha|Ha].
    { exists (Some p). split; [done|]. split; [|done]. intros _. by constructor. }
    destruct (IH (d_parent w p)) as (r & E & Hiff); [specialize (Hup p Hr); lia|]. exists r. split; [done|].
    rewrite Hiff. split; [by apply above_up|]. by destruct 1. }
  apply Hgo, Hd.
Qed.

Definition lock_of (l : lock) : option Z := match l with RenameMutex => None | DirMutex d _ => Some d end.

(** [x] is taken before [y]. *)
Definition taken_before (x y : option Z) (l : list lock) : Prop :=
  ∃ l1 l2 l3, map lock_of l = l1 ++ x :: l2 ++ y :: l3.
End locks.

(** * Properties *)

(** C26: Renames take their locks in an order that cannot deadlock: for two directories first the
    mutex of the super block, then the directory that is above the other one before it; and
    [sfs_unlock_rename] releases exactly what [sfs_lock_rename] took. *)
Theorem rename_lock_order {W} `{!Vfs W} depth (w : W) p1 p2 :
  tree_ok depth w → (∀ a b, above w a b → ¬ above w b a) →
  ∃ r locks, sfs_lock_rename depth w p1 p2 = Ok (r, locks) ∧
    sfs_unlock_rename p1 p2 ≡ₚ map lock_of locks ∧
    (p1 ≠ p2 → head locks = Some RenameMutex ∧ (is_Some r ↔ above w p1 p2 ∨ above w p2 p1)) ∧
    (p1 ≠ p2 → above w p1 p2 → taken_before (Some p1) (Some p2) locks) ∧
    (p1 ≠ p2 → above w p2 p1 → taken_before (Some p2) (Some p1) locks).
Proof.
  intros Ht Hac. unfold sfs_lock_rename, sfs_unlock_rename.
  destruct (decide (p1 = p2)) as [->|Hne].
  { eexists _, _. split; [done|]. split_and!; done. }
  assert (∀ a b : Z, taken_before (Some a) (Some b) [RenameMutex; DirMutex a I_MUTEX_OTHER_PARENT; DirMutex b I_MUTEX_OTHER_CHILD]) as Hord.
  { intros a b. by exists [None], [], []. }
  destruct (d_ancestor_spec depth w p2 p1 Ht) as (r1 & -> & H1). rewrite bind_Ok. destruct r1 as [c|].
  - assert (above w p2 p1) as Ha by (by apply H1). eexists _, _. split; [done|]. split_and!.
    + cbn. solve_Permutation.
    + intros _. split; [done|]. split; [by right|done].
    + intros _ Hb. by destruct (Hac _ _ Ha).
    + intros _ _. apply Hord.
  - destruct (d_ancestor_spec depth w p1 p2 Ht) as (r2 & -> & H2). rewrite bind_Ok.
    assert (¬ above w p2 p1) as Hn by (intros Hb; by apply H1 in Hb as []).
    assert ([Some p1; Some p2; None] ≡ₚ map lock_of [RenameMutex; DirMutex p1 I_MUTEX_OTHER_PARENT; DirMutex p2 I_MUTEX_OTHER_CHILD]) as Hperm.
    { cbn. solve_Permutation. }
    destruct r2 as [c|]; (eexists _, _; split; [done|]; split_and!; [done| |by intros; apply Hord|done]); intros _; split; try done.
    + split; [|done]. intros _. left. by apply H2.
    + rewrite H2. split; [by left|]. by intros [?|?].
Qed.

(** A chain of three directories. *)
Definition chain3 : mvfs := MVfs ∅ ∅ (<[3 := (2, [])]> (<[2 := (1, [])]> ∅)) ∅ ∅ 9 9.

Lemma chain3_parent p : d_parent chain3 p = if decide (p = 3) then 2 else if decide (p = 2) then 1 else p.
Proof.
  destruct (decide (p = 3)) as [->|H3]; [done|]. destruct (decide (p = 2)) as [->|H2]; [done|].
  cbn. by rewrite !lookup_insert_ne by congruence.
Qed.

Lemma rename_lock_order_witness :
  ∃ r locks, sfs_lock_rename 5 chain3 3 1 = Ok (r, locks) ∧ taken_before (Some 1) (Some 3) locks.
Proof.
  destruct (rename_lock_order 5 chain3 3 1) as (r & locks & E & _ & _ & _ & H).
  - exists (λ p, if decide (p = 3) then 2%nat else if decide (p = 2) then 1%nat else 0%nat).
    split; [intros p; repeat case_decide; lia|]. intros p. rewrite chain3_parent. repeat case_decide; lia.
  - assert (∀ a b, above chain3 a b → a < b) as Hlt.
    { intros a b. induction 1 as [p Hp Ha|p Hp _ IH]; rewrite chain3_parent in *; repeat case_decide; lia. }
    intros a b H1%Hlt H2%Hlt. lia.
  - exists r, locks. split; [done|]. apply H; [lia|].
    apply above_up; [done|]. by apply above_parent.
Defined.
