(* ===== verification/SfsCrash.v ===== *)
(** * SFS: renames interrupted by a crash

    [replace_simple] of [rename2exist] (sfs16/rename.c) moves a file over an existing one that lives
    in another replica.  No single operation of the underlying file systems does that, so links are
    written before the move and cleared after it, with a [write_inode_now] between the steps.

    Every replica is a file system of its own with a journal: what was done in it reaches its disk
    in order, but later, and independently of the other replicas.  A [write_inode_now] that waits
    commits what was done in the replica of the inode so far ([ext3_write_inode] ends in
    [ext3_force_commit] of the super block).  Here the layer below keeps, for each replica, the
    states its disk may be in, and a log of these after each operation; a crash may happen at any
    of these points and leaves each disk in any one of its states.  The next lookup of either name
    runs the repair [recover]. *)
From S2P Require Import Prelude Interfaces SfsDispatch SfsKv SfsDentry SfsVfs SfsView SfsNamei SfsRecover SfsRename.

(** ** A layer below with disks *)

(** The replica an inode belongs to: [inode->i_sb]. *)
Class SuperOf := i_sb : Z → Z.

(** The states the disk of each replica may be in, now and after each operation so far. *)
Record disks (W : Type) := Disks {
  dk_now : Z → list W;
  dk_log : list (Z → list W);
}.
Arguments Disks {W} _ _.
Arguments dk_now {W} _ _.
Arguments dk_log {W} _.

Abbreviation logged W := (W * disks W)%type.

Section logged.
Context {W : Type} `{!Vfs W} {sb : SuperOf}.

(** The disk of replica [r] may now be in the states [l]. *)
Definition set_disk (r : Z) (l : list W) (k : disks W) : disks W :=
  let D := λ j, if decide (j = r) then l else dk_now k j in Disks D (dk_log k ++ [D]).

(** Something was done in the file system of inode [i]: its disk has the result, or not yet. *)
Definition wrote (i : option Z) (w : W) (k : disks W) : disks W :=
  match i with Some i => set_disk (i_sb i) (dk_now k (i_sb i) ++ [w]) k | None => k end.

(** An operation on an inode with a persistent effect, and one on the dentry cache. *)
Definition persist {A} (i : option Z) (f : W → W * A) (x : logged W) : logged W * A :=
  let '(w, a) := f x.1 in ((w, wrote i w x.2), a).
Definition transient {A} (f : W → W * A) (x : logged W) : logged W * A :=
  let '(w, a) := f x.1 in ((w, x.2), a).
Definition cached (f : W → W) (x : logged W) : logged W := (f x.1, x.2).

(** [write_inode_now (inode, 1)] returns when the disk has everything. *)
Definition commit (i : Z) (x : logged W) : logged W :=
  let w := write_inode_now x.1 i in (w, set_disk (i_sb i) [w] x.2).

#[export] Instance logged_vfs : Vfs (logged W) := {|
  d_inode x := d_inode x.1;
  d_parent x := d_parent x.1;
  i_mode x := i_mode x.1;
  i_op x := i_op x.1;
  d_alloc x p n := transient (λ w, d_alloc w p n) x;
  i_lookup x dir d := transient (λ w, i_lookup w dir d) x;
  i_create x dir d mode excl := persist (Some dir) (λ w, i_create w dir d mode excl) x;
  i_mkdir x dir d mode := persist (Some dir) (λ w, i_mkdir w dir d mode) x;
  i_symlink x dir d target := persist (Some dir) (λ w, i_symlink w dir d target) x;
  i_mknod x dir d mode dev := persist (Some dir) (λ w, i_mknod w dir d mode dev) x;
  i_link x old dir d := persist (Some dir) (λ w, i_link w old dir d) x;
  i_unlink x dir d := persist (Some dir) (λ w, i_unlink w dir d) x;
  i_rmdir x dir d := persist (Some dir) (λ w, i_rmdir w dir d) x;
  i_rename x od o nd n := persist (Some od) (λ w, i_rename w od o nd n) x;
  d_delete x d := cached (λ w, d_delete w d) x;
  d_drop x d := cached (λ w, d_drop w d) x;
  d_move x o n := cached (λ w, d_move w o n) x;
  d_detach x d := cached (λ w, d_detach w d) x;
  d_attach x d p := cached (λ w, d_attach w d p) x;
  dput x d := cached (λ w, dput w d) x;
  set_dead x d := cached (λ w, set_dead w d) x;
  write_inode_now x i := commit i x;
  vfs_xattr := {|
    vfs_setxattr x k v := persist (d_inode x.1 k.1) (λ w, vfs_setxattr w k v) x;
    vfs_getxattr x := vfs_getxattr x.1;
    generic_getxattr x := generic_getxattr x.1;
  |};
|}.
End logged.

(** [rename] moves the inode, [d_move] exchanges the places of the two dentries; an unlink is done
    before [d_delete] clears the dentry. *)
Class RenameOk (W : Type) `{!Vfs W, !VfsView W} : Prop := {
  unlink_now_ok w dir d w' p n :
    i_unlink w dir d = (w', 0) → d_inode w p = Some dir → shows w d p n → is_Some (child w p n) →
    same_attrs w w' ∧
    (∀ p' n', child w' p' n' = if decide ((p', n') = (p, n)) then None else child w p' n') ∧
    (∀ d', known w d' → place w d' ≠ Some (p, n) → known w' d' ∧ place w' d' = place w d' ∧ d_inode w' d' = d_inode w d');
  rename_ok w od o nd n w' po no pn nn i :
    i_rename w od o nd n = (w', 0) → shows w o po no → child w po no = Some i →
    known w n → place w n = Some (pn, nn) → (po, no) ≠ (pn, nn) →
    same_attrs w w' ∧
    (∀ p m, child w' p m = if decide ((p, m) = (pn, nn)) then Some i
                           else if decide ((p, m) = (po, no)) then None else child w p m) ∧
    (∀ d, known w d → place w d ≠ Some (po, no) → place w d ≠ Some (pn, nn) →
       known w' d ∧ place w' d = place w d ∧ d_inode w' d = d_inode w d);
  rename_error w od o nd n w' e : i_rename w od o nd n = (w', e) → e ≠ 0 → same w w';
  rename_move_ok w od o nd n w' po no pn nn i :
    i_rename w od o nd n = (w', 0) → shows w o po no → child w po no = Some i →
    known w n → place w n = Some (pn, nn) → (po, no) ≠ (pn, nn) →
    let w2 := d_move w' o n in
    same_attrs w' w2 ∧ same_dirs w' w2 ∧
    known w2 o ∧ place w2 o = Some (pn, nn) ∧ d_inode w2 o = Some i ∧
    (∀ d, known w d → place w d ≠ Some (po, no) → place w d ≠ Some (pn, nn) →
       known w2 d ∧ place w2 d = place w d ∧ d_inode w2 d = d_inode w d);
}.

#[export] Instance mvfs_rename_ok : RenameOk mvfs.
Proof.
  assert (∀ (w : mvfs) po pn d i, m_place w !! d ≠ Some po → m_place w !! d ≠ Some pn →
    m_inode (w <| m_child ::= (λ m, <[pn := i]> (delete po m)) |>) d = m_inode w d) as Hoth.
  { intros w po pn d i H1 H2. unfold m_inode; cbn. destruct (m_place w !! d) as [q|]; [|done].
    rewrite lookup_insert_ne, lookup_delete_ne by congruence. done. }
  constructor.
  - intros w dir d w' p n E Hdir Hs Hc. destruct (unlink_ok w dir d w' p n E Hdir Hs Hc) as (? & _ & _ & ? & ?). done.
  - intros w od o nd n w' po no pn nn i E (Hk & Hpl & Hi) Hc Hkn Hpn Hne. cbn in *. unfold m_rename in E.
    rewrite Hpl, Hpn, Hc in E. injection E as <-. split_and!; [done| |].
    + intros p m. cbn. case_decide as H1; [rewrite H1; apply lookup_insert_eq|]. rewrite lookup_insert_ne by done.
      case_decide as H2; [rewrite H2; apply lookup_delete_eq|by rewrite lookup_delete_ne].
    + intros d Hd H1 H2. split_and!; [done..|]. by apply Hoth.
  - intros w od o nd n w' e E Hne. cbn in *. unfold m_rename in E.
    repeat case_match; injection E as <- <-; first [done|apply same_refl].
  - intros w od o nd n w' po no pn nn i E (Hk & Hpl & Hi) Hc Hkn Hpn Hne. cbn in *. unfold m_rename in E.
    rewrite Hpl, Hpn, Hc in E. injection E as <-. cbn zeta. unfold m_move. cbn. rewrite Hpl, Hpn. split_and!; [done..| | |].
    + cbn. apply lookup_insert_eq.
    + unfold m_inode; cbn. rewrite lookup_insert_eq. apply lookup_insert_eq.
    + intros d Hd H1 H2. assert (d ≠ o) by congruence. assert (d ≠ n) by congruence. cbn.
      rewrite !lookup_insert_ne by done. split_and!; [done..|].
      rewrite <- (Hoth w (po, no) (pn, nn) d i H1 H2). unfold m_inode; cbn. by rewrite !lookup_insert_ne by done.
Qed.

(** ** Views under the operations *)
Section keep.
Context {W : Type} `{!Vfs W, !VfsView W}.
Variable nm : name.
Variable pd : sfs_dentry.

(** Nothing of this name changes. *)
Lemma agrees_keep w w' V :
  agrees nm pd w V →
  (∀ i p, parent_at pd i p → known w' p ∧ place w' p = place w p ∧ d_inode w' p = d_inode w p ∧ child w' p nm = child w p nm) →
  (∀ i p ino, parent_at pd i p → child w p nm = Some ino → attr_of w' ino MetaAttr = attr_of w ino MetaAttr) →
  agrees nm pd w' V.
Proof.
  intros [H1 H2 H3 H4] Hp Ha. constructor.
  - intros i p Hi. destruct (H1 i p Hi) as (_ & dir & Hdir). destruct (Hp i p Hi) as (? & _ & E & _).
    split; [done|]. exists dir. congruence.
  - intros i p Hi. destruct (Hp i p Hi) as (_ & _ & _ & ->). specialize (H2 i p Hi).
    destruct (child w p nm) as [ino|] eqn:Ec; [|done]. destruct H2 as (v & Hv & Hl). exists v. split; [done|].
    unfold has_links in *. by rewrite (Ha i p ino).
  - intros i j p q a Hi Hj. destruct (Hp i p Hi) as (_ & _ & _ & ->). destruct (Hp j q Hj) as (_ & _ & _ & ->).
    by eapply H3.
  - intros i j p q Hi Hj. destruct (Hp i p Hi) as (_ & -> & _). by eapply H4.
Qed.


End keep.

(** ** The states of a rename *)
Definition one (i : Z) (v : list Z) : view := upd (λ _, None) i (Some v).

(** The replica of the data and of the pointer file that a lookup finds when it meets the name first
    in replica [l]. *)
Definition chosen (V : view) (l : Z) : Z * Z := let r := recover V l (-1) (-1) in (v_replica r, v_meta r).

Section states.
Context {W : Type} `{!Vfs W, !VfsView W}.




End states.

Section crash.
Context {W : Type} `{!Vfs W, !VfsView W, !VfsOk W, !RenameOk W} {sb : SuperOf}.
Variable stack : nat → list Z.
Hypothesis stack_length : ∀ n, length (stack n) = n.

(** The destination [nm] under the directory with private data [pd], in replica [h] (inode [dst]);
    the source [nmo] under [pdo], in replica [o] (inode [src]); the dentries of both files, of the
    new place of the source and of the directories. *)
Variables nm nmo : name.
Variables pd pdo : sfs_dentry.
Variables o h po po' ph src dst od ed nd dn : Z.
Hypothesis pd_inj : ∀ i j q, replicas pd !! i = Some (Some q) → replicas pd !! j = Some (Some q) → i = j.
Hypothesis pdo_inj : ∀ i j q, replicas pdo !! i = Some (Some q) → replicas pdo !! j = Some (Some q) → i = j.
Hypothesis ph_at : parent_at pd h ph.
Hypothesis po'_at : parent_at pd o po'.
Hypothesis po_at : parent_at pdo o po.
Hypothesis names_apart : ∀ i j p q, parent_at pd i p → parent_at pdo j q → (p, nm) ≠ (q, nmo).
Hypothesis o_h : o ≠ h.
Hypothesis ids_64 : o < 64 ∧ h < 64.
Hypothesis src_sb : i_sb src = o.
Hypothesis dst_sb : i_sb dst = h.













(** *** Attributes *)
Lemma setxattr_error_same w d a b w' e ino :
  d_inode w d = Some ino → vfs_setxattr w (d, a) b = (w', e) → e ≠ 0 → same w w'.
Proof.
  intros Hi E Hne. destruct (setxattr_ok _ _ _ _ _ _ _ Hi E) as (? & ? & _ & Ho). split_and!; [done..|].
  intros i' a'. apply Ho. by left.
Qed.

(** The attribute of an inode that has not this name. *)
Lemma agrees_set_other nm' pd' w d b w' ino V :
  agrees nm' pd' w V → d_inode w d = Some ino → vfs_setxattr w (d, MetaAttr) b = (w', 0) →
  (∀ i p, parent_at pd' i p → child w p nm' ≠ Some ino) → agrees nm' pd' w' V.
Proof.
  intros Ha Hi E Hne. destruct (setxattr_ok _ _ _ _ _ _ _ Hi E) as (Hd & Hc & _ & Ho).
  eapply agrees_keep; [done|..].
  - intros i p Hp. destruct (ag_parent _ _ _ _ Ha i p Hp) as [Hk _]. destruct (Hd p Hk) as (? & ? & ?). by rewrite Hc.
  - intros i p ino' Hp Hch. apply Ho. right. intros [= ->]. by apply (Hne i p).
Qed.

Lemma agrees_set_this nm' pd' w d b w' ino V i p v :
  agrees nm' pd' w V → parent_at pd' i p → child w p nm' = Some ino → d_inode w d = Some ino →
  vfs_setxattr w (d, MetaAttr) b = (w', 0) → encodes b v → agrees nm' pd' w' (upd V i (Some v)).
Proof.
  intros Ha Hp Hc Hi E Hb. destruct (setxattr_ok _ _ _ _ _ _ _ Hi E) as (Hd & Hdirs & Hset & Ho).
  eapply agrees_set; [done..|by apply Hset|done|]. intros i' a' Hne. apply Ho. by right.
Qed.




















(** *** What the disks hold *)














(** *** The disks during the run *)









Lemma logged_setxattr (x : logged W) (k : Z * attr) b w' e :
  vfs_setxattr x.1 k b = (w', e) → vfs_setxattr x k b = ((w', wrote (d_inode x.1 k.1) w' x.2), e).
Proof.
  intros E. change (persist (d_inode x.1 k.1) (λ w, vfs_setxattr w k b) x = ((w', wrote (d_inode x.1 k.1) w' x.2), e)).
  unfold persist. by rewrite E.
Qed.

(** [put] and [modify]: some text is stored that encodes the links. *)
Lemma wpn_logged_put e v' ino (s : sfs (logged W)) :
  d_inode (s_vfs s).1 e = Some ino → replica_ids v' →
  wpn (kv_put stack e v') (λ err s', ∃ w' b, vfs_setxattr (s_vfs s).1 (e, MetaAttr) b = (w', err) ∧ encodes b v' ∧
    s' = s <| s_vfs := (w', wrote (Some ino) w' (s_vfs s).2) |>) s.
Proof.
  intros Hi Hids. destruct (replica_ids_ok v' Hids) as [Hok Hlen]. unfold kv_put, kv_set, put, wpn.
  rewrite sprintf4_fits by (apply Hids || rewrite stack_length; lia). rewrite !bind_Ok.
  set (b := format4 v' ++ 0 :: drop (S (length (format4 v'))) (stack 15)).
  destruct (vfs_setxattr (s_vfs s).1 (e, MetaAttr) b) as [w' err] eqn:E. rewrite (logged_setxattr _ _ _ _ _ E). eexists _, _. split; [reflexivity|].
  exists w', b. split_and!; [done| |cbn [fst]; by rewrite Hi]. split_and!; [done| |by eexists]. unfold b.
  rewrite length_app, length_cons, length_drop, stack_length. lia.
Qed.
































End crash.

(** ** A destination with a pointer file *)
Section partitioned.
Context {W : Type} `{!Vfs W, !VfsView W, !VfsOk W} {sb : SuperOf}.
Variable stack : nat → list Z.
Hypothesis stack_length : ∀ n, length (stack n) = n.

Lemma chosen_usable V rep meta : usable V rep meta → meta ≠ -1 → chosen V meta = (rep, meta).
Proof.
  intros [[-> _]|(_ & Hr0 & [u Hr] & v & Hv & Hc & Hp)] Hm; [done|]. unfold chosen, recover. rewrite Hv.
  assert (ptr v STALE < 0 ∧ ptr v HIDDEN < 0 ∧ ptr v RENAME < 0) as (? & ? & ?) by (split_and!; by apply Hc).
  unfold recover_ren, recover_point. do 3 (rewrite decide_False by lia). rewrite Hp, decide_True by done. by rewrite Hr.
Qed.

Lemma chosen_hidden V m o : 0 ≤ o → V o = None → chosen (upd V m (Some [-1; -1; o; -1])) m = (m, -1) ∨ o = m.
Proof.
  intros Ho HV. destruct (decide (o = m)) as [?|Hne]; [by right|left]. unfold chosen, recover. rewrite upd_eq.
  change (ptr [-1; -1; o; -1] STALE) with (-1). change (ptr [-1; -1; o; -1] HIDDEN) with o.
  rewrite decide_False, decide_True, upd_ne by (done || lia). rewrite HV.
  unfold recover_ren, recover_point. change (ptr [-1; -1; o; -1] RENAME) with (-1).
  change (ptr [-1; -1; o; -1] POINTER) with (-1). by rewrite !decide_False by lia.
Qed.

(** Storing links of a file that has another name. *)
Lemma wpn_put_other nm pd V e v' ino (s : sfs (logged W)) :
  agrees nm pd (s_vfs s).1 V → d_inode (s_vfs s).1 e = Some ino → replica_ids v' →
  (∀ i p, parent_at pd i p → child (s_vfs s).1 p nm ≠ Some ino) →
  wpn (kv_put stack e v') (λ err s', agrees nm pd (s_vfs s').1 V ∧
    same_dentries (s_vfs s).1 (s_vfs s').1 ∧ same_dirs (s_vfs s).1 (s_vfs s').1) s.
Proof.
  intros Ha Hi Hids Hne. eapply wpn_mono; [by eapply wpn_logged_put|]. intros err s' (w' & b & E & _ & ->).
  destruct (setxattr_ok _ _ _ _ _ _ _ Hi E) as (Hd & Hc & _). split_and!; [|done..]. cbn.
  destruct (decide (err = 0)) as [->|Herr]; [by eapply agrees_set_other|].
  eapply agrees_same; [done|]. by eapply setxattr_error_same.
Qed.

Lemma wpn_sync_same d i (s : sfs (logged W)) :
  d_inode (s_vfs s).1 d = Some i → wpn (sync d) (λ _ s', same (s_vfs s).1 (s_vfs s').1) s.
Proof.
  intros Hi. unfold sync. apply wpn_bind, wpn_observe. cbn [d_inode logged_vfs]. rewrite Hi.
  apply wpn_bind, wpn_deref, wpn_effect. apply write_inode_ok.
Qed.
End partitioned.



(** Inodes 2 and 11 are in the second replica. *)
#[local] Instance ex_sb : SuperOf := λ i, if decide (i = 2 ∨ i = 11) then 1 else 0.

(** The disks have everything. *)
Definition synced {W} (w : W) : disks W := Disks (λ _, [w]) [].





(** Three replicas: a partitioned destination in replicas 0 and 1, the source in replica 2. *)
Definition three_vfs : mvfs := {|
  m_child := <[(102, [97]) := 10]> (<[(100, [98]) := 11]> (<[(101, [98]) := 12]> ∅));
  m_root := <[100 := 1]> (<[101 := 2]> (<[102 := 3]> ∅));
  m_place := <[110 := (102, [97])]> (<[111 := (100, [98])]> ∅);
  m_mode := ∅;
  m_attr := <[(11, MetaAttr) := text [1; -1; -1; -1]]> (<[(12, MetaAttr) := text [0; -1; -1; -1]]> ∅);
  m_next := 200;
  m_ino := 20;
|}.

Definition three : sfs (logged mvfs) := {| s_vfs := (three_vfs, synced three_vfs); s_tree := ∅; s_last := 0; s_allocs := 0 |}.
Definition three_view : view := upd (one 0 [1; -1; -1; -1]) 1 (Some [0; -1; -1; -1]).

Lemma three_agrees : agrees [98] dir3 three_vfs three_view.
Proof.
  assert (∀ v : list Z, replica_ids v → (length (format4 v) < 20)%nat → encodes (text v) v) as Henc.
  { intros v Hv Hl. split_and!; [done|unfold text; rewrite length_app; simpl; lia|by exists []]. }
  constructor.
  - intros i p Hp. destruct (dir3_parents i p Hp) as [[-> ->]|[[-> ->]|[-> ->]]]; (split; [done|by eexists]).
  - intros i p Hp. destruct (dir3_parents i p Hp) as [[-> ->]|[[-> ->]|[-> ->]]]; [| |done];
      (eexists; split; [reflexivity|apply Henc; [split; [done|repeat constructor; lia]|vm_compute; lia]]).
  - intros i j p q a Hp Hq. destruct (dir3_parents i p Hp) as [[-> ->]|[[-> ->]|[-> ->]]];
      destruct (dir3_parents j q Hq) as [[-> ->]|[[-> ->]|[-> ->]]]; vm_compute; congruence.
  - intros i j p q Hp Hq. by destruct (dir3_parents i p Hp) as [[-> ->]|[[-> ->]|[-> ->]]].
Qed.

(** * Properties *)




(** Renaming over a partitioned file is not: hiding the destination overwrites all the links of
    its pointer file, the one to the data included.  If the machine stops before the move, the next
    lookup of the destination takes the empty pointer file for the data, though the move never
    happened and the data is still there. *)
Theorem hiding_loses_destination {W} `{!Vfs W, !VfsView W, !VfsOk W} {sb : SuperOf} stack nm pd V rep meta o ph od ed f
    src ino (s : sfs (logged W)) :
  (∀ n, length (stack n) = n) → agrees nm pd (s_vfs s).1 V → usable V rep meta →
  meta ≠ -1 → meta < 64 → parent_at pd meta ph → child (s_vfs s).1 ph nm = Some ino →
  known (s_vfs s).1 ed → d_inode (s_vfs s).1 ed = Some ino →
  known (s_vfs s).1 od → d_inode (s_vfs s).1 od = Some src →
  (∀ i p, parent_at pd i p → child (s_vfs s).1 p nm ≠ Some src) →
  0 ≤ o < 64 → V o = None → o ≠ meta → o ≠ rep →
  old_replica_id f = o → old_replica_dentry f = od →
  exist_replica_id f = rep → exist_meta_id f = meta → exist_meta_dentry f = Some ed →
  chosen V meta = (rep, meta) ∧
  ∃ err s', announce_simple stack f s = Ok (err, s') ∧
    (err = 0 → ∃ V', agrees nm pd (s_vfs s').1 V' ∧ (∀ j, j ≠ meta → V' j = V j) ∧ chosen V' meta = (meta, -1)).
Proof.
  intros Hst Ha HU Hm Hm64 Hph Hch Hke Hed Hko Hod Hsrc Ho HVo Hom Hor E1 E3 E4 E5 E6.
  split; [by apply chosen_usable|].
  assert (0 ≤ meta) by (by destruct Hph).
  assert (wpn (announce_simple stack f) (λ err s', err = 0 → agrees nm pd (s_vfs s').1 (upd V meta (Some [-1; -1; o; -1]))) s)
    as (err & s' & E & H0).
  2:{ exists err, s'. split; [done|]. intros He. eexists. split_and!; [by apply H0|intros j Hj; by rewrite upd_ne|].
      destruct (chosen_hidden V meta o); [lia|done|done|done]. }
  unfold announce_simple. rewrite E1, E3, E4, E5, E6. rewrite decide_False by (intros [?|?]; congruence).
  rewrite (decide_True (P := meta ≠ -1)) by done. apply wpn_bind.
  eapply wpn_mono; [eapply (wpn_put_other stack Hst nm pd V od _ src); [done|done| |done]|].
  { split; [done|]. repeat constructor; lia. }
  intros err s1 (Ha1 & Hd1 & Hc1). destruct (decide (err ≠ 0)); [by apply wpn_ret|].
  apply wpn_bind. eapply wpn_mono; [eapply (wpn_sync_same od src); destruct (Hd1 od Hko) as (_ & _ & ->); done|].
  intros [] s2 (Hd2 & Hc2 & Hat2). apply wpn_bind, wpn_deref, wpn_bind.
  destruct (Hd1 ed Hke) as (Hk1 & _ & Ei1). destruct (Hd2 ed Hk1) as (Hk2 & _ & Ei2).
  eapply wpn_mono; [eapply (wpn_logged_put stack Hst ed _ ino); [congruence|]|].
  { split; [done|]. repeat constructor; lia. }
  intros err3 s3 (w' & b & Eset & Henc & ->). destruct (decide (err3 ≠ 0)) as [|Hz]; [by apply wpn_ret|].
  apply dec_stable in Hz. subst err3.
  assert (agrees nm pd w' (upd V meta (Some [-1; -1; o; -1]))) as Ha3.
  { eapply agrees_set_this; [by eapply agrees_same| |rewrite Hc2, Hc1|rewrite Ei2, Ei1|..]; done. }
  apply wpn_bind.
  destruct (setxattr_ok _ _ _ _ _ _ _ (eq_trans Ei2 (eq_trans Ei1 Hed)) Eset) as (Hd3 & _).
  destruct (Hd3 ed Hk2) as (_ & _ & Ei3).
  eapply wpn_mono; [eapply (wpn_sync_same ed ino); cbn; congruence|]. intros [] s4 Hs4. apply wpn_ret. intros _.
  by eapply agrees_same.
Qed.

Lemma hiding_loses_destination_witness :
  chosen three_view 0 = (1, 0) ∧
  ∃ err s', announce_simple zero_stack (Files 2 (-1) 110 102 1 0 None None (Some 111) None 102 112) three = Ok (err, s') ∧
    err = 0 ∧ ∃ V', agrees [98] dir3 (s_vfs s').1 V' ∧ chosen V' 0 = (0, -1) ∧ V' 1 = Some [0; -1; -1; -1].
Proof.
  destruct (hiding_loses_destination (W := mvfs) (sb := ex_sb) zero_stack [98] dir3 three_view 1 0 2 100 110 111
    (Files 2 (-1) 110 102 1 0 None None (Some 111) None 102 112) 10 11 three) as (Hb & err & s' & E & H0).
  - intros n. apply length_replicate.
  - apply three_agrees.
  - right. split_and!; [lia|lia|by eexists|]. exists [1; -1; -1; -1]. split_and!; [reflexivity|apply clean_pointer|reflexivity].
  - lia.
  - lia.
  - split; [lia|reflexivity].
  - reflexivity.
  - reflexivity.
  - reflexivity.
  - reflexivity.
  - reflexivity.
  - intros i p Hp. by destruct (dir3_parents i p Hp) as [[-> ->]|[[-> ->]|[-> ->]]].
  - lia.
  - reflexivity.
  - lia.
  - lia.
  - reflexivity.
  - reflexivity.
  - reflexivity.
  - reflexivity.
  - reflexivity.
  - split; [done|]. exists err, s'. split; [done|].
    assert (match announce_simple zero_stack (Files 2 (-1) 110 102 1 0 None None (Some 111) None 102 112) three with
      | Ok (e, _) => e | _ => 9 end = 0) as E0 by (vm_compute; reflexivity).
    rewrite E in E0. split; [done|]. destruct (H0 E0) as (V' & Ha & HV & Hc). exists V'. split_and!; [done..|].
    rewrite HV by lia. reflexivity.
Defined.
