(* ===== verification/SfsSuper.v ===== *)
(** * SFS: the super block

    Models sfs16/super.c: the replicas of a mount, parsing of the mount option (paths separated by
    colons), statistics, sync and freeze over all replicas, unmounting. *)
From S2P Require Import Prelude Interfaces SfsDispatch SfsKv SfsDentry SfsVfs SfsView SfsNamei.

(** [struct sfs_sb_info] of a replica. *)
Record replica_sbi := ReplicaSbi { r_sb : Z; r_mnt : Z; r_data_root : Z; s_replica_id : Z }.

(** The variables of super.c: [sbi_array] with the object it points to; [g_freed]: objects freed. *)
Record sglobals := SGlobals {
  g_replica_count : Z;
  g_sbi_array : option (Z * list replica_sbi);
  g_freed : list Z;
  g_objects : Z;
}.

Definition get_replica_count (g : sglobals) : Z := g_replica_count g.

(** The comparison is unsigned: a negative identifier is too large. *)
Definition get_replica_sbi (g : sglobals) (replica_id : Z) : res (option replica_sbi) :=
  if decide (wrapu 32 (g_replica_count g - 1) < wrapu 32 replica_id) then Ok None else
  match g_sbi_array g with
  | Some (p, a) => if decide (p ∈ g_freed g) then Oops else r ← lift (a !! Z.to_nat (wrapu 32 replica_id)); Ok (Some r)
  | None => Oops
  end.

(** ** Operations on all replicas *)
Section loops.
Context {B : Type}.

(** An optional operation of a super block below. *)
Variable op : B → Z → option (B * Z).

(** The operation on every replica; the first error is returned. *)
Fixpoint each_replica (sbs : list replica_sbi) (b : B) (err : Z) : B * Z :=
  match sbs with
  | [] => (b, err)
  | r :: sbs =>
      match op b (r_sb r) with
      | None => each_replica sbs b err
      | Some (b, ret) => each_replica sbs b (if decide (ret ≠ 0 ∧ err = 0) then ret else err)
      end
  end.
End loops.

(** [sync_fs wait], [freeze_fs] and [unfreeze_fs] of the super blocks below. *)
Definition sfs_sync_fs {B} (sync_fs : bool → B → Z → option (B * Z)) (sbi : option (list replica_sbi)) (wait : bool) (b : B) : B * Z :=
  match sbi with
  | None => (b, 0)
  | Some sbs => each_replica (sync_fs wait) sbs b 0
  end.
Definition sfs_freeze_fs {B} (freeze_fs : B → Z → option (B * Z)) (sbs : list replica_sbi) (b : B) : B * Z :=
  each_replica freeze_fs sbs b 0.
Definition sfs_unfreeze_fs {B} (unfreeze_fs : B → Z → option (B * Z)) (sbs : list replica_sbi) (b : B) : B * Z :=
  each_replica unfreeze_fs sbs b 0.

(** ** Statistics *)
Record kstatfs := Kstatfs {
  f_blocks : Z; f_bfree : Z; f_bavail : Z; f_files : Z; f_ffree : Z;
  f_rest : list Z;     (** type, block size and other fields *)
}.

Definition add_stat (a b : kstatfs) : kstatfs :=
  Kstatfs (wrapu 64 (f_blocks a + f_blocks b)) (wrapu 64 (f_bfree a + f_bfree b)) (wrapu 64 (f_bavail a + f_bavail b))
    (wrapu 64 (f_files a + f_files b)) (wrapu 64 (f_ffree a + f_ffree b)) (f_rest a).
Definition no_stat : kstatfs := Kstatfs 0 0 0 0 0 [].

Section statfs.
Context {W : Type} `{!Vfs W}.
(** [vfs_statfs] of a mount and a dentry: an error, or the numbers. *)
Variable vfs_statfs : W → Z → Z → Z + kstatfs.
Variable g : sglobals.

(** [acc]: the five sums so far; [buf]: the caller's buffer. *)
Fixpoint statfs_loop (n : nat) (loop : Z) (w : W) (d : sfs_dentry) (acc buf : kstatfs) : res (kstatfs * kstatfs * Z) :=
  match n with
  | O => Ok (acc, buf, 0)
  | S n =>
      r ← find_replica_dentry d loop;
      match r with
      | None => statfs_loop n (loop + 1) w d acc buf
      | Some rd =>
          if decide (d_inode w rd = None) then statfs_loop n (loop + 1) w d acc buf else
          sbi ← get_replica_sbi g loop;
          sbi ← lift sbi;
          match vfs_statfs w (r_mnt sbi) rd with
          | inl err => Ok (acc, buf, err)
          | inr st => statfs_loop n (loop + 1) w d (add_stat acc st) st
          end
      end
  end.

(** The buffer and the value returned. *)
Definition sfs_statfs (w : W) (d : sfs_dentry) (buf : kstatfs) : res (kstatfs * Z) :=
  '(acc, buf, err) ← statfs_loop (Z.to_nat (g_replica_count g)) 0 w d no_stat buf;
  if decide (err ≠ 0) then Ok (buf, err)
  else Ok (Kstatfs (f_blocks acc) (f_bfree acc) (f_bavail acc) (f_files acc) (f_ffree acc) (f_rest buf), 0).
End statfs.

(** ** Mounting *)

(** [strsep (&str, ":")] until the string is used up. *)
Fixpoint tokens (s : list Z) : list (list Z) :=
  match s with
  | [] => [[]]
  | c :: s =>
      if decide (c = c_colon) then [] :: tokens s else
      match tokens s with
      | t :: ts => (c :: t) :: ts
      | [] => [[c]]
      end
  end.

Section mount.
Context {W : Type} `{!Vfs W}.
Variable stack : nat → list Z.
Variable slab : sfs_dentry.
Variable kmalloc_ok : nat → bool.
(** [kern_path]: an error, or super block, mount and dentry. *)
Variable kern_path : W → list Z → W * (Z + Z * Z * Z).
Variable dget : W → Z → W.
Variable path_put : W → Z → Z → W.
(** [root = sb->s_root] *)
Variable root : Z.

Abbreviation N := (SfsVfs.N W).

(** What a mount has built: the error, the replicas ([sbi->u.m.replicas]) and the super block whose
    parameters were copied. *)
Record mounted := Mounted { m_err : Z; m_sbis : list replica_sbi; m_copied : option Z }.

Definition s_add_replica (sbis : list replica_sbi) (sb mnt data_root id : Z) : list replica_sbi :=
  sbis ++ [ReplicaSbi sb mnt data_root id].

(** [inl]: the loop is left early with an error, by [return] or [goto out]. *)
Fixpoint parse_loop (toks : list (list Z)) (count : Z) (sbis : list replica_sbi) (copied : option Z)
    : N (mounted + Z * list replica_sbi * option Z) :=
  match toks with
  | [] => mret (inr (count, sbis, copied))
  | opt_str :: toks =>
      if decide (opt_str = []) then mret (inr (count, sbis, copied)) else
      (* strcpy into char data[4096] *)
      if decide (4096 ≤ length opt_str)%nat then crash else
      r ← call (λ w, kern_path w opt_str);
      match r with
      | inl err => mret (inl (Mounted err sbis copied))
      | inr (sb, mnt, replica_root) =>
          let copied := match copied with None => Some sb | Some c => Some c end in
          ok ← kmalloc kmalloc_ok;
          if (ok : bool) then
            let sbis := s_add_replica sbis sb mnt replica_root count in
            _ ← effect (λ w, dget w replica_root);
            _ ← d_add_replica root replica_root count;
            _ ← effect (λ w, path_put w mnt replica_root);
            parse_loop toks (count + 1) sbis copied
          else mret (inl (Mounted (- ENOMEM) sbis copied))
      end
  end.

(** The array is filled and every root tested; the last test is the value kept. *)
Fixpoint check_roots (n : nat) (i err : Z) : N Z :=
  match n with
  | O => mret err
  | S n => err ← check_normal_dir stack root i; check_roots n (i + 1) err
  end.

Definition sfs_opts_parse (str : list Z) (g : sglobals) : N (mounted * sglobals) :=
  ok ← kmalloc kmalloc_ok;
  if negb ok then mret (Mounted (- ENOMEM) [] None, g) else
  let g := g <| g_replica_count := 64 |> in
  x ← node root;
  ok1 ← kmalloc kmalloc_ok; ok2 ← kmalloc kmalloc_ok;
  let '(fs, r) := sfs_dentry_alloc 64 slab ok1 ok2 (n_fs x) in
  _ ← set_node root (λ x, x <| n_fs := fs |>);
  match r with
  | inl err => mret (Mounted err [] None, g)
  | inr _ =>
      r ← parse_loop (tokens str) 0 [] None;
      match r with
      | inl m => mret (m, g)
      | inr (count, sbis, copied) =>
          ok ← kmalloc kmalloc_ok;
          if negb ok && bool_decide (0 < count) then crash else
          let g := g <| g_replica_count := count |>
                     <| g_sbi_array := if (ok : bool) then Some (g_objects g, sbis) else None |>
                     <| g_objects ::= Z.succ |> in
          err ← check_roots (length sbis) 0 0;
          mret (Mounted err sbis copied, g)
      end
  end.

(** [sfs_fill_super], after [sfs_alloc_root]. *)
Definition sfs_fill_super (data : list Z) (g : sglobals) : N (mounted * sglobals) := sfs_opts_parse data g.

(** [sfs_kill_sb]: [sbi_array] is freed and keeps its value. An array of no bytes is not freed. *)
Definition sfs_kill_sb (sbi : option (list replica_sbi)) (g : sglobals) : res sglobals :=
  match sbi with
  | None => Ok g
  | Some _ =>
      match g_sbi_array g with
      | None => Ok g
      | Some (_, []) => Ok g
      | Some (p, _) => if decide (p ∈ g_freed g) then Oops else Ok (g <| g_freed ::= cons p |>)
      end
  end.
End mount.

(** ** Lemmas *)

(** All replicas are asked, whatever the others answered. *)
Fixpoint asked {B} (op : B → Z → option (B * Z)) (sbs : list replica_sbi) (b : B) : B * list Z :=
  match sbs with
  | [] => (b, [])
  | r :: sbs =>
      match op b (r_sb r) with
      | None => asked op sbs b
      | Some (b, ret) => let '(b, rets) := asked op sbs b in (b, ret :: rets)
      end
  end.

Lemma each_replica_asks {B} (op : B → Z → option (B * Z)) sbs b err :
  each_replica op sbs b err =
  ((asked op sbs b).1, if decide (err ≠ 0) then err else default 0 (head (filter (λ r, r ≠ 0) (asked op sbs b).2))).
Proof.
  revert b err. induction sbs as [|r sbs IH]; intros b err; cbn [each_replica asked].
  - destruct (decide (err ≠ 0)) as [|He]; [done|]. apply dec_stable in He. by subst.
  - destruct (op b (r_sb r)) as [[b' ret]|]; [|apply IH]. rewrite IH. destruct (asked op sbs b') as [b2 rets]. cbn [fst snd].
    f_equal. destruct (decide (err ≠ 0)) as [Hne|He].
    + rewrite (decide_False (P := _ ∧ _)) by (by intros [_ ?]). by rewrite decide_True.
    + apply dec_stable in He. subst err. rewrite filter_cons. destruct (decide (ret ≠ 0)) as [Hr|Hr].
      * rewrite (decide_True (P := ret ≠ 0 ∧ _)) by done. by rewrite !(decide_True (P := ret ≠ 0)) by done.
      * rewrite (decide_False (P := ret ≠ 0 ∧ _)) by (by intros [? _]).
        by rewrite (decide_False (P := 0 ≠ 0)) by (intros H; by apply H).
Qed.

(** *** Statistics *)
Section totals.
Context {W : Type} `{!Vfs W}.
Variable vfs_statfs : W → Z → Z → Z + kstatfs.
Variable g : sglobals.
Variable w : W.

(** The replicas that hold the directory, with their numbers. *)
Fixpoint stats_of (sbis : list replica_sbi) (reps : list (option Z)) : list kstatfs :=
  match sbis, reps with
  | sbi :: sbis, r :: reps =>
      match r with
      | Some rd =>
          match d_inode w rd, vfs_statfs w (r_mnt sbi) rd with
          | Some _, inr st => st :: stats_of sbis reps
          | _, _ => stats_of sbis reps
          end
      | None => stats_of sbis reps
      end
  | _, _ => []
  end.

(** Every replica answers. *)
Definition answers (sbis : list replica_sbi) (reps : list (option Z)) : Prop :=
  ∀ i sbi rd, sbis !! i = Some sbi → reps !! i = Some (Some rd) → is_Some (d_inode w rd) →
    ∃ st, vfs_statfs w (r_mnt sbi) rd = inr st.

Lemma get_replica_sbi_ok p a i sbi :
  g_sbi_array g = Some (p, a) → p ∉ g_freed g → g_replica_count g = Z.of_nat (length a) → (length a ≤ 64)%nat →
  a !! i = Some sbi → get_replica_sbi g (Z.of_nat i) = Ok (Some sbi).
Proof.
  intros Ha Hp Hc H64 Hi. pose proof (lookup_lt_Some _ _ _ Hi) as Hlt. unfold get_replica_sbi.
  rewrite !wrapu_small by lia. rewrite decide_False by lia. rewrite Ha. rewrite decide_False by done.
  by rewrite Nat2Z.id, Hi.
Qed.

Lemma statfs_loop_ok p a d n k acc buf :
  g_sbi_array g = Some (p, a) → p ∉ g_freed g → g_replica_count g = Z.of_nat (length a) → (length a ≤ 64)%nat →
  length (replicas d) = length a → answers a (replicas d) → (k + n = length a)%nat →
  let l := stats_of (drop k a) (drop k (replicas d)) in
  statfs_loop vfs_statfs g n (Z.of_nat k) w d acc buf = Ok (foldl add_stat acc l, default buf (last l), 0).
Proof.
  intros Ha Hp Hc H64 Hl Hans. revert k acc buf. induction n as [|n IH]; intros k acc buf Hk; cbn [statfs_loop]; cbn zeta.
  { rewrite (drop_ge a) by lia. done. }
  destruct (lookup_lt_is_Some_2 a k) as [sbi Hsbi]; [lia|].
  destruct (lookup_lt_is_Some_2 (replicas d) k) as [r Hr]; [lia|].
  unfold find_replica_dentry. rewrite decide_True by lia. rewrite Nat2Z.id, Hr. cbn [lift]. rewrite bind_Ok.
  rewrite (drop_S _ _ _ Hsbi), (drop_S _ _ _ Hr). cbn [stats_of].
  replace (Z.of_nat k + 1) with (Z.of_nat (S k)) by lia.
  destruct r as [rd|]; [|apply IH; lia]. destruct (d_inode w rd) as [ino|] eqn:Ei; [|rewrite decide_True by done; apply IH; lia].
  rewrite decide_False by done. rewrite (get_replica_sbi_ok p a k sbi) by done. rewrite !bind_Ok. cbn [lift]. rewrite bind_Ok.
  destruct (Hans k sbi rd) as [st Est]; [done..|by rewrite Ei|]. rewrite Est. rewrite IH by lia. cbn [foldl].
  rewrite last_cons. by destruct (last _).
Qed.
End totals.

Lemma sum_wrapu (f : kstatfs → Z) (l : list kstatfs) acc :
  (∀ a b, f (add_stat a b) = wrapu 64 (f a + f b)) → f acc = wrapu 64 (f acc) →
  f (foldl add_stat acc l) = wrapu 64 (f acc + sumZ f l).
Proof.
  intros Hf. revert acc. induction l as [|x l IH]; intros acc Hacc; cbn [foldl].
  - change (sumZ f []) with 0. by rewrite Z.add_0_r.
  - rewrite IH; rewrite Hf; unfold wrapu; [|by rewrite Z.mod_mod].
    change (sumZ f (x :: l)) with (f x + sumZ f l). rewrite Zplus_mod_idemp_l. f_equal. lia.
Qed.

(** *** Mounting *)
Section mounting.
Context {W : Type} `{!Vfs W}.
Variable stack : nat → list Z.
Variable slab : sfs_dentry.
Variable kmalloc_ok : nat → bool.
Hypothesis memory : ∀ n, kmalloc_ok n = true.
Variable kern_path : W → list Z → W * (Z + Z * Z * Z).
Variable dget : W → Z → W.
Variable path_put : W → Z → Z → W.
Variable root : Z.

(** Every path names a directory: super block, mount and dentry. *)
Variable resolve : list Z → Z * Z * Z.
Hypothesis paths : ∀ w t, kern_path w t = (w, inr (resolve t)).
(** References do not change attributes. *)
Hypothesis dget_attr : ∀ w d k n, vfs_getxattr (dget w d) k n = vfs_getxattr w k n.
Hypothesis path_put_attr : ∀ w m d k n, vfs_getxattr (path_put w m d) k n = vfs_getxattr w k n.

Definition root_of (t : list Z) : Z := (resolve t).2.

(** The root directory of a replica is marked normal. *)
Definition normal_root (w : W) (d : Z) : Prop :=
  0 < (vfs_getxattr w (d, ShadowAttr) 8).1 ∧ is_normal (fill (stack 8) (vfs_getxattr w (d, ShadowAttr) 8).2) = true.

#[global] Instance normal_root_dec w d : Decision (normal_root w d).
Proof. unfold normal_root. apply _. Defined.

Definition same_xattr (w w' : W) : Prop := ∀ k n, vfs_getxattr w' k n = vfs_getxattr w k n.

(** The root dentry of SFS has the first [length ds] replicas. *)
Definition roots (s : sfs W) (ds : list Z) : Prop :=
  ∃ x d, s_tree s !! root = Some x ∧ n_fs x = Some d ∧
    replicas d = map Some ds ++ replicate (64 - length ds) None.

Lemma wpn_add_root s ds rd :
  roots s ds → (length ds < 64)%nat →
  wpn (d_add_replica root rd (Z.of_nat (length ds))) (λ _ s', roots s' (ds ++ [rd]) ∧ s_vfs s' = s_vfs s) s.
Proof.
  intros (x & d & Hx & Hd & Hr) Hlt. unfold d_add_replica. apply wpn_bind.
  assert (replicas d !! length ds = Some None) as Hnone.
  { rewrite Hr, lookup_app_r by (rewrite length_map; lia). rewrite length_map, lookup_replicate. split; [done|lia]. }
  eapply wpn_replica; [done..| |].
  { unfold find_replica_dentry. rewrite decide_True by lia. by rewrite Nat2Z.id, Hnone. }
  apply wpn_bind. eapply wpn_SFS_D; [done..|]. eapply wpn_set_node; [done|]. split; [|done].
  eexists _, _. split; [apply lookup_insert_eq|]. cbn. rewrite Hd. split; [done|]. cbn. rewrite Nat2Z.id, Hr.
  replace (length ds) with (length (map Some ds) + 0)%nat at 1 by (rewrite length_map; lia).
  rewrite insert_app_r, map_app, <- app_assoc. f_equal. cbn. rewrite length_app. cbn [length].
  replace (64 - length ds)%nat with (S (64 - (length ds + 1))) by lia. done.
Qed.

Lemma wpn_parse_loop toks s ds sbis copied :
  Forall (λ t, t ≠ [] ∧ (length t < 4096)%nat) toks → roots s ds → (length ds + length toks ≤ 64)%nat →
  length sbis = length ds →
  wpn (parse_loop kmalloc_ok kern_path dget path_put root toks (Z.of_nat (length ds)) sbis copied)
    (λ r s', ∃ sbis' copied', r = inr (Z.of_nat (length ds + length toks), sbis', copied') ∧
      length sbis' = (length ds + length toks)%nat ∧
      roots s' (ds ++ map root_of toks) ∧ same_xattr (s_vfs s) (s_vfs s')) s.
Proof.
  intros Hall. revert s ds sbis copied. induction Hall as [|t toks [Ht Hlen] _ IH]; intros s ds sbis copied Hr Hle Hs; cbn [parse_loop].
  { apply wpn_ret. exists sbis, copied. rewrite Nat.add_0_r, app_nil_r. split_and!; done. }
  cbn [length] in Hle. rewrite decide_False by done. rewrite decide_False by lia. apply wpn_bind.
  eapply wpn_call; [apply paths|]. destruct (resolve t) as [[sb mnt] rd] eqn:Et. apply wpn_bind.
  eexists _, _. split; [reflexivity|]. rewrite memory. apply wpn_bind, wpn_effect, wpn_bind.
  eapply wpn_mono; [apply (wpn_add_root _ ds rd); [exact Hr|lia]|]. intros [] s1 [Hr1 Hv1]. apply wpn_bind, wpn_effect.
  replace (Z.of_nat (length ds) + 1) with (Z.of_nat (length (ds ++ [rd]))) by (rewrite length_app; cbn; lia).
  eapply wpn_mono.
  { apply (IH (s1 <| s_vfs := path_put (s_vfs s1) mnt rd |>) (ds ++ [rd])); [exact Hr1| |].
    - rewrite length_app. cbn. lia.
    - unfold s_add_replica. rewrite !length_app, Hs. done. }
  intros r s2 (sbis' & copied' & -> & Hl & Hr2 & Hsame). exists sbis', copied'. rewrite length_app in Hl |- *. cbn [length] in *.
  split_and!.
  - do 3 f_equal. lia.
  - lia.
  - rewrite <- app_assoc in Hr2. cbn [map]. unfold root_of at 1. rewrite Et. done.
  - intros k n. rewrite Hsame. cbn. rewrite path_put_attr, Hv1. cbn. apply dget_attr.
Qed.

Lemma wpn_check_root s ds i rd :
  roots s ds → ds !! i = Some rd →
  wpn (check_normal_dir stack root (Z.of_nat i))
    (λ err s', err = (if decide (normal_root (s_vfs s) rd) then 1 else 0) ∧ roots s' ds ∧ s_vfs s' = s_vfs s) s.
Proof.
  intros (x & d & Hx & Hd & Hr) Hi. unfold check_normal_dir. apply wpn_bind. eapply wpn_replica; [done..| |].
  { unfold find_replica_dentry. rewrite decide_True by lia. rewrite Nat2Z.id, Hr, lookup_app_l.
    - by rewrite list_lookup_fmap, Hi.
    - rewrite length_map. by eapply lookup_lt_Some. }
  apply wpn_bind, wpn_deref, wpn_bind, wpn_observe.
  destruct (vfs_getxattr (s_vfs s) (rd, ShadowAttr) 8) as [ret data] eqn:E.
  assert (normal_root (s_vfs s) rd ↔ 0 < ret ∧ is_normal (fill (stack 8) data) = true) as Hiff
    by (unfold normal_root; by rewrite E).
  destruct (decide (0 < ret ∧ is_normal (fill (stack 8) data) = true)) as [Hn|Hn];
    [rewrite decide_True by (by apply Hiff)|rewrite (decide_False (P := normal_root _ _)) by (by rewrite Hiff)].
  - apply wpn_bind, wpn_bind. eapply wpn_SFS_D; [done..|]. eapply wpn_set_node; [done|]. apply wpn_ret.
    split_and!; [done| |done]. eexists _, _. split; [apply lookup_insert_eq|]. cbn. rewrite Hd. done.
  - apply wpn_ret. split_and!; [done| |done]. by exists x, d.
Qed.

Lemma wpn_check_roots n s ds i err :
  roots s ds → (i + n = length ds)%nat →
  wpn (check_roots stack root n (Z.of_nat i) err) (λ e s',
    e = match n, last ds with S _, Some rd => if decide (normal_root (s_vfs s) rd) then 1 else 0 | _, _ => err end ∧
    s_vfs s' = s_vfs s) s.
Proof.
  revert s i err. induction n as [|n IH]; intros s i err Hr Hi; cbn [check_roots].
  { by apply wpn_ret. }
  destruct (lookup_lt_is_Some_2 ds i) as [rd Hrd]; [lia|]. apply wpn_bind.
  eapply wpn_mono; [by apply (wpn_check_root s ds i rd)|]. intros e s1 (-> & Hr1 & Hv1).
  replace (Z.of_nat i + 1) with (Z.of_nat (S i)) by lia. eapply wpn_mono; [apply IH; [done|lia]|].
  intros e s2 [-> Hv2]. rewrite Hv1. split; [|congruence]. 
  destruct n as [|n].
  2:{ destruct (last ds) as [rd'|] eqn:El; [done|]. apply last_None in El. by subst ds. }
  assert (last ds = Some rd) as ->; [|done]. rewrite last_lookup. by replace (pred (length ds)) with i by lia.
Qed.
End mounting.

(** * Properties *)

(** C32: [sfs_statfs] returns the totals over the replicas that hold the directory: each of the five
    numbers is the sum, modulo 2^64, and exact as long as the sum fits; the other fields are those
    of the last replica. *)
Theorem statfs_totals {W} `{!Vfs W} vfs_statfs g (w : W) d buf p a :
  g_sbi_array g = Some (p, a) → p ∉ g_freed g → g_replica_count g = Z.of_nat (length a) → (length a ≤ 64)%nat →
  length (replicas d) = length a → answers vfs_statfs w a (replicas d) →
  let l := stats_of vfs_statfs w a (replicas d) in
  ∃ st, sfs_statfs vfs_statfs g w d buf = Ok (st, 0) ∧ f_rest st = f_rest (default buf (last l)) ∧
    (∀ f, f ∈ [f_blocks; f_bfree; f_bavail; f_files; f_ffree] →
      f st = wrapu 64 (sumZ f l) ∧ (0 ≤ sumZ f l < 2 ^ 64 → f st = sumZ f l)).
Proof.
  intros Ha Hp Hc H64 Hl Hans l. unfold sfs_statfs. rewrite Hc, Nat2Z.id.
  pose proof (statfs_loop_ok vfs_statfs g w p a d (length a) 0 no_stat buf Ha Hp Hc H64 Hl Hans eq_refl) as E.
  change (Z.of_nat 0) with 0 in E. rewrite !drop_0 in E. rewrite E, bind_Ok. fold l.
  rewrite decide_False by (intros H; by apply H). eexists. split; [done|]. split; [done|].
  assert (∀ f : kstatfs → Z, (∀ x y, f (add_stat x y) = wrapu 64 (f x + f y)) → f no_stat = 0 →
    f (foldl add_stat no_stat l) = wrapu 64 (sumZ f l)) as Hsum.
  { intros f Hf H0. rewrite sum_wrapu by (done || by rewrite H0). by rewrite H0. }
  assert (∀ z v, v = wrapu 64 z → v = wrapu 64 z ∧ (0 ≤ z < 2 ^ 64 → v = z)) as Hexact.
  { intros z v ->. split; [done|]. intros Hz. by apply wrapu_small. }
  intros f Hf. apply Hexact. rewrite !elem_of_cons, elem_of_nil in Hf.
  destruct Hf as [->|[->|[->|[->|[->|[]]]]]]; cbn; by apply Hsum.
Qed.

Lemma statfs_totals_witness :
  ∃ st, sfs_statfs (λ _ mnt _, inr (Kstatfs (100 + mnt) 50 40 10 5 [mnt])) 
      (SGlobals 2 (Some (0, [ReplicaSbi 1 7 100 0; ReplicaSbi 2 8 101 1])) [] 1)
      (MVfs ∅ (<[100 := 1]> (<[101 := 2]> ∅)) ∅ ∅ ∅ 9 9) (SfsDentry [Some 100; Some 101] None (-1) (-1) 0 0 0 0 0) no_stat = Ok (st, 0) ∧
    f_blocks st = 215.
Proof.
  destruct (statfs_totals (W := mvfs) (λ _ mnt _, inr (Kstatfs (100 + mnt) 50 40 10 5 [mnt])) 
      (SGlobals 2 (Some (0, [ReplicaSbi 1 7 100 0; ReplicaSbi 2 8 101 1])) [] 1)
      (MVfs ∅ (<[100 := 1]> (<[101 := 2]> ∅)) ∅ ∅ ∅ 9 9) (SfsDentry [Some 100; Some 101] None (-1) (-1) 0 0 0 0 0) no_stat
      0 [ReplicaSbi 1 7 100 0; ReplicaSbi 2 8 101 1]) as (st & E & _ & H).
  - reflexivity.
  - apply not_elem_of_nil.
  - reflexivity.
  - cbn. lia.
  - reflexivity.
  - intros i sbi rd _ _ _. by eexists.
  - exists st. split; [done|]. destruct (H f_blocks) as [Hb _]; [by left|]. rewrite Hb. reflexivity.
Defined.

(** Mounting reports the test of the last root directory as its error: when every path resolves, the
    value returned is 1 if the root of the last replica is marked as a normal directory and 0
    otherwise, so a file system whose last root was used to place files cannot be mounted again. *)
Theorem mount_fails_on_normal_root {W} `{!Vfs W} stack slab kmalloc_ok kern_path dget path_put root resolve
    str g x last_path (s : sfs W) :
  (∀ n, kmalloc_ok n = true) → (∀ w t, kern_path w t = (w, inr (resolve t))) →
  (∀ w d k n, vfs_getxattr (dget w d) k n = vfs_getxattr w k n) →
  (∀ w m d k n, vfs_getxattr (path_put w m d) k n = vfs_getxattr w k n) →
  s_tree s !! root = Some x → Forall (λ t, t ≠ [] ∧ (length t < 4096)%nat) (tokens str) →
  (length (tokens str) ≤ 64)%nat → last (tokens str) = Some last_path →
  ∃ m g' s', sfs_opts_parse stack slab kmalloc_ok kern_path dget path_put root str g s = Ok ((m, g'), s') ∧
    length (m_sbis m) = length (tokens str) ∧ g_replica_count g' = Z.of_nat (length (tokens str)) ∧
    m_err m = if decide (normal_root stack (s_vfs s) (root_of resolve last_path)) then 1 else 0.
Proof.
  intros Hmem Hpath Hdg Hpp Hx Hall Hlen Hlast.
  assert (wpn (sfs_opts_parse stack slab kmalloc_ok kern_path dget path_put root str g) (λ r s',
    length (m_sbis r.1) = length (tokens str) ∧ g_replica_count r.2 = Z.of_nat (length (tokens str)) ∧
    m_err r.1 = if decide (normal_root stack (s_vfs s) (root_of resolve last_path)) then 1 else 0) s)
    as ([m g'] & s' & E & H); [|by exists m, g', s'].
  unfold sfs_opts_parse. apply wpn_bind. eexists _, _. split; [reflexivity|]. rewrite Hmem. cbn [negb].
  apply wpn_bind. eapply wpn_node; [exact Hx|]. apply wpn_bind. eexists _, _. split; [reflexivity|].
  apply wpn_bind. eexists _, _. split; [reflexivity|]. rewrite !Hmem.
  unfold sfs_dentry_alloc, get_sfs_dentry, sfs_dentry_real_alloc. cbn zeta. apply wpn_bind.
  eapply wpn_set_node; [exact Hx|]. apply wpn_bind. eapply wpn_mono.
  { apply (wpn_parse_loop kmalloc_ok Hmem kern_path dget path_put root resolve Hpath Hdg Hpp (tokens str) _ [] [] None);
      [done| |cbn [length]; lia|done]. eexists _, _. split; [apply lookup_insert_eq|]. split; reflexivity. }
  intros r s1 (sbis & copied & -> & Hl & Hr & Hsame). cbn [length] in *. cbn iota.
  apply wpn_bind. eexists _, _. split; [reflexivity|]. rewrite Hmem. cbn [negb andb]. apply wpn_bind.
  eapply wpn_mono.
  { apply (wpn_check_roots stack root (length sbis) _ (map (root_of resolve) (tokens str)) 0%nat 0); [exact Hr|].
    rewrite length_map. lia. }
  intros e s2 [-> _]. apply wpn_ret. cbn [fst snd m_sbis m_err]. split_and!; [done| |].
  - cbn. lia.
  - assert (last (map (root_of resolve) (tokens str)) = Some (root_of resolve last_path)) as -> by (by rewrite fmap_last, Hlast).
    destruct (length sbis) eqn:El.
    + destruct (tokens str); [done|cbn in Hl; lia].
    + assert (normal_root stack (s_vfs s1) (root_of resolve last_path) ↔ normal_root stack (s_vfs s) (root_of resolve last_path)) as Hiff.
      { unfold normal_root. rewrite !Hsame. done. }
      by apply decide_ext.
Qed.

(** A file system with one replica, at the path [a]. *)
Definition one_root (attrs : gmap (Z * attr) (list Z)) : sfs mvfs :=
  Sfs (MVfs ∅ (<[100 := 1]> ∅) ∅ ∅ attrs 9 9) (<[0 := SNode 0 [] None None 0]> ∅) 0 0.

Lemma mount_fails_on_normal_root_witness :
  ∃ m g' s', sfs_opts_parse (W := mvfs) zero_stack (SfsDentry [] None (-1) (-1) 0 0 0 0 0) (λ _, true) (λ w _, (w, inr (1, 7, 100))) (λ w _, w) (λ w _ _, w) 0
      [97] (SGlobals 0 None [] 0) (one_root (<[(1, ShadowAttr) := normal_value]> ∅)) = Ok ((m, g'), s') ∧
    m_err m = 1 ∧ g_replica_count g' = 1.
Proof.
  destruct (mount_fails_on_normal_root (W := mvfs) zero_stack (SfsDentry [] None (-1) (-1) 0 0 0 0 0) (λ _, true) (λ w _, (w, inr (1, 7, 100))) (λ w _, w)
    (λ w _ _, w) 0 (λ _, (1, 7, 100)) [97] (SGlobals 0 None [] 0) (SNode 0 [] None None 0) [97]
    (one_root (<[(1, ShadowAttr) := normal_value]> ∅))) as (m & g' & s' & E & _ & Hc & He).
  - done.
  - done.
  - done.
  - done.
  - reflexivity.
  - apply Forall_singleton. split; [done|cbn; lia].
  - apply Nat.leb_le. reflexivity.
  - reflexivity.
  - exists m, g', s'. split_and!; [exact E| |exact Hc]. rewrite He. vm_compute. reflexivity.
Defined.

(** Unmounting leaves [sbi_array] dangling: after it, a mount that fails on its first path is torn
    down by a second [kfree] of the same array. *)
Theorem failed_remount_frees_twice {W} `{!Vfs W} stack slab kmalloc_ok kern_path dget path_put root
    str toks t g g1 sbis p a err x (s : sfs W) :
  (∀ n, kmalloc_ok n = true) → s_tree s !! root = Some x →
  g_sbi_array g = Some (p, a) → a ≠ [] → sfs_kill_sb (Some sbis) g = Ok g1 →
  tokens str = t :: toks → t ≠ [] → (length t < 4096)%nat → (∀ w, kern_path w t = (w, inl err)) →
  ∃ m g2 s', sfs_opts_parse stack slab kmalloc_ok kern_path dget path_put root str g1 s = Ok ((m, g2), s') ∧
    m_err m = err ∧ sfs_kill_sb (Some (m_sbis m)) g2 = Oops.
Proof.
  intros Hmem Hx Ha Hne_a Hk Htok Hne Hlen Hpath.
  assert (wpn (sfs_opts_parse stack slab kmalloc_ok kern_path dget path_put root str g1) (λ r s',
    m_err r.1 = err ∧ g_sbi_array r.2 = g_sbi_array g1 ∧ g_freed r.2 = g_freed g1) s)
    as ([m g2] & s' & E & H1 & H2 & H3).
  - unfold sfs_opts_parse. apply wpn_bind. eexists _, _. split; [reflexivity|]. rewrite Hmem. cbn [negb].
    apply wpn_bind. eapply wpn_node; [exact Hx|]. apply wpn_bind. eexists _, _. split; [reflexivity|].
    apply wpn_bind. eexists _, _. split; [reflexivity|]. rewrite !Hmem.
    unfold sfs_dentry_alloc, get_sfs_dentry, sfs_dentry_real_alloc. cbn zeta. apply wpn_bind.
    eapply wpn_set_node; [exact Hx|]. apply wpn_bind. rewrite Htok. cbn [parse_loop].
    rewrite decide_False by done. rewrite decide_False by lia. apply wpn_bind. eapply wpn_call; [apply Hpath|].
    apply wpn_ret, wpn_ret. done.
  - exists m, g2, s'. split; [done|]. split; [done|]. cbn [fst snd] in *. unfold sfs_kill_sb in *. rewrite Ha in Hk. rewrite H2, H3.
    destruct a as [|sbi a]; [done|]. destruct (decide (p ∈ g_freed g)); [done|]. injection Hk as <-. cbn. rewrite Ha. by rewrite decide_True by (by left).
Qed.

Lemma failed_remount_frees_twice_witness :
  ∃ g1 m g2 s', sfs_kill_sb (Some []) (SGlobals 1 (Some (0, [ReplicaSbi 1 7 100 0])) [] 1) = Ok g1 ∧
    sfs_opts_parse (W := mvfs) zero_stack (SfsDentry [] None (-1) (-1) 0 0 0 0 0) (λ _, true) (λ w _, (w, inl (- ENOENT))) (λ w _, w) (λ w _ _, w) 0
      [97] g1 (one_root ∅) = Ok ((m, g2), s') ∧
    m_err m = - ENOENT ∧ sfs_kill_sb (Some (m_sbis m)) g2 = Oops.
Proof.
  exists (SGlobals 1 (Some (0, [ReplicaSbi 1 7 100 0])) [0] 1).
  destruct (failed_remount_frees_twice (W := mvfs) zero_stack (SfsDentry [] None (-1) (-1) 0 0 0 0 0) (λ _, true) (λ w _, (w, inl (- ENOENT))) (λ w _, w)
    (λ w _ _, w) 0 [97] [] [97] (SGlobals 1 (Some (0, [ReplicaSbi 1 7 100 0])) [] 1)
    (SGlobals 1 (Some (0, [ReplicaSbi 1 7 100 0])) [0] 1) [] 0 [ReplicaSbi 1 7 100 0] (- ENOENT)
    (SNode 0 [] None None 0) (one_root ∅)) as (m & g2 & s' & E & He & Hk).
  - done.
  - reflexivity.
  - reflexivity.
  - done.
  - reflexivity.
  - reflexivity.
  - done.
  - cbn. lia.
  - done.
  - exists m, g2, s'. split; [reflexivity|]. split; [exact E|]. done.
Defined.
