(* ===== verification/PvfsInode.v ===== *)
(** * Partitioned VFS: the inode cache

    Models the part of fs/inode.c (3.8.2 tree) that the partitioned VFS changes: inodes of a super block
    mounted from a loop device ([isloop]) live in a hash table and under locks of their own, those of
    the other super blocks in the global table.  Modelled are the choice of table and lock
    ([groupfs_get_ihtable], [groupfs_get_ihlock], [groupfs_get_sblock]), the hash, insertion and
    removal, the list of inodes of a super block, lookup ([find_inode], [find_inode_fast],
    [iget_locked], [iget5_locked], [ilookup], [ilookup5], [igrab], [iunique],
    [insert_inode_locked]), allocation, the LRU list, [iput], [evict] and the eviction of all inodes of
    a super block, and the tables made by [mount_fs] of fs/super.c.

    Threads: a step is one critical section of a call, that is, what is done under the hash lock of the
    super block or under the lock of one inode; sections of different threads interleave. *)
From S2P Require Import Prelude Interfaces StateMonad.

Definition I_NEW : Z := 8.
Definition I_WILL_FREE : Z := 16.
Definition I_FREEING : Z := 32.
Definition I_CLEAR : Z := 64.
Definition I_SYNC : Z := 128.
Definition I_REFERENCED : Z := 256.
Definition I_DIRTY : Z := 7.
Definition GOLDEN_RATIO_PRIME : Z := 0x9e37fffffffc0001.

(** [v_hash]: the table and bucket [i_hash] is linked in; [v_listed]: on the list of its super block;
    [v_lru]: [i_lru] is linked. *)
Record vinode := VInode {
  v_ino : Z; v_sb : Z; v_state : Z; v_count : Z; v_nlink : Z;
  v_hash : option (Z * Z); v_listed : bool; v_lru : bool;
}.

Record super := Super {
  s_isloop : bool;
  s_itable : option Z;      (** [inode_hashtable] of the super block *)
  s_inodes : list Z;
  s_inode_lru : list Z;
  s_nr_inodes_unused : Z;
  s_active : bool;          (** [MS_ACTIVE] *)
}.

(** Address 0 is that of the global table. *)
Record icache := ICache {
  i_objs : gmap Z vinode;
  i_supers : gmap Z super;
  i_chains : gmap (Z * Z) (list Z);
  i_nr_unused : Z;
}.

Abbreviation V := (ST icache).

Definition obj (i : Z) : V vinode := st_deref (λ s, i_objs s !! i).
Definition set_obj (i : Z) (f : vinode → vinode) : V () := st_modify (λ s, s <| i_objs ::= alter f i |>).
Definition the_sb (sb : Z) : V super := st_deref (λ s, i_supers s !! sb).
Definition set_sb (sb : Z) (f : super → super) : V () := st_modify (λ s, s <| i_supers ::= alter f sb |>).
Definition BUG_ON (b : bool) : V () := if b then st_oops else mret ().

Definition chain (s : icache) (tb : Z * Z) : list Z := default [] (i_chains s !! tb).

Definition hlist_add_head (i : Z) (tb : Z * Z) : V () :=
  _ ← st_modify (λ s, s <| i_chains ::= <[tb := i :: chain s tb]> |>);
  set_obj i (λ v, v <| v_hash := Some tb |>).

Definition hlist_del_init (i : Z) : V () :=
  v ← obj i;
  match v_hash v with
  | None => mret ()
  | Some tb =>
      _ ← st_modify (λ s, s <| i_chains ::= <[tb := filter (.≠ i) (chain s tb)]> |>);
      set_obj i (λ v, v <| v_hash := None |>)
  end.

(** ** Tables and locks *)
Inductive vlock := GlobalHash | GlobalList | SbHash (sb : Z) | SbList (sb : Z).

Section cache.
Variable i_hash_shift : Z.
Variable i_hash_mask : Z.
Variable L1_CACHE_BYTES : Z.
(** [s_op->drop_inode], or [generic_drop_inode] *)
Variable drop_inode : option (vinode → bool).

Definition groupfs_get_ihtable (sb : Z) : V Z :=
  b ← the_sb sb; if s_isloop b then st_lift (lift (s_itable b)) else mret 0.

Definition groupfs_get_ihlock (sb : Z) : V vlock :=
  b ← the_sb sb; mret (if s_isloop b then SbHash sb else GlobalHash).

Definition groupfs_get_sblock (sb : Z) : V vlock :=
  b ← the_sb sb; mret (if s_isloop b then SbList sb else GlobalList).

Definition hash (sb hashval : Z) : Z :=
  let tmp := Z.lxor (wrapu 64 (hashval * sb)) (wrapu 64 (GOLDEN_RATIO_PRIME + hashval) / L1_CACHE_BYTES) in
  let tmp := Z.lxor tmp (Z.shiftr (Z.lxor tmp GOLDEN_RATIO_PRIME) i_hash_shift) in
  Z.land tmp i_hash_mask.

(** [groupfs_get_ihtable (sb) + hash (sb, hashval)] *)
Definition head_of (sb hashval : Z) : V (Z * Z) := t ← groupfs_get_ihtable sb; mret (t, hash sb hashval).

(** ** The lists of a super block *)
Definition inode_sb_list_add (i : Z) : V () :=
  v ← obj i;
  _ ← set_sb (v_sb v) (λ b, b <| s_inodes ::= cons i |>);
  set_obj i (λ v, v <| v_listed := true |>).

Definition inode_sb_list_del (i : Z) : V () :=
  v ← obj i;
  if v_listed v then
    _ ← set_sb (v_sb v) (λ b, b <| s_inodes ::= filter (.≠ i) |>);
    set_obj i (λ v, v <| v_listed := false |>)
  else mret ().

Definition inode_lru_list_add (i : Z) : V () :=
  v ← obj i;
  if v_lru v then mret () else
  _ ← set_sb (v_sb v) (λ b, b <| s_inode_lru ::= cons i |> <| s_nr_inodes_unused ::= Z.succ |>);
  _ ← st_modify (λ s, s <| i_nr_unused ::= Z.succ |>);
  set_obj i (λ v, v <| v_lru := true |>).

Definition inode_lru_list_del (i : Z) : V () :=
  v ← obj i;
  if v_lru v then
    _ ← set_sb (v_sb v) (λ b, b <| s_inode_lru ::= filter (.≠ i) |> <| s_nr_inodes_unused ::= Z.pred |>);
    _ ← st_modify (λ s, s <| i_nr_unused ::= Z.pred |>);
    set_obj i (λ v, v <| v_lru := false |>)
  else mret ().

Definition inode_add_lru (i : Z) : V () :=
  v ← obj i; b ← the_sb (v_sb v);
  if negb (has (v_state v) (Z.lor (Z.lor I_DIRTY I_SYNC) (Z.lor I_FREEING I_WILL_FREE))) && (v_count v =? 0) && s_active b
  then inode_lru_list_add i else mret ().

(** ** Insertion and removal *)
Definition __insert_inode_hash (i hashval : Z) : V () :=
  v ← obj i; b ← head_of (v_sb v) hashval; hlist_add_head i b.

Definition __remove_inode_hash (i : Z) : V () := hlist_del_init i.

Definition inode_unhashed (v : vinode) : bool := match v_hash v with None => true | Some _ => false end.

Definition remove_inode_hash (i : Z) : V () :=
  v ← obj i; if inode_unhashed v then mret () else __remove_inode_hash i.

Definition __iget (i : Z) : V () := set_obj i (λ v, v <| v_count ::= Z.succ |>).

(** ** Allocation

    [addr]: the address of the new inode; [None] when memory is short. *)
Definition alloc_inode (sb : Z) (addr : option Z) : V (option Z) :=
  match addr with
  | None => mret None
  | Some i => _ ← st_modify (λ s, s <| i_objs ::= <[i := VInode 0 sb 0 1 1 None false false]> |>); mret (Some i)
  end.

Definition destroy_inode (i : Z) : V () :=
  v ← obj i; _ ← BUG_ON (v_lru v); st_modify (λ s, s <| i_objs ::= delete i |>).

Definition new_inode_pseudo (sb : Z) (addr : option Z) : V (option Z) :=
  r ← alloc_inode sb addr;
  match r with
  | None => mret None
  | Some i => _ ← set_obj i (λ v, v <| v_state := 0 |>); mret (Some i)
  end.

Definition new_inode (sb : Z) (addr : option Z) : V (option Z) :=
  r ← new_inode_pseudo sb addr;
  match r with
  | None => mret None
  | Some i => _ ← inode_sb_list_add i; mret (Some i)
  end.

Definition unlock_new_inode (i : Z) : V () := set_obj i (λ v, v <| v_state ::= λ x, clear x I_NEW |>).

(** ** Lookup

    [Busy]: an inode that is being freed was met; the caller sleeps and starts again. *)
Inductive found := Found (i : Z) | Busy (i : Z) | Missing.

Definition freeing (v : vinode) : bool := has (v_state v) (Z.lor I_FREEING I_WILL_FREE).

Fixpoint find_in (test : vinode → bool) (l : list Z) : V found :=
  match l with
  | [] => mret Missing
  | i :: l =>
      v ← obj i;
      if negb (test v) then find_in test l else
      if freeing v then mret (Busy i) else
      _ ← __iget i; mret (Found i)
  end.

(** [test] is called for inodes of the super block only. *)
Definition find_inode (sb : Z) (head : Z * Z) (test : vinode → bool) : V found :=
  l ← st_get (λ s, chain s head); find_in (λ v, (v_sb v =? sb) && test v) l.

Definition find_inode_fast (sb : Z) (head : Z * Z) (ino : Z) : V found :=
  l ← st_get (λ s, chain s head); find_in (λ v, (v_ino v =? ino) && (v_sb v =? sb)) l.

(** [iget_locked] computes [head], searches the chain, allocates an inode and has this second critical
    section: another search, and the insertion of the new inode. *)
Inductive inserted := Inserted | Older (i : Z) | Again.

Definition iget_second (sb ino : Z) (head : Z * Z) (i : Z) : V inserted :=
  r ← find_inode_fast sb head ino;
  match r with
  | Busy _ => mret Again
  | Found old => mret (Older old)
  | Missing =>
      _ ← set_obj i (λ v, v <| v_ino := ino |> <| v_state := I_NEW |>);
      _ ← hlist_add_head i head;
      _ ← inode_sb_list_add i;
      mret Inserted
  end.

(** The same of [iget5_locked]; [set] fills in the new inode and may fail. *)
Definition iget5_second (sb : Z) (head : Z * Z) (test : vinode → bool) (set : vinode → option vinode) (i : Z) : V (option inserted) :=
  r ← find_inode sb head test;
  match r with
  | Busy _ => mret (Some Again)
  | Found old => mret (Some (Older old))
  | Missing =>
      v ← obj i;
      match set v with
      | None => mret None
      | Some v' =>
          _ ← set_obj i (λ _, v' <| v_state := I_NEW |>);
          _ ← hlist_add_head i head;
          _ ← inode_sb_list_add i;
          mret (Some Inserted)
      end
  end.

Definition ilookup5_nowait (sb hashval : Z) (test : vinode → bool) : V found :=
  head ← head_of sb hashval; find_inode sb head test.
Definition ilookup (sb ino : Z) : V found := head ← head_of sb ino; find_inode_fast sb head ino.

Definition igrab (i : Z) : V (option Z) :=
  v ← obj i; if freeing v then mret None else _ ← __iget i; mret (Some i).

(** [test_inode_iunique] looks at the inodes being freed as well. *)
Fixpoint unique_in (sb ino : Z) (l : list Z) : V bool :=
  match l with
  | [] => mret true
  | i :: l => v ← obj i; if (v_ino v =? ino) && (v_sb v =? sb) then mret false else unique_in sb ino l
  end.

Definition test_inode_iunique (sb ino : Z) : V bool :=
  head ← head_of sb ino; l ← st_get (λ s, chain s head); unique_in sb ino l.

(** [counter] is a 32-bit variable that is kept between calls. *)
Fixpoint iunique (fuel : nat) (sb max_reserved counter : Z) : V (Z * Z) :=
  match fuel with
  | O => λ _, NoFuel
  | S fuel =>
      let counter := if counter <=? max_reserved then wrapu 32 (max_reserved + 1) else counter in
      let ino := counter in
      let counter := wrapu 32 (counter + 1) in
      ok ← test_inode_iunique sb ino;
      if (ok : bool) then mret (ino, counter) else iunique fuel sb max_reserved counter
  end.

(** One round of [insert_inode_locked]: inodes being freed are passed over. *)
Fixpoint first_live (test : vinode → bool) (l : list Z) : V (option Z) :=
  match l with
  | [] => mret None
  | i :: l =>
      v ← obj i;
      if negb (test v) then first_live test l else
      if freeing v then first_live test l else mret (Some i)
  end.

Definition insert_round (i : Z) (hashval : Z) (test : vinode → bool) : V (option Z) :=
  v ← obj i;
  head ← head_of (v_sb v) hashval;
  l ← st_get (λ s, chain s head);
  r ← first_live (λ w, (v_sb w =? v_sb v) && test w) l;
  match r with
  | None =>
      _ ← set_obj i (λ v, v <| v_state ::= λ x, Z.lor x I_NEW |>);
      _ ← hlist_add_head i head;
      mret None
  | Some old => _ ← __iget old; mret (Some old)
  end.

(** [insert_inode_locked] and [insert_inode_locked4]: [None] when the inode was inserted. *)
Definition insert_inode_locked (i : Z) : V (option Z) := v ← obj i; insert_round i (v_ino v) (λ w, v_ino w =? v_ino v).
Definition insert_inode_locked4 (i hashval : Z) (test : vinode → bool) : V (option Z) := insert_round i hashval test.

(** ** Freeing *)
Definition generic_drop_inode (v : vinode) : bool := (v_nlink v =? 0) || inode_unhashed v.

(** What is left to do for the last reference: nothing, to write the inode and then free it, or to free
    it. *)
Inductive last_put := Kept | ToWrite | ToEvict.

(** [iput], up to the end of [iput_final] or to [write_inode_now]. *)
Definition iput (i : Z) : V last_put :=
  v ← obj i;
  _ ← BUG_ON (has (v_state v) I_CLEAR);
  _ ← set_obj i (λ v, v <| v_count ::= Z.pred |>);
  if negb (v_count v - 1 =? 0) then mret Kept else
  b ← the_sb (v_sb v);
  let drop := match drop_inode with Some f => f (v <| v_count ::= Z.pred |>) | None => generic_drop_inode v end in
  if negb drop && s_active b then
    _ ← set_obj i (λ v, v <| v_state ::= λ x, Z.lor x I_REFERENCED |>);
    _ ← inode_add_lru i;
    mret Kept
  else if negb drop then
    _ ← set_obj i (λ v, v <| v_state ::= λ x, Z.lor x I_WILL_FREE |>);
    mret ToWrite
  else
    _ ← set_obj i (λ v, v <| v_state ::= λ x, Z.lor x I_FREEING |>);
    _ ← inode_lru_list_del i;
    mret ToEvict.

(** The rest of [iput_final] after [write_inode_now]. *)
Definition iput_written (i : Z) : V () :=
  _ ← set_obj i (λ v, v <| v_state ::= λ x, Z.lor (clear x I_WILL_FREE) I_FREEING |>);
  inode_lru_list_del i.

(** [evict] up to [remove_inode_hash]; the last three lines are [clear_inode], a part of [evict_inode]. *)
Definition evict_begin (i : Z) : V () :=
  v ← obj i;
  _ ← BUG_ON (negb (has (v_state v) I_FREEING));
  _ ← BUG_ON (v_lru v);
  _ ← inode_sb_list_del i;
  v ← obj i;
  _ ← BUG_ON (negb (has (v_state v) I_FREEING));
  _ ← BUG_ON (has (v_state v) I_CLEAR);
  set_obj i (λ v, v <| v_state := Z.lor I_FREEING I_CLEAR |>).

Definition evict_end (i : Z) : V () :=
  v ← obj i;
  _ ← BUG_ON (negb (v_state v =? Z.lor I_FREEING I_CLEAR));
  destroy_inode i.

(** The loops of [evict_inodes] and [invalidate_inodes]: inodes in use are passed over, the others are
    taken off the LRU list and put on the list returned, the last one first. *)
Definition take_for_eviction (i : Z) : V () :=
  _ ← set_obj i (λ v, v <| v_state ::= λ x, Z.lor x I_FREEING |>); inode_lru_list_del i.

Fixpoint evict_loop (l dispose : list Z) : V (list Z) :=
  match l with
  | [] => mret dispose
  | i :: l =>
      v ← obj i;
      if negb (v_count v =? 0) then evict_loop l dispose else
      if has (v_state v) (Z.lor (Z.lor I_NEW I_FREEING) I_WILL_FREE) then evict_loop l dispose else
      _ ← take_for_eviction i; evict_loop l (i :: dispose)
  end.

Definition evict_inodes (sb : Z) : V (list Z) := b ← the_sb sb; evict_loop (s_inodes b) [].

Fixpoint invalidate_loop (kill_dirty : bool) (l dispose : list Z) (busy : bool) : V (list Z * bool) :=
  match l with
  | [] => mret (dispose, busy)
  | i :: l =>
      v ← obj i;
      if has (v_state v) (Z.lor (Z.lor I_NEW I_FREEING) I_WILL_FREE) then invalidate_loop kill_dirty l dispose busy else
      if has (v_state v) I_DIRTY && negb kill_dirty then invalidate_loop kill_dirty l dispose true else
      if negb (v_count v =? 0) then invalidate_loop kill_dirty l dispose true else
      _ ← take_for_eviction i; invalidate_loop kill_dirty l (i :: dispose) busy
  end.

(** One step, although the code takes and releases [i_lock] for each inode: [inode_sb_list_lock] is held for the
    whole walk, so that the list stays, and each inode is looked at once, under its own lock. *)
Definition invalidate_inodes (sb : Z) (kill_dirty : bool) : V (list Z * bool) :=
  b ← the_sb sb; invalidate_loop kill_dirty (s_inodes b) [] false.

(** ** Threads

    [PFind], [PAlloc], [PSecond], [PLost]: in [iget_locked]; [PWait]: in [wait_on_inode]; [PHave]: it has returned
    and the reference is held; [PWrite]: in [write_inode_now]; [PEvict], [PUnhash], [PDestroy]: in
    [evict] of the first inode, with the inodes [dispose_list] has still to evict. *)
Inductive pc :=
  | PIdle
  | PFind (sb ino : Z) (head : Z * Z)
  | PAlloc (sb ino : Z) (head : Z * Z)
  | PSecond (sb ino : Z) (head : Z * Z) (i : Z)
  | PLost (sb ino i old : Z)
  | PWait (sb ino i : Z)
  | PHave (sb ino i : Z)
  | PWrite (i : Z)
  | PEvict (l : list Z)
  | PUnhash (i : Z) (l : list Z)
  | PDestroy (i : Z) (l : list Z).

(** What a thread does next, where it has a choice: the call an idle thread makes; the result of an
    allocation; what it does with its reference. *)
Inductive event :=
  | EIget (sb ino : Z)
  | EInvalidate (sb : Z) (kill_dirty : bool)
  | ERun
  | EAlloc (addr : option Z)
  | EUnlockNew
  | EDropLink
  | EIput.

(** The lists of [dispose_list]. *)
Definition dispose (l : list Z) : pc := match l with [] => PIdle | _ => PEvict l end.

Definition thread_step (e : event) (p : pc) : option (V pc) :=
  match p, e with
  | PIdle, EIget sb ino => Some (head ← head_of sb ino; mret (PFind sb ino head))
  | PIdle, EInvalidate sb kill => Some (r ← invalidate_inodes sb kill; mret (dispose r.1))
  | PFind sb ino head, ERun => Some (
      r ← find_inode_fast sb head ino;
      mret match r with Found i => PWait sb ino i | Busy _ => PFind sb ino head | Missing => PAlloc sb ino head end)
  | PAlloc sb ino head, EAlloc addr => Some (
      r ← alloc_inode sb addr;
      mret match r with Some i => PSecond sb ino head i | None => PIdle end)
  | PSecond sb ino head i, ERun => Some (
      r ← iget_second sb ino head i;
      mret match r with Inserted => PHave sb ino i | Again => PSecond sb ino head i | Older old => PLost sb ino i old end)
  | PLost sb ino i old, ERun => Some (_ ← destroy_inode i; mret (PWait sb ino old))
  | PWait sb ino i, ERun => Some (v ← obj i; mret (if has (v_state v) I_NEW then PWait sb ino i else PHave sb ino i))
  | PHave sb ino i, EUnlockNew => Some (_ ← unlock_new_inode i; mret (PHave sb ino i))
  | PHave sb ino i, EDropLink => Some (_ ← set_obj i (λ v, v <| v_nlink := 0 |>); mret (PHave sb ino i))
  | PHave _ _ i, EIput => Some (
      r ← iput i;
      mret match r with Kept => PIdle | ToWrite => PWrite i | ToEvict => PEvict [i] end)
  | PWrite i, ERun => Some (_ ← iput_written i; mret (PEvict [i]))
  | PEvict (i :: l), ERun => Some (_ ← evict_begin i; mret (PUnhash i l))
  | PUnhash i l, ERun => Some (_ ← remove_inode_hash i; mret (PDestroy i l))
  | PDestroy i l, ERun => Some (_ ← evict_end i; mret (dispose l))
  | _, _ => None
  end.

(** An allocation gives an address that is not in use; calls name mounted super blocks. *)
Definition allowed (e : event) (s : icache) : Prop :=
  match e with
  | EAlloc (Some i) => i_objs s !! i = None
  | EIget sb _ | EInvalidate sb _ => is_Some (i_supers s !! sb)
  | _ => True
  end.

#[export] Instance allowed_dec e s : Decision (allowed e s).
Proof. destruct e as [| | |[]| | |]; apply _. Defined.

Inductive step : list pc * icache → list pc * icache → Prop :=
  | step_thread k p e m p' ts s s' :
      ts !! k = Some p → thread_step e p = Some m → allowed e s → m s = Ok (p', s') →
      step (ts, s) (<[k := p']> ts, s').
End cache.

(** ** Mounting: [groupfs_inode_hashtable] and its call in [mount_fs] *)
Definition dev_loop : list Z := [47; 100; 101; 118; 47; 108; 111; 111; 112].

(** [addr]: the address of the new table; [None] when memory is short, which is not tested. *)
Definition groupfs_inode_hashtable (addr : option Z) : V Z :=
  t ← st_lift (lift addr);
  _ ← st_modify (λ s, s <| i_chains ::= filter (λ x, x.1.1 ≠ t) |>);
  mret t.

(** [mount_fs] after [type->mount] has filled in the super block. *)
Definition mount_tables (sb : Z) (name : list Z) (addr : option Z) : V () :=
  if decide (take 9 name = dev_loop) then
    t ← groupfs_inode_hashtable addr;
    set_sb sb (λ b, b <| s_itable := Some t |> <| s_isloop := true |>)
  else mret ().
