(* ===== verification/PvfsCache.v ===== *)
(** * Partitioned VFS: safety of the inode cache

    The invariant of the threads of PvfsInode.v: chains and inodes agree, an inode is where its super
    block looks for it, no two hashed inodes have the same number on the same super block, and
    reference counts equal the references threads hold; an inode being freed belongs to one thread. *)
From S2P Require Import Prelude Interfaces StateMonad PvfsInode.

Definition one (i j : Z) : Z := if decide (i = j) then 1 else 0.

(** References and inodes to be freed of a thread. *)
Definition holds (p : pc) (j : Z) : Z :=
  match p with
  | PSecond _ _ _ i | PWait _ _ i | PHave _ _ i => one i j
  | PLost _ _ i old => one i j + one old j
  | _ => 0
  end.

Definition evicts (p : pc) (j : Z) : Z :=
  match p with
  | PWrite i => one i j
  | PEvict l => sumZ (λ i, one i j) l
  | PUnhash i l | PDestroy i l => one i j + sumZ (λ i, one i j) l
  | _ => 0
  end.

Definition refs (ts : list pc) (j : Z) : Z := sumZ (λ p, holds p j) ts.
Definition evictors (ts : list pc) (j : Z) : Z := sumZ (λ p, evicts p j) ts.

Lemma one_nonneg i j : 0 ≤ one i j.
Proof. unfold one. by case_decide. Qed.

Lemma one_self i : one i i = 1.
Proof. unfold one. by rewrite decide_True. Qed.

Lemma one_other i j : i ≠ j → one i j = 0.
Proof. intros. unfold one. by rewrite decide_False. Qed.

Lemma sum_one_nonneg l j : 0 ≤ sumZ (λ i, one i j) l.
Proof. apply sumZ_nonneg. intros. apply one_nonneg. Qed.

Lemma holds_nonneg p j : 0 ≤ holds p j.
Proof.
  destruct p; cbn; try done; try apply one_nonneg. pose proof (one_nonneg i j). pose proof (one_nonneg old j). lia.
Qed.

Lemma evicts_nonneg p j : 0 ≤ evicts p j.
Proof.
  destruct p; cbn; try done; try apply one_nonneg; try apply sum_one_nonneg;
    pose proof (one_nonneg i j); pose proof (sum_one_nonneg l j); lia.
Qed.

Section two.
Context {A : Type} (f : A → Z) (f_nonneg : ∀ x, 0 ≤ f x).

Lemma sumZ_lookup_le (l : list A) k x : l !! k = Some x → f x ≤ sumZ f l.
Proof.
  revert k. induction l as [|y l IH]; intros [|k] Hk; [done|done| |]; cbn in *.
  - injection Hk as ->. pose proof (sumZ_nonneg f l (λ x _, f_nonneg x)). unfold sumZ in *. lia.
  - specialize (IH k Hk). pose proof (f_nonneg y). unfold sumZ in *. lia.
Qed.

Lemma sumZ_lookup_two_le (l : list A) k j x y : l !! k = Some x → l !! j = Some y → k ≠ j → f x + f y ≤ sumZ f l.
Proof.
  revert k j. induction l as [|z l IH]; intros [|k] [|j] Hk Hj Hne; try done; cbn in *.
  - injection Hk as ->. pose proof (sumZ_lookup_le l j y Hj). unfold sumZ in *. lia.
  - injection Hj as ->. pose proof (sumZ_lookup_le l k x Hk). unfold sumZ in *. lia.
  - pose proof (f_nonneg z). specialize (IH k j Hk Hj ltac:(congruence)). unfold sumZ in *. lia.
Qed.
End two.

Section inv.
Variable i_hash_shift i_hash_mask L1_CACHE_BYTES : Z.
Variable drop_inode : option (vinode → bool).

Abbreviation hash := (hash i_hash_shift i_hash_mask L1_CACHE_BYTES).
Abbreviation head_of := (head_of i_hash_shift i_hash_mask L1_CACHE_BYTES).
Abbreviation thread_step := (thread_step i_hash_shift i_hash_mask L1_CACHE_BYTES drop_inode).
Abbreviation step := (step i_hash_shift i_hash_mask L1_CACHE_BYTES drop_inode).

(** Where a super block looks for a number. *)
Definition table_of (s : icache) (sb : Z) : option Z :=
  b ← i_supers s !! sb; if s_isloop b then s_itable b else Some 0.
Definition place (s : icache) (sb ino : Z) : option (Z * Z) := t ← table_of s sb; Some (t, hash sb ino).

Record hash_ok (s : icache) : Prop := {
  h_chain tb i : i ∈ chain s tb ↔ ∃ v, i_objs s !! i = Some v ∧ v_hash v = Some tb;
  h_place i v tb : i_objs s !! i = Some v → v_hash v = Some tb → place s (v_sb v) (v_ino v) = Some tb;
  h_unique i j v w : i_objs s !! i = Some v → i_objs s !! j = Some w → is_Some (v_hash v) → is_Some (v_hash w) →
    v_sb v = v_sb w → v_ino v = v_ino w → i = j;
}.

Definition b2Z (b : bool) : Z := if b then 1 else 0.

Definition doomed (s : icache) (i : Z) : Prop :=
  ∃ v, i_objs s !! i = Some v ∧ has (v_state v) I_FREEING = true ∧ has (v_state v) I_CLEAR = false ∧ v_lru v = false.
Definition not_cleared (s : icache) (i : Z) : Prop :=
  ∃ v, i_objs s !! i = Some v ∧ has (v_state v) I_CLEAR = false.
Definition cleared (s : icache) (i : Z) : Prop :=
  ∃ v, i_objs s !! i = Some v ∧ v_state v = Z.lor I_FREEING I_CLEAR ∧ v_lru v = false ∧ v_listed v = false.
Definition fresh_obj (s : icache) (sb i : Z) : Prop :=
  ∃ v, i_objs s !! i = Some v ∧ v_hash v = None ∧ v_sb v = sb ∧ v_count v = 1 ∧ freeing v = false ∧ v_lru v = false ∧ v_listed v = false.

Definition named (s : icache) (sb ino i : Z) : Prop :=
  ∃ v, i_objs s !! i = Some v ∧ v_sb v = sb ∧ v_ino v = ino ∧ is_Some (v_hash v).

Definition pc_ok (s : icache) (p : pc) : Prop :=
  match p with
  | PIdle => True
  | PWrite i => not_cleared s i
  | PWait sb ino i | PHave sb ino i => named s sb ino i
  | PFind sb ino head | PAlloc sb ino head => place s sb ino = Some head
  | PSecond sb ino head i => place s sb ino = Some head ∧ fresh_obj s sb i
  | PLost sb ino i old => fresh_obj s sb i ∧ named s sb ino old
  | PEvict l => Forall (doomed s) l
  | PUnhash i l => cleared s i ∧ Forall (doomed s) l
  | PDestroy i l => cleared s i ∧ (v_hash <$> i_objs s !! i) = Some None ∧ Forall (doomed s) l
  end.

Definition counted (ts : list pc) (i : Z) (o : option vinode) : Prop :=
  match o with
  | None => refs ts i = 0 ∧ evictors ts i = 0
  | Some v => v_count v = refs ts i ∧ b2Z (freeing v) = evictors ts i ∧ (freeing v = true → v_count v = 0) ∧
      (has (v_state v) I_CLEAR = true → freeing v = true)
  end.

Record supers_ok (s : icache) : Prop := {
  sb_table sb b : i_supers s !! sb = Some b → s_isloop b = true → is_Some (s_itable b);
  sb_obj i v : i_objs s !! i = Some v → is_Some (i_supers s !! v_sb v);
  sb_list sb b i : i_supers s !! sb = Some b → i ∈ s_inodes b → ∃ v, i_objs s !! i = Some v ∧ v_listed v = true ∧ v_sb v = sb;
}.

Record inv (ts : list pc) (s : icache) : Prop := {
  inv_hash : hash_ok s;
  inv_supers : supers_ok s;
  inv_count i : counted ts i (i_objs s !! i);
  inv_pc k p : ts !! k = Some p → pc_ok s p;
}.

(** ** Frames *)

(** Tables stay where they are. *)
Definition same_places (s s' : icache) : Prop := ∀ sb, table_of s' sb = table_of s sb.

Lemma place_same s s' sb ino : same_places s s' → place s' sb ino = place s sb ino.
Proof. intros H. unfold place. by rewrite H. Qed.

Definition shape (v : vinode) : option (Z * Z) * Z * Z := (v_hash v, v_sb v, v_ino v).

(** The inodes a thread has for itself. *)
Definition owns (p : pc) (i : Z) : Prop :=
  match p with PSecond _ _ _ j | PLost _ _ j _ => i = j | _ => 0 < evicts p i end.

Lemma sum_one_in l i : i ∈ l → 0 < sumZ (λ j, one j i) l.
Proof.
  induction l as [|j l IH]; [by intros ?%elem_of_nil|]. change (sumZ _ (j :: l)) with (one j i + sumZ (λ j, one j i) l).
  pose proof (sum_one_nonneg l i). pose proof (one_nonneg j i).
  intros [->|Hi]%elem_of_cons; [rewrite one_self; lia|]. specialize (IH Hi). lia.
Qed.

Lemma named_frame s s' sb ino i : shape <$> i_objs s' !! i = shape <$> i_objs s !! i → named s sb ino i → named s' sb ino i.
Proof.
  intros E (v & Hv & Hs & Hn & Hh). rewrite Hv in E. apply fmap_Some in E as (w & Hw & E). injection E as E1 E2 E3.
  exists w. split_and!; congruence || by rewrite <- E1.
Qed.

Lemma pc_ok_frame s s' p :
  same_places s s' → (∀ i, owns p i → i_objs s' !! i = i_objs s !! i) →
  (∀ i, 0 < holds p i → shape <$> i_objs s' !! i = shape <$> i_objs s !! i) → pc_ok s p → pc_ok s' p.
Proof.
  intros Hp Ho Hsh. assert (∀ l, (∀ i, i ∈ l → owns p i) → Forall (doomed s) l → Forall (doomed s') l) as Hl.
  { intros l Hin Hl. apply Forall_forall. intros i Hi. rewrite Forall_forall in Hl. destruct (Hl i Hi) as (v & Hv & Hr).
    exists v. by rewrite Ho by auto. }
  assert (∀ i, owns p i → cleared s i → cleared s' i) as Hc.
  { intros i Hi (v & Hv & Hr). exists v. by rewrite Ho by auto. }
  assert (∀ sb i, owns p i → fresh_obj s sb i → fresh_obj s' sb i) as Hf.
  { intros sb i Hi (v & Hv & Hr). exists v. by rewrite Ho by auto. }
  assert (∀ i l j, j ∈ l → 0 < one i j + sumZ (λ i, one i j) l) as Hr.
  { intros i l j Hj%sum_one_in. pose proof (one_nonneg i j). lia. }
  assert (∀ i l, 0 < one i i + sumZ (λ j, one j i) l) as Hh.
  { intros i l. rewrite one_self. pose proof (sum_one_nonneg l i). lia. }
  destruct p; cbn -[sumZ]; rewrite ?(place_same s s') by done; try done.
  - intros [? ?]. split; [done|]. by apply Hf.
  - intros [? ?]. split; [by apply Hf|]. eapply named_frame; [|done]. apply Hsh. cbn. rewrite one_self. pose proof (one_nonneg i old). lia.
  - apply named_frame, Hsh. cbn. by rewrite one_self.
  - apply named_frame, Hsh. cbn. by rewrite one_self.
  - intros (v & Hv & Hn). exists v. rewrite Ho; [done|]. cbn. by rewrite one_self.
  - apply Hl. intros i. apply sum_one_in.
  - intros [? ?]. split; [apply Hc; [apply Hh|done]|]. apply Hl; [|done]. intros j. apply Hr.
  - intros (? & E & ?). split_and!; [apply Hc; [apply Hh|done]|by rewrite Ho by apply Hh|]. apply Hl; [|done]. intros j. apply Hr.
Qed.

(** A thread's own inode cannot be touched by another one that holds a reference to it, frees it, or
    found it in a chain or without references. *)
Lemma not_owned ts s k j p q i v :
  inv ts s → ts !! k = Some p → ts !! j = Some q → k ≠ j → i_objs s !! i = Some v →
  v_count v ≠ 1 ∨ is_Some (v_hash v) ∨ 0 < holds p i → freeing v = false ∨ 0 < evicts p i → ¬ owns q i.
Proof.
  intros Hinv Hk Hj Hne Hi H1 H2 Hown. pose proof (inv_count _ _ Hinv i) as Hc. rewrite Hi in Hc. destruct Hc as (Hc & He & Hz & _).
  pose proof (sumZ_lookup_two_le (λ p, holds p i) (λ p, holds_nonneg p i) ts k j p q Hk Hj Hne) as Hh.
  pose proof (sumZ_lookup_two_le (λ p, evicts p i) (λ p, evicts_nonneg p i) ts k j p q Hk Hj Hne) as Hev. cbn beta in Hh, Hev.
  fold (refs ts i) in Hh. fold (evictors ts i) in Hev.
  pose proof (holds_nonneg p i). pose proof (evicts_nonneg p i).
  assert (∀ sb i', fresh_obj s sb i' → i = i' → 1 ≤ holds q i → False) as Hfresh.
  { intros sb i' (v' & Hv' & Hu & _ & Hone & Hfr & _) -> Hhold. rewrite Hi in Hv'. injection Hv' as <-.
    destruct H1 as [?|[[? ?]|?]]; [congruence|congruence|lia]. }
  assert (0 < evicts q i → False) as Hevq.
  { intros Hq. destruct H2 as [Hf|Hf]; [rewrite Hf in He; cbn in He; lia|]. destruct (freeing v); cbn in He; lia. }
  pose proof (inv_pc _ _ Hinv j q Hj) as Hok. destruct q; cbn [owns] in Hown; try (by apply Hevq).
  - destruct Hok as [_ Hok]. apply (Hfresh _ _ Hok Hown). cbn. rewrite Hown, one_self. done.
  - destruct Hok as [Hok _]. apply (Hfresh _ _ Hok Hown). cbn. rewrite Hown, one_self. pose proof (one_nonneg old i0). lia.
Qed.

Lemma hash_ok_same s s' :
  i_chains s' = i_chains s → same_places s s' → (∀ i, shape <$> i_objs s' !! i = shape <$> i_objs s !! i) →
  hash_ok s → hash_ok s'.
Proof.
  intros Hc Hp Hs [H1 H2 H3].
  assert (∀ i v, i_objs s' !! i = Some v → ∃ w, i_objs s !! i = Some w ∧ v_hash w = v_hash v ∧ v_sb w = v_sb v ∧ v_ino w = v_ino v) as Hback.
  { intros i v Hv. specialize (Hs i). rewrite Hv in Hs. symmetry in Hs. apply fmap_Some in Hs as (w & Hw & E).
    exists w. injection E as E1 E2 E3. split_and!; congruence. }
  split.
  - intros tb i. unfold chain. rewrite Hc. fold (chain s tb). rewrite H1. split; intros (v & Hv & Hh).
    + specialize (Hs i). rewrite Hv in Hs. apply fmap_Some in Hs as (w & Hw & E). exists w. split; [done|]. injection E as E1 _ _. congruence.
    + destruct (Hback i v Hv) as (w & Hw & Eh & _). exists w. split; [done|congruence].
  - intros i v tb Hv Hh. rewrite (place_same s s') by done. destruct (Hback i v Hv) as (w & Hw & Eh & <- & <-).
    apply (H2 i); [done|congruence].
  - intros i j v w Hv Hw Hhv Hhw Hsb Hino.
    destruct (Hback i v Hv) as (v' & Hv' & E1 & E2 & E3). destruct (Hback j w Hw) as (w' & Hw' & E4 & E5 & E6).
    apply (H3 i j v' w'); congruence.
Qed.

(** The references of two threads are within the count. *)
Lemma only_holder ts s k j p q i v :
  inv ts s → ts !! k = Some p → ts !! j = Some q → k ≠ j → i_objs s !! i = Some v → holds p i + holds q i ≤ v_count v.
Proof.
  intros Hinv Hk Hj Hne Hi. pose proof (inv_count _ _ Hinv i) as Hc. rewrite Hi in Hc. destruct Hc as (-> & _).
  by apply (sumZ_lookup_two_le (λ p, holds p i) (λ p, holds_nonneg p i) ts k j).
Qed.

(** The other threads, when one thread has changed one inode. *)
Lemma others_ok ts s s' k p p' i v :
  inv ts s → ts !! k = Some p → i_objs s !! i = Some v → same_places s s' → (∀ x, x ≠ i → i_objs s' !! x = i_objs s !! x) →
  (∀ j q, j ≠ k → ts !! j = Some q → 0 < holds q i → shape <$> i_objs s' !! i = shape <$> i_objs s !! i) →
  v_count v ≠ 1 ∨ is_Some (v_hash v) ∨ 0 < holds p i → freeing v = false ∨ 0 < evicts p i → pc_ok s' p' →
  ∀ j q, <[k := p']> ts !! j = Some q → pc_ok s' q.
Proof.
  intros Hinv Hk Hi Hp Hx Hsh H1 H2 Hok j q Hq. destruct (decide (j = k)) as [->|Hne].
  { rewrite list_lookup_insert_eq in Hq by (by eapply lookup_lt_Some). by injection Hq as <-. }
  rewrite list_lookup_insert_ne in Hq by done. apply (pc_ok_frame s s'); [done| | |by apply (inv_pc _ _ Hinv j)].
  - intros x Hown. apply Hx. intros ->. by apply (not_owned ts s k j p q i v Hinv Hk Hq).
  - intros x Hh. destruct (decide (x = i)) as [->|Hnx]; [by apply (Hsh j q)|by rewrite Hx].
Qed.

(** Counts after a thread has moved on. *)
Lemma counted_move ts k p p' i v v' :
  ts !! k = Some p → counted ts i (Some v) →
  v_count v' - holds p' i = v_count v - holds p i → b2Z (freeing v') - evicts p' i = b2Z (freeing v) - evicts p i →
  (freeing v' = true → v_count v' = 0) → (has (v_state v') I_CLEAR = true → freeing v' = true) →
  counted (<[k := p']> ts) i (Some v').
Proof.
  intros Hk (Hc & He & _ & _) H1 H2 H3 H4. unfold counted, refs, evictors in *.
  rewrite !(sumZ_insert _ _ _ _ _ Hk). split_and!; [lia|lia|done|done].
Qed.

Lemma counted_other ts k p p' i o :
  ts !! k = Some p → holds p' i = holds p i → evicts p' i = evicts p i → counted ts i o → counted (<[k := p']> ts) i o.
Proof.
  intros Hk Hh He Hc. unfold counted, refs, evictors in *. rewrite !(sumZ_insert _ _ _ _ _ Hk).
  destruct o as [v|]; [destruct Hc as (?&?&?&?)|destruct Hc as (?&?)]; split_and!; try done; lia.
Qed.

(** A thread changes one inode, without moving it. *)
Lemma inv_touch ts s s' k p p' i v v' :
  inv ts s → ts !! k = Some p → i_objs s !! i = Some v → i_objs s' = <[i := v']> (i_objs s) →
  i_chains s' = i_chains s → same_places s s' → supers_ok s' → shape v' = shape v →
  (∀ j, j ≠ i → holds p' j = holds p j ∧ evicts p' j = evicts p j) →
  v_count v' - holds p' i = v_count v - holds p i → b2Z (freeing v') - evicts p' i = b2Z (freeing v) - evicts p i →
  (freeing v' = true → v_count v' = 0) → (has (v_state v') I_CLEAR = true → freeing v' = true) →
  v_count v ≠ 1 ∨ is_Some (v_hash v) ∨ 0 < holds p i → freeing v = false ∨ 0 < evicts p i →
  pc_ok s' p' → inv (<[k := p']> ts) s'.
Proof.
  intros Hinv Hk Hi Ho Hch Hpl Hsup Hshape Hoth Hcnt Hev Hz Hcl H1 H2 Hok.
  assert (∀ j, shape <$> i_objs s' !! j = shape <$> i_objs s !! j) as Hsh.
  { intros j. rewrite Ho. destruct (decide (j = i)) as [->|Hne]; [rewrite lookup_insert_eq, Hi; cbn; by rewrite Hshape|by rewrite lookup_insert_ne]. }
  split.
  - by apply (hash_ok_same s s'); [done|done|done|apply Hinv].
  - done.
  - intros j. rewrite Ho. destruct (decide (j = i)) as [->|Hne].
    + rewrite lookup_insert_eq. apply (counted_move ts k p p' i v); try done.
      pose proof (inv_count _ _ Hinv i) as Hc. by rewrite Hi in Hc.
    + rewrite lookup_insert_ne by done. destruct (Hoth j Hne). apply (counted_other ts k p); try done. apply Hinv.
  - apply (others_ok ts s s' k p p' i v); try done. intros x Hx. rewrite Ho. by apply lookup_insert_ne.
Qed.

(** A thread moves on without touching anything. *)
Lemma inv_pc_only ts s k p p' :
  inv ts s → ts !! k = Some p → (∀ j, holds p' j = holds p j ∧ evicts p' j = evicts p j) → pc_ok s p' → inv (<[k := p']> ts) s.
Proof.
  intros Hinv Hk Hsame Hok. split; [apply Hinv..| |].
  - intros i. destruct (Hsame i). apply (counted_other ts k p); try done. apply Hinv.
  - intros j q Hq. destruct (decide (j = k)) as [->|Hne].
    + rewrite list_lookup_insert_eq in Hq by (by eapply lookup_lt_Some). by injection Hq as <-.
    + rewrite list_lookup_insert_ne in Hq by done. by apply (inv_pc _ _ Hinv j).
Qed.

(** ** Operations on one inode *)
Definition core_sb (b : super) : bool * option Z * list Z * bool := (s_isloop b, s_itable b, s_inodes b, s_active b).

(** Inode [i] becomes [v]; super blocks change in their LRU lists only. *)
Record touch (s s' : icache) (i : Z) (v : vinode) : Prop := {
  t_objs : i_objs s' = <[i := v]> (i_objs s);
  t_chains : i_chains s' = i_chains s;
  t_core sb : core_sb <$> i_supers s' !! sb = core_sb <$> i_supers s !! sb;
}.

Lemma touch_trans s s1 s2 i v w : touch s s1 i v → touch s1 s2 i w → touch s s2 i w.
Proof.
  intros [H1 H2 H3] [H4 H5 H6]. split; [by rewrite H4, H1, insert_insert_eq|congruence|]. intros sb. by rewrite H6.
Qed.

Lemma touch_refl s i v : i_objs s !! i = Some v → touch s s i v.
Proof. intros H. split; [by rewrite insert_id|done..]. Qed.

Lemma touch_lookup s s' i v : touch s s' i v → i_objs s' !! i = Some v.
Proof. intros [-> _ _]. apply lookup_insert_eq. Qed.

Lemma core_super s s' sb b :
  core_sb <$> i_supers s' !! sb = core_sb <$> i_supers s !! sb → i_supers s' !! sb = Some b →
  ∃ b', i_supers s !! sb = Some b' ∧ core_sb b' = core_sb b.
Proof. intros E Hb. rewrite Hb in E. symmetry in E. apply fmap_Some in E as (b' & ? & ?). by exists b'. Qed.

Lemma touch_places s s' i v : touch s s' i v → same_places s s'.
Proof.
  intros [_ _ H] sb. specialize (H sb). unfold table_of. destruct (i_supers s' !! sb) as [b'|], (i_supers s !! sb) as [b|]; try done.
  cbn in *. injection H as E1 E2 _ _. by rewrite E1, E2.
Qed.

Lemma touch_supers s s' i v v' :
  supers_ok s → i_objs s !! i = Some v → touch s s' i v' → v_sb v' = v_sb v → v_listed v' = v_listed v → supers_ok s'.
Proof.
  intros [H1 H2 H3] Hi [Ho _ Hc] Hsb Hl. split.
  - intros sb b Hb Hloop. destruct (core_super s s' sb b (Hc sb) Hb) as (b' & Hb' & [= E1 E2 _ _]).
    rewrite <- E2. apply (H1 sb); [done|congruence].
  - intros j w Hw. rewrite Ho in Hw. specialize (Hc (v_sb w)).
    assert (is_Some (i_supers s !! v_sb w)) as [b Hb].
    { destruct (decide (j = i)) as [->|Hne].
      - rewrite lookup_insert_eq in Hw. injection Hw as <-. rewrite Hsb. by apply (H2 i).
      - rewrite lookup_insert_ne in Hw by done. by apply (H2 j). }
    rewrite Hb in Hc. by apply fmap_Some in Hc as (b' & -> & _).
  - intros sb b j Hb Hj. destruct (core_super s s' sb b (Hc sb) Hb) as (b' & Hb' & [= _ _ E3 _]).
    rewrite <- E3 in Hj. destruct (H3 sb b' j Hb' Hj) as (w & Hw & Hwl). rewrite Ho.
    destruct (decide (j = i)) as [->|Hne]; [|rewrite lookup_insert_ne by done; by exists w].
    rewrite lookup_insert_eq. exists v'. split; [done|]. rewrite Hi in Hw. injection Hw as <-. split; [|destruct Hwl]; [destruct Hwl|]; congruence.
Qed.

Lemma wp_obj i v Q s : i_objs s !! i = Some v → Q v s → wp (obj i) Q s.
Proof. intros E HQ. eapply wp_deref; [exact E|exact HQ]. Qed.

Lemma wp_set_obj i v f (Q : () → icache → Prop) s :
  i_objs s !! i = Some v → (∀ s', touch s s' i (f v) → Q () s') → wp (set_obj i f) Q s.
Proof.
  intros Hi HQ. apply wp_modify, HQ. split; [|done..]. cbn. apply map_eq. intros j.
  destruct (decide (j = i)) as [->|Hne]; [by rewrite lookup_alter_eq, lookup_insert_eq, Hi|by rewrite lookup_alter_ne, lookup_insert_ne].
Qed.

Lemma core_alter f s sb sb' : (∀ b, core_sb (f b) = core_sb b) → core_sb <$> alter f sb (i_supers s) !! sb' = core_sb <$> i_supers s !! sb'.
Proof.
  intros Hf. destruct (decide (sb' = sb)) as [->|Hne]; [|by rewrite lookup_alter_ne].
  rewrite lookup_alter_eq. destruct (i_supers s !! sb); cbn; [by rewrite Hf|done].
Qed.

Lemma wp_lru_add i v (Q : () → icache → Prop) s :
  i_objs s !! i = Some v → (∀ s', touch s s' i (v <| v_lru := true |>) → Q () s') → wp (inode_lru_list_add i) Q s.
Proof.
  intros Hi HQ. unfold inode_lru_list_add. apply wp_bind. eapply wp_obj; [done|]. destruct (v_lru v) eqn:El.
  { apply wp_ret, HQ. replace (v <| v_lru := true |>) with v by (destruct v; cbn in El; by subst). by apply touch_refl. }
  apply wp_bind, wp_modify, wp_bind, wp_modify. eapply wp_set_obj; [done|]. intros s' [H1 H2 H3]. apply HQ. split; [done..|].
  intros sb. rewrite H3. by apply core_alter.
Qed.

Lemma wp_lru_del i v (Q : () → icache → Prop) s :
  i_objs s !! i = Some v → (∀ s', touch s s' i (v <| v_lru := false |>) → Q () s') → wp (inode_lru_list_del i) Q s.
Proof.
  intros Hi HQ. unfold inode_lru_list_del. apply wp_bind. eapply wp_obj; [done|]. destruct (v_lru v) eqn:El.
  2:{ apply wp_ret, HQ. replace (v <| v_lru := false |>) with v by (destruct v; cbn in El; by subst). by apply touch_refl. }
  apply wp_bind, wp_modify, wp_bind, wp_modify. eapply wp_set_obj; [done|]. intros s' [H1 H2 H3]. apply HQ. split; [done..|].
  intros sb. rewrite H3. by apply core_alter.
Qed.

Lemma freeing_lor v x : has x (Z.lor I_FREEING I_WILL_FREE) = false → freeing (v <| v_state := Z.lor (v_state v) x |>) = freeing v.
Proof. intros Hx. unfold freeing. cbn. by rewrite has_lor_l, Hx, orb_false_r. Qed.

(** [iput]: the count goes down; for the last reference the inode is kept or marked. *)
Lemma wp_iput i v (Q : last_put → icache → Prop) s :
  i_objs s !! i = Some v → has (v_state v) I_CLEAR = false → is_Some (i_supers s !! v_sb v) →
  (∀ r s' v', touch s s' i v' → shape v' = shape v → v_listed v' = v_listed v → v_count v' = v_count v - 1 →
    has (v_state v') I_CLEAR = false →
    match r with
    | Kept => freeing v' = freeing v
    | ToWrite => freeing v' = true ∧ v_count v' = 0
    | ToEvict => has (v_state v') I_FREEING = true ∧ v_lru v' = false ∧ v_count v' = 0
    end → Q r s') → wp (iput drop_inode i) Q s.
Proof.
  intros Hi Hcl [b Hb] HQ. unfold iput. apply wp_bind. eapply wp_obj; [done|].
  rewrite Hcl. apply wp_bind, wp_ret. apply wp_bind. eapply wp_set_obj; [done|]. intros s1 H1.
  pose proof (touch_lookup _ _ _ _ H1) as Hi1. set (v1 := v <| v_count ::= Z.pred |>) in *.
  destruct (Z.eqb_spec (v_count v - 1) 0) as [Hz|Hz]; cbn [negb].
  2:{ by apply wp_ret, (HQ _ _ v1). }
  assert (v_count v1 = 0) as Hz1 by (cbn; lia).
  assert (∃ b1, i_supers s1 !! v_sb v = Some b1) as [b1 Hb1].
  { pose proof (t_core _ _ _ _ H1 (v_sb v)) as Hc. rewrite Hb in Hc. apply fmap_Some in Hc as (b1 & ? & _). by exists b1. }
  apply wp_bind. eapply wp_deref; [exact Hb1|]. cbn zeta.
  set (drop := match drop_inode with Some f => f v1 | None => generic_drop_inode v end). clearbody drop.
  destruct drop; cbn [negb andb].
  - apply wp_bind. eapply wp_set_obj; [done|]. intros s2 H2. apply wp_bind. eapply wp_lru_del; [by eapply touch_lookup|].
    intros s3 H3. apply wp_ret. eapply HQ; [by eapply touch_trans; [eapply touch_trans|]|done..| |]; cbn.
    + by rewrite has_lor_l, Hcl.
    + split_and!; [by rewrite has_lor_l, orb_true_r|done|lia].
  - destruct (s_active b1).
    + apply wp_bind. eapply wp_set_obj; [done|]. intros s2 H2. apply wp_bind. unfold inode_add_lru.
      apply wp_bind. eapply wp_obj; [by eapply touch_lookup|]. apply wp_bind.
      assert (∃ b2, i_supers s2 !! v_sb v = Some b2) as [b2 Hb2].
      { pose proof (t_core _ _ _ _ H2 (v_sb v)) as Hc. rewrite Hb1 in Hc. apply fmap_Some in Hc as (b2 & ? & _). by exists b2. }
      eapply wp_deref; [exact Hb2|]. set (v2 := v1 <| v_state ::= _ |>) in *.
      assert (freeing v2 = freeing v ∧ has (v_state v2) I_CLEAR = false) as [Hf2 Hc2].
      { split; [by apply (freeing_lor v1)|]. cbn. by rewrite has_lor_l, Hcl. }
      destruct (negb _ && _ && _).
      * eapply wp_lru_add; [by eapply touch_lookup|]. intros s3 H3. apply wp_ret.
        by eapply HQ; [by eapply touch_trans; [eapply touch_trans|]|done..].
      * apply wp_ret, wp_ret. by eapply HQ; [by eapply touch_trans|done..].
    + apply wp_bind. eapply wp_set_obj; [done|]. intros s2 H2. apply wp_ret.
      eapply HQ; [by eapply touch_trans|done..| |]; cbn.
      * by rewrite has_lor_l, Hcl.
      * split; [|lia]. unfold freeing. cbn. rewrite has_lor_l. by rewrite orb_true_r.
Qed.

Lemma inv_touched ts s s' k p p' i v v' :
  inv ts s → ts !! k = Some p → i_objs s !! i = Some v → touch s s' i v' → shape v' = shape v → v_listed v' = v_listed v →
  (∀ j, j ≠ i → holds p' j = holds p j ∧ evicts p' j = evicts p j) →
  v_count v' - holds p' i = v_count v - holds p i → b2Z (freeing v') - evicts p' i = b2Z (freeing v) - evicts p i →
  (freeing v' = true → v_count v' = 0) → (has (v_state v') I_CLEAR = true → freeing v' = true) →
  v_count v ≠ 1 ∨ is_Some (v_hash v) ∨ 0 < holds p i → freeing v = false ∨ 0 < evicts p i →
  pc_ok s' p' → inv (<[k := p']> ts) s'.
Proof.
  intros Hinv Hk Hi Ht Hsh Hl. apply (inv_touch ts s s' k p p' i v v'); [done|done|done|apply Ht|apply Ht|by eapply touch_places| |done].
  apply (touch_supers s s' i v v'); [apply Hinv|done|done| |done]. by injection Hsh.
Qed.

Lemma doomed_rest s s' i l :
  (∀ x, x ≠ i → i_objs s' !! x = i_objs s !! x) → Forall (doomed s) l → i ∉ l → Forall (doomed s') l.
Proof.
  intros Hx Hl Hi. rewrite Forall_forall in Hl |- *. intros x Hin. destruct (Hl x Hin) as (w & Hw & E). exists w.
  rewrite Hx; [done|]. by intros ->.
Qed.

Lemma named_touch s s' i v v' sb ino j :
  touch s s' i v' → i_objs s !! i = Some v → shape v' = shape v → named s sb ino j → named s' sb ino j.
Proof.
  intros Ht Hi Hsh. apply named_frame. rewrite (t_objs _ _ _ _ Ht).
  destruct (decide (j = i)) as [->|Hne]; [rewrite lookup_insert_eq, Hi; cbn; by rewrite Hsh|by rewrite lookup_insert_ne].
Qed.

(** ** Lookup *)
Lemma wp_find_in test l (Q : found → icache → Prop) s :
  (∀ i, i ∈ l → is_Some (i_objs s !! i)) →
  (∀ i v s', i ∈ l → i_objs s !! i = Some v → test v = true → freeing v = false → touch s s' i (v <| v_count ::= Z.succ |>) → Q (Found i) s') →
  (∀ i, Q (Busy i) s) → ((∀ i v, i ∈ l → i_objs s !! i = Some v → test v = false) → Q Missing s) → wp (find_in test l) Q s.
Proof.
  intros Hl Hf Hb. revert Hl Hf. induction l as [|i l IH]; intros Hl Hf Hm; cbn [find_in].
  { apply wp_ret, Hm. by intros i v ?%elem_of_nil. }
  destruct (Hl i) as [v Hv]; [by left|]. apply wp_bind. eapply wp_obj; [done|]. destruct (test v) eqn:Ht; cbn [negb].
  - destruct (freeing v) eqn:Hfr; [by apply wp_ret|]. apply wp_bind. eapply wp_set_obj; [done|]. intros s' H'.
    apply wp_ret. eapply Hf; [by left|done..].
  - apply IH; [intros j Hj; apply Hl; by right|intros j w s' Hj; apply Hf; by right|].
    intros Hall. apply Hm. intros j w [->|Hj]%elem_of_cons Hw; [congruence|by eapply Hall].
Qed.

Lemma wp_find_fast sb ino head (Q : found → icache → Prop) s :
  hash_ok s → place s sb ino = Some head →
  (∀ i v s', i_objs s !! i = Some v → v_sb v = sb → v_ino v = ino → is_Some (v_hash v) → freeing v = false → touch s s' i (v <| v_count ::= Z.succ |>) → Q (Found i) s') →
  (∀ i, Q (Busy i) s) →
  ((∀ i v, i_objs s !! i = Some v → is_Some (v_hash v) → v_sb v = sb → v_ino v = ino → False) → Q Missing s) →
  wp (find_inode_fast sb head ino) Q s.
Proof.
  intros Hh Hp Hf Hb Hm. unfold find_inode_fast. apply wp_bind, wp_get, wp_find_in.
  - intros i (v & Hv & _)%(h_chain s Hh). by exists v.
  - intros i v s' Hi Hv [Et1%Z.eqb_eq Et2%Z.eqb_eq]%andb_true_iff. apply (h_chain s Hh) in Hi as (w & Hw & Ew).
    rewrite Hv in Hw. injection Hw as <-. by apply Hf.
  - done.
  - intros Hall. apply Hm. intros i v Hv [tb Htb] <- <-. pose proof (h_place s Hh i v tb Hv Htb) as Hpl.
    rewrite Hp in Hpl. injection Hpl as ->. specialize (Hall i v). rewrite !Z.eqb_refl in Hall.
    discriminate Hall; [|done]. apply (h_chain s Hh). by exists v.
Qed.

(** Inodes of threads. *)
Lemma held_obj ts s k p i :
  inv ts s → ts !! k = Some p → 0 < holds p i →
  ∃ v, i_objs s !! i = Some v ∧ 0 < v_count v ∧ freeing v = false ∧ has (v_state v) I_CLEAR = false ∧ is_Some (i_supers s !! v_sb v).
Proof.
  intros Hinv Hk Hh. pose proof (inv_count _ _ Hinv i) as Hc.
  pose proof (sumZ_lookup_le (λ p, holds p i) (λ p, holds_nonneg p i) ts k p Hk) as Hle. fold (refs ts i) in Hle. cbn beta in Hle.
  destruct (i_objs s !! i) as [v|] eqn:Hv; [|destruct Hc; lia]. destruct Hc as (Hc & He & Hz & Hcl).
  assert (freeing v = false) as Hf by (destruct (freeing v); [specialize (Hz eq_refl); lia|done]).
  exists v. split_and!; [done|lia|done| |by apply (sb_obj _ (inv_supers _ _ Hinv) i)].
  destruct (has (v_state v) I_CLEAR); [|done]. by rewrite Hcl in Hf.
Qed.

Lemma evicted_obj ts s k p i :
  inv ts s → ts !! k = Some p → 0 < evicts p i →
  ∃ v, i_objs s !! i = Some v ∧ freeing v = true ∧ v_count v = 0 ∧ evictors ts i = 1 ∧ evicts p i = 1.
Proof.
  intros Hinv Hk Hh. pose proof (inv_count _ _ Hinv i) as Hc.
  pose proof (sumZ_lookup_le (λ p, evicts p i) (λ p, evicts_nonneg p i) ts k p Hk) as Hle. fold (evictors ts i) in Hle. cbn beta in Hle.
  destruct (i_objs s !! i) as [v|] eqn:Hv; [|destruct Hc; lia]. destruct Hc as (Hc & He & Hz & Hcl).
  exists v. destruct (freeing v); cbn in He; [|lia]. split_and!; [done|done|by apply Hz|lia|lia].
Qed.

(** ** Inodes that come and go *)
Lemma inv_alloc ts s k sb ino head i :
  inv ts s → ts !! k = Some (PAlloc sb ino head) → is_Some (i_supers s !! sb) → i_objs s !! i = None →
  inv (<[k := PSecond sb ino head i]> ts) (s <| i_objs ::= <[i := VInode 0 sb 0 1 1 None false false]> |>).
Proof.
  intros Hinv Hk Hsb Hi. set (s' := s <| i_objs ::= _ |>). set (v0 := VInode 0 sb 0 1 1 None false false).
  assert (∀ j, j ≠ i → i_objs s' !! j = i_objs s !! j) as Hj by (intros; by apply lookup_insert_ne).
  assert (i_objs s' !! i = Some v0) as Hi' by apply lookup_insert_eq.
  assert (same_places s s') as Hp by done.
  assert (∀ j v, is_Some (v_hash v) → i_objs s' !! j = Some v → i_objs s !! j = Some v) as Hback.
  { intros j v Hh Hv. destruct (decide (j = i)) as [->|Hne]; [|by rewrite Hj in Hv]. rewrite Hi' in Hv. injection Hv as <-. by destruct Hh. }
  destruct (inv_hash _ _ Hinv) as [H1 H2 H3]. destruct (inv_supers _ _ Hinv) as [S1 S2 S3]. split.
  - split.
    + intros tb j. change (chain s' tb) with (chain s tb). rewrite H1. split; intros (v & Hv & Hh); exists v.
      * rewrite Hj; [done|]. intros ->. congruence.
      * split; [|done]. apply Hback; [by rewrite Hh|done].
    + intros j v tb Hv Hh. rewrite (place_same s s') by done. apply (H2 j); [|done]. apply Hback; [by rewrite Hh|done].
    + intros j j' v w Hv Hw Hhv Hhw ? ?. apply (H3 j j' v w); [by apply Hback|by apply Hback|done..].
  - split; [done| |].
    + intros j v Hv. destruct (decide (j = i)) as [->|Hne]; [rewrite Hi' in Hv; by injection Hv as <-|rewrite Hj in Hv by done; by apply (S2 j)].
    + intros b b' j Hb Hin. destruct (S3 b b' j Hb Hin) as (v & Hv & Hl & Hl'). exists v. rewrite Hj; [done|]. intros ->. congruence.
  - intros j. pose proof (inv_count _ _ Hinv j) as Hc. unfold counted, refs, evictors in *.
    rewrite !(sumZ_insert _ _ _ _ _ Hk). cbn [holds evicts]. destruct (decide (j = i)) as [->|Hne].
    + rewrite Hi in Hc. rewrite Hi', one_self. destruct Hc as [-> ->]. by split_and!.
    + rewrite Hj, one_other by done. destruct (i_objs s !! j); [destruct Hc as (?&?&?&?)|destruct Hc as (?&?)]; split_and!; try done; lia.
  - intros j q Hq. destruct (decide (j = k)) as [->|Hne].
    + rewrite list_lookup_insert_eq in Hq by (by eapply lookup_lt_Some). injection Hq as <-.
      split; [apply (inv_pc _ _ Hinv k _ Hk)|]. by exists v0.
    + rewrite list_lookup_insert_ne in Hq by done. apply (pc_ok_frame s s'); [done| |intros x Hx; f_equal; apply Hj; intros ->; pose proof (inv_count _ _ Hinv i) as Hc; rewrite Hi in Hc; destruct Hc as [Hc _]; pose proof (sumZ_lookup_le (λ p, holds p i) (λ p, holds_nonneg p i) ts j q Hq) as Hle; fold (refs ts i) in Hle; cbn beta in Hle; lia|by apply (inv_pc _ _ Hinv j)].
      intros x Hx. apply Hj. intros ->. pose proof (inv_count _ _ Hinv i) as Hc. rewrite Hi in Hc. destruct Hc as [_ Hc].
      pose proof (inv_pc _ _ Hinv j q Hq) as Hok.
      destruct q; cbn [owns] in Hx; try (pose proof (sumZ_lookup_le (λ p, evicts p i) (λ p, evicts_nonneg p i) ts j _ Hq) as Hle; fold (evictors ts i) in Hle; cbn beta in Hle; lia).
      * subst. destruct Hok as [_ (v & Hv & _)]. congruence.
      * subst. destruct Hok as [(v & Hv & _) _]. congruence.
Qed.

Lemma inv_destroy ts s k p p' i v :
  inv ts s → ts !! k = Some p → i_objs s !! i = Some v → v_hash v = None → v_listed v = false →
  v_count v = holds p i → b2Z (freeing v) = evicts p i → holds p' i = 0 → evicts p' i = 0 →
  (∀ j, j ≠ i → holds p' j = holds p j ∧ evicts p' j = evicts p j) →
  v_count v ≠ 1 ∨ is_Some (v_hash v) ∨ 0 < holds p i → freeing v = false ∨ 0 < evicts p i →
  pc_ok (s <| i_objs ::= delete i |>) p' → inv (<[k := p']> ts) (s <| i_objs ::= delete i |>).
Proof.
  intros Hinv Hk Hi Hh Hl Hcnt Hev Hh' He' Hoth HA HB Hok. set (s' := s <| i_objs ::= delete i |>) in *.
  assert (∀ j, j ≠ i → i_objs s' !! j = i_objs s !! j) as Hj by (intros; by apply lookup_delete_ne).
  assert (i_objs s' !! i = None) as Hi' by apply lookup_delete_eq.
  assert (same_places s s') as Hp by done.
  assert (∀ j w, i_objs s' !! j = Some w → i_objs s !! j = Some w) as Hback.
  { intros j w Hw. rewrite Hj in Hw; [done|]. intros ->. congruence. }
  destruct (inv_hash _ _ Hinv) as [H1 H2 H3]. destruct (inv_supers _ _ Hinv) as [S1 S2 S3]. split.
  - split.
    + intros tb j. change (chain s' tb) with (chain s tb). rewrite H1. split; intros (w & Hw & E); exists w; [|by split; [apply Hback|]].
      rewrite Hj; [done|]. intros ->. congruence.
    + intros j w tb Hw E. rewrite (place_same s s') by done. apply (H2 j); [by apply Hback|done].
    + intros j j' w w' Hw Hw' ? ? ? ?. apply (H3 j j' w w'); [by apply Hback..|done|done|done|done].
  - split; [done| |].
    + intros j w Hw. by apply (S2 j), Hback.
    + intros b b' j Hb Hin. destruct (S3 b b' j Hb Hin) as (w & Hw & E & E'). exists w. rewrite Hj; [done|]. intros ->. congruence.
  - intros j. pose proof (inv_count _ _ Hinv j) as Hc. destruct (decide (j = i)) as [->|Hne].
    + rewrite Hi'. rewrite Hi in Hc. destruct Hc as (Hc & He & _). unfold counted, refs, evictors in *.
      rewrite !(sumZ_insert _ _ _ _ _ Hk). lia.
    + rewrite Hj by done. destruct (Hoth j Hne). by apply (counted_other ts k p).
  - apply (others_ok ts s s' k p p' i v); try done. intros j q Hne Hq Hh0.
    pose proof (only_holder ts s k j p q i v Hinv Hk Hq (not_eq_sym Hne) Hi). lia.
Qed.

Lemma chain_insert s tb l tb' : chain (s <| i_chains ::= <[tb := l]> |>) tb' = if decide (tb' = tb) then l else chain s tb'.
Proof.
  unfold chain. cbn. destruct (decide (tb' = tb)) as [->|Hne]; [by rewrite lookup_insert_eq|by rewrite lookup_insert_ne].
Qed.

(** The second critical section of [iget_locked] hashes the new inode: its effect, the table after it, the
    super blocks after it. *)
Record new_hashed (s s' : icache) (sb ino : Z) (head : Z * Z) (i : Z) (v v' : vinode) : Prop := {
  n_new : v' = VInode ino sb I_NEW 1 (v_nlink v) (Some head) true false;
  n_objs : i_objs s' = <[i := v']> (i_objs s);
  n_chains : i_chains s' = <[head := i :: chain s head]> (i_chains s);
  n_supers : i_supers s' = alter (λ b, b <| s_inodes ::= cons i |>) sb (i_supers s);
}.

Lemma alter3_insert {A} (f g h : A → A) (m : gmap Z A) i w :
  m !! i = Some w → alter h i (alter g i (alter f i m)) = <[i := h (g (f w))]> m.
Proof.
  intros Hw. apply map_eq. intros j. destruct (decide (j = i)) as [->|Hne].
  - by rewrite !lookup_alter_eq, Hw, lookup_insert_eq.
  - by rewrite !lookup_alter_ne, lookup_insert_ne.
Qed.

Lemma wp_new_hashed s sb ino head i v (Q : inserted → icache → Prop) :
  i_objs s !! i = Some v → v_sb v = sb → v_count v = 1 → v_lru v = false →
  (∀ s' v', new_hashed s s' sb ino head i v v' → Q Inserted s') →
  wp (_ ← set_obj i (λ v, v <| v_ino := ino |> <| v_state := I_NEW |>); _ ← hlist_add_head i head; _ ← inode_sb_list_add i; mret Inserted) Q s.
Proof.
  intros Hv Hsb Hone Hlru HQ. eexists Inserted, _. split.
  - unfold set_obj, hlist_add_head, inode_sb_list_add, obj, set_sb, st_deref, st_modify, mbind, ST_bind.
    cbn -[alter insert]. rewrite !lookup_alter_eq, Hv. cbn -[alter insert]. reflexivity.
  - eapply HQ. split; [reflexivity| |done|cbn; by rewrite Hsb].
    cbn -[alter insert]. rewrite (alter3_insert _ _ _ _ _ v) by done. f_equal. destruct v; cbn in *. by subst.
Qed.

Section new_hashed.
Context (s s' : icache) (sb ino : Z) (head : Z * Z) (i : Z) (v v' : vinode).
Context (new : new_hashed s s' sb ino head i v v') (old : i_objs s !! i = Some v) (unhashed : v_hash v = None).

Lemma new_same x : x ≠ i → i_objs s' !! x = i_objs s !! x.
Proof. intros Hx. rewrite (n_objs _ _ _ _ _ _ _ _ new). by apply lookup_insert_ne. Qed.

Lemma new_lookup : i_objs s' !! i = Some v'.
Proof. rewrite (n_objs _ _ _ _ _ _ _ _ new). apply lookup_insert_eq. Qed.

Lemma new_places : same_places s s'.
Proof.
  intros x. unfold table_of. rewrite (n_supers _ _ _ _ _ _ _ _ new). destruct (decide (x = sb)) as [->|Hne]; [|by rewrite lookup_alter_ne].
  rewrite lookup_alter_eq. by destruct (i_supers s !! sb).
Qed.

Lemma new_chain tb : chain s' tb = if decide (tb = head) then i :: chain s head else chain s tb.
Proof. rewrite <- (chain_insert s head). unfold chain. by rewrite (n_chains _ _ _ _ _ _ _ _ new). Qed.

Lemma new_hash_ok :
  hash_ok s → place s sb ino = Some head →
  (∀ j w, i_objs s !! j = Some w → is_Some (v_hash w) → v_sb w = sb → v_ino w = ino → False) → hash_ok s'.
Proof.
  intros [H1 H2 H3] Hpl Hno. pose proof new_same as Hj. pose proof new_lookup as Hi'. rewrite (n_new _ _ _ _ _ _ _ _ new) in Hi'. split.
  - intros tb j. rewrite new_chain. destruct (decide (j = i)) as [->|Hne].
    + rewrite Hi'. split.
      * intros Hin. eexists. split; [done|]. destruct (decide (tb = head)) as [->|]; [done|].
        apply H1 in Hin as (w & Hw & E). congruence.
      * intros (w & [= <-] & [= <-]). rewrite decide_True by done. by left.
    + rewrite Hj by done. rewrite <- H1. destruct (decide (tb = head)) as [->|]; [|done]. rewrite elem_of_cons. naive_solver.
  - intros j w tb Hw E. rewrite (place_same s s') by apply new_places. destruct (decide (j = i)) as [->|Hne].
    + rewrite Hi' in Hw. injection Hw as <-. cbn in *. congruence.
    + rewrite Hj in Hw by done. by apply (H2 j).
  - intros j j' w w' Hw Hw' Hhw Hhw' Es Ei.
    destruct (decide (j = i)) as [->|Hne], (decide (j' = i)) as [->|Hne']; [done| | |].
    + rewrite Hi' in Hw. injection Hw as <-. rewrite Hj in Hw' by done. exfalso. by apply (Hno j' w').
    + rewrite Hi' in Hw'. injection Hw' as <-. rewrite Hj in Hw by done. exfalso. by apply (Hno j w).
    + rewrite Hj in Hw, Hw' by done. by apply (H3 j j' w w').
Qed.

(** A super block of the state after, and its list. *)
Lemma new_super x b' :
  i_supers s' !! x = Some b' → ∃ b, i_supers s !! x = Some b ∧ s_isloop b' = s_isloop b ∧ s_itable b' = s_itable b ∧
    ∀ j, j ∈ s_inodes b' → (j = i ∧ x = sb) ∨ j ∈ s_inodes b.
Proof.
  rewrite (n_supers _ _ _ _ _ _ _ _ new). destruct (decide (x = sb)) as [->|Hne].
  - rewrite lookup_alter_eq. destruct (i_supers s !! sb) as [b|]; [|done]. intros [= <-]. exists b. split_and!; try done.
    cbn. intros j [->|?]%elem_of_cons; auto.
  - rewrite lookup_alter_ne by done. intros Hb. exists b'. split_and!; try done. auto.
Qed.

Lemma new_supers_ok : supers_ok s → v_sb v = sb → v_listed v = false → supers_ok s'.
Proof.
  intros [S1 S2 S3] Hsb Hlist. pose proof new_lookup as Hi'. rewrite (n_new _ _ _ _ _ _ _ _ new) in Hi'.
  assert (∀ x, is_Some (i_supers s !! x) → is_Some (i_supers s' !! x)) as Hsome.
  { intros x Hx. rewrite (n_supers _ _ _ _ _ _ _ _ new). by rewrite lookup_alter_is_Some. }
  split.
  - intros x b' Hx Hloop. destruct (new_super x b' Hx) as (b & Hb & E1 & E2 & _). rewrite E2. apply (S1 x); congruence.
  - intros j w Hw. apply Hsome. destruct (decide (j = i)) as [->|Hne].
    + rewrite Hi' in Hw. injection Hw as <-. cbn. rewrite <- Hsb. by apply (S2 i).
    + rewrite new_same in Hw by done. by apply (S2 j).
  - intros x b' j Hx Hin. destruct (new_super x b' Hx) as (b & Hb & _ & _ & Hl). destruct (Hl j Hin) as [[-> ->]|Hin'].
    + by eexists.
    + destruct (S3 x b j Hb Hin') as (w & Hw & E). destruct (decide (j = i)) as [->|Hne]; [|exists w; by rewrite new_same].
      rewrite old in Hw. injection Hw as <-. destruct E. congruence.
Qed.
End new_hashed.

Lemma wp_insert_new ts s k sb ino head i :
  inv ts s → ts !! k = Some (PSecond sb ino head i) →
  (∀ j v, i_objs s !! j = Some v → is_Some (v_hash v) → v_sb v = sb → v_ino v = ino → False) →
  wp (_ ← set_obj i (λ v, v <| v_ino := ino |> <| v_state := I_NEW |>); _ ← hlist_add_head i head; _ ← inode_sb_list_add i; mret Inserted)
    (λ r s', r = Inserted ∧ inv (<[k := PHave sb ino i]> ts) s') s.
Proof.
  intros Hinv Hk Hno. destruct (inv_pc _ _ Hinv k _ Hk) as (Hpl & v & Hv & Hnh & Hsb & Hone & Hfr & Hlru & Hlist).
  apply (wp_new_hashed s sb ino head i v); try done. intros s' v' Hnew. split; [done|].
  pose proof (new_lookup _ _ _ _ _ _ _ _ Hnew) as Hi'. pose proof (new_same _ _ _ _ _ _ _ _ Hnew) as Hj.
  rewrite (n_new _ _ _ _ _ _ _ _ Hnew) in Hi'. split.
  - apply (new_hash_ok s s' sb ino head i v v'); try done. apply Hinv.
  - apply (new_supers_ok s s' sb ino head i v v'); try done. apply Hinv.
  - intros j. pose proof (inv_count _ _ Hinv j) as Hcj. destruct (decide (j = i)) as [->|Hne].
    + rewrite Hi'. rewrite Hv in Hcj. apply (counted_move ts k (PSecond sb ino head i) (PHave sb ino i) i v); try done; cbn [v_count holds evicts].
      * lia.
      * rewrite Hfr. done.
    + rewrite Hj by done. by apply (counted_other ts k (PSecond sb ino head i)).
  - apply (others_ok ts s s' k (PSecond sb ino head i) (PHave sb ino i) i v); try done.
    + by apply (new_places s s' sb ino head i v v').
    + intros j q Hne Hq Hh. pose proof (only_holder ts s k j (PSecond sb ino head i) q i v Hinv Hk Hq (not_eq_sym Hne) Hv) as Honly.
      cbn in Honly. rewrite one_self in Honly. lia.
    + right. right. cbn. by rewrite one_self.
    + by left.
    + by eexists.
Qed.

(** [remove_inode_hash] in [evict]. *)
Lemma wp_unhash ts s k i l :
  inv ts s → ts !! k = Some (PUnhash i l) → wp (remove_inode_hash i) (λ _ s', inv (<[k := PDestroy i l]> ts) s') s.
Proof.
  intros Hinv Hk. destruct (inv_pc _ _ Hinv k _ Hk) as [(v & Hv & Hst & Hlru & Hlist) Hl].
  destruct (evicted_obj ts s k (PUnhash i l) i Hinv Hk) as (v0 & Hv0 & Hfr & Hcnt & Hev & Hone).
  { cbn. rewrite one_self. pose proof (sum_one_nonneg l i). lia. }
  rewrite Hv in Hv0. injection Hv0 as <-. unfold remove_inode_hash. apply wp_bind. eapply wp_obj; [done|].
  unfold inode_unhashed. destruct (v_hash v) as [tb|] eqn:Hh.
  2:{ apply wp_ret. apply (inv_pc_only ts s k (PUnhash i l)); [done|done|done|]. split_and!; [by exists v|by rewrite Hv; cbn; rewrite Hh|done]. }
  unfold __remove_inode_hash, hlist_del_init. apply wp_bind. eapply wp_obj; [done|]. rewrite Hh.
  apply wp_bind, wp_modify. set (s1 := s <| i_chains ::= _ |>). eapply (wp_set_obj i v); [done|]. intros s' [Ho Hc Hs].
  set (v' := v <| v_hash := None |>) in *.
  assert (∀ j, j ≠ i → i_objs s' !! j = i_objs s !! j) as Hj by (intros; rewrite Ho; by apply lookup_insert_ne).
  assert (i_objs s' !! i = Some v') as Hi' by (rewrite Ho; apply lookup_insert_eq).
  assert (same_places s s') as Hp by (by apply (touch_places s1 s' i v')).
  assert (∀ t, chain s' t = if decide (t = tb) then filter (.≠ i) (chain s tb) else chain s t) as Hchain.
  { intros t. rewrite <- chain_insert. unfold chain at 1. by rewrite Hc. }
  destruct (inv_hash _ _ Hinv) as [H1 H2 H3]. split.
  - split.
    + intros t j. rewrite Hchain. destruct (decide (j = i)) as [->|Hne].
      * rewrite Hi'. split; [|by intros (w & [= <-] & ?)]. destruct (decide (t = tb)) as [->|Ht].
        -- by intros [? _]%list_elem_of_filter.
        -- intros (w & Hw & E)%H1. congruence.
      * rewrite Hj by done. rewrite <- H1. destruct (decide (t = tb)) as [->|]; [|done]. rewrite list_elem_of_filter. naive_solver.
    + intros j w t Hw E. rewrite (place_same s s') by done. destruct (decide (j = i)) as [->|Hne].
      * rewrite Hi' in Hw. injection Hw as <-. done.
      * rewrite Hj in Hw by done. by apply (H2 j).
    + intros j j' w w' Hw Hw' Hhw Hhw'. destruct (decide (j = i)) as [->|Hne]; [rewrite Hi' in Hw; injection Hw as <-; by destruct Hhw|].
      destruct (decide (j' = i)) as [->|Hne']; [rewrite Hi' in Hw'; injection Hw' as <-; by destruct Hhw'|].
      rewrite Hj in Hw, Hw' by done. by apply H3.
  - assert (supers_ok s1) by (destruct (inv_supers _ _ Hinv); by split). by apply (touch_supers s1 s' i v v').
  - intros j. pose proof (inv_count _ _ Hinv j) as Hcj. destruct (decide (j = i)) as [->|Hne].
    + rewrite Hi'. rewrite Hv in Hcj. apply (counted_other ts k (PUnhash i l)); [done..|]. exact Hcj.
    + rewrite Hj by done. by apply (counted_other ts k (PUnhash i l)).
  - apply (others_ok ts s s' k (PUnhash i l) (PDestroy i l) i v); try done.
    + intros j q Hne Hq Hq0. pose proof (only_holder ts s k j (PUnhash i l) q i v Hinv Hk Hq (not_eq_sym Hne) Hv) as Honly. cbn in Honly. lia.
    + left. lia.
    + right. lia.
    + split_and!; [by exists v'|by rewrite Hi'|]. apply (doomed_rest s s' i); [done|done|].
      intros Hin%sum_one_in. cbn in Hone. rewrite one_self in Hone. lia.
Qed.

(** [inode_sb_list_del]: inode [i] leaves the list of its super block. *)
Record unlisted (s s' : icache) (i : Z) : Prop := {
  u_chains : i_chains s' = i_chains s;
  u_some sb : is_Some (i_supers s !! sb) → is_Some (i_supers s' !! sb);
  u_super sb b : i_supers s' !! sb = Some b → ∃ b', i_supers s !! sb = Some b' ∧ s_isloop b = s_isloop b' ∧ s_itable b = s_itable b' ∧
    ∀ j, j ∈ s_inodes b → j ∈ s_inodes b' ∧ j ≠ i;
}.

Lemma unlisted_places s s' i : unlisted s s' i → same_places s s'.
Proof.
  intros [_ Hsome Hb] sb. unfold table_of. destruct (i_supers s' !! sb) as [b|] eqn:Eb.
  - destruct (Hb sb b Eb) as (b' & -> & E1 & E2 & _). cbn. by rewrite E1, E2.
  - destruct (i_supers s !! sb) eqn:Es; [|done]. destruct (Hsome sb) as [? ?]; [by rewrite Es|congruence].
Qed.

Lemma unlisted_touch s s1 s2 i v : unlisted s s1 i → touch s1 s2 i v → unlisted s s2 i.
Proof.
  intros [H1 H2 H3] [_ H4 H5]. split.
  - congruence.
  - intros sb [b Hb]%H2. specialize (H5 sb). rewrite Hb in H5. by apply fmap_Some in H5 as (? & -> & _).
  - intros sb b Hb. destruct (core_super s1 s2 sb b (H5 sb) Hb) as (b1 & Hb1 & [= E1 E2 E3 _]).
    destruct (H3 sb b1 Hb1) as (b' & Hb' & E4 & E5 & Hin). exists b'. split_and!; [done|congruence|congruence|]. by rewrite <- E3.
Qed.

Lemma unlisted_supers_ok s s' i v v' :
  supers_ok s → i_objs s !! i = Some v → v_sb v' = v_sb v → i_objs s' = <[i := v']> (i_objs s) → unlisted s s' i → supers_ok s'.
Proof.
  intros [S1 S2 S3] Hv Hsb Ho [_ Hsome Hb]. split.
  - intros sb b Hsb' Hloop. destruct (Hb sb b Hsb') as (b' & Hb' & E3 & E4 & _). rewrite E4. apply (S1 sb); [done|congruence].
  - intros j w Hw. apply Hsome. rewrite Ho in Hw. destruct (decide (j = i)) as [->|Hne].
    + rewrite lookup_insert_eq in Hw. injection Hw as <-. rewrite Hsb. by apply (S2 i v).
    + rewrite lookup_insert_ne in Hw by done. by apply (S2 j).
  - intros sb b j Hsb' Hj. destruct (Hb sb b Hsb') as (b' & Hb' & _ & _ & Hin). destruct (Hin j Hj) as [Hj' Hne].
    destruct (S3 sb b' j Hb' Hj') as (w & Hw & E). exists w. rewrite Ho, lookup_insert_ne by done. done.
Qed.

Lemma wp_sb_list_del s i v (Q : () → icache → Prop) :
  supers_ok s → i_objs s !! i = Some v →
  (∀ s', unlisted s s' i → i_objs s' = <[i := v <| v_listed := false |>]> (i_objs s) → Q () s') → wp (inode_sb_list_del i) Q s.
Proof.
  intros [S1 S2 S3] Hv HQ. unfold inode_sb_list_del. apply wp_bind. eapply wp_obj; [done|]. destruct (v_listed v) eqn:Elist.
  2:{ apply wp_ret. apply HQ; [|rewrite insert_id; [done|]; rewrite Hv; f_equal; destruct v; cbn in Elist; by subst].
      split; try done. intros sb b Hb. exists b. split_and!; try done. intros j Hj. split; [done|].
      intros ->. destruct (S3 sb b i Hb Hj) as (w & Hw & ? & _). congruence. }
  apply wp_bind, wp_modify. eapply (wp_set_obj i v); [done|]. set (s0 := s <| i_supers ::= _ |>). intros s1 Ht.
  apply HQ; [|apply Ht]. apply (unlisted_touch s s0 s1 i (v <| v_listed := false |>)); [|done]. split; [done| |].
  - intros sb Hb. unfold s0. cbn. by rewrite lookup_alter_is_Some.
  - intros sb b Hb. cbn in Hb. destruct (decide (sb = v_sb v)) as [->|Hne].
    + rewrite lookup_alter_eq in Hb. destruct (i_supers s !! v_sb v) as [b'|]; [|done]. injection Hb as <-. exists b'. cbn in *.
      split_and!; try done. by intros j [? ?]%list_elem_of_filter.
    + rewrite lookup_alter_ne in Hb by done. exists b. split_and!; try done. intros j Hj.
      split; [done|]. intros ->. destruct (S3 sb b i Hb Hj) as (w & Hw & _ & ?). congruence.
Qed.

(** [evict] before that. *)
Lemma wp_evict_begin ts s k i l :
  inv ts s → ts !! k = Some (PEvict (i :: l)) → wp (evict_begin i) (λ _ s', inv (<[k := PUnhash i l]> ts) s') s.
Proof.
  intros Hinv Hk. pose proof (inv_pc _ _ Hinv k _ Hk) as Hd. cbn in Hd. apply Forall_cons in Hd as [(v & Hv & Hst & Hncl & Hlru) Hl].
  destruct (evicted_obj ts s k (PEvict (i :: l)) i Hinv Hk) as (v0 & Hv0 & Hfr & Hcnt & Hev & Hone).
  { apply sum_one_in. by left. }
  rewrite Hv in Hv0. injection Hv0 as <-. unfold evict_begin. apply wp_bind. eapply wp_obj; [done|]. rewrite Hst, Hlru.
  apply wp_bind, wp_ret, wp_bind, wp_ret, wp_bind. apply (wp_sb_list_del s i v); [apply Hinv|done|]. intros s1 Hu Ho.
  apply wp_bind. eapply wp_obj; [rewrite Ho; apply lookup_insert_eq|]. cbn [v_state set]. cbn. rewrite Hst, Hncl.
  apply wp_bind, wp_ret, wp_bind, wp_ret.
  eapply wp_set_obj; [rewrite Ho; apply lookup_insert_eq|]. intros s2 H2.
  pose proof (t_objs _ _ _ _ H2) as Ho2. rewrite Ho, insert_insert_eq in Ho2. pose proof (unlisted_touch _ _ _ _ _ Hu H2) as Hu2.
  set (v' := v <| v_listed := false |> <| v_state := Z.lor I_FREEING I_CLEAR |>) in *.
  apply (inv_touch ts s s2 k (PEvict (i :: l)) (PUnhash i l) i v v'); try done.
  - apply Hu2.
  - by apply (unlisted_places s s2 i).
  - apply (unlisted_supers_ok s s2 i v v'); try done. apply Hinv.
  - rewrite Hfr. done.
  - left. lia.
  - right. lia.
  - split; [exists v'; by rewrite Ho2, lookup_insert_eq|]. apply (doomed_rest s s2 i); [|done|].
    + intros x Hx. rewrite Ho2. by apply lookup_insert_ne.
    + intros Hin%sum_one_in. change (evicts (PEvict (i :: l)) i) with (one i i + sumZ (λ j, one j i) l) in Hone. rewrite one_self in Hone. lia.
Qed.

(** ** Eviction of the unused inodes of a super block *)
Lemma evicts_dispose d j : evicts (dispose d) j = sumZ (λ i, one i j) d.
Proof. by destruct d. Qed.

Lemma holds_dispose d j : holds (dispose d) j = 0.
Proof. by destruct d. Qed.

Lemma dispose_ok s d : pc_ok s (dispose d) → Forall (doomed s) d.
Proof. by destruct d. Qed.

Lemma wp_take ts s k i v d (Q : () → icache → Prop) :
  inv (<[k := dispose d]> ts) s → (k < length ts)%nat → i_objs s !! i = Some v → v_count v = 0 →
  has (v_state v) (Z.lor (Z.lor I_NEW I_FREEING) I_WILL_FREE) = false →
  (∀ s', inv (<[k := dispose (i :: d)]> ts) s' → (∀ j, is_Some (i_objs s !! j) → is_Some (i_objs s' !! j)) → Q () s') →
  wp (take_for_eviction i) Q s.
Proof.
  intros Hinv Hk Hi Hcnt Hst HQ. set (ts0 := <[k := dispose d]> ts) in *.
  assert (ts0 !! k = Some (dispose d)) as Hk0 by (by apply list_lookup_insert_eq).
  assert (freeing v = false) as Hfr.
  { unfold freeing. do 2 rewrite has_lor in Hst. rewrite has_lor. by destruct (has (v_state v) I_NEW), (has (v_state v) I_FREEING), (has (v_state v) I_WILL_FREE). }
  pose proof (inv_count _ _ Hinv i) as Hc. rewrite Hi in Hc. destruct Hc as (_ & Hev & _ & Hcl). rewrite Hfr in Hev, Hcl.
  unfold take_for_eviction. apply wp_bind. eapply wp_set_obj; [done|]. intros s1 H1.
  eapply wp_lru_del; [by eapply touch_lookup|]. intros s2 H2. pose proof (touch_trans _ _ _ _ _ _ H1 H2) as H12.
  set (v' := v <| v_state ::= λ x, Z.lor x I_FREEING |> <| v_lru := false |>) in *.
  assert (has (v_state v') I_FREEING = true) as Hf' by (cbn; by rewrite has_lor_l, orb_true_r).
  assert (freeing v' = true) as Hfr' by (unfold freeing; by rewrite has_lor, Hf').
  assert (evicts (dispose d) i = 0) as Hd0.
  { pose proof (sumZ_lookup_le (λ p, evicts p i) (λ p, evicts_nonneg p i) ts0 k _ Hk0) as Hle. cbn beta in Hle.
    change (b2Z false) with 0 in Hev. unfold evictors in Hev. pose proof (evicts_nonneg (dispose d) i). lia. }
  apply HQ.
  - replace (<[k := dispose (i :: d)]> ts) with (<[k := dispose (i :: d)]> ts0) by apply list_insert_insert_eq.
    apply (inv_touched ts0 s s2 k (dispose d) (dispose (i :: d)) i v v'); try done.
    + intros j Hj. rewrite !evicts_dispose, !holds_dispose. change (sumZ _ (i :: d)) with (one i j + sumZ (λ i, one i j) d).
      rewrite one_other by done. split; lia.
    + rewrite !holds_dispose. cbn. lia.
    + rewrite Hfr, Hfr'. rewrite Hd0. rewrite evicts_dispose in Hd0 |- *. change (sumZ _ (i :: d)) with (one i i + sumZ (λ j, one j i) d).
      rewrite one_self, Hd0. done.
    + left. lia.
    + by left.
    + constructor.
      * exists v'. rewrite (t_objs _ _ _ _ H12), lookup_insert_eq. split_and!; [done..| |done]. cbn. rewrite has_lor_l.
        destruct (has (v_state v) I_CLEAR); [by specialize (Hcl eq_refl)|done].
      * pose proof (dispose_ok _ _ (inv_pc _ _ Hinv k _ Hk0)) as Hl. rewrite Forall_forall in Hl |- *.
        intros x Hx. destruct (Hl x Hx) as (w & Hw & E). exists w. rewrite (t_objs _ _ _ _ H12), lookup_insert_ne; [done|].
        intros <-. apply sum_one_in in Hx. rewrite evicts_dispose in Hd0. lia.
  - intros j Hj. rewrite (t_objs _ _ _ _ H12). destruct (decide (j = i)) as [->|Hne]; [rewrite lookup_insert_eq; by eexists|by rewrite lookup_insert_ne].
Qed.

Lemma wp_invalidate_loop kill ts k l d busy s :
  inv (<[k := dispose d]> ts) s → (k < length ts)%nat → (∀ j, j ∈ l → is_Some (i_objs s !! j)) →
  wp (invalidate_loop kill l d busy) (λ r s', inv (<[k := dispose r.1]> ts) s') s.
Proof.
  intros Hinv Hk. revert d busy s Hinv. induction l as [|i l IH]; intros d busy s Hinv Hl; cbn [invalidate_loop]; [by apply wp_ret|].
  assert (∀ j, j ∈ l → is_Some (i_objs s !! j)) as Hl' by (intros j Hj; apply Hl; by right).
  destruct (Hl i) as [v Hv]; [by left|]. apply wp_bind. eapply wp_obj; [done|].
  destruct (has (v_state v) _) eqn:Hst; [by apply IH|]. destruct (has _ _ && _); [by apply IH|].
  destruct (Z.eqb_spec (v_count v) 0) as [Hz|]; cbn [negb]; [|by apply IH].
  apply wp_bind. eapply wp_take; [done..|]. intros s' Hinv' Hsome. apply IH; [done|]. auto.
Qed.

(** ** Every section *)

(** One section of thread [k] keeps the invariant. *)
Definition keeps (ts : list pc) (k : nat) (e : event) (p : pc) (s : icache) : Prop :=
  ∀ m, thread_step e p = Some m → wp m (λ p' s', inv (<[k := p']> ts) s') s.

Section cases.
Context (ts : list pc) (s : icache) (k : nat) (Hinv : inv ts s).

Lemma keeps_EIget sb' ino' : ts !! k = Some PIdle → allowed (EIget sb' ino') s → keeps ts k (EIget sb' ino') PIdle s.
Proof.
  intros Hk Hal m [= <-]. pose proof (inv_supers _ _ Hinv) as Hsup.
  destruct Hal as [b Hb]. unfold PvfsInode.head_of, groupfs_get_ihtable. apply wp_bind, wp_bind, wp_bind.
  eapply wp_deref; [exact Hb|].
  assert (∀ t, table_of s sb' = Some t → inv (<[k := PFind sb' ino' (t, hash sb' ino')]> ts) s) as Hnext.
  { intros t Ht. apply (inv_pc_only ts s k PIdle); [done..|]. cbn. unfold place. by rewrite Ht. }
  unfold table_of in Hnext. rewrite Hb in Hnext. cbn in Hnext. destruct (s_isloop b) eqn:Hl.
  + destruct (sb_table _ Hsup sb' b Hb Hl) as [t Ht]. rewrite Ht in *. eapply wp_lift; [done|]. apply wp_ret, wp_ret. by apply Hnext.
  + apply wp_ret, wp_ret, wp_ret. by apply Hnext.
Qed.

Lemma keeps_EInvalidate sb' kill : ts !! k = Some PIdle → allowed (EInvalidate sb' kill) s → keeps ts k (EInvalidate sb' kill) PIdle s.
Proof.
  intros Hk Hal m [= <-]. pose proof (inv_supers _ _ Hinv) as Hsup. pose proof (lookup_lt_Some _ _ _ Hk) as Hlt.
  destruct Hal as [b Hb]. unfold invalidate_inodes. apply wp_bind, wp_bind. eapply wp_deref; [exact Hb|].
  eapply wp_mono; [apply (wp_invalidate_loop kill ts k)|].
  + by rewrite list_insert_id.
  + done.
  + intros j Hj. destruct (sb_list _ Hsup sb' b j Hb Hj) as (v & Hv & _). by exists v.
  + intros [d busy] s' Hinv'. by apply wp_ret.
Qed.

Lemma keeps_PFind sb ino head : ts !! k = Some (PFind sb ino head) → keeps ts k ERun (PFind sb ino head) s.
Proof.
  intros Hk m [= <-]. pose proof (inv_pc _ _ Hinv k _ Hk) as Hok.
  apply wp_bind. eapply wp_find_fast; [apply Hinv|exact Hok|..].
  + intros i v s' Hv Hsbv Hinov Hh Hfr Ht. apply wp_ret.
    pose proof (inv_count _ _ Hinv i) as Hc. rewrite Hv in Hc. destruct Hc as (_ & _ & _ & Hcl).
    apply (inv_touched ts s s' k (PFind sb ino head) (PWait sb ino i) i v (v <| v_count ::= Z.succ |>)); try done.
    * intros j Hj. cbn. by rewrite one_other.
    * cbn. rewrite one_self. lia.
    * intros E. exfalso. unfold freeing in *. cbn in E. congruence.
    * right. by left.
    * by left.
    * apply (named_touch s s' i v (v <| v_count ::= Z.succ |>)); try done. by exists v.
  + intros i. apply wp_ret. by apply (inv_pc_only ts s k (PFind sb ino head)).
  + intros _. apply wp_ret. by apply (inv_pc_only ts s k (PFind sb ino head)).
Qed.

Lemma keeps_PAlloc sb ino head addr : ts !! k = Some (PAlloc sb ino head) → allowed (EAlloc addr) s → keeps ts k (EAlloc addr) (PAlloc sb ino head) s.
Proof.
  intros Hk Hal m [= <-]. pose proof (inv_pc _ _ Hinv k _ Hk) as Hok.
  destruct addr as [i|].
  + unfold alloc_inode. apply wp_bind, wp_bind, wp_modify, wp_ret, wp_ret. apply (inv_alloc ts s k sb ino head i); [done|done| |done].
    unfold pc_ok, place, table_of in Hok. destruct (i_supers s !! sb); [by eexists|done].
  + apply wp_bind, wp_ret, wp_ret. by apply (inv_pc_only ts s k (PAlloc sb ino head)).
Qed.

Lemma keeps_PSecond sb ino head i : ts !! k = Some (PSecond sb ino head i) → keeps ts k ERun (PSecond sb ino head i) s.
Proof.
  intros Hk m [= <-]. pose proof (inv_pc _ _ Hinv k _ Hk) as Hok.
  destruct Hok as [Hpl Hfresh]. apply wp_bind. unfold iget_second. apply wp_bind. eapply wp_find_fast; [apply Hinv|exact Hpl|..].
  + intros j v s' Hv Hsbv Hinov Hh Hfr Ht. apply wp_ret, wp_ret.
    pose proof (inv_count _ _ Hinv j) as Hc. rewrite Hv in Hc. destruct Hc as (_ & _ & _ & Hcl).
    assert (j ≠ i) as Hne. { intros ->. destruct Hfresh as (w & Hw & Hnh & _). rewrite Hv in Hw. injection Hw as <-. destruct Hh; congruence. }
    apply (inv_touched ts s s' k (PSecond sb ino head i) (PLost sb ino i j) j v (v <| v_count ::= Z.succ |>)); try done.
    * intros x Hx. cbn. rewrite (one_other j x) by done. split; lia.
    * cbn. rewrite one_self. lia.
    * intros E. exfalso. unfold freeing in *. cbn in E. congruence.
    * right. by left.
    * by left.
    * split.
      -- destruct Hfresh as (w & Hw & E). exists w. by rewrite (t_objs _ _ _ _ Ht), lookup_insert_ne.
      -- apply (named_touch s s' j v (v <| v_count ::= Z.succ |>)); try done. by exists v.
  + intros j. apply wp_ret, wp_ret. by apply (inv_pc_only ts s k (PSecond sb ino head i)).
  + intros Hno. eapply wp_mono; [by apply (wp_insert_new ts s k sb ino head i)|]. intros r s' [-> Hinv']. by apply wp_ret.
Qed.

Lemma keeps_PLost sb ino i old : ts !! k = Some (PLost sb ino i old) → keeps ts k ERun (PLost sb ino i old) s.
Proof.
  intros Hk m [= <-]. pose proof (inv_pc _ _ Hinv k _ Hk) as Hok.
  destruct Hok as [(v & Hv & Hnh & Hsb & Hone & Hfr & Hlru & Hlist) Hnamed].
  unfold destroy_inode. apply wp_bind, wp_bind. eapply wp_obj; [done|]. rewrite Hlru. apply wp_bind, wp_ret, wp_modify, wp_ret.
  pose proof (inv_count _ _ Hinv i) as Hc. rewrite Hv in Hc. destruct Hc as (Hc & _).
  pose proof (sumZ_lookup_le (λ p, holds p i) (λ p, holds_nonneg p i) ts k _ Hk) as Hle. cbn beta in Hle. fold (refs ts i) in Hle.
  assert (one old i = 0) as Hold by (cbn in Hle; rewrite one_self in Hle; pose proof (one_nonneg old i); lia).
  apply (inv_destroy ts s k (PLost sb ino i old) (PWait sb ino old) i v); try done; cbn [holds evicts]; rewrite ?one_self, ?Hold; try done.
  + by rewrite Hfr.
  + intros j Hj. rewrite (one_other i j) by done. split; lia.
  + right. right. lia.
  + by left.
  + revert Hnamed. apply named_frame. cbn. rewrite lookup_delete_ne; [done|]. intros ->. by rewrite one_self in Hold.
Qed.

Lemma keeps_PWait sb ino i : ts !! k = Some (PWait sb ino i) → keeps ts k ERun (PWait sb ino i) s.
Proof.
  intros Hk m [= <-]. pose proof (inv_pc _ _ Hinv k _ Hk) as Hok.
  destruct (held_obj ts s k (PWait sb ino i) i Hinv Hk) as (v & Hv & _); [cbn; by rewrite one_self|].
  apply wp_bind. eapply wp_obj; [done|]. apply wp_ret. by apply (inv_pc_only ts s k (PWait sb ino i)); [done|done|case_match|case_match].
Qed.

Lemma keeps_EUnlockNew sb ino i : ts !! k = Some (PHave sb ino i) → keeps ts k EUnlockNew (PHave sb ino i) s.
Proof.
  intros Hk m [= <-]. pose proof (inv_pc _ _ Hinv k _ Hk) as Hok.
  destruct (held_obj ts s k (PHave sb ino i) i Hinv Hk) as (v & Hv & Hpos & Hfr & Hcl & _); [cbn; by rewrite one_self|].
  apply wp_bind. eapply wp_set_obj; [done|]. intros s' Ht. apply wp_ret.
  set (v' := v <| v_state ::= _ |>) in *. assert (freeing v' = false) as Hfr' by (unfold freeing; cbn; by rewrite has_clear).
  assert (has (v_state v') I_CLEAR = false) as Hcl' by (cbn; by rewrite has_clear).
  apply (inv_touched ts s s' k (PHave sb ino i) (PHave sb ino i) i v v'); try done; rewrite ?Hfr, ?Hfr', ?Hcl'; try done; [|by left|].
  + right. right. cbn. by rewrite one_self.
  + by apply (named_touch s s' i v v').
Qed.

Lemma keeps_EDropLink sb ino i : ts !! k = Some (PHave sb ino i) → keeps ts k EDropLink (PHave sb ino i) s.
Proof.
  intros Hk m [= <-]. pose proof (inv_pc _ _ Hinv k _ Hk) as Hok.
  destruct (held_obj ts s k (PHave sb ino i) i Hinv Hk) as (v & Hv & Hpos & Hfr & Hcl & _); [cbn; by rewrite one_self|].
  apply wp_bind. eapply wp_set_obj; [done|]. intros s' Ht. apply wp_ret.
  apply (inv_touched ts s s' k (PHave sb ino i) (PHave sb ino i) i v (v <| v_nlink := 0 |>)); try done.
  + intros E. exfalso. unfold freeing in *. cbn in E. congruence.
  + intros E. exfalso. cbn in E. congruence.
  + right. right. cbn. by rewrite one_self.
  + by left.
  + by apply (named_touch s s' i v (v <| v_nlink := 0 |>)).
Qed.

Lemma keeps_EIput sb ino i : ts !! k = Some (PHave sb ino i) → keeps ts k EIput (PHave sb ino i) s.
Proof.
  intros Hk m [= <-].
  destruct (held_obj ts s k (PHave sb ino i) i Hinv Hk) as (v & Hv & Hpos & Hfr & Hcl & Hsb); [cbn; by rewrite one_self|].
  apply wp_bind. eapply wp_iput; [done..|]. intros r s' v' Ht Hsh Hli Hcnt Hcl' Hr. apply wp_ret.
  assert (0 < holds (PHave sb ino i) i) as Hhold by (cbn; by rewrite one_self).
  apply (inv_touched ts s s' k (PHave sb ino i) _ i v v'); try done; try (by left); try (by right; right); rewrite ?Hfr, ?Hcl'; try done.
  + intros j Hj. destruct r; cbn; rewrite !one_other by done; done.
  + destruct r; cbn; rewrite one_self; lia.
  + destruct r; cbn -[sumZ]; [by rewrite Hr, Hfr|by rewrite (proj1 Hr), one_self|].
    unfold freeing. rewrite has_lor, (proj1 Hr). cbn. by rewrite one_self.
  + destruct r; [congruence|intros _; lia|intros _; lia].
  + assert (i_objs s' !! i = Some v') as Hi' by (by rewrite (t_objs _ _ _ _ Ht), lookup_insert_eq).
    destruct r; [done|by exists v'|]. constructor; [|done]. exists v'. destruct Hr as (? & ? & _). done.
Qed.

Lemma keeps_PWrite i : ts !! k = Some (PWrite i) → keeps ts k ERun (PWrite i) s.
Proof.
  intros Hk m [= <-].
  destruct (evicted_obj ts s k (PWrite i) i Hinv Hk) as (v & Hv & Hfr & Hz & Hev & Hone); [cbn; by rewrite one_self|].
  destruct (inv_pc _ _ Hinv k _ Hk) as (v0 & Hv0 & Hncl). rewrite Hv in Hv0. injection Hv0 as <-.
  unfold iput_written. apply wp_bind, wp_bind. eapply wp_set_obj; [done|]. intros s1 H1. eapply wp_lru_del; [by eapply touch_lookup|].
  intros s2 H2. pose proof (touch_trans _ _ _ _ _ _ H1 H2) as Ht. apply wp_ret. set (v' := _ <| v_lru := false |>) in *.
  assert (has (v_state v') I_FREEING = true) as Hf' by (cbn; by rewrite has_lor_l, orb_true_r).
  assert (freeing v' = true) as Hfr' by (unfold freeing; by rewrite has_lor, Hf').
  apply (inv_touched ts s s2 k (PWrite i) (PEvict [i]) i v v'); try done; rewrite ?Hfr, ?Hfr'; try done.
  + intros j Hj. cbn. rewrite !one_other by done. done.
  + cbn. rewrite one_self. done.
  + left. lia.
  + right. lia.
  + constructor; [|done]. exists v'. rewrite (t_objs _ _ _ _ Ht), lookup_insert_eq. split_and!; [done..| |done].
    cbn. by rewrite has_lor_l, has_clear, Hncl by done.
Qed.

Lemma keeps_PEvict i l : ts !! k = Some (PEvict (i :: l)) → keeps ts k ERun (PEvict (i :: l)) s.
Proof.
  intros Hk m [= <-].
  apply wp_bind. eapply wp_mono; [by apply (wp_evict_begin ts s k i l)|]. intros [] s' H'. by apply wp_ret.
Qed.

Lemma keeps_PUnhash i l : ts !! k = Some (PUnhash i l) → keeps ts k ERun (PUnhash i l) s.
Proof.
  intros Hk m [= <-].
  apply wp_bind. eapply wp_mono; [by apply (wp_unhash ts s k i l)|]. intros [] s' H'. by apply wp_ret.
Qed.

Lemma keeps_PDestroy i l : ts !! k = Some (PDestroy i l) → keeps ts k ERun (PDestroy i l) s.
Proof.
  intros Hk m [= <-]. pose proof (inv_pc _ _ Hinv k _ Hk) as Hok.
  destruct Hok as ((v & Hv & Hst & Hlru & Hlist) & Hnh & Hl). rewrite Hv in Hnh. injection Hnh as Hnh.
  destruct (evicted_obj ts s k (PDestroy i l) i Hinv Hk) as (v0 & Hv0 & Hfr & Hz & Hev & Hone).
  { cbn. rewrite one_self. pose proof (sum_one_nonneg l i). lia. }
  rewrite Hv in Hv0. injection Hv0 as <-. unfold evict_end, destroy_inode. apply wp_bind, wp_bind. eapply wp_obj; [done|].
  rewrite Hst. apply wp_bind, wp_ret, wp_bind. eapply wp_obj; [done|]. rewrite Hlru. apply wp_bind, wp_ret, wp_modify, wp_ret.
  assert (sumZ (λ j, one j i) l = 0) as Hsum by (cbn in Hone; rewrite one_self in Hone; lia).
  apply (inv_destroy ts s k (PDestroy i l) (dispose l) i v); try done.
  + by rewrite Hfr, Hone.
  + apply holds_dispose.
  + by rewrite evicts_dispose.
  + intros j Hj. rewrite holds_dispose, evicts_dispose. cbn -[sumZ]. rewrite one_other by done. done.
  + left. lia.
  + right. lia.
  + assert (Forall (doomed (s <| i_objs ::= delete i |>)) l) as Hl'; [|by destruct l].
    rewrite Forall_forall in Hl |- *. intros x Hx. destruct (Hl x Hx) as (w & Hw & E). exists w. split; [|done]. cbn. rewrite lookup_delete_ne; [done|].
    intros <-. apply sum_one_in in Hx. lia.
Qed.

End cases.

Lemma step_preserves ts s k p e m :
  inv ts s → ts !! k = Some p → thread_step e p = Some m → allowed e s → wp m (λ p' s', inv (<[k := p']> ts) s') s.
Proof.
  intros Hinv Hk He Hal. revert m He. change (keeps ts k e p s).
  destruct p as [| | | | | | | |[|i l]| |], e; try (intros m He; discriminate He).
  - by apply keeps_EIget.
  - by apply keeps_EInvalidate.
  - by apply keeps_PFind.
  - by apply keeps_PAlloc.
  - by apply keeps_PSecond.
  - by apply keeps_PLost.
  - by apply keeps_PWait.
  - by apply keeps_EUnlockNew.
  - by apply keeps_EDropLink.
  - by apply keeps_EIput.
  - by apply keeps_PWrite.
  - by apply keeps_PEvict.
  - by apply keeps_PUnhash.
  - by apply keeps_PDestroy.
Qed.
(** ** Reachable states *)

(** No inodes; super blocks have their tables. *)
Record empty_cache (s : icache) : Prop := {
  e_objs : i_objs s = ∅;
  e_chains tb : chain s tb = [];
  e_super sb b : i_supers s !! sb = Some b → s_inodes b = [] ∧ (s_isloop b = true → is_Some (s_itable b));
}.

Lemma inv_start n s : empty_cache s → inv (replicate n PIdle) s.
Proof.
  intros [Ho Hc Hs].
  assert (∀ (f : pc → Z), f PIdle = 0 → sumZ f (replicate n PIdle) = 0) as Hsum.
  { intros f Hf. induction n as [|n IH]; [done|]. change (f PIdle + sumZ f (replicate n PIdle) = 0). lia. }
  split.
  - split.
    + intros tb i. rewrite Hc, Ho. split; [by intros ?%elem_of_nil|by intros (v & ? & _)].
    + intros i v tb. by rewrite Ho.
    + intros i j v w. by rewrite Ho.
  - split.
    + intros sb b Hb. by apply (Hs sb).
    + intros i v. by rewrite Ho.
    + intros sb b i Hb Hi. destruct (Hs sb b Hb) as [E _]. rewrite E in Hi. by apply elem_of_nil in Hi.
  - intros i. rewrite Ho. cbn. split; by apply Hsum.
  - intros k p [-> _]%lookup_replicate. done.
Qed.

Lemma inv_step x y : inv x.1 x.2 → step x y → inv y.1 y.2.
Proof.
  intros Hinv Hs. destruct Hs as [k p e m p' ts s s' Hk He Hal Hm]. cbn in *.
  destruct (step_preserves ts s k p e m Hinv Hk He Hal) as (p1 & s1 & Hm1 & Hinv'). rewrite Hm in Hm1. by injection Hm1 as <- <-.
Qed.

Lemma inv_reach x y : inv x.1 x.2 → rtc step x y → inv y.1 y.2.
Proof. intros Hinv Hr. induction Hr as [|x y z Hxy _ IH]; [done|]. by apply IH, (inv_step x). Qed.

(** C4: Threads that get, look at, unlink and put inodes and that invalidate super blocks, from an empty cache,
    their critical sections interleaved in any way and allocations failing at any time: no section meets a BUG
    or a freed inode; an inode a thread has got is live, referenced, hashed and the one it asked for; two
    threads that have got the same number of the same super block have the same inode; reference counts are
    exact, so that an inode with a count is held by a thread; an inode is freed by one thread at most. *)
Theorem inode_cache_safe n s ts' s' :
  empty_cache s → rtc step (replicate n PIdle, s) (ts', s') →
  (∀ k p e m, ts' !! k = Some p → thread_step e p = Some m → allowed e s' → ∃ p' s'', m s' = Ok (p', s'')) ∧
  (∀ k sb ino i, ts' !! k = Some (PHave sb ino i) →
    ∃ v, i_objs s' !! i = Some v ∧ v_sb v = sb ∧ v_ino v = ino ∧ is_Some (v_hash v) ∧ 0 < v_count v ∧ freeing v = false) ∧
  (∀ k l sb ino i j, ts' !! k = Some (PHave sb ino i) → ts' !! l = Some (PHave sb ino j) → i = j) ∧
  (∀ i v, i_objs s' !! i = Some v → v_count v = refs ts' i ∧ evictors ts' i ≤ 1).
Proof.
  intros He Hr. pose proof (inv_reach (replicate n PIdle, s) (ts', s') (inv_start n s He) Hr) as Hinv. cbn in Hinv.
  assert (∀ k sb ino i, ts' !! k = Some (PHave sb ino i) → named s' sb ino i) as Hnamed by (intros k sb ino i Hk; by apply (inv_pc _ _ Hinv k _ Hk)).
  split_and!.
  - intros k p e m Hk Hm Hal. destruct (step_preserves ts' s' k p e m Hinv Hk Hm Hal) as (p1 & s1 & ? & _). eauto.
  - intros k sb ino i Hk. destruct (Hnamed k sb ino i Hk) as (v & Hv & Hs & Hn & Hh). exists v.
    destruct (held_obj ts' s' k _ i Hinv Hk) as (w & Hw & ? & ? & _); [cbn; by rewrite one_self|].
    rewrite Hv in Hw. injection Hw as <-. done.
  - intros k l sb ino i j Hk Hl. destruct (Hnamed k sb ino i Hk) as (v & Hv & Hs & Hn & Hh).
    destruct (Hnamed l sb ino j Hl) as (w & Hw & Hs' & Hn' & Hh'). apply (h_unique _ (inv_hash _ _ Hinv) i j v w); congruence.
  - intros i v Hv. pose proof (inv_count _ _ Hinv i) as Hc. rewrite Hv in Hc. destruct Hc as (-> & <- & _). split; [done|]. by destruct (freeing v).
Qed.

(** A schedule: which thread runs, and what it chooses. *)
Fixpoint run_schedule (l : list (nat * event)) (x : list pc * icache) : option (list pc * icache) :=
  match l with
  | [] => Some x
  | (k, e) :: l =>
      p ← x.1 !! k; m ← thread_step e p;
      if decide (allowed e x.2) then match m x.2 with Ok (p', s') => run_schedule l (<[k := p']> x.1, s') | _ => None end else None
  end.

Lemma run_schedule_rtc l x y : run_schedule l x = Some y → rtc step x y.
Proof.
  revert x. induction l as [|[k e] l IH]; intros [ts s] H; cbn in H; [by injection H as ->|].
  destruct (ts !! k) as [p|] eqn:Hk; [|done]. cbn in H. destruct (thread_step e p) as [m|] eqn:Hm; [|done]. cbn in H.
  case_decide as Hal; [|done]. destruct (m s) as [[p' s']| |] eqn:E; try done. eapply rtc_l; [by eapply step_thread|by apply IH].
Qed.
End inv.

(** ** Witness: two threads get inode 5 of a super block on a loop device at the same time *)
Definition loop_super : super := Super true (Some 7) [] [] 0 true.
Definition plain_super : super := Super false None [] [] 0 true.
Definition two_supers : icache := ICache ∅ {[1 := plain_super; 2 := loop_super]} ∅ 0.

Definition race : list (nat * event) :=
  [(0%nat, EIget 2 5); (1%nat, EIget 2 5); (0%nat, ERun); (1%nat, ERun); (0%nat, EAlloc (Some 100)); (1%nat, EAlloc (Some 101));
   (1%nat, ERun); (0%nat, ERun); (0%nat, ERun); (1%nat, EUnlockNew); (0%nat, ERun)].

Lemma empty_two_supers : empty_cache two_supers.
Proof.
  split; [done|done|]. intros sb b. cbn. destruct (decide (sb = 1)) as [->|H1]; [rewrite lookup_insert_eq; by intros [= <-]|].
  rewrite lookup_insert_ne by done. destruct (decide (sb = 2)) as [->|H2]; [rewrite lookup_singleton_eq; intros [= <-]; by eauto|].
  by rewrite lookup_singleton_ne.
Qed.

Lemma inode_cache_safe_witness :
  ∃ x, run_schedule 16 65535 64 None race ([PIdle; PIdle], two_supers) = Some x ∧ x.1 = [PHave 2 5 101; PHave 2 5 101] ∧
    ∃ v, i_objs x.2 !! 101 = Some v ∧ v_count v = refs x.1 101 ∧ 0 < v_count v.
Proof.
  destruct (run_schedule 16 65535 64 None race ([PIdle; PIdle], two_supers)) as [[ts' s']|] eqn:E; [|by vm_compute in E].
  exists (ts', s'). assert (ts' = [PHave 2 5 101; PHave 2 5 101]) as Ets by (vm_compute in E; by injection E as <- _).
  destruct (inode_cache_safe 16 65535 64 None 2 two_supers ts' s' empty_two_supers) as (_ & Hhave & _ & Hcnt).
  { exact (run_schedule_rtc _ _ _ _ _ _ _ E). }
  split; [done|]. split; [exact Ets|]. destruct (Hhave 0%nat 2 5 101) as (v & Hv & _ & _ & _ & Hpos & _); [by rewrite Ets|].
  exists v. split; [exact Hv|]. split; [apply (Hcnt 101 v Hv)|exact Hpos].
Defined.
