(* ===== verification/PvfsPart.v ===== *)
(** * Partitioned VFS: isolation, mounting, unique numbers

    What the partition of the inode cache gives: a critical section for an inode of one super block leaves
    the other super blocks, their inodes and their hash tables alone.  What [mount_fs] does to inodes that
    are already hashed, and the search of [iunique]. *)
From S2P Require Import Prelude Interfaces StateMonad PvfsInode PvfsCache.

(** ** Isolation *)

(** Nothing outside of super block [sb] differs. *)
Record within (sb : Z) (s s' : icache) : Prop := {
  w_supers x : x ≠ sb → i_supers s' !! x = i_supers s !! x;
  w_objs i v : v_sb v ≠ sb → i_objs s' !! i = Some v ↔ i_objs s !! i = Some v;
  w_chains tb : table_of s sb ≠ Some tb.1 → chain s' tb = chain s tb;
  w_table : table_of s' sb = table_of s sb;
}.

#[export] Instance within_refl sb : Reflexive (within sb).
Proof. by split. Qed.

#[export] Instance within_trans sb : Transitive (within sb).
Proof.
  intros s1 s2 s3 [H1 H2 H3 H4] [H5 H6 H7 H8]. split.
  - intros x Hx. by rewrite H5, H1.
  - intros i v Hv. by rewrite H6, H2.
  - intros tb Htb. rewrite H7, H3; [done..|]. by rewrite H4.
  - by rewrite H8.
Qed.

(** The inodes [l] are of the super block. *)
Definition mine (sb : Z) (l : list Z) (s : icache) : Prop := ∀ i v, i ∈ l → i_objs s !! i = Some v → v_sb v = sb.

Lemma mine_within sb l s s' : within sb s s' → mine sb l s → mine sb l s'.
Proof.
  intros Hw Hm i v Hi Hv. destruct (decide (v_sb v = sb)) as [|Hne]; [done|]. apply (w_objs _ _ _ Hw) in Hv; [|done]. by apply (Hm i).
Qed.

(** An operation that works inside of [sb] when the inodes [l] are of it. *)
Definition local {A} (sb : Z) (l : list Z) (m : V A) : Prop := ∀ s a s', mine sb l s → m s = Ok (a, s') → within sb s s'.

Section local.
Context (sb : Z) (l : list Z).

Lemma local_ret {A} (a : A) : local sb l (mret a).
Proof. intros s a' s' _ [= _ ->]. done. Qed.

Lemma local_bind {A B} (m : V A) (f : A → V B) : local sb l m → (∀ a, local sb l (f a)) → local sb l (m ≫= f).
Proof.
  intros Hm Hf s b s' Hl H. apply ST_bind_inv in H as (a & s1 & H1 & H2). pose proof (Hm s a s1 Hl H1) as Hw.
  transitivity s1; [done|]. apply (Hf a s1 b s'); [|done]. by apply (mine_within sb l s).
Qed.

Lemma local_get {A} (f : icache → A) : local sb l (st_get f).
Proof. intros s a s' _ [= _ ->]. done. Qed.

Lemma local_deref {A} (f : icache → option A) : local sb l (st_deref f).
Proof. intros s a s' _ H. unfold st_deref in H. destruct (f s); [|done]. by injection H as _ ->. Qed.

Lemma local_the_sb x : local sb l (the_sb x).
Proof. apply local_deref. Qed.

Lemma local_BUG_ON b : local sb l (BUG_ON b).
Proof. destruct b; [by intros s a s'|apply local_ret]. Qed.

(** The inode an operation has looked at is of the super block. *)
Lemma local_obj {A} i (f : vinode → V A) : i ∈ l → (∀ v, v_sb v = sb → local sb l (f v)) → local sb l (v ← obj i; f v).
Proof.
  intros Hi Hf s a s' Hl H. apply ST_bind_inv in H as (v & s1 & H1 & H2). unfold obj, st_deref in H1.
  destruct (i_objs s !! i) as [w|] eqn:Hw; [|done]. injection H1 as -> ->. apply (Hf v (Hl i v Hi Hw) s1 a s'); done.
Qed.

Lemma within_alter i f s :
  (∀ v, i_objs s !! i = Some v → v_sb v = sb ∧ v_sb (f v) = sb) → within sb s (s <| i_objs ::= alter f i |>).
Proof.
  intros Hf. split; try done. intros j v Hv. cbn. destruct (decide (j = i)) as [->|Hne]; [|by rewrite lookup_alter_ne].
  rewrite lookup_alter_eq. destruct (i_objs s !! i) as [w|]; [|done]. destruct (Hf w eq_refl) as [H1 H2]. cbn. split; intros [= <-]; congruence.
Qed.

Lemma local_set_obj i f : i ∈ l → (∀ v, v_sb (f v) = v_sb v) → local sb l (set_obj i f).
Proof. intros Hi Hf s a s' Hl [= _ <-]. apply within_alter. intros v Hv. rewrite Hf. split; by apply (Hl i). Qed.

Lemma local_set_sb f : (∀ b, s_isloop (f b) = s_isloop b ∧ s_itable (f b) = s_itable b) → local sb l (set_sb sb f).
Proof.
  intros Hf s a s' _ [= _ <-]. split; try done.
  - intros x Hx. cbn. by rewrite lookup_alter_ne.
  - unfold table_of. cbn. rewrite lookup_alter_eq. destruct (i_supers s !! sb) as [b|]; [|done]. cbn. by destruct (Hf b) as [-> ->].
Qed.

Lemma local_unused f : local sb l (st_modify (λ s, s <| i_nr_unused ::= f |>)).
Proof. by intros s a s' _ [= _ <-]. Qed.

Lemma local_chain tb l' s : table_of s sb = Some tb.1 → within sb s (s <| i_chains ::= <[tb := l']> |>).
Proof. intros Ht. split; try done. intros tb' Hne. rewrite chain_insert, decide_False; [done|]. intros ->. congruence. Qed.
End local.

Create HintDb local.
#[export] Hint Resolve local_ret local_get local_deref local_the_sb local_BUG_ON local_unused list_elem_of_here : local.
#[export] Hint Extern 3 (local _ _ (mbind _ (obj _))) => simple apply local_obj; [auto with local|intros] : local.
#[export] Hint Extern 4 (local _ _ (mbind _ _)) => simple apply local_bind; [|intros] : local.
#[export] Hint Extern 2 (local _ _ (set_obj _ _)) => simple apply local_set_obj; [|done] : local.
#[export] Hint Extern 2 (local _ _ (set_sb _ _)) => subst; simple apply local_set_sb; done : local.
#[export] Hint Extern 5 (local _ _ (if ?b then _ else _)) => destruct b : local.
#[export] Hint Extern 5 (local _ _ (match ?x with _ => _ end)) => destruct x : local.

(** ** Operations *)
Section ops.
Context (sb : Z) (i : Z) (l : list Z) (Hi : i ∈ l).

Lemma local_lru_add : local sb l (inode_lru_list_add i).
Proof. unfold inode_lru_list_add. auto 12 with local. Qed.

Lemma local_lru_del : local sb l (inode_lru_list_del i).
Proof. unfold inode_lru_list_del. auto 12 with local. Qed.

Lemma local_sb_list_add : local sb l (inode_sb_list_add i).
Proof. unfold inode_sb_list_add. auto 12 with local. Qed.

Lemma local_sb_list_del : local sb l (inode_sb_list_del i).
Proof. unfold inode_sb_list_del. auto 12 with local. Qed.

Hint Resolve local_lru_add local_lru_del local_sb_list_add local_sb_list_del : local.

Lemma local_take : local sb l (take_for_eviction i).
Proof. unfold take_for_eviction. auto 12 with local. Qed.

Lemma local_add_lru : local sb l (inode_add_lru i).
Proof. unfold inode_add_lru. auto 12 with local. Qed.

Hint Resolve local_add_lru : local.

Lemma local_iput d : local sb l (iput d i).
Proof. unfold iput. auto 20 with local. Qed.

Lemma local_iput_written : local sb l (iput_written i).
Proof. unfold iput_written. auto 12 with local. Qed.

Lemma local_evict_begin : local sb l (evict_begin i).
Proof. unfold evict_begin. auto 12 with local. Qed.
End ops.

Lemma local_destroy sb i l : i ∈ l → local sb l (destroy_inode i).
Proof.
  intros Hi. unfold destroy_inode. apply local_obj; [done|]. intros v Hv. apply local_bind; [auto with local|]. intros _ s a s' Hl [= _ <-].
  split; try done. intros j w Hw. cbn. destruct (decide (j = i)) as [->|Hne]; [|by rewrite lookup_delete_ne].
  rewrite lookup_delete_eq. split; [done|]. intros Hj. by specialize (Hl i w Hi Hj).
Qed.

Lemma local_find_in sb l test l' : (∀ v, test v = true → v_sb v = sb) → local sb l (find_in test l').
Proof.
  intros Ht. induction l' as [|i l' IH]; cbn [find_in]; [auto with local|]. intros s a s' Hl H.
  apply ST_bind_inv in H as (v & s1 & H1 & H2). unfold obj, st_deref in H1. destruct (i_objs s !! i) as [w|] eqn:Hw; [|done].
  injection H1 as -> <-. destruct (test v) eqn:Et; cbn [negb] in H2; [|by apply (IH s a s')].
  destruct (freeing v); [by injection H2 as _ <-|]. injection H2 as _ <-. apply within_alter. intros v' Hv'. rewrite Hw in Hv'. injection Hv' as <-.
  split; [by apply Ht|by apply (Ht v)].
Qed.

Lemma local_find_fast sb l head ino : local sb l (find_inode_fast sb head ino).
Proof.
  unfold find_inode_fast. apply local_bind; [auto with local|]. intros l'. apply local_find_in. by intros v [_ ?%Z.eqb_eq]%andb_true_iff.
Qed.

Lemma local_invalidate_loop sb l kill l' d busy : l' ⊆ l → local sb l (invalidate_loop kill l' d busy).
Proof.
  revert d busy. induction l' as [|i l' IH]; intros d busy Hl; cbn [invalidate_loop]; [auto with local|].
  assert (i ∈ l) as Hi by (apply Hl; by left). assert (l' ⊆ l) as Hl' by (intros x Hx; apply Hl; by right).
  apply local_obj; [done|]. intros v Hv. repeat case_match; auto. apply local_bind; [by apply local_take|]. auto.
Qed.

(** The inode of a thread goes in at the head of its chain. *)
Lemma within_add_head sb i tb s a s' :
  mine sb [i] s → table_of s sb = Some tb.1 → hlist_add_head i tb s = Ok (a, s') → within sb s s'.
Proof.
  intros Hm Ht H. apply ST_bind_inv in H as (u & s1 & [= _ <-] & H2).
  transitivity (s <| i_chains ::= <[tb := i :: chain s tb]> |>); [by apply local_chain|].
  refine (local_set_obj sb [i] i _ _ _ _ a s' _ H2); [by left|done|done].
Qed.

Lemma within_unhash sb i s a s' :
  mine sb [i] s → (∀ v tb, i_objs s !! i = Some v → v_hash v = Some tb → table_of s sb = Some tb.1) →
  remove_inode_hash i s = Ok (a, s') → within sb s s'.
Proof.
  intros Hm Ht H. unfold remove_inode_hash in H. apply ST_bind_inv in H as (v & s1 & H1 & H2). unfold obj, st_deref in H1.
  destruct (i_objs s !! i) as [w|] eqn:Hw; [|done]. injection H1 as -> <-. unfold inode_unhashed in H2. destruct (v_hash v) as [tb|] eqn:Hh; [|by injection H2 as _ <-].
  unfold __remove_inode_hash, hlist_del_init in H2. apply ST_bind_inv in H2 as (v' & s1 & H1 & H2). unfold obj, st_deref in H1.
  rewrite Hw in H1. injection H1 as -> <-. rewrite Hh in H2. apply ST_bind_inv in H2 as (u & s1 & [= _ <-] & H2).
  transitivity (s <| i_chains ::= <[tb := filter (.≠ i) (chain s tb)]> |>); [apply local_chain; by eapply Ht|].
  refine (local_set_obj sb [i] i _ _ _ _ a s' _ H2); [by left|done|done].
Qed.

Lemma within_alloc sb i s a s' : i_objs s !! i = None → alloc_inode sb (Some i) s = Ok (a, s') → within sb s s'.
Proof.
  intros Hn [= _ <-]. split; try done. intros j v Hv. cbn. destruct (decide (j = i)) as [->|Hne]; [|by rewrite lookup_insert_ne].
  rewrite lookup_insert_eq, Hn. split; [|done]. intros [= <-]. done.
Qed.

(** ** Sections *)

(** The super block a section works for. *)
Definition subject (s : icache) (p : pc) (e : event) : option Z :=
  match p with
  | PIdle => match e with EIget sb _ | EInvalidate sb _ => Some sb | _ => None end
  | PFind sb _ _ | PAlloc sb _ _ | PSecond sb _ _ _ | PLost sb _ _ _ | PWait sb _ _ | PHave sb _ _ => Some sb
  | PWrite i | PEvict (i :: _) | PUnhash i _ | PDestroy i _ => v_sb <$> i_objs s !! i
  | PEvict [] => None
  end.

Section isolation.
Variable i_hash_shift i_hash_mask L1_CACHE_BYTES : Z.
Variable drop_inode : option (vinode → bool).

Abbreviation hash_ok := (hash_ok i_hash_shift i_hash_mask L1_CACHE_BYTES).
Abbreviation inv := (inv i_hash_shift i_hash_mask L1_CACHE_BYTES).
Abbreviation place := (place i_hash_shift i_hash_mask L1_CACHE_BYTES).
Abbreviation thread_step := (thread_step i_hash_shift i_hash_mask L1_CACHE_BYTES drop_inode).
Abbreviation step := (step i_hash_shift i_hash_mask L1_CACHE_BYTES drop_inode).

Lemma mine_one sb i s : v_sb <$> i_objs s !! i = Some sb → mine sb [i] s.
Proof. intros H j v ->%list_elem_of_singleton Hv. rewrite Hv in H. by injection H. Qed.

Lemma mine_named sb ino i s : named s sb ino i → mine sb [i] s.
Proof. intros (v & Hv & <- & _). apply mine_one. by rewrite Hv. Qed.

Lemma mine_fresh sb i s : fresh_obj s sb i → mine sb [i] s.
Proof. intros (v & Hv & _ & <- & _). apply mine_one. by rewrite Hv. Qed.

Lemma place_table s sb ino tb : place s sb ino = Some tb → table_of s sb = Some tb.1.
Proof. unfold PvfsCache.place. destruct (table_of s sb); [|done]. by intros [= <-]. Qed.

Lemma local_map {A B} sb l (m : V A) (f : A → B) : local sb l m → local sb l (a ← m; mret (f a)).
Proof. intros Hm. apply local_bind; [done|]. auto with local. Qed.

Lemma within_second sb ino head i s r s' :
  table_of s sb = Some head.1 → mine sb [i] s → iget_second sb ino head i s = Ok (r, s') → within sb s s'.
Proof.
  intros Ht Hm H. unfold iget_second in H. apply ST_bind_inv in H as (f & s1 & H1 & H2).
  pose proof (local_find_fast sb [i] head ino s f s1 Hm H1) as Hw1. transitivity s1; [done|].
  pose proof (mine_within _ _ _ _ Hw1 Hm) as Hm1. destruct f as [old|old|]; [by injection H2 as _ <-..|].
  apply ST_bind_inv in H2 as (u & s2 & H2 & H3). assert (within sb s1 s2) as Hw2.
  { refine (local_set_obj sb [i] i _ _ _ s1 u s2 Hm1 H2); [by left|done]. }
  transitivity s2; [done|]. pose proof (mine_within _ _ _ _ Hw2 Hm1) as Hm2. apply ST_bind_inv in H3 as (u' & s3 & H3 & H4).
  assert (within sb s2 s3) as Hw3.
  { apply (within_add_head sb i head s2 u'); [done| |done]. by rewrite (w_table _ _ _ Hw2), (w_table _ _ _ Hw1). }
  transitivity s3; [done|]. pose proof (mine_within _ _ _ _ Hw3 Hm2) as Hm3.
  refine (local_bind sb [i] _ _ _ _ s3 r s' Hm3 H4); [apply local_sb_list_add; by left|]. auto with local.
Qed.

Lemma section_within ts s k p e m p' s' sb :
  inv ts s → ts !! k = Some p → thread_step e p = Some m → allowed e s → m s = Ok (p', s') → subject s p e = Some sb → within sb s s'.
Proof.
  intros Hinv Hk He Hal Hm Hsub. pose proof (inv_pc _ _ _ _ _ Hinv k p Hk) as Hok.
  destruct p as [|x ino head|x ino head|x ino head i|x ino i old|x ino i|x ino i|i|[|i l]|i l|i l], e as [y n|y kill| |addr| | |]; try discriminate He;
    injection He as <-; cbn [subject] in Hsub.
  - injection Hsub as ->. apply ST_bind_inv in Hm as (h & s1 & H1 & [= _ <-]). apply ST_bind_inv in H1 as (t & s2 & H1 & [= _ <-]).
    unfold groupfs_get_ihtable in H1. apply ST_bind_inv in H1 as (b & s3 & H1 & H2). refine (transitivity (local_deref sb [] _ s b s3 _ H1) _); [by intros ? ? ?%elem_of_nil|].
    destruct (s_isloop b); [|by injection H2 as _ <-]. unfold st_lift in H2. destruct (s_itable b); [|done]. by injection H2 as _ <-.
  - injection Hsub as ->. apply ST_bind_inv in Hm as (r & s1 & H1 & [= _ <-]). apply ST_bind_inv in H1 as (b & s2 & H1 & H2).
    unfold the_sb, st_deref in H1. destruct (i_supers s !! sb) as [b'|] eqn:Hb; [|done]. injection H1 as -> <-.
    apply (local_invalidate_loop sb (s_inodes b) kill (s_inodes b) [] false (reflexivity _) s r s1); [|done].
    intros i v Hi Hv. destruct (sb_list _ (inv_supers _ _ _ _ _ Hinv) sb b i Hb Hi) as (w & Hw & _ & <-). congruence.
  - injection Hsub as ->. refine (local_map sb [] _ _ (local_find_fast _ _ _ _) s p' s' _ Hm). by intros ? ? ?%elem_of_nil.
  - injection Hsub as ->. apply ST_bind_inv in Hm as (r & s1 & H1 & [= _ <-]). destruct addr as [i|]; [|by injection H1 as _ <-].
    by apply (within_alloc sb i s r).
  - injection Hsub as ->. apply ST_bind_inv in Hm as (r & s1 & H1 & [= _ <-]). destruct Hok as [Hpl Hfresh].
    apply (within_second sb ino head i s r); [by eapply place_table|by apply mine_fresh|done].
  - injection Hsub as ->. destruct Hok as [Hfresh _].
    refine (local_bind sb [i] _ _ (local_destroy _ _ _ _) _ s p' s' (mine_fresh _ _ _ Hfresh) Hm); [by left|auto with local].
  - injection Hsub as ->. refine (local_map sb [] _ _ (local_deref _ _ _) s p' s' _ Hm). by intros ? ? ?%elem_of_nil.
  - injection Hsub as ->. refine (local_bind sb [i] _ _ _ _ s p' s' (mine_named _ _ _ _ Hok) Hm); [|auto with local].
    apply local_set_obj; [by left|done].
  - injection Hsub as ->. refine (local_bind sb [i] _ _ _ _ s p' s' (mine_named _ _ _ _ Hok) Hm); [|auto with local].
    apply local_set_obj; [by left|done].
  - injection Hsub as ->. refine (local_map sb [i] _ _ (local_iput _ _ _ _ _) s p' s' (mine_named _ _ _ _ Hok) Hm). by left.
  - refine (local_bind sb [i] _ _ (local_iput_written _ _ _ _) _ s p' s' (mine_one _ _ _ Hsub) Hm); [by left|auto with local].
  - refine (local_bind sb [i] _ _ (local_evict_begin _ _ _ _) _ s p' s' (mine_one _ _ _ Hsub) Hm); [by left|auto with local].
  - apply ST_bind_inv in Hm as (u & s1 & H1 & [= _ <-]). apply (within_unhash sb i s u); [by apply mine_one| |done].
    intros v tb Hv Hh. rewrite Hv in Hsub. injection Hsub as <-. eapply place_table, (h_place _ _ _ _ (inv_hash _ _ _ _ _ Hinv) i); done.
  - refine (local_bind sb [i] _ _ _ _ s p' s' (mine_one _ _ _ Hsub) Hm); [|auto with local]. unfold evict_end.
    apply local_obj; [by left|]. intros v Hv. apply local_bind; [auto with local|]. intros _. apply local_destroy. by left.
Qed.

(** C13: A critical section that works for one super block changes no other super block, no inode of another super
    block and no chain of a table other than the one of its super block: threads working on file systems of
    different loop devices, whose tables differ, do not touch each other's part of the inode cache. *)
Theorem partitions_isolated n s0 ts s k p e m p' s' sb :
  empty_cache s0 → rtc step (replicate n PIdle, s0) (ts, s) →
  ts !! k = Some p → thread_step e p = Some m → allowed e s → m s = Ok (p', s') → subject s p e = Some sb →
  (∀ x, x ≠ sb → i_supers s' !! x = i_supers s !! x) ∧
  (∀ i v, v_sb v ≠ sb → i_objs s' !! i = Some v ↔ i_objs s !! i = Some v) ∧
  (∀ tb, table_of s sb ≠ Some tb.1 → chain s' tb = chain s tb) ∧
  (∀ x, table_of s' x = table_of s x).
Proof.
  intros H0 Hr Hk Hm Hal Hs Hsub.
  pose proof (inv_reach _ _ _ _ (replicate n PIdle, s0) (ts, s) (inv_start _ _ _ n s0 H0) Hr) as Hinv.
  destruct (section_within ts s k p e m p' s' sb Hinv Hk Hm Hal Hs Hsub) as [H1 H2 H3 H4]. split_and!; try done.
  intros x. destruct (decide (x = sb)) as [->|Hne]; [done|]. unfold table_of. by rewrite H1.
Qed.
End isolation.

(** Thread 0 has inode 5 of super block 2, whose link is gone, thread 1 inode 9 of super block 1. *)
Definition two_got : list (nat * event) :=
  [(0%nat, EIget 2 5); (1%nat, EIget 1 9); (0%nat, ERun); (1%nat, ERun); (0%nat, EAlloc (Some 100)); (1%nat, EAlloc (Some 101));
   (1%nat, ERun); (0%nat, ERun); (0%nat, EUnlockNew); (0%nat, EDropLink); (1%nat, EUnlockNew)].

Lemma partitions_isolated_witness :
  ∃ ts s s' v, run_schedule 16 65535 64 None two_got ([PIdle; PIdle], two_supers) = Some (ts, s) ∧
    ts = [PHave 2 5 100; PHave 1 9 101] ∧ iput None 100 s = Ok (ToEvict, s') ∧
    i_objs s !! 101 = Some v ∧ i_objs s' !! 101 = Some v ∧ i_supers s' !! 1 = i_supers s !! 1.
Proof.
  destruct (run_schedule 16 65535 64 None two_got ([PIdle; PIdle], two_supers)) as [[ts s]|] eqn:E; [|by vm_compute in E].
  destruct (iput None 100 s) as [[r s']| |] eqn:Ei; [|by vm_compute in E; injection E as <- <-; vm_compute in Ei..].
  destruct (i_objs s !! 101) as [v|] eqn:Hv; [|by vm_compute in E; injection E as <- <-; vm_compute in Hv].
  assert (ts = [PHave 2 5 100; PHave 1 9 101] ∧ r = ToEvict ∧ v_sb v = 1) as (-> & -> & Hsb).
  { vm_compute in E. injection E as <- <-. vm_compute in Ei, Hv. injection Ei as <- _. by injection Hv as <-. }
  destruct (partitions_isolated 16 65535 64 None 2 two_supers _ s 0 (PHave 2 5 100) EIput
    (r ← iput None 100; mret match r with Kept => PIdle | ToWrite => PWrite 100 | ToEvict => PEvict [100] end) (PEvict [100]) s' 2 empty_two_supers
    (run_schedule_rtc _ _ _ _ _ _ _ E)) as (H1 & H2 & _); try done.
  { rewrite (ST_bind_Ok _ _ _ _ _ Ei). done. }
  exists [PHave 2 5 100; PHave 1 9 101], s, s', v. split_and!; try done.
  - apply H2; [by rewrite Hsb|exact Hv].
  - by apply H1.
Defined.

(** ** Mounting *)

(** The table of the super block is empty. *)
Lemma find_missing sb ino head s : chain s head = [] → find_inode_fast sb head ino s = Ok (Missing, s).
Proof. intros H. unfold find_inode_fast, mbind, ST_bind, st_get. cbn. by rewrite H. Qed.

Section mounting.
Variable i_hash_shift i_hash_mask L1_CACHE_BYTES : Z.
Variable drop_inode : option (vinode → bool).

Lemma head_of_loop sb ino b t s :
  i_supers s !! sb = Some b → s_isloop b = true → s_itable b = Some t →
  head_of i_hash_shift i_hash_mask L1_CACHE_BYTES sb ino s = Ok ((t, hash i_hash_shift i_hash_mask L1_CACHE_BYTES sb ino), s).
Proof.
  intros Hb Hl Ht. unfold head_of, groupfs_get_ihtable. rewrite (ST_bind_Ok _ _ s t s); [done|].
  rewrite (ST_bind_Ok _ _ s b s); [by rewrite Hl, Ht|]. unfold the_sb, st_deref. by rewrite Hb.
Qed.

(** [iget_locked] of one thread that finds nothing. *)
Definition iget_alone (sb ino j : Z) : list (nat * event) :=
  [(0%nat, EIget sb ino); (0%nat, ERun); (0%nat, EAlloc (Some j)); (0%nat, ERun)].

Lemma iget_alone_new sb ino j b t s :
  i_supers s !! sb = Some b → s_isloop b = true → s_itable b = Some t → (∀ h, chain s (t, h) = []) → i_objs s !! j = None →
  ∃ s' w, run_schedule i_hash_shift i_hash_mask L1_CACHE_BYTES drop_inode (iget_alone sb ino j) ([PIdle], s) = Some ([PHave sb ino j], s') ∧
    i_objs s' = <[j := w]> (i_objs s) ∧ v_sb w = sb ∧ v_ino w = ino ∧ v_hash w = Some (t, hash i_hash_shift i_hash_mask L1_CACHE_BYTES sb ino).
Proof.
  intros Hb Hl Ht Hc Hj. set (head := (t, hash i_hash_shift i_hash_mask L1_CACHE_BYTES sb ino)).
  set (s1 := s <| i_objs ::= <[j := VInode 0 sb 0 1 1 None false false]> |>).
  assert (find_inode_fast sb head ino s = Ok (Missing, s)) as F0 by (apply find_missing, Hc).
  assert (find_inode_fast sb head ino s1 = Ok (Missing, s1)) as F1 by (apply find_missing, Hc).
  destruct (wp_new_hashed s1 sb ino head j (VInode 0 sb 0 1 1 None false false)
    (λ r s', r = Inserted ∧ ∃ w, i_objs s' = <[j := w]> (i_objs s1) ∧ v_sb w = sb ∧ v_ino w = ino ∧ v_hash w = Some head))
    as (r & s' & Hi & -> & w & Ho & Hw); [apply lookup_insert_eq|done..| |].
  { intros s' v' Hn. split; [done|]. exists v'. rewrite (n_new _ _ _ _ _ _ _ _ Hn) at 2 3 4. split_and!; try done. apply Hn. }
  exists s', w. split; [|split; [|done]; rewrite Ho; apply insert_insert_eq].
  unfold iget_alone, run_schedule. cbn [fst snd lookup list_lookup mbind option_bind thread_step].
  rewrite decide_True by (by exists b). rewrite (ST_bind_Ok _ _ s _ s (head_of_loop sb ino b t s Hb Hl Ht)).
  cbn. change (find_inode_fast sb _ ino) with (find_inode_fast sb head ino). rewrite (ST_bind_Ok _ _ s _ s F0). cbn.
  rewrite !decide_True by done.
  rewrite (ST_bind_Ok _ _ s (Some j) s1) by done. cbn. change (s <| i_objs ::= _ |>) with s1.
  rewrite decide_True, (ST_bind_Ok _ _ s1 Inserted s') by done || (unfold iget_second; by rewrite (ST_bind_Ok _ _ s1 _ s1 F1)). done.
Qed.
(** C37: [mount_fs] of a device whose name starts with /dev/loop gives the super block a new, empty table after the
    file system has filled the super block in, and again at each further mount of the same device: the inodes
    that are already hashed are not found any more, [iget_locked] makes a second inode with the same number,
    and the lock the cache takes for the super block is from then on its own, while the old inode stays in its
    old chain. *)
Theorem mount_hides_inodes sb b name t s i v tb :
  i_supers s !! sb = Some b → take 9 name = dev_loop → i_objs s !! i = Some v → v_sb v = sb → v_hash v = Some tb → i ∈ chain s tb → tb.1 ≠ t →
  ∃ s1, mount_tables sb name (Some t) s = Ok ((), s1) ∧ i_objs s1 = i_objs s ∧ i ∈ chain s1 tb ∧
    groupfs_get_ihlock sb s1 = Ok (SbHash sb, s1) ∧
    (∀ ino, ilookup i_hash_shift i_hash_mask L1_CACHE_BYTES sb ino s1 = Ok (Missing, s1)) ∧
    ∀ j, i_objs s !! j = None → ∃ s2 w,
      run_schedule i_hash_shift i_hash_mask L1_CACHE_BYTES drop_inode (iget_alone sb (v_ino v) j) ([PIdle], s1) = Some ([PHave sb (v_ino v) j], s2) ∧
      i_objs s2 !! i = Some v ∧ i_objs s2 !! j = Some w ∧ i ≠ j ∧ v_sb w = v_sb v ∧ v_ino w = v_ino v ∧ is_Some (v_hash w).
Proof.
  intros Hb Hn Hi Hsb Hh Hin Ht. set (b1 := b <| s_itable := Some t |> <| s_isloop := true |>).
  set (s1 := s <| i_chains ::= filter (λ x, x.1.1 ≠ t) |> <| i_supers ::= alter (λ b, b <| s_itable := Some t |> <| s_isloop := true |>) sb |>).
  assert (i_supers s1 !! sb = Some b1) as Hb1 by (cbn; by rewrite lookup_alter_eq, Hb).
  assert (∀ h, chain s1 (t, h) = []) as Hc.
  { intros h. unfold chain. cbn. rewrite map_lookup_filter_None_2; [done|]. right. by intros l _ []. }
  exists s1. split_and!.
  - unfold mount_tables. by rewrite decide_True.
  - done.
  - unfold chain in *. cbn. destruct (i_chains s !! tb) as [l|] eqn:El; [|by apply elem_of_nil in Hin].
    by rewrite (map_lookup_filter_Some_2 _ _ _ _ El).
  - unfold groupfs_get_ihlock. rewrite (ST_bind_Ok _ _ s1 b1 s1); [done|]. unfold the_sb, st_deref. by rewrite Hb1.
  - intros ino. unfold ilookup. rewrite (ST_bind_Ok _ _ _ _ _ (head_of_loop sb ino b1 t s1 Hb1 eq_refl eq_refl)). apply find_missing, Hc.
  - intros j Hj. destruct (iget_alone_new sb (v_ino v) j b1 t s1 Hb1 eq_refl eq_refl Hc Hj) as (s2 & w & Hr & Ho & Hw1 & Hw2 & Hw3).
    assert (i ≠ j) as Hne by congruence. exists s2, w. rewrite Ho, lookup_insert_eq, lookup_insert_ne by done.
    split_and!; try done; by rewrite ?Hw3 || congruence.
Qed.
End mounting.

(** The root directory of a file system, hashed when the super block was filled in. *)
Definition filled : icache :=
  ICache {[50 := VInode 2 3 0 1 3 (Some (0, 77)) true false]} {[3 := Super false None [50] [] 0 true]} {[(0, 77) := [50]]} 0.

Lemma mount_hides_inodes_witness :
  ∃ s1, mount_tables 3 (dev_loop ++ [48]) (Some 7) filled = Ok ((), s1) ∧ 50 ∈ chain s1 (0, 77) ∧
    ilookup 16 65535 64 3 2 s1 = Ok (Missing, s1).
Proof.
  destruct (mount_hides_inodes 16 65535 64 None 3 (Super false None [50] [] 0 true) (dev_loop ++ [48]) 7 filled 50
    (VInode 2 3 0 1 3 (Some (0, 77)) true false) (0, 77)) as (s1 & H1 & _ & H2 & _ & H3 & _); [reflexivity..| |done|].
  { by left. }
  exists s1. split; [exact H1|]. split; [exact H2|apply H3].
Defined.

(** ** [iunique] *)
Section iunique.
Variable i_hash_shift i_hash_mask L1_CACHE_BYTES : Z.

Abbreviation iunique := (iunique i_hash_shift i_hash_mask L1_CACHE_BYTES).
Abbreviation test_inode_iunique := (test_inode_iunique i_hash_shift i_hash_mask L1_CACHE_BYTES).

(** A number no inode of the super block in the cache has. *)
Definition unused (s : icache) (sb ino : Z) : Prop :=
  ∀ i v, i_objs s !! i = Some v → is_Some (v_hash v) → v_sb v = sb → v_ino v ≠ ino.

Lemma unique_in_spec sb ino l s :
  (∀ i, i ∈ l → is_Some (i_objs s !! i)) →
  ∃ b, unique_in sb ino l s = Ok (b, s) ∧ (b = true ↔ ∀ i v, i ∈ l → i_objs s !! i = Some v → v_sb v = sb → v_ino v ≠ ino).
Proof.
  induction l as [|i l IH]; intros Hl; cbn [unique_in].
  { exists true. split; [done|]. split; [|done]. by intros _ i v ?%elem_of_nil. }
  destruct (Hl i) as [v Hv]; [by left|]. rewrite (ST_bind_Ok _ _ s v s) by (unfold obj, st_deref; by rewrite Hv).
  destruct (Z.eqb_spec (v_ino v) ino) as [E1|E1], (Z.eqb_spec (v_sb v) sb) as [E2|E2]; cbn [andb].
  { exists false. split; [done|]. split; [done|]. intros H. by destruct (H i v (list_elem_of_here _ _) Hv E2). }
  all: destruct IH as (b & Hb & Hiff); [intros j Hj; apply Hl; by right|]; exists b; split; [done|]; rewrite Hiff; split;
    [intros H j w [->|Hj]%elem_of_cons Hw; [congruence|by apply (H j)]|intros H j w Hj; apply H; by right].
Qed.

Lemma test_iunique_spec s sb b t ino :
  PvfsCache.hash_ok i_hash_shift i_hash_mask L1_CACHE_BYTES s → i_supers s !! sb = Some b → table_of s sb = Some t →
  ∃ r, test_inode_iunique sb ino s = Ok (r, s) ∧ (r = true ↔ unused s sb ino).
Proof.
  intros Hh Hb Ht. set (head := (t, hash i_hash_shift i_hash_mask L1_CACHE_BYTES sb ino)).
  assert (head_of i_hash_shift i_hash_mask L1_CACHE_BYTES sb ino s = Ok (head, s)) as Hhead.
  { unfold head_of, groupfs_get_ihtable. rewrite (ST_bind_Ok _ _ s t s); [done|].
    rewrite (ST_bind_Ok _ _ s b s) by (unfold the_sb, st_deref; by rewrite Hb). unfold table_of in Ht. rewrite Hb in Ht. cbn in Ht.
    destruct (s_isloop b); [by rewrite Ht|by injection Ht as <-]. }
  destruct (unique_in_spec sb ino (chain s head) s) as (r & Hr & Hiff).
  { intros i (v & Hv & _)%(h_chain _ _ _ _ Hh). by exists v. }
  exists r. split.
  - unfold PvfsInode.test_inode_iunique. by rewrite (ST_bind_Ok _ _ _ _ _ Hhead), (ST_bind_Ok _ _ s (chain s head) s).
  - rewrite Hiff. split; intros H i v.
    + intros Hv [tb Htb] Hs En. apply (H i v); try done. apply (h_chain _ _ _ _ Hh). exists v. split; [done|].
      pose proof (h_place _ _ _ _ Hh i v tb Hv Htb) as Hp. unfold place in Hp. rewrite Hs, En, Ht in Hp. change (Some head = Some tb) in Hp. congruence.
    + intros (w & Hw & Ew)%(h_chain _ _ _ _ Hh) Hv. rewrite Hv in Hw. injection Hw as <-. apply (H i); [done|]. by rewrite Ew.
Qed.

(** The counter a round starts with, and how far it is from a free number. *)
Definition past_reserved (max_reserved c : Z) : Z := if c <=? max_reserved then max_reserved + 1 else c.
Definition rounds_left (max_reserved free c : Z) : Z :=
  let c := past_reserved max_reserved c in
  if c <=? free then free - c else free - (max_reserved + 1) + (2 ^ 32 - c).

Lemma past_reserved_range m c : 0 ≤ m < 2 ^ 32 - 1 → 0 ≤ c < 2 ^ 32 → m < past_reserved m c < 2 ^ 32.
Proof. intros Hm Hc. unfold past_reserved. destruct (Z.leb_spec c m); lia. Qed.

Lemma rounds_left_range m f c : 0 ≤ m < f → f < 2 ^ 32 → 0 ≤ c < 2 ^ 32 → 0 ≤ rounds_left m f c < 2 ^ 32.
Proof.
  intros Hm Hf Hc. pose proof (past_reserved_range m c ltac:(lia) Hc). unfold rounds_left. cbn zeta.
  destruct (Z.leb_spec (past_reserved m c) f); lia.
Qed.

Lemma rounds_left_next m f c :
  0 ≤ m < f → f < 2 ^ 32 → 0 ≤ c < 2 ^ 32 → past_reserved m c ≠ f →
  rounds_left m f (wrapu 32 (past_reserved m c + 1)) = rounds_left m f c - 1.
Proof.
  intros Hm Hf Hc Hne. pose proof (past_reserved_range m c ltac:(lia) Hc) as Hn. unfold rounds_left. cbn zeta. set (n := past_reserved m c) in *.
  clearbody n. assert (past_reserved m (wrapu 32 (n + 1)) = if decide (n + 1 = 2 ^ 32) then m + 1 else n + 1) as ->.
  { case_decide as E; [rewrite E; change (wrapu 32 (2 ^ 32)) with 0|rewrite wrapu_small by lia]; unfold past_reserved; case_match eqn:Hle; rewrite ?Z.leb_le, ?Z.leb_gt in Hle; lia. }
  case_decide; destruct (Z.leb_spec n f), (Z.leb_spec (n + 1) f), (Z.leb_spec (m + 1) f); lia.
Qed.

Lemma iunique_rounds s sb b t m f :
  PvfsCache.hash_ok i_hash_shift i_hash_mask L1_CACHE_BYTES s → i_supers s !! sb = Some b → table_of s sb = Some t →
  0 ≤ m < f → f < 2 ^ 32 → unused s sb f →
  ∀ (d : nat) c, 0 ≤ c < 2 ^ 32 → rounds_left m f c ≤ Z.of_nat d →
    ∃ res c', iunique (S d) sb m c s = Ok ((res, c'), s) ∧ m < res < 2 ^ 32 ∧ 0 ≤ c' < 2 ^ 32 ∧ unused s sb res.
Proof.
  intros Hh Hb Ht Hf Hf' Hfree d. induction d as [|d IH]; intros c Hc Hd; cbn [PvfsInode.iunique];
    pose proof (past_reserved_range m c ltac:(lia) Hc) as Hn;
    (replace (if c <=? m then wrapu 32 (m + 1) else c) with (past_reserved m c)
      by (unfold past_reserved; destruct (Z.leb_spec c m); [by rewrite wrapu_small by lia|done]));
    destruct (test_iunique_spec s sb b t (past_reserved m c) Hh Hb Ht) as ([|] & Hr & Hiff); rewrite (ST_bind_Ok _ _ _ _ _ Hr).
  1,3: eexists _, _; split; [done|]; split; [done|]; split; [by apply wrapu_bound|]; by apply Hiff.
  all: assert (past_reserved m c ≠ f) as Hne by (intros E; rewrite E in Hiff; by apply Hiff in Hfree).
  - pose proof (rounds_left_next m f c Hf Hf' Hc Hne). pose proof (rounds_left_range m f (wrapu 32 (past_reserved m c + 1)) Hf Hf' ltac:(by apply wrapu_bound)). lia.
  - apply IH; [by apply wrapu_bound|]. rewrite rounds_left_next by done. lia.
Qed.

(** [iunique] returns after at most 2^32 rounds when some number above the reserved ones is free, whatever
    the counter is and although it wraps around: the number returned is above the reserved ones, fits 32 bits
    and no inode of the super block in the cache has it. *)
Theorem iunique_returns s sb b t max_reserved counter free :
  PvfsCache.hash_ok i_hash_shift i_hash_mask L1_CACHE_BYTES s → i_supers s !! sb = Some b → table_of s sb = Some t →
  0 ≤ max_reserved < free → free < 2 ^ 32 → 0 ≤ counter < 2 ^ 32 → unused s sb free →
  ∃ fuel res c, Z.of_nat fuel ≤ 2 ^ 32 ∧ iunique fuel sb max_reserved counter s = Ok ((res, c), s) ∧
    max_reserved < res < 2 ^ 32 ∧ 0 ≤ c < 2 ^ 32 ∧ unused s sb res.
Proof.
  intros Hh Hb Ht Hf Hf' Hc Hfree. pose proof (rounds_left_range max_reserved free counter Hf Hf' Hc) as Hd.
  destruct (iunique_rounds s sb b t max_reserved free Hh Hb Ht Hf Hf' Hfree (Z.to_nat (rounds_left max_reserved free counter)) counter Hc)
    as (res & c & Hr); [lia|].
  exists (S (Z.to_nat (rounds_left max_reserved free counter))), res, c. split; [lia|done].
Qed.
End iunique.

(** An inode with the number the counter stands at. *)
Definition one_hashed : icache :=
  ICache {[50 := VInode (2 ^ 32 - 1) 2 0 1 1 (Some (7, hash 16 65535 64 2 (2 ^ 32 - 1))) true false]} {[2 := Super true (Some 7) [50] [] 0 true]}
    {[(7, hash 16 65535 64 2 (2 ^ 32 - 1)) := [50]]} 0.

Lemma one_hashed_ok : PvfsCache.hash_ok 16 65535 64 one_hashed.
Proof.
  set (v := VInode (2 ^ 32 - 1) 2 0 1 1 (Some (7, hash 16 65535 64 2 (2 ^ 32 - 1))) true false).
  assert (∀ i w, i_objs one_hashed !! i = Some w → i = 50 ∧ w = v) as Hone by (intros i w Hw; cbn in Hw; apply lookup_singleton_Some in Hw as [<- <-]; done).
  split.
  - intros tb i. unfold chain. cbn [one_hashed i_chains]. destruct (decide (tb = (7, hash 16 65535 64 2 (2 ^ 32 - 1)))) as [->|Hne].
    + rewrite lookup_singleton_eq. cbn [default id from_option]. rewrite list_elem_of_singleton. split.
      * intros ->. by exists v.
      * intros (w & [-> ->]%Hone & _). done.
    + rewrite lookup_singleton_ne by done. split; [by intros ?%elem_of_nil|]. intros (w & [-> ->]%Hone & [= <-]). done.
  - by intros i w tb [-> ->]%Hone [= <-].
  - by intros i j w w' [-> _]%Hone [-> _]%Hone.
Qed.

Lemma iunique_returns_witness :
  ∃ res c, iunique 16 65535 64 2 2 100 (2 ^ 32 - 1) one_hashed = Ok ((res, c), one_hashed) ∧ res = 101 ∧
    ∃ fuel res c, Z.of_nat fuel ≤ 2 ^ 32 ∧ iunique 16 65535 64 fuel 2 100 (2 ^ 32 - 1) one_hashed = Ok ((res, c), one_hashed) ∧ unused one_hashed 2 res.
Proof.
  exists 101, 102. split; [vm_compute; reflexivity|]. split; [reflexivity|].
  destruct (iunique_returns 16 65535 64 one_hashed 2 (Super true (Some 7) [50] [] 0 true) 7 100 (2 ^ 32 - 1) 101) as (f & r & c & Hf & Hr & _ & _ & Hu).
  - exact one_hashed_ok.
  - reflexivity.
  - reflexivity.
  - lia.
  - lia.
  - lia.
  - intros i v Hv _ _. cbn in Hv. apply lookup_singleton_Some in Hv as [_ <-]. done.
  - exists f, r, c. split; [exact Hf|]. split; [exact Hr|exact Hu].
Defined.
