(* ===== verification/PvfsDcache.v ===== *)
(** * Partitioned VFS: the dentry cache

    Models fs/dcache.c of the 3.8.2 tree where the partitioned VFS changes it: the hash table, the lock of the
    LRU list and the rename lock of a dentry are those of its super block when that is mounted from a loop
    device ([isloop]).  Modelled are [d_hash], [groupfs_get_dlru], [groupfs_get_rename], the LRU operations,
    allocation, hashing and unhashing, lookup, [d_delete], [dput] with [dentry_kill], shrinking
    ([shrink_dentry_list], [prune_dcache_sb], [shrink_dcache_sb]), [d_move] and the table made by
    [mount_fs].

    An operation runs by itself: locks of single dentries and inodes that the code tries are free, and a
    rename lock read around a lookup has not changed.  What a bucket lock protects is kept: unhashing returns
    the bucket whose lock it takes. *)
From S2P Require Import Prelude Interfaces StateMonad.

Definition DCACHE_OP_HASH : Z := 0x1.
Definition DCACHE_OP_COMPARE : Z := 0x2.
Definition DCACHE_OP_REVALIDATE : Z := 0x4.
Definition DCACHE_OP_DELETE : Z := 0x8.
Definition DCACHE_OP_PRUNE : Z := 0x10.
Definition DCACHE_DISCONNECTED : Z := 0x20.
Definition DCACHE_REFERENCED : Z := 0x40.
Definition DCACHE_RCUACCESS : Z := 0x80.
Definition DCACHE_CANT_MOUNT : Z := 0x100.
Definition DCACHE_SHRINK_LIST : Z := 0x400.
Definition DCACHE_DENTRY_KILLED : Z := 0x100000.
Definition DNAME_INLINE_LEN : Z := 32.

(** A bucket of a table, or the list of anonymous dentries of a super block. *)
Abbreviation dbucket := (Z * Z + Z)%type.
(** The LRU list of a super block, or a list on the stack of a function. *)
Abbreviation dlist := (Z + nat)%type.

(** [d_external]: the name is not stored in [d_iname]; [d_hashed], [d_lru], [d_alias]: where the dentry is
    linked. *)
Record dentry := Dentry {
  d_parent : Z; d_name : list Z; d_external : bool; d_hashval : Z;
  d_sb : Z; d_count : Z; d_flags : Z; d_seq : Z;
  d_inode : option Z; d_alias : bool;
  d_hashed : option dbucket; d_lru : option dlist; d_subdirs : list Z;
}.

Record dsuper := DSuper {
  ds_isloop : bool;
  ds_table : option Z;    (** [dentry_hashtable] of the super block *)
  ds_root : option Z;
  ds_nr_unused : Z;
  ds_op_flags : Z;        (** the [DCACHE_OP_] flags of the operations in [s_d_op] *)
}.

(** Address 0 is that of the global table; [dc_iputs]: the inodes [iput] was called for, the last first. *)
Record dcache := DCache {
  dc_objs : gmap Z dentry;
  dc_supers : gmap Z dsuper;
  dc_chains : gmap dbucket (list Z);
  dc_lists : gmap dlist (list Z);
  dc_nr_unused : Z;
  dc_nr_dentry : Z;
  dc_iputs : list Z;
}.

Abbreviation D := (ST dcache).

Definition dobj (i : Z) : D dentry := st_deref (λ s, dc_objs s !! i).
Definition set_dobj (i : Z) (f : dentry → dentry) : D () := st_modify (λ s, s <| dc_objs ::= alter f i |>).
Definition the_dsb (sb : Z) : D dsuper := st_deref (λ s, dc_supers s !! sb).
Definition set_dsb (sb : Z) (f : dsuper → dsuper) : D () := st_modify (λ s, s <| dc_supers ::= alter f sb |>).
Definition DBUG_ON (b : bool) : D () := if b then st_oops else mret ().

Definition dchain (s : dcache) (b : dbucket) : list Z := default [] (dc_chains s !! b).
Definition dlist_of (s : dcache) (r : dlist) : list Z := default [] (dc_lists s !! r).

(** ** Lists *)
Definition hlist_bl_add_head (i : Z) (b : dbucket) : D () :=
  _ ← st_modify (λ s, s <| dc_chains ::= <[b := i :: dchain s b]> |>); set_dobj i (λ v, v <| d_hashed := Some b |>).

Definition hlist_bl_del (i : Z) (b : dbucket) : D () :=
  _ ← st_modify (λ s, s <| dc_chains ::= <[b := filter (.≠ i) (dchain s b)]> |>); set_dobj i (λ v, v <| d_hashed := None |>).

Definition list_add (i : Z) (r : dlist) : D () :=
  _ ← st_modify (λ s, s <| dc_lists ::= <[r := i :: dlist_of s r]> |>); set_dobj i (λ v, v <| d_lru := Some r |>).

Definition list_add_tail (i : Z) (r : dlist) : D () :=
  _ ← st_modify (λ s, s <| dc_lists ::= <[r := dlist_of s r ++ [i]]> |>); set_dobj i (λ v, v <| d_lru := Some r |>).

Definition list_del_init (i : Z) : D () :=
  v ← dobj i;
  match d_lru v with
  | None => mret ()
  | Some r =>
      _ ← st_modify (λ s, s <| dc_lists ::= <[r := filter (.≠ i) (dlist_of s r)]> |>); set_dobj i (λ v, v <| d_lru := None |>)
  end.

Definition list_move (i : Z) (r : dlist) : D () := _ ← list_del_init i; list_add i r.
Definition list_move_tail (i : Z) (r : dlist) : D () := _ ← list_del_init i; list_add_tail i r.

(** All of list [r] is put at the head of list [r']. *)
Definition list_splice_init (r r' : dlist) : D () :=
  l ← st_get (λ s, dlist_of s r);
  _ ← st_modify (λ s, s <| dc_lists ::= λ m, <[r := []]> (<[r' := l ++ dlist_of s r']> m) |>);
  st_modify (λ s, s <| dc_objs ::= λ m, foldr (alter (λ v, v <| d_lru := Some r' |>)) m l |>).

(** ** Tables and locks *)
Inductive dlock := LruGlobal | LruSb (sb : Z) | RenameGlobal | RenameSb (sb : Z).

Definition groupfs_get_dlru (i : Z) : D dlock :=
  v ← dobj i; b ← the_dsb (d_sb v); mret (if ds_isloop b then LruSb (d_sb v) else LruGlobal).

Definition groupfs_get_rename (i : Z) : D dlock :=
  v ← dobj i; b ← the_dsb (d_sb v); mret (if ds_isloop b then RenameSb (d_sb v) else RenameGlobal).

Section dcache.
Variable d_hash_shift : Z.
Variable d_hash_mask : Z.
Variable L1_CACHE_BYTES : Z.
(** [d_op->d_compare] (true when the names differ) and [d_op->d_delete] of dentries that have them *)
Variable d_compare : list Z → list Z → bool.
Variable d_op_delete : dentry → bool.

Definition d_index (parent hash : Z) : Z :=
  let hash := wrapu 32 (hash + parent / L1_CACHE_BYTES) in
  let hash := wrapu 32 (hash + Z.shiftr hash d_hash_shift) in
  Z.land hash d_hash_mask.

Definition d_hash (parent hash : Z) : D dbucket :=
  v ← dobj parent; b ← the_dsb (d_sb v);
  if ds_isloop b then t ← st_lift (lift (ds_table b)); mret (inl (t, d_index parent hash))
  else mret (inl (0, d_index parent hash)).

Definition dentry_rcuwalk_barrier (i : Z) : D () := set_dobj i (λ v, v <| d_seq ::= λ n, wrapu 32 (n + 2) |>).
Definition write_seqcount (i : Z) : D () := set_dobj i (λ v, v <| d_seq ::= λ n, wrapu 32 (n + 1) |>).

(** ** The LRU list *)
Definition dentry_lru_add (i : Z) : D () :=
  v ← dobj i; _ ← groupfs_get_dlru i;
  match d_lru v with
  | Some _ => mret ()
  | None =>
      _ ← list_add i (inl (d_sb v));
      _ ← set_dsb (d_sb v) (λ b, b <| ds_nr_unused ::= Z.succ |>);
      st_modify (λ s, s <| dc_nr_unused ::= Z.succ |>)
  end.

Definition __dentry_lru_del (i : Z) : D () :=
  _ ← list_del_init i;
  _ ← set_dobj i (λ v, v <| d_flags ::= λ x, clear x DCACHE_SHRINK_LIST |>);
  v ← dobj i;
  _ ← set_dsb (d_sb v) (λ b, b <| ds_nr_unused ::= Z.pred |>);
  st_modify (λ s, s <| dc_nr_unused ::= Z.pred |>).

Definition dentry_lru_del (i : Z) : D () :=
  v ← dobj i; _ ← groupfs_get_dlru i;
  match d_lru v with None => mret () | Some _ => __dentry_lru_del i end.

(** [d_op->d_prune] only tells the file system. *)
Definition dentry_lru_prune (i : Z) : D () :=
  v ← dobj i; _ ← groupfs_get_dlru i;
  match d_lru v with None => mret () | Some _ => __dentry_lru_del i end.

Definition dentry_lru_move_list (i : Z) (r : dlist) : D () :=
  v ← dobj i; _ ← groupfs_get_dlru i;
  match d_lru v with
  | None =>
      _ ← list_add_tail i r;
      _ ← set_dsb (d_sb v) (λ b, b <| ds_nr_unused ::= Z.succ |>);
      st_modify (λ s, s <| dc_nr_unused ::= Z.succ |>)
  | Some _ => list_move_tail i r
  end.

(** ** Allocation *)
Definition d_set_d_op (b : dsuper) : Z :=
  Z.land (ds_op_flags b) (Z.lor (Z.lor DCACHE_OP_HASH DCACHE_OP_COMPARE) (Z.lor DCACHE_OP_REVALIDATE (Z.lor DCACHE_OP_DELETE DCACHE_OP_PRUNE))).

Definition __d_alloc (sb : Z) (name : list Z) (hash : Z) (addr : option Z) : D (option Z) :=
  match addr with
  | None => mret None
  | Some i =>
      let ext := DNAME_INLINE_LEN - 1 <? Z.of_nat (length name) in
      b ← the_dsb sb;
      _ ← st_modify (λ s, s <| dc_objs ::= <[i := Dentry i name ext hash sb 1 (d_set_d_op b) 0 None false None None []]> |>
        <| dc_nr_dentry ::= Z.succ |>);
      mret (Some i)
  end.

Definition __dget_dlock (i : Z) : D () := set_dobj i (λ v, v <| d_count ::= Z.succ |>).

Definition d_alloc (parent : Z) (name : list Z) (hash : Z) (addr : option Z) : D (option Z) :=
  vp ← dobj parent;
  r ← __d_alloc (d_sb vp) name hash addr;
  match r with
  | None => mret None
  | Some i =>
      _ ← __dget_dlock parent;
      _ ← set_dobj i (λ v, v <| d_parent := parent |>);
      _ ← set_dobj parent (λ v, v <| d_subdirs ::= cons i |>);
      mret (Some i)
  end.

Definition d_instantiate (i : Z) (inode : option Z) : D () :=
  v ← dobj i;
  _ ← DBUG_ON (d_alias v);
  _ ← set_dobj i (λ v, v <| d_alias := bool_decide (is_Some inode) |> <| d_inode := inode |>);
  dentry_rcuwalk_barrier i.

(** ** Hashing *)
Definition d_unhashed (v : dentry) : bool := match d_hashed v with None => true | Some _ => false end.
Definition IS_ROOT (i : Z) (v : dentry) : bool := d_parent v =? i.

(** The bucket is the one whose lock is held. *)
Definition __d_shrink (i : Z) : D (option dbucket) :=
  v ← dobj i;
  match d_hashed v with
  | None => mret None
  | Some b =>
      locked ← (if has (d_flags v) DCACHE_DISCONNECTED then mret (inr (d_sb v)) else d_hash (d_parent v) (d_hashval v));
      _ ← hlist_bl_del i b;
      mret (Some locked)
  end.

Definition __d_drop (i : Z) : D () :=
  v ← dobj i;
  if d_unhashed v then mret () else _ ← __d_shrink i; dentry_rcuwalk_barrier i.

Definition d_drop (i : Z) : D () := __d_drop i.

Definition __d_rehash (i : Z) (b : dbucket) : D () :=
  v ← dobj i;
  _ ← DBUG_ON (negb (d_unhashed v));
  _ ← set_dobj i (λ v, v <| d_flags ::= λ x, Z.lor x DCACHE_RCUACCESS |>);
  hlist_bl_add_head i b.

Definition d_rehash (i : Z) : D () := v ← dobj i; b ← d_hash (d_parent v) (d_hashval v); __d_rehash i b.

(** ** Lookup *)
Definition d_matches (parent : Z) (vp : dentry) (name : list Z) (hash : Z) (v : dentry) : bool :=
  (d_hashval v =? hash) && (d_parent v =? parent) && negb (d_unhashed v) &&
  (if has (d_flags vp) DCACHE_OP_COMPARE then negb (d_compare (d_name v) name)
   else bool_decide (length (d_name v) = length name) && bool_decide (d_name v = name)).

Fixpoint d_find (parent : Z) (vp : dentry) (name : list Z) (hash : Z) (l : list Z) : D (option Z) :=
  match l with
  | [] => mret None
  | i :: l =>
      v ← dobj i;
      if d_matches parent vp name hash v then _ ← __dget_dlock i; mret (Some i) else d_find parent vp name hash l
  end.

Definition __d_lookup (parent : Z) (name : list Z) (hash : Z) : D (option Z) :=
  b ← d_hash parent hash; vp ← dobj parent; l ← st_get (λ s, dchain s b); d_find parent vp name hash l.

Definition d_lookup (parent : Z) (name : list Z) (hash : Z) : D (option Z) :=
  _ ← groupfs_get_rename parent; __d_lookup parent name hash.

(** ** Freeing *)
Definition put_inode (ino : Z) : D () := st_modify (λ s, s <| dc_iputs ::= cons ino |>).

Definition dentry_iput (i : Z) : D () :=
  v ← dobj i;
  match d_inode v with
  | None => mret ()
  | Some ino => _ ← set_dobj i (λ v, v <| d_inode := None |> <| d_alias := false |>); put_inode ino
  end.

Definition dentry_unlink_inode (i : Z) (ino : Z) : D () :=
  _ ← set_dobj i (λ v, v <| d_inode := None |> <| d_alias := false |>);
  _ ← dentry_rcuwalk_barrier i;
  put_inode ino.

Definition d_free (i : Z) : D () :=
  v ← dobj i;
  _ ← DBUG_ON (negb (d_count v =? 0));
  st_modify (λ s, s <| dc_nr_dentry ::= Z.pred |> <| dc_objs ::= delete i |>).

(** [list_del (&dentry->d_u.d_child)] *)
Definition unlink_child (parent i : Z) : D () := set_dobj parent (λ v, v <| d_subdirs ::= filter (.≠ i) |>).

Definition d_kill (i : Z) (parent : option Z) : D (option Z) :=
  v ← dobj i;
  _ ← unlink_child (d_parent v) i;
  _ ← set_dobj i (λ v, v <| d_flags ::= λ x, Z.lor x DCACHE_DENTRY_KILLED |>);
  _ ← dentry_iput i;
  _ ← d_free i;
  mret parent.

Definition dentry_kill (i : Z) (ref : bool) : D (option Z) :=
  v ← dobj i;
  let parent := if IS_ROOT i v then None else Some (d_parent v) in
  _ ← (if ref then set_dobj i (λ v, v <| d_count ::= Z.pred |>) else mret ());
  _ ← dentry_lru_prune i;
  _ ← __d_drop i;
  d_kill i parent.

Fixpoint dput (fuel : nat) (i : Z) : D () :=
  match fuel with
  | O => λ _, NoFuel
  | S fuel =>
      v ← dobj i;
      _ ← DBUG_ON (d_count v =? 0);
      if 1 <? d_count v then set_dobj i (λ v, v <| d_count ::= Z.pred |>) else
      if (has (d_flags v) DCACHE_OP_DELETE && d_op_delete v) || d_unhashed v then
        r ← dentry_kill i true;
        match r with None => mret () | Some p => dput fuel p end
      else
        _ ← set_dobj i (λ v, v <| d_flags ::= λ x, Z.lor x DCACHE_REFERENCED |>);
        _ ← dentry_lru_add i;
        set_dobj i (λ v, v <| d_count ::= Z.pred |>)
  end.

Definition d_delete (i : Z) : D () :=
  v ← dobj i;
  ino ← st_lift (lift (d_inode v));
  if d_count v =? 1 then
    _ ← set_dobj i (λ v, v <| d_flags ::= λ x, clear x DCACHE_CANT_MOUNT |>);
    dentry_unlink_inode i ino
  else if d_unhashed v then mret () else __d_drop i.

(** ** Shrinking *)
Fixpoint prune_ancestors (fuel : nat) (i : Z) : D () :=
  match fuel with
  | O => λ _, NoFuel
  | S fuel =>
      v ← dobj i;
      if 1 <? d_count v then set_dobj i (λ v, v <| d_count ::= Z.pred |>) else
      r ← dentry_kill i true;
      match r with None => mret () | Some p => prune_ancestors fuel p end
  end.

Definition try_prune_one_dentry (fuel : nat) (i : Z) : D () :=
  r ← dentry_kill i false;
  match r with None => mret () | Some p => prune_ancestors fuel p end.

(** [depth]: fuel for the loop over ancestors. *)
Fixpoint shrink_dentry_list (depth fuel : nat) (r : dlist) : D () :=
  match fuel with
  | O => λ _, NoFuel
  | S fuel =>
      l ← st_get (λ s, dlist_of s r);
      match last l with
      | None => mret ()
      | Some i =>
          v ← dobj i;
          _ ← (if negb (d_count v =? 0) then dentry_lru_del i else try_prune_one_dentry depth i);
          shrink_dentry_list depth fuel r
      end
  end.

(** The lists [tmp] and [referenced] of [prune_dcache_sb], and [tmp] of [shrink_dcache_sb]. *)
Definition tmp_list : dlist := inr 0%nat.
Definition referenced_list : dlist := inr 1%nat.

Fixpoint prune_loop (fuel : nat) (sb count : Z) : D () :=
  match fuel with
  | O => λ _, NoFuel
  | S fuel =>
      l ← st_get (λ s, dlist_of s (inl sb));
      match last l with
      | None => mret ()
      | Some i =>
          v ← dobj i;
          _ ← DBUG_ON (negb (d_sb v =? sb));
          if has (d_flags v) DCACHE_REFERENCED then
            _ ← set_dobj i (λ v, v <| d_flags ::= λ x, clear x DCACHE_REFERENCED |>);
            _ ← list_move i referenced_list;
            prune_loop fuel sb count
          else
            _ ← list_move_tail i tmp_list;
            _ ← set_dobj i (λ v, v <| d_flags ::= λ x, Z.lor x DCACHE_SHRINK_LIST |>);
            if count - 1 =? 0 then mret () else prune_loop fuel sb (count - 1)
      end
  end.

(** [dentry]: what the variable holds that the function reads before it has assigned it. *)
Definition prune_dcache_sb (fuel : nat) (sb count : Z) (dentry : Z) : D () :=
  _ ← groupfs_get_dlru dentry;
  _ ← prune_loop fuel sb count;
  _ ← list_splice_init referenced_list (inl sb);
  shrink_dentry_list fuel fuel tmp_list.

Fixpoint shrink_loop (depth fuel : nat) (sb : Z) : D () :=
  match fuel with
  | O => λ _, NoFuel
  | S fuel =>
      l ← st_get (λ s, dlist_of s (inl sb));
      match l with
      | [] => mret ()
      | _ =>
          _ ← list_splice_init (inl sb) tmp_list;
          _ ← shrink_dentry_list depth depth tmp_list;
          shrink_loop depth fuel sb
      end
  end.

Definition shrink_dcache_sb (fuel : nat) (sb : Z) : D () :=
  b ← the_dsb sb;
  root ← st_lift (lift (ds_root b));
  _ ← groupfs_get_dlru root;
  shrink_loop fuel fuel sb.

(** ** Renaming *)
Fixpoint d_ancestor (fuel : nat) (p1 p : Z) : D (option Z) :=
  match fuel with
  | O => λ _, NoFuel
  | S fuel =>
      v ← dobj p;
      if IS_ROOT p v then mret None else
      if d_parent v =? p1 then mret (Some p) else d_ancestor fuel p1 (d_parent v)
  end.

(** Two names in the dentries are copied one way only. *)
Definition switch_names (i target : Z) : D () :=
  v ← dobj i; w ← dobj target;
  if negb (d_external w) && negb (d_external v) then set_dobj i (λ v, v <| d_name := d_name w |>)
  else
    _ ← set_dobj i (λ v, v <| d_name := d_name w |> <| d_external := d_external w |>);
    set_dobj target (λ w, w <| d_name := d_name v |> <| d_external := d_external v |>).

Definition swap_hash (i target : Z) : D () :=
  v ← dobj i; w ← dobj target;
  _ ← set_dobj i (λ v, v <| d_hashval := d_hashval w |>);
  set_dobj target (λ w, w <| d_hashval := d_hashval v |>).

Definition switch_parents (i target : Z) : D () :=
  v ← dobj i; w ← dobj target;
  _ ← (if IS_ROOT i v then
         _ ← set_dobj i (λ v, v <| d_parent := d_parent w |>);
         set_dobj target (λ w, w <| d_parent := target |>)
       else
         _ ← set_dobj i (λ v, v <| d_parent := d_parent w |>);
         _ ← set_dobj target (λ w, w <| d_parent := d_parent v |>);
         set_dobj (d_parent v) (λ p, p <| d_subdirs ::= cons target |>));
  set_dobj (d_parent w) (λ p, p <| d_subdirs ::= cons i |>).

Definition __d_move (fuel : nat) (i target : Z) : D () :=
  a1 ← d_ancestor fuel i target;
  _ ← DBUG_ON (bool_decide (is_Some a1));
  a2 ← d_ancestor fuel target i;
  _ ← DBUG_ON (bool_decide (is_Some a2));
  _ ← write_seqcount i;
  _ ← write_seqcount target;
  _ ← __d_drop i;
  w ← dobj target;
  b ← d_hash (d_parent w) (d_hashval w);
  _ ← __d_rehash i b;
  _ ← __d_drop target;
  v ← dobj i;
  _ ← unlink_child (d_parent v) i;
  _ ← unlink_child (d_parent w) target;
  _ ← switch_names i target;
  _ ← swap_hash i target;
  _ ← switch_parents i target;
  _ ← write_seqcount target;
  write_seqcount i.

Definition d_move (fuel : nat) (i target : Z) : D () := _ ← groupfs_get_rename i; __d_move fuel i target.

(** ** Mounting: the dentry table of [mount_fs] *)
Definition in_table (t : Z) (b : dbucket) : bool := match b with inl x => x.1 =? t | inr _ => false end.

Definition groupfs_dentry_hashtable (addr : option Z) : D Z :=
  t ← st_lift (lift addr);
  _ ← st_modify (λ s, s <| dc_chains ::= filter (λ x, in_table t x.1 = false) |>);
  mret t.

Definition mount_dentry_table (sb : Z) (addr : option Z) : D () :=
  t ← groupfs_dentry_hashtable addr; set_dsb sb (λ b, b <| ds_table := Some t |> <| ds_isloop := true |>).
End dcache.
