(* ===== verification/PvfsDtree.v ===== *)
(** * Partitioned VFS: the dentry cache is consistent

    The invariant of the operations of PvfsDcache.v, in four parts, each over the fields of dentries it is
    about: the tree of dentries with their reference counts, the hash chains, the LRU lists with the counters
    of super blocks, and the super blocks. *)
From S2P Require Import Prelude Interfaces StateMonad PvfsDcache.

(** ** Views of a dentry *)
Record tnode := TNode { t_parent : Z; t_sb : Z; t_subs : list Z; t_count : Z }.
Record hnode := HNode { h_at : option dbucket; h_anon : bool; h_sb : Z; h_parent : Z; h_val : Z }.

Definition tview (v : dentry) : tnode := TNode (d_parent v) (d_sb v) (d_subdirs v) (d_count v).
Definition hview (v : dentry) : hnode :=
  HNode (d_hashed v) (has (d_flags v) DCACHE_DISCONNECTED) (d_sb v) (d_parent v) (d_hashval v).
Definition lview (v : dentry) : option dlist * Z := (d_lru v, d_sb v).

Abbreviation tree s := (tview <$> dc_objs s).
Abbreviation hashes s := (hview <$> dc_objs s).
Abbreviation lrus s := (lview <$> dc_objs s).

(** ** The tree: [u i] is the number of references to dentry [i] that are held from outside *)
Record tree_ok (u : Z → Z) (T : gmap Z tnode) : Prop := {
  tr_parent i t : T !! i = Some t → ∃ p, T !! t_parent t = Some p ∧ t_sb p = t_sb t;
  tr_child i t c : T !! i = Some t → c ∈ t_subs t ↔ c ≠ i ∧ ∃ w, T !! c = Some w ∧ t_parent w = i;
  tr_nodup i t : T !! i = Some t → NoDup (t_subs t);
  tr_count i t : T !! i = Some t → t_count t = u i + Z.of_nat (length (t_subs t));
  tr_users i : 0 ≤ u i;
  tr_none i : T !! i = None → u i = 0;
}.

(** ** Chains: a hashed dentry is in the bucket it is looked for *)
Section hashing.
Variable d_hash_shift d_hash_mask L1_CACHE_BYTES : Z.

Abbreviation d_index := (d_index d_hash_shift d_hash_mask L1_CACHE_BYTES).
Abbreviation d_hash := (d_hash d_hash_shift d_hash_mask L1_CACHE_BYTES).

Definition dtable (S : gmap Z dsuper) (sb : Z) : option Z := b ← S !! sb; if ds_isloop b then ds_table b else Some 0.

Definition home (S : gmap Z dsuper) (h : hnode) : option dbucket :=
  if h_anon h then Some (inr (h_sb h)) else t ← dtable S (h_sb h); Some (inl (t, d_index (h_parent h) (h_val h))).

Record chains_ok (S : gmap Z dsuper) (H : gmap Z hnode) (C : dbucket → list Z) : Prop := {
  ch_chain b i : i ∈ C b ↔ ∃ h, H !! i = Some h ∧ h_at h = Some b;
  ch_home i h b : H !! i = Some h → h_at h = Some b → home S h = Some b;
}.

(** ** LRU lists *)
Definition unused_of (L : gmap Z (option dlist * Z)) (sb : Z) : gset Z :=
  dom (filter (λ x : Z * (option dlist * Z), is_Some x.2.1 ∧ x.2.2 = sb) L).

Record lists_ok (S : gmap Z dsuper) (L : gmap Z (option dlist * Z)) (R : dlist → list Z) : Prop := {
  li_list r i : i ∈ R r ↔ ∃ sb, L !! i = Some (Some r, sb);
  li_nodup r : NoDup (R r);
  li_sb i sb sb' : L !! i = Some (Some (inl sb), sb') → sb = sb';
  li_count sb b : S !! sb = Some b → ds_nr_unused b = Z.of_nat (size (unused_of L sb));
}.

Record dsupers_ok (S : gmap Z dsuper) (T : gmap Z tnode) : Prop := {
  su_table sb b : S !! sb = Some b → ds_isloop b = true → is_Some (ds_table b);
  su_obj i t : T !! i = Some t → is_Some (S !! t_sb t);
}.

Record wf (u : Z → Z) (s : dcache) : Prop := {
  wf_tree : tree_ok u (tree s);
  wf_chains : chains_ok (dc_supers s) (hashes s) (dchain s);
  wf_lists : lists_ok (dc_supers s) (lrus s) (dlist_of s);
  wf_supers : dsupers_ok (dc_supers s) (tree s);
}.

(** ** Views after an operation *)
Lemma view_same {A} (f : dentry → A) g i (m : gmap Z dentry) : (∀ v, m !! i = Some v → f (g v) = f v) → f <$> alter g i m = f <$> m.
Proof.
  intros Hg. apply map_eq. intros j. rewrite !lookup_fmap. destruct (decide (j = i)) as [->|Hne]; [|by rewrite lookup_alter_ne].
  rewrite lookup_alter_eq. destruct (m !! i) as [v|]; [|done]. cbn. by rewrite Hg.
Qed.

Lemma view_alter {A} (f : dentry → A) g h i (m : gmap Z dentry) : (∀ v, m !! i = Some v → f (g v) = h (f v)) → f <$> alter g i m = alter h i (f <$> m).
Proof.
  intros Hg. apply map_eq. intros j. rewrite lookup_fmap. destruct (decide (j = i)) as [->|Hne]; [|by rewrite !lookup_alter_ne, lookup_fmap].
  rewrite !lookup_alter_eq, lookup_fmap. destruct (m !! i) as [v|]; [|done]. cbn. by rewrite Hg.
Qed.

Lemma tree_lookup s i v : dc_objs s !! i = Some v → tree s !! i = Some (tview v).
Proof. intros E. by rewrite lookup_fmap, E. Qed.

Lemma hashes_lookup s i v : dc_objs s !! i = Some v → hashes s !! i = Some (hview v).
Proof. intros E. by rewrite lookup_fmap, E. Qed.

Lemma lrus_lookup s i v : dc_objs s !! i = Some v → lrus s !! i = Some (lview v).
Proof. intros E. by rewrite lookup_fmap, E. Qed.

Lemma wp_dobj i v Q s : dc_objs s !! i = Some v → Q v s → wp (dobj i) Q s.
Proof. intros E HQ. eapply wp_deref; [exact E|exact HQ]. Qed.

(** Super blocks differ in their counters only. *)
Definition same_tables (S S' : gmap Z dsuper) : Prop :=
  ∀ sb, (λ b, (ds_isloop b, ds_table b)) <$> S' !! sb = (λ b, (ds_isloop b, ds_table b)) <$> S !! sb.

Lemma same_dtable S S' sb : same_tables S S' → dtable S' sb = dtable S sb.
Proof.
  intros H. specialize (H sb). unfold dtable. destruct (S' !! sb) as [b'|], (S !! sb) as [b|]; try done. cbn in *. by injection H as -> ->.
Qed.

Lemma same_home S S' h : same_tables S S' → home S' h = home S h.
Proof. intros H. unfold home. by rewrite (same_dtable S S'). Qed.

Lemma same_tables_alter S sb f : (∀ b, ds_isloop (f b) = ds_isloop b ∧ ds_table (f b) = ds_table b) → same_tables S (alter f sb S).
Proof.
  intros Hf x. destruct (decide (x = sb)) as [->|Hne]; [|by rewrite lookup_alter_ne]. rewrite lookup_alter_eq.
  destruct (S !! sb) as [b|]; [|done]. cbn. by destruct (Hf b) as [-> ->].
Qed.

Lemma dsupers_ok_same S S' T : same_tables S S' → dsupers_ok S T → dsupers_ok S' T.
Proof.
  intros Hs [H1 H2]. split.
  - intros sb b Hb Hl. specialize (Hs sb). rewrite Hb in Hs. symmetry in Hs. apply fmap_Some in Hs as (b' & Hb' & [= E1 E2]).
    rewrite E2. apply (H1 sb); congruence.
  - intros i t Ht. destruct (H2 i t Ht) as [b Hb]. specialize (Hs (t_sb t)). rewrite Hb in Hs. by apply fmap_Some in Hs as (? & -> & _).
Qed.

Lemma chains_ok_same S S' H C : same_tables S S' → chains_ok S H C → chains_ok S' H C.
Proof. intros Hs [H1 H2]. split; [done|]. intros i h b. rewrite (same_home S S') by done. apply H2. Qed.

(** [d_hash] computes the home of a dentry. *)
Lemma wp_d_hash u s p vp hash (Q : dbucket → dcache → Prop) :
  wf u s → dc_objs s !! p = Some vp →
  (∀ t, dtable (dc_supers s) (d_sb vp) = Some t → Q (inl (t, d_index p hash)) s) → wp (d_hash p hash) Q s.
Proof.
  intros Hwf Hp HQ. unfold PvfsDcache.d_hash. apply wp_bind. eapply wp_dobj; [done|].
  destruct (su_obj _ _ (wf_supers _ _ Hwf) p (tview vp)) as [b Hb]; [by apply tree_lookup|]. cbn in Hb.
  apply wp_bind. eapply wp_deref; [exact Hb|]. unfold dtable in HQ. rewrite Hb in HQ. cbn in HQ.
  destruct (ds_isloop b) eqn:Hl.
  - destruct (su_table _ _ (wf_supers _ _ Hwf) _ b Hb Hl) as [t Ht]. apply wp_bind. eapply wp_lift; [by rewrite Ht|]. apply wp_ret. by apply HQ.
  - apply wp_ret. by apply HQ.
Qed.

Lemma wp_get_dlru u s i v (Q : dlock → dcache → Prop) :
  wf u s → dc_objs s !! i = Some v → (∀ l, Q l s) → wp (groupfs_get_dlru i) Q s.
Proof.
  intros Hwf Hi HQ. unfold groupfs_get_dlru. apply wp_bind. eapply wp_dobj; [done|].
  destruct (su_obj _ _ (wf_supers _ _ Hwf) i (tview v)) as [b Hb]; [by apply tree_lookup|].
  apply wp_bind. eapply wp_deref; [exact Hb|]. by apply wp_ret.
Qed.

(** ** Changes that no part of the invariant sees *)
Lemma wf_touch u u' s i v f :
  wf u s → dc_objs s !! i = Some v → hview (f v) = hview v → d_lru (f v) = d_lru v → d_parent (f v) = d_parent v → d_sb (f v) = d_sb v →
  d_subdirs (f v) = d_subdirs v → d_count (f v) - u' i = d_count v - u i → 0 ≤ u' i → (∀ j, j ≠ i → u' j = u j) →
  wf u' (s <| dc_objs ::= alter f i |>).
Proof.
  intros [[T1 T2 T3 T4 T5 T6] Hc Hl Hs] Hi Hh Hlru Hp Hsb Hsub Hcnt Hpos Hu.
  assert (hview <$> alter f i (dc_objs s) = hashes s) as EH by (apply view_same; intros w Hw; rewrite Hi in Hw; by injection Hw as <-).
  assert (lview <$> alter f i (dc_objs s) = lrus s) as EL.
  { apply view_same. intros w Hw. rewrite Hi in Hw. injection Hw as <-. unfold lview. by rewrite Hlru, Hsb. }
  assert (∀ j, ∃ n, (tview <$> alter f i (dc_objs s)) !! j = (λ t, TNode (t_parent t) (t_sb t) (t_subs t) (t_count t + n)) <$> tree s !! j ∧
    (is_Some (tree s !! j) → n = u' j - u j)) as ET.
  { intros j. destruct (decide (j = i)) as [->|Hne].
    - exists (d_count (f v) - d_count v). rewrite !lookup_fmap, lookup_alter_eq, Hi. cbn. unfold tview. rewrite Hp, Hsb, Hsub. split; [|lia].
      do 2 f_equal. lia.
    - exists 0. rewrite !lookup_fmap, lookup_alter_ne by done. rewrite Hu by done. split; [|lia].
      destruct (dc_objs s !! j) as [w|]; [|done]. cbn. unfold tview. cbn. do 2 f_equal. lia. }
  assert (∀ j t', (tview <$> alter f i (dc_objs s)) !! j = Some t' → ∃ t, tree s !! j = Some t ∧ t_parent t' = t_parent t ∧ t_sb t' = t_sb t ∧
    t_subs t' = t_subs t ∧ t_count t' = t_count t + (u' j - u j)) as Hback.
  { intros j t' Hj. destruct (ET j) as (n & E & Hn). rewrite E in Hj. apply fmap_Some in Hj as (t & Ht & ->). exists t. rewrite Hn by (by exists t). done. }
  assert (∀ j t, tree s !! j = Some t → ∃ t', (tview <$> alter f i (dc_objs s)) !! j = Some t' ∧ t_parent t' = t_parent t ∧ t_sb t' = t_sb t) as Hforth.
  { intros j t Hj. destruct (ET j) as (n & E & Hn). rewrite E, Hj. by eexists. }
  split; [change (tree_ok u' (tview <$> alter f i (dc_objs s)))
    |change (chains_ok (dc_supers s) (hview <$> alter f i (dc_objs s)) (dchain s)); by rewrite EH
    |change (lists_ok (dc_supers s) (lview <$> alter f i (dc_objs s)) (dlist_of s)); by rewrite EL
    |change (dsupers_ok (dc_supers s) (tview <$> alter f i (dc_objs s)))].
  - split.
    + intros j t' Hj. destruct (Hback j t' Hj) as (t & Ht & -> & -> & _). destruct (T1 j t Ht) as (p & Hp' & Ep).
      destruct (Hforth _ _ Hp') as (p' & Hp'' & _ & E). exists p'. split; [done|congruence].
    + intros j t' c Hj. destruct (Hback j t' Hj) as (t & Ht & _ & _ & -> & _). rewrite (T2 j t c Ht).
      apply and_iff_compat_l. split.
      * intros (w & Hw & <-). destruct (Hforth _ _ Hw) as (w' & ? & ? & _). by exists w'.
      * intros (w' & Hw' & <-). destruct (Hback _ _ Hw') as (w & ? & ? & _). by exists w.
    + intros j t' Hj. destruct (Hback j t' Hj) as (t & Ht & _ & _ & -> & _). by apply (T3 j).
    + intros j t' Hj. destruct (Hback j t' Hj) as (t & Ht & _ & _ & -> & ->). rewrite (T4 j t Ht). lia.
    + intros j. destruct (decide (j = i)) as [->|Hne]; [done|]. by rewrite Hu.
    + intros j Hj. destruct (decide (j = i)) as [->|Hne].
      * rewrite lookup_fmap, lookup_alter_eq, Hi in Hj. done.
      * rewrite Hu by done. apply T6. destruct (tree s !! j) eqn:E; [|done]. destruct (Hforth _ _ E) as (t' & Ht' & _). cbn in *. congruence.
  - split; [apply Hs|]. intros j t' Hj. destruct (Hback j t' Hj) as (t & Ht & _ & -> & _). by apply (su_obj _ _ Hs j).
Qed.
(** ** LRU lists of the abstract state *)
Lemma elem_of_unused L sb i : i ∈ unused_of L sb ↔ ∃ r, L !! i = Some (Some r, sb).
Proof.
  unfold unused_of. rewrite elem_of_dom. unfold is_Some at 1. setoid_rewrite map_lookup_filter_Some. split.
  - intros ([o x] & E & [r Hr] & Hx). cbn in *. subst. by exists r.
  - intros (r & E). exists (Some r, sb). split; [done|]. cbn. eauto.
Qed.

Lemma size_cons (X Y : gset Z) i : i ∉ X → (∀ j, j ∈ Y ↔ j = i ∨ j ∈ X) → size Y = S (size X).
Proof.
  intros Hi HY. replace Y with ({[i]} ∪ X) by set_solver. rewrite size_union by set_solver. by rewrite size_singleton.
Qed.

(** A dentry leaves its list. *)
Lemma lists_ok_del S L R R' i r sb :
  lists_ok S L R → L !! i = Some (Some r, sb) → (∀ x, R' x = if decide (x = r) then filter (.≠ i) (R r) else R x) →
  lists_ok (alter (λ b, b <| ds_nr_unused ::= Z.pred |>) sb S) (<[i := (None, sb)]> L) R'.
Proof.
  intros [H1 H2 H3 H4] Hi HR. split.
  - intros x j. rewrite HR. destruct (decide (j = i)) as [->|Hne].
    + rewrite lookup_insert_eq. split; [|by intros (? & [=])]. destruct (decide (x = r)) as [->|Hx].
      * by intros [? _]%list_elem_of_filter.
      * intros (sb' & E)%H1. congruence.
    + rewrite lookup_insert_ne by done. rewrite <- H1. destruct (decide (x = r)) as [->|]; [|done]. rewrite list_elem_of_filter. naive_solver.
  - intros x. rewrite HR. case_decide; [by apply NoDup_filter|done].
  - intros j x y. destruct (decide (j = i)) as [->|Hne]; [by rewrite lookup_insert_eq|rewrite lookup_insert_ne by done; apply H3].
  - assert (∀ x j, j ∈ unused_of (<[i := (None, sb)]> L) x ↔ j ≠ i ∧ j ∈ unused_of L x) as Hin.
    { intros x j. rewrite !elem_of_unused. destruct (decide (j = i)) as [->|Hne]; [rewrite lookup_insert_eq; naive_solver|].
      rewrite lookup_insert_ne by done. naive_solver. }
    intros x b Hb. destruct (decide (x = sb)) as [->|Hne].
    + rewrite lookup_alter_eq in Hb. destruct (S !! sb) as [b0|] eqn:E; [|done]. injection Hb as <-. cbn. rewrite (H4 sb b0 E).
      rewrite (size_cons (unused_of (<[i := (None, sb)]> L) sb) (unused_of L sb) i); [lia|rewrite Hin; naive_solver|].
      intros j. rewrite Hin. destruct (decide (j = i)) as [->|]; [|naive_solver]. rewrite elem_of_unused. naive_solver.
    + rewrite lookup_alter_ne in Hb by done. rewrite (H4 x b Hb). do 2 f_equal. apply set_eq. intros j. rewrite Hin.
      destruct (decide (j = i)) as [->|]; [|naive_solver]. rewrite elem_of_unused. naive_solver.
Qed.

(** A dentry that was on no list is put on one. *)
Lemma lists_ok_add S L R R' i r sb l :
  lists_ok S L R → L !! i = Some (None, sb) → (∀ x, R' x = if decide (x = r) then l else R x) → l ≡ₚ i :: R r → (∀ x, r = inl x → x = sb) →
  lists_ok (alter (λ b, b <| ds_nr_unused ::= Z.succ |>) sb S) (<[i := (Some r, sb)]> L) R'.
Proof.
  intros [H1 H2 H3 H4] Hi HR Hl Hr. split.
  - intros x j. rewrite HR. destruct (decide (j = i)) as [->|Hne].
    + rewrite lookup_insert_eq. split.
      * intros Hin. exists sb. destruct (decide (x = r)) as [->|Hx]; [done|]. apply H1 in Hin as (? & ?). congruence.
      * intros (? & [= -> _]). rewrite decide_True, Hl by done. by left.
    + rewrite lookup_insert_ne by done. rewrite <- H1. destruct (decide (x = r)) as [->|]; [|done]. rewrite Hl, elem_of_cons. naive_solver.
  - intros x. rewrite HR. case_decide; [|done]. rewrite Hl. constructor; [|done]. intros (? & ?)%H1. congruence.
  - intros j x y. destruct (decide (j = i)) as [->|Hne]; [rewrite lookup_insert_eq; intros [= E <-]; by apply Hr|].
    rewrite lookup_insert_ne by done. apply H3.
  - assert (∀ x j, j ∈ unused_of (<[i := (Some r, sb)]> L) x ↔ (j = i ∧ x = sb) ∨ j ∈ unused_of L x) as Hin.
    { intros x j. rewrite !elem_of_unused. destruct (decide (j = i)) as [->|Hne]; [rewrite lookup_insert_eq; naive_solver|].
      rewrite lookup_insert_ne by done. naive_solver. }
    intros x b Hb. destruct (decide (x = sb)) as [->|Hne].
    + rewrite lookup_alter_eq in Hb. destruct (S !! sb) as [b0|] eqn:E; [|done]. injection Hb as <-. cbn. rewrite (H4 sb b0 E).
      rewrite (size_cons (unused_of L sb) (unused_of (<[i := (Some r, sb)]> L) sb) i); [lia|rewrite elem_of_unused; naive_solver|].
      intros j. rewrite Hin. naive_solver.
    + rewrite lookup_alter_ne in Hb by done. rewrite (H4 x b Hb). do 2 f_equal. apply set_eq. intros j. rewrite Hin. naive_solver.
Qed.

Lemma dlist_insert s r l x : dlist_of (s <| dc_lists ::= <[r := l]> |>) x = if decide (x = r) then l else dlist_of s x.
Proof. unfold dlist_of. cbn. destruct (decide (x = r)) as [->|Hne]; [by rewrite lookup_insert_eq|by rewrite lookup_insert_ne]. Qed.

Lemma dchain_insert s b l x : dchain (s <| dc_chains ::= <[b := l]> |>) x = if decide (x = b) then l else dchain s x.
Proof. unfold dchain. cbn. destruct (decide (x = b)) as [->|Hne]; [by rewrite lookup_insert_eq|by rewrite lookup_insert_ne]. Qed.

Lemma alter_insert_lookup {A} (f : A → A) (m : gmap Z A) i v : m !! i = Some v → alter f i m = <[i := f v]> m.
Proof.
  intros Hi. apply map_eq. intros j. destruct (decide (j = i)) as [->|Hne]; [by rewrite lookup_alter_eq, lookup_insert_eq, Hi|].
  by rewrite lookup_alter_ne, lookup_insert_ne.
Qed.

(** What an operation on the LRU list of dentry [i] leaves alone. *)
Record lru_only (s s' : dcache) (i : Z) (v v' : dentry) : Prop := {
  lo_objs : dc_objs s' = <[i := v']> (dc_objs s);
  lo_tree : tview v' = tview v;
  lo_hash : hview v' = hview v;
  lo_chains : dc_chains s' = dc_chains s;
  lo_tables : same_tables (dc_supers s) (dc_supers s');
  lo_iputs : dc_iputs s' = dc_iputs s;
}.

Lemma wf_lru_only u s s' i v v' :
  wf u s → dc_objs s !! i = Some v → lru_only s s' i v v' → lists_ok (dc_supers s') (lrus s') (dlist_of s') → wf u s'.
Proof.
  intros [H1 H2 H3 H4] Hi [Ho Ht Hh Hc Htab _] Hl.
  assert (tree s' = tree s) as ET by (rewrite Ho, fmap_insert, Ht; apply insert_id; by apply tree_lookup).
  assert (hashes s' = hashes s) as EH by (rewrite Ho, fmap_insert, Hh; apply insert_id; by apply hashes_lookup).
  split; [by rewrite ET| |done|rewrite ET; by apply (dsupers_ok_same (dc_supers s))].
  rewrite EH. apply (chains_ok_same (dc_supers s)); [done|]. destruct H2 as [C1 C2]. split; [|done]. intros b j. rewrite <- C1. unfold dchain. by rewrite Hc.
Qed.

Lemma wp_lru_del_ u s i v r (Q : () → dcache → Prop) :
  wf u s → dc_objs s !! i = Some v → d_lru v = Some r →
  (∀ s' v', wf u s' → lru_only s s' i v v' → d_lru v' = None → d_count v' = d_count v → Q () s') → wp (__dentry_lru_del i) Q s.
Proof.
  intros Hwf Hi Hr HQ. unfold __dentry_lru_del, list_del_init. apply wp_bind, wp_bind. eapply wp_dobj; [done|]. rewrite Hr.
  apply wp_bind, wp_modify, wp_modify, wp_bind, wp_modify, wp_bind.
  set (v1 := v <| d_lru := None |> <| d_flags ::= λ x, clear x DCACHE_SHRINK_LIST |>).
  set (s1 := s <| dc_lists ::= <[r := filter (.≠ i) (dlist_of s r)]> |> <| dc_objs ::= _ |> <| dc_objs ::= _ |>).
  assert (dc_objs s1 = <[i := v1]> (dc_objs s)) as Ho.
  { cbn -[alter]. rewrite (alter_insert_lookup _ (dc_objs s) i v) by done. rewrite (alter_insert_lookup _ _ i _ (lookup_insert_eq _ _ _)). apply insert_insert_eq. }
  eapply wp_dobj; [rewrite Ho; apply lookup_insert_eq|]. apply wp_bind, wp_modify, wp_modify. change (d_sb v1) with (d_sb v).
  set (s2 := s1 <| dc_supers ::= _ |> <| dc_nr_unused ::= _ |>).
  assert (lru_only s s2 i v v1) as Hlo.
  { split; try done.
    - unfold hview. cbn. by rewrite has_clear.
    - by apply same_tables_alter. }
  apply (HQ s2 v1); try done. apply (wf_lru_only u s s2 i v v1); try done.
  change (dc_objs s2) with (dc_objs s1). rewrite Ho, fmap_insert. change (lview v1) with ((None : option dlist), d_sb v).
  apply (lists_ok_del (dc_supers s) (lrus s) (dlist_of s) (dlist_of s2) i r (d_sb v)); [apply Hwf| |].
  - rewrite (lrus_lookup s i v) by done. unfold lview. by rewrite Hr.
  - intros x. apply dlist_insert.
Qed.

Lemma wp_lru_prune u s i v (Q : () → dcache → Prop) :
  wf u s → dc_objs s !! i = Some v →
  (∀ s' v', wf u s' → lru_only s s' i v v' → d_lru v' = None → d_count v' = d_count v → Q () s') → wp (dentry_lru_prune i) Q s.
Proof.
  intros Hwf Hi HQ. unfold dentry_lru_prune. apply wp_bind. eapply wp_dobj; [done|]. apply wp_bind. apply (wp_get_dlru u s i v); [done|done|]. intros _.
  destruct (d_lru v) as [r|] eqn:Hr; [by apply (wp_lru_del_ u s i v r)|]. apply wp_ret, (HQ s v); try done.
  split; try done. by rewrite insert_id.
Qed.

Lemma wp_dlru_add u s i v (Q : () → dcache → Prop) :
  wf u s → dc_objs s !! i = Some v →
  (∀ s' v', wf u s' → lru_only s s' i v v' → d_count v' = d_count v → Q () s') → wp (dentry_lru_add i) Q s.
Proof.
  intros Hwf Hi HQ. unfold dentry_lru_add. apply wp_bind. eapply wp_dobj; [done|]. apply wp_bind. apply (wp_get_dlru u s i v); [done|done|]. intros _.
  destruct (d_lru v) as [r|] eqn:Hr.
  { apply wp_ret, (HQ s v); try done. split; try done. by rewrite insert_id. }
  unfold PvfsDcache.list_add. apply wp_bind, wp_bind, wp_modify, wp_modify, wp_bind, wp_modify, wp_modify.
  set (v1 := v <| d_lru := Some (inl (d_sb v)) |>). set (s2 := s <| dc_lists ::= _ |> <| dc_objs ::= _ |> <| dc_supers ::= _ |> <| dc_nr_unused ::= _ |>).
  assert (dc_objs s2 = <[i := v1]> (dc_objs s)) as Ho by (cbn -[alter]; by rewrite (alter_insert_lookup _ _ i v)).
  assert (lru_only s s2 i v v1) as Hlo by (split; try done; by apply same_tables_alter).
  apply (HQ s2 v1); try done. apply (wf_lru_only u s s2 i v v1); try done.
  rewrite Ho, fmap_insert. change (lview v1) with (Some (inl (d_sb v)) : option dlist, d_sb v).
  apply (lists_ok_add (dc_supers s) (lrus s) (dlist_of s) (dlist_of s2) i (inl (d_sb v)) (d_sb v) (i :: dlist_of s (inl (d_sb v)))); [apply Hwf| | |done|].
  - rewrite (lrus_lookup s i v) by done. unfold lview. by rewrite Hr.
  - intros x. apply dlist_insert.
  - by intros x [= ->].
Qed.
(** ** Chains *)
Lemma chains_ok_del S H C C' i h b :
  chains_ok S H C → H !! i = Some h → h_at h = Some b → (∀ x, C' x = if decide (x = b) then filter (.≠ i) (C b) else C x) →
  chains_ok S (<[i := HNode None (h_anon h) (h_sb h) (h_parent h) (h_val h)]> H) C'.
Proof.
  intros [H1 H2] Hi Hb HC. split.
  - intros x j. rewrite HC. destruct (decide (j = i)) as [->|Hne].
    + rewrite lookup_insert_eq. split; [|by intros (? & [= <-] & [=])]. destruct (decide (x = b)) as [->|Hx].
      * by intros [? _]%list_elem_of_filter.
      * intros (h' & E & E')%H1. congruence.
    + rewrite lookup_insert_ne by done. rewrite <- H1. destruct (decide (x = b)) as [->|]; [|done]. rewrite list_elem_of_filter. naive_solver.
  - intros j h' x. destruct (decide (j = i)) as [->|Hne]; [rewrite lookup_insert_eq; by intros [= <-] [=]|].
    rewrite lookup_insert_ne by done. apply H2.
Qed.

Lemma chains_ok_add S H C C' i h b :
  chains_ok S H C → H !! i = Some h → h_at h = None → home S h = Some b → (∀ x, C' x = if decide (x = b) then i :: C b else C x) →
  chains_ok S (<[i := HNode (Some b) (h_anon h) (h_sb h) (h_parent h) (h_val h)]> H) C'.
Proof.
  intros [H1 H2] Hi Hb Hh HC. split.
  - intros x j. rewrite HC. destruct (decide (j = i)) as [->|Hne].
    + rewrite lookup_insert_eq. split.
      * intros Hin. eexists. split; [done|]. cbn. destruct (decide (x = b)) as [->|]; [done|]. apply H1 in Hin as (h' & E & E'). congruence.
      * intros (? & [= <-] & [= ->]). rewrite decide_True by done. by left.
    + rewrite lookup_insert_ne by done. rewrite <- H1. destruct (decide (x = b)) as [->|]; [|done]. rewrite elem_of_cons. naive_solver.
  - intros j h' x. destruct (decide (j = i)) as [->|Hne]; [rewrite lookup_insert_eq; intros [= <-] [= <-]; by destruct h|].
    rewrite lookup_insert_ne by done. apply H2.
Qed.

(** What hashing and unhashing of dentry [i] leaves alone. *)
Record hash_only (s s' : dcache) (i : Z) (v v' : dentry) : Prop := {
  ho_objs : dc_objs s' = <[i := v']> (dc_objs s);
  ho_tree : tview v' = tview v;
  ho_lru : d_lru v' = d_lru v;
  ho_name : d_name v' = d_name v;
  ho_inode : d_inode v' = d_inode v;
  ho_lists : dc_lists s' = dc_lists s;
  ho_supers : dc_supers s' = dc_supers s;
}.

Lemma wf_hash_only u s s' i v v' :
  wf u s → dc_objs s !! i = Some v → hash_only s s' i v v' → chains_ok (dc_supers s) (hashes s') (dchain s') → wf u s'.
Proof.
  intros [H1 H2 H3 H4] Hi [Ho Ht Hl _ _ Hli Hs] Hc.
  assert (tree s' = tree s) as ET by (rewrite Ho, fmap_insert, Ht; apply insert_id; by apply tree_lookup).
  assert (lrus s' = lrus s) as EL.
  { rewrite Ho, fmap_insert. replace (lview v') with (lview v); [apply insert_id; by apply lrus_lookup|].
    injection Ht as _ E _ _. unfold lview. by rewrite Hl, E. }
  split; rewrite ?ET, ?EL, ?Hs; try done. destruct H3 as [L1 L2 L3 L4]. split; try done; intros r; unfold dlist_of; rewrite Hli; [apply L1|apply L2].
Qed.

(** Unhashing takes the lock of the bucket the dentry is in. *)
Lemma wp_shrink u s i v b (Q : option dbucket → dcache → Prop) :
  wf u s → dc_objs s !! i = Some v → d_hashed v = Some b →
  (∀ s' v', wf u s' → hash_only s s' i v v' → hview v' = HNode None (h_anon (hview v)) (d_sb v) (d_parent v) (d_hashval v) →
    (∀ x, dchain s' x = if decide (x = b) then filter (.≠ i) (dchain s b) else dchain s x) → Q (Some b) s') →
  wp (__d_shrink d_hash_shift d_hash_mask L1_CACHE_BYTES i) Q s.
Proof.
  intros Hwf Hi Hb HQ. unfold __d_shrink. apply wp_bind. eapply wp_dobj; [done|]. rewrite Hb.
  pose proof (ch_home _ _ _ (wf_chains _ _ Hwf) i (hview v) b (hashes_lookup s i v Hi) Hb) as Hhome. unfold home in Hhome. cbn in Hhome.
  assert (∀ x, x = b → wp (_ ← hlist_bl_del i b; mret (Some x)) Q s) as Hdel.
  { intros x ->. unfold hlist_bl_del. apply wp_bind, wp_bind, wp_modify, wp_modify, wp_ret.
    set (v1 := v <| d_hashed := None |>). set (s1 := s <| dc_chains ::= _ |> <| dc_objs ::= _ |>).
    assert (dc_objs s1 = <[i := v1]> (dc_objs s)) as Ho by (cbn -[alter]; by rewrite (alter_insert_lookup _ _ i v)).
    apply (HQ s1 v1); [|done|done|intros x; apply dchain_insert]. apply (wf_hash_only u s s1 i v v1); [done|done|done|].
    rewrite Ho, fmap_insert. apply (chains_ok_del (dc_supers s) (hashes s) (dchain s) (dchain s1) i (hview v) b); [apply Hwf|by apply hashes_lookup|done|].
    intros x. apply dchain_insert. }
  apply wp_bind. destruct (has (d_flags v) DCACHE_DISCONNECTED).
  - apply wp_ret, Hdel. by injection Hhome.
  - destruct (tr_parent _ _ (wf_tree _ _ Hwf) i (tview v)) as (tp & Htp & Esb); [by apply tree_lookup|]. cbn in Htp.
    rewrite lookup_fmap in Htp. apply fmap_Some in Htp as (vp & Hvp & ->). cbn in Esb.
    apply (wp_d_hash u s (d_parent v) vp); [done|done|]. intros t Ht. apply Hdel. rewrite Esb in Ht. rewrite Ht in Hhome. by injection Hhome.
Qed.

Lemma wp_drop u s i v (Q : () → dcache → Prop) :
  wf u s → dc_objs s !! i = Some v →
  (∀ s' v', wf u s' → hash_only s s' i v v' → hview v' = HNode None (h_anon (hview v)) (d_sb v) (d_parent v) (d_hashval v) →
    (∀ x, dchain s' x = filter (.≠ i) (dchain s x)) → Q () s') →
  wp (__d_drop d_hash_shift d_hash_mask L1_CACHE_BYTES i) Q s.
Proof.
  intros Hwf Hi HQ. unfold __d_drop. apply wp_bind. eapply wp_dobj; [done|]. unfold d_unhashed.
  assert (∀ b x, d_hashed v = b → Some x ≠ b → filter (.≠ i) (dchain s x) = dchain s x) as Hf.
  { intros b x Hb Hx. apply filter_notin_id. intros Hj.
    apply (ch_chain _ _ _ (wf_chains _ _ Hwf)) in Hj as (h & Hh & E). rewrite (hashes_lookup s i v Hi) in Hh. injection Hh as <-. cbn in E. congruence. }
  destruct (d_hashed v) as [b|] eqn:Hb.
  - apply wp_bind. apply (wp_shrink u s i v b); [done|done|done|]. intros s1 v1 Hwf1 Hho Hv1 Hc.
    apply wp_modify. set (f := λ w, w <| d_seq ::= _ |>). set (s2 := s1 <| dc_objs ::= alter f i |>).
    assert (dc_objs s1 !! i = Some v1) as Hi1 by (rewrite (ho_objs _ _ _ _ _ Hho); apply lookup_insert_eq).
    apply (HQ s2 (f v1)); [|destruct Hho as [Ho Ht Hl Hn Hin Hli Hs]; split; try done|done|].
    + apply (wf_touch u u s1 i v1 f); try done. by apply (tr_users _ _ (wf_tree _ _ Hwf)).
    + change (dc_objs s2) with (alter f i (dc_objs s1)). rewrite (alter_insert_lookup _ _ i v1) by done. rewrite Ho. apply insert_insert_eq.
    + intros x. change (dchain s2 x) with (dchain s1 x). rewrite Hc. case_decide as E; [by subst|]. symmetry. eapply Hf; [done|congruence].
  - apply wp_ret, (HQ s v); [done| | |].
    + split; try done. by rewrite insert_id.
    + unfold hview. by rewrite Hb.
    + intros x. symmetry. by apply (Hf None).
Qed.
(** ** Freeing a dentry *)
Definition drop_sub (i : Z) (t : tnode) : tnode := TNode (t_parent t) (t_sb t) (filter (.≠ i) (t_subs t)) (t_count t).

(** The reference a child had to its parent is left over. *)
Definition passed_on (u : Z → Z) (i p : Z) (j : Z) : Z := if decide (j = p ∧ p ≠ i) then u j + 1 else u j.

Lemma length_filter_one (l : list Z) i : NoDup l → i ∈ l → S (length (filter (.≠ i) l)) = length l.
Proof.
  induction l as [|j l IH]; [by intros _ ?%elem_of_nil|]. intros [Hj Hl]%NoDup_cons [->|Hi]%elem_of_cons; rewrite filter_cons.
  - rewrite decide_False by naive_solver. by rewrite filter_notin_id.
  - rewrite decide_True by (intros ->; done). cbn. by rewrite IH.
Qed.

Lemma tree_ok_delete u T i t :
  tree_ok u T → T !! i = Some t → t_subs t = [] → u i = 0 →
  tree_ok (passed_on u i (t_parent t)) (delete i (alter (drop_sub i) (t_parent t) T)).
Proof.
  intros [T1 T2 T3 T4 T5 T6] Hi Hsub Hu. set (p := t_parent t). set (T' := delete i (alter (drop_sub i) p T)).
  assert (∀ j, j ≠ i → T' !! j = (if decide (j = p) then drop_sub i else id) <$> T !! j) as HT.
  { intros j Hj. unfold T'. rewrite lookup_delete_ne by done. case_decide as E; [subst j; by rewrite lookup_alter_eq|].
    rewrite lookup_alter_ne by done. by destruct (T !! j). }
  assert (T' !! i = None) as HTi by apply lookup_delete_eq.
  assert (∀ j x, T' !! j = Some x → j ≠ i ∧ ∃ y, T !! j = Some y ∧ t_parent x = t_parent y ∧ t_sb x = t_sb y ∧ t_count x = t_count y ∧
    t_subs x = if decide (j = p) then filter (.≠ i) (t_subs y) else t_subs y) as Hback.
  { intros j x Hx. assert (j ≠ i) as Hj by (intros ->; congruence). split; [done|]. rewrite HT in Hx by done.
    apply fmap_Some in Hx as (y & Hy & ->). exists y. by case_decide. }
  assert (∀ j y, j ≠ i → T !! j = Some y → ∃ x, T' !! j = Some x ∧ t_parent x = t_parent y ∧ t_sb x = t_sb y) as Hforth.
  { intros j y Hj Hy. rewrite HT, Hy by done. eexists. split; [done|]. by case_decide. }
  split.
  - intros j x Hx. destruct (Hback j x Hx) as (Hj & y & Hy & -> & -> & _). destruct (T1 j y Hy) as (q & Hq & Esb).
    destruct (Hforth (t_parent y) q) as (q' & Hq' & _ & E); [|done|exists q'; split; [done|congruence]].
    intros E. assert (j ∈ t_subs t) as Hin by (apply (T2 i t j Hi); split; [done|]; by exists y). rewrite Hsub in Hin. by apply elem_of_nil in Hin.
  - intros j x c Hx. destruct (Hback j x Hx) as (Hj & y & Hy & _ & _ & _ & Esub).
    assert (c ∈ t_subs x ↔ c ≠ i ∧ c ∈ t_subs y) as ->.
    { rewrite Esub. case_decide as E; [by rewrite list_elem_of_filter|]. split; [|naive_solver]. intros Hin. split; [|done].
      intros ->. apply (T2 j y i Hy) in Hin as (_ & w & Hw & <-). rewrite Hi in Hw. by injection Hw as <-. }
    rewrite (T2 j y c Hy). split.
    + intros (Hc & Hcj & w & Hw & <-). split; [done|]. destruct (Hforth c w Hc Hw) as (w' & ? & ? & _). by exists w'.
    + intros (Hcj & w & Hw & <-). destruct (Hback c w Hw) as (Hc & w' & ? & ? & _). split_and!; try done. by exists w'.
  - intros j x Hx. destruct (Hback j x Hx) as (Hj & y & Hy & _ & _ & _ & ->). case_decide; [apply NoDup_filter|]; by apply (T3 j).
  - intros j x Hx. destruct (Hback j x Hx) as (Hj & y & Hy & _ & _ & -> & ->). rewrite (T4 j y Hy). unfold passed_on. fold p.
    destruct (decide (j = p)) as [->|Hne]; [|rewrite decide_False by naive_solver; done]. rewrite decide_True by done.
    rewrite <- (length_filter_one (t_subs y) i); [lia|by apply (T3 p)|]. apply (T2 p y i Hy). split; [done|]. by exists t.
  - intros j. unfold passed_on. specialize (T5 j). case_decide; lia.
  - intros j Hj. unfold passed_on. fold p. rewrite decide_False.
    + destruct (decide (j = i)) as [->|Hne]; [done|]. apply T6. destruct (T !! j) eqn:E; [|done]. destruct (Hforth j _ Hne E) as (? & ? & _). congruence.
    + intros [-> Hpi]. destruct (T1 i t Hi) as (q & Hq & _). destruct (Hforth p q Hpi Hq) as (? & ? & _). congruence.
Qed.

Lemma chains_ok_delete S H C i h : chains_ok S H C → H !! i = Some h → h_at h = None → chains_ok S (delete i H) C.
Proof.
  intros [H1 H2] Hi Hn. split.
  - intros b j. rewrite H1. destruct (decide (j = i)) as [->|Hne]; [rewrite lookup_delete_eq; naive_solver congruence|by rewrite lookup_delete_ne].
  - intros j h' b. rewrite lookup_delete_Some. intros [_ ?]. by apply (H2 j).
Qed.

Lemma lists_ok_delete S L R i sb : lists_ok S L R → L !! i = Some (None, sb) → lists_ok S (delete i L) R.
Proof.
  intros [H1 H2 H3 H4] Hi. split; [|done| |].
  - intros r j. rewrite H1. destruct (decide (j = i)) as [->|Hne]; [rewrite lookup_delete_eq; naive_solver congruence|by rewrite lookup_delete_ne].
  - intros j x y. rewrite lookup_delete_Some. intros [_ ?]. by apply (H3 j).
  - intros x b Hb. rewrite (H4 x b Hb). do 2 f_equal. apply set_eq. intros j. rewrite !elem_of_unused.
    destruct (decide (j = i)) as [->|Hne]; [rewrite lookup_delete_eq; naive_solver congruence|by rewrite lookup_delete_ne].
Qed.

Lemma dcache_ext (s s' : dcache) :
  dc_objs s = dc_objs s' → dc_supers s = dc_supers s' → dc_chains s = dc_chains s' → dc_lists s = dc_lists s' → dc_nr_unused s = dc_nr_unused s' →
  dc_nr_dentry s = dc_nr_dentry s' → dc_iputs s = dc_iputs s' → s = s'.
Proof. destruct s, s'. cbn. congruence. Qed.

Lemma wp_d_kill u s i v parent (Q : option Z → dcache → Prop) :
  wf u s → dc_objs s !! i = Some v → d_hashed v = None → d_lru v = None → d_count v = 0 → d_subdirs v = [] → u i = 0 →
  (∀ s', wf (passed_on u i (d_parent v)) s' → dom (dc_objs s') = dom (dc_objs s) ∖ {[i]} → lrus s' = delete i (lrus s) →
    dc_iputs s' = match d_inode v with Some ino => [ino] | None => [] end ++ dc_iputs s → Q parent s') →
  wp (d_kill i parent) Q s.
Proof.
  intros Hwf Hi Hh Hl Hc Hsub Hu HQ. unfold d_kill. apply wp_bind. eapply wp_dobj; [done|].
  set (p := d_parent v). set (m := alter (λ w, w <| d_subdirs ::= filter (.≠ i) |>) p (dc_objs s)).
  assert (∃ v1, m !! i = Some v1 ∧ d_count v1 = 0 ∧ d_inode v1 = d_inode v) as (v1 & Hv1 & Hc1 & Hin1).
  { destruct (decide (i = p)) as [E|Hne]; unfold m; [rewrite <- E, lookup_alter_eq, Hi|rewrite lookup_alter_ne, Hi by done]; by eexists. }
  set (s2 := s <| dc_objs := delete i m |> <| dc_nr_dentry ::= Z.pred |> <| dc_iputs := match d_inode v with Some ino => [ino] | None => [] end ++ dc_iputs s |>).
  assert (Q parent s2 → wp (_ ← unlink_child p i; _ ← set_dobj i (λ w, w <| d_flags ::= λ x, Z.lor x DCACHE_DENTRY_KILLED |>);
    _ ← dentry_iput i; _ ← d_free i; mret parent) Q s) as Hrun.
  { intros HQ2. unfold unlink_child, dentry_iput, d_free. apply wp_bind, wp_modify, wp_bind, wp_modify, wp_bind, wp_bind.
    eapply wp_dobj; [cbn -[alter]; rewrite lookup_alter_eq; fold m; by rewrite Hv1|]. cbn [d_inode]. change (d_inode (v1 <| d_flags ::= _ |>)) with (d_inode v1).
    rewrite Hin1. destruct (d_inode v) as [ino|] eqn:Ein.
    - apply wp_bind, wp_modify, wp_modify, wp_bind, wp_bind. eapply wp_dobj; [cbn -[alter]; rewrite !lookup_alter_eq; fold m; by rewrite Hv1|].
      cbn. rewrite Hc1. apply wp_bind, wp_ret, wp_modify, wp_ret. match goal with |- Q parent ?x => replace x with s2; [done|] end.
      apply dcache_ext; try done. cbn -[alter delete]. by rewrite !delete_alter_eq.
    - apply wp_ret, wp_bind, wp_bind. eapply wp_dobj; [cbn -[alter]; rewrite !lookup_alter_eq; fold m; by rewrite Hv1|].
      cbn. rewrite Hc1. apply wp_bind, wp_ret, wp_modify, wp_ret. match goal with |- Q parent ?x => replace x with s2; [done|] end.
      apply dcache_ext; try done. cbn -[alter delete]. by rewrite !delete_alter_eq. }
  apply Hrun. clear Hrun. destruct Hwf as [H1 H2 H3 H4].
  assert (tview <$> delete i m = delete i (alter (drop_sub i) p (tree s))) as ET by (rewrite fmap_delete; f_equal; by apply view_alter).
  assert (hview <$> delete i m = delete i (hashes s)) as EH by (rewrite fmap_delete; f_equal; by apply view_same).
  assert (lview <$> delete i m = delete i (lrus s)) as EL by (rewrite fmap_delete; f_equal; by apply view_same).
  apply HQ; [|unfold s2, m; cbn; by rewrite dom_delete_L, dom_alter_L|exact EL|done]. split.
  - change (tree_ok (passed_on u i p) (tview <$> delete i m)). rewrite ET.
    apply (tree_ok_delete u (tree s) i (tview v)); [done|by apply tree_lookup|done|done].
  - change (chains_ok (dc_supers s) (hview <$> delete i m) (dchain s)). rewrite EH. by apply (chains_ok_delete _ _ _ i (hview v)); [done|apply hashes_lookup|].
  - change (lists_ok (dc_supers s) (lview <$> delete i m) (dlist_of s)). rewrite EL. apply (lists_ok_delete _ _ _ i (d_sb v)); [done|].
    rewrite (lrus_lookup s i v) by done. unfold lview. by rewrite Hl.
  - change (dsupers_ok (dc_supers s) (tview <$> delete i m)). rewrite ET. destruct H4 as [S1 S2]. split; [done|]. intros j t.
    rewrite lookup_delete_Some. intros [_ Hj]. destruct (decide (j = p)) as [->|Hne].
    + rewrite lookup_alter_eq in Hj. apply fmap_Some in Hj as (y & Hy & ->). exact (S2 p y Hy).
    + rewrite lookup_alter_ne in Hj by done. by apply (S2 j).
Qed.
(** ** [dentry_kill] *)
Lemma wf_ext u u' s : (∀ j, u' j = u j) → wf u s → wf u' s.
Proof.
  intros Hu [[T1 T2 T3 T4 T5 T6] H2 H3 H4]. split; try done. split; try done; intros j; rewrite Hu; [apply T4|apply T5|apply T6].
Qed.

Lemma held_dentry u s i : wf u s → 0 < u i → ∃ v, dc_objs s !! i = Some v.
Proof.
  intros Hwf Hu. destruct (dc_objs s !! i) as [v|] eqn:E; [by exists v|]. pose proof (tr_none _ _ (wf_tree _ _ Hwf) i) as H.
  rewrite lookup_fmap, E in H. specialize (H eq_refl). lia.
Qed.

Lemma count_of u s i v : wf u s → dc_objs s !! i = Some v → d_count v = u i + Z.of_nat (length (d_subdirs v)).
Proof. intros Hwf Hi. exact (tr_count _ _ (wf_tree _ _ Hwf) i (tview v) (tree_lookup s i v Hi)). Qed.

(** The references after dentry [i] with its last reference is gone. *)
Definition after_kill (u : Z → Z) (i p : Z) (j : Z) : Z := if decide (j = i) then 0 else if decide (j = p) then u j + 1 else u j.

Lemma wp_dentry_kill u s i v (ref : bool) (Q : option Z → dcache → Prop) :
  wf u s → dc_objs s !! i = Some v → d_count v = Z.b2z ref → u i = Z.b2z ref →
  (∀ s', wf (after_kill u i (d_parent v)) s' → dom (dc_objs s') = dom (dc_objs s) ∖ {[i]} → lrus s' = delete i (lrus s) →
    Q (if d_parent v =? i then None else Some (d_parent v)) s') →
  wp (dentry_kill d_hash_shift d_hash_mask L1_CACHE_BYTES i ref) Q s.
Proof.
  intros Hwf Hi Hc Hu HQ. pose proof (count_of u s i v Hwf Hi) as Hcnt.
  assert (d_subdirs v = []) as Hsub by (apply length_zero_iff_nil; lia).
  set (u0 := λ j, if decide (j = i) then 0 else u j).
  unfold dentry_kill. apply wp_bind. eapply wp_dobj; [done|]. unfold IS_ROOT. cbn zeta. apply wp_bind.
  assert (∀ s1 v1, wf u0 s1 → dc_objs s1 = <[i := v1]> (dc_objs s) → d_count v1 = 0 → d_parent v1 = d_parent v → d_sb v1 = d_sb v →
    d_subdirs v1 = [] →
    wp (_ ← dentry_lru_prune i; _ ← __d_drop d_hash_shift d_hash_mask L1_CACHE_BYTES i; d_kill i (if d_parent v =? i then None else Some (d_parent v))) Q s1) as Hrest.
  { intros s1 v1 Hwf1 Ho1 Hc1 Hp1 Hsb1 Hsub1. assert (dc_objs s1 !! i = Some v1) as Hi1 by (rewrite Ho1; apply lookup_insert_eq).
    apply wp_bind. apply (wp_lru_prune u0 s1 i v1); [done|done|]. intros s2 v2 Hwf2 Hlo Hn2 Hc2.
    assert (dc_objs s2 !! i = Some v2) as Hi2 by (rewrite (lo_objs _ _ _ _ _ Hlo); apply lookup_insert_eq).
    apply wp_bind. apply (wp_drop u0 s2 i v2); [done|done|]. intros s3 v3 Hwf3 Hho Hv3 _.
    assert (dc_objs s3 !! i = Some v3) as Hi3 by (rewrite (ho_objs _ _ _ _ _ Hho); apply lookup_insert_eq).
    pose proof (lo_tree _ _ _ _ _ Hlo) as Et2. pose proof (ho_tree _ _ _ _ _ Hho) as Et3. injection Et2 as Ep2 Es2 Esub2 Ec2.
    injection Et3 as Ep3 Es3 Esub3 Ec3. injection Hv3 as Eh3 _ _ _ _.
    apply (wp_d_kill u0 s3 i v3); try done.
    - by rewrite (ho_lru _ _ _ _ _ Hho).
    - congruence.
    - congruence.
    - unfold u0. by rewrite decide_True.
    - intros s4 Hwf4 Hd4 Hl4 _. apply HQ.
      + revert Hwf4. apply wf_ext. intros j. unfold after_kill, passed_on, u0. rewrite Ep3, Ep2, Hp1.
        destruct (decide (j = i)) as [->|Hne]; [rewrite decide_False by naive_solver; done|].
        destruct (decide (j = d_parent v)) as [->|]; [rewrite decide_True by done; done|rewrite decide_False by naive_solver; done].
      + rewrite Hd4, (ho_objs _ _ _ _ _ Hho), (lo_objs _ _ _ _ _ Hlo), Ho1, !dom_insert_L.
        assert (i ∈ dom (dc_objs s)) by (apply elem_of_dom; by exists v). set_solver.
      + rewrite Hl4, (ho_objs _ _ _ _ _ Hho), (lo_objs _ _ _ _ _ Hlo), Ho1, !fmap_insert. by rewrite !delete_insert_eq. }
  destruct ref.
  - apply wp_modify. set (s1 := s <| dc_objs ::= _ |>).
    apply (Hrest s1 (v <| d_count ::= Z.pred |>)); try done; [| |cbn; rewrite Hc; done].
    + apply (wf_touch u u0 s i v (λ v, v <| d_count ::= Z.pred |>)); try done.
      * unfold u0. rewrite decide_True by done. cbn in Hc, Hu |- *. lia.
      * unfold u0. by rewrite decide_True.
      * intros j Hj. unfold u0. by rewrite decide_False.
    + cbn -[alter]. by rewrite (alter_insert_lookup _ _ i v).
  - apply wp_ret. apply (Hrest s v); try done; [|by rewrite insert_id].
    revert Hwf. apply wf_ext. intros j. unfold u0. case_decide; [by subst|done].
Qed.
Lemma size_killed (m m' : gmap Z dentry) i : is_Some (m !! i) → dom m' = dom m ∖ {[i]} → S (size m') = size m.
Proof.
  intros Hi Hd. rewrite <- !(size_dom (D := gset Z)), Hd. rewrite (size_cons (dom m ∖ {[i]}) (dom m) i); [done|set_solver|].
  intros j. apply elem_of_dom in Hi. destruct (decide (j = i)); set_solver.
Qed.

(** ** [dput] and the loops over ancestors *)
Definition less (u : Z → Z) (i j : Z) : Z := if decide (j = i) then u j - 1 else u j.

Lemma less_after_kill u i p j : u i = 1 → p ≠ i → less (after_kill u i p) p j = less u i j.
Proof.
  intros Hu Hp. unfold less, after_kill. repeat case_decide; subst; try done; lia.
Qed.

Lemma less_root u i j : u i = 1 → after_kill u i i j = less u i j.
Proof. intros Hu. unfold less, after_kill. repeat case_decide; subst; try done; lia. Qed.

(** A reference less. *)
Lemma wf_put u s i v f :
  wf u s → dc_objs s !! i = Some v → 0 < u i → hview (f v) = hview v → d_lru (f v) = d_lru v → tview (f v) = tview (v <| d_count ::= Z.pred |>) →
  wf (less u i) (s <| dc_objs ::= alter f i |>).
Proof.
  intros Hwf Hi Hu Hh Hl Ht. injection Ht as E1 E2 E3 E4. apply (wf_touch u (less u i) s i v f); try done; unfold less.
  - rewrite decide_True by done. cbn in E4. lia.
  - rewrite decide_True by done. lia.
  - intros j Hj. by rewrite decide_False.
Qed.

(** The dentries that are left have not moved from or to a list. *)
Definition lru_kept (s s' : dcache) : Prop := ∀ j x, lrus s' !! j = Some x → lrus s !! j = Some x.

Lemma lru_kept_delete s s' i : lrus s' = delete i (lrus s) → lru_kept s s'.
Proof. intros E j x. rewrite E, lookup_delete_Some. by intros [_ ?]. Qed.

Lemma prune_ancestors_ok n : ∀ s u i, wf u s → 0 < u i → (size (dc_objs s) ≤ n)%nat →
  wp (prune_ancestors d_hash_shift d_hash_mask L1_CACHE_BYTES (S n) i) (λ _ s', wf (less u i) s' ∧ lru_kept s s' ∧ dom (dc_objs s') ⊆ dom (dc_objs s)) s.
Proof.
  induction n as [|n IH]; intros s u i Hwf Hu Hn; destruct (held_dentry u s i Hwf Hu) as [v Hi].
  { apply Nat.le_0_r, map_size_empty_inv in Hn. rewrite Hn in Hi. done. }
  cbn [prune_ancestors]. apply wp_bind. eapply wp_dobj; [done|]. pose proof (count_of u s i v Hwf Hi) as Hcnt.
  destruct (Z.ltb_spec 1 (d_count v)) as [Hlt|Hge].
  - apply wp_modify. split; [by apply (wf_put u s i v)|]. split; [|cbn; by rewrite dom_alter_L].
    intros j x. change (lrus (s <| dc_objs ::= _ |>)) with (lview <$> alter (λ v, v <| d_count ::= Z.pred |>) i (dc_objs s)). by rewrite view_same.
  - apply wp_bind. apply (wp_dentry_kill u s i v true); [done|done|cbn; lia|cbn; lia|]. intros s1 Hwf1 Hd1 Hl1.
    assert (u i = 1) as Hu1 by lia. destruct (Z.eqb_spec (d_parent v) i) as [E|Hne].
    + apply wp_ret. split; [revert Hwf1; apply wf_ext; intros j; rewrite E; symmetry; by apply less_root|]. split; [by apply (lru_kept_delete s s1 i)|set_solver].
    + eapply wp_mono; [apply (IH s1 (after_kill u i (d_parent v)))|].
      * done.
      * unfold after_kill. rewrite decide_False, decide_True by done. pose proof (tr_users _ _ (wf_tree _ _ Hwf) (d_parent v)). lia.
      * pose proof (size_killed (dc_objs s) (dc_objs s1) i ltac:(by exists v) Hd1). lia.
      * intros [] s2 (Hwf2 & Hl2 & Hd2). split; [revert Hwf2; apply wf_ext; intros j; symmetry; by apply less_after_kill|].
        split; [|set_solver]. intros j x Hx. by apply (lru_kept_delete s s1 i), Hl2.
Qed.

Section put.
Variable d_op_delete : dentry → bool.
Abbreviation dput := (dput d_hash_shift d_hash_mask L1_CACHE_BYTES d_op_delete).

Lemma dput_ok n : ∀ s u i, wf u s → 0 < u i → (size (dc_objs s) ≤ n)%nat →
  wp (dput (S n) i) (λ _ s', wf (less u i) s' ∧ dom (dc_objs s') ⊆ dom (dc_objs s)) s.
Proof.
  induction n as [|n IH]; intros s u i Hwf Hu Hn; destruct (held_dentry u s i Hwf Hu) as [v Hi].
  { apply Nat.le_0_r, map_size_empty_inv in Hn. rewrite Hn in Hi. done. }
  cbn [PvfsDcache.dput]. apply wp_bind. eapply wp_dobj; [done|]. pose proof (count_of u s i v Hwf Hi) as Hcnt.
  apply wp_bind. destruct (Z.eqb_spec (d_count v) 0) as [|Hnz]; [lia|]. apply wp_ret. destruct (Z.ltb_spec 1 (d_count v)) as [Hlt|Hge].
  { apply wp_modify. split; [by apply (wf_put u s i v)|cbn; by rewrite dom_alter_L]. }
  assert (u i = 1) as Hu1 by lia. destruct (_ || _).
  - apply wp_bind. apply (wp_dentry_kill u s i v true); [done|done|cbn; lia|cbn; lia|]. intros s1 Hwf1 Hd1 Hl1.
    destruct (Z.eqb_spec (d_parent v) i) as [E|Hne].
    + apply wp_ret. split; [revert Hwf1; apply wf_ext; intros j; rewrite E; symmetry; by apply less_root|set_solver].
    + eapply wp_mono; [apply (IH s1 (after_kill u i (d_parent v)))|].
      * done.
      * unfold after_kill. rewrite decide_False, decide_True by done. pose proof (tr_users _ _ (wf_tree _ _ Hwf) (d_parent v)). lia.
      * pose proof (size_killed (dc_objs s) (dc_objs s1) i ltac:(by exists v) Hd1). lia.
      * intros [] s2 (Hwf2 & Hd2). split; [revert Hwf2; apply wf_ext; intros j; symmetry; by apply less_after_kill|set_solver].
  - apply wp_bind, wp_modify. set (f := λ v, v <| d_flags ::= _ |>). set (s1 := s <| dc_objs ::= alter f i |>).
    assert (wf u s1) as Hwf1.
    { apply (wf_touch u u s i v f); try done; [|lia]. unfold hview. cbn. rewrite has_lor_l. by rewrite orb_false_r. }
    assert (dc_objs s1 !! i = Some (f v)) as Hi1 by (cbn -[alter]; by rewrite lookup_alter_eq, Hi).
    apply wp_bind. apply (wp_dlru_add u s1 i (f v)); [done|done|]. intros s2 v2 Hwf2 Hlo Hc2.
    assert (dc_objs s2 !! i = Some v2) as Hi2 by (rewrite (lo_objs _ _ _ _ _ Hlo); apply lookup_insert_eq).
    apply wp_modify. split; [by apply (wf_put u s2 i v2)|]. cbn. rewrite dom_alter_L, (lo_objs _ _ _ _ _ Hlo), dom_insert_L. cbn.
    rewrite dom_alter_L. assert (i ∈ dom (dc_objs s)) by (apply elem_of_dom; by exists v). set_solver.
Qed.

(** C15: [dput] of a held reference returns, whatever the file systems' [d_delete] answers: the number of dentries and
    one more is enough fuel for the climb over ancestors that lose their last reference.  Afterwards exactly
    that reference is gone: counts equal the references held from outside and the children, chains, lists and
    counters agree with the dentries, and every dentry that is still referenced exists. *)
Theorem dput_drops_reference u s i n :
  wf u s → 0 < u i → (size (dc_objs s) ≤ n)%nat →
  ∃ s', dput (S n) i s = Ok ((), s') ∧ wf (less u i) s' ∧ dom (dc_objs s') ⊆ dom (dc_objs s) ∧
    (∀ j, 0 < less u i j → is_Some (dc_objs s' !! j)).
Proof.
  intros Hwf Hu Hn. destruct (dput_ok n s u i Hwf Hu Hn) as ([] & s' & Hr & Hwf' & Hd). exists s'. split_and!; try done.
  intros j Hj. destruct (held_dentry _ s' j Hwf' Hj) as [v Hv]. by exists v.
Qed.
End put.
(** ** Shrinking *)
Lemma on_list u s r j : wf u s → j ∈ dlist_of s r ↔ ∃ sb, lrus s !! j = Some (Some r, sb).
Proof. intros Hwf. apply (li_list _ _ _ (wf_lists _ _ Hwf)). Qed.

Lemma list_shorter u u' s s' r i :
  wf u s → wf u' s' → i ∈ dlist_of s r → i ∉ dlist_of s' r → dlist_of s' r ⊆ dlist_of s r → (length (dlist_of s' r) < length (dlist_of s r))%nat.
Proof.
  intros Hwf Hwf' Hi Hi' Hsub. change (length (i :: dlist_of s' r) ≤ length (dlist_of s r))%nat. apply submseteq_length, NoDup_submseteq.
  - constructor; [done|]. apply (li_nodup _ _ _ (wf_lists _ _ Hwf')).
  - intros j [->|Hj]%elem_of_cons; [done|by apply Hsub].
Qed.

(** Lists lose dentries only. *)
Definition lists_shrink (s s' : dcache) : Prop := ∀ r, dlist_of s' r ⊆ dlist_of s r.

Lemma kept_shrink u u' s s' : wf u s → wf u' s' → lru_kept s s' → lists_shrink s s'.
Proof. intros Hwf Hwf' Hk r j (sb & Hj)%(on_list u' s' r j Hwf'). apply (on_list u s r j Hwf). exists sb. by apply Hk. Qed.

Lemma try_prune_ok n s u i v :
  wf u s → dc_objs s !! i = Some v → d_count v = 0 → (size (dc_objs s) ≤ n)%nat →
  wp (try_prune_one_dentry d_hash_shift d_hash_mask L1_CACHE_BYTES (S n) i)
    (λ _ s', wf u s' ∧ lru_kept s s' ∧ lrus s' !! i = None ∧ dom (dc_objs s') ⊆ dom (dc_objs s)) s.
Proof.
  intros Hwf Hi Hc Hn. pose proof (count_of u s i v Hwf Hi) as Hcnt. pose proof (tr_users _ _ (wf_tree _ _ Hwf)) as Hpos.
  assert (u i = 0) as Hu by (specialize (Hpos i); lia). unfold try_prune_one_dentry. apply wp_bind.
  apply (wp_dentry_kill u s i v false); [done..|]. intros s1 Hwf1 Hd1 Hl1. pose proof (lru_kept_delete s s1 i Hl1) as Hk1.
  destruct (Z.eqb_spec (d_parent v) i) as [E|Hne].
  - apply wp_ret. split_and!; [|done|by rewrite Hl1, lookup_delete_eq|set_solver].
    revert Hwf1. apply wf_ext. intros j. rewrite E. unfold after_kill. repeat case_decide; subst; done.
  - eapply wp_mono; [apply (prune_ancestors_ok n s1 (after_kill u i (d_parent v)))|].
    + done.
    + unfold after_kill. rewrite decide_False, decide_True by done. specialize (Hpos (d_parent v)). lia.
    + pose proof (size_killed (dc_objs s) (dc_objs s1) i ltac:(by exists v) Hd1). lia.
    + intros [] s2 (Hwf2 & Hk2 & Hd2). split_and!.
      * revert Hwf2. apply wf_ext. intros j. unfold less, after_kill. repeat case_decide; subst; try done; lia.
      * intros j x Hx. by apply Hk1, Hk2.
      * destruct (lrus s2 !! i) as [x|] eqn:E; [|done]. apply Hk2 in E. by rewrite Hl1, lookup_delete_eq in E.
      * set_solver.
Qed.

Lemma lru_del_ok u s i v r :
  wf u s → dc_objs s !! i = Some v → d_lru v = Some r →
  wp (dentry_lru_del i) (λ _ s', wf u s' ∧ lists_shrink s s' ∧ (∀ x, i ∉ dlist_of s' x) ∧ dom (dc_objs s') = dom (dc_objs s)) s.
Proof.
  intros Hwf Hi Hr. unfold dentry_lru_del. apply wp_bind. eapply wp_dobj; [done|]. apply wp_bind. apply (wp_get_dlru u s i v); [done|done|]. intros _.
  rewrite Hr. apply (wp_lru_del_ u s i v r); [done..|]. intros s' v' Hwf' Hlo Hn _.
  assert (∀ x, i ∉ dlist_of s' x) as Hout.
  { intros x (sb & E)%(on_list u s' x i Hwf'). rewrite (lo_objs _ _ _ _ _ Hlo), fmap_insert, lookup_insert_eq in E. unfold lview in E. congruence. }
  split_and!; [done| |done|].
  - intros x j Hj. assert (j ≠ i) as Hne by (intros ->; by apply (Hout x)). apply (on_list u s' x j Hwf') in Hj as (sb & E). apply (on_list u s x j Hwf).
    exists sb. by rewrite (lo_objs _ _ _ _ _ Hlo), fmap_insert, lookup_insert_ne in E.
  - rewrite (lo_objs _ _ _ _ _ Hlo), dom_insert_L. assert (i ∈ dom (dc_objs s)) by (apply elem_of_dom; by exists v). set_solver.
Qed.

Lemma shrink_list_ok d n : ∀ s u r, wf u s → (size (dc_objs s) ≤ d)%nat → (length (dlist_of s r) ≤ n)%nat →
  wp (shrink_dentry_list d_hash_shift d_hash_mask L1_CACHE_BYTES (S d) (S n) r)
    (λ _ s', wf u s' ∧ dlist_of s' r = [] ∧ lists_shrink s s' ∧ dom (dc_objs s') ⊆ dom (dc_objs s)) s.
Proof.
  induction n as [|n IH]; intros s u r Hwf Hd Hn; cbn [shrink_dentry_list]; apply wp_bind, wp_get.
  { apply Nat.le_0_r, nil_length_inv in Hn. rewrite Hn. apply wp_ret. by split_and!; [|rewrite Hn|intros x j|]. }
  destruct (last (dlist_of s r)) as [i|] eqn:El; [|apply last_None in El; apply wp_ret; by split_and!; [| |intros x j|]].
  assert (i ∈ dlist_of s r) as Hin by (apply last_Some in El as [l' ->]; set_solver).
  pose proof Hin as (sb & Ei)%(on_list u s r i Hwf). rewrite lookup_fmap in Ei. apply fmap_Some in Ei as (v & Hi & Ev). injection Ev as Ev _.
  apply wp_bind. eapply wp_dobj; [done|]. apply wp_bind.
  assert (∀ s', (wf u s' ∧ lists_shrink s s' ∧ (i ∉ dlist_of s' r) ∧ dom (dc_objs s') ⊆ dom (dc_objs s)) →
    wp (shrink_dentry_list d_hash_shift d_hash_mask L1_CACHE_BYTES (S d) (S n) r)
      (λ _ s', wf u s' ∧ dlist_of s' r = [] ∧ lists_shrink s s' ∧ dom (dc_objs s') ⊆ dom (dc_objs s)) s') as Hnext.
  { intros s1 (Hwf1 & Hs1 & Hout & Hd1). pose proof (list_shorter u u s s1 r i Hwf Hwf1 Hin Hout (Hs1 r)).
    eapply wp_mono; [apply (IH s1 u); [done| |lia]|].
    - transitivity (size (dc_objs s)); [|done]. rewrite <- !(size_dom (D := gset Z)). by apply subseteq_size.
    - intros [] s2 (? & ? & Hs2 & ?). split_and!; [done|done| |set_solver]. intros x j Hj. by apply Hs1, Hs2. }
  destruct (Z.eqb_spec (d_count v) 0) as [Hz|Hz]; cbn [negb].
  - eapply wp_mono; [by apply (try_prune_ok d s u i v)|]. intros [] s1 (Hwf1 & Hk1 & Hn1 & Hd1). apply Hnext. split_and!; try done.
    + by apply (kept_shrink u u).
    + intros (x & E)%(on_list u s1 r i Hwf1). congruence.
  - eapply wp_mono; [by apply (lru_del_ok u s i v r)|]. intros [] s1 (Hwf1 & Hs1 & Hout & Hd1). apply Hnext. split_and!; try done. by rewrite Hd1.
Qed.
(** The whole list of a super block moves to a list of a function. *)
Lemma lookup_foldr_alter (f : dentry → dentry) l (m : gmap Z dentry) j :
  NoDup l → foldr (alter f) m l !! j = (if decide (j ∈ l) then f else id) <$> m !! j.
Proof.
  induction l as [|i l IH]; intros Hl; cbn [foldr].
  { rewrite decide_False by (by intros ?%elem_of_nil). by destruct (m !! j). }
  apply NoDup_cons in Hl as [Hi Hl]. destruct (decide (j = i)) as [->|Hne].
  - rewrite lookup_alter_eq, IH, decide_False by done. rewrite decide_True by (by left). by destruct (m !! i).
  - rewrite lookup_alter_ne, IH by done. destruct (decide (j ∈ l)); [rewrite decide_True by (by right)|rewrite decide_False by set_solver]; done.
Qed.

Lemma lists_ok_splice S L L' R R' r n :
  lists_ok S L R → R (inr n) = [] → r ≠ inr n →
  (∀ j, L' !! j = (λ x, (if decide (j ∈ R r) then Some (inr n) else x.1, x.2)) <$> L !! j) →
  (∀ x, R' x = if decide (x = r) then [] else if decide (x = inr n) then R r else R x) → lists_ok S L' R'.
Proof.
  intros [H1 H2 H3 H4] Hn Hr HL HR. split.
  - intros x j. rewrite HR, HL. destruct (decide (j ∈ R r)) as [Hj|Hj].
    + pose proof Hj as (sb & E)%H1. rewrite E. cbn. destruct (decide (x = r)) as [->|Hx]; [split; [by intros ?%elem_of_nil|by intros (? & [= ])]|].
      destruct (decide (x = inr n)) as [->|Hx']; [split; [by exists sb|done]|]. rewrite H1. split; intros (? & ?); congruence.
    + assert ((∃ sb, (λ x, (x.1, x.2)) <$> L !! j = Some (Some x, sb)) ↔ j ∈ R x) as ->.
      { rewrite H1. destruct (L !! j) as [[]|]; cbn; naive_solver. }
      destruct (decide (x = r)) as [->|Hx]; [split; [by intros ?%elem_of_nil|done]|].
      destruct (decide (x = inr n)) as [->|Hx']; [rewrite Hn; split; [done|by intros ?%elem_of_nil]|done].
  - intros x. rewrite HR. repeat case_decide; [constructor|done..].
  - intros j x y. rewrite HL. destruct (L !! j) as [[o z]|] eqn:E; [|done]. cbn. case_decide; [by intros [= ]|]. intros [= -> ->]. by eapply H3.
  - intros x b Hb. rewrite (H4 x b Hb). do 2 f_equal. apply set_eq. intros j. rewrite !elem_of_unused, HL.
    destruct (decide (j ∈ R r)) as [(sb & E)%H1|Hj]; [rewrite E; cbn; naive_solver|]. destruct (L !! j) as [[]|]; cbn; naive_solver.
Qed.

Lemma wp_splice u s r n (Q : () → dcache → Prop) :
  wf u s → dlist_of s (inr n) = [] → r ≠ inr n →
  (∀ s', wf u s' → dom (dc_objs s') = dom (dc_objs s) →
    (∀ x, dlist_of s' x = if decide (x = r) then [] else if decide (x = inr n) then dlist_of s r else dlist_of s x) → Q () s') →
  wp (list_splice_init r (inr n)) Q s.
Proof.
  intros Hwf Hn Hr HQ. unfold list_splice_init. apply wp_bind, wp_get, wp_bind, wp_modify, wp_modify.
  set (f := λ v, v <| d_lru := Some (inr n) |>). set (s' := s <| dc_lists ::= _ |> <| dc_objs ::= _ |>).
  pose proof (li_nodup _ _ _ (wf_lists _ _ Hwf) r) as Hnd.
  assert (∀ j, dc_objs s' !! j = (if decide (j ∈ dlist_of s r) then f else id) <$> dc_objs s !! j) as Ho by (intros j; by apply lookup_foldr_alter).
  assert (∀ {A} (g : dentry → A), (∀ v, g (f v) = g v) → g <$> dc_objs s' = g <$> dc_objs s) as Hsame.
  { intros A g Hg. apply map_eq. intros j. rewrite !lookup_fmap, Ho. destruct (dc_objs s !! j); [|done]. cbn. case_decide; cbn; by rewrite ?Hg. }
  assert (∀ x, dlist_of s' x = if decide (x = r) then [] else if decide (x = inr n) then dlist_of s r else dlist_of s x) as Hlists.
  { intros x. unfold dlist_of at 1. cbn. destruct (decide (x = r)) as [->|Hx]; [by rewrite lookup_insert_eq|].
    rewrite lookup_insert_ne by done. destruct (decide (x = inr n)) as [->|Hx']; [rewrite lookup_insert_eq; cbn; by rewrite Hn, app_nil_r|by rewrite lookup_insert_ne]. }
  apply HQ; [|apply set_eq; intros j; rewrite !elem_of_dom, Ho; by rewrite fmap_is_Some|done]. destruct Hwf as [H1 H2 H3 H4]. split.
  - by rewrite Hsame.
  - by rewrite (Hsame _ hview).
  - apply (lists_ok_splice (dc_supers s) (lrus s) (lrus s') (dlist_of s) (dlist_of s') r n); try done.
    intros j. rewrite !lookup_fmap, Ho. destruct (dc_objs s !! j); [|done]. cbn. by case_decide.
  - by rewrite Hsame.
Qed.

(** C25: [shrink_dcache_sb] ends and leaves the LRU list of the super block empty: dentries on it that are in use are
    only taken off, the others are freed together with the ancestors that lose their last reference; no
    reference count, chain, list or counter goes wrong, no dentry that is referenced from outside is freed, and
    with no other shrinker under way the counter of unused dentries of the super block ends at zero.  The
    number of dentries and one more is enough fuel. *)
Theorem shrink_dcache_sb_empties u s sb b root n :
  wf u s → dc_supers s !! sb = Some b → ds_root b = Some root → 0 < u root → (∀ m, dlist_of s (inr m) = []) →
  (size (dc_objs s) < n)%nat →
  ∃ s', shrink_dcache_sb d_hash_shift d_hash_mask L1_CACHE_BYTES (S n) sb s = Ok ((), s') ∧ wf u s' ∧ dlist_of s' (inl sb) = [] ∧
    (∀ i, 0 < u i → is_Some (dc_objs s' !! i)) ∧
    (∀ b', dc_supers s' !! sb = Some b' → ds_nr_unused b' = 0).
Proof.
  intros Hwf Hb Hroot Hu Hpriv Hn.
  assert (∀ s', wf u s' → dlist_of s' (inl sb) = [] → (∀ m, dlist_of s' (inr m) = []) →
    wf u s' ∧ dlist_of s' (inl sb) = [] ∧ (∀ i, 0 < u i → is_Some (dc_objs s' !! i)) ∧ (∀ b', dc_supers s' !! sb = Some b' → ds_nr_unused b' = 0)) as Hend.
  { intros s' Hwf' He Hp. split_and!; [done|done| |].
    - intros i Hi. destruct (held_dentry u s' i Hwf' Hi) as [v Hv]. by exists v.
    - intros b' Hb'. rewrite (li_count _ _ _ (wf_lists _ _ Hwf') sb b' Hb'). replace (unused_of (lrus s') sb) with (∅ : gset Z); [by rewrite size_empty|].
      symmetry. apply set_eq. intros j. split; [|set_solver]. intros (r & Hj)%elem_of_unused.
      assert (j ∈ dlist_of s' r) as Hin by (apply (on_list u s' r j Hwf'); by exists sb). destruct r as [x|m]; [|rewrite Hp in Hin; set_solver].
      rewrite (li_sb _ _ _ (wf_lists _ _ Hwf') j x sb Hj) in Hin. rewrite He in Hin. set_solver. }
  assert (wp (shrink_dcache_sb d_hash_shift d_hash_mask L1_CACHE_BYTES (S n) sb) (λ _ s', wf u s' ∧ dlist_of s' (inl sb) = [] ∧
    (∀ i, 0 < u i → is_Some (dc_objs s' !! i)) ∧ (∀ b', dc_supers s' !! sb = Some b' → ds_nr_unused b' = 0)) s) as ([] & s' & H); [|by exists s'].
  unfold shrink_dcache_sb. apply wp_bind. eapply wp_deref; [exact Hb|]. apply wp_bind. eapply wp_lift; [by rewrite Hroot|].
  destruct (held_dentry u s root Hwf Hu) as [vr Hvr]. apply wp_bind. apply (wp_get_dlru u s root vr); [done|done|]. intros _.
  cbn [shrink_loop]. apply wp_bind, wp_get. destruct (dlist_of s (inl sb)) as [|i l] eqn:El; [by apply wp_ret, Hend|].
  apply wp_bind. apply (wp_splice u s (inl sb) 0); [done|apply Hpriv|done|]. intros s1 Hwf1 Hd1 Hl1.
  assert (size (dc_objs s1) = size (dc_objs s)) as Hsz by (rewrite <- !(size_dom (D := gset Z)); by rewrite Hd1).
  apply wp_bind. eapply wp_mono; [apply (shrink_list_ok n n s1 u tmp_list); [done|lia|]|].
  { assert (dlist_of s1 tmp_list ⊆+ elements (dom (dc_objs s1))) as Hsub.
    { apply NoDup_submseteq; [apply (li_nodup _ _ _ (wf_lists _ _ Hwf1))|]. intros j (x & Hj)%(on_list u s1 _ j Hwf1).
      apply elem_of_elements, elem_of_dom. rewrite lookup_fmap in Hj. by apply fmap_Some in Hj as (v & -> & _). }
    apply submseteq_length in Hsub. change (length (elements (dom (dc_objs s1)))) with (size (dom (dc_objs s1))) in Hsub. rewrite size_dom in Hsub. lia. }
  intros [] s2 (Hwf2 & Htmp & Hs2 & _).
  assert (∀ x, dlist_of s1 x = [] → dlist_of s2 x = []) as Hstay.
  { intros x E. apply elem_of_nil_inv. intros j Hj%Hs2. rewrite E in Hj. by apply elem_of_nil in Hj. }
  assert (dlist_of s2 (inl sb) = []) as He by (apply Hstay; by rewrite Hl1, decide_True).
  destruct n as [|n]; [lia|]. cbn [shrink_loop]. apply wp_bind, wp_get. rewrite He. apply wp_ret, Hend; [done|done|].
  intros m. destruct (decide (m = 0%nat)) as [->|Hm]; [exact Htmp|]. apply Hstay. rewrite Hl1, decide_False by done. rewrite decide_False by congruence. apply Hpriv.
Qed.
End hashing.
