(* ===== verification/PvfsDmove.v ===== *)
(** * Partitioned VFS: renaming and mounting in the dentry cache

    [d_move] keeps the dentry cache consistent and makes the dentry the one found under the new name; what
    [mount_fs] does to dentries that are already hashed; the uninitialised pointer of [prune_dcache_sb]; the
    global counter of unused dentries, which the locks of super blocks do not protect. *)
From S2P Require Import Prelude Interfaces StateMonad PvfsDcache PvfsDtree.

(** ** The tree after two dentries have exchanged their places *)
Section swap.
Context (u : Z → Z) (T T' : gmap Z tnode) (i t pi pt : Z) (ti tt : tnode).
Context (ok : tree_ok u T) (Hi : T !! i = Some ti) (Ht : T !! t = Some tt) (Hit : i ≠ t).
Context (Epi : t_parent ti = pi) (Ept : t_parent tt = pt) (Npi : pi ≠ i ∧ pi ≠ t) (Npt : pt ≠ i ∧ pt ≠ t) (Esb : t_sb ti = t_sb tt).

(** The children of [j] afterwards. *)
Definition swapped_subs (j : Z) (l : list Z) : list Z :=
  let l := if decide (j = pi) then filter (.≠ i) l else l in
  let l := if decide (j = pt) then filter (.≠ t) l else l in
  let l := if decide (j = pi) then t :: l else l in
  if decide (j = pt) then i :: l else l.

Definition swapped (j : Z) (n : tnode) : tnode :=
  TNode (if decide (j = i) then pt else if decide (j = t) then pi else t_parent n) (t_sb n) (swapped_subs j (t_subs n)) (t_count n).

Context (HT : ∀ j, T' !! j = swapped j <$> T !! j).

Lemma child_of c j n w : T !! j = Some n → T !! c = Some w → t_parent w = j → c ≠ j → c ∈ t_subs n.
Proof using ok. intros Hj Hc Hp Hne. apply (tr_child _ _ ok j n c Hj). split; [done|]. by exists w. Qed.

Lemma in_subs j n : T !! j = Some n → (i ∈ t_subs n ↔ j = pi) ∧ (t ∈ t_subs n ↔ j = pt).
Proof using ok Hi Ht Epi Ept Npi Npt.
  intros Hj. rewrite !(tr_child _ _ ok j n _ Hj). split; split.
  - intros (_ & w & Hw & <-). congruence.
  - intros ->. split; [naive_solver|]. by exists ti.
  - intros (_ & w & Hw & <-). congruence.
  - intros ->. split; [naive_solver|]. by exists tt.
Qed.

Lemma swapped_subs_spec j n : T !! j = Some n →
  NoDup (swapped_subs j (t_subs n)) ∧ length (swapped_subs j (t_subs n)) = length (t_subs n) ∧
  ∀ c, c ∈ swapped_subs j (t_subs n) ↔ (c ≠ i ∧ c ≠ t ∧ c ∈ t_subs n) ∨ (c = i ∧ j = pt) ∨ (c = t ∧ j = pi).
Proof using ok Hi Ht Epi Ept Npi Npt Hit.
  intros Hj. destruct (in_subs j n Hj) as [Hini Hint]. pose proof (tr_nodup _ _ ok j n Hj) as Hnd. unfold swapped_subs.
  destruct (decide (j = pi)) as [E1|E1], (decide (j = pt)) as [E2|E2].
  - assert (i ∈ t_subs n) as Hi1 by (by apply Hini). assert (t ∈ t_subs n) as Ht1 by (by apply Hint).
    assert (t ∈ filter (.≠ i) (t_subs n)) as Ht2 by (apply list_elem_of_filter; done). split_and!.
    + repeat constructor; [rewrite elem_of_cons, !list_elem_of_filter; naive_solver|rewrite !list_elem_of_filter; naive_solver|by do 2 apply NoDup_filter].
    + cbn. rewrite length_filter_one; [|by apply NoDup_filter|done]. by rewrite length_filter_one.
    + intros c. rewrite !elem_of_cons, !list_elem_of_filter. naive_solver.
  - assert (i ∈ t_subs n) as Hi1 by (by apply Hini). assert (t ∉ t_subs n) as Ht1 by naive_solver. split_and!.
    + constructor; [rewrite list_elem_of_filter; naive_solver|by apply NoDup_filter].
    + cbn. by rewrite length_filter_one.
    + intros c. rewrite elem_of_cons, list_elem_of_filter. destruct (decide (c = t)) as [->|]; naive_solver.
  - assert (t ∈ t_subs n) as Ht1 by (by apply Hint). assert (i ∉ t_subs n) as Hi1 by naive_solver. split_and!.
    + constructor; [rewrite list_elem_of_filter; naive_solver|by apply NoDup_filter].
    + cbn. by rewrite length_filter_one.
    + intros c. rewrite elem_of_cons, list_elem_of_filter. destruct (decide (c = i)) as [->|]; naive_solver.
  - split_and!; [done|done|]. intros c. split; [|naive_solver]. intros Hc. left. split_and!; [intros ->; naive_solver|intros ->; naive_solver|done].
Qed.

Lemma tree_ok_swap : tree_ok u T'.
Proof using All.
  assert (∀ j n', T' !! j = Some n' → ∃ n, T !! j = Some n ∧ n' = swapped j n) as Hback.
  { intros j n' Hj. rewrite HT in Hj. by apply fmap_Some in Hj. }
  assert (∀ j n, T !! j = Some n → T' !! j = Some (swapped j n)) as Hforth by (intros j n Hj; by rewrite HT, Hj).
  destruct (tr_parent _ _ ok i ti Hi) as (npi & Hnpi & Esbi). destruct (tr_parent _ _ ok t tt Ht) as (npt & Hnpt & Esbt). rewrite Epi in Hnpi. rewrite Ept in Hnpt.
  split.
  - intros j n' Hj. destruct (Hback j n' Hj) as (n & Hn & ->). cbn. repeat case_decide; try subst j.
    + exists (swapped pt npt). split; [by apply Hforth|]. cbn. congruence.
    + exists (swapped pi npi). split; [by apply Hforth|]. cbn. congruence.
    + destruct (tr_parent _ _ ok _ n Hn) as (p & Hp & E). exists (swapped (t_parent n) p). split; [by apply Hforth|done].
  - intros j n' c Hj. destruct (Hback j n' Hj) as (n & Hn & ->). destruct (swapped_subs_spec j n Hn) as (_ & _ & Hin). cbn. rewrite Hin. split.
    + intros [(Hci & Hct & Hc)|[[-> ->]|[-> ->]]].
      * apply (tr_child _ _ ok j n c Hn) in Hc as (Hcj & w & Hw & E). split; [done|]. exists (swapped c w). split; [by apply Hforth|]. cbn.
        by rewrite !decide_False.
      * split; [naive_solver|]. exists (swapped i ti). split; [by apply Hforth|]. cbn. by rewrite decide_True.
      * split; [naive_solver|]. exists (swapped t tt). split; [by apply Hforth|]. cbn. rewrite decide_False, decide_True by done. done.
    + intros (Hcj & w' & Hw' & E). destruct (Hback c w' Hw') as (w & Hw & ->). cbn in E. repeat case_decide; subst.
      * by right; left.
      * by right; right.
      * left. split_and!; [done|done|]. by apply (child_of c (t_parent w) n w).
  - intros j n' Hj. destruct (Hback j n' Hj) as (n & Hn & ->). by apply swapped_subs_spec.
  - intros j n' Hj. destruct (Hback j n' Hj) as (n & Hn & ->). cbn. destruct (swapped_subs_spec j n Hn) as (_ & -> & _). by apply (tr_count _ _ ok).
  - apply (tr_users _ _ ok).
  - intros j Hj. apply (tr_none _ _ ok). rewrite HT in Hj. by apply fmap_None in Hj.
Qed.
End swap.

(** ** [__d_move], step by step

    The state is that of [s] but for the two dentries, their parents' children and the chains. *)
Section move.
Variable d_hash_shift d_hash_mask L1_CACHE_BYTES : Z.
Abbreviation d_index := (d_index d_hash_shift d_hash_mask L1_CACHE_BYTES).
Abbreviation d_hash := (d_hash d_hash_shift d_hash_mask L1_CACHE_BYTES).
Abbreviation wf := (wf d_hash_shift d_hash_mask L1_CACHE_BYTES).
Abbreviation __d_drop := (__d_drop d_hash_shift d_hash_mask L1_CACHE_BYTES).

Context (s : dcache) (i t : Z) (Hit : i ≠ t).

Definition moving (a b : dentry) (m : gmap Z dentry) (C : gmap dbucket (list Z)) : dcache :=
  s <| dc_objs := <[i := a]> (<[t := b]> m) |> <| dc_chains := C |>.

Lemma moving_i a b m C f : set_dobj i f (moving a b m C) = Ok ((), moving (f a) b m C).
Proof.
  unfold set_dobj, st_modify. do 2 f_equal. apply dcache_ext; try done. cbn -[alter]. rewrite (alter_insert_lookup _ _ i a) by apply lookup_insert_eq.
  apply insert_insert_eq.
Qed.

Lemma moving_t a b m C f : set_dobj t f (moving a b m C) = Ok ((), moving a (f b) m C).
Proof.
  unfold set_dobj, st_modify. do 2 f_equal. apply dcache_ext; try done. cbn -[alter]. rewrite alter_insert_ne by done.
  by rewrite (alter_insert_lookup _ _ t b), insert_insert_eq by apply lookup_insert_eq.
Qed.

Lemma moving_p p a b m C f : p ≠ i → p ≠ t → set_dobj p f (moving a b m C) = Ok ((), moving a b (alter f p m) C).
Proof.
  intros H1 H2. unfold set_dobj, st_modify. do 2 f_equal. apply dcache_ext; try done. cbn -[alter]. by rewrite !alter_insert_ne.
Qed.

Lemma moving_get_i a b m C : dobj i (moving a b m C) = Ok (a, moving a b m C).
Proof. unfold dobj, st_deref. cbn. by rewrite lookup_insert_eq. Qed.

Lemma moving_get_t a b m C : dobj t (moving a b m C) = Ok (b, moving a b m C).
Proof. unfold dobj, st_deref. cbn. by rewrite lookup_insert_ne, lookup_insert_eq. Qed.

Lemma moving_hash p vp a b m C tab h :
  p ≠ i → p ≠ t → m !! p = Some vp → dtable (dc_supers s) (d_sb vp) = Some tab → d_hash p h (moving a b m C) = Ok (inl (tab, d_index p h), moving a b m C).
Proof.
  intros H1 H2 Hp Htab. unfold PvfsDcache.d_hash. rewrite (ST_bind_Ok _ _ _ vp (moving a b m C)) by (unfold dobj, st_deref; cbn; by rewrite !lookup_insert_ne, Hp).
  unfold dtable in Htab. destruct (dc_supers s !! d_sb vp) as [sb|] eqn:Esb; [|done]. cbn in Htab.
  rewrite (ST_bind_Ok _ _ _ sb (moving a b m C)) by (unfold the_dsb, st_deref; cbn; by rewrite Esb).
  destruct (ds_isloop sb); [by rewrite Htab|by injection Htab as <-].
Qed.

(** The chains without dentry [j]. *)
Definition without (j : Z) (o : option dbucket) (C : gmap dbucket (list Z)) : gmap dbucket (list Z) :=
  match o with None => C | Some x => <[x := filter (.≠ j) (default [] (C !! x))]> C end.

Lemma drop_none v : d_hashed v = None → v = v <| d_hashed := None |> <| d_seq := d_seq v |>.
Proof. intros E. destruct v. cbn in E. by subst. Qed.

Lemma moving_drop_i p vp a b m C tab :
  d_parent a = p → p ≠ i → p ≠ t → m !! p = Some vp → dtable (dc_supers s) (d_sb vp) = Some tab → has (d_flags a) DCACHE_DISCONNECTED = false →
  ∃ q, __d_drop i (moving a b m C) = Ok ((), moving (a <| d_hashed := None |> <| d_seq := q |>) b m (without i (d_hashed a) C)).
Proof.
  intros Hp H1 H2 Hvp Htab Hfl. unfold PvfsDcache.__d_drop. rewrite (ST_bind_Ok _ _ _ _ _ (moving_get_i a b m C)). unfold d_unhashed.
  destruct (d_hashed a) as [x|] eqn:Ex; [|exists (d_seq a); rewrite <- (drop_none a Ex); done].
  eexists. unfold __d_shrink. rewrite (ST_bind_Ok _ _ _ (Some (inl (tab, d_index p (d_hashval a)))) (moving (a <| d_hashed := None |>) b m (without i (Some x) C))).
  { unfold dentry_rcuwalk_barrier. by rewrite moving_i. }
  rewrite (ST_bind_Ok _ _ _ _ _ (moving_get_i a b m C)), Ex, Hfl, Hp. rewrite (ST_bind_Ok _ _ _ _ _ (moving_hash p vp a b m C tab _ H1 H2 Hvp Htab)).
  rewrite (ST_bind_Ok _ _ _ () (moving (a <| d_hashed := None |>) b m (without i (Some x) C))); [done|].
  unfold hlist_bl_del. rewrite (ST_bind_Ok _ _ _ () (moving a b m (without i (Some x) C))) by done. apply moving_i.
Qed.

Lemma moving_drop_t p vp a b m C tab :
  d_parent b = p → p ≠ i → p ≠ t → m !! p = Some vp → dtable (dc_supers s) (d_sb vp) = Some tab → has (d_flags b) DCACHE_DISCONNECTED = false →
  ∃ q, __d_drop t (moving a b m C) = Ok ((), moving a (b <| d_hashed := None |> <| d_seq := q |>) m (without t (d_hashed b) C)).
Proof.
  intros Hp H1 H2 Hvp Htab Hfl. unfold PvfsDcache.__d_drop. rewrite (ST_bind_Ok _ _ _ _ _ (moving_get_t a b m C)). unfold d_unhashed.
  destruct (d_hashed b) as [x|] eqn:Ex; [|exists (d_seq b); rewrite <- (drop_none b Ex); done].
  eexists. unfold __d_shrink. rewrite (ST_bind_Ok _ _ _ (Some (inl (tab, d_index p (d_hashval b)))) (moving a (b <| d_hashed := None |>) m (without t (Some x) C))).
  { unfold dentry_rcuwalk_barrier. by rewrite moving_t. }
  rewrite (ST_bind_Ok _ _ _ _ _ (moving_get_t a b m C)), Ex, Hfl, Hp. rewrite (ST_bind_Ok _ _ _ _ _ (moving_hash p vp a b m C tab _ H1 H2 Hvp Htab)).
  rewrite (ST_bind_Ok _ _ _ () (moving a (b <| d_hashed := None |>) m (without t (Some x) C))); [done|].
  unfold hlist_bl_del. rewrite (ST_bind_Ok _ _ _ () (moving a b m (without t (Some x) C))) by done. apply moving_t.
Qed.

Lemma moving_rehash a b m C x :
  d_hashed a = None →
  __d_rehash i x (moving a b m C) = Ok ((), moving (a <| d_flags ::= λ y, Z.lor y DCACHE_RCUACCESS |> <| d_hashed := Some x |>) b m (<[x := i :: default [] (C !! x)]> C)).
Proof.
  intros Hn. unfold __d_rehash. rewrite (ST_bind_Ok _ _ _ _ _ (moving_get_i a b m C)). unfold d_unhashed. rewrite Hn. cbn [negb DBUG_ON].
  rewrite (ST_bind_Ok _ _ _ () (moving a b m C)) by done. rewrite (ST_bind_Ok _ _ _ _ _ (moving_i _ b m C _)). unfold hlist_bl_add_head.
  rewrite (ST_bind_Ok _ _ _ () (moving (a <| d_flags ::= λ y, Z.lor y DCACHE_RCUACCESS |>) b m (<[x := i :: default [] (C !! x)]> C))) by done. apply moving_i.
Qed.
(** The dentries and chains at the end. *)
Definition moved_objs (pi pt : Z) (m : gmap Z dentry) : gmap Z dentry :=
  alter (λ p, p <| d_subdirs ::= cons i |>) pt (alter (λ p, p <| d_subdirs ::= cons t |>) pi
    (alter (λ p, p <| d_subdirs ::= filter (.≠ t) |>) pt (alter (λ p, p <| d_subdirs ::= filter (.≠ i) |>) pi m))).

Definition moved_chains (x : dbucket) (v w : dentry) (C : gmap dbucket (list Z)) : gmap dbucket (list Z) :=
  let C := without i (d_hashed v) C in without t (d_hashed w) (<[x := i :: default [] (C !! x)]> C).

(** Dentry [i] has become [a], the target [b]. *)
Record moved (x : dbucket) (v w a b : dentry) : Prop := {
  m_tree : tview a = TNode (d_parent w) (d_sb v) (d_subdirs v) (d_count v);
  m_hash : hview a = HNode (Some x) false (d_sb v) (d_parent w) (d_hashval w);
  m_name : d_name a = d_name w;
  m_inode : d_inode a = d_inode v;
  m_lru : d_lru a = d_lru v;
  m_tree' : tview b = TNode (d_parent v) (d_sb w) (d_subdirs w) (d_count w);
  m_hash' : hview b = HNode None false (d_sb w) (d_parent v) (d_hashval v);
  m_lru' : d_lru b = d_lru w;
}.

Lemma moving_names a b m C : ∃ a' b', switch_names i t (moving a b m C) = Ok ((), moving a' b' m C) ∧
  d_name a' = d_name b ∧ tview a' = tview a ∧ hview a' = hview a ∧ d_lru a' = d_lru a ∧ d_inode a' = d_inode a ∧
  tview b' = tview b ∧ hview b' = hview b ∧ d_lru b' = d_lru b.
Proof using Hit.
  unfold switch_names. rewrite (ST_bind_Ok _ _ _ _ _ (moving_get_i a b m C)), (ST_bind_Ok _ _ _ _ _ (moving_get_t a b m C)).
  destruct (_ && _).
  - rewrite moving_i. by eexists _, _.
  - rewrite (ST_bind_Ok _ _ _ _ _ (moving_i _ b m C _)), moving_t. by eexists _, _.
Qed.

Lemma moving_swap_hash a b m C : swap_hash i t (moving a b m C) =
  Ok ((), moving (a <| d_hashval := d_hashval b |>) (b <| d_hashval := d_hashval a |>) m C).
Proof using Hit.
  unfold swap_hash. rewrite (ST_bind_Ok _ _ _ _ _ (moving_get_i a b m C)), (ST_bind_Ok _ _ _ _ _ (moving_get_t a b m C)).
  by rewrite (ST_bind_Ok _ _ _ _ _ (moving_i _ b m C _)), moving_t.
Qed.

Lemma moving_parents a b m C : d_parent a ≠ i → d_parent a ≠ t → d_parent b ≠ i → d_parent b ≠ t →
  switch_parents i t (moving a b m C) = Ok ((), moving (a <| d_parent := d_parent b |>) (b <| d_parent := d_parent a |>)
    (alter (λ p, p <| d_subdirs ::= cons i |>) (d_parent b) (alter (λ p, p <| d_subdirs ::= cons t |>) (d_parent a) m)) C).
Proof using Hit.
  intros H1 H2 H3 H4. unfold switch_parents. rewrite (ST_bind_Ok _ _ _ _ _ (moving_get_i a b m C)), (ST_bind_Ok _ _ _ _ _ (moving_get_t a b m C)).
  unfold IS_ROOT. destruct (Z.eqb_spec (d_parent a) i) as [|_]; [done|].
  rewrite (ST_bind_Ok _ _ _ () (moving (a <| d_parent := d_parent b |>) (b <| d_parent := d_parent a |>) (alter (λ p, p <| d_subdirs ::= cons t |>) (d_parent a) m) C)).
  - by apply moving_p.
  - rewrite (ST_bind_Ok _ _ _ _ _ (moving_i _ b m C _)), (ST_bind_Ok _ _ _ _ _ (moving_t _ b m C _)). by apply moving_p.
Qed.

Lemma moved_run fuel v w vpi vpt tab :
  dc_objs s !! i = Some v → dc_objs s !! t = Some w → d_ancestor fuel i t s = Ok (None, s) → d_ancestor fuel t i s = Ok (None, s) →
  d_parent v ≠ i → d_parent v ≠ t → d_parent w ≠ i → d_parent w ≠ t → dc_objs s !! d_parent v = Some vpi → dc_objs s !! d_parent w = Some vpt →
  d_sb vpt = d_sb vpi → dtable (dc_supers s) (d_sb vpi) = Some tab →
  has (d_flags v) DCACHE_DISCONNECTED = false → has (d_flags w) DCACHE_DISCONNECTED = false →
  let x := inl (tab, d_index (d_parent w) (d_hashval w)) in
  ∃ a b, __d_move d_hash_shift d_hash_mask L1_CACHE_BYTES fuel i t s =
      Ok ((), moving a b (moved_objs (d_parent v) (d_parent w) (dc_objs s)) (moved_chains x v w (dc_chains s))) ∧ moved x v w a b.
Proof using Hit.
  intros Hi Ht Ha1 Ha2 N1 N2 N3 N4 Hpi Hpt Esb Htab Hfv Hfw x. assert (dtable (dc_supers s) (d_sb vpt) = Some tab) as Htab' by (by rewrite Esb).
  set (m0 := dc_objs s). set (C0 := dc_chains s).
  assert (s = moving v w m0 C0) as Es.
  { apply dcache_ext; try done. cbn. by rewrite (insert_id m0 t w), insert_id. }
  unfold __d_move. rewrite (ST_bind_Ok _ _ _ _ _ Ha1), (ST_bind_Ok _ _ s () s) by done. rewrite (ST_bind_Ok _ _ _ _ _ Ha2), (ST_bind_Ok _ _ s () s) by done.
  unfold write_seqcount. set (bump := λ v : dentry, v <| d_seq ::= _ |>).
  rewrite (ST_bind_Ok _ _ s () (moving (bump v) w m0 C0)) by (rewrite <- moving_i; by rewrite <- Es).
  rewrite (ST_bind_Ok _ _ _ _ _ (moving_t (bump v) w m0 C0 bump)).
  destruct (moving_drop_i (d_parent v) vpi (bump v) (bump w) m0 C0 tab) as [q1 E1]; [done..|]. rewrite (ST_bind_Ok _ _ _ _ _ E1). clear E1.
  set (C1 := without i (d_hashed (bump v)) C0). set (v1 := (bump v) <| d_hashed := None |> <| d_seq := q1 |>).
  rewrite (ST_bind_Ok _ _ _ _ _ (moving_get_t v1 (bump w) m0 C1)). change (d_parent (bump w)) with (d_parent w). change (d_hashval (bump w)) with (d_hashval w).
  rewrite (ST_bind_Ok _ _ _ _ _ (moving_hash (d_parent w) vpt v1 (bump w) m0 C1 tab (d_hashval w) N3 N4 Hpt Htab')). fold x.
  rewrite (ST_bind_Ok _ _ _ _ _ (moving_rehash v1 (bump w) m0 C1 x eq_refl)).
  set (C2 := <[x := i :: default [] (C1 !! x)]> C1). set (v2 := v1 <| d_flags ::= _ |> <| d_hashed := Some x |>).
  destruct (moving_drop_t (d_parent w) vpt v2 (bump w) m0 C2 tab) as [q2 E2]; [done..|]. rewrite (ST_bind_Ok _ _ _ _ _ E2). clear E2.
  set (C3 := without t (d_hashed (bump w)) C2). set (w1 := (bump w) <| d_hashed := None |> <| d_seq := q2 |>).
  rewrite (ST_bind_Ok _ _ _ _ _ (moving_get_i v2 w1 m0 C3)). change (d_parent v2) with (d_parent v). unfold unlink_child.
  rewrite (ST_bind_Ok _ _ _ _ _ (moving_p (d_parent v) v2 w1 m0 C3 _ N1 N2)), (ST_bind_Ok _ _ _ _ _ (moving_p (d_parent w) v2 w1 _ C3 _ N3 N4)).
  set (m2 := alter _ (d_parent w) _). destruct (moving_names v2 w1 m2 C3) as (v3 & w3 & E3 & Hn & Htv & Hhv & Hlv & Hiv & Htw & Hhw & Hlw).
  rewrite (ST_bind_Ok _ _ _ _ _ E3). clear E3. rewrite (ST_bind_Ok _ _ _ _ _ (moving_swap_hash v3 w3 m2 C3)).
  injection Htv as Ep3 Es3 Esub3 Ec3. injection Htw as Epw Esw Esubw Ecw. injection Hhv as Eh1 Eh2 _ _ Eh3. injection Hhw as Ew1 Ew2 _ _ Ew3.
  set (v4 := v3 <| d_hashval := _ |>). set (w4 := w3 <| d_hashval := _ |>).
  assert (d_parent v4 = d_parent v) as Ep4 by exact Ep3. assert (d_parent w4 = d_parent w) as Ep4' by exact Epw.
  rewrite (ST_bind_Ok _ _ _ _ _ (moving_parents v4 w4 m2 C3 ltac:(by rewrite Ep4) ltac:(by rewrite Ep4) ltac:(by rewrite Ep4') ltac:(by rewrite Ep4'))).
  rewrite Ep4, Ep4'. rewrite (ST_bind_Ok _ _ _ _ _ (moving_t _ _ _ C3 bump)), moving_i.
  eexists _, _. split; [reflexivity|]. split; try done.
  - unfold tview. cbn. by rewrite Es3, Esub3, Ec3.
  - unfold hview. cbn. rewrite Eh1, Eh2, Es3, Ew3. cbn. by rewrite has_lor_l, Hfv.
  - unfold tview. cbn. by rewrite Esw, Esubw, Ecw.
  - unfold hview. cbn. rewrite Ew1, Ew2, Esw, Eh3. cbn. by rewrite Hfw.
Qed.
End move.

(** ** Chains after a move *)
Lemma in_without j o C : (∀ y, j ∈ (default [] (C !! y) : list Z) → o = Some y) →
  ∀ y c, c ∈ (default [] (without j o C !! y) : list Z) ↔ c ≠ j ∧ c ∈ (default [] (C !! y) : list Z).
Proof.
  intros Hj y c. unfold without. destruct o as [x|].
  - destruct (decide (y = x)) as [->|Hne]; [rewrite lookup_insert_eq; cbn; by rewrite list_elem_of_filter|].
    rewrite lookup_insert_ne by done. split; [|naive_solver]. intros Hc. split; [|done]. intros ->. apply Hj in Hc. congruence.
  - split; [|naive_solver]. intros Hc. split; [|done]. intros ->. by apply Hj in Hc.
Qed.

Lemma in_moved i t x v w C :
  i ≠ t → (∀ y, i ∈ (default [] (C !! y) : list Z) → d_hashed v = Some y) → (∀ y, t ∈ (default [] (C !! y) : list Z) → d_hashed w = Some y) →
  ∀ y c, c ∈ (default [] (moved_chains i t x v w C !! y) : list Z) ↔ (c = i ∧ y = x) ∨ (c ≠ i ∧ c ≠ t ∧ c ∈ (default [] (C !! y) : list Z)).
Proof.
  intros Hit Hi Ht y c. unfold moved_chains. cbn zeta. set (C1 := without i (d_hashed v) C).
  assert (∀ y c, c ∈ (default [] (<[x := i :: default [] (C1 !! x)]> C1 !! y) : list Z) ↔ (c = i ∧ y = x) ∨ (c ≠ i ∧ c ∈ (default [] (C !! y) : list Z))) as H2.
  { intros y' c'. destruct (decide (y' = x)) as [->|Hne].
    - rewrite lookup_insert_eq. cbn. rewrite elem_of_cons. unfold C1. rewrite (in_without i _ C Hi). naive_solver.
    - rewrite lookup_insert_ne by done. unfold C1. rewrite (in_without i _ C Hi). naive_solver. }
  rewrite in_without; [rewrite H2; naive_solver|]. intros y' [[-> _]|[_ ?]]%H2; [done|by apply Ht].
Qed.

Lemma head_moved i t x v w C : i ≠ t → ∃ l, (default [] (moved_chains i t x v w C !! x) : list Z) = i :: l.
Proof.
  intros Hit. unfold moved_chains. cbn zeta. set (C1 := without i (d_hashed v) C). set (C2 := <[x := _]> C1).
  assert (C2 !! x = Some (i :: default [] (C1 !! x))) as E by apply lookup_insert_eq. unfold without. destruct (d_hashed w) as [y|]; [|rewrite E; by eexists].
  destruct (decide (y = x)) as [->|Hne]; [|rewrite lookup_insert_ne, E by done; by eexists].
  rewrite lookup_insert_eq, E. cbn. rewrite decide_True by done. by eexists.
Qed.

Lemma chains_ok_move sh mk l1 S H H' C C' i t x hi ht p q :
  chains_ok sh mk l1 S H C → i ≠ t → H !! i = Some hi → H !! t = Some ht →
  H' = <[i := HNode (Some x) false (h_sb hi) p (h_val ht)]> (<[t := HNode None false (h_sb ht) q (h_val hi)]> H) →
  home sh mk l1 S (HNode (Some x) false (h_sb hi) p (h_val ht)) = Some x →
  (∀ y c, c ∈ C' y ↔ (c = i ∧ y = x) ∨ (c ≠ i ∧ c ≠ t ∧ c ∈ C y)) → chains_ok sh mk l1 S H' C'.
Proof.
  intros [H1 H2] Hit Hi Ht -> Hx HC. split.
  - intros y c. rewrite HC, H1. destruct (decide (c = i)) as [->|Hci].
    + rewrite lookup_insert_eq. split; [intros [[_ ->]|[? _]]; [by eexists|done]|]. intros (? & [= <-] & [= ->]). by left.
    + rewrite lookup_insert_ne by done. destruct (decide (c = t)) as [->|Hct]; [rewrite lookup_insert_eq; naive_solver congruence|].
      rewrite lookup_insert_ne by done. naive_solver.
  - intros c h y. destruct (decide (c = i)) as [->|Hci]; [rewrite lookup_insert_eq; intros [= <-] [= <-]; done|].
    rewrite lookup_insert_ne by done. destruct (decide (c = t)) as [->|Hct]; [rewrite lookup_insert_eq; by intros [= <-] [=]|].
    rewrite lookup_insert_ne by done. apply H2.
Qed.

(** ** Views of the moved state *)
Definition with_subs (f : list Z → list Z) (c : dentry) : dentry := c <| d_subdirs ::= f |>.

Section views.
Context (s : dcache) (i t : Z) (v w a b : dentry) (x : dbucket).
Context (Hit : i ≠ t) (Hi : dc_objs s !! i = Some v) (Ht : dc_objs s !! t = Some w) (M : moved x v w a b).
Context (N : d_parent v ≠ i ∧ d_parent v ≠ t) (N' : d_parent w ≠ i ∧ d_parent w ≠ t).

Abbreviation rest_moved := (moved_objs i t (d_parent v) (d_parent w) (dc_objs s)).
Abbreviation all_moved := (<[i := a]> (<[t := b]> rest_moved)).

Lemma moved_objs_lookup j : rest_moved !! j = with_subs (swapped_subs i t (d_parent v) (d_parent w) j) <$> dc_objs s !! j.
Proof using.
  unfold moved_objs, swapped_subs. destruct (decide (j = d_parent w)) as [->|Hw].
  - rewrite lookup_alter_eq. destruct (decide (d_parent w = d_parent v)) as [->|Hv].
    + rewrite !lookup_alter_eq. by destruct (dc_objs s !! d_parent v) as [[]|].
    + rewrite lookup_alter_ne, lookup_alter_eq, lookup_alter_ne by done. by destruct (dc_objs s !! d_parent w) as [[]|].
  - rewrite lookup_alter_ne by done. destruct (decide (j = d_parent v)) as [->|Hv].
    + rewrite lookup_alter_eq, lookup_alter_ne, lookup_alter_eq by done. by destruct (dc_objs s !! d_parent v) as [[]|].
    + rewrite !lookup_alter_ne by done. by destruct (dc_objs s !! j) as [[]|].
Qed.

Lemma swapped_subs_other j l : j ≠ d_parent v → j ≠ d_parent w → swapped_subs i t (d_parent v) (d_parent w) j l = l.
Proof using. intros H1 H2. unfold swapped_subs. by rewrite !decide_False. Qed.

Lemma moved_tree j : (tview <$> all_moved) !! j = swapped i t (d_parent v) (d_parent w) j <$> tree s !! j.
Proof using All.
  rewrite !fmap_insert. destruct (decide (j = i)) as [->|Hji].
  - rewrite lookup_insert_eq, (tree_lookup s i v), (m_tree _ _ _ _ _ M) by done. cbn. unfold swapped. cbn. rewrite decide_True, swapped_subs_other by naive_solver. done.
  - rewrite lookup_insert_ne by done. destruct (decide (j = t)) as [->|Hjt].
    + rewrite lookup_insert_eq, (tree_lookup s t w), (m_tree' _ _ _ _ _ M) by done. cbn. unfold swapped. cbn.
      rewrite decide_False, decide_True, swapped_subs_other by naive_solver. done.
    + rewrite lookup_insert_ne, !lookup_fmap, moved_objs_lookup by done. destruct (dc_objs s !! j); [|done]. cbn. unfold swapped, tview. cbn. by rewrite !decide_False.
Qed.

Lemma moved_hashes : hview <$> all_moved =
  <[i := HNode (Some x) false (d_sb v) (d_parent w) (d_hashval w)]> (<[t := HNode None false (d_sb w) (d_parent v) (d_hashval v)]> (hashes s)).
Proof using M.
  rewrite !fmap_insert, (m_hash _ _ _ _ _ M), (m_hash' _ _ _ _ _ M). do 2 f_equal. apply map_eq. intros j. rewrite !lookup_fmap, moved_objs_lookup.
  by destruct (dc_objs s !! j).
Qed.

Lemma moved_lrus : lview <$> all_moved = lrus s.
Proof using Hi Ht M.
  injection (m_tree _ _ _ _ _ M) as _ Ea _ _. injection (m_tree' _ _ _ _ _ M) as _ Eb _ _.
  assert (lview a = lview v) as E1 by (unfold lview; by rewrite (m_lru _ _ _ _ _ M), Ea).
  assert (lview b = lview w) as E2 by (unfold lview; by rewrite (m_lru' _ _ _ _ _ M), Eb).
  rewrite !fmap_insert, E1, E2. assert (lview <$> rest_moved = lrus s) as ->.
  { apply map_eq. intros j. rewrite !lookup_fmap, moved_objs_lookup. by destruct (dc_objs s !! j). }
  rewrite (insert_id _ t) by (by apply lrus_lookup). by apply insert_id, lrus_lookup.
Qed.
End views.

(** ** [d_move] and lookup *)
Section rename.
Variable d_hash_shift d_hash_mask L1_CACHE_BYTES : Z.
Variable d_compare : list Z → list Z → bool.
Hypothesis compare_refl : ∀ n, d_compare n n = false.

Abbreviation wf := (wf d_hash_shift d_hash_mask L1_CACHE_BYTES).
Abbreviation d_index := (d_index d_hash_shift d_hash_mask L1_CACHE_BYTES).
Abbreviation d_move := (d_move d_hash_shift d_hash_mask L1_CACHE_BYTES).
Abbreviation d_lookup := (d_lookup d_hash_shift d_hash_mask L1_CACHE_BYTES d_compare).
Abbreviation d_matches := (d_matches d_compare).

(** A lookup in a consistent cache goes through the chain of its parent's table. *)
Lemma lookup_chain u s p vp name h tab :
  wf u s → dc_objs s !! p = Some vp → dtable (dc_supers s) (d_sb vp) = Some tab →
  d_lookup p name h s = d_find d_compare p vp name h (dchain s (inl (tab, d_index p h))) s.
Proof.
  intros Hwf Hp Htab. unfold PvfsDcache.d_lookup, PvfsDcache.__d_lookup, groupfs_get_rename.
  destruct (su_obj _ _ (wf_supers _ _ _ _ _ Hwf) p (tview vp)) as [b Hb]; [by apply tree_lookup|]. cbn in Hb.
  assert (dobj p s = Ok (vp, s)) as Ep by (unfold dobj, st_deref; by rewrite Hp).
  assert (the_dsb (d_sb vp) s = Ok (b, s)) as Eb by (unfold the_dsb, st_deref; by rewrite Hb).
  rewrite (ST_bind_Ok _ _ s (if ds_isloop b then RenameSb (d_sb vp) else RenameGlobal) s) by (by rewrite (ST_bind_Ok _ _ _ _ _ Ep), (ST_bind_Ok _ _ _ _ _ Eb)).
  rewrite (ST_bind_Ok _ _ s (inl (tab, d_index p h)) s).
  - by rewrite (ST_bind_Ok _ _ _ _ _ Ep), (ST_bind_Ok _ _ s (dchain s (inl (tab, d_index p h))) s).
  - unfold d_hash. rewrite (ST_bind_Ok _ _ _ _ _ Ep), (ST_bind_Ok _ _ _ _ _ Eb). unfold dtable in Htab. rewrite Hb in Htab. cbn in Htab.
    destruct (ds_isloop b); [by rewrite Htab|by injection Htab as <-].
Qed.

Lemma find_none p vp name h l s :
  (∀ j, j ∈ l → ∃ c, dc_objs s !! j = Some c ∧ d_matches p vp name h c = false) → d_find d_compare p vp name h l s = Ok (None, s).
Proof.
  induction l as [|j l IH]; intros Hl; [done|]. destruct (Hl j) as (c & Hc & Hm); [by left|]. cbn [d_find].
  rewrite (ST_bind_Ok _ _ s c s) by (unfold dobj, st_deref; by rewrite Hc). rewrite Hm. apply IH. intros k Hk. apply Hl. by right.
Qed.

Lemma find_first p vp name h j l s c :
  dc_objs s !! j = Some c → d_matches p vp name h c = true → ∃ s', d_find d_compare p vp name h (j :: l) s = Ok (Some j, s').
Proof.
  intros Hc Hm. cbn [d_find]. rewrite (ST_bind_Ok _ _ s c s) by (unfold dobj, st_deref; by rewrite Hc). rewrite Hm. by eexists.
Qed.

(** The new name matches. *)
Lemma moved_matches x v w a b vp : moved x v w a b → d_matches (d_parent w) vp (d_name w) (d_hashval w) a = true.
Proof using compare_refl.
  intros M. injection (m_hash _ _ _ _ _ M) as E1 _ _ E2 E3. unfold PvfsDcache.d_matches, d_unhashed. rewrite E1, E2, E3, (m_name _ _ _ _ _ M).
  rewrite !Z.eqb_refl. cbn [negb andb]. destruct (has _ _); [by rewrite compare_refl|]. by rewrite !bool_decide_true.
Qed.

Lemma moved_wf u s i t v w a b tab :
  wf u s → i ≠ t → dc_objs s !! i = Some v → dc_objs s !! t = Some w → d_parent v ≠ i ∧ d_parent v ≠ t → d_parent w ≠ i ∧ d_parent w ≠ t →
  d_sb v = d_sb w → dtable (dc_supers s) (d_sb v) = Some tab →
  let x := inl (tab, d_index (d_parent w) (d_hashval w)) in
  moved x v w a b → wf u (moving s i t a b (moved_objs i t (d_parent v) (d_parent w) (dc_objs s)) (moved_chains i t x v w (dc_chains s))).
Proof.
  intros Hwf Hit Hi Ht N N' Esb Htab x M. set (s' := moving _ _ _ _ _ _ _).
  pose proof (moved_tree s i t v w a b x Hit Hi Ht M N N') as HT. destruct Hwf as [H1 H2 H3 H4].
  assert (∀ j c y, dc_objs s !! j = Some c → j ∈ (default [] (dc_chains s !! y) : list Z) → d_hashed c = Some y) as Hat.
  { intros j c y Hj Hin. change (default [] (dc_chains s !! y)) with (dchain s y) in Hin. apply (ch_chain _ _ _ _ _ _ H2) in Hin as (h & Hh & E).
    rewrite (hashes_lookup s j c Hj) in Hh. by injection Hh as <-. }
  split.
  - by apply (tree_ok_swap u (tree s) (tree s') i t (d_parent v) (d_parent w) (tview v) (tview w)); try done; apply tree_lookup.
  - apply (chains_ok_move _ _ _ (dc_supers s) (hashes s) (hashes s') (dchain s) (dchain s') i t x (hview v) (hview w) (d_parent w) (d_parent v)); try done.
    + by apply hashes_lookup.
    + by apply hashes_lookup.
    + by apply (moved_hashes s i t v w a b x).
    + unfold home. cbn. by rewrite Htab.
    + apply in_moved; [done|intros y; by apply Hat|intros y; by apply Hat].
  - change (lrus s') with (lview <$> <[i := a]> (<[t := b]> (moved_objs i t (d_parent v) (d_parent w) (dc_objs s)))).
    rewrite (moved_lrus s i t v w a b x Hi Ht M). done.
  - destruct H4 as [S1 S2]. split; [done|]. intros j n Hn. change (tree s') with (tview <$> <[i := a]> (<[t := b]> (moved_objs i t (d_parent v) (d_parent w) (dc_objs s)))) in Hn.
    rewrite HT in Hn. apply fmap_Some in Hn as (n' & Hn' & ->). exact (S2 j n' Hn').
Qed.
Lemma matches_ext p vp vp' name h c c' :
  d_flags vp' = d_flags vp → d_hashval c' = d_hashval c → d_parent c' = d_parent c → d_unhashed c' = d_unhashed c → d_name c' = d_name c →
  d_matches p vp' name h c' = d_matches p vp name h c.
Proof. intros E1 E2 E3 E4 E5. unfold PvfsDcache.d_matches. by rewrite E1, E2, E3, E4, E5. Qed.

Lemma ancestor_parent fuel p1 p s c s' :
  d_ancestor fuel p1 p s = Ok (None, s') → dc_objs s !! p = Some c → d_parent c ≠ p → d_parent c ≠ p1.
Proof.
  intros H Hp Hr Hp1. destruct fuel as [|fuel]; [done|]. cbn [d_ancestor] in H. rewrite (ST_bind_Ok _ _ s c s) in H by (unfold dobj, st_deref; by rewrite Hp).
  unfold IS_ROOT in H. destruct (Z.eqb_spec (d_parent c) p) as [|_]; [done|]. destruct (Z.eqb_spec (d_parent c) p1) as [_|]; done.
Qed.

(** A dentry other than the two is as before but for its children. *)
Lemma moved_other s i t a b pi pt C j c :
  j ≠ i → j ≠ t → dc_objs s !! j = Some c → dc_objs (moving s i t a b (moved_objs i t pi pt (dc_objs s)) C) !! j = Some (with_subs (swapped_subs i t pi pt j) c).
Proof.
  intros H1 H2 Hc. cbn. rewrite !lookup_insert_ne by done.
  pose proof (moved_objs_lookup s i t (Dentry pi [] false 0 0 0 0 0 None false None None []) (Dentry pt [] false 0 0 0 0 0 None false None None []) j) as E.
  refine (eq_trans E _). by rewrite Hc.
Qed.

(** The old name is gone when no other dentry has it. *)
Lemma moved_old_gone u s i t v w a b x vpi tab :
  let s' := moving s i t a b (moved_objs i t (d_parent v) (d_parent w) (dc_objs s)) (moved_chains i t x v w (dc_chains s)) in
  wf u s' → i ≠ t → dc_objs s !! i = Some v → dc_objs s !! t = Some w → moved x v w a b →
  d_parent v ≠ i ∧ d_parent v ≠ t → d_parent w ≠ i ∧ d_parent w ≠ t → dc_objs s !! d_parent v = Some vpi → dtable (dc_supers s) (d_sb vpi) = Some tab →
  (∀ y, d_matches (d_parent v) vpi (d_name v) (d_hashval v) (w <| d_hashed := Some y |>) = false) →
  (∀ j c, j ≠ i → j ≠ t → dc_objs s !! j = Some c → d_matches (d_parent v) vpi (d_name v) (d_hashval v) c = false) →
  d_lookup (d_parent v) (d_name v) (d_hashval v) s' = Ok (None, s').
Proof.
  intros s' Hwf' Hit Hi Ht M N N' Hpi Htab Hold Hothers.
  assert (∀ j c, j ≠ i → j ≠ t → dc_objs s !! j = Some c → dc_objs s' !! j = Some (with_subs (swapped_subs i t (d_parent v) (d_parent w) j) c)) as Hother
    by (intros; by apply moved_other).
  rewrite (lookup_chain u s' (d_parent v) _ _ _ tab Hwf' (Hother _ _ (proj1 N) (proj2 N) Hpi)) by done. apply find_none.
  intros j (h & Hh & Eat)%(ch_chain _ _ _ _ _ _ (wf_chains _ _ _ _ _ Hwf')). rewrite lookup_fmap in Hh. apply fmap_Some in Hh as (c & Hc & ->).
  exists c. split; [done|]. destruct (decide (j = i)) as [->|Hji].
  { assert (dc_objs s' !! i = Some a) as Hi' by apply lookup_insert_eq. rewrite Hi' in Hc. injection Hc as <-. rewrite <- (Hold x).
    injection (m_hash _ _ _ _ _ M) as E1 _ _ E2 E3. apply matches_ext; try done; [|apply M]. unfold d_unhashed. by rewrite E1. }
  destruct (decide (j = t)) as [->|Hjt].
  { assert (dc_objs s' !! t = Some b) as Ht' by (cbn; by rewrite lookup_insert_ne, lookup_insert_eq). rewrite Ht' in Hc. injection Hc as <-.
    injection (m_hash' _ _ _ _ _ M) as E _ _ _ _. cbn in Eat. congruence. }
  assert (is_Some (dc_objs s !! j)) as [c0 Hc0].
  { assert (is_Some (tree s' !! j)) as Hsome by (rewrite lookup_fmap, Hc; by eexists).
    change (tree s') with (tview <$> <[i := a]> (<[t := b]> (moved_objs i t (d_parent v) (d_parent w) (dc_objs s)))) in Hsome.
    rewrite (moved_tree s i t v w a b x Hit Hi Ht M N N') in Hsome. apply fmap_is_Some in Hsome as [n Hn].
    rewrite lookup_fmap in Hn. apply fmap_Some in Hn as (c0 & ? & _). by exists c0. }
  rewrite (Hother j c0 Hji Hjt Hc0) in Hc. injection Hc as <-. rewrite <- (Hothers j c0 Hji Hjt Hc0). by apply matches_ext.
Qed.

(** The new name is found. *)
Lemma moved_new_found u s i t v w a b tab vpt :
  let x := inl (tab, d_index (d_parent w) (d_hashval w)) in
  let s' := moving s i t a b (moved_objs i t (d_parent v) (d_parent w) (dc_objs s)) (moved_chains i t x v w (dc_chains s)) in
  wf u s' → i ≠ t → moved x v w a b → d_parent w ≠ i ∧ d_parent w ≠ t → dc_objs s !! d_parent w = Some vpt → dtable (dc_supers s) (d_sb vpt) = Some tab →
  ∃ s'', d_lookup (d_parent w) (d_name w) (d_hashval w) s' = Ok (Some i, s'').
Proof using compare_refl.
  intros x s' Hwf' Hit M [N1 N2] Hpt Htab.
  pose proof (moved_other s i t a b (d_parent v) (d_parent w) (moved_chains i t x v w (dc_chains s)) (d_parent w) vpt N1 N2 Hpt) as Hpt'. fold s' in Hpt'.
  rewrite (lookup_chain u s' (d_parent w) _ _ _ tab Hwf' Hpt') by done. fold x.
  destruct (head_moved i t x v w (dc_chains s) Hit) as [l El]. change (dchain s' x) with (default [] (moved_chains i t x v w (dc_chains s) !! x)). rewrite El.
  apply (find_first _ _ _ _ _ _ _ a); [apply lookup_insert_eq|]. by apply (moved_matches x v w a b).
Qed.

Lemma has_table u s i v : wf u s → dc_objs s !! i = Some v → ∃ b tab, dc_supers s !! d_sb v = Some b ∧ dtable (dc_supers s) (d_sb v) = Some tab.
Proof.
  intros Hwf Hi. destruct (su_obj _ _ (wf_supers _ _ _ _ _ Hwf) i (tview v) (tree_lookup s i v Hi)) as [b Hb]. cbn in Hb. exists b. unfold dtable. rewrite Hb. cbn.
  destruct (ds_isloop b) eqn:El; [|by eexists]. destruct (su_table _ _ (wf_supers _ _ _ _ _ Hwf) _ b Hb El) as [tab Ht]. by exists tab.
Qed.

Lemma parent_of u s i v : wf u s → dc_objs s !! i = Some v → ∃ p, dc_objs s !! d_parent v = Some p ∧ d_sb p = d_sb v.
Proof.
  intros Hwf Hi. destruct (tr_parent _ _ (wf_tree _ _ _ _ _ Hwf) i (tview v) (tree_lookup s i v Hi)) as (np & Hnp & Esp). cbn in Hnp, Esp.
  rewrite lookup_fmap in Hnp. apply fmap_Some in Hnp as (p & Hp & ->). by exists p.
Qed.

(** C14: [d_move] of a dentry onto a target, with both in the tree of one super block and neither above the other:
    it succeeds and keeps the cache consistent, the dentry keeps its inode and has the target's name and parent,
    the target is unhashed; a lookup of the new name finds the dentry, and a lookup of the old name finds
    nothing when no other dentry had it and the new name differs from it. *)
Theorem d_move_renames u s i t v w vpi fuel :
  wf u s → i ≠ t → dc_objs s !! i = Some v → dc_objs s !! t = Some w → d_parent v ≠ i → d_parent w ≠ t → d_sb v = d_sb w →
  has (d_flags v) DCACHE_DISCONNECTED = false → has (d_flags w) DCACHE_DISCONNECTED = false → dc_objs s !! d_parent v = Some vpi →
  d_ancestor fuel i t s = Ok (None, s) → d_ancestor fuel t i s = Ok (None, s) →
  ∃ s' a b s'', d_move fuel i t s = Ok ((), s') ∧ wf u s' ∧
    dc_objs s' !! i = Some a ∧ d_parent a = d_parent w ∧ d_name a = d_name w ∧ d_inode a = d_inode v ∧
    dc_objs s' !! t = Some b ∧ d_hashed b = None ∧
    d_lookup (d_parent w) (d_name w) (d_hashval w) s' = Ok (Some i, s'') ∧
    ((∀ y, d_matches (d_parent v) vpi (d_name v) (d_hashval v) (w <| d_hashed := Some y |>) = false) →
     (∀ j c, j ≠ i → j ≠ t → dc_objs s !! j = Some c → d_matches (d_parent v) vpi (d_name v) (d_hashval v) c = false) →
     d_lookup (d_parent v) (d_name v) (d_hashval v) s' = Ok (None, s')).
Proof using compare_refl.
  intros Hwf Hit Hi Ht Nv Nw Esb Hfv Hfw Hpi Ha1 Ha2.
  assert (d_parent v ≠ i ∧ d_parent v ≠ t) as N by (split; [done|by apply (ancestor_parent _ _ _ _ _ _ Ha2 Hi)]).
  assert (d_parent w ≠ i ∧ d_parent w ≠ t) as N' by (split; [by apply (ancestor_parent _ _ _ _ _ _ Ha1 Ht)|done]).
  destruct (has_table u s i v Hwf Hi) as (sb & tab & Hsb & Htab).
  destruct (parent_of u s i v Hwf Hi) as (p & Hp & Ep). rewrite Hpi in Hp. injection Hp as <-. destruct (parent_of u s t w Hwf Ht) as (vpt & Hpt & Eq).
  assert (dtable (dc_supers s) (d_sb vpi) = Some tab) as Htab1 by congruence. assert (dtable (dc_supers s) (d_sb vpt) = Some tab) as Htab2 by congruence.
  destruct (moved_run d_hash_shift d_hash_mask L1_CACHE_BYTES s i t Hit fuel v w vpi vpt tab) as (a & b & Hrun & M); try done; try apply N; try apply N'; [congruence|].
  pose proof (moved_wf u s i t v w a b tab Hwf Hit Hi Ht N N' Esb Htab M) as Hwf'.
  destruct (moved_new_found u s i t v w a b tab vpt Hwf' Hit M N' Hpt Htab2) as [s'' Hlook].
  set (s' := moving _ _ _ _ _ _ _) in *. injection (m_tree _ _ _ _ _ M) as Epa _ _ _. injection (m_hash' _ _ _ _ _ M) as Ehb _ _ _ _.
  exists s', a, b, s''. split_and!; try done; try apply M.
  - unfold PvfsDcache.d_move, groupfs_get_rename. rewrite (ST_bind_Ok _ _ s (if ds_isloop sb then RenameSb (d_sb v) else RenameGlobal) s); [done|].
    rewrite (ST_bind_Ok _ _ s v s) by (unfold dobj, st_deref; by rewrite Hi). by rewrite (ST_bind_Ok _ _ s sb s) by (unfold the_dsb, st_deref; by rewrite Hsb).
  - apply lookup_insert_eq.
  - cbn. by rewrite lookup_insert_ne, lookup_insert_eq.
  - intros Hold Hothers. by eapply (moved_old_gone u s i t v w a b _ vpi tab Hwf').
Qed.
End rename.
