(* ===== verification/PvfsDbuild.v ===== *)
(** * Partitioned VFS: building and partitioning the dentry cache

    Allocation and hashing keep the invariant of PvfsDtree.v; the table [mount_fs] gives a super block; the
    uninitialised pointer of [prune_dcache_sb]; the global counter of unused dentries. *)
From S2P Require Import Prelude Interfaces StateMonad PvfsDcache PvfsDtree PvfsDmove.

(** ** Allocation *)
Definition one_more (u : Z → Z) (i j : Z) : Z := if decide (j = i) then 1 else u j.

Lemma tree_ok_root u T i sb : tree_ok u T → T !! i = None → tree_ok (one_more u i) (<[i := TNode i sb [] 1]> T).
Proof.
  intros [T1 T2 T3 T4 T5 T6] Hi. split.
  - intros j n Hn. destruct (decide (j = i)) as [->|Hne].
    + rewrite lookup_insert_eq in Hn. injection Hn as <-. eexists. by rewrite lookup_insert_eq.
    + rewrite lookup_insert_ne in Hn by done. destruct (T1 j n Hn) as (p & Hp & E). exists p. rewrite lookup_insert_ne; [done|]. intros Ei. rewrite <- Ei in Hp. congruence.
  - intros j n c Hn. destruct (decide (j = i)) as [->|Hne].
    + rewrite lookup_insert_eq in Hn. injection Hn as <-. cbn. split; [by intros ?%elem_of_nil|]. intros (Hc & w & Hw & E). rewrite lookup_insert_ne in Hw by done.
      destruct (T1 c w Hw) as (p & Hp & _). congruence.
    + rewrite lookup_insert_ne in Hn by done. rewrite (T2 j n c Hn). apply and_iff_compat_l. destruct (decide (c = i)) as [->|Hc].
      * rewrite lookup_insert_eq, Hi. split; [by intros (? & ? & _)|]. intros (? & [= <-] & E). cbn in E. congruence.
      * by rewrite lookup_insert_ne.
  - intros j n [[<- <-]|[_ Hn]]%lookup_insert_Some; [constructor|by apply (T3 j)].
  - intros j n [[<- <-]|[Hne Hn]]%lookup_insert_Some; unfold one_more; [by rewrite decide_True|rewrite decide_False by done; by apply T4].
  - intros j. unfold one_more. case_decide; [done|apply T5].
  - intros j [Hj Hne]%lookup_insert_None. unfold one_more. rewrite decide_False by done. by apply T6.
Qed.

Definition add_sub (i : Z) (n : tnode) : tnode := TNode (t_parent n) (t_sb n) (i :: t_subs n) (t_count n + 1).

Lemma tree_ok_child u T i p n :
  tree_ok u T → T !! i = None → T !! p = Some n → tree_ok (one_more u i) (<[i := TNode p (t_sb n) [] 1]> (alter (add_sub i) p T)).
Proof.
  intros [T1 T2 T3 T4 T5 T6] Hi Hp. assert (p ≠ i) as Hpi by congruence. set (T' := <[i := _]> _).
  assert (T' !! i = Some (TNode p (t_sb n) [] 1)) as Hi' by apply lookup_insert_eq.
  assert (∀ j, j ≠ i → T' !! j = (if decide (j = p) then add_sub i else id) <$> T !! j) as HT.
  { intros j Hj. unfold T'. rewrite lookup_insert_ne by done. case_decide as E; [subst; by rewrite lookup_alter_eq|].
    rewrite lookup_alter_ne by done. by destruct (T !! j). }
  assert (∀ j x, j ≠ i → T' !! j = Some x → ∃ y, T !! j = Some y ∧ t_parent x = t_parent y ∧ t_sb x = t_sb y ∧
    t_subs x = (if decide (j = p) then [i] else []) ++ t_subs y ∧ t_count x = t_count y + (if decide (j = p) then 1 else 0)) as Hback.
  { intros j x Hj Hx. rewrite HT in Hx by done. apply fmap_Some in Hx as (y & Hy & ->). exists y. case_decide; cbn; split_and!; try done; lia. }
  assert (∀ j y, T !! j = Some y → ∃ x, T' !! j = Some x ∧ t_parent x = t_parent y ∧ t_sb x = t_sb y) as Hforth.
  { intros j y Hy. assert (j ≠ i) by congruence. rewrite HT, Hy by done. eexists. split; [done|]. by case_decide. }
  split.
  - intros j x Hx. destruct (decide (j = i)) as [->|Hne].
    + rewrite Hi' in Hx. injection Hx as <-. destruct (Hforth p n Hp) as (x & ? & _ & ?). by exists x.
    + destruct (Hback j x Hne Hx) as (y & Hy & -> & -> & _). destruct (T1 j y Hy) as (q & Hq & E). destruct (Hforth _ q Hq) as (x' & ? & _ & ?).
      exists x'. split; [done|congruence].
  - intros j x c Hx. destruct (decide (j = i)) as [->|Hne].
    + rewrite Hi' in Hx. injection Hx as <-. cbn. split; [by intros ?%elem_of_nil|]. intros (Hc & w & Hw & E). destruct (Hback c w Hc Hw) as (y & Hy & E' & _).
      destruct (T1 c y Hy) as (q & Hq & _). congruence.
    + destruct (Hback j x Hne Hx) as (y & Hy & _ & _ & -> & _). rewrite elem_of_app, (T2 j y c Hy). destruct (decide (c = i)) as [->|Hc].
      * rewrite Hi', Hi. split; [intros [H|(_ & ? & ? & _)]; [|done]|].
        -- case_decide as E; [subst|by apply elem_of_nil in H]. split; [done|]. by eexists.
        -- intros (_ & w & [= <-] & <-). left. rewrite decide_True by done. by left.
      * assert (c ∉ (if decide (j = p) then [i] else [])) as Hno by (case_decide; [rewrite list_elem_of_singleton; done|by intros ?%elem_of_nil]).
        split.
        -- intros [?|(Hcj & w & Hw & E)]; [done|]. split; [done|]. destruct (Hforth c w Hw) as (x' & ? & ? & _). exists x'. split; [done|congruence].
        -- intros (Hcj & w & Hw & E). right. split; [done|]. destruct (Hback c w Hc Hw) as (y' & ? & ? & _). exists y'. split; [done|congruence].
  - intros j x Hx. destruct (decide (j = i)) as [->|Hne]; [rewrite Hi' in Hx; injection Hx as <-; constructor|].
    destruct (Hback j x Hne Hx) as (y & Hy & _ & _ & -> & _). case_decide; [|by apply (T3 j)]. constructor; [|by apply (T3 j)].
    intros (_ & w & Hw & _)%(T2 j y i Hy). congruence.
  - intros j x Hx. unfold one_more. destruct (decide (j = i)) as [->|Hne]; [rewrite Hi' in Hx; by injection Hx as <-|].
    destruct (Hback j x Hne Hx) as (y & Hy & _ & _ & -> & ->). rewrite (T4 j y Hy), length_app. case_decide; cbn [length]; lia.
  - intros j. unfold one_more. case_decide; [done|apply T5].
  - intros j Hj. unfold one_more. destruct (decide (j = i)) as [->|Hne]; [congruence|]. apply T6. destruct (T !! j) eqn:E; [|done].
    destruct (Hforth j _ E) as (? & ? & _). congruence.
Qed.

Section build.
Variable d_hash_shift d_hash_mask L1_CACHE_BYTES : Z.

Abbreviation wf := (wf d_hash_shift d_hash_mask L1_CACHE_BYTES).
Abbreviation d_index := (d_index d_hash_shift d_hash_mask L1_CACHE_BYTES).
Abbreviation d_rehash := (d_rehash d_hash_shift d_hash_mask L1_CACHE_BYTES).
Abbreviation chains_ok := (chains_ok d_hash_shift d_hash_mask L1_CACHE_BYTES).

Lemma chains_ok_fresh S H C i h : chains_ok S H C → H !! i = None → h_at h = None → chains_ok S (<[i := h]> H) C.
Proof.
  intros [H1 H2] Hi Hh. split.
  - intros b j. rewrite H1. destruct (decide (j = i)) as [->|Hne]; [rewrite lookup_insert_eq, Hi; naive_solver congruence|by rewrite lookup_insert_ne].
  - intros j h' b [[<- <-]|[_ Hj]]%lookup_insert_Some; [congruence|by apply (H2 j)].
Qed.

Lemma lists_ok_fresh S L R i sb : lists_ok S L R → L !! i = None → lists_ok S (<[i := (None, sb)]> L) R.
Proof.
  intros [H1 H2 H3 H4] Hi.
  assert (∀ j r x, <[i := (None, sb)]> L !! j = Some (Some r, x) ↔ L !! j = Some (Some r, x)) as HL.
  { intros j r x. destruct (decide (j = i)) as [->|Hne]; [rewrite lookup_insert_eq, Hi; naive_solver|by rewrite lookup_insert_ne]. }
  split; [|done| |].
  - intros r j. rewrite H1. by setoid_rewrite HL.
  - intros j x y E%HL. by apply (H3 j).
  - intros x b Hb. rewrite (H4 x b Hb). do 2 f_equal. apply set_eq. intros j. rewrite !elem_of_unused. by setoid_rewrite HL.
Qed.

Definition new_dentry (parent : Z) (name : list Z) (hash sb flags : Z) : dentry :=
  Dentry parent name (DNAME_INLINE_LEN - 1 <? Z.of_nat (length name)) hash sb 1 flags 0 None false None None [].

(** The root of a super block. *)
Lemma wp_alloc_root u s sb name hash i b (Q : option Z → dcache → Prop) :
  wf u s → dc_objs s !! i = None → dc_supers s !! sb = Some b →
  (∀ s', wf (one_more u i) s' → dc_objs s' = <[i := new_dentry i name hash sb (d_set_d_op b)]> (dc_objs s) → dc_supers s' = dc_supers s → Q (Some i) s') →
  wp (__d_alloc sb name hash (Some i)) Q s.
Proof.
  intros [H1 H2 H3 H4] Hi Hb HQ. unfold __d_alloc. cbn zeta. apply wp_bind. eapply wp_deref; [exact Hb|]. apply wp_bind, wp_modify, wp_ret. fold (new_dentry i name hash sb (d_set_d_op b)). set (s' := s <| dc_objs ::= _ |> <| dc_nr_dentry ::= _ |>).
  assert (∀ {A} (f : dentry → A), (f <$> dc_objs s) !! i = None) as Hn by (intros A f; by rewrite lookup_fmap, Hi).
  apply HQ; try done. split; change (dc_objs s') with (<[i := new_dentry i name hash sb (d_set_d_op b)]> (dc_objs s)); rewrite fmap_insert.
  - by apply tree_ok_root.
  - by apply chains_ok_fresh.
  - by apply lists_ok_fresh.
  - destruct H4 as [S1 S2]. split; [done|]. intros j n [[<- <-]|[_ Hj]]%lookup_insert_Some; [by exists b|by apply (S2 j)].
Qed.

(** [d_alloc]: a child of a dentry, which gets a reference. *)
Lemma wp_d_alloc u s p vp b name hash i (Q : option Z → dcache → Prop) :
  wf u s → dc_objs s !! i = None → dc_objs s !! p = Some vp → dc_supers s !! d_sb vp = Some b →
  (∀ s', wf (one_more u i) s' → dc_objs s' !! i = Some (new_dentry p name hash (d_sb vp) (d_set_d_op b)) → dom (dc_objs s') = {[i]} ∪ dom (dc_objs s) → dc_supers s' = dc_supers s → Q (Some i) s') →
  wp (d_alloc p name hash (Some i)) Q s.
Proof.
  intros [H1 H2 H3 H4] Hi Hp Hb HQ. assert (p ≠ i) as Hpi by congruence. unfold d_alloc, __d_alloc. apply wp_bind. eapply wp_dobj; [done|].
  cbn zeta. apply wp_bind, wp_bind. eapply wp_deref; [exact Hb|].
  apply wp_bind, wp_modify, wp_ret, wp_bind, wp_modify, wp_bind, wp_modify, wp_bind, wp_modify, wp_ret. set (s' := _ <| dc_objs ::= _ |>).
  set (v := new_dentry p name hash (d_sb vp) (d_set_d_op b)). set (vp' := vp <| d_count ::= Z.succ |> <| d_subdirs ::= cons i |>).
  assert (dc_objs s' = <[i := v]> (<[p := vp']> (dc_objs s))) as Ho.
  { cbn -[alter]. apply map_eq. intros j. destruct (decide (j = p)) as [->|Hjp].
    - by rewrite lookup_alter_eq, lookup_alter_ne, lookup_alter_eq, !lookup_insert_ne, lookup_insert_eq, Hp by done.
    - rewrite lookup_alter_ne by done. destruct (decide (j = i)) as [->|Hji].
      + by rewrite lookup_alter_eq, lookup_alter_ne, !lookup_insert_eq by done.
      + by rewrite !lookup_alter_ne, !lookup_insert_ne by done. }
  assert (∀ {A} (f : dentry → A), (f <$> dc_objs s) !! i = None) as Hn by (intros A f; by rewrite lookup_fmap, Hi).
  assert (hview <$> <[p := vp']> (dc_objs s) = hashes s) as EH by (rewrite fmap_insert; change (hview vp') with (hview vp); by apply insert_id, hashes_lookup).
  assert (lview <$> <[p := vp']> (dc_objs s) = lrus s) as EL by (rewrite fmap_insert; change (lview vp') with (lview vp); by apply insert_id, lrus_lookup).
  assert (tview <$> <[p := vp']> (dc_objs s) = alter (add_sub i) p (tree s)) as ET.
  { rewrite fmap_insert, (alter_insert_lookup _ _ p (tview vp)) by (by apply tree_lookup). done. }
  apply HQ; [|by rewrite Ho, lookup_insert_eq| |done].
  2:{ rewrite Ho, !dom_insert_L. assert (p ∈ dom (dc_objs s)) by (apply elem_of_dom; by exists vp). set_solver. }
  split; rewrite Ho, fmap_insert, ?EH, ?EL, ?ET.
  - apply (tree_ok_child u (tree s) i p (tview vp)); [done|apply Hn|by apply tree_lookup].
  - apply chains_ok_fresh; [done|apply Hn|done].
  - apply lists_ok_fresh; [done|apply Hn].
  - destruct H4 as [S1 S2]. pose proof (S2 p (tview vp) (tree_lookup s p vp Hp)) as Hsb. split; [done|]. intros j n [[<- <-]|[_ Hj]]%lookup_insert_Some; [done|].
    destruct (decide (j = p)) as [->|Hne]; [|rewrite lookup_alter_ne in Hj by done; by apply (S2 j)].
    rewrite lookup_alter_eq, (tree_lookup s p vp Hp) in Hj. by injection Hj as <-.
Qed.

Lemma wp_d_rehash u s i v (Q : () → dcache → Prop) :
  wf u s → dc_objs s !! i = Some v → d_hashed v = None → has (d_flags v) DCACHE_DISCONNECTED = false →
  (∀ s' v' b, wf u s' → hash_only s s' i v v' → d_hashed v' = Some b → dchain s' b = i :: dchain s b → Q () s') → wp (d_rehash i) Q s.
Proof.
  intros Hwf Hi Hn Hf HQ. unfold PvfsDcache.d_rehash. apply wp_bind. eapply wp_dobj; [done|]. apply wp_bind.
  destruct (parent_of _ _ _ u s i v Hwf Hi) as (vp & Hp & Esb). apply (wp_d_hash _ _ _ u s (d_parent v) vp); [done|done|]. intros t Ht.
  set (b := inl (t, _)). unfold __d_rehash, hlist_bl_add_head. apply wp_bind. eapply wp_dobj; [done|]. unfold d_unhashed. rewrite Hn.
  apply wp_bind, wp_ret, wp_bind, wp_modify, wp_bind, wp_modify, wp_modify.
  set (v' := v <| d_flags ::= λ x, Z.lor x DCACHE_RCUACCESS |> <| d_hashed := Some b |>). set (s' := _ <| dc_objs ::= _ |>).
  assert (dc_objs s' = <[i := v']> (dc_objs s)) as Ho.
  { cbn -[alter]. rewrite (alter_insert_lookup _ (dc_objs s) i v) by done. rewrite (alter_insert_lookup _ _ i _ (lookup_insert_eq _ _ _)). apply insert_insert_eq. }
  assert (hash_only s s' i v v') as Hho by done.
  assert (∀ x, dchain s' x = if decide (x = b) then i :: dchain s b else dchain s x) as Hc.
  { intros x. change (dchain s' x) with (dchain (s <| dc_chains ::= <[b := i :: dchain s b]> |>) x). apply dchain_insert. }
  apply (HQ s' v' b); [|done|done|by rewrite Hc, decide_True]. apply (wf_hash_only _ _ _ u s s' i v v'); [done..|].
  rewrite Ho, fmap_insert. replace (hview v') with (HNode (Some b) (h_anon (hview v)) (h_sb (hview v)) (h_parent (hview v)) (h_val (hview v))).
  - apply (chains_ok_add _ _ _ (dc_supers s) (hashes s) (dchain s)); [apply Hwf|by apply hashes_lookup|done| |done].
    unfold home. cbn. rewrite Hf. cbn. rewrite <- Esb, Ht. done.
  - unfold hview. cbn. by rewrite has_lor_l, orb_false_r.
Qed.

(** No dentries. *)
Lemma wf_empty S : (∀ sb b, S !! sb = Some b → ds_nr_unused b = 0 ∧ (ds_isloop b = true → is_Some (ds_table b))) → wf (λ _, 0) (DCache ∅ S ∅ ∅ 0 0 []).
Proof.
  intros HS. split; cbn [dc_objs dc_supers]; rewrite fmap_empty.
  - split; try done; intros i n; by rewrite lookup_empty.
  - split; [|intros i h b; by rewrite lookup_empty]. intros b i. rewrite lookup_empty. split; [by intros ?%elem_of_nil|naive_solver].
  - split.
    + intros r i. rewrite lookup_empty. split; [by intros ?%elem_of_nil|naive_solver].
    + constructor.
    + intros i x y. by rewrite lookup_empty.
    + intros sb b Hb. destruct (HS sb b Hb) as [-> _]. unfold unused_of. by rewrite map_filter_empty, dom_empty_L, size_empty.
  - split; [intros sb b Hb; by apply (HS sb b)|intros i n; by rewrite lookup_empty].
Qed.
End build.

(** ** Mounting *)
Section remount.
Variable d_hash_shift d_hash_mask L1_CACHE_BYTES : Z.
Variable d_compare : list Z → list Z → bool.

Abbreviation d_index := (d_index d_hash_shift d_hash_mask L1_CACHE_BYTES).
Abbreviation d_hash := (d_hash d_hash_shift d_hash_mask L1_CACHE_BYTES).
Abbreviation d_lookup := (d_lookup d_hash_shift d_hash_mask L1_CACHE_BYTES d_compare).
Abbreviation __d_shrink := (__d_shrink d_hash_shift d_hash_mask L1_CACHE_BYTES).

(** A further mount of a loop device replaces the dentry table of its super block: no dentry below a dentry of
    the super block is found any more, so that a second dentry is made for a name in use; and unhashing one
    of the old dentries takes it out of its old chain under the lock of a bucket of the new table. *)
Theorem remount_loses_dentries s sb b t p vp i v bk :
  dc_supers s !! sb = Some b → dc_objs s !! p = Some vp → d_sb vp = sb →
  dc_objs s !! i = Some v → d_parent v = p → d_hashed v = Some (inl bk) → has (d_flags v) DCACHE_DISCONNECTED = false → bk.1 ≠ t →
  ∃ s1, mount_dentry_table sb (Some t) s = Ok ((), s1) ∧
    (∀ name h, d_lookup p name h s1 = Ok (None, s1)) ∧
    ∃ locked s2, __d_shrink i s1 = Ok (Some locked, s2) ∧ locked ≠ inl bk ∧ i ∉ dchain s2 (inl bk).
Proof.
  intros Hb Hp Hsb Hi Hpar Hh Hf Ht. set (b1 := b <| ds_table := Some t |> <| ds_isloop := true |>).
  set (s1 := s <| dc_chains ::= filter (λ x, in_table t x.1 = false) |> <| dc_supers ::= alter (λ b, b <| ds_table := Some t |> <| ds_isloop := true |>) sb |>).
  assert (dobj p s1 = Ok (vp, s1)) as Ep by (unfold dobj, st_deref; cbn; by rewrite Hp).
  assert (dobj i s1 = Ok (v, s1)) as Ei by (unfold dobj, st_deref; cbn; by rewrite Hi).
  assert (the_dsb sb s1 = Ok (b1, s1)) as Eb by (unfold the_dsb, st_deref; cbn; by rewrite lookup_alter_eq, Hb).
  assert (∀ h, d_hash p h s1 = Ok (inl (t, d_index p h), s1)) as Eh.
  { intros h. unfold PvfsDcache.d_hash. rewrite (ST_bind_Ok _ _ _ _ _ Ep), Hsb, (ST_bind_Ok _ _ _ _ _ Eb). done. }
  assert (∀ h, dchain s1 (inl (t, h)) = []) as Hc.
  { intros h. unfold dchain. cbn. rewrite map_lookup_filter_None_2; [done|]. right. intros l _. cbn. by rewrite Z.eqb_refl. }
  exists s1. split; [done|]. split.
  - intros name h. unfold PvfsDcache.d_lookup, __d_lookup, groupfs_get_rename.
    rewrite (ST_bind_Ok _ _ s1 (RenameSb sb) s1) by (by rewrite (ST_bind_Ok _ _ _ _ _ Ep), Hsb, (ST_bind_Ok _ _ _ _ _ Eb)).
    rewrite (ST_bind_Ok _ _ _ _ _ (Eh h)), (ST_bind_Ok _ _ _ _ _ Ep), (ST_bind_Ok _ _ s1 [] s1); [done|]. unfold st_get. by rewrite Hc.
  - exists (inl (t, d_index p (d_hashval v))). eexists. unfold PvfsDcache.__d_shrink.
    rewrite (ST_bind_Ok _ _ _ _ _ Ei), Hh, Hf, Hpar, (ST_bind_Ok _ _ _ _ _ (Eh _)). split; [reflexivity|]. split; [by intros [= <-]|].
    change (i ∉ dchain (s1 <| dc_chains ::= <[inl bk := filter (.≠ i) (dchain s1 (inl bk))]> |>) (inl bk)).
    rewrite dchain_insert, decide_True by done. by intros [? _]%list_elem_of_filter.
Qed.
End remount.

(** [prune_dcache_sb] takes the lock of the super block of a dentry variable it has not assigned: with garbage
    in it the kernel oopses, and with a stale pointer to a dentry of another loop device it walks the LRU list
    under the lock of the other super block. *)
Theorem prune_dcache_sb_uninitialised sh mk l1 fuel sb count dentry s :
  (dc_objs s !! dentry = None → prune_dcache_sb sh mk l1 fuel sb count dentry s = Oops) ∧
  (∀ v b, dc_objs s !! dentry = Some v → dc_supers s !! d_sb v = Some b → ds_isloop b = true → d_sb v ≠ sb →
    groupfs_get_dlru dentry s = Ok (LruSb (d_sb v), s) ∧ LruSb (d_sb v) ≠ LruSb sb).
Proof.
  split.
  - intros Hn. unfold prune_dcache_sb, groupfs_get_dlru. do 2 apply ST_bind_Oops. unfold dobj, st_deref. by rewrite Hn.
  - intros v b Hv Hb Hl Hne. split; [|congruence]. unfold groupfs_get_dlru. rewrite (ST_bind_Ok _ _ s v s) by (unfold dobj, st_deref; by rewrite Hv).
    rewrite (ST_bind_Ok _ _ s b s) by (unfold the_dsb, st_deref; by rewrite Hb). by rewrite Hl.
Qed.

Lemma prune_dcache_sb_uninitialised_witness :
  dc_objs (DCache ∅ ∅ ∅ ∅ 0 0 []) !! 5 = None ∧ prune_dcache_sb 10 1023 64 3 2 128 5 (DCache ∅ ∅ ∅ ∅ 0 0 []) = Oops.
Proof. split; [reflexivity|]. apply (proj1 (prune_dcache_sb_uninitialised 10 1023 64 3 2 128 5 (DCache ∅ ∅ ∅ ∅ 0 0 []))). reflexivity. Defined.

(** ** A small cache: a root, two files [a] and [b] on a loop device *)
Definition sample_base : dcache := DCache ∅ {[2 := DSuper true (Some 7) (Some 64) 0 0]} ∅ ∅ 0 0 [].

Definition sample_ops : D () :=
  _ ← __d_alloc 2 [47] 0 (Some 64);
  _ ← d_alloc 64 [97] 5 (Some 128);
  _ ← d_rehash 10 1023 64 128;
  _ ← d_alloc 64 [98] 6 (Some 192);
  d_rehash 10 1023 64 192.

Definition sample : dcache := match sample_ops sample_base with Ok (_, s) => s | _ => sample_base end.
Definition sample_users : Z → Z := one_more (one_more (one_more (λ _, 0) 64) 128) 192.

Lemma sample_wf : wf 10 1023 64 sample_users sample.
Proof.
  assert (wp sample_ops (λ _ s, wf 10 1023 64 sample_users s) sample_base) as ([] & s & E & Hwf); [|unfold sample; by rewrite E].
  unfold sample_ops. apply wp_bind. apply (wp_alloc_root 10 1023 64 (λ _, 0) sample_base 2 [47] 0 64 (DSuper true (Some 7) (Some 64) 0 0)); [|done|done|].
  { apply wf_empty. intros sb b [<- <-]%lookup_singleton_Some. cbn. eauto. }
  intros s1 H1 Ho1 S1. assert (dom (dc_objs s1) = {[64]}) as D1 by (rewrite Ho1; by vm_compute).
  apply wp_bind. eapply (wp_d_alloc 10 1023 64 (one_more (λ _, 0) 64) s1 64 (new_dentry 64 [47] 0 2 0)); [done|by rewrite Ho1|by rewrite Ho1|by rewrite S1|].
  intros s2 H2 Ho2 D2 S2. rewrite D1 in D2. apply wp_bind. eapply (wp_d_rehash 10 1023 64); [exact H2|exact Ho2|done|done|].
  intros s3 v3 b3 H3 Hho3 _ _. assert (dom (dc_objs s3) = {[128]} ∪ ({[128]} ∪ {[64]})) as D3 by (rewrite (ho_objs _ _ _ _ _ Hho3), dom_insert_L, D2; set_solver).
  assert (is_Some (dc_objs s3 !! 64)) as [v64 H64] by (apply elem_of_dom; rewrite D3; set_solver).
  assert (dc_supers s3 = {[2 := DSuper true (Some 7) (Some 64) 0 0]}) as S3 by (by rewrite (ho_supers _ _ _ _ _ Hho3), S2, S1).
  destruct (has_table 10 1023 64 _ s3 64 v64 H3 H64) as (b64 & _ & Hb64 & _).
  assert (b64 = DSuper true (Some 7) (Some 64) 0 0) as -> by (rewrite S3 in Hb64; by apply lookup_singleton_Some in Hb64 as [_ <-]).
  apply wp_bind. eapply (wp_d_alloc 10 1023 64 (one_more (one_more (λ _, 0) 64) 128) s3 64 v64); [done|apply not_elem_of_dom; rewrite D3; set_solver|done|exact Hb64|].
  intros s4 H4 Ho4 D4 _. eapply (wp_d_rehash 10 1023 64); [exact H4|exact Ho4|done|done|]. by intros.
Qed.

Definition no_delete (v : dentry) : bool := false.
Definition name_compare (n m : list Z) : bool := negb (bool_decide (n = m)).

(** File [a] is put, then the cache is shrunk. *)
Lemma dput_drops_reference_witness :
  ∃ s', dput 10 1023 64 no_delete 4 128 sample = Ok ((), s') ∧ wf 10 1023 64 (less sample_users 128) s' ∧ dlist_of s' (inl 2) = [128].
Proof.
  destruct (dput_drops_reference 10 1023 64 no_delete sample_users sample 128 3 sample_wf) as (s' & Hr & Hwf & _).
  - vm_compute. reflexivity.
  - vm_compute. lia.
  - exists s'. split; [exact Hr|]. split; [exact Hwf|]. vm_compute in Hr. injection Hr as <-. vm_compute. reflexivity.
Defined.

Definition sample_put : dcache := match dput 10 1023 64 no_delete 4 128 sample with Ok (_, s) => s | _ => sample end.

Lemma sample_put_wf : wf 10 1023 64 (less sample_users 128) sample_put.
Proof.
  destruct (dput_ok 10 1023 64 no_delete 3 sample sample_users 128 sample_wf) as ([] & s' & Hr & Hwf & _); [by vm_compute|vm_compute; lia|].
  unfold sample_put. by rewrite Hr.
Qed.

Lemma shrink_dcache_sb_empties_witness :
  dlist_of sample_put (inl 2) = [128] ∧
  ∃ s', shrink_dcache_sb 10 1023 64 5 2 sample_put = Ok ((), s') ∧ dlist_of s' (inl 2) = [] ∧ dc_objs s' !! 128 = None ∧ is_Some (dc_objs s' !! 192).
Proof.
  split; [vm_compute; reflexivity|].
  destruct (shrink_dcache_sb_empties 10 1023 64 (less sample_users 128) sample_put 2 (DSuper true (Some 7) (Some 64) 1 0) 64 4 sample_put_wf) as (s' & Hr & _ & He & Hk & _).
  - vm_compute. reflexivity.
  - reflexivity.
  - vm_compute. reflexivity.
  - intros m. destruct m as [|m]; vm_compute; reflexivity.
  - vm_compute. lia.
  - exists s'. split; [exact Hr|]. split; [exact He|]. split; [|apply Hk; vm_compute; reflexivity].
    vm_compute in Hr. injection Hr as <-. vm_compute. reflexivity.
Defined.

(** File [a] is renamed to [b]. *)
Lemma d_move_renames_witness :
  ∃ s' s'', d_move 10 1023 64 3 128 192 sample = Ok ((), s') ∧ d_lookup 10 1023 64 name_compare 64 [98] 6 s' = Ok (Some 128, s'') ∧
    d_lookup 10 1023 64 name_compare 64 [97] 5 s' = Ok (None, s').
Proof.
  destruct (dc_objs sample !! 128) as [v|] eqn:Hv; [|by vm_compute in Hv]. destruct (dc_objs sample !! 192) as [w|] eqn:Hw; [|by vm_compute in Hw].
  destruct (dc_objs sample !! 64) as [vp|] eqn:Hp; [|by vm_compute in Hp].
  assert (Ev := Hv). assert (Ew := Hw). vm_compute in Ev, Ew. injection Ev as <-. injection Ew as <-.
  destruct (d_move_renames 10 1023 64 name_compare) with (u := sample_users) (s := sample) (i := 128) (t := 192) (vpi := vp) (fuel := 3%nat)
    (5 := Hw) (4 := Hv) as (s' & a & b & s'' & Hr & _ & _ & _ & _ & _ & _ & _ & Hl & Ho).
  - intros n. unfold name_compare. by rewrite bool_decide_true.
  - exact sample_wf.
  - done.
  - done.
  - done.
  - reflexivity.
  - reflexivity.
  - reflexivity.
  - exact Hp.
  - vm_compute. reflexivity.
  - vm_compute. reflexivity.
  - exists s', s''. split; [exact Hr|]. split; [exact Hl|]. apply Ho.
    + intros y. reflexivity.
    + intros j c Hj1 Hj2 Hc. assert (j = 64) as ->.
      { assert (j ∈ dom (dc_objs sample)) as Hd by (apply elem_of_dom; by exists c). replace (dom (dc_objs sample)) with ({[64; 128; 192]} : gset Z) in Hd by (by vm_compute).
        clear -Hd Hj1 Hj2; set_solver. }
      vm_compute in Hc. injection Hc as <-. reflexivity.
Defined.

Lemma remount_loses_dentries_witness :
  ∃ s1, mount_dentry_table 2 (Some 9) sample = Ok ((), s1) ∧ d_lookup 10 1023 64 name_compare 64 [97] 5 s1 = Ok (None, s1).
Proof.
  destruct (dc_objs sample !! 128) as [v|] eqn:Hv; [|by vm_compute in Hv].
  destruct (dc_objs sample !! 64) as [vp|] eqn:Hp; [|by vm_compute in Hp].
  assert (Ev := Hv). assert (Ep := Hp). vm_compute in Ev, Ep. injection Ev as <-. injection Ep as <-.
  destruct (remount_loses_dentries 10 1023 64 name_compare sample 2 (DSuper true (Some 7) (Some 64) 0 0) 9 64 _ 128 _ (7, 6) eq_refl Hp eq_refl Hv) as (s1 & H1 & H2 & _);
    try reflexivity; [done|].
  exists s1. split; [exact H1|apply H2].
Defined.
