(* ===== verification/PvfsUnused.v ===== *)
(** * Partitioned VFS: the global counter of unused dentries

    [dentry_lru_add] and [__dentry_lru_del] of fs/dcache.c change, under the LRU lock [groupfs_get_dlru] gives, the
    counter of the super block and the global [dentry_stat.nr_unused].  The latter is a plain integer: a thread
    reads it, adds to it and writes it back.  Super blocks on loop devices have locks of their own. *)
From S2P Require Import Prelude Interfaces.

(** A thread outside of the critical section; with the lock taken, about to change the counters by [d]; with the
    global counter read. *)
Inductive upc :=
  | UIdle
  | UHeld (sb : nat) (d : Z)
  | URead (sb : nat) (d : Z) (r : Z).

Record ustate := UState {
  us_total : Z;                (** [dentry_stat.nr_unused] *)
  us_of : list Z;              (** [s_nr_dentry_unused] of the super blocks *)
  us_locked : gset (option nat);
  us_pcs : list upc;
}.

Section unused.
Variable isloop : nat → bool.

(** [groupfs_get_dlru]: [None] is the global [dcache_lru_lock]. *)
Definition lru_lock (sb : nat) : option nat := if isloop sb then Some sb else None.

(** A dentry of [sb] is put on ([d] is 1) or taken off ([d] is -1) the LRU list. *)
Inductive ustep : ustate → ustate → Prop :=
  | u_lock k sb d s :
      us_pcs s !! k = Some UIdle → (sb < length (us_of s))%nat → d = 1 ∨ d = -1 → lru_lock sb ∉ us_locked s →
      ustep s (UState (us_total s) (us_of s) ({[lru_lock sb]} ∪ us_locked s) (<[k := UHeld sb d]> (us_pcs s)))
  | u_read k sb d n s :
      us_pcs s !! k = Some (UHeld sb d) → us_of s !! sb = Some n →
      ustep s (UState (us_total s) (<[sb := n + d]> (us_of s)) (us_locked s) (<[k := URead sb d (us_total s)]> (us_pcs s)))
  | u_write k sb d r s :
      us_pcs s !! k = Some (URead sb d r) →
      ustep s (UState (r + d) (us_of s) (us_locked s ∖ {[lru_lock sb]}) (<[k := UIdle]> (us_pcs s))).

Definition idle (s : ustate) : Prop := Forall (λ p, p = UIdle) (us_pcs s).
Definition exact (s : ustate) : Prop := us_total s = sumZ id (us_of s).
End unused.

(** ** One lock for all *)
Section one_lock.
Variable isloop : nat → bool.
Hypothesis no_loop : ∀ sb, isloop sb = false.

(** What the only thread that has the lock has done. *)
Definition pending (s : ustate) (p : upc) : Prop :=
  match p with
  | UIdle => False
  | UHeld _ _ => exact s
  | URead _ d r => r = us_total s ∧ sumZ id (us_of s) = us_total s + d
  end.

Definition uinv (s : ustate) : Prop :=
  (us_locked s = ∅ ∧ idle s ∧ exact s) ∨
  (us_locked s = {[None]} ∧ ∃ k p, us_pcs s !! k = Some p ∧ pending s p ∧ ∀ j q, us_pcs s !! j = Some q → j ≠ k → q = UIdle).

Lemma lock_global sb : lru_lock isloop sb = None.
Proof using no_loop. unfold lru_lock. by rewrite no_loop. Qed.

Lemma busy_is s k p q j : us_pcs s !! k = Some p → us_pcs s !! j = Some q → (∀ j q, us_pcs s !! j = Some q → j ≠ k → q = UIdle) → q ≠ UIdle → j = k ∧ q = p.
Proof.
  intros Hk Hj Hoth Hq. destruct (decide (j = k)) as [->|Hne]; [split; [done|congruence]|]. by destruct (Hq (Hoth j q Hj Hne)).
Qed.

Lemma uinv_step s s' : uinv s → ustep isloop s s' → uinv s'.
Proof using no_loop.
  intros Hinv Hs. destruct Hs as [k sb d s Hk Hlt Hd Hl|k sb d n s Hk Hn|k sb d r s Hk].
  - rewrite lock_global in *. destruct Hinv as [(El & Hid & Hex)|(El & _)]; [|rewrite El in Hl; set_solver].
    right. cbn. rewrite El. split; [set_solver|]. exists k, (UHeld sb d). rewrite list_lookup_insert_eq by (by eapply lookup_lt_Some). split_and!; [done|done|].
    intros j q Hj Hne. rewrite list_lookup_insert_ne in Hj by done. by apply (Forall_lookup_1 _ _ j q Hid).
  - destruct Hinv as [(_ & Hid & _)|(El & k' & p & Hk' & Hp & Hoth)]; [by apply (Forall_lookup_1 _ _ k _ Hid) in Hk|].
    destruct (busy_is s k' p _ k Hk' Hk Hoth) as [-> <-]; [done|]. right. cbn. split; [done|]. exists k', (URead sb d (us_total s)).
    rewrite list_lookup_insert_eq by (by eapply lookup_lt_Some). split_and!; [done| |].
    + split; [done|]. change (sumZ id (<[sb := n + d]> (us_of s)) = us_total s + d). rewrite (sumZ_insert id _ _ _ _ Hn). change (us_total s = sumZ id (us_of s)) in Hp. unfold id at 2 3. lia.
    + intros j q Hj Hne. rewrite list_lookup_insert_ne in Hj by done. by apply (Hoth j).
  - destruct Hinv as [(_ & Hid & _)|(El & k' & p & Hk' & Hp & Hoth)]; [by apply (Forall_lookup_1 _ _ k _ Hid) in Hk|].
    destruct (busy_is s k' p _ k Hk' Hk Hoth) as [-> <-]; [done|]. destruct Hp as [-> Hsum]. rewrite lock_global. left. cbn. rewrite El.
    split; [set_solver|]. split; [|unfold exact; cbn [us_total us_of]; lia]. apply Forall_lookup_2. intros j q Hj. cbn in Hj.
    destruct (decide (j = k')) as [->|Hne]; [rewrite list_lookup_insert_eq in Hj by (by eapply lookup_lt_Some); by injection Hj|].
    rewrite list_lookup_insert_ne in Hj by done. by apply (Hoth j).
Qed.

Lemma uinv_reach s s' : uinv s → rtc (ustep isloop) s s' → uinv s'.
Proof using no_loop. intros Hinv Hr. induction Hr as [|x y z Hxy _ IH]; [done|]. by apply IH, (uinv_step x). Qed.
End one_lock.

(** While no super block is on a loop device, the one LRU lock makes the global counter of unused dentries exact
    whenever no thread is in a critical section; with two super blocks on loop devices, whose locks differ,
    two threads that put a dentry on the LRU list at the same time lose one of the two increments. *)
Theorem nr_unused_race :
  (∀ isloop n m s, (∀ sb, isloop sb = false) → rtc (ustep isloop) (UState 0 (replicate m 0) ∅ (replicate n UIdle)) s → idle s → exact s) ∧
  ∃ s, rtc (ustep (λ _, true)) (UState 0 [0; 0] ∅ [UIdle; UIdle]) s ∧ idle s ∧ us_total s = 1 ∧ us_of s = [1; 1].
Proof.
  split.
  - intros isloop n m s Hno Hr Hid.
    assert (uinv s) as Hinv.
    { apply (uinv_reach isloop Hno _ s) in Hr; [done|]. left. split_and!; [done|apply Forall_replicate; done|]. unfold exact. cbn [us_total us_of]. clear.
      induction m as [|m IH]; [done|]. change (0 = 0 + sumZ id (replicate m 0)). lia. }
    destruct Hinv as [(_ & _ & ?)|(_ & k & p & Hk & Hp & _)]; [done|]. apply (Forall_lookup_1 _ _ k _ Hid) in Hk. by subst.
  - eexists. split_and!.
    + eapply rtc_l; [apply (u_lock _ 0 0 1); [done|cbn; lia|by left|set_solver]|]. eapply rtc_l; [apply (u_lock _ 1 1 1); [done|cbn; lia|by left|set_solver]|].
      eapply rtc_l; [by apply (u_read _ 0 0 1 0)|]. eapply rtc_l; [by apply (u_read _ 1 1 1 0)|].
      eapply rtc_l; [by apply (u_write _ 0 0 1 0)|]. eapply rtc_l; [by apply (u_write _ 1 1 1 0)|]. apply rtc_refl.
    + by repeat constructor.
    + done.
    + done.
Qed.
