(* ===== verification/Attr.v ===== *)
(** * Attributes of inodes

    Models the attribute code of the VFS in fs/attr.c ([inode_newsize_ok], [inode_change_ok],
    [setattr_copy], [notify_change]), [simple_setattr] of fs/libfs.c, [should_remove_suid] and
    [inode_owner_or_capable] of fs/inode.c and the callers [do_truncate], [chmod_common] and
    [chown_common] of fs/open.c, all of the 3.8.2 tree.  SFS calls [notify_change] on the replicas
    from its own [setattr], which [notify_change] has called.

    The structure [iattr] is passed by reference: a function that gets it returns the new content with
    its value.  Locks, and the notifications that follow a change, are left out. *)
From S2P Require Import Prelude Interfaces StateMonad SfsDispatch SfsNamei.

Definition ATTR_MODE : Z := 2 ^ 0.
Definition ATTR_UID : Z := 2 ^ 1.
Definition ATTR_GID : Z := 2 ^ 2.
Definition ATTR_SIZE : Z := 2 ^ 3.
Definition ATTR_ATIME : Z := 2 ^ 4.
Definition ATTR_MTIME : Z := 2 ^ 5.
Definition ATTR_CTIME : Z := 2 ^ 6.
Definition ATTR_ATIME_SET : Z := 2 ^ 7.
Definition ATTR_MTIME_SET : Z := 2 ^ 8.
Definition ATTR_FORCE : Z := 2 ^ 9.
Definition ATTR_KILL_SUID : Z := 2 ^ 11.
Definition ATTR_KILL_SGID : Z := 2 ^ 12.
Definition ATTR_FILE : Z := 2 ^ 13.
Definition ATTR_KILL_PRIV : Z := 2 ^ 14.
Definition ATTR_TIMES_SET : Z := 2 ^ 16.

Definition S_ISUID : Z := 2048.
Definition S_ISGID : Z := 1024.
Definition S_IXGRP : Z := 8.
Definition S_IALLUGO : Z := 4095.
Definition S_APPEND : Z := 4.
Definition S_IMMUTABLE : Z := 8.
Definition S_SWAPFILE : Z := 256.
Definition S_NOSEC : Z := 4096.
Definition CAP_CHOWN : Z := 0.
Definition CAP_FOWNER : Z := 3.
Definition CAP_FSETID : Z := 4.

Record iattr := IAttr {
  ia_valid : Z; ia_mode : Z; ia_uid : Z; ia_gid : Z; ia_size : Z;
  ia_atime : Z; ia_mtime : Z; ia_ctime : Z; ia_file : Z;
}.

(** The fields of [struct inode] and of its super block the code reads. *)
Record inode := Inode {
  i_ino : Z; i_mode : Z; i_nlink : Z; i_uid : Z; i_gid : Z; i_rdev : Z; i_size : Z;
  i_atime : Z; i_mtime : Z; i_ctime : Z; i_blkbits : Z; i_blocks : Z; i_flags : Z; i_version : Z;
  s_dev : Z; s_time_gran : Z; s_maxbytes : Z; s_i_version : bool;
}.

(** The calling task, the security module and the clock. *)
Class Task := {
  fsuid : Z;
  in_group_p : Z → bool;
  (** [inode_capable], which looks at the owner of the inode only *)
  uid_capable : Z → Z → bool;
  (** [capable] *)
  task_capable : Z → bool;
  (** [rlimit (RLIMIT_FSIZE)]; [None] for [RLIM_INFINITY] *)
  rlimit_fsize : option Z;
  security_inode_need_killpriv : Z → Z;
  security_inode_killpriv : Z → Z;
  security_inode_setattr : Z → iattr → Z;
  security_path : Z → Z;
  time_at : nat → Z;
  timespec_trunc : Z → Z → Z;
}.

(** Dentries and inodes, of SFS and of the file systems below; [clock] counts the calls of
    [current_fs_time]. *)
Record istate := IState {
  d_inodes : gmap Z Z;
  d_fsdata : gmap Z sfs_dentry;
  inodes : gmap Z inode;
  clock : nat;
}.

Abbreviation I := (ST istate).
Definition BUG {A} : I A := st_oops.
(** [dentry->d_inode], followed *)
Definition the_inode (dentry : Z) : I Z := st_deref (λ s, d_inodes s !! dentry).
Definition read_inode (i : Z) : I inode := st_deref (λ s, inodes s !! i).
Definition write_inode (i : Z) (f : inode → inode) : I () :=
  st_modify (λ s, s <| inodes ::= alter f i |>).

Section attr.
Context {task : Task}.

Definition current_fs_time : I Z := λ s, Ok (time_at (clock s), s <| clock ::= S |>).

Definition inode_capable (i : inode) (cap : Z) : bool := uid_capable (i_uid i) cap.

Definition inode_owner_or_capable (i : inode) : bool :=
  if fsuid =? i_uid i then true else if inode_capable i CAP_FOWNER then true else false.

Definition ETXTBSY : Z := 26.

Definition inode_newsize_ok (i : inode) (offset : Z) : Z :=
  if i_size i <? offset then
    if match rlimit_fsize with Some limit => limit <? offset | None => false end then - EFBIG
    else if s_maxbytes i <? offset then - EFBIG
    else 0
  else if has (i_flags i) S_SWAPFILE then - ETXTBSY else 0.

Definition inode_change_ok (i : inode) (attr : iattr) : iattr * Z :=
  let valid := ia_valid attr in
  let error := if has valid ATTR_SIZE then inode_newsize_ok i (ia_size attr) else 0 in
  if negb (error =? 0) then (attr, error) else
  if has valid ATTR_FORCE then (attr, 0) else
  if has valid ATTR_UID && (negb (fsuid =? i_uid i) || negb (ia_uid attr =? i_uid i)) &&
     negb (inode_capable i CAP_CHOWN) then (attr, - EPERM) else
  if has valid ATTR_GID &&
     (negb (fsuid =? i_uid i) || (negb (in_group_p (ia_gid attr)) && negb (ia_gid attr =? i_gid i))) &&
     negb (inode_capable i CAP_CHOWN) then (attr, - EPERM) else
  if has valid ATTR_MODE && negb (inode_owner_or_capable i) then (attr, - EPERM) else
  let attr :=
    if has valid ATTR_MODE &&
       negb (in_group_p (if has valid ATTR_GID then ia_gid attr else i_gid i)) &&
       negb (inode_capable i CAP_FSETID)
    then attr <| ia_mode := clear (ia_mode attr) S_ISGID |> else attr in
  if has valid (Z.lor (Z.lor ATTR_MTIME_SET ATTR_ATIME_SET) ATTR_TIMES_SET) &&
     negb (inode_owner_or_capable i) then (attr, - EPERM)
  else (attr, 0).

Definition setattr_copy (attr : iattr) (i : inode) : inode :=
  let valid := ia_valid attr in
  let i := if has valid ATTR_UID then i <| i_uid := ia_uid attr |> else i in
  let i := if has valid ATTR_GID then i <| i_gid := ia_gid attr |> else i in
  let i := if has valid ATTR_ATIME then i <| i_atime := timespec_trunc (ia_atime attr) (s_time_gran i) |> else i in
  let i := if has valid ATTR_MTIME then i <| i_mtime := timespec_trunc (ia_mtime attr) (s_time_gran i) |> else i in
  let i := if has valid ATTR_CTIME then i <| i_ctime := timespec_trunc (ia_ctime attr) (s_time_gran i) |> else i in
  if has valid ATTR_MODE then
    let mode := ia_mode attr in
    let mode := if negb (in_group_p (i_gid i)) && negb (inode_capable i CAP_FSETID) then clear mode S_ISGID else mode in
    i <| i_mode := mode |>
  else i.

(** [truncate_setsize] as far as the inode shows it. *)
Definition simple_setattr (i : inode) (attr : iattr) : inode * iattr * Z :=
  let '(attr, error) := inode_change_ok i attr in
  if negb (error =? 0) then (i, attr, error) else
  let i := if has (ia_valid attr) ATTR_SIZE then i <| i_size := ia_size attr |> else i in
  (setattr_copy attr i, attr, 0).

Definition is_sxid (mode : Z) : bool := has mode S_ISUID || (has mode S_ISGID && has mode S_IXGRP).

(** The two tests of [notify_change] that turn the removal of set-id bits into a change of the mode;
    [i] is the inode. *)
Definition kill_suid (i : inode) (attr : iattr) : iattr :=
  if has (ia_valid attr) ATTR_KILL_SUID && has (i_mode i) S_ISUID then
    attr <| ia_valid := Z.lor (ia_valid attr) ATTR_MODE |> <| ia_mode := clear (i_mode i) S_ISUID |>
  else attr.

Definition kill_sgid (i : inode) (attr : iattr) : iattr :=
  if has (ia_valid attr) ATTR_KILL_SGID && (Z.land (i_mode i) (Z.lor S_ISGID S_IXGRP) =? Z.lor S_ISGID S_IXGRP) then
    let attr :=
      if negb (has (ia_valid attr) ATTR_MODE) then
        attr <| ia_valid := Z.lor (ia_valid attr) ATTR_MODE |> <| ia_mode := i_mode i |>
      else attr in
    attr <| ia_mode := clear (ia_mode attr) S_ISGID |>
  else attr.

(** [inode->i_op->setattr], or [simple_setattr], is [setattr]. *)
Definition notify_change (setattr : Z → iattr → I (iattr * Z)) (dentry : Z) (attr : iattr) : I (iattr * Z) :=
  ino ← the_inode dentry;
  i ← read_inode ino;
  let valid := ia_valid attr in
  if has valid (Z.lor (Z.lor (Z.lor ATTR_MODE ATTR_UID) ATTR_GID) ATTR_TIMES_SET) &&
     (has (i_flags i) S_IMMUTABLE || has (i_flags i) S_APPEND) then mret (attr, - EPERM) else
  _ ← (if has valid ATTR_SIZE && s_i_version i && negb (ia_size attr =? i_size i)
       then write_inode ino (λ i, i <| i_version ::= Z.succ |>) else mret ());
  _ ← (if has valid ATTR_MODE && is_sxid (ia_mode attr)
       then write_inode ino (λ i, i <| i_flags ::= λ v, clear v S_NOSEC |>) else mret ());
  now ← current_fs_time;
  let attr := attr <| ia_ctime := now |> in
  let attr := if negb (has valid ATTR_ATIME_SET) then attr <| ia_atime := now |> else attr in
  let attr := if negb (has valid ATTR_MTIME_SET) then attr <| ia_mtime := now |> else attr in
  let '(attr, error) :=
    if has valid ATTR_KILL_PRIV then
      let error := security_inode_need_killpriv dentry in
      (attr <| ia_valid := clear valid ATTR_KILL_PRIV |>, if 0 <? error then security_inode_killpriv dentry else error)
    else (attr, 0) in
  if negb (error =? 0) then mret (attr, error) else
  if has (ia_valid attr) (Z.lor ATTR_KILL_SUID ATTR_KILL_SGID) && has (ia_valid attr) ATTR_MODE then BUG else
  let attr := kill_sgid i (kill_suid i attr) in
  if clear (ia_valid attr) (Z.lor ATTR_KILL_SUID ATTR_KILL_SGID) =? 0 then mret (attr, 0) else
  let error := security_inode_setattr dentry attr in
  if negb (error =? 0) then mret (attr, error) else
  setattr dentry attr.

Definition should_remove_suid (i : inode) : Z :=
  let kill := if has (i_mode i) S_ISUID then ATTR_KILL_SUID else 0 in
  let kill := if has (i_mode i) S_ISGID && has (i_mode i) S_IXGRP then Z.lor kill ATTR_KILL_SGID else kill in
  if negb (kill =? 0) && negb (task_capable CAP_FSETID) && bool_decide (Z.land (i_mode i) S_IFMT = S_IFREG)
  then kill else 0.

(** ** System calls

    [stack]: the uninitialised [struct iattr] on the stack; [notify] is [notify_change]. *)
Section calls.
Variable notify : Z → iattr → I (iattr * Z).
Variable stack : iattr.

Definition do_truncate (dentry length time_attrs : Z) (filp : option Z) : I Z :=
  if length <? 0 then mret (- EINVAL) else
  let newattrs := stack <| ia_size := length |> <| ia_valid := Z.lor ATTR_SIZE time_attrs |> in
  let newattrs :=
    match filp with
    | Some f => newattrs <| ia_file := f |> <| ia_valid ::= λ v, Z.lor v ATTR_FILE |>
    | None => newattrs
    end in
  ino ← the_inode dentry; i ← read_inode ino;
  let ret := should_remove_suid i in
  let newattrs :=
    if negb (ret =? 0) then newattrs <| ia_valid ::= λ v, Z.lor v (Z.lor ret ATTR_FORCE) |> else newattrs in
  r ← notify dentry newattrs; mret r.2.

(** After [mnt_want_write]. *)
Definition chmod_common (dentry mode : Z) : I Z :=
  ino ← the_inode dentry; i ← read_inode ino;
  let error := security_path dentry in
  if negb (error =? 0) then mret error else
  let newattrs := stack <| ia_mode := Z.lor (Z.land mode S_IALLUGO) (clear (i_mode i) S_IALLUGO) |>
                        <| ia_valid := Z.lor ATTR_MODE ATTR_CTIME |> in
  r ← notify dentry newattrs; mret r.2.

(** [user] and [group]: [None] for -1; identifiers are valid. *)
Definition chown_common (dentry : Z) (user group : option Z) : I Z :=
  ino ← the_inode dentry; i ← read_inode ino;
  let newattrs := stack <| ia_valid := ATTR_CTIME |> in
  let newattrs := match user with
    | Some uid => newattrs <| ia_valid ::= λ v, Z.lor v ATTR_UID |> <| ia_uid := uid |> | None => newattrs end in
  let newattrs := match group with
    | Some gid => newattrs <| ia_valid ::= λ v, Z.lor v ATTR_GID |> <| ia_gid := gid |> | None => newattrs end in
  let newattrs :=
    if negb (S_ISDIR (i_mode i))
    then newattrs <| ia_valid ::= λ v, Z.lor v (Z.lor (Z.lor ATTR_KILL_SUID ATTR_KILL_SGID) ATTR_KILL_PRIV) |>
    else newattrs in
  let error := security_path dentry in
  if negb (error =? 0) then mret error else
  r ← notify dentry newattrs; mret r.2.
End calls.
End attr.
