(* ===== verification/SfsInode.v ===== *)
(** * SFS: inodes and symbolic links

    Models sfs16/inode.c (allocation of inodes and of the root, [setattr], [getattr], [fiemap]) and
    sfs16/symlink.c, over the attribute code of Attr.v: [notify_change] on an SFS dentry calls
    [sfs_setattr], which calls [notify_change] on the replicas with the same [struct iattr]. *)
From S2P Require Import Prelude Interfaces StateMonad SfsDispatch SfsDentry SfsNamei Attr.

(** ** The root *)

(** [new_inode]: the inode, or NULL, whose number is stored before the test. *)
Definition sfs_alloc_inode (new_inode : option inode) (next_ino : Z) : res (Z + inode) :=
  i ← lift new_inode; Ok (inr (i <| i_ino := next_ino |>)).

(** The error and [sb->s_root]; [d_make_root] gives a dentry or NULL. *)
Definition sfs_alloc_root (new_inode : option inode) (next_ino : Z) (d_make_root : inode → option Z)
    : res (Z * option Z) :=
  r ← sfs_alloc_inode new_inode next_ino;
  match r with
  | inl err => Ok (err, None)
  | inr i =>
      match d_make_root (i <| i_mode := S_IFDIR |> <| i_nlink := 2 |>) with
      | None => Ok (0, None)
      | Some root => Ok (0, Some root)
      end
  end.

Section inode.
Context {task : Task}.
(** [get_replica_count ()] *)
Variable replica_count : nat.
(** [i_op->setattr] of the file systems below, or [simple_setattr] *)
Variable lower_setattr : inode → iattr → inode * iattr * Z.
(** The uninitialised variable [err] *)
Variable stack_err : Z.

(** [i_op->setattr (dentry, attr)] of a replica. *)
Definition replica_setattr (dentry : Z) (attr : iattr) : I (iattr * Z) :=
  ino ← the_inode dentry;
  i ← read_inode ino;
  let '(i', attr, error) := lower_setattr i attr in
  _ ← write_inode ino (λ _, i');
  mret (attr, error).

Definition replica_notify_change : Z → iattr → I (iattr * Z) := notify_change replica_setattr.

(** [SFS_D (dentry)], followed *)
Definition fs_data (dentry : Z) : I sfs_dentry := st_deref (λ s, d_fsdata s !! dentry).

(** ** Setting attributes *)
Definition copy_to_sfs (dentry : Z) (attr : iattr) : I () :=
  ino ← the_inode dentry; write_inode ino (setattr_copy attr).

Definition sfs_file_setattr (dentry : Z) (attr : iattr) : I (iattr * Z) :=
  d ← fs_data dentry;
  r ← st_lift (find_replica_dentry d (get_replica_id d));
  replica_dentry ← st_lift (lift r);
  '(attr, err) ← replica_notify_change replica_dentry attr;
  if negb (err =? 0) then mret (attr, err) else
  _ ← copy_to_sfs dentry attr;
  mret (attr, err).

(** [inl]: left by [goto out]. *)
Fixpoint dir_setattr_loop (n : nat) (loop : Z) (d : sfs_dentry) (attr : iattr) (err : Z)
    : I (iattr * Z + iattr * Z) :=
  match n with
  | O => mret (inr (attr, err))
  | S n =>
      r ← st_lift (find_replica_dentry d loop);
      match r with
      | None => dir_setattr_loop n (loop + 1) d attr err
      | Some replica_dentry =>
          o ← st_get (λ s, d_inodes s !! replica_dentry);
          match o with
          | None => dir_setattr_loop n (loop + 1) d attr err
          | Some _ =>
              '(attr, err) ← replica_notify_change replica_dentry attr;
              if negb (err =? 0) then mret (inl (attr, err))
              else dir_setattr_loop n (loop + 1) d attr err
          end
      end
  end.

Definition sfs_dir_setattr (dentry : Z) (attr : iattr) : I (iattr * Z) :=
  ino ← the_inode dentry; i ← read_inode ino;
  if has (ia_valid attr) ATTR_SIZE && S_ISDIR (i_mode i) then mret (attr, - EIO) else
  d ← fs_data dentry;
  r ← dir_setattr_loop replica_count 0 d attr stack_err;
  match r with
  | inl r => mret r
  | inr (attr, err) => _ ← copy_to_sfs dentry attr; mret (attr, err)
  end.

Definition sfs_setattr (dentry : Z) (attr : iattr) : I (iattr * Z) :=
  ino ← the_inode dentry; i ← read_inode ino;
  if S_ISDIR (i_mode i) then sfs_dir_setattr dentry attr else sfs_file_setattr dentry attr.

(** [notify_change] on an SFS dentry *)
Definition sfs_notify_change : Z → iattr → I (iattr * Z) := notify_change sfs_setattr.

(** ** Reading attributes *)
Record kstat := KStat {
  ks_ino : Z; ks_dev : Z; ks_mode : Z; ks_nlink : Z; ks_uid : Z; ks_gid : Z; ks_rdev : Z; ks_size : Z;
  ks_atime : Z; ks_mtime : Z; ks_ctime : Z; ks_blksize : Z; ks_blocks : Z;
}.

Definition generic_fillattr (i : inode) : kstat :=
  KStat (i_ino i) (s_dev i) (i_mode i) (i_nlink i) (i_uid i) (i_gid i) (i_rdev i) (i_size i)
    (i_atime i) (i_mtime i) (i_ctime i) (Z.shiftl 1 (i_blkbits i)) (i_blocks i).

(** [i_op->getattr] of the file systems below, of a mount and a dentry: the value returned and what
    it makes of the buffer *)
Variable lower_getattr : option (option Z → Z → inode → kstat → kstat * Z).
(** [SFS_S (replica_dentry->d_sb)->s_mnt]: the private data of the file system below read as those of
    SFS; [None] where there are none *)
Variable foreign_mnt : Z → option Z.
(** [get_replica_sbi (id)->s_mnt] *)
Variable s_mnt : Z → option Z.

Definition fill_stat (mnt : option Z) (dentry : Z) (i : inode) (p : kstat) : kstat * Z :=
  match lower_getattr with Some getattr => getattr mnt dentry i p | None => (generic_fillattr i, 0) end.

Definition add_kstat (stat p : kstat) : kstat :=
  stat <| ks_nlink ::= λ v, wrapu 32 (v + ks_nlink p) |>
       <| ks_size ::= λ v, wraps 64 (v + ks_size p) |>
       <| ks_blocks ::= λ v, wrapu 64 (v + ks_blocks p) |>.

(** [tmp]: the local variable. *)
Fixpoint dir_getattr_loop (n : nat) (loop : Z) (is_first : bool) (d : sfs_dentry) (stat tmp : kstat) : I kstat :=
  match n with
  | O => mret stat
  | S n =>
      r ← st_lift (find_replica_dentry d loop);
      replica_dentry ← st_lift (lift r);
      o ← st_get (λ s, d_inodes s !! replica_dentry);
      replica_mnt ← st_lift (lift (foreign_mnt replica_dentry));
      ino ← st_lift (lift o);
      i ← read_inode ino;
      if is_first then
        dir_getattr_loop n (loop + 1) false d (fill_stat (Some replica_mnt) replica_dentry i stat).1 tmp
      else
        let tmp := (fill_stat (Some replica_mnt) replica_dentry i tmp).1 in
        dir_getattr_loop n (loop + 1) false d (add_kstat stat tmp) tmp
  end.

Definition sfs_dir_getattr (dentry : Z) (stat tmp : kstat) : I (kstat * Z) :=
  d ← fs_data dentry;
  stat ← dir_getattr_loop replica_count 0 true d stat tmp;
  ino ← the_inode dentry; i ← read_inode ino;
  mret (stat <| ks_ino := i_ino i |>, 0).

Definition sfs_file_getattr (dentry : Z) (stat : kstat) : I (kstat * Z) :=
  d ← fs_data dentry;
  r ← st_lift (list_first_replica_dentry d);
  replica_dentry ← st_lift (lift r);
  ino ← the_inode replica_dentry;
  mnt ← st_lift (lift (s_mnt (get_replica_id d)));
  i ← read_inode ino;
  mret (fill_stat (Some mnt) replica_dentry i stat).

Definition sfs_getattr (dentry : Z) (stat tmp : kstat) : I (kstat * Z) :=
  ino ← the_inode dentry; i ← read_inode ino;
  if S_ISDIR (i_mode i) then sfs_dir_getattr dentry stat tmp else sfs_file_getattr dentry stat.

(** ** Extents: the value of the call is dropped *)
Definition sfs_fiemap {E} (fiemap : option (inode → Z → Z → E * Z)) (fieinfo : E) (dentry start end_ : Z) : I (E * Z) :=
  d ← fs_data dentry;
  r ← st_lift (list_first_replica_dentry d);
  replica_dentry ← st_lift (lift r);
  ino ← the_inode replica_dentry;
  i ← read_inode ino;
  match fiemap with
  | None => mret (fieinfo, - EACCES)
  | Some f => mret ((f i start end_).1, stack_err)
  end.

(** ** Symbolic links *)
Definition PATH_MAX : Z := 4096.
Definition PAGE_SIZE : Z := 4096.

(** [i_op->readlink]: bytes written to the buffer of the given size, and the value returned *)
Variable lower_readlink : option (inode → Z → list Z * Z).

Definition sfs_readlink (dentry bufsize : Z) : I (list Z * Z) :=
  d ← fs_data dentry;
  r ← st_lift (list_first_replica_dentry d);
  replica_dentry ← st_lift (lift r);
  ino ← the_inode replica_dentry;
  i ← read_inode ino;
  match lower_readlink with
  | None => mret ([], - EINVAL)
  | Some readlink => mret (readlink i bufsize)
  end.

(** Pages in use: address and content. *)
Definition pages : Type := gmap Z (list Z).
(** [nd]: what [nd_set_link] has stored. *)
Definition sfs_follow_link (dentry : Z) (page : option Z) (junk : list Z) (ps : pages) (nd : option Z)
    : I (pages * option Z * Z) :=
  match page with
  | None => mret (ps, nd, - ENOMEM)
  | Some p =>
      '(data, err) ← sfs_readlink dentry PATH_MAX;
      let buf := data ++ drop (length data) junk in
      if 0 <=? err then
        if err <? PAGE_SIZE then mret (<[p := <[Z.to_nat err := 0]> buf]> ps, Some p, 0) else st_lift Oops
      else mret (<[p := buf]> ps, nd, err)
  end.

Definition sfs_put_link (ps : pages) (nd : option Z) : pages :=
  match nd with Some p => delete p ps | None => ps end.
End inode.

(** ** Lemmas *)

(** *** Owner, group and mode *)
Section sync.
Context {task : Task}.

Definition ids (i : inode) : Z * Z * Z := (i_mode i, i_uid i, i_gid i).
Definition core (a : iattr) : Z * Z * Z * Z := (ia_valid a, ia_mode a, ia_uid a, ia_gid a).

(** [setattr_copy] and [inode_change_ok] on them. *)
Definition copy_ids (c : Z * Z * Z * Z) (t : Z * Z * Z) : Z * Z * Z :=
  let '(v, cm, cu, cg) := c in
  let '(m, u, g) := t in
  let u := if has v ATTR_UID then cu else u in
  let g := if has v ATTR_GID then cg else g in
  (if has v ATTR_MODE then
     if negb (in_group_p g) && negb (uid_capable u CAP_FSETID) then clear cm S_ISGID else cm
   else m, u, g).

Definition change_core (c : Z * Z * Z * Z) (t : Z * Z * Z) : Z * Z * Z * Z :=
  let '(v, cm, cu, cg) := c in
  let '(m, u, g) := t in
  if has v ATTR_FORCE then c else
  if has v ATTR_MODE && negb (in_group_p (if has v ATTR_GID then cg else g)) && negb (uid_capable u CAP_FSETID)
  then (v, clear cm S_ISGID, cu, cg) else c.

Lemma ids_setattr_copy a i : ids (setattr_copy a i) = copy_ids (core a) (ids i).
Proof.
  unfold setattr_copy, ids, copy_ids, core, inode_capable. cbn zeta iota beta.
  destruct (has _ ATTR_UID), (has _ ATTR_GID), (has _ ATTR_ATIME), (has _ ATTR_MTIME), (has _ ATTR_CTIME),
    (has _ ATTR_MODE); reflexivity.
Qed.

Lemma core_change_ok i a a' : inode_change_ok i a = (a', 0) → core a' = change_core (core a) (ids i).
Proof.
  unfold inode_change_ok, change_core. set (e := if has (ia_valid a) ATTR_SIZE then _ else 0). cbn zeta.
  destruct (Z.eqb_spec e 0) as [He|He]; cbn [negb]; [clearbody e|intros [= <- ?]; done].
  unfold core at 2, ids. destruct (has (ia_valid a) ATTR_FORCE); [by intros [= <-]|].
  do 3 (match goal with |- context [if ?b then (a, - EPERM) else _] => destruct b; [done|] end).
  unfold inode_capable. destruct (has _ ATTR_MODE && negb _ && negb _); destruct (has _ _ && _); try done; by intros [= <-].
Qed.

Lemma change_core_idem c t : change_core (change_core c t) t = change_core c t.
Proof.
  destruct c as [[[v cm] cu] cg], t as [[m u] g]. unfold change_core.
  destruct (has v ATTR_FORCE) eqn:Hf; [by rewrite Hf|]. destruct (has v ATTR_MODE && _ && _) eqn:Hc; [|by rewrite Hf, Hc].
  by rewrite Hf, Hc, clear_idem.
Qed.

(** A request that changes neither owner, group nor mode. *)
Lemma idle_core c t :
  clear c.1.1.1 (Z.lor ATTR_KILL_SUID ATTR_KILL_SGID) = 0 → change_core c t = c ∧ copy_ids c t = t.
Proof.
  destruct c as [[[v cm] cu] cg], t as [[m u] g]. cbn. intros Hv.
  assert (∀ b, Z.land (Z.lor ATTR_KILL_SUID ATTR_KILL_SGID) b = 0 → has v b = false) as H by (intros b; by apply has_sub).
  rewrite !H by done. done.
Qed.

(** The set-id bits a request removes: none. *)
Definition calm (valid mode : Z) : Prop :=
  has valid (Z.lor ATTR_KILL_SUID ATTR_KILL_SGID) && has valid ATTR_MODE = false ∧
  has valid ATTR_KILL_SUID && has mode S_ISUID = false ∧
  has valid ATTR_KILL_SGID && (Z.land mode (Z.lor S_ISGID S_IXGRP) =? Z.lor S_ISGID S_IXGRP) = false.

Definition drop_priv (c : Z * Z * Z * Z) : Z * Z * Z * Z :=
  let '(v, cm, cu, cg) := c in (clear v ATTR_KILL_PRIV, cm, cu, cg).

Lemma calm_drop_priv v mode : calm v mode → calm (clear v ATTR_KILL_PRIV) mode.
Proof. intros H. unfold calm. by rewrite !has_clear. Qed.

(** *** States *)
Definition view (s : istate) (j : Z) : option (Z * Z * Z) := ids <$> inodes s !! j.

(** The same dentries, and the same owners, groups and modes except at [l]. *)
Definition same_but (l : list Z) (s s' : istate) : Prop :=
  d_inodes s' = d_inodes s ∧ d_fsdata s' = d_fsdata s ∧ ∀ j, j ∉ l → view s' j = view s j.

Lemma same_but_refl l s : same_but l s s.
Proof. done. Qed.

Lemma same_but_trans l s s1 s2 : same_but l s s1 → same_but l s1 s2 → same_but l s s2.
Proof. intros (?&?&H1) (?&?&H2). split_and!; [congruence..|]. intros j Hj. by rewrite H2, H1. Qed.

Lemma same_but_weaken l l' s s' : l ⊆ l' → same_but l s s' → same_but l' s s'.
Proof. intros Hl (?&?&H). split_and!; [done..|]. intros j Hj. apply H. set_solver. Qed.

Lemma wp_the_inode d i Q s : d_inodes s !! d = Some i → Q i s → wp (the_inode d) Q s.
Proof. intros E HQ. eapply wp_deref; [exact E|exact HQ]. Qed.

Lemma wp_read_inode j i Q s : inodes s !! j = Some i → Q i s → wp (read_inode j) Q s.
Proof. intros E HQ. eapply wp_deref; [exact E|exact HQ]. Qed.

Lemma wp_fs_data d x Q s : d_fsdata s !! d = Some x → Q x s → wp (fs_data d) Q s.
Proof. intros E HQ. eapply wp_deref; [exact E|exact HQ]. Qed.

Lemma write_inode_view j f i s :
  inodes s !! j = Some i →
  wp (write_inode j f) (λ _ s', same_but [j] s s' ∧ inodes s' !! j = Some (f i)) s.
Proof.
  intros Hj. eexists _, _. split; [reflexivity|]. cbn. rewrite lookup_alter_eq, Hj. split; [|done].
  split_and!; [done..|]. intros k Hk. unfold view. cbn. rewrite lookup_alter_ne; [done|]. intros ->. by apply Hk, list_elem_of_singleton.
Qed.

(** A write that keeps them. *)
Lemma wp_quiet_write (b : bool) j f i s (Q : () → istate → Prop) :
  inodes s !! j = Some i → (∀ i, ids (f i) = ids i) → (∀ s', same_but [] s s' → Q () s') →
  wp (if b then write_inode j f else mret ()) Q s.
Proof.
  intros Hj Hf HQ. destruct b; [|by apply wp_ret, HQ].
  eapply wp_mono; [by apply (write_inode_view _ _ i)|]. intros [] s' [(H1 & H2 & H3) H4]. apply HQ. split_and!; [done..|].
  intros k _. destruct (decide (k = j)) as [->|Hk]; [unfold view; rewrite H4, Hj; cbn; by rewrite Hf|].
  apply H3. by intros ?%list_elem_of_singleton.
Qed.

Lemma view_inode s s' j i : same_but [] s s' → inodes s !! j = Some i → ∃ i', inodes s' !! j = Some i' ∧ ids i' = ids i.
Proof.
  intros (_ & _ & H) Hj. specialize (H j (not_elem_of_nil _)). unfold view in H. rewrite Hj in H. cbn in H.
  apply fmap_Some in H as (i' & -> & ->). by exists i'.
Qed.

Lemma kills_nothing a i : calm (ia_valid a) (i_mode i) → kill_sgid i (kill_suid i a) = a.
Proof. intros (_ & H1 & H2). unfold kill_suid. rewrite H1. unfold kill_sgid. by rewrite H2. Qed.

(** [notify_change] of a request that removes no set-id bits: [setattr] is called, or the request ends
    before it. *)
Lemma wp_notify setattr dentry ino i a Q s :
  d_inodes s !! dentry = Some ino → inodes s !! ino = Some i → calm (ia_valid a) (i_mode i) →
  (∀ a1 s1, same_but [] s s1 → core a1 = drop_priv (core a) → wp (setattr dentry a1) Q s1) →
  (∀ a1 err s1, same_but [] s s1 →
    (err = 0 → core a1 = drop_priv (core a) ∧ clear (ia_valid a1) (Z.lor ATTR_KILL_SUID ATTR_KILL_SGID) = 0) →
    Q (a1, err) s1) →
  wp (notify_change setattr dentry a) Q s.
Proof.
  intros Hd Hi Hcalm Hset Hend. unfold notify_change.
  apply wp_bind. eapply wp_the_inode; [done|]. apply wp_bind. eapply wp_read_inode; [done|]. cbn zeta.
  destruct (has _ _ && (has (i_flags i) _ || _)). { apply wp_ret, Hend; done. }
  apply wp_bind. eapply wp_quiet_write; [done|done|]. intros s1 H1.
  destruct (view_inode _ _ _ _ H1 Hi) as (i1 & Hi1 & _).
  apply wp_bind. eapply wp_quiet_write; [done|done|]. intros s2 H2.
  apply wp_bind. eexists _, _. split; [reflexivity|]. set (s3 := _ <| clock ::= S |>). set (now := time_at _).
  assert (same_but [] s s3) as H3 by (by apply (same_but_trans _ _ s1), (same_but_trans _ _ s2)).
  clearbody s3 now. clear s1 s2 H1 H2 i1 Hi1.
  set (a1 := if negb (has _ ATTR_ATIME_SET) then _ else _). set (a2 := if negb (has _ ATTR_MTIME_SET) then _ else _).
  assert (core a2 = core a) as Ha2 by (subst a2 a1; do 2 case_match; done). clearbody a2. clear a1.
  assert (∃ a3 err, (if has (ia_valid a) ATTR_KILL_PRIV then
      (a2 <| ia_valid := clear (ia_valid a) ATTR_KILL_PRIV |>,
        if 0 <? security_inode_need_killpriv dentry then security_inode_killpriv dentry
        else security_inode_need_killpriv dentry) else (a2, 0)) = (a3, err) ∧ core a3 = drop_priv (core a)) as (a3 & err & -> & Ha3).
  { unfold core in *. injection Ha2 as E1 E2 E3 E4. destruct (has (ia_valid a) ATTR_KILL_PRIV) eqn:Hp; eexists _, _; (split; [reflexivity|]); cbn.
    - by rewrite E2, E3, E4.
    - rewrite E1, E2, E3, E4, clear_none by done. done. }
  destruct (Z.eqb_spec err 0) as [->|He]; cbn [negb]; [|by apply wp_ret, Hend].
  assert (calm (ia_valid a3) (i_mode i)) as Hc3.
  { replace (ia_valid a3) with (clear (ia_valid a) ATTR_KILL_PRIV) by (by injection Ha3). by apply calm_drop_priv. }
  rewrite (proj1 Hc3), kills_nothing by done.
  destruct (Z.eqb_spec (clear (ia_valid a3) (Z.lor ATTR_KILL_SUID ATTR_KILL_SGID)) 0) as [Hz|]; [by apply wp_ret, Hend|].
  destruct (Z.eqb_spec (security_inode_setattr dentry a3) 0); cbn [negb]; [by apply Hset|by apply wp_ret, Hend].
Qed.

(** *** A replica *)
Section replicas.
Variable lower_setattr : inode → iattr → inode * iattr * Z.

(** [setattr] of the file systems below follows the rules of fs/attr.c: it starts with
    [inode_change_ok] and, when it succeeds, has done what [setattr_copy] does. *)
Class SetattrOk : Prop := {
  setattr_ok i a i' a' : lower_setattr i a = (i', a', 0) →
    inode_change_ok i a = (a', 0) ∧ ids i' = ids (setattr_copy a' i);
}.
Context `{!SetattrOk}.

Lemma wp_replica_notify rd ino i a s :
  d_inodes s !! rd = Some ino → inodes s !! ino = Some i → calm (ia_valid a) (i_mode i) →
  has (ia_valid a) ATTR_KILL_PRIV = false →
  wp (replica_notify_change lower_setattr rd a) (λ r s', same_but [ino] s s' ∧
    (r.2 = 0 → core r.1 = change_core (core a) (ids i) ∧
      view s' ino = Some (copy_ids (change_core (core a) (ids i)) (ids i)))) s.
Proof.
  intros Hd Hi Hcalm Hp. assert (drop_priv (core a) = core a) as Hcore by (cbn; by rewrite clear_none).
  eapply wp_notify; [done..| |]; rewrite Hcore.
  - intros a1 s1 H1 Ha1. destruct (view_inode _ _ _ _ H1 Hi) as (i1 & Hi1 & Hids).
    unfold replica_setattr. apply wp_bind. eapply wp_the_inode; [by rewrite (proj1 H1)|].
    apply wp_bind. eapply wp_read_inode; [done|]. destruct (lower_setattr i1 a1) as [[i2 a2] err] eqn:El.
    apply wp_bind. eapply wp_mono; [by apply (write_inode_view _ _ i1)|]. intros [] s2 [H2 Hi2].
    apply wp_ret. split. { eapply same_but_trans; [|exact H2]. eapply same_but_weaken; [|exact H1]. set_solver. }
    cbn [fst snd]. intros ->. apply setattr_ok in El as [Hok Hi3]. apply core_change_ok in Hok.
    rewrite <- Hids, <- Ha1, <- Hok. split; [done|]. unfold view. rewrite Hi2. cbn. by rewrite Hi3, ids_setattr_copy.
  - intros a1 err s1 H1 He. split. { eapply same_but_weaken; [|exact H1]. set_solver. }
    cbn [fst snd]. intros Hz. destruct (He Hz) as [Ha1 Hidle].
    destruct (idle_core (core a) (ids i)) as [-> ->]; [by rewrite <- Ha1|]. split; [done|].
    destruct H1 as (_ & _ & H1). rewrite H1 by apply not_elem_of_nil. unfold view. by rewrite Hi.
Qed.

(** The inodes of the replicas in [rs]. *)
Definition held (s : istate) (rs : list (option Z)) : list Z := omap (λ r, r ≫= λ rd, d_inodes s !! rd) rs.

Lemma held_same s s' rs : d_inodes s' = d_inodes s → held s' rs = held s rs.
Proof. intros E. unfold held. by rewrite E. Qed.

Lemma copy_change_valid c t : (change_core c t).1.1.1 = c.1.1.1.
Proof. destruct c as [[[v ?] ?] ?], t as [[? ?] ?]. unfold change_core. by repeat case_match. Qed.

(** The loop over the replicas of a directory: [l] have been changed, those of [rs] are to be. *)
Lemma wp_dir_loop n k d t c1 l a err s :
  length (replicas d) = (k + n)%nat → NoDup (l ++ held s (drop k (replicas d))) →
  change_core (core a) t = c1 → calm (ia_valid a) t.1.1 → has (ia_valid a) ATTR_KILL_PRIV = false →
  (∀ j, j ∈ l → view s j = Some (copy_ids c1 t)) → (∀ j, j ∈ held s (drop k (replicas d)) → view s j = Some t) →
  (l ≠ [] → core a = c1 ∧ err = 0) →
  wp (dir_setattr_loop lower_setattr n (Z.of_nat k) d a err) (λ r s',
    same_but (l ++ held s (drop k (replicas d))) s s' ∧
    match r with
    | inl r => r.2 ≠ 0
    | inr r => (∀ j, j ∈ l ++ held s (drop k (replicas d)) → view s' j = Some (copy_ids c1 t)) ∧
        (l ++ held s (drop k (replicas d)) ≠ [] → core r.1 = c1 ∧ r.2 = 0)
    end) s.
Proof.
  revert k l a err s. induction n as [|n IH]; intros k l a err s Hlen Hnd Hc Hcalm Hp Hl Hrs Hfin; cbn [dir_setattr_loop].
  { rewrite (drop_ge (replicas d)) in * by lia. apply wp_ret. cbn [held omap list_omap] in *. rewrite app_nil_r in *.
    split_and!; [apply same_but_refl|done|done]. }
  destruct (lookup_lt_is_Some_2 (replicas d) k) as [r Hr]; [lia|].
  apply wp_bind. apply (wp_lift _ r).
  { unfold find_replica_dentry. rewrite decide_True by lia. by rewrite Nat2Z.id, Hr. }
  replace (Z.of_nat k + 1) with (Z.of_nat (S k)) by lia. rewrite (drop_S _ _ _ Hr) in *.
  assert (held s (r :: drop (S k) (replicas d)) =
    option_list (r ≫= λ rd, d_inodes s !! rd) ++ held s (drop (S k) (replicas d))) as E.
  { unfold held. cbn [omap list_omap]. by destruct (r ≫= _). }
  rewrite E in *. destruct r as [rd|]; cbn [mbind option_bind] in *; [|apply IH; [lia|done..]].
  apply wp_bind. eexists _, _. split; [reflexivity|]. destruct (d_inodes s !! rd) as [ino|] eqn:Hd; cbn [option_list app] in *;
    [|apply IH; [lia|done..]].
  assert (view s ino = Some t) as Hv by (apply Hrs; by left).
  unfold view in Hv. apply fmap_Some in Hv as (i & Hi & Ht). apply wp_bind.
  eapply wp_mono; [by apply (wp_replica_notify rd ino i a); [| |rewrite Ht in Hcalm|]|].
  intros [a1 e1] s1 [H1 He1]. cbn [fst snd] in He1. rewrite <- Ht, Hc in He1.
  assert (same_but (l ++ ino :: held s (drop (S k) (replicas d))) s s1) as H1' by (eapply same_but_weaken; [|exact H1]; set_solver).
  destruct (Z.eqb_spec e1 0) as [->|He]; cbn [negb]; [|by apply wp_ret].
  destruct (He1 eq_refl) as [Hc1 Hv1]. clear He1.
  assert (ia_valid a1 = ia_valid a) as Hvalid.
  { pose proof (copy_change_valid (core a) t) as Hcv. rewrite Hc, <- Hc1 in Hcv. exact Hcv. }
  assert ((l ++ [ino]) ++ held s1 (drop (S k) (replicas d)) = l ++ ino :: held s (drop (S k) (replicas d))) as El.
  { rewrite (held_same s s1) by apply H1. by rewrite <- app_assoc. }
  change (option_list (Some ino) ++ ?x) with (ino :: x). rewrite <- El. eapply wp_mono.
  { apply (IH (S k) (l ++ [ino]) a1 0 s1); [lia| | | | | | |].
    - by rewrite El.
    - rewrite Hc1, <- Hc. apply change_core_idem.
    - by rewrite Hvalid.
    - by rewrite Hvalid.
    - intros j [Hj|Hj%list_elem_of_singleton]%elem_of_app; [|by subst j].
      destruct H1 as (_ & _ & H1). rewrite H1; [by apply Hl|]. intros ->%list_elem_of_singleton.
      apply NoDup_app in Hnd as (_ & Hnd & _). apply (Hnd ino Hj). by left.
    - intros j Hj. rewrite (held_same s s1) in Hj by apply H1. destruct H1 as (_ & _ & H1). rewrite H1; [apply Hrs; by right|].
      intros ->%list_elem_of_singleton. apply NoDup_app in Hnd as (_ & _ & [Hnd _]%NoDup_cons). done.
    - done. }
  intros r s2 [H2 Hr2]. split; [|exact Hr2]. eapply same_but_trans; [|exact H2]. by rewrite El.
Qed.

(** *** Both kinds of objects *)
Variable replica_count : nat.
Variable stack_err : Z.

(** The inodes of the replicas that [sfs_setattr] changes. *)
Definition replica_inodes (s : istate) (d : sfs_dentry) (mode : Z) : list Z :=
  if S_ISDIR mode then held s (replicas d)
  else match find_replica_dentry d (get_replica_id d) with Ok r => held s [r] | _ => [] end.

Lemma wp_sfs_setattr dentry ino d a t s :
  d_inodes s !! dentry = Some ino → d_fsdata s !! dentry = Some d → length (replicas d) = replica_count →
  let l := replica_inodes s d t.1.1 in
  NoDup (ino :: l) → l ≠ [] → (∀ j, j ∈ ino :: l → view s j = Some t) →
  calm (ia_valid a) t.1.1 → has (ia_valid a) ATTR_KILL_PRIV = false →
  wp (sfs_setattr replica_count lower_setattr stack_err dentry a) (λ r s',
    (r.2 = 0 → ∀ j, j ∈ ino :: l → view s' j = Some (copy_ids (change_core (core a) t) t)) ∧
    (r.2 ≠ 0 → view s' ino = Some t)) s.
Proof.
  intros Hd Hfs Hlen l [Hino Hnd]%NoDup_cons Hne Hview Hcalm Hp.
  assert (view s ino = Some t) as Hv by (apply Hview; by left).
  assert (∃ i, inodes s !! ino = Some i ∧ t = ids i) as (i & Hi & Ht) by (by apply fmap_Some in Hv).
  assert (∀ a' s1, same_but l s s1 → core a' = change_core (core a) t →
    (∀ j, j ∈ l → view s1 j = Some (copy_ids (change_core (core a) t) t)) →
    wp (copy_to_sfs dentry a') (λ _ s', ∀ j, j ∈ ino :: l → view s' j = Some (copy_ids (change_core (core a) t) t)) s1) as Hcopy.
  { intros a' s1 H1 Ha' Hl1. unfold copy_to_sfs. apply wp_bind. eapply wp_the_inode; [by rewrite (proj1 H1)|].
    assert (view s1 ino = Some t) as Hv1 by (by rewrite (proj2 (proj2 H1))). unfold view in Hv1.
    apply fmap_Some in Hv1 as (i1 & Hi1 & Ht1). eapply wp_mono; [by apply (write_inode_view _ _ i1)|].
    intros [] s2 [(_ & _ & H2) Hi2] j [->|Hj]%elem_of_cons.
    - unfold view. rewrite Hi2. cbn [fmap option_fmap option_map]. by rewrite ids_setattr_copy, Ha', <- Ht1.
    - rewrite H2; [by apply Hl1|]. intros ->%list_elem_of_singleton. done. }
  unfold sfs_setattr. apply wp_bind. eapply wp_the_inode; [done|]. apply wp_bind. eapply wp_read_inode; [done|].
  assert (t.1.1 = i_mode i) as Hm by (by rewrite Ht). subst l. unfold replica_inodes in *. rewrite Hm in *.
  destruct (S_ISDIR (i_mode i)) eqn:Hdir.
  - unfold sfs_dir_setattr. apply wp_bind. eapply wp_the_inode; [done|]. apply wp_bind. eapply wp_read_inode; [done|].
    destruct (has _ _ && _); [by apply wp_ret|]. apply wp_bind. eapply wp_fs_data; [done|]. apply wp_bind.
    eapply wp_mono.
    { apply (wp_dir_loop replica_count 0 d t (change_core (core a) t) [] a stack_err s); rewrite ?drop_0, ?Hm; try done.
      - by intros k ?%elem_of_nil.
      - intros k Hk. apply Hview. by right. }
    rewrite drop_0. cbn [app]. intros [r|[a1 e1]] s1 [H1 Hr].
    + apply wp_ret. split; [done|]. intros _. by rewrite (proj2 (proj2 H1)).
    + destruct Hr as [Hall Hfin]. destruct (Hfin Hne) as [Hc He]. cbn [fst snd] in *. subst e1.
      apply wp_bind. eapply wp_mono; [by apply Hcopy|]. intros [] s2 H2. apply wp_ret. by split.
  - unfold sfs_file_setattr. apply wp_bind. eapply wp_fs_data; [done|]. apply wp_bind.
    destruct (find_replica_dentry d (get_replica_id d)) as [r| |] eqn:Ef; [|done..]. apply (wp_lift _ r); [done|].
    destruct r as [rd|]; [|done]. apply wp_bind. apply (wp_lift _ rd); [done|]. cbn [held omap list_omap mbind option_bind] in *.
    destruct (d_inodes s !! rd) as [k|] eqn:Hrd; [|done].
    assert (view s k = Some t) as Hk by (apply Hview; right; by left). unfold view in Hk.
    apply fmap_Some in Hk as (ik & Hik & Htk). apply wp_bind.
    eapply wp_mono; [apply (wp_replica_notify rd k ik a); [done|done| |done]|].
    { replace (i_mode ik) with (i_mode i) by (rewrite <- Hm, Htk; done). done. }
    intros [a1 e1] s1 [H1 He1]. rewrite <- Htk in He1. cbn [fst snd] in *.
    destruct (Z.eqb_spec e1 0) as [->|He]; cbn [negb].
    + destruct (He1 eq_refl) as [Hc Hv1]. apply wp_bind. eapply wp_mono.
      { apply Hcopy; [done|done|]. intros j ->%list_elem_of_singleton. done. }
      intros [] s2 H2. apply wp_ret. by split.
    + apply wp_ret. split; [done|]. intros _. by rewrite (proj2 (proj2 H1)).
Qed.
End replicas.

(** What a request asks for, from owner, group and mode [t] to [t']: the set-group-id bit may be
    refused. *)
Definition granted (a : iattr) (t t' : Z * Z * Z) : Prop :=
  t'.1.2 = (if has (ia_valid a) ATTR_UID then ia_uid a else t.1.2) ∧
  t'.2 = (if has (ia_valid a) ATTR_GID then ia_gid a else t.2) ∧
  if has (ia_valid a) ATTR_MODE then t'.1.1 ∈ [ia_mode a; clear (ia_mode a) S_ISGID] else t'.1.1 = t.1.1.

Lemma granted_copy a t : granted a t (copy_ids (change_core (drop_priv (core a)) t) t).
Proof.
  destruct t as [[m u] g]. unfold granted. cbn -[has clear]. rewrite !has_clear by done.
  assert (∀ b x y : Z, (b ∈ [x; y]) ↔ b = x ∨ b = y) as Hin by set_solver.
  destruct (has _ ATTR_FORCE); [|destruct (has _ ATTR_MODE && _ && _)]; cbn -[has clear]; rewrite !has_clear by done;
    (split_and!; [done..|]); destruct (has _ ATTR_MODE); try done; apply Hin; case_match; rewrite ?clear_idem; auto.
Qed.

#[export] Instance simple_setattr_ok : SetattrOk simple_setattr.
Proof.
  constructor. intros i a i' a'. unfold simple_setattr. destruct (inode_change_ok i a) as [a1 e]. 
  destruct (Z.eqb_spec e 0) as [->|He]; cbn [negb]; [intros [= <- <-]|by intros [= _ _ ?]]. split; [done|].
  rewrite !ids_setattr_copy. by case_match.
Qed.
(** *** Removing the set-user-id bit *)
Lemma the_inode_eq d i s : d_inodes s !! d = Some i → the_inode d s = Ok (i, s).
Proof. intros Hd. unfold the_inode, st_deref. by rewrite Hd. Qed.

Lemma read_inode_eq j i s : inodes s !! j = Some i → read_inode j s = Ok (i, s).
Proof. intros Hd. unfold read_inode, st_deref. by rewrite Hd. Qed.

Lemma fs_data_eq d x s : d_fsdata s !! d = Some x → fs_data d s = Ok (x, s).
Proof. intros Hd. unfold fs_data, st_deref. by rewrite Hd. Qed.

(** A request with both flags. *)
Lemma notify_bug setattr dentry ino i a s :
  d_inodes s !! dentry = Some ino → inodes s !! ino = Some i →
  has (i_flags i) S_IMMUTABLE = false → has (i_flags i) S_APPEND = false →
  has (ia_valid a) ATTR_MODE = true → has (ia_valid a) ATTR_KILL_SUID = true → has (ia_valid a) ATTR_KILL_PRIV = false →
  notify_change setattr dentry a s = Oops.
Proof.
  intros Hd Hi Him Hap Hm Hk Hp. unfold notify_change. 
  rewrite (ST_bind_Ok _ _ _ _ _ (the_inode_eq _ _ _ Hd)), (ST_bind_Ok _ _ _ _ _ (read_inode_eq _ _ _ Hi)). cbn zeta.
  rewrite Him, Hap, andb_false_r, Hp.
  assert (∀ (b : bool) f s, ∃ s', (if b then write_inode ino f else mret ()) s = Ok ((), s')) as Hw.
  { intros [] f s'; eexists; reflexivity. }
  destruct (Hw (has (ia_valid a) ATTR_SIZE && s_i_version i && negb (ia_size a =? i_size i))
    (λ i, i <| i_version ::= Z.succ |>) s) as [s1 E1]. rewrite (ST_bind_Ok _ _ _ _ _ E1).
  destruct (Hw (has (ia_valid a) ATTR_MODE && is_sxid (ia_mode a))
    (λ i, i <| i_flags ::= λ v, clear v S_NOSEC |>) s1) as [s2 E2]. rewrite (ST_bind_Ok _ _ _ _ _ E2).
  erewrite ST_bind_Ok by reflexivity. cbn [negb Z.eqb]. set (a2 := if negb (has _ ATTR_MTIME_SET) then _ else _).
  assert (ia_valid a2 = ia_valid a) as -> by (subst a2; by repeat case_match).
  by rewrite has_lor, Hk, Hm.
Qed.

(** What [notify_change] makes of a request to remove the bit. *)
Lemma notify_kill setattr dentry ino i a s :
  d_inodes s !! dentry = Some ino → inodes s !! ino = Some i →
  has (i_flags i) S_IMMUTABLE = false → has (i_flags i) S_APPEND = false →
  has (ia_valid a) ATTR_MODE = false → has (ia_valid a) ATTR_SIZE = false → has (ia_valid a) ATTR_KILL_SUID = true →
  has (i_mode i) S_ISUID = true → security_inode_need_killpriv dentry = 0 → (∀ a, security_inode_setattr dentry a = 0) →
  ∃ a', notify_change setattr dentry a s = setattr dentry a' (s <| clock ::= S |>) ∧
    has (ia_valid a') ATTR_MODE = true ∧ has (ia_valid a') ATTR_KILL_SUID = true ∧ has (ia_valid a') ATTR_KILL_PRIV = false.
Proof.
  intros Hd Hi Him Hap Hm Hsz Hk Hu Hpriv Hsec. unfold notify_change.
  rewrite (ST_bind_Ok _ _ _ _ _ (the_inode_eq _ _ _ Hd)), (ST_bind_Ok _ _ _ _ _ (read_inode_eq _ _ _ Hi)). cbn zeta.
  rewrite Him, Hap, andb_false_r, Hsz, Hm. cbn [andb].
  do 3 (erewrite ST_bind_Ok by reflexivity). set (a2 := if negb (has _ ATTR_MTIME_SET) then _ else _).
  assert (ia_valid a2 = ia_valid a) as Ha2 by (subst a2; by repeat case_match). clearbody a2.
  assert (∃ a3, (if has (ia_valid a) ATTR_KILL_PRIV then
      (a2 <| ia_valid := clear (ia_valid a) ATTR_KILL_PRIV |>,
        if 0 <? security_inode_need_killpriv dentry then security_inode_killpriv dentry
        else security_inode_need_killpriv dentry) else (a2, 0)) = (a3, 0) ∧ ia_valid a3 = clear (ia_valid a) ATTR_KILL_PRIV)
    as (a3 & -> & Ha3).
  { rewrite Hpriv. destruct (has (ia_valid a) ATTR_KILL_PRIV) eqn:Hp; eexists; (split; [reflexivity|]); [done|].
    by rewrite Ha2, clear_none. }
  cbn [negb Z.eqb]. set (a4 := kill_sgid i (kill_suid i a3)).
  assert (ia_valid a4 = Z.lor (clear (ia_valid a) ATTR_KILL_PRIV) ATTR_MODE) as Ha4.
  { subst a4. unfold kill_suid. rewrite Ha3, has_clear, Hk, Hu by done. unfold kill_sgid. cbn [andb].
    repeat case_match; cbn [ia_valid]; try done; cbn; by rewrite <- Z.lor_assoc. }
  clearbody a4. rewrite (has_lor (ia_valid a3)), Ha3, !has_clear, Hm, andb_false_r by done.
  rewrite Ha4. assert ((clear (Z.lor (clear (ia_valid a) ATTR_KILL_PRIV) ATTR_MODE) (Z.lor ATTR_KILL_SUID ATTR_KILL_SGID) =? 0) = false) as ->.
  { apply Z.eqb_neq. intros Hz. apply has_sub with (b := ATTR_MODE) in Hz; [|done].
    by rewrite has_lor_l, orb_true_r in Hz. }
  rewrite Hsec. cbn [negb Z.eqb]. exists a4. split; [done|]. rewrite Ha4, !has_lor_l, !has_clear, Hk by done.
  split_and!; [apply orb_true_r|done|]. unfold has, clear. by rewrite Z.land_ldiff.
Qed.
(** *** Totals over the replicas *)
Lemma sum_wrapped (W : Z → Z) (f : kstat → Z) l x :
  (∀ z y, W (W z + y) = W (z + y)) → (∀ a b, f (add_kstat a b) = W (f a + f b)) →
  f (foldl add_kstat x l) = match l with [] => f x | _ => W (f x + sumZ f l) end.
Proof.
  intros HW Hf. revert x. induction l as [|y l IH]; intros x; [done|]. cbn [foldl]. rewrite IH.
  destruct l as [|z l]; rewrite Hf; [cbn; by rewrite Z.add_0_r|]. rewrite HW. f_equal. cbn. lia.
Qed.

Lemma sum_wrapped_exact (W : Z → Z) (f : kstat → Z) l x :
  (∀ z y, W (W z + y) = W (z + y)) → (∀ a b, f (add_kstat a b) = W (f a + f b)) →
  W (f x + sumZ f l) = f x + sumZ f l → f (foldl add_kstat x l) = f x + sumZ f l.
Proof.
  intros HW Hf Hx. rewrite (sum_wrapped W) by done. destruct l; [by rewrite Z.add_0_r|done].
Qed.

Lemma fold_keeps (f : kstat → Z) l x : (∀ a b, f (add_kstat a b) = f a) → f (foldl add_kstat x l) = f x.
Proof. intros Hf. revert x. induction l as [|y l IH]; intros x; [done|]. cbn [foldl]. by rewrite IH, Hf. Qed.

Lemma sumZ_map {A B} (g : A → B) (f : B → Z) l : sumZ f (map g l) = sumZ (λ x, f (g x)) l.
Proof. induction l as [|x l IH]; [done|]. cbn. f_equal. exact IH. Qed.

Lemma wrapu_add w z y : wrapu w (wrapu w z + y) = wrapu w (z + y).
Proof. apply Zplus_mod_idemp_l. Qed.

Lemma wraps_add w z y : wraps w (wraps w z + y) = wraps w (z + y).
Proof.
  assert ((wraps w z + y) mod 2 ^ w = (z + y) mod 2 ^ w) as E; [|unfold wraps at 1; by rewrite E].
  unfold wraps. case_bool_decide; [apply Zplus_mod_idemp_l|].
  replace (z mod 2 ^ w - 2 ^ w + y) with (z mod 2 ^ w + y + (-1) * 2 ^ w) by lia. rewrite Z_mod_plus_full. apply Zplus_mod_idemp_l.
Qed.

Section totals.
Variable foreign_mnt : Z → option Z.

(** Every replica holds the directory, with the inodes [ins]. *)
Definition all_hold (s : istate) (rs : list (option Z)) (ins : list inode) : Prop :=
  Forall2 (λ r i, ∃ rd j, r = Some rd ∧ d_inodes s !! rd = Some j ∧ inodes s !! j = Some i ∧ is_Some (foreign_mnt rd)) rs ins.

Lemma dir_getattr_loop_ok s d ins n k first stat tmp :
  all_hold s (drop k (replicas d)) ins → length (replicas d) = (k + n)%nat →
  ∃ st, dir_getattr_loop None foreign_mnt n (Z.of_nat k) first d stat tmp s = Ok (st, s) ∧
    st = match ins, first with
         | i :: ins, true => foldl add_kstat (generic_fillattr i) (map generic_fillattr ins)
         | _, _ => foldl add_kstat stat (map generic_fillattr ins)
         end.
Proof.
  revert k first stat tmp ins. induction n as [|n IH]; intros k first stat tmp ins Hall Hlen; cbn [dir_getattr_loop].
  { rewrite drop_ge in Hall by lia. apply Forall2_nil_inv_l in Hall as ->. by eexists. }
  destruct (lookup_lt_is_Some_2 (replicas d) k) as [r Hr]; [lia|]. rewrite (drop_S _ _ _ Hr) in Hall.
  apply Forall2_cons_inv_l in Hall as (i & ins' & (rd & j & -> & Hd & Hi & [mnt Hmnt]) & Hall & ->).
  erewrite ST_bind_Ok; [|unfold st_lift, find_replica_dentry; rewrite decide_True by lia; rewrite Nat2Z.id, Hr; reflexivity].
  erewrite ST_bind_Ok by reflexivity. erewrite ST_bind_Ok by reflexivity.
  erewrite ST_bind_Ok by (unfold st_lift; rewrite Hmnt; reflexivity).
  erewrite ST_bind_Ok by (unfold st_lift; rewrite Hd; reflexivity).
  erewrite ST_bind_Ok by (by apply read_inode_eq). replace (Z.of_nat k + 1) with (Z.of_nat (S k)) by lia.
  destruct first; (edestruct IH as (st & E & Hst); [exact Hall|lia|]); rewrite E; exists st; (split; [done|]); rewrite Hst;
    by destruct ins'.
Qed.
End totals.
End sync.

(** A task of the superuser, without a security module. *)
Definition root_task : Task := {|
  fsuid := 0; in_group_p := λ g, g =? 0; uid_capable := λ _ _, true; task_capable := λ _, true; rlimit_fsize := None;
  security_inode_need_killpriv := λ _, 0; security_inode_killpriv := λ _, 0; security_inode_setattr := λ _ _, 0;
  security_path := λ _, 0; time_at := λ n, Z.of_nat n; timespec_trunc := λ t _, t;
|}.

Definition plain_inode (mode : Z) : inode := Inode 1 mode 1 7 7 0 0 0 0 0 12 0 0 0 0 1 (2 ^ 40) false.
(** The object is dentry 0 with inode 10; replicas 1 and 2 with inodes 11 and 12. *)
Definition two_replicas (mode : Z) : istate :=
  IState (<[0 := 10]> (<[1 := 11]> (<[2 := 12]> ∅))) (<[0 := SfsDentry [Some 1; Some 2] None 0 (-1) 0 0 0 0 0]> ∅)
    (<[10 := plain_inode mode]> (<[11 := plain_inode mode]> (<[12 := plain_inode mode]> ∅))) 0.
Definition junk_attr : iattr := IAttr 0 0 0 0 0 0 0 0 0.

(** * Properties *)

(** C24: A change of attributes keeps SFS and the replicas in step: if they agree on owner, group and mode
    and the request removes no set-id bits ([calm]; [chown_setuid_crashes] is about the others),
    [notify_change] on an SFS dentry returns; on success all of them have the same owner, group and
    mode, the ones asked for, and on an error the inode of SFS has the old owner, group and mode (nothing is said of
    its other fields, nor of the replicas).  The replicas are those [replica_inodes] lists: for a directory every
    replica that has it, for another file the one that holds its data; the pointer file of
    a partitioned file is not among them. *)
Theorem attributes_in_sync {task : Task} replica_count lower_setattr stack_err dentry ino i d attr s :
  SetattrOk lower_setattr → d_inodes s !! dentry = Some ino → d_fsdata s !! dentry = Some d →
  inodes s !! ino = Some i → length (replicas d) = replica_count →
  let l := replica_inodes s d (i_mode i) in
  NoDup (ino :: l) → l ≠ [] → (∀ j, j ∈ l → view s j = Some (ids i)) → calm (ia_valid attr) (i_mode i) →
  ∃ attr' err s', sfs_notify_change replica_count lower_setattr stack_err dentry attr s = Ok ((attr', err), s') ∧
    (err = 0 → ∃ t, granted attr (ids i) t ∧ ∀ j, j ∈ ino :: l → view s' j = Some t) ∧
    (err ≠ 0 → view s' ino = Some (ids i)).
Proof.
  intros Hlow Hd Hfs Hi Hlen l Hnd Hne Hview Hcalm.
  assert (view s ino = Some (ids i)) as Hv by (unfold view; by rewrite Hi).
  assert (∀ j, j ∈ ino :: l → view s j = Some (ids i)) as Hall by (intros j [->|?]%elem_of_cons; auto).
  assert (wp (sfs_notify_change replica_count lower_setattr stack_err dentry attr) (λ r s',
    (r.2 = 0 → ∃ t, granted attr (ids i) t ∧ ∀ j, j ∈ ino :: l → view s' j = Some t) ∧
    (r.2 ≠ 0 → view s' ino = Some (ids i))) s) as ([a' e] & s' & E & H); [|by exists a', e, s'].
  eapply wp_notify; [done..| |].
  - intros a1 s1 (E1 & E2 & E3) Ha1.
    assert (replica_inodes s1 d (i_mode i) = l) as El by (subst l; unfold replica_inodes, held; by rewrite E1).
    assert (ia_valid a1 = clear (ia_valid attr) ATTR_KILL_PRIV) as Hva by (by injection Ha1).
    eapply wp_mono.
    { apply (wp_sfs_setattr lower_setattr replica_count stack_err dentry ino d a1 (ids i) s1); cbn [ids fst];
        rewrite ?El, ?E1, ?E2, ?Hva; try done.
      - intros j Hj. rewrite E3 by apply not_elem_of_nil. by apply Hall.
      - by apply calm_drop_priv.
      - unfold has, clear. rewrite Z.land_ldiff. done. }
    intros r s2 [H1 H2]. cbn [ids fst] in *. rewrite El, Ha1 in H1. split; [|done].
    intros Hr. eexists. split; [apply granted_copy|by apply H1].
  - intros a1 err s1 (E1 & E2 & E3) He. cbn [fst snd]. split; [|intros _; by rewrite E3 by apply not_elem_of_nil].
    intros Hz. destruct (He Hz) as [Ha1 Hidle]. exists (ids i). split.
    + pose proof (granted_copy attr (ids i)) as Hg. destruct (idle_core (drop_priv (core attr)) (ids i)) as [E4 E5].
      * rewrite <- Ha1. exact Hidle.
      * by rewrite E4, E5 in Hg.
    + intros j Hj. rewrite E3 by apply not_elem_of_nil. by apply Hall.
Qed.

Lemma attributes_in_sync_witness :
  ∃ attr' s', sfs_notify_change (task := root_task) 2 (simple_setattr (task := root_task)) 99 0
      (IAttr (Z.lor ATTR_MODE ATTR_UID) (Z.lor S_IFDIR 493) 8 0 0 0 0 0 0) (two_replicas (Z.lor S_IFDIR 448)) = Ok ((attr', 0), s') ∧
    ∀ j, j ∈ [10; 11; 12] → view s' j = Some (Z.lor S_IFDIR 493, 8, 7).
Proof.
  destruct (attributes_in_sync (task := root_task) 2 (simple_setattr (task := root_task)) 99 0 10 (plain_inode (Z.lor S_IFDIR 448))
    (SfsDentry [Some 1; Some 2] None 0 (-1) 0 0 0 0 0)
    (IAttr (Z.lor ATTR_MODE ATTR_UID) (Z.lor S_IFDIR 493) 8 0 0 0 0 0 0) (two_replicas (Z.lor S_IFDIR 448))) as (a & e & s' & E & H & _).
  - apply _.
  - reflexivity.
  - reflexivity.
  - reflexivity.
  - reflexivity.
  - apply (bool_decide_unpack _). vm_compute. exact Logic.I.
  - vm_compute. discriminate.
  - intros j Hj. assert (j = 11 ∨ j = 12) as [->| ->] by (vm_compute in Hj; set_solver); reflexivity.
  - split_and!; reflexivity.
  - assert (e = 0) as ->.
    { assert ((if sfs_notify_change (task := root_task) 2 (simple_setattr (task := root_task)) 99 0
      (IAttr (Z.lor ATTR_MODE ATTR_UID) (Z.lor S_IFDIR 493) 8 0 0 0 0 0 0) (two_replicas (Z.lor S_IFDIR 448))
      is Ok ((_, e'), _) then e' else 1) = 0) as H0 by (vm_compute; reflexivity). by rewrite E in H0. }
    exists a, s'. split; [done|]. destruct (H eq_refl) as (t & (Hu & Hg & Hm) & Hall). vm_compute in Hu, Hg, Hm.
    assert (∀ x y : Z, x ∈ [y; y] → x = y) as Hyy by (clear; intros x y [->|[->|?%elem_of_nil]%elem_of_cons]%elem_of_cons; done).
    destruct t as [[m u] g]. apply Hyy in Hm. subst. exact Hall.
Defined.

(** C39: Changing the owner of a file that has the set-user-id bit is a [BUG]: [notify_change] on the SFS
    dentry turns the removal of the bit into a new mode and keeps the flag that asked for it, and
    [sfs_file_setattr] hands both to [notify_change] on the replica. *)
Theorem chown_setuid_crashes {task : Task} replica_count lower_setattr stack_err stack dentry ino i d rd rino ri user group s :
  d_inodes s !! dentry = Some ino → d_fsdata s !! dentry = Some d → inodes s !! ino = Some i →
  S_ISDIR (i_mode i) = false → has (i_mode i) S_ISUID = true →
  has (i_flags i) S_IMMUTABLE = false → has (i_flags i) S_APPEND = false →
  find_replica_dentry d (get_replica_id d) = Ok (Some rd) → d_inodes s !! rd = Some rino → inodes s !! rino = Some ri →
  has (i_flags ri) S_IMMUTABLE = false → has (i_flags ri) S_APPEND = false →
  security_path dentry = 0 → security_inode_need_killpriv dentry = 0 → (∀ a, security_inode_setattr dentry a = 0) →
  chown_common (sfs_notify_change replica_count lower_setattr stack_err) stack dentry user group s = Oops.
Proof.
  intros Hd Hfs Hi Hdir Hu Him Hap Hf Hrd Hri Hrim Hrap Hpath Hpriv Hsec. unfold chown_common.
  rewrite (ST_bind_Ok _ _ _ _ _ (the_inode_eq _ _ _ Hd)), (ST_bind_Ok _ _ _ _ _ (read_inode_eq _ _ _ Hi)). cbn zeta.
  rewrite Hdir, Hpath. cbn [negb Z.eqb]. set (a := _ <| ia_valid ::= _ |>). apply ST_bind_Oops.
  destruct (notify_kill (sfs_setattr replica_count lower_setattr stack_err) dentry ino i a s) as (a' & E & Hm & Hk & Hp);
    [done..| | | |done|done|done|]; try (subst a; destruct user, group; reflexivity).
  unfold sfs_notify_change. rewrite E. unfold sfs_setattr.
  erewrite ST_bind_Ok by (by apply the_inode_eq). erewrite ST_bind_Ok by (by apply read_inode_eq). rewrite Hdir.
  unfold sfs_file_setattr. erewrite ST_bind_Ok by (by apply fs_data_eq).
  erewrite ST_bind_Ok by (unfold st_lift; rewrite Hf; reflexivity). erewrite ST_bind_Ok by reflexivity.
  apply ST_bind_Oops. by apply (notify_bug _ rd rino ri).
Qed.

Lemma chown_setuid_crashes_witness :
  chown_common (task := root_task) (sfs_notify_change (task := root_task) 2 (simple_setattr (task := root_task)) 99) junk_attr 0 (Some 8) None
    (two_replicas (Z.lor S_IFREG (Z.lor S_ISUID 493))) = Oops.
Proof.
  apply (chown_setuid_crashes (task := root_task) 2 (simple_setattr (task := root_task)) 99 junk_attr 0 10 (plain_inode (Z.lor S_IFREG (Z.lor S_ISUID 493)))
    (SfsDentry [Some 1; Some 2] None 0 (-1) 0 0 0 0 0) 1 11 (plain_inode (Z.lor S_IFREG (Z.lor S_ISUID 493)))); reflexivity.
Defined.

(** [stat] of a directory adds up its replicas: link count, size and blocks are the sums, as long as
    these fit their types; the number is that of the SFS inode, the rest comes from the first
    replica. *)
Theorem dir_getattr_totals foreign_mnt dentry ino i0 d i ins stat tmp s :
  d_inodes s !! dentry = Some ino → inodes s !! ino = Some i0 → d_fsdata s !! dentry = Some d →
  all_hold foreign_mnt s (replicas d) (i :: ins) →
  ∃ st, sfs_dir_getattr (length (replicas d)) None foreign_mnt dentry stat tmp s = Ok ((st, 0), s) ∧
    ks_ino st = i_ino i0 ∧ ks_mode st = i_mode i ∧ ks_uid st = i_uid i ∧ ks_gid st = i_gid i ∧
    (0 ≤ sumZ i_nlink (i :: ins) < 2 ^ 32 → ks_nlink st = sumZ i_nlink (i :: ins)) ∧
    (- 2 ^ 63 ≤ sumZ i_size (i :: ins) < 2 ^ 63 → ks_size st = sumZ i_size (i :: ins)) ∧
    (0 ≤ sumZ i_blocks (i :: ins) < 2 ^ 64 → ks_blocks st = sumZ i_blocks (i :: ins)).
Proof.
  intros Hd Hi Hfs Hall. unfold sfs_dir_getattr. erewrite ST_bind_Ok by (by apply fs_data_eq).
  destruct (dir_getattr_loop_ok foreign_mnt s d (i :: ins) (length (replicas d)) 0 true stat tmp) as (st & E & Hst); [by rewrite drop_0|done|].
  erewrite ST_bind_Ok by exact E. erewrite ST_bind_Ok by (by apply the_inode_eq). erewrite ST_bind_Ok by (by apply read_inode_eq).
  eexists. split; [reflexivity|]. cbn [ks_ino ks_mode ks_uid ks_gid ks_nlink ks_size ks_blocks]. cbv iota in Hst. subst st.
  split_and!; [done|by apply (fold_keeps ks_mode)|by apply (fold_keeps ks_uid)|by apply (fold_keeps ks_gid)| | |].
  - intros Hr. change (ks_nlink _) with (ks_nlink (foldl add_kstat (generic_fillattr i) (map generic_fillattr ins))). rewrite (sum_wrapped_exact (wrapu 32) ks_nlink), sumZ_map; [done|intros; apply wrapu_add|done|]. rewrite sumZ_map. by apply wrapu_small.
  - intros Hr. change (ks_size _) with (ks_size (foldl add_kstat (generic_fillattr i) (map generic_fillattr ins))). rewrite (sum_wrapped_exact (wraps 64) ks_size), sumZ_map; [done|intros; apply wraps_add|done|]. rewrite sumZ_map. by apply wraps_small.
  - intros Hr. change (ks_blocks _) with (ks_blocks (foldl add_kstat (generic_fillattr i) (map generic_fillattr ins))). rewrite (sum_wrapped_exact (wrapu 64) ks_blocks), sumZ_map; [done|intros; apply wrapu_add|done|]. rewrite sumZ_map. by apply wrapu_small.
Qed.

Lemma dir_getattr_totals_witness :
  ∃ st, sfs_dir_getattr 2 None (λ _, Some 0) 0 (generic_fillattr (plain_inode 0)) (generic_fillattr (plain_inode 0))
      (two_replicas (Z.lor S_IFDIR 448)) = Ok ((st, 0), two_replicas (Z.lor S_IFDIR 448)) ∧ ks_nlink st = 2.
Proof.
  destruct (dir_getattr_totals (λ _, Some 0) 0 10 (plain_inode (Z.lor S_IFDIR 448)) (SfsDentry [Some 1; Some 2] None 0 (-1) 0 0 0 0 0)
    (plain_inode (Z.lor S_IFDIR 448)) [plain_inode (Z.lor S_IFDIR 448)] (generic_fillattr (plain_inode 0))
    (generic_fillattr (plain_inode 0)) (two_replicas (Z.lor S_IFDIR 448))) as (st & E & _ & _ & _ & _ & Hn & _).
  - reflexivity.
  - reflexivity.
  - reflexivity.
  - constructor; [|constructor; [|constructor]]; eexists _, _; (split_and!; [reflexivity..|by eexists]).
  - exists st. split; [exact E|]. rewrite Hn; [reflexivity|]. cbn. lia.
Defined.

(** Following a symbolic link and putting it gives back the page that held the text; when the text
    cannot be read the page is lost. *)
Theorem follow_link_pages dentry d rd j i p junk ps (readlink : inode → Z → list Z * Z) s :
  d_fsdata s !! dentry = Some d → list_first_replica_dentry d = Ok (Some rd) → d_inodes s !! rd = Some j →
  inodes s !! j = Some i → ps !! p = None → length junk = Z.to_nat PAGE_SIZE →
  (∀ err, readlink i PATH_MAX = ([], err) → err < 0 → ∃ ps',
    sfs_follow_link (Some readlink) dentry (Some p) junk ps None s = Ok ((ps', None, err), s) ∧ sfs_put_link ps' None = <[p := junk]> ps) ∧
  (∀ data, readlink i PATH_MAX = (data, Z.of_nat (length data)) → Z.of_nat (length data) < PAGE_SIZE → ∃ ps' buf,
    sfs_follow_link (Some readlink) dentry (Some p) junk ps None s = Ok ((ps', Some p, 0), s) ∧
    ps' !! p = Some buf ∧ take (S (length data)) buf = data ++ [0] ∧ sfs_put_link ps' (Some p) = ps).
Proof.
  intros Hd Hf Hrd Hi Hp Hj.
  assert (sfs_readlink (Some readlink) dentry PATH_MAX s = Ok (readlink i PATH_MAX, s)) as Hr.
  { unfold sfs_readlink. erewrite ST_bind_Ok by (by apply fs_data_eq).
    erewrite ST_bind_Ok by (unfold st_lift; rewrite Hf; reflexivity). erewrite ST_bind_Ok by reflexivity.
    erewrite ST_bind_Ok by (by apply the_inode_eq). by erewrite ST_bind_Ok by (by apply read_inode_eq). }
  unfold sfs_follow_link. split.
  - intros err E Hneg. erewrite ST_bind_Ok by exact Hr. rewrite E. destruct (Z.leb_spec 0 err); [lia|].
    eexists. split; [reflexivity|]. done.
  - intros data E Hlen. erewrite ST_bind_Ok by exact Hr. rewrite E. rewrite (proj2 (Z.leb_le _ _)) by lia.
    rewrite (proj2 (Z.ltb_lt _ _)) by done. rewrite Nat2Z.id. eexists _, _. split; [reflexivity|].
    split; [apply lookup_insert_eq|]. split; [|cbn; by apply delete_insert_id].
    destruct (drop (length data) junk) as [|x l] eqn:Ed.
    { apply (f_equal length) in Ed. rewrite length_drop in Ed. cbn in Ed. lia. }
    rewrite insert_app_r_alt by lia. rewrite Nat.sub_diag. cbn [insert list_insert].
    change (data ++ 0 :: l) with (data ++ [0] ++ l). rewrite app_assoc. apply take_app_length'. rewrite length_app. cbn. lia.
Qed.

Lemma follow_link_pages_witness :
  ∃ ps' buf, sfs_follow_link (Some (λ _ _, ([97], 1))) 0 (Some 5) (replicate 4096 9) ∅ None (two_replicas S_IFLNK) = Ok ((ps', Some 5, 0), two_replicas S_IFLNK) ∧
    ps' !! 5 = Some buf ∧ take 2 buf = [97; 0] ∧ sfs_put_link ps' (Some 5) = ∅.
Proof.
  destruct (follow_link_pages 0 (SfsDentry [Some 1; Some 2] None 0 (-1) 0 0 0 0 0) 1 11 (plain_inode S_IFLNK) 5 (replicate 4096 9) ∅
    (λ _ _, ([97], 1)) (two_replicas S_IFLNK)) as [_ H].
  - reflexivity.
  - reflexivity.
  - reflexivity.
  - reflexivity.
  - reflexivity.
  - apply length_replicate.
  - apply (H [97]); [reflexivity|reflexivity].
Defined.
