(* ===== verification/PageLru.v ===== *)
(** * Partitioned page cache: the LRU lists of pages

    Models the LRU lists of the 3.8.2 tree, whose lock the patch moves from the zone to the lruvec, that is, to
    the lists of one control group in one zone: include/linux/mm_inline.h, include/linux/pagevec.h, mm/swap.c,
    the isolation and putback of mm/vmscan.c and the lruvecs of mm/memcontrol.c.

    Pages are those of order 0: compound and huge pages are not modelled, and [hpage_nr_pages] is 1.  The
    debugging checks of the kernel ([VM_BUG_ON]) are on.  A lock that is taken twice, and one that is released
    and not held, stop the run ([Oops]).  [mm_races] is no data of the program: it records the lists, sizes and
    statistics of an lruvec that were changed without its lock.  Of the events only those of the LRU lists are
    counted. *)
From S2P Require Import Prelude Interfaces StateMonad.

Definition LRU_BASE : Z := 0.
Definition LRU_ACTIVE : Z := 1.
Definition LRU_FILE : Z := 2.
Definition LRU_INACTIVE_ANON : Z := LRU_BASE.
Definition LRU_ACTIVE_ANON : Z := LRU_BASE + LRU_ACTIVE.
Definition LRU_INACTIVE_FILE : Z := LRU_BASE + LRU_FILE.
Definition LRU_ACTIVE_FILE : Z := LRU_BASE + LRU_FILE + LRU_ACTIVE.
Definition LRU_UNEVICTABLE : Z := 4.
Definition lru_lists : list Z := [LRU_INACTIVE_ANON; LRU_ACTIVE_ANON; LRU_INACTIVE_FILE; LRU_ACTIVE_FILE; LRU_UNEVICTABLE].

Definition is_file_lru (lru : Z) : bool := (lru =? LRU_INACTIVE_FILE) || (lru =? LRU_ACTIVE_FILE).
Definition is_active_lru (lru : Z) : bool := (lru =? LRU_ACTIVE_ANON) || (lru =? LRU_ACTIVE_FILE).
Definition is_unevictable_lru (lru : Z) : bool := lru =? LRU_UNEVICTABLE.

Definition ISOLATE_CLEAN : Z := 0x1.
Definition ISOLATE_UNMAPPED : Z := 0x2.
Definition ISOLATE_ASYNC_MIGRATE : Z := 0x4.
Definition ISOLATE_UNEVICTABLE : Z := 0x8.

Definition PAGEVEC_SIZE : nat := 14.

(** An lruvec, named by its zone and its control group; [None] is the lruvec of the zone, which is used when the
    memory controller is disabled.  [lruvec->zone] is the zone of the name: it is set whenever an lruvec is
    obtained. *)
Abbreviation lvid := (Z * option Z)%type.
Definition lruvec_zone (lv : lvid) : Z := lv.1.

(** [inl (lv, lru)] is [lv->lists[lru]]; [inr n] is a list head on the stack of a function. *)
Abbreviation plist := (lvid * Z + nat)%type.
Definition pages_to_free : plist := inr 0%nat.
Definition page_list : plist := inr 1%nat.
Definition l_active : plist := inr 2%nat.
Definition l_inactive : plist := inr 3%nat.

(** [page->mapping]: none, an anonymous one, or an address space with its [AS_UNEVICTABLE] bit and whether it
    has [migratepage].  The swap cache answers as no mapping does: it is evictable and has [migratepage]. *)
Inductive mapping := NoMapping | AnonMapping | FileMapping (unevictable migratepage : bool).

(** [pg_link]: the list [page->lru] is on; [PG_other]: one of the flags [PAGE_FLAGS_CHECK_AT_FREE] names and no
    function here changes (private, slab, reserved, swap cache, poisoned); [pc_memcg] and [PageCgroupUsed]: its
    [page_cgroup]. *)
Record page := Page {
  page_zone : Z; pg_count : Z; page_mapped : bool; pg_mapping : mapping;
  PageLRU : bool; PageActive : bool; PageUnevictable : bool; PageReferenced : bool; PageSwapBacked : bool;
  PageDirty : bool; PageWriteback : bool; PageReclaim : bool; PageMlocked : bool; PageLocked : bool; PG_other : bool;
  pc_memcg : Z; PageCgroupUsed : bool;
  pg_link : option plist;
}.

(** The pagevecs of a CPU. *)
Inductive pvkind := LruAdd (lru : Z) | LruRotate | LruDeactivate | ActivatePage.
#[export] Instance pvkind_eq_dec : EqDecision pvkind.
Proof. solve_decision. Defined.
#[export] Instance pvkind_countable : Countable pvkind.
Proof.
  refine (inj_countable' (λ k, match k with LruAdd l => inl l | LruRotate => inr 0 | LruDeactivate => inr 1 | ActivatePage => inr 2 end)
    (λ x, match x with inl l => LruAdd l | inr 0 => LruRotate | inr 1 => LruDeactivate | inr _ => ActivatePage end) _).
  by intros [].
Defined.

Inductive llock := LZone (z : Z) | LVec (lv : lvid).
#[export] Instance llock_eq_dec : EqDecision llock.
Proof. solve_decision. Defined.
#[export] Instance llock_countable : Countable llock.
Proof.
  refine (inj_countable' (λ k, match k with LZone z => inl z | LVec lv => inr lv end)
    (λ x, match x with inl z => LZone z | inr lv => LVec lv end) _).
  by intros [].
Defined.

Inductive vm_event := PGROTATED | PGACTIVATE | PGDEACTIVATE | PGFREE | UNEVICTABLE_PGRESCUED | UNEVICTABLE_PGCULLED | UNEVICTABLE_PGSCANNED.
#[export] Instance vm_event_eq_dec : EqDecision vm_event.
Proof. solve_decision. Defined.

(** [mm_zstat] and [mm_isolated]: the counters [NR_LRU_BASE + lru] and [NR_ISOLATED_ANON + file] of a zone;
    [mm_lru_size], [mm_scanned], [mm_rotated]: of an lruvec and a list, resp. anonymous (0) or file (1) pages;
    [mm_events]: the events counted, the last first; [mm_free] and [mm_bad]: the pages given back to the allocator and the ones it refused. *)
Record mm := MM {
  mm_pages : gmap Z page;
  mm_lists : gmap plist (list Z);
  mm_lru_size : gmap (lvid * Z) Z;
  mm_scanned : gmap (lvid * Z) Z;
  mm_rotated : gmap (lvid * Z) Z;
  mm_zstat : gmap (Z * Z) Z;
  mm_isolated : gmap (Z * Z) Z;
  mm_events : list (vm_event * Z);
  mm_pvecs : gmap (Z * pvkind) (list Z);
  mm_held : gset llock;
  mm_races : list lvid;
  mm_free : list Z;
  mm_bad : list Z;
}.

Abbreviation M := (ST mm).

Definition the_page (p : Z) : M page := st_deref (λ s, mm_pages s !! p).
Definition set_page (p : Z) (f : page → page) : M () := st_modify (λ s, s <| mm_pages ::= alter f p |>).
Definition VM_BUG_ON (b : bool) : M () := if b then st_oops else mret ().
Definition plist_of (s : mm) (r : plist) : list Z := default [] (mm_lists s !! r).
Definition pvec_of (s : mm) (k : Z * pvkind) : list Z := default [] (mm_pvecs s !! k).

(** Counters kept in maps: a counter that was never touched is 0. *)
Definition zget `{Countable K} (m : gmap K Z) (k : K) : Z := default 0 (m !! k).
Definition zadd `{Countable K} (k : K) (d : Z) (m : gmap K Z) : gmap K Z := <[k := zget m k + d]> m.
#[global] Arguments zget : simpl never.
#[global] Arguments zadd : simpl never.
Definition count_vm_events (e : vm_event) (n : Z) : M () := st_modify (λ s, s <| mm_events ::= cons (e, n) |>).

(** ** Locks *)
Definition spin_lock (k : llock) : M () :=
  held ← st_get mm_held;
  if bool_decide (k ∈ held) then st_oops else st_modify (λ s, s <| mm_held ::= union {[k]} |>).

Definition spin_unlock (k : llock) : M () :=
  held ← st_get mm_held;
  if bool_decide (k ∈ held) then st_modify (λ s, s <| mm_held ::= λ h, h ∖ {[k]} |>) else st_oops.

(** A list, size or statistic of [lv] is changed. *)
Definition touch (lv : lvid) : M () :=
  held ← st_get mm_held;
  if bool_decide (LVec lv ∈ held) then mret () else st_modify (λ s, s <| mm_races ::= cons lv |>).

Definition touch_list (r : plist) : M () := match r with inl (lv, _) => touch lv | inr _ => mret () end.

(** ** Lists (include/linux/list.h) *)
Definition list_add (p : Z) (r : plist) : M () :=
  _ ← touch_list r; _ ← st_modify (λ s, s <| mm_lists ::= <[r := p :: plist_of s r]> |>);
  set_page p (λ v, v <| pg_link := Some r |>).

Definition list_add_tail (p : Z) (r : plist) : M () :=
  _ ← touch_list r; _ ← st_modify (λ s, s <| mm_lists ::= <[r := plist_of s r ++ [p]]> |>);
  set_page p (λ v, v <| pg_link := Some r |>).

(** A page that is on no list has poisoned links. *)
Definition list_del (p : Z) : M () :=
  v ← the_page p; r ← st_lift (lift (pg_link v));
  _ ← touch_list r; _ ← st_modify (λ s, s <| mm_lists ::= <[r := filter (.≠ p) (plist_of s r)]> |>);
  set_page p (λ v, v <| pg_link := None |>).

Definition list_move (p : Z) (r : plist) : M () := _ ← list_del p; list_add p r.
Definition list_move_tail (p : Z) (r : plist) : M () := _ ← list_del p; list_add_tail p r.
Definition list_empty (r : plist) : M bool := st_get (λ s, bool_decide (plist_of s r = [])).
(** [lru_to_page]: the page at the tail. *)
Definition lru_to_page (r : plist) : M Z := st_deref (λ s, last (plist_of s r)).

(** [list_splice]: the list [r] is put before [r']. *)
Definition list_splice (r r' : plist) : M () :=
  l ← st_get (λ s, plist_of s r);
  _ ← st_modify (λ s, s <| mm_lists ::= λ m, <[r := []]> (<[r' := l ++ plist_of s r']> m) |>);
  st_modify (λ s, s <| mm_pages ::= λ m, foldr (alter (λ v, v <| pg_link := Some r' |>)) m l |>).

(** ** Kinds of pages (include/linux/mm_inline.h, mm/vmscan.c) *)
Definition page_is_file_cache (v : page) : bool := negb (PageSwapBacked v).
Definition page_lru_base_type (v : page) : Z := if page_is_file_cache v then LRU_INACTIVE_FILE else LRU_INACTIVE_ANON.
Definition page_lru (v : page) : Z :=
  if PageUnevictable v then LRU_UNEVICTABLE
  else page_lru_base_type v + (if PageActive v then LRU_ACTIVE else 0).

Definition page_off_lru (p : Z) : M Z :=
  v ← the_page p;
  if PageUnevictable v then _ ← set_page p (λ v, v <| PageUnevictable := false |>); mret LRU_UNEVICTABLE
  else if PageActive v then _ ← set_page p (λ v, v <| PageActive := false |>); mret (page_lru_base_type v + LRU_ACTIVE)
  else mret (page_lru_base_type v).

Definition mapping_unevictable (m : mapping) : bool := match m with FileMapping u _ => u | _ => false end.
Definition page_evictable (v : page) : bool := negb (mapping_unevictable (pg_mapping v)) && negb (PageMlocked v).

(** ** Pages of the allocator (include/linux/mm.h, mm/page_alloc.c) *)
Definition get_page (p : Z) : M () :=
  v ← the_page p; _ ← VM_BUG_ON (pg_count v <=? 0); set_page p (λ v, v <| pg_count ::= Z.succ |>).

Definition get_page_unless_zero (p : Z) : M bool :=
  v ← the_page p;
  if pg_count v =? 0 then mret false else _ ← set_page p (λ v, v <| pg_count ::= Z.succ |>); mret true.

Definition put_page_testzero (p : Z) : M bool :=
  v ← the_page p; _ ← VM_BUG_ON (pg_count v =? 0);
  _ ← set_page p (λ v, v <| pg_count ::= Z.pred |>); mret (pg_count v =? 1).

Section lru.
(** [mem_cgroup_disabled()] and [root_mem_cgroup] *)
Variable disabled : bool.
Variable root_mem_cgroup : Z.

Definition free_pages_check (v : page) : bool :=
  page_mapped v || (match pg_mapping v with FileMapping _ _ => true | _ => false end) || negb (pg_count v =? 0)
  || (PageLRU v || PageLocked v || PageWriteback v || PageActive v || PageUnevictable v || PageMlocked v || PG_other v)
  || (negb disabled && PageCgroupUsed v).

(** A page whose state is bad is reported and not freed. *)
Definition free_hot_cold_page (p : Z) : M () :=
  v ← the_page p;
  if free_pages_check v then st_modify (λ s, s <| mm_bad ::= cons p |>)
  else
    _ ← set_page p (λ v, v <| pg_mapping := NoMapping |> <| PageReferenced := false |> <| PageSwapBacked := false |>
                           <| PageDirty := false |> <| PageReclaim := false |>);
    _ ← count_vm_events PGFREE 1;
    st_modify (λ s, s <| mm_free ::= cons p |>).

Fixpoint free_pages (l : list Z) : M () :=
  match l with [] => mret () | p :: l => _ ← free_hot_cold_page p; free_pages l end.

(** The list head is not used any more: its pages count as unlinked. *)
Definition free_hot_cold_page_list (r : plist) : M () :=
  l ← st_get (λ s, plist_of s r);
  _ ← st_modify (λ s, s <| mm_lists ::= <[r := []]> |>
                        <| mm_pages ::= λ m, foldr (alter (λ v, v <| pg_link := None |>)) m l |>);
  free_pages l.

(** ** Lruvecs (mm/memcontrol.c) *)
Definition mem_cgroup_zone_lruvec (zone memcg : Z) : lvid := if disabled then (zone, None) else (zone, Some memcg).

Definition mem_cgroup_page_lruvec (p : Z) (zone : Z) : M lvid :=
  if disabled then mret (zone, None)
  else
    v ← the_page p;
    if negb (PageLRU v) && negb (PageCgroupUsed v) && negb (pc_memcg v =? root_mem_cgroup)
    then _ ← set_page p (λ v, v <| pc_memcg := root_mem_cgroup |>); mret (page_zone v, Some root_mem_cgroup)
    else mret (page_zone v, Some (pc_memcg v)).

Definition mem_cgroup_update_lru_size (lv : lvid) (lru nr_pages : Z) : M () :=
  if disabled then mret ()
  else
    _ ← touch lv;
    _ ← st_modify (λ s, s <| mm_lru_size ::= zadd (lv, lru) nr_pages |>);
    n ← st_get (λ s, zget (mm_lru_size s) (lv, lru));
    VM_BUG_ON (n <? 0).

Definition mod_zone_page_state (zone lru d : Z) : M () := st_modify (λ s, s <| mm_zstat ::= zadd (zone, lru) d |>).

Definition add_page_to_lru_list (p : Z) (lv : lvid) (lru : Z) : M () :=
  _ ← mem_cgroup_update_lru_size lv lru 1;
  _ ← list_add p (inl (lv, lru));
  mod_zone_page_state (lruvec_zone lv) lru 1.

Definition del_page_from_lru_list (p : Z) (lv : lvid) (lru : Z) : M () :=
  _ ← mem_cgroup_update_lru_size lv lru (-1);
  _ ← list_del p;
  mod_zone_page_state (lruvec_zone lv) lru (-1).

(** ** Releasing (mm/swap.c)

    The part of a release before the lock is taken, and the part under the lock. *)
Definition lru_release_flags (p : Z) : M lvid :=
  v ← the_page p;
  lv ← mem_cgroup_page_lruvec p (page_zone v);
  v ← the_page p; _ ← VM_BUG_ON (negb (PageLRU v));
  _ ← set_page p (λ v, v <| PageLRU := false |>); mret lv.

Definition lru_release_list (p : Z) (lv : lvid) : M () :=
  _ ← spin_lock (LVec lv);
  lru ← page_off_lru p;
  _ ← del_page_from_lru_list p lv lru;
  spin_unlock (LVec lv).

Definition __page_cache_release (p : Z) : M () :=
  v ← the_page p;
  if PageLRU v then lv ← lru_release_flags p; lru_release_list p lv else mret ().

Definition __put_single_page (p : Z) : M () := _ ← __page_cache_release p; free_hot_cold_page p.

Definition put_page (p : Z) : M () :=
  z ← put_page_testzero p; if z : bool then __put_single_page p else mret ().

Definition release_page (p : Z) : M () :=
  z ← put_page_testzero p;
  if z : bool then
    v ← the_page p;
    _ ← (if PageLRU v then lv ← lru_release_flags p; lru_release_list p lv else mret ());
    list_add p pages_to_free
  else mret ().

Fixpoint release_loop (l : list Z) : M () :=
  match l with [] => mret () | p :: l => _ ← release_page p; release_loop l end.

Definition release_pages (l : list Z) : M () := _ ← release_loop l; free_hot_cold_page_list pages_to_free.

(** ** Pagevecs *)
Definition pagevec_space (l : list Z) : nat := (PAGEVEC_SIZE - length l)%nat.

(** Returns the slots left; a pagevec that is full has no slot to write. *)
Definition pagevec_add (k : Z * pvkind) (p : Z) : M nat :=
  l ← st_get (λ s, pvec_of s k);
  if bool_decide (PAGEVEC_SIZE ≤ length l)%nat then st_oops
  else _ ← st_modify (λ s, s <| mm_pvecs ::= <[k := l ++ [p]]> |>); mret (pagevec_space (l ++ [p])).

Definition pagevec_reinit (k : Z * pvkind) : M () := st_modify (λ s, s <| mm_pvecs ::= <[k := []]> |>).

Fixpoint move_loop (move_fn : Z → lvid → M ()) (l : list Z) : M () :=
  match l with
  | [] => mret ()
  | p :: l =>
      v ← the_page p;
      lv ← mem_cgroup_page_lruvec p (page_zone v);
      _ ← spin_lock (LVec lv);
      _ ← move_fn p lv;
      _ ← spin_unlock (LVec lv);
      move_loop move_fn l
  end.

Definition pagevec_lru_move_fn (k : Z * pvkind) (move_fn : Z → lvid → M ()) : M () :=
  l ← st_get (λ s, pvec_of s k);
  _ ← move_loop move_fn l;
  _ ← release_pages l;
  pagevec_reinit k.

Definition evictable_inactive (v : page) : bool := PageLRU v && negb (PageActive v) && negb (PageUnevictable v).

Definition pagevec_move_tail_fn (p : Z) (lv : lvid) : M () :=
  v ← the_page p;
  if evictable_inactive v then
    _ ← list_move_tail p (inl (lv, page_lru_base_type v));
    count_vm_events PGROTATED 1
  else mret ().

Definition pagevec_move_tail (cpu : Z) : M () := pagevec_lru_move_fn (cpu, LruRotate) pagevec_move_tail_fn.

Definition rotate_reclaimable_page (cpu p : Z) : M () :=
  v ← the_page p;
  if negb (PageLocked v) && negb (PageDirty v) && negb (PageActive v) && negb (PageUnevictable v) && PageLRU v then
    _ ← get_page p;
    n ← pagevec_add (cpu, LruRotate) p;
    if bool_decide (n = 0%nat) then pagevec_move_tail cpu else mret ()
  else mret ().

Definition update_page_reclaim_stat (lv : lvid) (file rotated : bool) : M () :=
  _ ← touch lv;
  _ ← st_modify (λ s, s <| mm_scanned ::= zadd (lv, Z.b2z file) 1 |>);
  if rotated then st_modify (λ s, s <| mm_rotated ::= zadd (lv, Z.b2z file) 1 |>) else mret ().

Definition __activate_page (p : Z) (lv : lvid) : M () :=
  v ← the_page p;
  if evictable_inactive v then
    let file := page_is_file_cache v in
    let lru := page_lru_base_type v in
    _ ← del_page_from_lru_list p lv lru;
    _ ← set_page p (λ v, v <| PageActive := true |>);
    _ ← add_page_to_lru_list p lv (lru + LRU_ACTIVE);
    _ ← count_vm_events PGACTIVATE 1;
    update_page_reclaim_stat lv file true
  else mret ().

Definition pagevec_count (k : Z * pvkind) : M nat := st_get (λ s, length (pvec_of s k)).

Definition activate_page_drain (cpu : Z) : M () :=
  n ← pagevec_count (cpu, ActivatePage);
  if bool_decide (n = 0%nat) then mret () else pagevec_lru_move_fn (cpu, ActivatePage) __activate_page.

Definition activate_page (cpu p : Z) : M () :=
  v ← the_page p;
  if evictable_inactive v then
    _ ← get_page p;
    n ← pagevec_add (cpu, ActivatePage) p;
    if bool_decide (n = 0%nat) then pagevec_lru_move_fn (cpu, ActivatePage) __activate_page else mret ()
  else mret ().

Definition mark_page_accessed (cpu p : Z) : M () :=
  v ← the_page p;
  if negb (PageActive v) && negb (PageUnevictable v) && PageReferenced v && PageLRU v then
    _ ← activate_page cpu p; set_page p (λ v, v <| PageReferenced := false |>)
  else if negb (PageReferenced v) then set_page p (λ v, v <| PageReferenced := true |>)
  else mret ().

Definition __pagevec_lru_add_fn (lru : Z) (p : Z) (lv : lvid) : M () :=
  let file := is_file_lru lru in
  let active := is_active_lru lru in
  v ← the_page p;
  _ ← VM_BUG_ON (PageActive v); _ ← VM_BUG_ON (PageUnevictable v); _ ← VM_BUG_ON (PageLRU v);
  _ ← set_page p (λ v, v <| PageLRU := true |>);
  _ ← (if active then set_page p (λ v, v <| PageActive := true |>) else mret ());
  _ ← add_page_to_lru_list p lv lru;
  update_page_reclaim_stat lv file active.

Definition __pagevec_lru_add (cpu lru : Z) : M () :=
  _ ← VM_BUG_ON (is_unevictable_lru lru);
  pagevec_lru_move_fn (cpu, LruAdd lru) (__pagevec_lru_add_fn lru).

(** The pagevec is flushed when it is full already, not when the last slot is taken. *)
Definition __lru_cache_add (cpu p lru : Z) : M () :=
  _ ← get_page p;
  l ← st_get (λ s, pvec_of s (cpu, LruAdd lru));
  _ ← (if bool_decide (pagevec_space l = 0%nat) then __pagevec_lru_add cpu lru else mret ());
  _ ← pagevec_add (cpu, LruAdd lru) p; mret ().

Definition lru_cache_add_lru (cpu p lru : Z) : M () :=
  v ← the_page p;
  _ ← (if PageActive v then
         _ ← VM_BUG_ON (PageUnevictable v); set_page p (λ v, v <| PageActive := false |>)
       else if PageUnevictable v then
         _ ← VM_BUG_ON (PageActive v); set_page p (λ v, v <| PageUnevictable := false |>)
       else mret ());
  v ← the_page p;
  _ ← VM_BUG_ON (PageLRU v || PageActive v || PageUnevictable v);
  __lru_cache_add cpu p lru.

Definition add_page_to_unevictable_list (p : Z) : M () :=
  v ← the_page p;
  lv ← mem_cgroup_page_lruvec p (page_zone v);
  _ ← set_page p (λ v, v <| PageUnevictable := true |>);
  _ ← set_page p (λ v, v <| PageLRU := true |>);
  _ ← spin_lock (LVec lv);
  _ ← add_page_to_lru_list p lv LRU_UNEVICTABLE;
  spin_unlock (LVec lv).

Definition lru_deactivate_fn (p : Z) (lv : lvid) : M () :=
  v ← the_page p;
  if negb (PageLRU v) then mret ()
  else if PageUnevictable v then mret ()
  else if page_mapped v then mret ()
  else
    let active := PageActive v in
    let file := page_is_file_cache v in
    let lru := page_lru_base_type v in
    _ ← del_page_from_lru_list p lv (lru + Z.b2z active);
    _ ← set_page p (λ v, v <| PageActive := false |>);
    _ ← set_page p (λ v, v <| PageReferenced := false |>);
    _ ← add_page_to_lru_list p lv lru;
    _ ← (if PageWriteback v || PageDirty v then set_page p (λ v, v <| PageReclaim := true |>)
         else _ ← list_move_tail p (inl (lv, lru)); count_vm_events PGROTATED 1);
    _ ← (if active then count_vm_events PGDEACTIVATE 1 else mret ());
    update_page_reclaim_stat lv file false.

Definition deactivate_page (cpu p : Z) : M () :=
  v ← the_page p;
  if PageUnevictable v then mret ()
  else
    g ← get_page_unless_zero p;
    if g : bool then
      n ← pagevec_add (cpu, LruDeactivate) p;
      if bool_decide (n = 0%nat) then pagevec_lru_move_fn (cpu, LruDeactivate) lru_deactivate_fn else mret ()
    else mret ().

(** A pagevec with pages in it is drained. *)
Definition drain_pvec (k : Z * pvkind) (m : M ()) : M () :=
  n ← pagevec_count k; if bool_decide (n = 0%nat) then mret () else m.

Fixpoint drain_adds (cpu : Z) (lrus : list Z) : M () :=
  match lrus with
  | [] => mret ()
  | lru :: lrus => _ ← drain_pvec (cpu, LruAdd lru) (__pagevec_lru_add cpu lru); drain_adds cpu lrus
  end.

Definition lru_add_drain_cpu (cpu : Z) : M () :=
  _ ← drain_adds cpu lru_lists;
  _ ← drain_pvec (cpu, LruRotate) (pagevec_move_tail cpu);
  _ ← drain_pvec (cpu, LruDeactivate) (pagevec_lru_move_fn (cpu, LruDeactivate) lru_deactivate_fn);
  activate_page_drain cpu.

(** [__pagevec_release] of a pagevec of the caller. *)
Definition __pagevec_release (cpu : Z) (l : list Z) : M () := _ ← lru_add_drain_cpu cpu; release_pages l.

(** ** Isolation (mm/vmscan.c) *)
Definition __isolate_lru_page (p mode : Z) : M Z :=
  v ← the_page p;
  if negb (PageLRU v) then mret (- EINVAL)
  else if PageUnevictable v && negb (has mode ISOLATE_UNEVICTABLE) then mret (- EINVAL)
  else if has mode (Z.lor ISOLATE_CLEAN ISOLATE_ASYNC_MIGRATE) && PageWriteback v then mret (- EBUSY)
  else if has mode (Z.lor ISOLATE_CLEAN ISOLATE_ASYNC_MIGRATE) && PageDirty v
       && (has mode ISOLATE_CLEAN || match pg_mapping v with FileMapping _ migratepage => negb migratepage | _ => false end)
  then mret (- EBUSY)
  else if has mode ISOLATE_UNMAPPED && page_mapped v then mret (- EBUSY)
  else
    g ← get_page_unless_zero p;
    if g : bool then _ ← set_page p (λ v, v <| PageLRU := false |>); mret 0 else mret (- EBUSY).

(** Returns [nr_taken] and [*nr_scanned]. *)
Fixpoint isolate_lru_pages (nr_to_scan : nat) (lv : lvid) (dst : plist) (mode lru : Z) : M (Z * Z) :=
  match nr_to_scan with
  | O => mret (0, 0)
  | S n =>
      e ← list_empty (inl (lv, lru));
      if e : bool then mret (0, 0)
      else
        p ← lru_to_page (inl (lv, lru));
        v ← the_page p; _ ← VM_BUG_ON (negb (PageLRU v));
        r ← __isolate_lru_page p mode;
        if r =? 0 then
          _ ← mem_cgroup_update_lru_size lv lru (-1);
          _ ← list_move p dst;
          '(taken, scanned) ← isolate_lru_pages n lv dst mode lru; mret (taken + 1, scanned + 1)
        else if r =? - EBUSY then
          _ ← list_move p (inl (lv, lru));
          '(taken, scanned) ← isolate_lru_pages n lv dst mode lru; mret (taken, scanned + 1)
        else st_oops
  end.

(** The section of [shrink_active_list] that takes pages off a list. *)
Definition shrink_active_isolate (nr_to_scan : nat) (lv : lvid) (dst : plist) (mode lru : Z) : M Z :=
  _ ← spin_lock (LVec lv);
  '(nr_taken, nr_scanned) ← isolate_lru_pages nr_to_scan lv dst mode lru;
  _ ← st_modify (λ s, s <| mm_scanned ::= zadd (lv, Z.b2z (is_file_lru lru)) nr_taken |>);
  _ ← mod_zone_page_state (lruvec_zone lv) lru (- nr_taken);
  _ ← st_modify (λ s, s <| mm_isolated ::= zadd (lruvec_zone lv, Z.b2z (is_file_lru lru)) nr_taken |>);
  _ ← spin_unlock (LVec lv); mret nr_taken.

(** The one of [shrink_inactive_list], which still takes the lock of the zone too. *)
Definition shrink_inactive_isolate (nr_to_scan : nat) (lv : lvid) (dst : plist) (mode lru : Z) : M Z :=
  _ ← spin_lock (LZone (lruvec_zone lv));
  _ ← spin_lock (LVec lv);
  '(nr_taken, nr_scanned) ← isolate_lru_pages nr_to_scan lv dst mode lru;
  _ ← mod_zone_page_state (lruvec_zone lv) lru (- nr_taken);
  _ ← st_modify (λ s, s <| mm_isolated ::= zadd (lruvec_zone lv, Z.b2z (is_file_lru lru)) nr_taken |>);
  _ ← spin_unlock (LVec lv); _ ← spin_unlock (LZone (lruvec_zone lv)); mret nr_taken.

Definition isolate_lru_page (p : Z) : M Z :=
  v ← the_page p; _ ← VM_BUG_ON (pg_count v =? 0);
  if PageLRU v then
    lv ← mem_cgroup_page_lruvec p (page_zone v);
    _ ← spin_lock (LVec lv);
    v ← the_page p;
    ret ← (if PageLRU v then
             let lru := page_lru v in
             _ ← get_page p;
             _ ← set_page p (λ v, v <| PageLRU := false |>);
             _ ← del_page_from_lru_list p lv lru;
             mret 0
           else mret (- EBUSY));
    _ ← spin_unlock (LVec lv); mret ret
  else mret (- EBUSY).

(** ** Putting back

    The list the page is put on, the check after that, and the end of [putback_lru_page]. *)
Definition putback_place (cpu p : Z) (active : bool) : M Z :=
  v ← the_page p;
  if page_evictable v then
    let lru := Z.b2z active + page_lru_base_type v in
    _ ← lru_cache_add_lru cpu p lru; mret lru
  else _ ← add_page_to_unevictable_list p; mret LRU_UNEVICTABLE.

Definition putback_recheck (p lru : Z) : M bool :=
  v ← the_page p;
  if (lru =? LRU_UNEVICTABLE) && page_evictable v then
    ret ← isolate_lru_page p;
    if ret =? 0 then _ ← put_page p; mret true else mret false
  else mret false.

Definition putback_end (p lru : Z) (was_unevictable : bool) : M () :=
  _ ← (if was_unevictable && negb (lru =? LRU_UNEVICTABLE) then count_vm_events UNEVICTABLE_PGRESCUED 1
       else if negb was_unevictable && (lru =? LRU_UNEVICTABLE) then count_vm_events UNEVICTABLE_PGCULLED 1
       else mret ());
  put_page p.

Fixpoint putback_redo (fuel : nat) (cpu p : Z) (active was_unevictable : bool) : M () :=
  match fuel with
  | O => st_lift NoFuel
  | S fuel =>
      _ ← set_page p (λ v, v <| PageUnevictable := false |>);
      lru ← putback_place cpu p active;
      redo ← putback_recheck p lru;
      if redo : bool then putback_redo fuel cpu p active was_unevictable else putback_end p lru was_unevictable
  end.

(** The loop goes round only when the page becomes evictable meanwhile. *)
Definition putback_lru_page (cpu p : Z) : M () :=
  v ← the_page p;
  _ ← set_page p (λ v, v <| PageActive := false |>);
  _ ← VM_BUG_ON (PageLRU v);
  putback_redo 1 cpu p (PageActive v) (PageUnevictable v).

(** The body of the loop of [putback_inactive_pages]; [lv] is the parameter, which the body overwrites with its
    result; [stat] is [&lruvec->reclaim_stat] of the one passed in. *)
Definition putback_one (cpu : Z) (stat lv : lvid) (p : Z) : M lvid :=
  v ← the_page p; _ ← VM_BUG_ON (PageLRU v);
  _ ← list_del p;
  if negb (page_evictable v) then
    _ ← spin_unlock (LVec lv);
    _ ← putback_lru_page cpu p;
    _ ← spin_lock (LVec lv); mret lv
  else
    lv ← mem_cgroup_page_lruvec p (lruvec_zone stat);
    _ ← set_page p (λ v, v <| PageLRU := true |>);
    v ← the_page p;
    let lru := page_lru v in
    _ ← add_page_to_lru_list p lv lru;
    _ ← (if is_active_lru lru then
           _ ← touch stat; st_modify (λ s, s <| mm_rotated ::= zadd (stat, Z.b2z (is_file_lru lru)) 1 |>)
         else mret ());
    z ← put_page_testzero p;
    _ ← (if z : bool then
           _ ← set_page p (λ v, v <| PageLRU := false |>);
           _ ← set_page p (λ v, v <| PageActive := false |>);
           _ ← del_page_from_lru_list p lv lru;
           list_add p pages_to_free
         else mret ());
    mret lv.

Fixpoint putback_loop (fuel : nat) (cpu : Z) (stat lv : lvid) (r : plist) : M () :=
  e ← list_empty r;
  if e : bool then mret ()
  else
    match fuel with
    | O => st_lift NoFuel
    | S fuel => p ← lru_to_page r; lv ← putback_one cpu stat lv p; putback_loop fuel cpu stat lv r
    end.

Definition putback_inactive_pages (cpu : Z) (lv : lvid) (r : plist) : M () :=
  n ← st_get (λ s, length (plist_of s r));
  _ ← putback_loop n cpu lv lv r;
  list_splice pages_to_free r.

(** The end of [shrink_inactive_list], after [shrink_page_list].  The statistics of the lruvec are still changed
    under the lock of the zone. *)
Definition shrink_inactive_scanned (lv : lvid) (file : bool) (nr_taken : Z) : M () :=
  _ ← spin_lock (LZone (lruvec_zone lv));
  _ ← touch lv;
  _ ← st_modify (λ s, s <| mm_scanned ::= zadd (lv, Z.b2z file) nr_taken |>);
  spin_unlock (LZone (lruvec_zone lv)).

Definition shrink_inactive_putback (cpu : Z) (lv : lvid) (r : plist) (file : bool) (nr_taken : Z) : M () :=
  _ ← shrink_inactive_scanned lv file nr_taken;
  _ ← spin_lock (LVec lv);
  _ ← putback_inactive_pages cpu lv r;
  _ ← spin_unlock (LVec lv);
  _ ← st_modify (λ s, s <| mm_isolated ::= zadd (lruvec_zone lv, Z.b2z file) (- nr_taken) |>);
  free_hot_cold_page_list r.

Fixpoint move_active_loop (fuel : nat) (zone : Z) (r to_free : plist) (lru : Z) : M Z :=
  e ← list_empty r;
  if e : bool then mret 0
  else
    match fuel with
    | O => st_lift NoFuel
    | S fuel =>
        p ← lru_to_page r;
        lv ← mem_cgroup_page_lruvec p zone;
        v ← the_page p; _ ← VM_BUG_ON (PageLRU v);
        _ ← set_page p (λ v, v <| PageLRU := true |>);
        _ ← mem_cgroup_update_lru_size lv lru 1;
        _ ← list_move p (inl (lv, lru));
        z ← put_page_testzero p;
        _ ← (if z : bool then
               _ ← set_page p (λ v, v <| PageLRU := false |>);
               _ ← set_page p (λ v, v <| PageActive := false |>);
               _ ← del_page_from_lru_list p lv lru;
               list_add p to_free
             else mret ());
        pgmoved ← move_active_loop fuel zone r to_free lru; mret (pgmoved + 1)
    end.

Definition move_active_pages_to_lru (lv : lvid) (r to_free : plist) (lru : Z) : M () :=
  n ← st_get (λ s, length (plist_of s r));
  pgmoved ← move_active_loop n (lruvec_zone lv) r to_free lru;
  _ ← mod_zone_page_state (lruvec_zone lv) lru pgmoved;
  if negb (is_active_lru lru) then count_vm_events PGDEACTIVATE pgmoved else mret ().

Fixpoint check_move_loop (pages : list Z) : M Z :=
  match pages with
  | [] => mret 0
  | p :: pages =>
      v ← the_page p;
      lv ← mem_cgroup_page_lruvec p (page_zone v);
      if negb (PageLRU v) || negb (PageUnevictable v) then check_move_loop pages
      else if page_evictable v then
        let lru := page_lru_base_type v in
        _ ← VM_BUG_ON (PageActive v);
        _ ← set_page p (λ v, v <| PageUnevictable := false |>);
        _ ← spin_lock (LVec lv);
        _ ← del_page_from_lru_list p lv LRU_UNEVICTABLE;
        _ ← add_page_to_lru_list p lv lru;
        _ ← spin_unlock (LVec lv);
        pgrescued ← check_move_loop pages; mret (pgrescued + 1)
      else check_move_loop pages
  end.

Definition check_move_unevictable_pages (pages : list Z) : M () :=
  pgrescued ← check_move_loop pages;
  if bool_decide (pages = []) then mret ()
  else
    _ ← count_vm_events UNEVICTABLE_PGRESCUED pgrescued;
    count_vm_events UNEVICTABLE_PGSCANNED (Z.of_nat (length pages)).

(** ** Charging (mm/memcontrol.c)

    The statistics of the group are not modelled. *)
Definition __mem_cgroup_commit_charge (memcg p : Z) (lrucare : bool) : M () :=
  v ← the_page p; _ ← VM_BUG_ON (PageCgroupUsed v);
  let zone := page_zone v in
  was_on_lru ← (if lrucare then
    _ ← spin_lock (LZone zone);
    if PageLRU v then
      let lv := mem_cgroup_zone_lruvec zone (pc_memcg v) in
      _ ← set_page p (λ v, v <| PageLRU := false |>);
      _ ← spin_lock (LVec lv);
      _ ← del_page_from_lru_list p lv (page_lru v);
      _ ← spin_unlock (LVec lv); mret true
    else mret false
  else mret false);
  _ ← set_page p (λ v, v <| pc_memcg := memcg |>);
  _ ← set_page p (λ v, v <| PageCgroupUsed := true |>);
  if lrucare then
    _ ← (if was_on_lru : bool then
           let lv := mem_cgroup_zone_lruvec zone memcg in
           v ← the_page p; _ ← VM_BUG_ON (PageLRU v);
           _ ← set_page p (λ v, v <| PageLRU := true |>);
           _ ← spin_lock (LVec lv);
           _ ← add_page_to_lru_list p lv (page_lru v);
           spin_unlock (LVec lv)
         else mret ());
    spin_unlock (LZone zone)
  else mret ().
End lru.
