(* ===== verification/PageLruInv.v ===== *)
(** * Partitioned page cache: invariant of the LRU lists

    [linked]: lists, links, sizes of lruvecs and counters of zones agree, whatever the flags say.  [page_ok]: the
    flags of a page name the list it is on.  [held_by]: pagevecs and callers hold references, and pages that wait
    in a pagevec to be added are in no other one.  The primitives are given as preconditions of a
    run ([wp]); the operations follow from them. *)
From S2P Require Import Prelude Interfaces StateMonad PageLru.

(** Occurrences of a page in a list. *)
Definition occ (p : Z) (l : list Z) : Z := Z.of_nat (length (filter (.= p) l)).

Lemma occ_nonneg p l : 0 ≤ occ p l.
Proof. unfold occ. lia. Qed.

Lemma occ_cons p q l : occ p (q :: l) = (if decide (q = p) then 1 else 0) + occ p l.
Proof. unfold occ. rewrite filter_cons. case_decide; cbn; lia. Qed.

Lemma occ_app p l1 l2 : occ p (l1 ++ l2) = occ p l1 + occ p l2.
Proof. unfold occ. rewrite filter_app, length_app. lia. Qed.

Lemma occ_nil p : occ p [] = 0.
Proof. done. Qed.

Lemma occ_pos p l : p ∈ l → 0 < occ p l.
Proof. induction l as [|q l IH]; intros Hp; [by apply elem_of_nil in Hp|].
  rewrite occ_cons. pose proof (occ_nonneg p l). apply elem_of_cons in Hp as [->|Hp]; [rewrite decide_True by done; lia|].
  specialize (IH Hp). case_decide; lia.
Qed.

Lemma occ_zero p l : p ∉ l → occ p l = 0.
Proof. induction l as [|q l IH]; intros Hp; [done|]. rewrite occ_cons, decide_False, IH by set_solver. done. Qed.

(** ** Sums over maps *)
Section sums.
Context `{Countable K} {A : Type}.

Definition msum (f : K → A → Z) (m : gmap K A) : Z := map_fold (λ k x n, f k x + n) 0 m.

Lemma msum_empty f : msum f ∅ = 0.
Proof. apply map_fold_empty. Qed.

Lemma msum_insert f m k x : m !! k = None → msum f (<[k := x]> m) = f k x + msum f m.
Proof. intros Hk. unfold msum. rewrite map_fold_insert_L; [done|intros; lia|done]. Qed.

Lemma msum_delete f m k x : m !! k = Some x → msum f m = f k x + msum f (delete k m).
Proof. intros Hk. unfold msum. rewrite (map_fold_delete_L _ _ k x m); [done|intros; lia|done]. Qed.

Lemma msum_update f m k x y : m !! k = Some x → msum f (<[k := y]> m) = msum f m - f k x + f k y.
Proof.
  intros Hk. rewrite (msum_delete f m k x Hk), <- insert_delete_eq, msum_insert by apply lookup_delete_eq. lia.
Qed.

Lemma msum_nonneg f m : (∀ k x, 0 ≤ f k x) → 0 ≤ msum f m.
Proof.
  intros Hf. unfold msum. apply (map_fold_weak_ind (λ n _, 0 ≤ n)); [lia|]. intros k x m' n _ Hn. specialize (Hf k x). lia.
Qed.

Lemma msum_le f m k x : (∀ k x, 0 ≤ f k x) → m !! k = Some x → f k x ≤ msum f m.
Proof. intros Hf Hk. rewrite (msum_delete f m k x Hk). pose proof (msum_nonneg f (delete k m) Hf). lia. Qed.
End sums.

Lemma zget_zadd `{Countable K} (m : gmap K Z) k d k' : zget (zadd k d m) k' = zget m k' + (if decide (k = k') then d else 0).
Proof.
  unfold zadd, zget. case_decide as E; [subst; by rewrite lookup_insert_eq|]. rewrite lookup_insert_ne by done. cbn. lia.
Qed.

(** ** Lists and links *)
Definition on_list (ls : gmap plist (list Z)) (r : plist) : list Z := default [] (ls !! r).

Record coherent (ls : gmap plist (list Z)) (m : gmap Z page) : Prop := {
  co_in : ∀ r p, p ∈ on_list ls r ↔ ∃ v, m !! p = Some v ∧ pg_link v = Some r;
  co_nodup : ∀ r, NoDup (on_list ls r);
}.

Lemma on_list_insert ls r l r' : on_list (<[r := l]> ls) r' = if decide (r = r') then l else on_list ls r'.
Proof. unfold on_list. case_decide; [subst; by rewrite lookup_insert_eq|by rewrite lookup_insert_ne]. Qed.

Lemma coherent_del ls m p v r :
  coherent ls m → m !! p = Some v → pg_link v = Some r →
  coherent (<[r := filter (.≠ p) (on_list ls r)]> ls) (<[p := v <| pg_link := None |>]> m).
Proof.
  intros [C1 C2] Hp Hr. split; [intros r' q|intros r']; rewrite on_list_insert.
  - destruct (decide (p = q)) as [<-|Hq].
    + rewrite lookup_insert_eq. split; [|by intros (w & [= <-] & [=])]. case_decide as E; intros Hin.
      * apply list_elem_of_filter in Hin as [[] _]. done.
      * apply C1 in Hin as (w & Hw & Hl). congruence.
    + rewrite lookup_insert_ne, <- C1 by done. case_decide as E; [|done]. subst r'. rewrite list_elem_of_filter. naive_solver.
  - case_decide; [apply NoDup_filter|]; apply C2.
Qed.

Lemma coherent_add ls m p v r l :
  coherent ls m → m !! p = Some v → pg_link v = None → l ≡ₚ p :: on_list ls r →
  coherent (<[r := l]> ls) (<[p := v <| pg_link := Some r |>]> m).
Proof.
  intros [C1 C2] Hp Hr Hl. assert (∀ r', p ∉ on_list ls r') as Hn.
  { intros r' (w & Hw & E)%C1. congruence. }
  split; [intros r' q|intros r']; rewrite on_list_insert.
  - destruct (decide (p = q)) as [<-|Hq].
    + rewrite lookup_insert_eq. case_decide as E.
      * subst. rewrite Hl. split; [intros _; by eexists|left].
      * split; [by intros []%Hn|by intros (w & [= <-] & [= ->])].
    + rewrite lookup_insert_ne, <- C1 by done. case_decide as E; [|done]. subst r'. rewrite Hl. set_solver.
  - case_decide; [|apply C2]. subst. rewrite Hl. by constructor.
Qed.

Lemma coherent_permute ls m r l : coherent ls m → l ≡ₚ on_list ls r → coherent (<[r := l]> ls) m.
Proof.
  intros [C1 C2] Hl. split; [intros r' q|intros r']; rewrite on_list_insert; (case_decide as E; [subst; rewrite Hl|]); auto.
Qed.

Lemma filter_ne_perm p (l : list Z) : NoDup l → p ∈ l → l ≡ₚ p :: filter (.≠ p) l.
Proof.
  induction 1 as [|q l Hq Hl IH]; intros Hp; [by apply elem_of_nil in Hp|].
  rewrite filter_cons. destruct (decide (q = p)) as [->|E].
  - rewrite decide_False by auto. by rewrite filter_notin_id.
  - rewrite decide_True by done. rewrite IH at 1 by set_solver. apply Permutation_swap.
Qed.

Lemma filter_ne_length p (l : list Z) : NoDup l → p ∈ l → length l = S (length (filter (.≠ p) l)).
Proof. intros Hl Hp. by rewrite (filter_ne_perm p l Hl Hp) at 1. Qed.

Section inv.
Variable disabled : bool.
Variable root_mem_cgroup : Z.

(** The lruvec of a page. *)
Definition lruvec_of (v : page) : lvid := mem_cgroup_zone_lruvec disabled (page_zone v) (pc_memcg v).

Definition linked_at (z l : Z) (p : Z) (v : page) : Z :=
  match pg_link v with Some (inl (lv, l')) => Z.b2z (bool_decide (lv.1 = z ∧ l' = l)) | _ => 0 end.

Record linked (s : mm) : Prop := {
  ln_coherent : coherent (mm_lists s) (mm_pages s);
  ln_size : disabled = false → ∀ lv l, zget (mm_lru_size s) (lv, l) = Z.of_nat (length (plist_of s (inl (lv, l))));
  ln_stat : ∀ z l, zget (mm_zstat s) (z, l) = msum (linked_at z l) (mm_pages s);
}.

Definition page_ok (v : page) : Prop :=
  if PageLRU v
  then pg_link v = Some (inl (lruvec_of v, page_lru v)) ∧ (PageActive v && PageUnevictable v) = false ∧ 0 < pg_count v
  else (∀ x, pg_link v ≠ Some (inl x)) ∧ (pg_link v = Some pages_to_free → pg_count v = 0).

(** A page in a pagevec of pages to be added to the list [lru]. *)
Definition waiting (lru : Z) (v : page) : Prop :=
  PageLRU v = false ∧ PageActive v = false ∧ PageUnevictable v = false ∧ pg_link v = None ∧
  (lru = page_lru_base_type v ∨ lru = page_lru_base_type v + LRU_ACTIVE).

Definition count_of (s : mm) (p : Z) : Z := match mm_pages s !! p with Some v => pg_count v | None => 0 end.

Abbreviation pvecs := (gmap (Z * pvkind) (list Z)).
Definition pv_refs (pv : pvecs) (p : Z) : Z := msum (λ _ l, occ p l) pv.
Definition pv_adds (pv : pvecs) (p : Z) : Z := msum (λ k l, match k.2 with LruAdd _ => occ p l | _ => 0 end) pv.

Definition pv_room (k : pvkind) : nat := match k with LruAdd _ => PAGEVEC_SIZE | _ => PAGEVEC_SIZE - 1 end.

(** The pagevecs [pv] and the references [ext] of callers. *)
Record held_by (pv : pvecs) (ext : list Z) (s : mm) : Prop := {
  hb_refs : ∀ p, pv_refs pv p + occ p ext ≤ count_of s p;
  hb_once : ∀ p, pv_adds pv p ≤ 1;
  hb_wait : ∀ cpu lru l p, pv !! (cpu, LruAdd lru) = Some l → p ∈ l → ∃ v, mm_pages s !! p = Some v ∧ waiting lru v;
  hb_room : ∀ k l, pv !! k = Some l → (length l ≤ pv_room k.2)%nat;
}.

(** Pages that were freed are free, and were freed once. *)
Definition freed_once (s : mm) : Prop :=
  NoDup (mm_free s) ∧
  ∀ p, p ∈ mm_free s → ∃ v, mm_pages s !! p = Some v ∧ pg_count v = 0 ∧ PageLRU v = false ∧ pg_link v = None.

Record inv (pv : pvecs) (ext : list Z) (s : mm) : Prop := {
  iv_linked : linked s;
  iv_ok : map_Forall (λ _ v, page_ok v) (mm_pages s);
  iv_held : held_by pv ext s;
  iv_freed : freed_once s;
}.

(** What no operation on a page changes. *)
Record frame (s s' : mm) : Prop := {
  fr_pvecs : mm_pvecs s' = mm_pvecs s;
  fr_held : mm_held s' = mm_held s;
  fr_races : mm_races s' = mm_races s;
  fr_free : mm_free s' = mm_free s;
  fr_bad : mm_bad s' = mm_bad s;
}.

Lemma frame_refl s : frame s s.
Proof. by split. Qed.

Lemma frame_trans s1 s2 s3 : frame s1 s2 → frame s2 s3 → frame s1 s3.
Proof. intros [] []. split; congruence. Qed.

(** The page [p] becomes [v]; the rest stays, the lists agree. *)
Record upd (p : Z) (v : page) (s s' : mm) : Prop := {
  up_pages : mm_pages s' = <[p := v]> (mm_pages s);
  up_frame : frame s s';
  up_linked : linked s';
}.

Lemma upd_trans p v1 v2 s1 s2 s3 : upd p v1 s1 s2 → upd p v2 s2 s3 → upd p v2 s1 s3.
Proof.
  intros [E1 F1 _] [E2 F2 L]. split; [by rewrite E2, E1, insert_insert_eq|by eapply frame_trans|done].
Qed.

Lemma upd_lookup p v s s' : upd p v s s' → mm_pages s' !! p = Some v.
Proof. intros [-> _ _]. apply lookup_insert_eq. Qed.

(** ** Primitives *)
Lemma wp_the_page p v Q s : mm_pages s !! p = Some v → Q v s → wp (the_page p) Q s.
Proof. apply (wp_deref (λ s, mm_pages s !! p)). Qed.

Lemma wp_BUG_ON b (Q : () → mm → Prop) s : b = false → Q () s → wp (VM_BUG_ON b) Q s.
Proof. intros -> H. by apply wp_ret. Qed.

Lemma wp_spin_lock k (Q : () → mm → Prop) s :
  k ∉ mm_held s → Q () (s <| mm_held ::= union {[k]} |>) → wp (spin_lock k) Q s.
Proof. intros Hk HQ. apply wp_bind, wp_get. rewrite bool_decide_false by done. by apply wp_modify. Qed.

Lemma wp_spin_unlock k (Q : () → mm → Prop) s :
  k ∈ mm_held s → Q () (s <| mm_held ::= λ h, h ∖ {[k]} |>) → wp (spin_unlock k) Q s.
Proof. intros Hk HQ. apply wp_bind, wp_get. rewrite bool_decide_true by done. by apply wp_modify. Qed.

Lemma wp_touch lv (Q : () → mm → Prop) s : LVec lv ∈ mm_held s → Q () s → wp (touch lv) Q s.
Proof. intros Hk HQ. apply wp_bind, wp_get. rewrite bool_decide_true by done. by apply wp_ret. Qed.

Lemma set_page_upd p v f s : linked s → mm_pages s !! p = Some v → pg_link (f v) = pg_link v →
  upd p (f v) s (s <| mm_pages ::= alter f p |>).
Proof.
  intros L Hp Hl. assert (alter f p (mm_pages s) = <[p := f v]> (mm_pages s)) as E.
  { apply map_eq. intros q. destruct (decide (p = q)) as [<-|].
    - by rewrite lookup_alter_eq, lookup_insert_eq, Hp.
    - by rewrite lookup_alter_ne, lookup_insert_ne. }
  split; [done|by split|]. destruct L as [[L1 L2] L3 L4]. split; [|done|].
  - split; [|done]. intros r q. rewrite (L1 r q). cbn. rewrite E. destruct (decide (p = q)) as [<-|].
    + rewrite lookup_insert_eq, Hp. split; intros (w & [= <-] & Hw); eexists; (split; [done|congruence]).
    + by rewrite lookup_insert_ne.
  - intros z l. change (zget (mm_zstat s) (z, l) = msum (linked_at z l) (alter f p (mm_pages s))).
    rewrite L4, E, (msum_update _ _ p v) by done. unfold linked_at. rewrite Hl. lia.
Qed.

Lemma wp_set_page p v f (Q : () → mm → Prop) s :
  linked s → mm_pages s !! p = Some v → pg_link (f v) = pg_link v → (∀ s', upd p (f v) s s' → Q () s') →
  wp (set_page p f) Q s.
Proof. intros L Hp Hl HQ. apply wp_modify, HQ. by apply set_page_upd. Qed.

Lemma alter_insert (f : page → page) p v (m : gmap Z page) : m !! p = Some v → alter f p m = <[p := f v]> m.
Proof.
  intros Hp. apply map_eq. intros q. destruct (decide (p = q)) as [<-|].
  - by rewrite lookup_alter_eq, lookup_insert_eq, Hp.
  - by rewrite lookup_alter_ne, lookup_insert_ne.
Qed.

Lemma in_list p v r s : linked s → mm_pages s !! p = Some v → pg_link v = Some r → p ∈ plist_of s r.
Proof. intros L Hp Hr. apply (co_in _ _ (ln_coherent s L)). eauto. Qed.

(** The list, the size and the counter, in one change. *)
Definition unlink_state (p : Z) (lv : lvid) (l : Z) (s : mm) : mm :=
  s <| mm_lru_size ::= (if disabled then id else zadd (lv, l) (-1)) |>
    <| mm_lists ::= <[inl (lv, l) := filter (.≠ p) (plist_of s (inl (lv, l)))]> |>
    <| mm_pages ::= alter (λ v, v <| pg_link := None |>) p |>
    <| mm_zstat ::= zadd (lv.1, l) (-1) |>.

Lemma linked_unlink p v lv l s :
  linked s → mm_pages s !! p = Some v → pg_link v = Some (inl (lv, l)) →
  upd p (v <| pg_link := None |>) s (unlink_state p lv l s).
Proof.
  intros L Hp Hr. pose proof (in_list p v _ s L Hp Hr) as Hin. destruct L as [L1 L3 L4].
  split; [by apply (alter_insert (λ v, v <| pg_link := None |>))|by split|split].
  - cbn. rewrite (alter_insert _ p v) by done. by apply coherent_del.
  - intros Hd lv' l'. cbn. rewrite Hd, zget_zadd, (L3 Hd). unfold plist_of at 2. cbn.
    change (default [] (<[inl (lv, l):=filter (.≠ p) (plist_of s (inl (lv, l)))]> (mm_lists s) !! inl (lv', l')))
      with (on_list (<[inl (lv, l):=filter (.≠ p) (plist_of s (inl (lv, l)))]> (mm_lists s)) (inl (lv', l'))).
    rewrite on_list_insert. destruct (decide (inl (lv, l) = inl (lv', l'))) as [[= <- <-]|E].
    + rewrite decide_True by done. pose proof (filter_ne_length p _ (co_nodup _ _ L1 _) Hin) as E.
      unfold plist_of, on_list in *. lia.
    + rewrite decide_False by congruence. unfold plist_of, on_list. lia.
  - intros z l'. cbn. rewrite zget_zadd, L4, (alter_insert _ p v), (msum_update _ _ p v) by done.
    unfold linked_at at 3 4. cbn. rewrite Hr. destruct (decide ((lv.1, l) = (z, l'))) as [E|E].
    + rewrite bool_decide_true by naive_solver. cbn. lia.
    + rewrite bool_decide_false by naive_solver. cbn. lia.
Qed.
Definition link_state (p : Z) (lv : lvid) (l : Z) (s : mm) : mm :=
  s <| mm_lru_size ::= (if disabled then id else zadd (lv, l) 1) |>
    <| mm_lists ::= <[inl (lv, l) := p :: plist_of s (inl (lv, l))]> |>
    <| mm_pages ::= alter (λ v, v <| pg_link := Some (inl (lv, l)) |>) p |>
    <| mm_zstat ::= zadd (lv.1, l) 1 |>.

Lemma linked_link p v lv l s :
  linked s → mm_pages s !! p = Some v → pg_link v = None →
  upd p (v <| pg_link := Some (inl (lv, l)) |>) s (link_state p lv l s).
Proof.
  intros [L1 L3 L4] Hp Hr.
  split; [by apply (alter_insert (λ v, v <| pg_link := Some (inl (lv, l)) |>))|by split|split].
  - cbn. rewrite (alter_insert _ p v) by done. by apply coherent_add.
  - intros Hd lv' l'. cbn. rewrite Hd, zget_zadd, (L3 Hd).
    change (plist_of (link_state p lv l s) (inl (lv', l')))
      with (on_list (<[inl (lv, l) := p :: plist_of s (inl (lv, l))]> (mm_lists s)) (inl (lv', l'))).
    rewrite on_list_insert. destruct (decide (inl (lv, l) = inl (lv', l'))) as [[= <- <-]|E].
    + rewrite decide_True by done. cbn. lia.
    + rewrite decide_False by congruence. unfold plist_of, on_list. lia.
  - intros z l'. cbn. rewrite zget_zadd, L4, (alter_insert _ p v), (msum_update _ _ p v) by done.
    unfold linked_at at 3 4. cbn. rewrite Hr. destruct (decide ((lv.1, l) = (z, l'))) as [E|E].
    + rewrite bool_decide_true by naive_solver. cbn. lia.
    + rewrite bool_decide_false by naive_solver. cbn. lia.
Qed.

Lemma size_pos p v lv l s :
  disabled = false → linked s → mm_pages s !! p = Some v → pg_link v = Some (inl (lv, l)) →
  0 < zget (mm_lru_size s) (lv, l).
Proof.
  intros Hd L Hp Hr. rewrite (ln_size s L Hd). pose proof (in_list p v _ s L Hp Hr) as Hin.
  destruct (plist_of s (inl (lv, l))); [by apply elem_of_nil in Hin|cbn; lia].
Qed.

Lemma wp_update_size lv l d (Q : () → mm → Prop) s :
  LVec lv ∈ mm_held s → (disabled = false → 0 ≤ zget (mm_lru_size s) (lv, l) + d) →
  Q () (s <| mm_lru_size ::= (if disabled then id else zadd (lv, l) d) |>) → wp (mem_cgroup_update_lru_size disabled lv l d) Q s.
Proof.
  intros Hh Hd HQ. unfold mem_cgroup_update_lru_size. destruct disabled; [by apply wp_ret; destruct s|].
  apply wp_bind, wp_touch; [done|]. apply wp_bind, wp_modify, wp_bind, wp_get. apply wp_BUG_ON; [|done].
  cbn. rewrite zget_zadd, decide_True by done. specialize (Hd eq_refl). lia.
Qed.

Lemma wp_del p v lv l (Q : () → mm → Prop) s :
  linked s → mm_pages s !! p = Some v → pg_link v = Some (inl (lv, l)) → LVec lv ∈ mm_held s →
  (∀ s', upd p (v <| pg_link := None |>) s s' → Q () s') → wp (del_page_from_lru_list disabled p lv l) Q s.
Proof.
  intros L Hp Hr Hh HQ. apply wp_bind, wp_update_size; [done|..].
  { intros Hd. pose proof (size_pos p v lv l s Hd L Hp Hr). lia. }
  apply wp_bind, wp_bind. eapply wp_the_page; [done|]. apply wp_bind. eapply wp_lift; [by rewrite Hr|].
  apply wp_bind, wp_touch; [done|]. apply wp_bind, wp_modify, wp_modify, wp_modify.
  apply HQ. by apply (linked_unlink p v lv l).
Qed.

Lemma wp_add p v lv l (Q : () → mm → Prop) s :
  linked s → mm_pages s !! p = Some v → pg_link v = None → LVec lv ∈ mm_held s →
  (∀ s', upd p (v <| pg_link := Some (inl (lv, l)) |>) s s' → Q () s') → wp (add_page_to_lru_list disabled p lv l) Q s.
Proof.
  intros L Hp Hr Hh HQ. apply wp_bind, wp_update_size; [done|..].
  { intros Hd. rewrite (ln_size s L Hd). lia. }
  apply wp_bind, wp_bind, wp_touch; [done|]. apply wp_bind, wp_modify, wp_modify, wp_modify.
  apply HQ. by apply (linked_link p v lv l).
Qed.
(** A page that stays on its list, at another place. *)
Lemma move_upd p v r l s (E : l ≡ₚ plist_of s r) :
  linked s → mm_pages s !! p = Some v → pg_link v = Some r →
  upd p v s (s <| mm_lists ::= λ m, <[r := l]> (<[r := filter (.≠ p) (plist_of s r)]> m) |>
               <| mm_pages ::= λ m, alter (λ v, v <| pg_link := Some r |>) p (alter (λ v, v <| pg_link := None |>) p m) |>).
Proof.
  intros [L1 L3 L4] Hp Hr.
  assert (alter (λ v, v <| pg_link := Some r |>) p (alter (λ v, v <| pg_link := None |>) p (mm_pages s)) = mm_pages s) as Ep.
  { rewrite (alter_insert _ p v (mm_pages s)), (alter_insert _ p (v <| pg_link := None |>)) by (done || apply lookup_insert_eq).
    rewrite insert_insert_eq. apply insert_id. rewrite Hp. f_equal. destruct v; cbn in *. by subst. }
  assert (∀ r', plist_of (s <| mm_lists ::= λ m, <[r := l]> (<[r := filter (.≠ p) (plist_of s r)]> m) |>
      <| mm_pages ::= λ m, alter (λ v, v <| pg_link := Some r |>) p (alter (λ v, v <| pg_link := None |>) p m) |>) r'
      = if decide (r = r') then l else plist_of s r') as El.
  { intros r'. unfold plist_of. cbn. rewrite insert_insert_eq. apply (on_list_insert (mm_lists s)). }
  split; [cbn; rewrite Ep; by rewrite insert_id|by split|split].
  - cbn. rewrite Ep, insert_insert_eq. by apply coherent_permute.
  - intros Hd lv' l'. rewrite El. cbn. rewrite (L3 Hd). case_decide; [subst; by rewrite E|done].
  - intros z l'. cbn. by rewrite Ep, L4.
Qed.

Lemma touch_list_wp r (Q : () → mm → Prop) s :
  (∀ lv l, r = inl (lv, l) → LVec lv ∈ mm_held s) → Q () s → wp (touch_list r) Q s.
Proof. intros Hr HQ. destruct r as [[lv l]|n]; [eapply wp_touch; eauto|by apply wp_ret]. Qed.

Lemma wp_list_del p v r (Q : () → mm → Prop) s :
  mm_pages s !! p = Some v → pg_link v = Some r → (∀ lv l, r = inl (lv, l) → LVec lv ∈ mm_held s) →
  Q () (s <| mm_lists ::= <[r := filter (.≠ p) (plist_of s r)]> |> <| mm_pages ::= alter (λ v, v <| pg_link := None |>) p |>) →
  wp (list_del p) Q s.
Proof.
  intros Hp Hr Hh HQ. apply wp_bind. eapply wp_the_page; [done|]. apply wp_bind. eapply wp_lift; [by rewrite Hr|].
  apply wp_bind, touch_list_wp; [done|]. by apply wp_bind, wp_modify, wp_modify.
Qed.

Lemma wp_list_move p v r (Q : () → mm → Prop) s :
  linked s → mm_pages s !! p = Some v → pg_link v = Some r → (∀ lv l, r = inl (lv, l) → LVec lv ∈ mm_held s) →
  (∀ s', upd p v s s' → Q () s') → wp (list_move p r) Q s ∧ wp (list_move_tail p r) Q s.
Proof.
  intros L Hp Hr Hh HQ. pose proof (in_list p v r s L Hp Hr) as Hin.
  pose proof (filter_ne_perm p _ (co_nodup _ _ (ln_coherent s L) r) Hin) as E. unfold on_list in E.
  split; apply wp_bind; (eapply wp_list_del; [done..|]); apply wp_bind, touch_list_wp; try done; apply wp_bind, wp_modify, wp_modify, HQ.
  - apply (move_upd p v r (p :: plist_of _ r)); try done. unfold plist_of at 1. cbn. by rewrite lookup_insert_eq.
  - apply (move_upd p v r (plist_of _ r ++ [p])); try done. unfold plist_of at 1. cbn. rewrite lookup_insert_eq. cbn.
    rewrite <- Permutation_cons_append. by rewrite <- E.
Qed.
(** ** Runs that only change one page

    Each lemma continues a run that has made [p] into [v], from the state [s0]. *)
Lemma upd_id p v s : linked s → mm_pages s !! p = Some v → upd p v s s.
Proof. intros L Hp. split; [by rewrite insert_id|apply frame_refl|done]. Qed.

Lemma upd_held p v s s' : upd p v s s' → mm_held s' = mm_held s.
Proof. intros [_ [] _]. done. Qed.

Section run.
Context (p : Z) (v : page) (s0 s : mm) (Q : () → mm → Prop).
Hypothesis U : upd p v s0 s.

Let Hp : mm_pages s !! p = Some v := upd_lookup _ _ _ _ U.
Let L : linked s := up_linked _ _ _ _ U.

Lemma u_set f : pg_link (f v) = pg_link v → (∀ s', upd p (f v) s0 s' → Q () s') → wp (set_page p f) Q s.
Proof. intros Hl HQ. apply (wp_set_page p v); [done..|]. intros s' U'. apply HQ. by eapply upd_trans. Qed.

Lemma u_del lv l :
  pg_link v = Some (inl (lv, l)) → LVec lv ∈ mm_held s0 → (∀ s', upd p (v <| pg_link := None |>) s0 s' → Q () s') →
  wp (del_page_from_lru_list disabled p lv l) Q s.
Proof.
  intros Hr Hh HQ. apply (wp_del p v); [done..|by rewrite (upd_held _ _ _ _ U)|]. intros s' U'. apply HQ. by eapply upd_trans.
Qed.

Lemma u_add lv l :
  pg_link v = None → LVec lv ∈ mm_held s0 → (∀ s', upd p (v <| pg_link := Some (inl (lv, l)) |>) s0 s' → Q () s') →
  wp (add_page_to_lru_list disabled p lv l) Q s.
Proof.
  intros Hr Hh HQ. apply (wp_add p v); [done..|by rewrite (upd_held _ _ _ _ U)|]. intros s' U'. apply HQ. by eapply upd_trans.
Qed.

Lemma u_move_tail lv l :
  pg_link v = Some (inl (lv, l)) → LVec lv ∈ mm_held s0 → (∀ s', upd p v s0 s' → Q () s') →
  wp (list_move_tail p (inl (lv, l))) Q s.
Proof.
  intros Hr Hh HQ. apply (wp_list_move p v); [done..| |].
  - intros lv' l' [= <- <-]. by rewrite (upd_held _ _ _ _ U).
  - intros s' U'. apply HQ. by eapply upd_trans.
Qed.

Lemma u_events e n : (∀ s', upd p v s0 s' → Q () s') → wp (count_vm_events e n) Q s.
Proof. intros HQ. apply wp_modify, HQ. destruct U as [E [] []]. split; [done|by split|by split]. Qed.

Lemma u_stat lv file rotated :
  LVec lv ∈ mm_held s0 → (∀ s', upd p v s0 s' → Q () s') → wp (update_page_reclaim_stat lv file rotated) Q s.
Proof.
  intros Hh HQ. apply wp_bind, wp_touch; [by rewrite (upd_held _ _ _ _ U)|]. apply wp_bind, wp_modify.
  destruct U as [E [] []]. destruct rotated; [apply wp_modify|apply wp_ret]; apply HQ; (split; [done|by split|by split]).
Qed.
End run.

Lemma wp_page_lruvec p v (Q : lvid → mm → Prop) s0 s :
  upd p v s0 s →
  (∀ v' s', upd p v' s0 s' → v' = v ∨ PageLRU v = false ∧ v' = v <| pc_memcg := root_mem_cgroup |> → Q (lruvec_of v') s') →
  wp (mem_cgroup_page_lruvec disabled root_mem_cgroup p (page_zone v)) Q s.
Proof.
  intros U HQ. unfold mem_cgroup_page_lruvec. unfold lruvec_of, mem_cgroup_zone_lruvec in HQ. destruct disabled eqn:Hd.
  { apply wp_ret. by apply (HQ v); [|left]. }
  apply wp_bind. eapply wp_the_page; [by eapply upd_lookup|].
  destruct (negb (PageLRU v) && negb (PageCgroupUsed v) && negb (pc_memcg v =? root_mem_cgroup)) eqn:E.
  - apply wp_bind. eapply u_set; [done|done|]. intros s' U'. apply wp_ret.
    refine (HQ (v <| pc_memcg := root_mem_cgroup |>) s' U' (or_intror _)). by destruct (PageLRU v).
  - apply wp_ret. by apply (HQ v); [|left].
Qed.
End inv.
