(* ===== verification/PageLruOps.v ===== *)
(** * Partitioned page cache: the operations keep the invariant

    Functions applied to the pages of a pagevec, releasing, draining, isolating and putting back. *)
From S2P Require Import Prelude Interfaces StateMonad PageLru PageLruInv.

Section ops.
Variable disabled : bool.
Variable root_mem_cgroup : Z.
Abbreviation upd := (upd disabled).
Abbreviation linked := (linked disabled).
Abbreviation page_ok := (page_ok disabled).
Abbreviation lruvec_of := (lruvec_of disabled).
Abbreviation inv := (inv disabled).

Lemma page_ok_lru v :
  page_ok v → PageLRU v = true →
  pg_link v = Some (inl (lruvec_of v, page_lru v)) ∧ (PageActive v && PageUnevictable v) = false ∧ 0 < pg_count v.
Proof. unfold PageLruInv.page_ok. intros H E. by rewrite E in H. Qed.

Lemma page_ok_intro v :
  PageLRU v = true → pg_link v = Some (inl (lruvec_of v, page_lru v)) → (PageActive v && PageUnevictable v) = false →
  0 < pg_count v → page_ok v.
Proof. unfold PageLruInv.page_ok. by intros ->. Qed.

(** No link to a list on a stack is made, other than to the list of pages to be freed. *)
Definition keeps (v v' : page) : Prop := ∀ n, pg_link v' = Some (inr (S n)) → pg_link v = Some (inr (S n)).

Lemma link_keeps_refl v : keeps v v.
Proof. by intros n. Qed.

Lemma keeps_none v v' : pg_link v' = None → keeps v v'.
Proof. intros E n. by rewrite E. Qed.

Lemma keeps_lru v v' : page_ok v' → PageLRU v' = true → keeps v v'.
Proof. intros H E n. destruct (page_ok_lru v' H E) as (-> & _). done. Qed.
Hint Resolve link_keeps_refl keeps_none keeps_lru : core.

(** ** Functions applied under the lock *)
Definition fn_ok (fn : Z → lvid → M ()) : Prop :=
  ∀ p v s Q, linked s → mm_pages s !! p = Some v → page_ok v → LVec (lruvec_of v) ∈ mm_held s →
  (∀ v' s', upd p v' s s' → page_ok v' → pg_count v' = pg_count v → keeps v v' → (PageLRU v = false → v' = v) → Q () s') →
  wp (fn p (lruvec_of v)) Q s.

Lemma evictable_inactive_true v :
  evictable_inactive v = true → PageLRU v = true ∧ PageActive v = false ∧ PageUnevictable v = false.
Proof. unfold evictable_inactive. destruct (PageLRU v), (PageActive v), (PageUnevictable v); done. Qed.

Lemma move_tail_fn_ok : fn_ok pagevec_move_tail_fn.
Proof.
  intros p v s Q L Hp Hv Hh HQ. pose proof (upd_id disabled p v s L Hp) as U.
  apply wp_bind. eapply wp_the_page; [done|]. apply wp_if; intros E; [|apply wp_ret; eauto].
  apply evictable_inactive_true in E as (E1 & E2 & E3). pose proof (page_ok_lru v Hv E1) as (Hl & _ & _).
  unfold page_lru in Hl. rewrite E2, E3, Z.add_0_r in Hl.
  apply wp_bind. eapply u_move_tail; [done..|]. intros s1 U1. eapply u_events; [done|]. intros s2 U2.
  eapply HQ; [done..|apply link_keeps_refl|congruence].
Qed.

Lemma activate_fn_ok : fn_ok (__activate_page disabled).
Proof.
  intros p v s Q L Hp Hv Hh HQ. pose proof (upd_id disabled p v s L Hp) as U.
  apply wp_bind. eapply wp_the_page; [done|]. apply wp_if; intros E; [|apply wp_ret; eauto].
  apply evictable_inactive_true in E as (E1 & E2 & E3). pose proof (page_ok_lru v Hv E1) as (Hl & _ & Hc).
  unfold page_lru in Hl. rewrite E2, E3, Z.add_0_r in Hl.
  apply wp_bind. eapply u_del; [done..|]. intros s1 U1. apply wp_bind. eapply u_set; [done..|]. intros s2 U2.
  apply wp_bind. eapply u_add; [done..|]. intros s3 U3. apply wp_bind. eapply u_events; [done|]. intros s4 U4.
  eapply u_stat; [done..|]. intros s5 U5. eapply HQ; [done| |done|by intros n|congruence].
  apply page_ok_intro; cbn; try done. unfold page_lru. cbn. by rewrite E3.
Qed.

Lemma deactivate_fn_ok : fn_ok (lru_deactivate_fn disabled).
Proof.
  intros p v s Q L Hp Hv Hh HQ. pose proof (upd_id disabled p v s L Hp) as U.
  apply wp_bind. eapply wp_the_page; [done|].
  apply wp_if; intros E1; [apply wp_ret; eauto|apply negb_false_iff in E1].
  apply wp_if; intros E2; [apply wp_ret; eauto|]. apply wp_if; intros E3; [apply wp_ret; eauto|].
  pose proof (page_ok_lru v Hv E1) as (Hl & _ & Hc). unfold page_lru in Hl. rewrite E2 in Hl.
  apply wp_bind. eapply u_del; [done|by destruct (PageActive v)|done|]. intros s1 U1.
  apply wp_bind. eapply u_set; [done..|]. intros s2 U2. apply wp_bind. eapply u_set; [done..|]. intros s3 U3.
  apply wp_bind. eapply u_add; [done..|]. intros s4 U4.
  assert (∀ b s5, upd p (v <| pg_link := Some (inl (lruvec_of v, page_lru_base_type v)) |> <| PageActive := false |>
            <| PageReferenced := false |> <| PageReclaim := b |>) s s5 →
          wp ((_ ← (if PageActive v then count_vm_events PGDEACTIVATE 1 else mret ());
               update_page_reclaim_stat (lruvec_of v) (page_is_file_cache v) false) : M ()) Q s5) as K.
  { intros b s5 U5. apply wp_bind. apply wp_if; intros E4; [eapply u_events; [done|]; clear s5 U5; intros s5 U5|apply wp_ret];
      (eapply u_stat; [done..|]; intros s6 U6; eapply HQ; [done| |done|by intros n|congruence];
       apply page_ok_intro; cbn; try done; unfold page_lru; cbn; by rewrite E2, Z.add_0_r). }
  apply wp_bind. apply wp_if; intros E4.
  - eapply u_set; [done..|]. intros s5 U5. by apply (K true).
  - apply wp_bind. eapply u_move_tail; [done..|]. intros s5 U5. eapply u_events; [done|]. intros s6 U6. by apply (K (PageReclaim v)).
Qed.
(** ** One page of the invariant changes *)
Lemma inv_upd pv ext ext' p v' s s' :
  inv pv ext s → upd p v' s s' → page_ok v' →
  pv_refs pv p + occ p ext' ≤ pg_count v' → (∀ q, q ≠ p → occ q ext' ≤ occ q ext) →
  (∀ cpu lru l, pv !! (cpu, LruAdd lru) = Some l → p ∈ l → waiting lru v') → p ∉ mm_free s → inv pv ext' s'.
Proof.
  intros [L Ok [H1 H2 H3 H4] [F1 F2]] [E [_ _ _ Ef _] L'] Hv Hc Hq Hw Hf. split; [done|..].
  - rewrite E. by apply map_Forall_insert_2.
  - split; [|done| |done].
    + intros q. unfold count_of. rewrite E. destruct (decide (p = q)) as [<-|Hn]; [by rewrite lookup_insert_eq|].
      rewrite lookup_insert_ne by done. specialize (H1 q). specialize (Hq q ltac:(done)). unfold count_of in H1. lia.
    + intros cpu lru l q Hl Hin. rewrite E. destruct (decide (p = q)) as [<-|Hn].
      * rewrite lookup_insert_eq. eauto.
      * rewrite lookup_insert_ne by done. eauto.
  - split; [by rewrite Ef|]. intros q Hin. rewrite Ef in Hin. rewrite E, lookup_insert_ne by set_solver. auto.
Qed.

Lemma pv_refs_nonneg pv p : 0 ≤ pv_refs pv p.
Proof. apply msum_nonneg. intros. apply occ_nonneg. Qed.

Lemma pv_adds_nonneg pv p : 0 ≤ pv_adds pv p.
Proof. apply msum_nonneg. intros [? []] ?; cbn; try lia. apply occ_nonneg. Qed.

Lemma inv_page pv ext p s : inv pv ext s → p ∈ ext →
  ∃ v, mm_pages s !! p = Some v ∧ pv_refs pv p + occ p ext ≤ pg_count v ∧ 0 < pg_count v.
Proof.
  intros I Hp%occ_pos. pose proof (hb_refs _ _ _ (iv_held _ _ _ _ I) p) as H. unfold count_of in H.
  pose proof (pv_refs_nonneg pv p). destruct (mm_pages s !! p) as [v|]; [exists v; split; [done|]; lia|lia].
Qed.

Lemma inv_not_free pv ext p v s : inv pv ext s → mm_pages s !! p = Some v → 0 < pg_count v → p ∉ mm_free s.
Proof. intros I Hp Hc (w & Hw & ? & _)%(iv_freed _ _ _ _ I). simplify_eq. lia. Qed.

(** No count changes, and a page that waits goes on waiting. *)
Lemma inv_upd_same pv ext p v v' s s' :
  inv pv ext s → mm_pages s !! p = Some v → 0 < pg_count v → upd p v' s s' → page_ok v' → pg_count v' = pg_count v →
  (∀ lru, waiting lru v → waiting lru v') → inv pv ext s'.
Proof.
  intros I Hp Hpos U Hv Hc Hw. eapply inv_upd; [done..| | | |].
  - pose proof (hb_refs _ _ _ (iv_held _ _ _ _ I) p) as H. unfold count_of in H. rewrite Hp in H. lia.
  - done.
  - intros cpu lru l Hl Hin. apply Hw. destruct (hb_wait _ _ _ (iv_held _ _ _ _ I) cpu lru l p Hl Hin) as (w & Hw' & ?).
    by simplify_eq.
  - by eapply inv_not_free.
Qed.

(** The invariant does not depend on locks. *)
Lemma inv_locks pv ext s f : inv pv ext s → inv pv ext (s <| mm_held ::= f |>).
Proof. intros [[] ? [] []]. by repeat (split; try done). Qed.

Lemma page_ok_memcg v m : PageLRU v = false → page_ok v → page_ok (v <| pc_memcg := m |>).
Proof. unfold PageLruInv.page_ok. cbn. by intros ->. Qed.

(** Locks and races as before. *)
Record quiet (s s' : mm) : Prop := {
  qt_held : mm_held s' = mm_held s;
  qt_races : mm_races s' = mm_races s;
  qt_pvecs : mm_pvecs s' = mm_pvecs s;
  qt_keeps : ∀ q v', mm_pages s' !! q = Some v' → ∃ v, mm_pages s !! q = Some v ∧ keeps v v';
}.

Lemma quiet_refl s : quiet s s.
Proof. split; eauto. Qed.
Hint Resolve quiet_refl : core.

Definition unlocked (s : mm) : Prop := ∀ lv, LVec lv ∉ mm_held s.

Lemma quiet_trans s1 s2 s3 : quiet s1 s2 → quiet s2 s3 → quiet s1 s3.
Proof.
  intros [A1 A2 A3 A4] [B1 B2 B3 B4]. split; [congruence..|]. intros q v3 (v2 & (v1 & H1 & K1)%A4 & K2)%B4.
  exists v1. split; [done|]. intros n ?. by apply K1, K2.
Qed.

Lemma quiet_unlocked s s' : quiet s s' → unlocked s → unlocked s'.
Proof. intros [E _ _ _] H lv. by rewrite E. Qed.

Lemma upd_quiet p v v' s s' : mm_pages s !! p = Some v → upd p v' s s' → keeps v v' → quiet s s'.
Proof.
  intros Hp [E [] _] K. split; [done..|]. rewrite E. intros q w. destruct (decide (p = q)) as [<-|].
  - rewrite lookup_insert_eq. intros [= <-]. eauto.
  - rewrite lookup_insert_ne by done. eauto.
Qed.

Lemma upd_unlock p v k s s' :
  upd p v (s <| mm_held ::= union {[k]} |>) s' → k ∉ mm_held s → upd p v s (s' <| mm_held ::= λ h, h ∖ {[k]} |>).
Proof.
  intros [E [F1 F2 F3 F4 F5] []] Hk. split; [done| |by split]. split; try done. cbn in *. rewrite F2. set_solver.
Qed.

Lemma wp_assoc {A B C} (m : M A) (k1 : A → M B) (k2 : B → M C) Q s :
  wp (m ≫= k1) (λ b, wp (k2 b) Q) s → wp (m ≫= λ x, k1 x ≫= k2) Q s.
Proof.
  intros (b & s' & (a & s1 & E1 & E2)%ST_bind_inv & c & s2 & E3 & H). exists c, s2.
  by rewrite (ST_bind_Ok _ _ _ _ _ E1), (ST_bind_Ok _ _ _ _ _ E2).
Qed.

Lemma wp_section {A} (a b c : M ()) (k : M A) Q s :
  wp (_ ← a; _ ← b; c) (λ _, wp k Q) s → wp (_ ← a; _ ← b; _ ← c; k) Q s.
Proof.
  intros ([] & s' & ([] & s1 & E1 & ([] & s2 & E2 & E3)%ST_bind_inv)%ST_bind_inv & r & s3 & E4 & H). exists r, s3.
  by rewrite (ST_bind_Ok _ _ _ _ _ E1), (ST_bind_Ok _ _ _ _ _ E2), (ST_bind_Ok _ _ _ _ _ E3).
Qed.

(** Code under the lock of an lruvec that changes one page. *)
Lemma wp_critical p v lv (m : M ()) (P : page → Prop) (Q : () → mm → Prop) s0 s :
  upd p v s0 s → LVec lv ∉ mm_held s0 →
  (∀ s1 (R : () → mm → Prop), linked s1 → mm_pages s1 !! p = Some v → LVec lv ∈ mm_held s1 →
     (∀ v' s2, upd p v' s1 s2 → P v' → R () s2) → wp m R s1) →
  (∀ v' s', upd p v' s0 s' → P v' → Q () s') →
  wp (_ ← spin_lock (LVec lv); _ ← m; spin_unlock (LVec lv)) Q s.
Proof.
  intros U Hk Hm HQ. rewrite <- (upd_held _ _ _ _ _ U) in Hk. apply wp_bind, wp_spin_lock; [done|]. apply wp_bind, Hm.
  - destruct (up_linked _ _ _ _ _ U). by split.
  - exact (upd_lookup _ _ _ _ _ U).
  - cbn. set_solver.
  - intros v' s2 U2 HP. apply wp_spin_unlock; [rewrite (upd_held _ _ _ _ _ U2); cbn; set_solver|].
    apply (HQ v'); [|done]. eapply upd_trans; [done|]. by apply upd_unlock.
Qed.

(** ** The loop over a pagevec *)
Lemma move_loop_ok fn pv ext l s :
  fn_ok fn → inv pv ext s → unlocked s → l ⊆ ext →
  wp (move_loop disabled root_mem_cgroup fn l) (λ _ s', inv pv ext s' ∧ quiet s s') s.
Proof.
  intros Hfn. revert s. induction l as [|p l IH]; intros s I Hu Hl; [by apply wp_ret|].
  destruct (inv_page pv ext p s I) as (v & Hp & _ & Hpos); [set_solver|].
  pose proof (iv_ok _ _ _ _ I p v Hp) as Hv. pose proof (upd_id disabled p v s (iv_linked _ _ _ _ I) Hp) as U.
  cbn [move_loop]. apply wp_bind. eapply wp_the_page; [done|]. apply wp_bind. eapply wp_page_lruvec; [done|].
  intros v1 s1 U1 Hv1.
  assert (page_ok v1 ∧ pg_count v1 = pg_count v ∧ pg_link v1 = pg_link v ∧ ∀ lru, waiting lru v → waiting lru v1) as (Hv1' & Hc1 & Hl1 & Hw1).
  { destruct Hv1 as [->|[E ->]]; [done|]. split; [by apply page_ok_memcg|done]. }
  apply wp_section.
  eapply (wp_critical p v1 _ _ (λ v', page_ok v' ∧ pg_count v' = pg_count v1 ∧ keeps v1 v' ∧ (PageLRU v1 = false → v' = v1))); [done|apply Hu|..].
  { intros s2 R L2 Hp2 Hh2 HR. eapply Hfn; [done..|]. intros v' s' ? ? ? ? ?. by apply (HR v'). }
  intros v' s2 U2 (Hv' & Hc' & Hk' & Hw'). assert (quiet s s2) as Q2.
  { eapply upd_quiet; [done..|]. intros n Hn. rewrite <- Hl1. by apply Hk'. }
  assert (inv pv ext s2) as I2.
  { eapply inv_upd_same; [done..|congruence|]. intros lru W%Hw1. rewrite Hw' by apply W. done. }
  eapply wp_mono; [apply IH; [done|by eapply quiet_unlocked|set_solver]|]. intros _ s3 [? ?]. split; [done|by eapply quiet_trans].
Qed.
(** ** Pages that wait to be added *)
Lemma waiting_lru lru v : waiting lru v →
  is_unevictable_lru lru = false ∧ page_lru_base_type v + (if is_active_lru lru then LRU_ACTIVE else 0) = lru ∧
  is_file_lru lru = page_is_file_cache v.
Proof.
  intros (_ & _ & _ & _ & H). unfold page_lru_base_type in *. destruct (page_is_file_cache v); destruct H as [-> | ->]; done.
Qed.

Lemma add_fn_ok p v lru s (Q : () → mm → Prop) :
  linked s → mm_pages s !! p = Some v → waiting lru v → 0 < pg_count v → LVec (lruvec_of v) ∈ mm_held s →
  (∀ v' s', upd p v' s s' → page_ok v' ∧ pg_count v' = pg_count v ∧ page_lru v' = lru ∧ PageLRU v' = true → Q () s') →
  wp (__pagevec_lru_add_fn disabled lru p (lruvec_of v)) Q s.
Proof.
  intros L Hp W Hc Hh HQ. pose proof (waiting_lru lru v W) as (_ & El & _). destruct W as (W1 & W2 & W3 & W4 & _).
  pose proof (upd_id disabled p v s L Hp) as U.
  apply wp_bind. eapply wp_the_page; [done|]. do 3 (apply wp_bind, wp_BUG_ON; [done|]).
  apply wp_bind. eapply u_set; [done..|]. intros s1 U1.
  set (v2 := v <| PageLRU := true |> <| PageActive := is_active_lru lru |>).
  assert (∀ s2, upd p v2 s s2 → wp ((_ ← add_page_to_lru_list disabled p (lruvec_of v) lru;
    update_page_reclaim_stat (lruvec_of v) (is_file_lru lru) (is_active_lru lru)) : M ()) Q s2) as K.
  { intros s2 U2. apply wp_bind. eapply u_add; [done..|]. intros s3 U3. eapply u_stat; [done..|]. intros s4 U4.
    assert (page_lru (v2 <| pg_link := Some (inl (lruvec_of v, lru)) |>) = lru) as E.
    { unfold page_lru. cbn. by rewrite W3. }
    eapply HQ; [done|]. split; [|done]. apply page_ok_intro; [done| |cbn; by rewrite W3, andb_false_r|done].
    rewrite E. done. }
  apply wp_bind. apply wp_if; intros E.
  - eapply u_set; [done..|]. intros s2 U2. apply K. unfold v2. by rewrite E.
  - apply wp_ret, K. unfold v2. rewrite E. destruct v; cbn in *. by subst.
Qed.

Lemma adds_zero pv p cpu lru l : pv_adds pv p = 0 → pv !! (cpu, LruAdd lru) = Some l → p ∉ l.
Proof.
  intros H Hl Hin%occ_pos. unfold pv_adds in H.
  pose proof (msum_le (λ k l, match k.2 with LruAdd _ => occ p l | _ => 0 end) pv _ _
    ltac:(intros [? []] ?; cbn; try lia; apply occ_nonneg) Hl) as H'. cbn in H'. lia.
Qed.

Lemma waiting_ok lru v : waiting lru v → page_ok v.
Proof. intros (W1 & _ & _ & W4 & _). unfold PageLruInv.page_ok. by rewrite W1, W4. Qed.

Lemma add_loop_ok lru pv ext l s :
  inv pv ext s → unlocked s → l ⊆ ext → NoDup l → (∀ p, p ∈ l → pv_adds pv p = 0) →
  (∀ p, p ∈ l → ∃ v, mm_pages s !! p = Some v ∧ waiting lru v) →
  wp (move_loop disabled root_mem_cgroup (__pagevec_lru_add_fn disabled lru) l) (λ _ s', inv pv ext s' ∧ quiet s s') s.
Proof.
  intros I Hu Hl Hnd Hz Hw. revert s I Hu Hw. induction Hnd as [|p l Hpl Hnd IH]; intros s I Hu Hw; [by apply wp_ret|].
  destruct (Hw p) as (v & Hp & W); [by left|]. destruct (inv_page pv ext p s I) as (v0 & Hp0 & _ & Hpos); [set_solver|].
  simplify_eq. pose proof (upd_id disabled p v s (iv_linked _ _ _ _ I) Hp) as U.
  cbn [move_loop]. apply wp_bind. eapply wp_the_page; [done|]. apply wp_bind. eapply wp_page_lruvec; [done|].
  intros v1 s1 U1 Hv1. assert (waiting lru v1 ∧ pg_count v1 = pg_count v) as (W1 & Hc1) by (by destruct Hv1 as [->|[E ->]]).
  apply wp_section.
  eapply (wp_critical p v1 _ _ (λ v', page_ok v' ∧ pg_count v' = pg_count v1 ∧ page_lru v' = lru ∧ PageLRU v' = true)); [done|apply Hu|..].
  { intros s2 R L2 Hp2 Hh2 HR. eapply add_fn_ok; [done..|lia|done|]. exact HR. }
  intros v' s2 U2 (Hv' & Hc' & Hlru & Hon). pose proof (upd_quiet _ v _ _ _ Hp U2 (keeps_lru _ _ Hv' Hon)) as Q2.
  assert (inv pv ext s2) as I2.
  { eapply inv_upd; [done..| |done| |by eapply inv_not_free].
    - pose proof (hb_refs _ _ _ (iv_held _ _ _ _ I) p) as H. unfold count_of in H. rewrite Hp in H. lia.
    - intros cpu lru' l' Hl' []%(adds_zero pv p cpu lru' l'); [|done]. apply Hz. by left. }
  eapply wp_mono; [apply IH; [set_solver|set_solver|done|by eapply quiet_unlocked|]|].
  - intros q Hq. rewrite (up_pages _ _ _ _ _ U2), lookup_insert_ne by set_solver. apply Hw. by right.
  - intros _ s3 [? ?]. split; [done|by eapply quiet_trans].
Qed.
(** ** Releasing a page *)
Lemma u_list_add_private p v n s0 s (Q : () → mm → Prop) :
  upd p v s0 s → pg_link v = None → (∀ s', upd p (v <| pg_link := Some (inr n) |>) s0 s' → Q () s') →
  wp (list_add p (inr n)) Q s.
Proof.
  intros U Hl HQ. pose proof (upd_lookup _ _ _ _ _ U) as Hp. apply wp_bind, wp_ret, wp_bind, wp_modify, wp_modify, HQ.
  eapply upd_trans; [done|]. destruct (up_linked _ _ _ _ _ U) as [L1 L3 L4].
  split; [by apply (alter_insert (λ v, v <| pg_link := Some (inr n) |>))|by split|split].
  - cbn. rewrite (alter_insert _ p v) by done. by apply coherent_add.
  - intros Hd lv l. cbn. rewrite (L3 Hd). unfold plist_of. cbn. by rewrite lookup_insert_ne.
  - intros z l. cbn. rewrite L4, (alter_insert _ p v), (msum_update _ _ p v) by done. unfold linked_at at 3 4. cbn. rewrite Hl. lia.
Qed.

Definition off_lru (v v' : page) : Prop :=
  PageLRU v' = false ∧ PageActive v' = false ∧ PageUnevictable v' = false ∧ pg_link v' = None ∧ pg_count v' = pg_count v.

Lemma wp_lru_release p v s0 s (Q : () → mm → Prop) :
  upd p v s0 s → LVec (lruvec_of v) ∉ mm_held s0 → PageLRU v = true →
  pg_link v = Some (inl (lruvec_of v, page_lru v)) → (PageActive v && PageUnevictable v) = false →
  (∀ v' s', upd p v' s0 s' → off_lru v v' → Q () s') →
  wp (lv ← lru_release_flags disabled root_mem_cgroup p; lru_release_list disabled p lv) Q s.
Proof.
  intros U Hh Hlru Hl Hau HQ. apply wp_bind, wp_bind. eapply wp_the_page; [exact (upd_lookup _ _ _ _ _ U)|].
  apply wp_bind. eapply wp_page_lruvec; [done|]. intros v1 s1 U1 [->|[E _]]; [|congruence].
  apply wp_bind. eapply wp_the_page; [exact (upd_lookup _ _ _ _ _ U1)|]. apply wp_bind, wp_BUG_ON; [by rewrite Hlru|].
  apply wp_bind. eapply u_set; [done..|]. intros s2 U2. apply wp_ret.
  assert (LVec (lruvec_of v) ∉ mm_held s2) as Hh2 by (by rewrite (upd_held _ _ _ _ _ U2)).
  apply wp_bind, wp_spin_lock; [done|].
  set (s3 := s2 <| mm_held ::= union {[LVec (lruvec_of v)]} |>).
  assert (upd p (v <| PageLRU := false |>) s3 s3) as U3.
  { apply upd_id; [destruct (up_linked _ _ _ _ _ U2); by split|exact (upd_lookup _ _ _ _ _ U2)]. }
  assert (LVec (lruvec_of v) ∈ mm_held s3) as Hh3 by (cbn; set_solver).
  assert (∀ v4 s4, upd p v4 s3 s4 → pg_link v4 = pg_link v → PageLRU v4 = false → PageActive v4 = false →
    PageUnevictable v4 = false → pg_count v4 = pg_count v →
    wp ((_ ← del_page_from_lru_list disabled p (lruvec_of v) (page_lru v); spin_unlock (LVec (lruvec_of v))) : M ()) Q s4) as K.
  { intros v4 s4 U4 El F1 F2 F3 F4. apply wp_bind. eapply u_del; [done|congruence|done|]. intros s5 U5.
    apply wp_spin_unlock; [by rewrite (upd_held _ _ _ _ _ U5)|]. eapply (HQ (v4 <| pg_link := None |>)); [|done].
    eapply upd_trans; [done|]. by apply upd_unlock. }
  apply wp_bind, wp_bind. eapply wp_the_page; [exact (upd_lookup _ _ _ _ _ U3)|]. unfold page_lru in K. cbn [PageUnevictable PageActive].
  apply wp_if; intros E1; [|apply wp_if; intros E2]; cbn in E1.
  - apply wp_bind. eapply u_set; [done..|]. intros s4 U4. apply wp_ret. rewrite E1 in K, Hau. apply (K _ _ U4); cbn; try done.
    by rewrite andb_true_r in Hau.
  - apply wp_bind. eapply u_set; [done..|]. intros s4 U4. apply wp_ret. cbn in E2. rewrite E1, E2 in K. by apply (K _ _ U4).
  - apply wp_ret. cbn in E2. rewrite E1, E2, Z.add_0_r in K. by apply (K _ _ U3).
Qed.
(** Pages on the list of a function are referenced by it. *)
Definition private_in (ext : list Z) (s : mm) : Prop :=
  ∀ p v n, mm_pages s !! p = Some v → pg_link v = Some (inr (S n)) → p ∈ ext.

Lemma quiet_private ext s s' : quiet s s' → private_in ext s → private_in ext s'.
Proof. intros Qt H p v' n Hp Hl. destruct (qt_keeps _ _ Qt p v' Hp) as (v & Hv & K). eapply H; eauto. Qed.

Lemma wp_testzero p v s0 s (Q : bool → mm → Prop) :
  upd p v s0 s → 0 < pg_count v → (∀ s', upd p (v <| pg_count ::= Z.pred |>) s0 s' → Q (pg_count v =? 1) s') →
  wp (put_page_testzero p) Q s.
Proof.
  intros U Hc HQ. apply wp_bind. eapply wp_the_page; [exact (upd_lookup _ _ _ _ _ U)|].
  apply wp_bind, wp_BUG_ON; [lia|]. apply wp_bind. eapply u_set; [done..|]. intros s' U'. by apply wp_ret, HQ.
Qed.

(** The last reference to a page is dropped: it leaves its list. *)
Lemma wp_last_ref p v s0 s (Q : () → mm → Prop) :
  upd p v s0 s → page_ok (v <| pg_count := 1 |>) → pg_count v = 0 → (∀ n, pg_link v ≠ Some (inr n)) → LVec (lruvec_of v) ∉ mm_held s0 →
  (∀ v' s', upd p v' s0 s' → PageLRU v' = false → pg_link v' = None → pg_count v' = 0 → Q () s') →
  wp (__page_cache_release disabled root_mem_cgroup p) Q s.
Proof.
  intros U Hv Hc Hn Hh HQ. apply wp_bind. eapply wp_the_page; [exact (upd_lookup _ _ _ _ _ U)|].
  apply wp_if; intros E.
  - destruct (page_ok_lru _ Hv E) as (Hl & Hau & _). eapply wp_lru_release; [done..|].
    intros v' s' U' (O1 & _ & _ & O4 & O5). apply (HQ v'); [done..|congruence].
  - apply wp_ret. apply (HQ v); try done. unfold PageLruInv.page_ok in Hv. cbn in Hv. rewrite E in Hv. destruct Hv as [H1 H2].
    destruct (pg_link v) as [[x|n]|]; [by destruct (H1 x)|by destruct (Hn n)|done].
Qed.

Lemma occ_same p l : occ p (p :: l) = 1 + occ p l.
Proof. rewrite occ_cons. by rewrite decide_True. Qed.

Lemma occ_cons_le p q l : occ p l ≤ occ p (q :: l).
Proof. rewrite occ_cons. case_decide; lia. Qed.

(** A reference that is not the last. *)
Lemma inv_drop_ref pv ext p v s s' :
  inv pv (p :: ext) s → mm_pages s !! p = Some v → 1 < pg_count v → upd p (v <| pg_count ::= Z.pred |>) s s' →
  inv pv ext s' ∧ quiet s s'.
Proof.
  intros I Hp Hc U. pose proof (iv_ok _ _ _ _ I p v Hp) as Hv. split; [|eapply upd_quiet; [done..|by intros n]].
  pose proof (hb_refs _ _ _ (iv_held _ _ _ _ I) p) as H. unfold count_of in H. rewrite Hp, occ_same in H.
  eapply inv_upd; [done..| | | | |].
  - unfold PageLruInv.page_ok in *. cbn. destruct (PageLRU v); [|split; [apply Hv|intros E; destruct Hv as [_ Hv]; specialize (Hv E); lia]].
    destruct Hv as (? & ? & ?). repeat split; [done..|lia].
  - cbn. lia.
  - intros q _. apply occ_cons_le.
  - intros cpu lru l Hl Hin. destruct (hb_wait _ _ _ (iv_held _ _ _ _ I) cpu lru l p Hl Hin) as (w & Hw' & ?). by simplify_eq.
  - eapply inv_not_free; [done..|lia].
Qed.

(** Facts on a page whose last reference is about to go. *)
Lemma last_facts pv ext p v s :
  inv pv (p :: ext) s → private_in ext s → mm_pages s !! p = Some v → pg_count v = 1 →
  pv_refs pv p = 0 ∧ (p ∉ ext) ∧ (p ∉ mm_free s) ∧ (∀ n, pg_link v ≠ Some (inr n)) ∧ page_ok v.
Proof.
  intros I Hpr Hp Hc. pose proof (iv_ok _ _ _ _ I p v Hp) as Hv.
  pose proof (hb_refs _ _ _ (iv_held _ _ _ _ I) p) as H. unfold count_of in H. rewrite Hp, occ_same in H.
  pose proof (pv_refs_nonneg pv p). pose proof (occ_nonneg p ext).
  assert (p ∉ ext) as Hne by (intros ?%occ_pos; lia).
  split; [lia|]. split; [done|]. split; [eapply inv_not_free; [done..|lia]|]. split; [|done].
  intros [|n] Hl; [|by eapply Hne, Hpr].
  unfold PageLruInv.page_ok in Hv. destruct (PageLRU v); [destruct Hv as [? _]; congruence|]. destruct Hv as [_ Hv]. specialize (Hv Hl). lia.
Qed.

Lemma refs_zero pv p k l : pv_refs pv p = 0 → pv !! k = Some l → p ∉ l.
Proof.
  intros H Hl Hin%occ_pos. unfold pv_refs in H.
  pose proof (msum_le (λ _ l, occ p l) pv _ _ (λ _ l, occ_nonneg p l) Hl) as H'. cbn in H'. lia.
Qed.

Lemma inv_last pv ext p v v' s s' :
  inv pv (p :: ext) s → private_in ext s → mm_pages s !! p = Some v → pg_count v = 1 →
  upd p v' s s' → PageLRU v' = false → pg_link v' = None ∨ pg_link v' = Some pages_to_free → pg_count v' = 0 →
  inv pv ext s' ∧ quiet s s'.
Proof.
  intros I Hpr Hp Hc U H1 H2 H3. destruct (last_facts pv ext p v s I Hpr Hp Hc) as (F1 & F2 & F3 & F4 & F5).
  split.
  - eapply inv_upd; [done..| | | | |done].
    + unfold PageLruInv.page_ok. rewrite H1. by destruct H2 as [-> | ->].
    + rewrite occ_zero by done. lia.
    + intros q _. apply occ_cons_le.
    + intros cpu lru l Hl []%(refs_zero pv p _ l F1 Hl).
  - eapply upd_quiet; [done..|]. intros n E. destruct H2 as [H2|H2]; rewrite H2 in E; [done|]. unfold pages_to_free in E. congruence.
Qed.
End ops.

#[export] Hint Resolve quiet_refl link_keeps_refl keeps_none : lanes.
