(* ===== verification/PageLruDrain.v ===== *)
(** * Partitioned page cache: releasing and draining

    [put_page], [release_pages] and the pagevecs: every function returns, keeps the invariant, and holds no lock
    and has made no unlocked change at the end. *)
From S2P Require Import Prelude Interfaces StateMonad PageLru PageLruInv PageLruOps.

Section drain.
Variable disabled : bool.
Variable root_mem_cgroup : Z.
Abbreviation upd := (upd disabled).
Abbreviation linked := (linked disabled).
Abbreviation page_ok := (page_ok disabled).
Abbreviation lruvec_of := (lruvec_of disabled).
Abbreviation inv := (inv disabled).

(** ** Freeing *)
Definition unused_page (s : mm) (p : Z) : Prop :=
  ∃ v, mm_pages s !! p = Some v ∧ pg_count v = 0 ∧ PageLRU v = false ∧ pg_link v = None.

Lemma free_page_ok pv ext p s :
  inv pv ext s → unused_page s p → p ∉ mm_free s →
  wp (free_hot_cold_page disabled p)
    (λ _ s', inv pv ext s' ∧ quiet s s' ∧ (∀ q, q ≠ p → mm_pages s' !! q = mm_pages s !! q) ∧ mm_free s' ⊆ p :: mm_free s) s.
Proof.
  intros I (v & Hp & Hc & Hl & Hk) Hf. pose proof (upd_id disabled p v s (iv_linked _ _ _ _ I) Hp) as U.
  apply wp_bind. eapply wp_the_page; [done|]. apply wp_if; intros E.
  - apply wp_modify. split; [|split; [|split]].
    + destruct I as [[] ? [] []]. split; [by split|done|by split|by split].
    + split; [done..|]. intros q w Hq. exists w. split; [done|apply link_keeps_refl].
    + done.
    + intros q Hq. by right.
  - apply wp_bind. eapply u_set; [done..|]. intros s1 U1. apply wp_bind. eapply u_events; [done|]. intros s2 U2.
    assert (inv pv ext s2) as I2.
    { eapply inv_upd; [done..| | |done| |done].
      - pose proof (iv_ok _ _ _ _ I p v Hp) as Hv. unfold PageLruInv.page_ok in *. cbn. rewrite Hl, Hk. done.
      - pose proof (hb_refs _ _ _ (iv_held _ _ _ _ I) p) as H. unfold count_of in H. by rewrite Hp in H.
      - intros cpu lru l Hpv Hin%occ_pos. pose proof (hb_refs _ _ _ (iv_held _ _ _ _ I) p) as H. unfold count_of in H. rewrite Hp in H.
        pose proof (msum_le (λ _ l, occ p l) pv _ _ (λ _ l, occ_nonneg p l) Hpv). pose proof (occ_nonneg p ext). unfold pv_refs in H. cbn in *. lia. }
    pose proof (upd_quiet disabled _ v _ _ _ Hp U2 (keeps_none _ _ Hk)) as Q2. pose proof (up_pages _ _ _ _ _ U2) as E2.
    pose proof (fr_free _ _ (up_frame _ _ _ _ _ U2)) as Ef. apply wp_modify. split; [|split; [|split]].
    + destruct I2 as [[] ? [] [F1 F2]]. split; [by split|done|by split|]. split; cbn; rewrite Ef in *; [by constructor|].
      intros q [->|Hq]%elem_of_cons; [|by apply F2]. eexists. split; [rewrite E2; apply lookup_insert_eq|done].
    + destruct Q2. by split.
    + intros q Hq. cbn. rewrite E2. by rewrite lookup_insert_ne.
    + cbn. by rewrite Ef.
Qed.

Lemma free_pages_ok pv ext l s :
  inv pv ext s → NoDup l → (∀ p, p ∈ l → unused_page s p ∧ p ∉ mm_free s) →
  wp (free_pages disabled l) (λ _ s', inv pv ext s' ∧ quiet s s') s.
Proof.
  intros I Hnd. revert s I. induction Hnd as [|p l Hpl Hnd IH]; intros s I Hl; [apply wp_ret; by auto with lanes|].
  cbn [free_pages]. apply wp_bind. destruct (Hl p) as [Hu Hf]; [by left|]. eapply wp_mono; [by apply free_page_ok|].
  intros _ s1 (I1 & Q1 & E1 & F1). eapply wp_mono; [apply IH; [done|]|].
  - intros q Hq. destruct (Hl q) as [(v & Hv) Hfq]; [by right|]. split; [exists v; rewrite E1; set_solver|].
    intros H%F1. set_solver.
  - intros _ s2 [I2 Q2]. split; [done|by eapply quiet_trans].
Qed.

Lemma lookup_unlink (f : page → page) l m q : NoDup l →
  (foldr (alter f) m l : gmap Z page) !! q = if decide (q ∈ l) then f <$> m !! q else m !! q.
Proof.
  induction 1 as [|p l Hp Hl IH]; [done|]. cbn. destruct (decide (p = q)) as [<-|Hq].
  - rewrite lookup_alter_eq, IH, decide_False, decide_True by set_solver. done.
  - rewrite lookup_alter_ne, IH by done. destruct (decide (q ∈ l)); [rewrite decide_True by set_solver|rewrite decide_False by set_solver]; done.
Qed.
Lemma msum_unlink f (g : page → page) l m :
  NoDup l → (∀ p v, p ∈ l → m !! p = Some v → f p (g v) = f p v) → msum f (foldr (alter g) m l : gmap Z page) = msum f m.
Proof.
  induction 1 as [|p l Hp Hl IH]; intros H; [done|]. cbn. rewrite <- IH by (intros; apply H; [by right|done]).
  assert ((foldr (alter g) m l : gmap Z page) !! p = m !! p) as E by (by rewrite lookup_unlink, decide_False).
  destruct (m !! p) as [v|] eqn:Ev.
  - rewrite (alter_insert g p v) by done. rewrite (msum_update _ _ p v), (H p v) by (done || by left). lia.
  - f_equal. apply map_eq. intros q. destruct (decide (p = q)) as [<-|]; [by rewrite lookup_alter_eq, E|by rewrite lookup_alter_ne].
Qed.

(** A list on a stack goes out of use. *)
Definition drop_list (r : nat) (s : mm) : mm :=
  s <| mm_lists ::= <[inr r := []]> |>
    <| mm_pages ::= λ m, foldr (alter (λ v, v <| pg_link := None |>)) m (plist_of s (inr r)) |>.

Section drop.
Context (r : nat) (s : mm).
Hypothesis L : linked s.

Lemma drop_in q v : mm_pages s !! q = Some v → q ∈ plist_of s (inr r) ↔ pg_link v = Some (inr r).
Proof.
  intros Hq. rewrite (co_in _ _ (ln_coherent _ _ L) (inr r) q). split; [by intros (w & ? & ?); simplify_eq|eauto].
Qed.

Lemma drop_nodup : NoDup (plist_of s (inr r)).
Proof. apply (co_nodup _ _ (ln_coherent _ _ L)). Qed.

Lemma drop_lookup q :
  mm_pages (drop_list r s) !! q =
  (λ v, if decide (pg_link v = Some (inr r)) then v <| pg_link := None |> else v) <$> mm_pages s !! q.
Proof.
  cbn. rewrite lookup_unlink by apply drop_nodup. destruct (mm_pages s !! q) as [v|] eqn:E; [|by case_decide].
  pose proof (drop_in q v E). cbn [fmap option_fmap option_map].
  destruct (decide (q ∈ plist_of s (inr r))), (decide (pg_link v = Some (inr r))); tauto || done.
Qed.

Lemma drop_linked : linked (drop_list r s).
Proof.
  pose proof (ln_coherent _ _ L) as [C1 C2]. split; [split|..].
  - intros r' q. rewrite drop_lookup. change (mm_lists (drop_list r s)) with (<[inr r := []]> (mm_lists s)).
    rewrite on_list_insert. case_decide as E.
    + subst. split; [by intros ?%elem_of_nil|]. intros (w & (v & _ & ->)%fmap_Some & Hw). by case_decide.
    + rewrite C1. split; intros (w & Hq & Hw).
      * exists w. rewrite Hq. cbn. by rewrite decide_False by congruence.
      * apply fmap_Some in Hq as (v & Hv & ->). exists v. case_decide; done.
  - intros r'. change (mm_lists (drop_list r s)) with (<[inr r := []]> (mm_lists s)). rewrite on_list_insert.
    case_decide; [constructor|apply C2].
  - intros Hd lv l. change (mm_lru_size (drop_list r s)) with (mm_lru_size s). rewrite (ln_size _ _ L Hd). unfold plist_of. cbn.
    by rewrite lookup_insert_ne.
  - intros z l. change (mm_zstat (drop_list r s)) with (mm_zstat s). rewrite (ln_stat _ _ L). symmetry. apply msum_unlink; [apply drop_nodup|].
    intros p v Hp Hv. rewrite (drop_in p v Hv) in Hp. unfold linked_at. cbn. by rewrite Hp.
Qed.

Lemma drop_inv pv ext : inv pv ext s → inv pv ext (drop_list r s) ∧ quiet s (drop_list r s).
Proof.
  intros [_ Ok [H1 H2 H3 H4] [F1 F2]]. split.
  - split; [apply drop_linked| |split; [|done| |done]|split; [done|]].
    + intros q w. rewrite drop_lookup. intros (v & Hv & ->)%fmap_Some. specialize (Ok q v Hv). case_decide as E; [|done].
      unfold PageLruInv.page_ok in *. cbn. destruct (PageLRU v); [|by split]. destruct Ok as [? _]. congruence.
    + intros q. specialize (H1 q). unfold count_of in *. rewrite drop_lookup. destruct (mm_pages s !! q); cbn; [case_decide|]; done.
    + intros cpu lru l q Hl Hq. destruct (H3 cpu lru l q Hl Hq) as (v & Hv & W). exists v. rewrite drop_lookup, Hv. cbn.
      rewrite decide_False; [done|]. destruct W as (_ & _ & _ & -> & _). done.
    + intros q Hq. destruct (F2 q Hq) as (v & Hv & ? & ? & E). exists v. rewrite drop_lookup, Hv. cbn. by rewrite decide_False by congruence.
  - split; [done..|]. intros q w. rewrite drop_lookup. intros (v & Hv & ->)%fmap_Some. exists v. split; [done|].
    case_decide; [by apply keeps_none|apply link_keeps_refl].
Qed.
End drop.

Lemma free_list_ok pv ext s :
  inv pv ext s → wp (free_hot_cold_page_list disabled pages_to_free) (λ _ s', inv pv ext s' ∧ quiet s s') s.
Proof.
  intros I. pose proof (iv_linked _ _ _ _ I) as L. destruct (drop_inv 0 s L pv ext I) as [I1 Q1].
  apply wp_bind, wp_get, wp_bind, wp_modify.
  eapply wp_mono; [apply (free_pages_ok pv ext _ (drop_list 0 s)); [done|by apply drop_nodup|]|].
  - intros p Hp. destruct (co_in _ _ (ln_coherent _ _ L) pages_to_free p) as [H _]. destruct (H Hp) as (v & Hv & Hl). unfold pages_to_free in Hl.
    pose proof (iv_ok _ _ _ _ I p v Hv) as Ok. unfold PageLruInv.page_ok in Ok. destruct (PageLRU v) eqn:E; [destruct Ok as [? _]; congruence|].
    destruct Ok as [_ Hc]. split.
    + exists (v <| pg_link := None |>). rewrite drop_lookup, Hv by done. cbn. rewrite decide_True by done. auto.
    + cbn. intros (w & ? & _ & _ & ?)%(iv_freed _ _ _ _ I). congruence.
  - intros _ s2 [I2 Q2]. split; [done|by eapply quiet_trans].
Qed.

(** ** Dropping references *)
Lemma put_page_ok pv ext p s :
  inv pv (p :: ext) s → private_in ext s → unlocked s →
  wp (put_page disabled root_mem_cgroup p) (λ _ s', inv pv ext s' ∧ quiet s s') s.
Proof.
  intros I Hpr Hu. destruct (inv_page _ pv _ p s I) as (v & Hp & _ & Hpos); [by left|].
  pose proof (upd_id disabled p v s (iv_linked _ _ _ _ I) Hp) as U. apply wp_bind. eapply wp_testzero; [done..|]. intros s1 U1.
  apply wp_if; intros E; [|apply wp_ret; eapply inv_drop_ref; [done..|lia|done]].
  apply Z.eqb_eq in E. destruct (last_facts _ pv ext p v s I Hpr Hp E) as (F1 & F2 & F3 & F4 & F5).
  apply wp_bind. eapply wp_last_ref; [done| |cbn; lia|done|apply Hu|].
  { unfold PageLruInv.page_ok in *. cbn. destruct (PageLRU v); [by destruct F5 as (? & ? & _)|].
    destruct F5 as [? _]. split; [done|]. by intros ?%F4. }
  intros v' s2 U2 H1 H2 H3. destruct (inv_last _ pv ext p v v' s s2 I Hpr Hp E U2 H1) as [I2 Q2]; [by left|done|].
  eapply wp_mono; [apply (free_page_ok pv ext)|].
  - done.
  - exists v'. split; [exact (upd_lookup _ _ _ _ _ U2)|done].
  - by rewrite (fr_free _ _ (up_frame _ _ _ _ _ U2)).
  - intros _ s3 (I3 & Q3 & _). split; [done|by eapply quiet_trans].
Qed.
Lemma release_page_ok pv ext p s :
  inv pv (p :: ext) s → private_in ext s → unlocked s →
  wp (release_page disabled root_mem_cgroup p) (λ _ s', inv pv ext s' ∧ quiet s s') s.
Proof.
  intros I Hpr Hu. destruct (inv_page _ pv _ p s I) as (v & Hp & _ & Hpos); [by left|].
  pose proof (upd_id disabled p v s (iv_linked _ _ _ _ I) Hp) as U. apply wp_bind. eapply wp_testzero; [done..|]. intros s1 U1.
  apply wp_if; intros E; [|apply wp_ret; eapply inv_drop_ref; [done..|lia|done]].
  apply Z.eqb_eq in E. destruct (last_facts _ pv ext p v s I Hpr Hp E) as (F1 & F2 & F3 & F4 & F5).
  assert (wp (__page_cache_release disabled root_mem_cgroup p)
    (λ _, wp (list_add p pages_to_free) (λ _ s', inv pv ext s' ∧ quiet s s')) s1) as W;
    [|exact (wp_assoc _ _ (λ _, list_add p pages_to_free) _ _ W)].
  eapply wp_last_ref; [done| |cbn; lia|done|apply Hu|].
  { unfold PageLruInv.page_ok in *. cbn. destruct (PageLRU v); [by destruct F5 as (? & ? & _)|].
    destruct F5 as [? _]. split; [done|]. by intros ?%F4. }
  intros v' s2 U2 H1 H2 H3. eapply u_list_add_private; [done..|]. intros s3 U3.
  eapply inv_last; [done..|by right|done].
Qed.

Lemma release_loop_ok pv ext l s :
  inv pv (l ++ ext) s → private_in ext s → unlocked s →
  wp (release_loop disabled root_mem_cgroup l) (λ _ s', inv pv ext s' ∧ quiet s s') s.
Proof.
  revert s. induction l as [|p l IH]; intros s I Hpr Hu; [apply wp_ret; by auto with lanes|]. cbn [release_loop]. apply wp_bind.
  eapply wp_mono; [apply (release_page_ok pv (l ++ ext)); [done| |done]|].
  { intros q w n Hq Hl. apply elem_of_app. right. by eapply Hpr. }
  intros _ s1 [I1 Q1]. eapply wp_mono; [apply IH; [done|by eapply quiet_private|by eapply quiet_unlocked]|].
  intros _ s2 [I2 Q2]. split; [done|by eapply quiet_trans].
Qed.

Lemma release_pages_ok pv ext l s :
  inv pv (l ++ ext) s → private_in ext s → unlocked s →
  wp (release_pages disabled root_mem_cgroup l) (λ _ s', inv pv ext s' ∧ quiet s s') s.
Proof.
  intros I Hpr Hu. apply wp_bind. eapply wp_mono; [by apply (release_loop_ok pv ext)|]. intros _ s1 [I1 Q1].
  eapply wp_mono; [by apply free_list_ok|]. intros _ s2 [I2 Q2]. split; [done|by eapply quiet_trans].
Qed.
(** ** Pagevecs *)
Lemma refs_split pv k p : pv_refs pv p = pv_refs (delete k pv) p + occ p (default [] (pv !! k)).
Proof.
  unfold pv_refs. destruct (pv !! k) as [l|] eqn:E; cbn.
  - rewrite (msum_delete _ pv k l) by done. lia.
  - rewrite delete_id by done. unfold occ. cbn. lia.
Qed.

Lemma adds_split pv k p :
  pv_adds pv p = pv_adds (delete k pv) p + match k.2 with LruAdd _ => occ p (default [] (pv !! k)) | _ => 0 end.
Proof.
  unfold pv_adds. destruct (pv !! k) as [l|] eqn:E; cbn.
  - rewrite (msum_delete _ pv k l) by done. lia.
  - rewrite delete_id by done. destruct k.2; unfold occ; cbn; lia.
Qed.

(** The references of a pagevec pass to the function that drains it. *)
Lemma inv_take pv ext k s : inv pv ext s → inv (delete k pv) (default [] (pv !! k) ++ ext) s.
Proof.
  intros [L Ok [H1 H2 H3 H4] F]. split; [done..| |done]. split.
  - intros p. rewrite occ_app. specialize (H1 p). rewrite (refs_split pv k p) in H1. lia.
  - intros p. specialize (H2 p). rewrite (adds_split pv k p) in H2.
    destruct k.2; [pose proof (occ_nonneg p (default [] (pv !! k)))|..]; lia.
  - intros cpu lru l p [_ Hl]%lookup_delete_Some. eauto.
  - intros k' l [_ Hl]%lookup_delete_Some. eauto.
Qed.

Lemma inv_emptied pv ext k s : inv (delete k pv) ext s → inv (<[k := []]> pv) ext s.
Proof.
  intros [L Ok [H1 H2 H3 H4] F]. split; [done..| |done]. split.
  - intros p. rewrite (refs_split _ k), lookup_insert_eq, delete_insert_eq. cbn. specialize (H1 p). unfold occ in *. cbn. lia.
  - intros p. rewrite (adds_split _ k), lookup_insert_eq, delete_insert_eq. specialize (H2 p). unfold occ. destruct k.2; cbn; lia.
  - intros cpu lru l p [[? <-]|[? ?]]%lookup_insert_Some Hin; [by apply elem_of_nil in Hin|].
    eapply H3; [|done]. by rewrite lookup_delete_ne.
  - intros k' l [[? <-]|[? ?]]%lookup_insert_Some; [cbn; lia|]. apply H4. by rewrite lookup_delete_ne.
Qed.

(** A page with the reference of the caller is put into a pagevec. *)
Lemma inv_give pv ext k l p s :
  inv pv (p :: ext) s → l = default [] (pv !! k) → (length l < pv_room k.2)%nat →
  match k.2 with LruAdd lru => pv_adds pv p = 0 ∧ ∃ v, mm_pages s !! p = Some v ∧ waiting lru v | _ => True end →
  inv (<[k := l ++ [p]]> pv) ext s.
Proof.
  intros [L Ok [H1 H2 H3 H4] F] -> Hr Hk. split; [done..| |done]. split.
  - intros q. specialize (H1 q). rewrite (refs_split _ k), lookup_insert_eq, delete_insert_eq. cbn.
    rewrite (refs_split pv k), occ_cons in H1. rewrite occ_app, occ_cons, occ_nil. lia.
  - intros q. specialize (H2 q). rewrite (adds_split _ k), lookup_insert_eq, delete_insert_eq. rewrite (adds_split pv k) in H2. cbn.
    destruct k as [cpu [lru| | |]]; cbn in *; [|lia..]. rewrite occ_app, occ_cons, occ_nil. destruct (decide (p = q)) as [->|]; [|lia].
    destruct Hk as [Hz _]. rewrite (adds_split pv (cpu, LruAdd lru)) in Hz. cbn in Hz. lia.
  - intros cpu lru l q [(-> & <-)|[? ?]]%lookup_insert_Some Hin; [|eauto]. cbn in Hk.
    apply elem_of_app in Hin as [Hin|Hin]; [|apply list_elem_of_singleton in Hin as ->; apply Hk].
    destruct (pv !! (cpu, LruAdd lru)) as [l|] eqn:E; [|by apply elem_of_nil in Hin]. eauto.
  - intros k' l [(<- & <-)|[? ?]]%lookup_insert_Some; [|eauto]. rewrite length_app. cbn. lia.
Qed.

(** Between two operations: no lock of an lruvec is held. *)
Record wf (ext : list Z) (s : mm) : Prop := {
  wf_inv : inv (mm_pvecs s) ext s;
  wf_private : private_in ext s;
  wf_unlocked : unlocked s;
}.

Record done_with (ext : list Z) (s s' : mm) : Prop := {
  dw_wf : wf ext s';
  dw_held : mm_held s' = mm_held s;
  dw_races : mm_races s' = mm_races s;
  dw_private : ∀ e, private_in e s → private_in e s';
}.

Lemma done_refl ext s : wf ext s → done_with ext s s.
Proof. by split. Qed.

Lemma done_trans e1 e2 s1 s2 s3 : done_with e1 s1 s2 → done_with e2 s2 s3 → done_with e2 s1 s3.
Proof. intros [_ ? ? ?] [? ? ? ?]. split; [done|congruence..|auto]. Qed.

Lemma quiet_done ext ext' s s' : wf ext s → quiet s s' → inv (mm_pvecs s) ext' s' → private_in ext' s' → done_with ext' s s'.
Proof.
  intros W Qt I Pr. split; [split|apply Qt..|]; [by rewrite (qt_pvecs _ _ Qt)|done| |].
  - eapply quiet_unlocked; [done|apply W].
  - intros e. by apply quiet_private.
Qed.

(** A pagevec is drained, its pages having had [fn] applied; [pv] are the pagevecs whose pages are looked after. *)
Lemma pagevec_move_gen pv k fn ext s :
  inv pv (pvec_of s k ++ ext) s → private_in ext s → unlocked s →
  wp (move_loop disabled root_mem_cgroup fn (pvec_of s k)) (λ _ s', inv pv (pvec_of s k ++ ext) s' ∧ quiet s s') s →
  wp (pagevec_lru_move_fn disabled root_mem_cgroup k fn)
    (λ _ s', inv pv ext s' ∧ (∀ e, private_in e s → private_in e s') ∧ mm_held s' = mm_held s ∧ mm_races s' = mm_races s ∧
             mm_pvecs s' = <[k := []]> (mm_pvecs s)) s.
Proof.
  intros I Hpr Hu W. apply wp_bind, wp_get, wp_bind. eapply wp_mono; [exact W|]. intros _ s1 [I1 Q1].
  apply wp_bind. eapply wp_mono; [apply release_pages_ok; [done|by eapply quiet_private|by eapply quiet_unlocked]|].
  intros _ s2 [I2 Q2]. pose proof (quiet_trans _ _ _ Q1 Q2) as Q3. pose proof (qt_pvecs _ _ Q3) as Ep.
  apply wp_modify. split; [|split; [|split; [|split]]].
  - destruct I2 as [[] ? [] []]. split; [by split|done|by split|by split].
  - intros e Hpe. pose proof (quiet_private _ _ _ Q3 Hpe) as H. exact H.
  - apply Q3.
  - apply Q3.
  - cbn. by rewrite Ep.
Qed.

Lemma pagevec_move_ok k fn ext s :
  inv (delete k (mm_pvecs s)) (pvec_of s k ++ ext) s → private_in ext s → unlocked s →
  wp (move_loop disabled root_mem_cgroup fn (pvec_of s k))
    (λ _ s', inv (delete k (mm_pvecs s)) (pvec_of s k ++ ext) s' ∧ quiet s s') s →
  wp (pagevec_lru_move_fn disabled root_mem_cgroup k fn)
    (λ _ s', done_with ext s s' ∧ mm_pvecs s' = <[k := []]> (mm_pvecs s)) s.
Proof.
  intros I Hpr Hu W. eapply wp_mono; [by apply (pagevec_move_gen (delete k (mm_pvecs s)) k fn ext)|]. intros _ s' (I' & Hpr' & E1 & E2 & E3).
  split; [|done]. split; [split|done..]; [rewrite E3; by apply inv_emptied|auto|]. intros lv. by rewrite E1.
Qed.
End drain.
