(* ===== verification/PageLruSafe.v ===== *)
(** * Partitioned page cache: the LRU operations are safe

    Every operation of mm/swap.c and mm/vmscan.c that takes pages one by one returns from a well-formed state and
    leaves one: lists, sizes and counters agree, pages are freed once, no lock is left or missing. *)
From S2P Require Import Prelude Interfaces StateMonad PageLru PageLruInv PageLruOps PageLruDrain.

Section safe.
Variable disabled : bool.
Variable root_mem_cgroup : Z.
Abbreviation upd := (upd disabled).
Abbreviation linked := (linked disabled).
Abbreviation page_ok := (page_ok disabled).
Abbreviation lruvec_of := (lruvec_of disabled).
Abbreviation inv := (inv disabled).
Abbreviation wf := (wf disabled).
Abbreviation done_with := (done_with disabled).

(** ** Queueing a page on a pagevec *)
Lemma inv_get_ref pv ext p v s s' :
  inv pv ext s → mm_pages s !! p = Some v → 0 < pg_count v → upd p (v <| pg_count ::= Z.succ |>) s s' →
  inv pv (p :: ext) s' ∧ quiet s s'.
Proof.
  intros I Hp Hc U. pose proof (iv_ok _ _ _ _ I p v Hp) as Hv. split; [|eapply upd_quiet; [done..|by intros n]].
  pose proof (hb_refs _ _ _ (iv_held _ _ _ _ I) p) as H. unfold count_of in H. rewrite Hp in H.
  eapply inv_upd; [done..| | | | |].
  - unfold PageLruInv.page_ok in *. cbn. destruct (PageLRU v); [|split; [apply Hv|intros E; destruct Hv as [_ Hv]; specialize (Hv E); lia]].
    destruct Hv as (? & ? & ?). repeat split; [done..|lia].
  - cbn. rewrite occ_same. lia.
  - intros q Hq. rewrite occ_cons, decide_False by done. lia.
  - intros cpu lru l Hl Hin. destruct (hb_wait _ _ _ (iv_held _ _ _ _ I) cpu lru l p Hl Hin) as (w & Hw' & ?). by simplify_eq.
  - by eapply inv_not_free.
Qed.

Lemma wf_page ext p s : wf ext s → p ∈ ext → ∃ v, mm_pages s !! p = Some v ∧ 0 < pg_count v ∧ page_ok v ∧ upd p v s s.
Proof.
  intros [I _ _] Hp. destruct (inv_page _ _ _ p s I Hp) as (v & Hv & _ & Hc). exists v. split; [done|]. split; [done|].
  split; [by apply (iv_ok _ _ _ _ I p)|]. apply upd_id; [apply I|done].
Qed.

Lemma queue_ok k fn p v ext s s1 :
  wf ext s → fn_ok disabled fn → match k.2 with LruAdd _ => False | _ => True end →
  mm_pages s !! p = Some v → 0 < pg_count v → upd p (v <| pg_count ::= Z.succ |>) s s1 →
  wp (n ← pagevec_add k p; if bool_decide (n = 0%nat) then pagevec_lru_move_fn disabled root_mem_cgroup k fn else mret ())
    (λ _ s', done_with ext s s') s1.
Proof.
  intros W Hfn Hk Hp Hc U. destruct W as [I Hpr Hu]. destruct (inv_get_ref _ _ p v s s1 I Hp Hc U) as [I1 Q1].
  pose proof (qt_pvecs _ _ Q1) as Ep. rewrite <- Ep in I1. set (l := pvec_of s1 k).
  assert (length l ≤ 13)%nat as Hl.
  { unfold l, pvec_of. destruct (mm_pvecs s1 !! k) as [l'|] eqn:E; [|cbn; lia].
    pose proof (hb_room _ _ _ (iv_held _ _ _ _ I1) k l' E) as H. cbn. destruct k as [cpu []]; cbn in *; unfold PAGEVEC_SIZE in H; done || lia. }
  set (s2 := s1 <| mm_pvecs ::= <[k := l ++ [p]]> |>).
  assert (private_in ext s2) as Hpr2 by (pose proof (quiet_private _ _ _ Q1 Hpr) as H; exact H).
  assert (unlocked s2) as Hu2 by (pose proof (quiet_unlocked _ _ Q1 Hu) as H; exact H).
  assert (∀ pv e, inv pv e s1 → inv pv e s2) as Hi.
  { intros pv e [[] ? [] []]. split; [by split|done|by split|by split]. }
  apply wp_bind, wp_bind, wp_get. rewrite bool_decide_false by (fold l; unfold PAGEVEC_SIZE; lia).
  apply wp_bind, wp_modify, wp_ret. fold l s2. case_bool_decide as En.
  - assert (pvec_of s2 k = l ++ [p]) as El by (unfold pvec_of; cbn; by rewrite lookup_insert_eq).
    assert (inv (delete k (mm_pvecs s2)) (pvec_of s2 k ++ ext) s2) as I2.
    { rewrite El, <- app_assoc. cbn. rewrite delete_insert_eq. apply Hi. by apply inv_take. }
    eapply wp_mono; [apply (pagevec_move_ok disabled root_mem_cgroup k fn ext s2 I2 Hpr2 Hu2)|].
    + apply move_loop_ok; [done..|]. set_solver.
    + intros _ s3 [[D1 D2 D3 D4] _]. split; [done|rewrite D2; apply Q1|rewrite D3; apply Q1|].
      intros e He. apply D4. pose proof (quiet_private _ _ _ Q1 He) as H. exact H.
  - apply wp_ret. split; [split; [|done|done]|apply Q1..|by intros e; apply (quiet_private e s s1)]. apply Hi. apply inv_give; [done..| |].
    + unfold pagevec_space, PAGEVEC_SIZE in En. rewrite length_app in En. cbn in En. destruct k as [cpu []]; cbn; done || (unfold PAGEVEC_SIZE; lia).
    + by destruct k as [cpu []].
Qed.

Lemma get_queue_ok k fn p ext s :
  wf ext s → fn_ok disabled fn → match k.2 with LruAdd _ => False | _ => True end → p ∈ ext →
  wp (_ ← get_page p; n ← pagevec_add k p; if bool_decide (n = 0%nat) then pagevec_lru_move_fn disabled root_mem_cgroup k fn else mret ())
    (λ _ s', done_with ext s s') s.
Proof.
  intros W Hfn Hk Hin. destruct (wf_page ext p s W Hin) as (v & Hp & Hc & Hv & U).
  apply wp_bind, wp_bind. eapply wp_the_page; [done|]. apply wp_bind, wp_BUG_ON; [lia|].
  eapply u_set; [done..|]. intros s1 U1. by eapply queue_ok.
Qed.

Lemma rotate_ok cpu p ext s : wf ext s → p ∈ ext →
  wp (rotate_reclaimable_page disabled root_mem_cgroup cpu p) (λ _ s', done_with ext s s') s.
Proof.
  intros W Hin. destruct (wf_page ext p s W Hin) as (v & Hp & _). apply wp_bind. eapply wp_the_page; [done|].
  apply wp_if; intros _; [|by apply wp_ret, done_refl].
  apply (get_queue_ok (cpu, LruRotate) pagevec_move_tail_fn); [done|apply move_tail_fn_ok|done..].
Qed.

Lemma activate_ok cpu p ext s : wf ext s → p ∈ ext →
  wp (activate_page disabled root_mem_cgroup cpu p) (λ _ s', done_with ext s s') s.
Proof.
  intros W Hin. destruct (wf_page ext p s W Hin) as (v & Hp & _). apply wp_bind. eapply wp_the_page; [done|].
  apply wp_if; intros _; [|by apply wp_ret, done_refl].
  apply (get_queue_ok (cpu, ActivatePage)); [done|apply activate_fn_ok|done..].
Qed.

Lemma wf_upd ext p v v' s s' :
  wf ext s → mm_pages s !! p = Some v → 0 < pg_count v → upd p v' s s' → page_ok v' → pg_count v' = pg_count v →
  pv_adds (mm_pvecs s) p = 0 ∨ (∀ lru, waiting lru v → waiting lru v') → keeps v v' → done_with ext s s'.
Proof.
  intros W Hp Hc U Hv E Hw K. pose proof (upd_quiet _ _ v v' _ _ Hp U K) as Q1. apply (quiet_done _ ext); [done..| |].
  - pose proof (hb_refs _ _ _ (iv_held _ _ _ _ (wf_inv _ _ _ W)) p) as H. unfold count_of in H. rewrite Hp in H.
    eapply inv_upd; [apply W|done..|lia|done| |by eapply inv_not_free; [apply W|..]].
    intros cpu lru l Hl Hin. destruct Hw as [Hz|Hw]; [by destruct (adds_zero _ _ _ _ _ Hz Hl)|]. apply Hw.
    destruct (hb_wait _ _ _ (iv_held _ _ _ _ (wf_inv _ _ _ W)) cpu lru l p Hl Hin) as (w & ? & ?). by simplify_eq.
  - eapply quiet_private; [done|apply W].
Qed.

(** A flag that does not tell lists apart. *)
Lemma set_flag_ok p f ext s :
  wf ext s → p ∈ ext →
  (∀ v, pg_link (f v) = pg_link v ∧ pg_count (f v) = pg_count v ∧ (page_ok v → page_ok (f v)) ∧ ∀ lru, waiting lru v → waiting lru (f v)) →
  wp (set_page p f) (λ _ s', done_with ext s s') s.
Proof.
  intros W Hin Hf. destruct (wf_page ext p s W Hin) as (v & Hp & Hc & Hv & U). destruct (Hf v) as (F1 & F2 & F3 & F4).
  eapply u_set; [done..|]. intros s1 U1. eapply wf_upd; [done|done|done|done|by apply F3|done|by right|]. intros n. by rewrite F1.
Qed.

Lemma mark_accessed_ok cpu p ext s : wf ext s → p ∈ ext →
  wp (mark_page_accessed disabled root_mem_cgroup cpu p) (λ _ s', done_with ext s s') s.
Proof.
  intros W Hin. destruct (wf_page ext p s W Hin) as (v & Hp & _). apply wp_bind. eapply wp_the_page; [done|].
  apply wp_if; intros _; [apply wp_bind; eapply wp_mono; [by apply activate_ok|]; intros [] s1 D1; cbn in D1|apply wp_if; intros _].
  - eapply wp_mono; [apply set_flag_ok; [apply D1|done|done]|]. intros [] s2 D2. by eapply done_trans.
  - by apply set_flag_ok.
  - by apply wp_ret, done_refl.
Qed.

Lemma deactivate_ok cpu p ext s : wf ext s → p ∈ ext →
  wp (deactivate_page disabled root_mem_cgroup cpu p) (λ _ s', done_with ext s s') s.
Proof.
  intros W Hin. destruct (wf_page ext p s W Hin) as (v & Hp & Hc & Hv & U). apply wp_bind. eapply wp_the_page; [done|].
  apply wp_if; intros _; [by apply wp_ret, done_refl|]. apply wp_bind, wp_bind. eapply wp_the_page; [done|].
  apply wp_if; intros E; [lia|]. apply wp_bind. eapply u_set; [done..|]. intros s1 U1. apply wp_ret.
  by apply (queue_ok (cpu, LruDeactivate) _ p v ext s s1); [|apply deactivate_fn_ok|..].
Qed.
(** ** Pages to be added *)
Lemma occ_nodup l : (∀ p, occ p l ≤ 1) → NoDup l.
Proof.
  induction l as [|p l IH]; intros H; constructor.
  - intros Hp%occ_pos. specialize (H p). rewrite occ_same in H. lia.
  - apply IH. intros q. specialize (H q). pose proof (occ_cons_le q p l). lia.
Qed.

(** What the pages of a pagevec of additions have in common. *)
Lemma adds_facts pv ext cpu lru l s :
  inv pv ext s → l = default [] (pv !! (cpu, LruAdd lru)) →
  NoDup l ∧ (∀ p, p ∈ l → pv_adds (delete (cpu, LruAdd lru) pv) p = 0) ∧
  (∀ p, p ∈ l → ∃ v, mm_pages s !! p = Some v ∧ waiting lru v) ∧ (length l ≤ PAGEVEC_SIZE)%nat ∧ (l ≠ [] → is_unevictable_lru lru = false).
Proof.
  intros I ->. pose proof (iv_held _ _ _ _ I) as [_ H2 H3 H4].
  assert (∀ p, pv_adds (delete (cpu, LruAdd lru) pv) p + occ p (default [] (pv !! (cpu, LruAdd lru))) ≤ 1) as H.
  { intros p. specialize (H2 p). by rewrite (adds_split pv (cpu, LruAdd lru)) in H2. }
  assert (∀ p, p ∈ default [] (pv !! (cpu, LruAdd lru)) → ∃ v, mm_pages s !! p = Some v ∧ waiting lru v) as Hw.
  { intros p Hp. destruct (pv !! (cpu, LruAdd lru)) as [l|] eqn:E; [eauto|by apply elem_of_nil in Hp]. }
  split; [|split; [|split; [done|split]]].
  - apply occ_nodup. intros p. pose proof (pv_adds_nonneg (delete (cpu, LruAdd lru) pv) p). specialize (H p). lia.
  - intros p Hp%occ_pos. pose proof (pv_adds_nonneg (delete (cpu, LruAdd lru) pv) p). specialize (H p). lia.
  - destruct (pv !! (cpu, LruAdd lru)) as [l|] eqn:E; [by apply (H4 _ l) in E|cbn; lia].
  - intros Hn. destruct (default [] _) as [|p l]; [done|]. destruct (Hw p) as (v & _ & W); [by left|]. by apply waiting_lru in W as [? _].
Qed.

Lemma lru_add_ok cpu lru ext s : wf ext s → is_unevictable_lru lru = false →
  wp (__pagevec_lru_add disabled root_mem_cgroup cpu lru)
    (λ _ s', done_with ext s s' ∧ mm_pvecs s' = <[(cpu, LruAdd lru) := []]> (mm_pvecs s)) s.
Proof.
  intros [I Hpr Hu] He. destruct (adds_facts _ _ cpu lru _ s I eq_refl) as (F1 & F2 & F3 & _ & _).
  apply wp_bind, wp_BUG_ON; [done|]. apply pagevec_move_ok; [by apply inv_take|done..|].
  apply add_loop_ok; try done; [by apply inv_take|]. unfold pvec_of. set_solver.
Qed.

Lemma inv_perm pv e1 e2 s : e1 ≡ₚ e2 → inv pv e1 s → inv pv e2 s.
Proof.
  intros E [L Ok [H1 H2 H3 H4] F]. split; [done..| |done]. split; [|done..]. intros p. specialize (H1 p).
  unfold occ in *. by rewrite <- E.
Qed.

Lemma adds_insert_fresh pv k p l : pv !! k = None →
  pv_adds (<[k := l]> pv) p = pv_adds pv p + match k.2 with LruAdd _ => occ p l | _ => 0 end.
Proof. intros Hk. unfold pv_adds. rewrite msum_insert by done. cbn. lia. Qed.

Lemma fresh_cpu (pv : gmap (Z * pvkind) (list Z)) k : ∃ cpu, pv !! (cpu, k) = None.
Proof.
  exists (fresh (set_map fst (dom pv) : gset Z)). apply not_elem_of_dom. intros H.
  apply (is_fresh (set_map fst (dom pv) : gset Z)). apply elem_of_map. by exists (fresh (set_map fst (dom pv) : gset Z), k).
Qed.

Lemma add_slot_ok cpu lru p ext s :
  inv (mm_pvecs s) (p :: ext) s → private_in ext s → unlocked s → (length (pvec_of s (cpu, LruAdd lru)) < PAGEVEC_SIZE)%nat →
  pv_adds (mm_pvecs s) p = 0 → (∃ v, mm_pages s !! p = Some v ∧ waiting lru v) →
  wp (_ ← pagevec_add (cpu, LruAdd lru) p; mret ()) (λ _ s', done_with ext s s') s.
Proof.
  intros I Hpr Hu Hl Hz Hw. apply wp_bind, wp_bind, wp_get. rewrite bool_decide_false by lia.
  apply wp_bind, wp_modify, wp_ret, wp_ret. split; [split; [|done|done]|done..].
  assert (inv (<[(cpu, LruAdd lru) := pvec_of s (cpu, LruAdd lru) ++ [p]]> (mm_pvecs s)) ext s) as I1 by (by apply inv_give).
  destruct I1 as [[] ? [] []]. split; [by split|done|by split|by split].
Qed.

(** A page that waits is put into the pagevec of its list, which is emptied when it is full. *)
Lemma cache_add_ok cpu p v lru ext s :
  wf ext s → p ∈ ext → mm_pages s !! p = Some v → waiting lru v → pv_adds (mm_pvecs s) p = 0 →
  wp (__lru_cache_add disabled root_mem_cgroup cpu p lru) (λ _ s', done_with ext s s') s.
Proof.
  intros W Hin Hp Hw Hz. destruct (wf_page ext p s W Hin) as (v0 & Hp0 & Hc & Hv & U). simplify_eq.
  destruct W as [I Hpr Hu]. apply wp_bind, wp_bind. eapply wp_the_page; [done|]. apply wp_bind, wp_BUG_ON; [lia|].
  eapply u_set; [done..|]. intros s1 U1. destruct (inv_get_ref _ _ p v s s1 I Hp Hc U1) as [I1 Q1].
  pose proof (qt_pvecs _ _ Q1) as Ep. rewrite <- Ep in I1. pose proof (quiet_private _ _ _ Q1 Hpr) as Hpr1.
  pose proof (quiet_unlocked _ _ Q1 Hu) as Hu1. pose proof (waiting_lru lru v Hw) as (He & _).
  set (k := (cpu, LruAdd lru)). set (l := pvec_of s1 k).
  assert (∃ w, mm_pages s1 !! p = Some w ∧ waiting lru w) as Hw1 by (eexists; split; [exact (upd_lookup _ _ _ _ _ U1)|done]).
  destruct (adds_facts _ _ cpu lru l s1 I1 eq_refl) as (F1 & F2 & F3 & F4 & _).
  change (cpu, LruAdd lru) with k in F2.
  assert (pv_adds (delete k (mm_pvecs s1)) p = 0 ∧ occ p l = 0) as [Hz1 Hz2].
  { rewrite <- Ep, (adds_split _ k) in Hz. cbn in Hz. fold (pvec_of s1 k) in Hz. fold l in Hz.
    pose proof (pv_adds_nonneg (delete k (mm_pvecs s1)) p). pose proof (occ_nonneg p l). lia. }
  apply wp_bind, wp_get, wp_bind. fold k l. apply wp_if; intros E.
  - destruct (fresh_cpu (delete k (mm_pvecs s1)) (LruAdd lru)) as (c & Hfr). set (kv := (c, LruAdd lru)) in *.
    assert (inv (<[kv := [p]]> (delete k (mm_pvecs s1))) (l ++ ext) s1) as I2.
    { apply (inv_give _ (delete k (mm_pvecs s1)) (l ++ ext) kv [] p); [|by rewrite Hfr|cbn; unfold PAGEVEC_SIZE; lia|done].
      eapply inv_perm; [|apply (inv_take _ _ _ k _ I1)]. fold (pvec_of s1 k). fold l. by rewrite Permutation_middle. }
    apply wp_bind, wp_BUG_ON; [done|]. eapply wp_mono; [apply (pagevec_move_gen disabled root_mem_cgroup _ k _ ext s1 I2 Hpr1 Hu1)|].
    { apply add_loop_ok; [done..|set_solver|done| |done]. intros q Hq. rewrite adds_insert_fresh, (F2 q Hq) by done. cbn.
      rewrite occ_cons, occ_nil, decide_False; [done|]. intros ->. apply occ_pos in Hq. fold l in Hq. lia. }
    intros _ s2 (I3 & Hpr2 & E1 & E2 & E3).
    assert (inv (mm_pvecs s2) (p :: ext) s2) as I4.
    { pose proof (inv_take _ _ _ kv _ I3) as H. rewrite lookup_insert_eq, delete_insert_id in H by done.
      rewrite E3. apply inv_emptied. exact H. }
    eapply wp_mono; [apply (add_slot_ok cpu lru p ext s2 I4 (Hpr2 _ Hpr1))|].
    + intros lv. rewrite E1. apply Hu1.
    + unfold pvec_of. rewrite E3, lookup_insert_eq. cbn. unfold PAGEVEC_SIZE. lia.
    + rewrite E3, (adds_split _ k), lookup_insert_eq, delete_insert_eq, Hz1. done.
    + apply (hb_wait _ _ _ (iv_held _ _ _ _ I3) c lru [p] p); [apply lookup_insert_eq|by left].
    + intros _ s3 [D1 D2 D3 D4]. split; [done|rewrite D2, E1; apply Q1|rewrite D3, E2; apply Q1|].
      intros e Hpe. by apply D4, Hpr2, (quiet_private e s s1).
  - apply wp_ret. eapply wp_mono; [apply (add_slot_ok cpu lru p ext s1 I1 Hpr1 Hu1)|].
    + fold k l. apply bool_decide_eq_false in E. unfold pagevec_space in E. lia.
    + by rewrite Ep.
    + done.
    + intros _ s3 [D1 D2 D3 D4]. split; [done|rewrite D2; apply Q1|rewrite D3; apply Q1|].
      intros e Hpe. by apply D4, (quiet_private e s s1).
Qed.
(** A page that is on no list and in no pagevec of additions. *)
Definition isolated (s : mm) (p : Z) : Prop :=
  pv_adds (mm_pvecs s) p = 0 ∧
  ∃ v, mm_pages s !! p = Some v ∧ PageLRU v = false ∧ pg_link v = None ∧ (PageActive v && PageUnevictable v) = false.

Lemma lru_cache_add_ok cpu p v lru ext s :
  wf ext s → p ∈ ext → isolated s p → mm_pages s !! p = Some v →
  lru = page_lru_base_type v ∨ lru = page_lru_base_type v + LRU_ACTIVE →
  wp (lru_cache_add_lru disabled root_mem_cgroup cpu p lru) (λ _ s', done_with ext s s') s.
Proof.
  intros W Hin (Hz & v1 & Hp1 & H1 & H2 & H3) Hp Hl. destruct (wf_page ext p s W Hin) as (v0 & Hp0 & Hc & Hv & U).
  assert (v1 = v) as -> by congruence. assert (v0 = v) as -> by congruence. apply wp_bind. eapply wp_the_page; [done|].
  assert (∀ v1 s1, upd p v1 s s1 → waiting lru v1 → pg_count v1 = pg_count v → wp ((v ← the_page p;
    _ ← VM_BUG_ON (PageLRU v || PageActive v || PageUnevictable v);
    __lru_cache_add disabled root_mem_cgroup cpu p lru) : M ()) (λ _ s', done_with ext s s') s1) as K.
  { intros v1 s1 U1 W1 Hc1. pose proof (upd_lookup _ _ _ _ _ U1) as Hp2. apply wp_bind. eapply wp_the_page; [done|].
    assert (done_with ext s s1) as D1.
    { eapply wf_upd; [done|done|done|done|by eapply waiting_ok|done|by left|by apply keeps_none, W1]. }
    apply wp_bind, wp_BUG_ON; [destruct W1 as (-> & -> & -> & _); done|].
    eapply wp_mono; [eapply cache_add_ok; [apply D1|done..|]|].
    - by rewrite (fr_pvecs _ _ (up_frame _ _ _ _ _ U1)).
    - intros [] s2 D2. by eapply done_trans. }
  apply wp_bind. apply wp_if; intros E1; [|apply wp_if; intros E2].
  - rewrite E1 in H3. apply wp_bind, wp_BUG_ON; [done|]. eapply u_set; [done..|]. intros s1 U1. by eapply K.
  - apply wp_bind, wp_BUG_ON; [done|]. eapply u_set; [done..|]. intros s1 U1. by eapply K.
  - apply wp_ret. by eapply K.
Qed.
(** ** Draining *)
Definition drained (K : list (Z * pvkind)) (ext : list Z) (s s' : mm) : Prop :=
  done_with ext s s' ∧ ∀ k, pvec_of s' k = if decide (k ∈ K) then [] else pvec_of s k.

Lemma drained_trans K1 K2 ext s1 s2 s3 : drained K1 ext s1 s2 → drained K2 ext s2 s3 → drained (K1 ++ K2) ext s1 s3.
Proof.
  intros [D1 E1] [D2 E2]. split; [by eapply done_trans|]. intros k. rewrite E2, E1.
  destruct (decide (k ∈ K2)); [rewrite decide_True by set_solver; done|].
  destruct (decide (k ∈ K1)); [rewrite decide_True by set_solver|rewrite decide_False by set_solver]; done.
Qed.

Lemma drain_pvec_ok k m ext s :
  wf ext s → (pvec_of s k ≠ [] → wp m (λ _ s', done_with ext s s' ∧ mm_pvecs s' = <[k := []]> (mm_pvecs s)) s) →
  wp (drain_pvec k m) (λ _ s', drained [k] ext s s') s.
Proof.
  intros W Hm. apply wp_bind, wp_get. case_bool_decide as E.
  - apply wp_ret. split; [by apply done_refl|]. intros k'. case_decide as Ek; [|done].
    apply list_elem_of_singleton in Ek as ->. by apply nil_length_inv.
  - eapply wp_mono; [apply Hm; intros E'; by rewrite E' in E|]. intros _ s' [D Ep]. split; [done|]. intros k'. unfold pvec_of. rewrite Ep.
    case_decide as Ek; [apply list_elem_of_singleton in Ek as ->; by rewrite lookup_insert_eq|].
    by rewrite lookup_insert_ne by set_solver.
Qed.

Lemma drain_fn_ok k fn ext s : wf ext s → fn_ok disabled fn →
  wp (pagevec_lru_move_fn disabled root_mem_cgroup k fn) (λ _ s', done_with ext s s' ∧ mm_pvecs s' = <[k := []]> (mm_pvecs s)) s.
Proof.
  intros [I Hpr Hu] Hfn. apply pagevec_move_ok; [by apply inv_take|done..|]. apply move_loop_ok; [done|by apply inv_take|done|].
  unfold pvec_of. set_solver.
Qed.

Lemma drain_adds_ok cpu lrus ext s : wf ext s →
  wp (drain_adds disabled root_mem_cgroup cpu lrus) (λ _ s', drained (map (λ l, (cpu, LruAdd l)) lrus) ext s s') s.
Proof.
  revert s. induction lrus as [|lru lrus IH]; intros s W.
  { apply wp_ret. split; [by apply done_refl|done]. }
  cbn [drain_adds map]. apply wp_bind. eapply wp_mono; [apply drain_pvec_ok; [done|]|].
  - intros Hn. apply lru_add_ok; [done|]. by apply (adds_facts _ _ cpu lru _ s (wf_inv _ _ _ W) eq_refl).
  - intros [] s1 D1. eapply wp_mono; [apply IH, D1|]. intros [] s2 D2. by apply (drained_trans [_] _ _ _ s1).
Qed.

Definition cpu_pvecs (cpu : Z) : list (Z * pvkind) :=
  (map (λ l, (cpu, LruAdd l)) lru_lists ++ [(cpu, LruRotate)]) ++ [(cpu, LruDeactivate)] ++ [(cpu, ActivatePage)].

Lemma drain_cpu_ok cpu ext s : wf ext s →
  wp (lru_add_drain_cpu disabled root_mem_cgroup cpu) (λ _ s', drained (cpu_pvecs cpu) ext s s') s.
Proof.
  intros W. apply wp_bind. eapply wp_mono; [by apply drain_adds_ok|]. intros [] s1 D1.
  apply wp_bind. eapply wp_mono; [apply drain_pvec_ok; [apply D1|intros _; apply drain_fn_ok; [apply D1|apply move_tail_fn_ok]]|]. intros [] s2 D2.
  apply wp_bind. eapply wp_mono; [apply drain_pvec_ok; [apply D2|intros _; apply drain_fn_ok; [apply D2|apply deactivate_fn_ok]]|]. intros [] s3 D3.
  eapply wp_mono; [apply (drain_pvec_ok (cpu, ActivatePage)); [apply D3|intros _; apply drain_fn_ok; [apply D3|apply activate_fn_ok]]|].
  intros [] s4 D4. eapply drained_trans; [by eapply drained_trans|by eapply drained_trans].
Qed.

Lemma pagevec_release_ok cpu l ext s : wf (l ++ ext) s → private_in ext s →
  wp (__pagevec_release disabled root_mem_cgroup cpu l) (λ _ s', done_with ext s s') s.
Proof.
  intros W Hpr. apply wp_bind. eapply wp_mono; [by apply drain_cpu_ok|]. intros _ s1 [[[I1 Hp1 Hu1] E1 E2 E3] _].
  eapply wp_mono; [apply (release_pages_ok _ _ (mm_pvecs s1) ext); [done|by apply E3|done]|]. intros _ s2 [I2 Q2].
  assert (private_in ext s2) as Hp2 by (eapply quiet_private; [done|by apply E3]).
  eapply (done_trans _ (l ++ ext) _ _ s1); [by split|]. apply (quiet_done _ (l ++ ext)); [by split|done..].
Qed.
End safe.
