(* ===== verification/PageLruIso.v ===== *)
(** * Partitioned page cache: isolating, putting back, charging

    The operations that take a page off its list and give it back: [isolate_lru_page], [putback_lru_page],
    [check_move_unevictable_pages], [__mem_cgroup_commit_charge]. *)
From S2P Require Import Prelude Interfaces StateMonad PageLru PageLruInv PageLruOps PageLruDrain PageLruSafe.

Section iso.
Variable disabled : bool.
Variable root_mem_cgroup : Z.
Abbreviation upd := (upd disabled).
Abbreviation linked := (linked disabled).
Abbreviation page_ok := (page_ok disabled).
Abbreviation lruvec_of := (lruvec_of disabled).
Abbreviation inv := (inv disabled).
Abbreviation wf := (wf disabled).
Abbreviation done_with := (done_with disabled).

Lemma msum_zero `{Countable K} {A} (f : K → A → Z) (m : gmap K A) : (∀ k x, m !! k = Some x → f k x = 0) → msum f m = 0.
Proof.
  unfold msum. apply (map_fold_weak_ind (λ n m, (∀ k x, m !! k = Some x → f k x = 0) → n = 0)); [done|].
  intros k x m' n Hk IH Hf. rewrite (Hf k x) by apply lookup_insert_eq. apply IH. intros k' x' Hx. apply Hf.
  rewrite lookup_insert_ne; [done|]. congruence.
Qed.

(** A page on an LRU list waits in no pagevec. *)
Lemma on_lru_adds pv ext p v s : inv pv ext s → mm_pages s !! p = Some v → PageLRU v = true → pv_adds pv p = 0.
Proof.
  intros I Hp Hv. apply msum_zero. intros [cpu [lru| | |]] l Hl; cbn; [|done..]. apply occ_zero. intros Hin.
  destruct (hb_wait _ _ _ (iv_held _ _ _ _ I) cpu lru l p Hl Hin) as (w & ? & W & _). congruence.
Qed.

Lemma page_ok_off v : PageLRU v = false → pg_link v = None → page_ok v.
Proof. intros E1 E2. unfold PageLruInv.page_ok. by rewrite E1, E2. Qed.

Lemma lock_id p v k s0 s : upd p v s0 s → upd p v (s <| mm_held ::= union {[k]} |>) (s <| mm_held ::= union {[k]} |>).
Proof. intros U. apply upd_id; [destruct (up_linked _ _ _ _ _ U); by split|exact (upd_lookup _ _ _ _ _ U)]. Qed.

Lemma isolate_ok p ext s : wf ext s → p ∈ ext →
  wp (isolate_lru_page disabled root_mem_cgroup p)
    (λ r s', r = 0 ∧ done_with (p :: ext) s s' ∧ isolated s' p ∨ r = - EBUSY ∧ done_with ext s s') s.
Proof.
  intros W Hin. destruct (wf_page _ ext p s W Hin) as (v & Hp & Hc & Hv & U). destruct W as [I Hpr Hu].
  apply wp_bind. eapply wp_the_page; [done|]. apply wp_bind, wp_BUG_ON; [lia|]. apply wp_if; intros E.
  2: { apply wp_ret. right. split; [done|]. by apply done_refl. }
  destruct (page_ok_lru _ v Hv E) as (Hl & Hau & _).
  apply wp_bind. eapply wp_page_lruvec; [done|]. intros v1 s1 U1 [->|[E' _]]; [|congruence].
  assert (LVec (lruvec_of v) ∉ mm_held s1) as Hh by (rewrite (upd_held _ _ _ _ _ U1); apply Hu).
  apply wp_bind, wp_spin_lock; [done|]. set (s2 := s1 <| mm_held ::= union {[LVec (lruvec_of v)]} |>).
  assert (upd p v s2 s2) as U2 by (by eapply lock_id).
  apply wp_bind. eapply wp_the_page; [exact (upd_lookup _ _ _ _ _ U2)|]. rewrite E. apply wp_bind.
  apply wp_bind, wp_bind. eapply wp_the_page; [exact (upd_lookup _ _ _ _ _ U2)|]. apply wp_bind, wp_BUG_ON; [lia|].
  eapply u_set; [done..|]. intros s3 U3. apply wp_bind. eapply u_set; [done..|]. intros s4 U4.
  apply wp_bind. eapply u_del; [done..|cbn; set_solver|]. intros s5 U5. apply wp_ret, wp_bind.
  apply wp_spin_unlock; [rewrite (upd_held _ _ _ _ _ U5); cbn; set_solver|]. apply wp_ret. left. split; [done|].
  pose proof (upd_trans _ _ _ _ _ _ _ U1 (upd_unlock _ _ _ _ _ _ U5 Hh)) as U6. clear U1 U2 U3 U4 U5 s2 Hh.
  set (s6 := s5 <| mm_held ::= λ h, h ∖ {[LVec (lruvec_of v)]} |>) in *.
  set (v6 := v <| pg_count ::= Z.succ |> <| PageLRU := false |> <| pg_link := None |>).
  change (upd p v6 s s6) in U6. pose proof (on_lru_adds _ _ p v s I Hp E) as Hz.
  assert (quiet s s6) as Q6 by (eapply upd_quiet; [done..|by apply keeps_none]).
  assert (private_in ext s6) as Hpr6 by (by eapply quiet_private).
  split; [apply (quiet_done _ ext); [by split|done| |]|].
  - pose proof (hb_refs _ _ _ (iv_held _ _ _ _ I) p) as H. unfold count_of in H. rewrite Hp in H.
    eapply inv_upd; [done|done|by apply page_ok_off|cbn; rewrite occ_same; lia| | |by eapply inv_not_free].
    + intros q Hq. rewrite occ_cons, decide_False by done. lia.
    + intros cpu lru l Hpv []%(adds_zero _ _ _ _ _ Hz Hpv).
  - intros q w n Hq Hw. right. by eapply Hpr6.
  - split; [by rewrite (qt_pvecs _ _ Q6)|]. exists v6. split; [exact (upd_lookup _ _ _ _ _ U6)|done].
Qed.

(** ** Putting back *)
Lemma unevictable_ok p v s0 s (Q : () → mm → Prop) :
  upd p v s0 s → unlocked s0 → PageLRU v = false → pg_link v = None → PageActive v = false → 0 < pg_count v →
  (∀ v' s', upd p v' s0 s' → page_ok v' → PageLRU v' = true → pg_count v' = pg_count v → page_evictable v' = page_evictable v → Q () s') →
  wp (add_page_to_unevictable_list disabled root_mem_cgroup p) Q s.
Proof.
  intros U Hu H1 H2 H3 Hc HQ. apply wp_bind. eapply wp_the_page; [exact (upd_lookup _ _ _ _ _ U)|].
  apply wp_bind. eapply wp_page_lruvec; [done|]. intros v1 s1 U1 Hv1.
  assert (pg_link v1 = None ∧ PageActive v1 = false ∧ pg_count v1 = pg_count v ∧ page_evictable v1 = page_evictable v) as (F1 & F2 & F3 & F4).
  { by destruct Hv1 as [->|[_ ->]]. }
  apply wp_bind. eapply u_set; [done..|]. intros s2 U2. apply wp_bind. eapply u_set; [done..|]. intros s3 U3.
  eapply (wp_critical disabled p _ (lruvec_of v1) _
    (λ v', v' = v1 <| PageUnevictable := true |> <| PageLRU := true |> <| pg_link := Some (inl (lruvec_of v1, LRU_UNEVICTABLE)) |>));
    [done|apply Hu|..].
  - intros s4 R L4 Hp4 Hh4 HR. eapply wp_add; [done..|]. intros s5 U5. by eapply HR.
  - intros v' s' U' ->. eapply HQ; [done| |done..]. apply page_ok_intro; cbn; try done; [by rewrite F2|lia].
Qed.

Lemma wf_events e n ext s : wf ext s → done_with ext s (s <| mm_events ::= cons (e, n) |>).
Proof. intros [[[] ? [] []] ? ?]. split; [|done..]. split; [split; [by split|done|by split|by split]|done..]. Qed.

Lemma put_ok p ext s : wf (p :: ext) s → private_in ext s →
  wp (put_page disabled root_mem_cgroup p) (λ _ s', done_with ext s s') s.
Proof.
  intros [I Hpr Hu] Hpe. eapply wp_mono; [by apply (put_page_ok _ _ (mm_pvecs s) ext)|]. intros _ s' [I' Q'].
  apply (quiet_done _ (p :: ext)); [by split|done..|by eapply quiet_private].
Qed.

Lemma putback_end_ok p lru was ext s : wf (p :: ext) s → private_in ext s →
  wp (putback_end disabled root_mem_cgroup p lru was) (λ _ s', done_with ext s s') s.
Proof.
  intros W Hpe. apply wp_bind.
  apply (wp_mono _ (λ _ s', done_with (p :: ext) s s')).
  - apply wp_if; intros _; [|apply wp_if; intros _]; [by apply wp_modify, wf_events..|by apply wp_ret, done_refl].
  - intros [] s1 D1. eapply wp_mono; [apply put_ok; [apply D1|by apply D1]|]. intros [] s2 D2. by eapply done_trans.
Qed.

(** The page, cleared of its flags, is put on a list, or into a pagevec. *)
Lemma putback_place_ok cpu p v2 v active ext s s2 :
  wf ext s → p ∈ ext → pv_adds (mm_pvecs s) p = 0 → mm_pages s !! p = Some v → 0 < pg_count v → upd p v2 s s2 →
  PageLRU v2 = false → pg_link v2 = None → PageActive v2 = false → PageUnevictable v2 = false → pg_count v2 = pg_count v →
  wp (putback_place disabled root_mem_cgroup cpu p active)
    (λ lru s', done_with ext s s' ∧ ((lru =? LRU_UNEVICTABLE) = false ∨ ∀ w, mm_pages s' !! p = Some w → page_evictable w = false)) s2.
Proof.
  intros W Hin Hz Hp Hc U2 F1 F2 F3 F4 F5. pose proof (upd_lookup _ _ _ _ _ U2) as Hp2.
  apply wp_bind. eapply wp_the_page; [done|]. apply wp_if; intros Ev; apply wp_bind.
  - assert (done_with ext s s2) as D2.
    { eapply wf_upd; [done|done|done|done|by apply page_ok_off|done|by left|by apply keeps_none]. }
    eapply wp_mono; [apply (lru_cache_add_ok _ _ cpu p v2); [apply D2|done| |done|]|].
    + split; [by rewrite (fr_pvecs _ _ (up_frame _ _ _ _ _ U2))|]. exists v2. by rewrite F3.
    + destruct active; [right|left]; cbn; unfold LRU_ACTIVE; lia.
    + intros [] s3 D3. apply wp_ret. split; [by eapply done_trans|left].
      unfold page_lru_base_type. by destruct (page_is_file_cache v2), active.
  - eapply unevictable_ok; [done|apply W|done..|lia|]. intros v3 s3 U3 G1 G2 G3 G4. apply wp_ret. split.
    + eapply wf_upd; [done|done|done|done|done|congruence|by left|by eapply keeps_lru].
    + right. intros w Hw. rewrite (upd_lookup _ _ _ _ _ U3) in Hw. congruence.
Qed.

Lemma putback_ok cpu p ext s : wf (p :: ext) s → private_in ext s → isolated s p →
  wp (putback_lru_page disabled root_mem_cgroup cpu p) (λ _ s', done_with ext s s') s.
Proof.
  intros W Hpe (Hz & v & Hp & H1 & H2 & H3). destruct (wf_page _ (p :: ext) p s W) as (v0 & Hp0 & Hc & Hv & U); [by left|].
  assert (v0 = v) as -> by congruence.
  apply wp_bind. eapply wp_the_page; [done|]. apply wp_bind. eapply u_set; [done..|]. intros s1 U1. apply wp_bind, wp_BUG_ON; [done|].
  cbn [putback_redo]. apply wp_bind. eapply u_set; [done..|]. intros s2 U2.
  set (v2 := v <| PageActive := false |> <| PageUnevictable := false |>). change (upd p v2 s s2) in U2.
  apply wp_bind. eapply wp_mono; [apply (putback_place_ok cpu p v2 v _ (p :: ext) s); [done|by left|done..]|]. intros lru s3 [D3 Hl]. apply wp_bind.
  destruct (wf_page disabled (p :: ext) p s3) as (v3 & Hp3 & _); [apply D3|by left|].
  apply wp_bind. eapply wp_the_page; [done|].
  assert ((lru =? LRU_UNEVICTABLE) && page_evictable v3 = false) as E by (destruct Hl as [->|Hl]; [done|by rewrite (Hl v3), andb_false_r]).
  rewrite E. apply wp_ret. eapply wp_mono; [apply putback_end_ok; [apply D3|by apply D3]|]. intros [] s4 D4. by eapply done_trans.
Qed.
(** ** Pages that became evictable *)
Lemma check_move_ok l ext s : wf ext s → l ⊆ ext →
  wp (check_move_loop disabled root_mem_cgroup l) (λ _ s', done_with ext s s') s.
Proof.
  revert s. induction l as [|p l IH]; intros s W Hl; [by apply wp_ret, done_refl|].
  destruct (wf_page _ ext p s W) as (v & Hp & Hc & Hv & U); [set_solver|].
  assert (∀ s1, done_with ext s s1 → wp (check_move_loop disabled root_mem_cgroup l) (λ _ s', done_with ext s s') s1) as K.
  { intros s1 D1. eapply wp_mono; [apply IH; [apply D1|set_solver]|]. intros n s2 D2. by eapply done_trans. }
  cbn [check_move_loop]. apply wp_bind. eapply wp_the_page; [done|]. apply wp_bind. eapply wp_page_lruvec; [done|]. intros v1 s1 U1 Hv1.
  apply wp_if; intros E1; [apply K|].
  { destruct Hv1 as [->|[Hlru ->]]; (eapply wf_upd; [done|done|done|done| |done|by right|by intros n]); [done|by apply page_ok_memcg]. }
  apply orb_false_iff in E1 as [E1%negb_false_iff E2%negb_false_iff]. destruct Hv1 as [->|[? _]]; [|congruence].
  apply wp_if; intros E3; [|apply K; eapply wf_upd; [done|done|done|done|done|done|by right|by intros n]].
  destruct (page_ok_lru _ v Hv E1) as (Hlk & Hau & _). rewrite E2, andb_true_r in Hau.
  unfold page_lru in Hlk. rewrite E2 in Hlk.
  apply wp_bind, wp_BUG_ON; [done|]. apply wp_bind. eapply u_set; [done..|]. intros s2 U2.
  assert (LVec (lruvec_of v) ∉ mm_held s2) as Hh by (rewrite (upd_held _ _ _ _ _ U2); apply W).
  apply wp_bind, wp_spin_lock; [done|]. pose proof (lock_id _ _ (LVec (lruvec_of v)) _ _ U2) as U3.
  apply wp_bind. eapply u_del; [done|done|cbn; set_solver|]. intros s3 U4. apply wp_bind. eapply u_add; [done|done|cbn; set_solver|]. intros s4 U5.
  apply wp_bind, wp_spin_unlock; [rewrite (upd_held _ _ _ _ _ U5); cbn; set_solver|].
  pose proof (upd_trans _ _ _ _ _ _ _ U2 (upd_unlock _ _ _ _ _ _ U5 Hh)) as U6.
  apply wp_bind. eapply wp_mono; [apply K|].
  - eapply wf_upd; [done|done|done|done| |done| |by intros n].
    + apply page_ok_intro; cbn; [done| |by rewrite Hau|done]. unfold page_lru. cbn. rewrite Hau. by rewrite Z.add_0_r.
    + right. by intros lru (? & _ & ? & _); congruence.
  - intros n s5 D5. by apply wp_ret.
Qed.

Lemma check_move_pages_ok l ext s : wf ext s → l ⊆ ext →
  wp (check_move_unevictable_pages disabled root_mem_cgroup l) (λ _ s', done_with ext s s') s.
Proof.
  intros W Hl. apply wp_bind. eapply wp_mono; [by apply check_move_ok|]. intros n s1 D1. cbn in D1. case_bool_decide; [by apply wp_ret|].
  apply wp_bind, wp_modify, wp_modify. eapply done_trans; [exact D1|].
  eapply done_trans; apply wf_events; [apply D1|]. eapply wf_events, D1.
Qed.
(** ** Charging *)
Lemma wp_del_locked p v s0 s (Q : () → mm → Prop) lv l :
  upd p v s0 s → LVec lv ∉ mm_held s0 → pg_link v = Some (inl (lv, l)) →
  (∀ s', upd p (v <| pg_link := None |>) s0 s' → Q () s') →
  wp (_ ← spin_lock (LVec lv); _ ← del_page_from_lru_list disabled p lv l; spin_unlock (LVec lv)) Q s.
Proof.
  intros U Hh Hl HQ. eapply (wp_critical disabled p v lv _ (λ v', v' = v <| pg_link := None |>)); [done..| |].
  - intros s1 R L1 Hp1 Hh1 HR. eapply wp_del; [done..|]. intros s2 U2. by eapply HR.
  - intros v' s' U' ->. by apply HQ.
Qed.

Lemma wp_add_locked p v s0 s (Q : () → mm → Prop) lv l :
  upd p v s0 s → LVec lv ∉ mm_held s0 → pg_link v = None →
  (∀ s', upd p (v <| pg_link := Some (inl (lv, l)) |>) s0 s' → Q () s') →
  wp (_ ← spin_lock (LVec lv); _ ← add_page_to_lru_list disabled p lv l; spin_unlock (LVec lv)) Q s.
Proof.
  intros U Hh Hl HQ. eapply (wp_critical disabled p v lv _ (λ v', v' = v <| pg_link := Some (inl (lv, l)) |>)); [done..| |].
  - intros s1 R L1 Hp1 Hh1 HR. eapply wp_add; [done..|]. intros s2 U2. by eapply HR.
  - intros v' s' U' ->. by apply HQ.
Qed.

Lemma charge_ok memcg p v lrucare ext s :
  wf ext s → p ∈ ext → mm_pages s !! p = Some v → PageCgroupUsed v = false → LZone (page_zone v) ∉ mm_held s →
  (lrucare = false → PageLRU v = false) →
  wp (__mem_cgroup_commit_charge disabled memcg p lrucare) (λ _ s', done_with ext s s') s.
Proof.
  intros W Hin Hp Hused Hz Hcare. destruct (wf_page _ ext p s W Hin) as (v0 & Hp0 & Hc & Hv & U). assert (v0 = v) as -> by congruence.
  apply wp_bind. eapply wp_the_page; [done|]. apply wp_bind, wp_BUG_ON; [done|].
  assert (∀ s', PageLRU v = false → upd p (v <| pc_memcg := memcg |> <| PageCgroupUsed := true |>) s s' → done_with ext s s') as Koff.
  { intros s' Hlru U'. eapply wf_upd; [done|done|done|done| |done|by right|by intros n].
    unfold PageLruInv.page_ok in *. cbn. rewrite Hlru in *. done. }
  destruct lrucare; cbn zeta.
  2: { apply wp_bind, wp_ret, wp_bind. eapply u_set; [done..|]. intros s1 U1. apply wp_bind. eapply u_set; [done..|]. intros s2 U2.
       apply wp_ret, Koff; auto. }
  set (z := LZone (page_zone v)) in *. set (sz := s <| mm_held ::= union {[z]} |>).
  assert (upd p v sz sz) as Uz by (by eapply lock_id).
  assert (∀ lv, LVec lv ∉ mm_held sz) as Hu.
  { intros lv. cbn. pose proof (wf_unlocked _ _ _ W lv). set_solver. }
  assert (∀ v' s', upd p v' sz s' → (∀ s2, upd p v' s s2 → done_with ext s s2) →
    wp (spin_unlock z) (λ _ s', done_with ext s s') s') as Kend.
  { intros v' s' U' H. apply wp_spin_unlock; [rewrite (upd_held _ _ _ _ _ U'); cbn; set_solver|]. by eapply H, upd_unlock. }
  apply wp_bind, wp_bind, wp_spin_lock; [done|]. fold sz. apply wp_if; intros E.
  - destruct (page_ok_lru _ v Hv E) as (Hlk & Hau & _). apply wp_bind. eapply u_set; [done..|]. intros s1 U1.
    apply wp_section. eapply wp_del_locked; [done|apply Hu|done|]. intros s2 U2. apply wp_ret.
    apply wp_bind. eapply u_set; [done..|]. intros s3 U3. apply wp_bind. eapply u_set; [done..|]. intros s4 U4.
    apply wp_bind, wp_bind. eapply wp_the_page; [exact (upd_lookup _ _ _ _ _ U4)|]. apply wp_bind, wp_BUG_ON; [done|].
    apply wp_bind. eapply u_set; [done..|]. intros s5 U5. eapply wp_add_locked; [done|apply Hu|done|]. intros s6 U6.
    eapply Kend; [done|]. intros s7 U7. eapply wf_upd; [done|done|done|done| |done| |by intros n].
    + by apply page_ok_intro.
    + right. by intros lru (? & _); congruence.
  - apply wp_ret, wp_bind. eapply u_set; [done..|]. intros s3 U3. apply wp_bind. eapply u_set; [done..|]. intros s4 U4.
    apply wp_bind, wp_ret. eapply Kend; [done|]. intros s5 U5. by apply Koff.
Qed.
End iso.
