(* ===== verification/PageLruReclaim.v ===== *)
(** * Partitioned page cache: batches of pages that reclaim takes off a list

    [isolate_lru_pages] moves pages from the tail of a list to a list of the caller and leaves the counter of the
    zone to the caller; [putback_inactive_pages] gives them back.  [short] is the state in which the counter has
    been brought up to date. *)
From S2P Require Import Prelude Interfaces StateMonad PageLru PageLruInv PageLruOps PageLruDrain PageLruSafe PageLruIso.

Section reclaim.
Variable disabled : bool.
Variable root_mem_cgroup : Z.
Abbreviation upd := (upd disabled).
Abbreviation linked := (linked disabled).
Abbreviation page_ok := (page_ok disabled).
Abbreviation lruvec_of := (lruvec_of disabled).
Abbreviation inv := (inv disabled).
Abbreviation wf := (wf disabled).
Abbreviation done_with := (done_with disabled).

Lemma zadd_zadd `{Countable K} (k : K) a b m : zadd k a (zadd k b m) = zadd k (a + b) m.
Proof. unfold zadd. rewrite insert_insert_eq. unfold zget. rewrite lookup_insert_eq. cbn. f_equal. lia. Qed.

Lemma mm_ext s s' :
  mm_pages s = mm_pages s' → mm_lists s = mm_lists s' → mm_lru_size s = mm_lru_size s' → mm_scanned s = mm_scanned s' →
  mm_rotated s = mm_rotated s' → mm_zstat s = mm_zstat s' → mm_isolated s = mm_isolated s' → mm_events s = mm_events s' →
  mm_pvecs s = mm_pvecs s' → mm_held s = mm_held s' → mm_races s = mm_races s' → mm_free s = mm_free s' → mm_bad s = mm_bad s' → s = s'.
Proof. destruct s, s'. cbn. congruence. Qed.

Section list.
Context (lv : lvid) (l : Z) (m : nat).

Definition short (n : Z) (s : mm) : mm := s <| mm_zstat ::= zadd (lv.1, l) (- n) |>.
Abbreviation dst := (inr (S m) : plist).

Lemma wp_move_short p v n (Q : () → mm → Prop) s :
  linked (short n s) → mm_pages s !! p = Some v → pg_link v = Some (inl (lv, l)) → LVec lv ∈ mm_held s →
  (∀ s', upd p v (short n s) (short n s') → (∀ r, r ≠ inl (lv, l) → plist_of s' r = plist_of s r) → Q () s') →
  wp (list_move p (inl (lv, l))) Q s.
Proof.
  intros L Hp Hr Hh HQ. pose proof (in_list _ p v _ (short n s) L Hp Hr) as Hin.
  pose proof (filter_ne_perm p _ (co_nodup _ _ (ln_coherent _ _ L) (inl (lv, l))) Hin) as E. unfold on_list in E.
  apply wp_bind. eapply wp_list_del; [done|done|by intros ? ? [= <- <-]|]. apply wp_bind, wp_touch; [done|]. apply wp_bind, wp_modify, wp_modify, HQ.
  - apply (move_upd disabled p v (inl (lv, l)) (p :: plist_of _ (inl (lv, l))) (short n s)); try done.
    unfold plist_of at 1. cbn. by rewrite lookup_insert_eq.
  - intros r Hn. unfold plist_of. cbn. by rewrite insert_insert_eq, lookup_insert_ne.
Qed.

(** A page goes from the list to the list of the caller. *)
Lemma wp_take_page p v n (Q : () → mm → Prop) s :
  linked (short n s) → mm_pages s !! p = Some v → pg_link v = Some (inl (lv, l)) → LVec lv ∈ mm_held s →
  (∀ s', upd p (v <| pg_link := Some dst |>) (short n s) (short (n + 1) s') → plist_of s' dst = p :: plist_of s dst → Q () s') →
  wp (_ ← mem_cgroup_update_lru_size disabled lv l (-1); list_move p dst) Q s.
Proof.
  intros L Hp Hr Hh HQ. apply wp_bind. eapply wp_update_size; [done|..].
  { intros Hd. pose proof (size_pos disabled p v lv l (short n s) Hd L Hp Hr) as H. cbn in H. lia. }
  apply wp_bind. eapply wp_list_del; [done|done|by intros ? ? [= <- <-]|].
  apply wp_bind, wp_ret, wp_bind, wp_modify, wp_modify, HQ.
  - pose proof (linked_unlink disabled p v lv l (short n s) L Hp Hr) as U1. pose proof (upd_lookup _ _ _ _ _ U1) as Hp1.
    destruct (u_list_add_private disabled p _ (S m) _ _ (λ _ s', upd p (v <| pg_link := Some dst |>) (short n s) s') U1 eq_refl) as (u & s' & E' & U2); [done|].
    injection E' as _ <-. match goal with |- PageLruInv.upd _ _ _ _ ?x => match type of U2 with PageLruInv.upd _ _ _ _ ?y => assert (x = y) as ->; [|done] end end.
    apply mm_ext; try reflexivity. cbn. rewrite zadd_zadd. f_equal. lia.
  - unfold plist_of. cbn. rewrite lookup_insert_eq. cbn. by rewrite lookup_insert_ne.
Qed.
Lemma wp_isolate_one p v mode n (Q : Z → mm → Prop) s :
  linked (short n s) → mm_pages s !! p = Some v → PageLRU v = true → PageUnevictable v = false → 0 < pg_count v →
  Q (- EBUSY) s →
  (∀ s', upd p (v <| pg_count ::= Z.succ |> <| PageLRU := false |>) (short n s) (short n s') →
     plist_of s' = plist_of s → Q 0 s') →
  wp (__isolate_lru_page p mode) Q s.
Proof.
  intros L Hp Hlru Hun Hc HB HQ. apply wp_bind. eapply wp_the_page; [done|]. rewrite Hlru, Hun. cbn [negb andb].
  do 3 (apply wp_if; intros _; [by apply wp_ret|]). apply wp_bind, wp_bind. eapply wp_the_page; [done|].
  apply wp_if; intros E; [lia|]. apply wp_bind, wp_modify, wp_ret, wp_bind, wp_modify, wp_ret, HQ; [|done].
  pose (f := λ v : page, v <| pg_count ::= Z.succ |>). pose (g := λ v : page, v <| PageLRU := false |>).
  pose proof (set_page_upd disabled p v f (short n s) L Hp eq_refl) as U1.
  pose proof (set_page_upd disabled p (f v) g _ (up_linked _ _ _ _ _ U1) (upd_lookup _ _ _ _ _ U1) eq_refl) as U2.
  exact (upd_trans _ _ _ _ _ _ _ U1 U2).
Qed.

(** The state after [t] has been taken. *)
Record taken (pv : gmap (Z * pvkind) (list Z)) (ext t : list Z) (n : Z) (s s' : mm) : Prop := {
  tk_inv : inv pv (t ++ ext) (short (n + Z.of_nat (length t)) s');
  tk_list : plist_of s' dst = t ++ plist_of s dst;
  tk_held : mm_held s' = mm_held s;
  tk_races : mm_races s' = mm_races s;
  tk_pvecs : mm_pvecs s' = mm_pvecs s;
  tk_private : ∀ e, private_in e s → private_in (t ++ e) s';
}.

Lemma private_upd e p v' n s s' n' : upd p v' (short n s) (short n' s') → private_in e s → private_in (p :: e) s'.
Proof.
  intros [E _ _] H q w k Hq Hl. cbn in E. rewrite E in Hq. destruct (decide (p = q)) as [<-|]; [by left|].
  rewrite lookup_insert_ne in Hq by done. right. by eapply H.
Qed.

(** The page at the tail of the list is an evictable page on the list. *)
Lemma tail_page pv ext n p s :
  inv pv ext (short n s) → is_unevictable_lru l = false → last (plist_of s (inl (lv, l))) = Some p →
  ∃ v, mm_pages s !! p = Some v ∧ PageLRU v = true ∧ PageUnevictable v = false ∧ pg_link v = Some (inl (lv, l)) ∧
       0 < pg_count v ∧ (p ∉ mm_free s) ∧ pv_adds pv p = 0.
Proof.
  intros I He Hl. assert (p ∈ plist_of (short n s) (inl (lv, l))) as Hin by (by apply last_Some_elem_of).
  apply (co_in _ _ (ln_coherent _ _ (iv_linked _ _ _ _ I))) in Hin as (v & Hp & Hk).
  pose proof (iv_ok _ _ _ _ I p v Hp) as Hv. unfold PageLruInv.page_ok in Hv. destruct (PageLRU v) eqn:E; [|by destruct Hv as [Hv _]; destruct (Hv _ Hk)].
  destruct Hv as (Hk' & _ & Hc). exists v. repeat split; try done.
  - rewrite Hk in Hk'. injection Hk' as _ ->. unfold page_lru in He. by destruct (PageUnevictable v).
  - exact (inv_not_free _ _ _ p v _ I Hp Hc).
  - by eapply on_lru_adds.
Qed.

Lemma isolate_pages_ok nr mode pv ext n s :
  inv pv ext (short n s) → LVec lv ∈ mm_held s → is_unevictable_lru l = false →
  wp (isolate_lru_pages disabled nr lv dst mode l)
    (λ r s', ∃ t, taken pv ext t n s s' ∧ r.1 = Z.of_nat (length t) ∧ r.1 ≤ r.2 ≤ Z.of_nat nr) s.
Proof.
  revert ext n s. induction nr as [|nr IH]; intros ext n s I Hh He; cbn [isolate_lru_pages].
  { apply wp_ret. exists []. split; [split; cbn; by rewrite ?Z.add_0_r|cbn; lia]. }
  apply wp_bind, wp_get. case_bool_decide as En.
  { apply wp_ret. exists []. split; [split; cbn; by rewrite ?Z.add_0_r|cbn; lia]. }
  destruct (last (plist_of s (inl (lv, l)))) as [p|] eqn:El; [|by apply last_None in El].
  destruct (tail_page pv ext n p s I He El) as (v & Hp & H1 & H2 & H3 & Hc & Hf & Hz).
  apply wp_bind. eapply wp_deref; [done|]. apply wp_bind. eapply wp_the_page; [done|]. apply wp_bind, wp_BUG_ON; [by rewrite H1|].
  apply wp_bind. eapply wp_isolate_one; [apply I|done..| |].
  - apply wp_bind. eapply wp_move_short; [apply I|done..|]. intros s1 U1 Hr1. apply wp_bind.
    assert (inv pv ext (short n s1)) as I1.
    { eapply (inv_upd_same _ _ _ p v v); [done..|by apply (iv_ok _ _ _ _ I p)|done|done]. }
    eapply wp_mono; [apply (IH ext n s1 I1)|]; [pose proof (upd_held _ _ _ _ _ U1) as E; cbn in E; by rewrite E|done|].
    intros [tk sc] s2 (t & [T1 T2 T3 T4 T5 T6] & E1 & E2). apply wp_ret. exists t. cbn in *. split; [|lia].
    destruct U1 as [Ep [Fp Fh Fr _ _] _]. cbn in Ep, Fp, Fh, Fr. split; try congruence; [by rewrite T2, Hr1|].
    intros e Hpe. apply T6. intros q w k Hq. rewrite Ep, insert_id in Hq by done. by apply Hpe.
  - intros s1 U1 Hpl. pose proof (upd_held _ _ _ _ _ U1) as Eh. cbn in Eh.
    refine (wp_assoc _ (λ _, list_move p dst) (λ _, _) _ _ _).
    eapply wp_take_page; [exact (up_linked _ _ _ _ _ U1)|exact (upd_lookup _ _ _ _ _ U1)|done|by rewrite Eh|]. intros s2 U2 Hd2.
    pose proof (upd_trans _ _ _ _ _ _ _ U1 U2) as U3. pose proof (upd_held _ _ _ _ _ U3) as Eh3. cbn in Eh3.
    assert (inv pv (p :: ext) (short (n + 1) s2)) as I2.
    { pose proof (hb_refs _ _ _ (iv_held _ _ _ _ I) p) as H. unfold count_of in H. cbn [short mm_pages] in H.
      change (mm_pages (short n s)) with (mm_pages s) in H. rewrite Hp in H.
      eapply inv_upd; [done|done|split; [done|by intros [=]]|cbn; rewrite occ_same; lia| | |done].
      - intros q Hq. rewrite occ_cons, decide_False by done. lia.
      - intros cpu lru l' Hpv []%(adds_zero _ _ _ _ _ Hz Hpv). }
    apply wp_bind. eapply wp_mono; [apply (IH (p :: ext) (n + 1) s2 I2)|]; [by rewrite Eh3|done|].
    intros [tk sc] s3 (t & [T1 T2 T3 T4 T5 T6] & E1 & E2). apply wp_ret. exists (t ++ [p]). cbn in E1, E2. rewrite length_app. cbn [length fst snd].
    split; [|lia]. destruct (up_frame _ _ _ _ _ U3) as [Fp Fh Fr _ _]. cbn in Fp, Fh, Fr. split; try congruence.
    + rewrite <- app_assoc, length_app. cbn. replace (n + Z.of_nat (length t + 1)) with (n + 1 + Z.of_nat (length t)) by lia. done.
    + rewrite T2, Hd2, Hpl, <- app_assoc. done.
    + intros e Hpe. rewrite <- app_assoc. cbn. apply T6. by eapply private_upd.
Qed.
End list.
(** ** The sections of reclaim that isolate *)
Lemma inv_unadj lv l n pv ext s s' :
  inv pv ext (short lv l n s) → mm_pages s' = mm_pages s → mm_lists s' = mm_lists s → mm_lru_size s' = mm_lru_size s →
  mm_zstat s' = zadd (lv.1, l) (- n) (mm_zstat s) → mm_free s' = mm_free s → inv pv ext s'.
Proof.
  intros [[L1 L3 L4] Ok [H1 H2 H3 H4] [F1 F2]] Ep El Es Ez Ef. unfold short in *. cbn in *.
  split; [split|by rewrite Ep|split|split].
  - by rewrite Ep, El.
  - intros Hd lv' l'. rewrite Es. unfold plist_of in *. rewrite El. by apply L3.
  - intros z l'. rewrite Ez, Ep. apply L4.
  - intros p. specialize (H1 p). unfold count_of in *. cbn in H1. by rewrite Ep.
  - done.
  - rewrite Ep. done.
  - done.
  - by rewrite Ef.
  - rewrite Ef, Ep. done.
Qed.

(** The pages [t] were taken; the caller holds a reference to each. *)
Record shrunk (m : nat) (ext t : list Z) (s s' : mm) : Prop := {
  sh_wf : wf (t ++ ext) s';
  sh_held : mm_held s' = mm_held s;
  sh_races : mm_races s' = mm_races s;
  sh_list : plist_of s' (inr (S m)) = t ++ plist_of s (inr (S m));
}.

Lemma inv_locked pv ext s f : inv pv ext s → ∀ lv l, inv pv ext (short lv l 0 (s <| mm_held ::= f |>)).
Proof.
  intros [[L1 L3 L4] Ok [H1 H2 H3 H4] [F1 F2]] lv l. split; [split|done|by split|by split]; [done|done|].
  intros z l'. cbn. rewrite zget_zadd. specialize (L4 z l'). destruct (decide _); cbn in *; lia.
Qed.

Lemma shrink_active_isolate_ok nr lv m mode lru ext s : wf ext s → is_unevictable_lru lru = false →
  wp (shrink_active_isolate disabled nr lv (inr (S m)) mode lru) (λ n s', ∃ t, shrunk m ext t s s' ∧ n = Z.of_nat (length t)) s.
Proof.
  intros [I Hpr Hu] He. apply wp_bind, wp_spin_lock; [apply Hu|]. apply wp_bind.
  eapply wp_mono; [apply (isolate_pages_ok lv lru m nr mode (mm_pvecs s) ext 0); [by apply inv_locked|cbn; set_solver|done]|].
  intros [n sc] s1 (t & [T1 T2 T3 T4 T5 T6] & E1 & _). cbn in *. apply wp_bind, wp_modify, wp_bind, wp_modify, wp_bind, wp_modify, wp_bind.
  apply wp_spin_unlock; [cbn; rewrite T3; set_solver|]. apply wp_ret. exists t. split; [|done].
  assert (({[LVec lv]} ∪ mm_held s) ∖ {[LVec lv]} = mm_held s) as Eh by (pose proof (Hu lv); set_solver).
  split; [split|cbn; by rewrite T3|done|exact T2].
  - cbn. rewrite T5. eapply inv_unadj; [exact T1|done..| |done]. by rewrite E1.
  - specialize (T6 ext). apply T6. exact Hpr.
  - intros lv'. cbn. rewrite T3, Eh. apply Hu.
Qed.

Lemma shrink_inactive_isolate_ok nr lv m mode lru ext s :
  wf ext s → is_unevictable_lru lru = false → LZone (lruvec_zone lv) ∉ mm_held s →
  wp (shrink_inactive_isolate disabled nr lv (inr (S m)) mode lru) (λ n s', ∃ t, shrunk m ext t s s' ∧ n = Z.of_nat (length t)) s.
Proof.
  intros [I Hpr Hu] He Hz. apply wp_bind, wp_spin_lock; [done|]. apply wp_bind, wp_spin_lock; [cbn; pose proof (Hu lv); set_solver|]. apply wp_bind.
  eapply wp_mono; [apply (isolate_pages_ok lv lru m nr mode (mm_pvecs s) ext 0); [|cbn; set_solver|done]|].
  { apply (inv_locked _ _ (s <| mm_held ::= union {[LZone (lruvec_zone lv)]} |>)). by apply inv_locks. }
  intros [n sc] s1 (t & [T1 T2 T3 T4 T5 T6] & E1 & _). cbn in *. apply wp_bind, wp_modify, wp_bind, wp_modify, wp_bind.
  apply wp_spin_unlock; [cbn; rewrite T3; set_solver|]. apply wp_bind, wp_spin_unlock; [cbn; rewrite T3; set_solver|].
  apply wp_ret. exists t. split; [|done].
  assert (({[LVec lv]} ∪ ({[LZone (lruvec_zone lv)]} ∪ mm_held s)) ∖ {[LVec lv]} ∖ {[LZone (lruvec_zone lv)]} = mm_held s) as Eh
    by (pose proof (Hu lv); set_solver).
  split; [split|cbn; by rewrite T3|done|exact T2].
  - cbn. rewrite T5. eapply inv_unadj; [exact T1|done..| |done]. by rewrite E1.
  - specialize (T6 ext). apply T6. exact Hpr.
  - intros lv'. cbn. rewrite T3, Eh. apply Hu.
Qed.
End reclaim.
