(* ===== verification/PageLruMain.v ===== *)
(** * Partitioned page cache: what holds of the LRU lists, and what does not

    Operations one after the other, the putting back of batches by reclaim apart, keep the lists right.  Three places
    where the new lock does not cover what the lock of the zone did are shown to fail: a release clears [PG_lru]
    before it takes the lock, putting back isolated pages goes on to the lruvec of another group with the lock of the
    first, and [shrink_inactive_list] counts scanned pages of the lruvec under the lock of the zone. *)
From S2P Require Import Prelude Interfaces StateMonad PageLru PageLruInv PageLruOps PageLruDrain PageLruSafe PageLruIso PageLruReclaim.

(** One reference to [p] is given up. *)
Fixpoint ref_del (p : Z) (ext : list Z) : list Z :=
  match ext with [] => [] | q :: ext => if decide (q = p) then ext else q :: ref_del p ext end.

Lemma ref_del_perm p ext : p ∈ ext → ext ≡ₚ p :: ref_del p ext.
Proof.
  induction ext as [|q ext IH]; intros Hp; [by apply elem_of_nil in Hp|]. cbn. case_decide as E; [by subst|].
  rewrite IH at 1 by set_solver. apply Permutation_swap.
Qed.

(** Operations of callers that hold references, and the two sections of reclaim that isolate pages. *)
Inductive lop :=
  | GetPage (p : Z)
  | PutPage (p : Z)
  | CacheAdd (cpu p lru : Z)
  | MarkAccessed (cpu p : Z)
  | RotateReclaimable (cpu p : Z)
  | Deactivate (cpu p : Z)
  | DrainCpu (cpu : Z)
  | PagevecRelease (cpu : Z) (l : list Z)
  | IsolatePage (p : Z)
  | PutbackPage (cpu p : Z)
  | CheckMove (l : list Z)
  | CommitCharge (memcg p : Z) (lrucare : bool)
  | ShrinkActive (nr : nat) (lv : lvid) (mode lru : Z)
  | ShrinkInactive (nr : nat) (lv : lvid) (mode lru : Z).

Section main.
Variable disabled : bool.
Variable root_mem_cgroup : Z.
Abbreviation wf := (wf disabled).
Abbreviation done_with := (done_with disabled).

(** Runs [op]; [ext] are the references held before, the result the ones held after. *)
Definition lop_run (op : lop) (ext : list Z) : M (list Z) :=
  match op with
  | GetPage p => _ ← get_page p; mret (p :: ext)
  | PutPage p => _ ← put_page disabled root_mem_cgroup p; mret (ref_del p ext)
  | CacheAdd cpu p lru => _ ← lru_cache_add_lru disabled root_mem_cgroup cpu p lru; mret ext
  | MarkAccessed cpu p => _ ← mark_page_accessed disabled root_mem_cgroup cpu p; mret ext
  | RotateReclaimable cpu p => _ ← rotate_reclaimable_page disabled root_mem_cgroup cpu p; mret ext
  | Deactivate cpu p => _ ← deactivate_page disabled root_mem_cgroup cpu p; mret ext
  | DrainCpu cpu => _ ← lru_add_drain_cpu disabled root_mem_cgroup cpu; mret ext
  | PagevecRelease cpu l => _ ← __pagevec_release disabled root_mem_cgroup cpu l; mret (foldr ref_del ext l)
  | IsolatePage p => r ← isolate_lru_page disabled root_mem_cgroup p; mret (if r =? 0 then p :: ext else ext)
  | PutbackPage cpu p => _ ← putback_lru_page disabled root_mem_cgroup cpu p; mret (ref_del p ext)
  | CheckMove l => _ ← check_move_unevictable_pages disabled root_mem_cgroup l; mret ext
  | CommitCharge memcg p lrucare => _ ← __mem_cgroup_commit_charge disabled memcg p lrucare; mret ext
  | ShrinkActive nr lv mode lru =>
      n ← shrink_active_isolate disabled nr lv page_list mode lru;
      l ← st_get (λ s, plist_of s page_list); mret (take (Z.to_nat n) l ++ ext)
  | ShrinkInactive nr lv mode lru =>
      n ← shrink_inactive_isolate disabled nr lv page_list mode lru;
      l ← st_get (λ s, plist_of s page_list); mret (take (Z.to_nat n) l ++ ext)
  end.

(** What callers respect: they hold a reference to the pages they pass; a reference that is given up is not the
    one of a list of isolated pages; a page that is added or put back is on no list and not about to be added; a
    page that is charged is charged to no group and, if the caller does not care for the lists, on none. *)
Definition lop_pre (op : lop) (ext : list Z) (s : mm) : Prop :=
  match op with
  | GetPage p | MarkAccessed _ p | RotateReclaimable _ p | Deactivate _ p | IsolatePage p => p ∈ ext
  | PutPage p => p ∈ ext ∧ private_in (ref_del p ext) s
  | CacheAdd cpu p lru =>
      p ∈ ext ∧ isolated s p ∧
      ∃ v, mm_pages s !! p = Some v ∧ (lru = page_lru_base_type v ∨ lru = page_lru_base_type v + LRU_ACTIVE)
  | DrainCpu _ => True
  | PagevecRelease cpu l => ext ≡ₚ l ++ foldr ref_del ext l ∧ private_in (foldr ref_del ext l) s
  | PutbackPage cpu p => p ∈ ext ∧ isolated s p
  | CheckMove l => l ⊆ ext
  | CommitCharge memcg p lrucare =>
      p ∈ ext ∧ ∃ v, mm_pages s !! p = Some v ∧ PageCgroupUsed v = false ∧ (lrucare = false → PageLRU v = false)
  | ShrinkActive _ _ _ lru | ShrinkInactive _ _ _ lru => is_unevictable_lru lru = false
  end.

(** Between operations no lock is held, and none was missing so far. *)
Definition lru_ok (ext : list Z) (s : mm) : Prop := wf ext s ∧ mm_held s = ∅ ∧ mm_races s = [].

Lemma lru_ok_done ext ext' s s' : lru_ok ext s → done_with ext' s s' → lru_ok ext' s'.
Proof. intros (_ & Hh & Hr) [W E1 E2 _]. split; [done|]. by rewrite E1, E2. Qed.

Lemma wf_perm e1 e2 s : e1 ≡ₚ e2 → wf e1 s → wf e2 s.
Proof.
  intros E [I Hpr Hu]. split; [by eapply inv_perm| |done]. intros p v n Hp Hl. rewrite <- E. by eapply Hpr.
Qed.

Lemma wp_done {A} (m : M A) (f : A → list Z) s (P : A → mm → Prop) :
  wp m P s → (∀ a s', P a s' → lru_ok (f a) s') → wp (a ← m; mret (f a)) lru_ok s.
Proof. intros W H. apply wp_bind. eapply wp_mono; [exact W|]. intros a s' HP. apply wp_ret. auto. Qed.

Lemma get_ok p ext s : wf ext s → p ∈ ext → wp (get_page p) (λ _ s', done_with (p :: ext) s s') s.
Proof.
  intros W Hin. destruct (wf_page _ ext p s W Hin) as (v & Hp & Hc & Hv & U).
  apply wp_bind. eapply wp_the_page; [done|]. apply wp_bind, wp_BUG_ON; [lia|]. eapply u_set; [done..|]. intros s1 U1.
  destruct (inv_get_ref _ _ _ p v s s1 (wf_inv _ _ _ W) Hp Hc U1) as [I1 Q1]. apply (quiet_done _ ext); [done..|].
  intros q w n Hq Hl. right. by eapply (quiet_private ext s s1 Q1 (wf_private _ _ _ W)).
Qed.

(** The page that is put back is on no list of a function. *)
Lemma putback_private ext p s : wf ext s → p ∈ ext → isolated s p → private_in (ref_del p ext) s.
Proof.
  intros W Hin (_ & v & Hp & _ & Hk & _) q w n Hq Hl. pose proof (wf_private _ _ _ W q w n Hq Hl) as H.
  rewrite (ref_del_perm p ext Hin) in H. apply elem_of_cons in H as [->|H]; [congruence|done].
Qed.

Lemma lop_safe op ext s : lru_ok ext s → lop_pre op ext s → wp (lop_run op ext) lru_ok s.
Proof.
  intros Ok Hpre. pose proof Ok as (W & Hh & Hr). assert (∀ k, k ∉ mm_held s) as Hk by (rewrite Hh; set_solver).
  pose proof (λ e s', lru_ok_done ext e s s' Ok) as Hd.
  destruct op; cbn [lop_run lop_pre] in *.
  - eapply wp_done; [by apply get_ok|auto].
  - destruct Hpre as [Hin Hp]. eapply wp_done; [apply put_ok; [eapply wf_perm; [by apply ref_del_perm|done]|done]|auto].
  - destruct Hpre as (Hin & Hi & v & Hv & Hl). eapply wp_done; [by eapply lru_cache_add_ok|auto].
  - eapply wp_done; [by apply mark_accessed_ok|auto].
  - eapply wp_done; [by apply rotate_ok|auto].
  - eapply wp_done; [by apply deactivate_ok|auto].
  - eapply wp_done; [by apply drain_cpu_ok|]. intros _ s' [D _]. auto.
  - destruct Hpre as [Hl Hp]. eapply wp_done; [apply pagevec_release_ok; [by eapply wf_perm|done]|auto].
  - eapply wp_done; [by apply isolate_ok|]. intros r s' [(-> & D & _)|(-> & D)]; auto.
  - destruct Hpre as [Hin Hi]. eapply wp_done; [apply putback_ok; [eapply wf_perm; [by apply ref_del_perm|done]|by apply putback_private|done]|auto].
  - eapply wp_done; [by apply check_move_pages_ok|auto].
  - destruct Hpre as (Hin & v & Hv & Hu & Hl). eapply wp_done; [by eapply charge_ok|auto].
  - apply wp_bind. eapply wp_mono; [by apply (shrink_active_isolate_ok _ nr lv 0)|]. intros n s' (t & [S1 S2 S3 S4] & ->).
    apply wp_bind, wp_get, wp_ret. unfold page_list. rewrite S4, Nat2Z.id, take_app_length. split; [done|]. by rewrite S2, S3.
  - apply wp_bind. eapply wp_mono; [by apply (shrink_inactive_isolate_ok _ nr lv 0)|]. intros n s' (t & [S1 S2 S3 S4] & ->).
    apply wp_bind, wp_get, wp_ret. unfold page_list. rewrite S4, Nat2Z.id, take_app_length. split; [done|]. by rewrite S2, S3.
Qed.

(** States that operations reach, each called as callers must. *)
Inductive lru_reach (s0 : mm) (ext0 : list Z) : mm → list Z → Prop :=
  | lr_start : lru_reach s0 ext0 s0 ext0
  | lr_step op s ext s' ext' :
      lru_reach s0 ext0 s ext → lop_pre op ext s → lop_run op ext s = Ok (ext', s') → lru_reach s0 ext0 s' ext'.

Lemma reach_ok s0 ext0 s ext : lru_ok ext0 s0 → lru_reach s0 ext0 s ext → lru_ok ext s.
Proof.
  intros H0. induction 1 as [|op s ext s' ext' _ IH Hpre E]; [done|]. exact (wp_Ok _ _ _ _ _ (lop_safe op ext s IH Hpre) E).
Qed.

(** C5: Whatever operations of [lop] are called from a state in which the lists are right, one after the other:
    each of them returns, with no check of the kernel failing, no lock taken twice or released when it is not
    held, and nothing of an lruvec changed without its lock; afterwards a page is on the list its flags name and
    on no other, sizes and counters are those of the lists, and no page was freed twice or while it is
    referenced.  [lop] has the operations of swap.c, the isolation and the putting back of single pages, the charge
    of a page to a group and the isolating halves of reclaim; it does not have the halves of reclaim that put
    pages back ([shrink_inactive_putback] with [putback_inactive_pages], and
    [move_active_pages_to_lru]), for which this is false: they change an lruvec under the lock of another or
    of the zone ([putback_other_group], [scanned_races]). *)
Theorem page_lru_safe s0 ext0 s ext :
  lru_ok ext0 s0 → lru_reach s0 ext0 s ext →
  lru_ok ext s ∧ ∀ op, lop_pre op ext s → ∃ ext' s', lop_run op ext s = Ok (ext', s') ∧ lru_ok ext' s'.
Proof.
  intros H0 Hr. pose proof (reach_ok s0 ext0 s ext H0 Hr) as Ok. split; [done|]. intros op. by apply lop_safe.
Qed.
(** ** Where the new lock does not reach *)

(** What a release has done when it is about to take the lock. *)
Lemma release_first_half s p v lv lru :
  mm_pages s !! p = Some v → 0 < pg_count v → PageLRU v = true → pg_link v = Some (inl (lv, lru)) → page_ok disabled v →
  wp (_ ← put_page_testzero p; lru_release_flags disabled root_mem_cgroup p)
    (λ lv' s1, lv' = lv ∧ (∃ w, mm_pages s1 !! p = Some w ∧ PageLRU w = false) ∧ mm_held s1 = mm_held s ∧
       plist_of s1 (inl (lv, lru)) = plist_of s (inl (lv, lru))) s.
Proof.
  intros Hp Hc Elru Hk Hv. destruct (page_ok_lru _ v Hv Elru) as (Hk' & _). rewrite Hk in Hk'.
  apply wp_bind, wp_bind. eapply wp_the_page; [done|]. apply wp_bind, wp_BUG_ON; [lia|]. apply wp_bind, wp_modify, wp_ret.
  set (s1 := s <| mm_pages ::= alter (λ v, v <| pg_count ::= Z.pred |>) p |>).
  assert (mm_pages s1 !! p = Some (v <| pg_count ::= Z.pred |>)) as Hp1 by (cbn; by rewrite lookup_alter_eq, Hp).
  apply wp_bind. eapply wp_the_page; [done|]. apply wp_bind.
  apply (wp_mono _ (λ lv' s2, lv' = lv ∧ s2 = s1)).
  { unfold mem_cgroup_page_lruvec. unfold PageLruInv.lruvec_of, mem_cgroup_zone_lruvec in Hk'. destruct disabled.
    - apply wp_ret. split; [|done]. cbn. congruence.
    - apply wp_bind. eapply wp_the_page; [done|]. cbn. rewrite Elru. apply wp_ret. split; [|done]. cbn. congruence. }
  intros lv' s2 [-> ->]. apply wp_bind. eapply wp_the_page; [done|]. apply wp_bind, wp_BUG_ON; [by cbn; rewrite Elru|].
  apply wp_bind, wp_modify, wp_ret. split; [done|]. split; [|done]. cbn. rewrite lookup_alter_eq. cbn in Hp1. rewrite Hp1. by eexists.
Qed.

(** Reclaim meets a page without [PG_lru] at the tail of the list. *)
Lemma isolate_stops s p w lv lru n dst mode :
  LVec lv ∉ mm_held s → mm_pages s !! p = Some w → PageLRU w = false → last (plist_of s (inl (lv, lru))) = Some p →
  (_ ← spin_lock (LVec lv); isolate_lru_pages disabled (S n) lv dst mode lru) s = Oops.
Proof.
  intros Hh Hw Ew Hl. set (s2 := s <| mm_held ::= union {[LVec lv]} |>). rewrite (ST_bind_Ok _ _ _ () s2).
  2: { unfold spin_lock, mbind, ST_bind, st_get. cbn. by rewrite bool_decide_false. }
  cbn [isolate_lru_pages]. change (last (plist_of s2 (inl (lv, lru))) = Some p) in Hl.
  rewrite (ST_bind_Ok _ _ _ false s2). 2: { unfold list_empty, st_get. rewrite bool_decide_false; [done|]. by intros H; rewrite H in Hl. }
  rewrite (ST_bind_Ok _ _ _ p s2) by (unfold lru_to_page, st_deref; by rewrite Hl).
  rewrite (ST_bind_Ok _ _ _ w s2) by (unfold the_page, st_deref; change (mm_pages s2) with (mm_pages s); by rewrite Hw).
  apply ST_bind_Oops. by rewrite Ew.
Qed.

(** C35: A page whose last reference is dropped loses [PG_lru] before the lock of its lruvec is taken: reclaim that
    takes the lock in between and finds the page at the tail of the list stops on a check of the kernel, and
    without that check on the error [__isolate_lru_page] returns. *)
Theorem release_races_with_reclaim s ext p v lv lru :
  lru_ok ext s → mm_pages s !! p = Some v → pg_count v = 1 → last (plist_of s (inl (lv, lru))) = Some p →
  ∃ s1, (_ ← put_page_testzero p; lru_release_flags disabled root_mem_cgroup p) s = Ok (lv, s1) ∧
    (∀ n dst mode, (_ ← spin_lock (LVec lv); isolate_lru_pages disabled (S n) lv dst mode lru) s1 = Oops) ∧
    ∀ mode, __isolate_lru_page p mode s1 = Ok (- EINVAL, s1).
Proof.
  intros (W & Hh & _) Hp Hc Hl. pose proof (wf_inv _ _ _ W) as I. pose proof (iv_linked _ _ _ _ I) as L.
  assert (p ∈ plist_of s (inl (lv, lru))) as Hin by (by apply last_Some_elem_of).
  apply (co_in _ _ (ln_coherent _ _ L)) in Hin as (v' & Hp' & Hk). assert (v' = v) as -> by congruence.
  pose proof (iv_ok _ _ _ _ I p v Hp) as Hv. assert (PageLRU v = true) as Elru.
  { unfold page_ok in Hv. destruct (PageLRU v); [done|]. by destruct Hv as [Hv _]; destruct (Hv _ Hk). }
  destruct (release_first_half s p v lv lru) as (lv' & s1 & E & -> & (w & Hw & Ew) & Hh1 & El1); [done|lia|done..|].
  exists s1. split; [done|]. split.
  - intros n dst mode. apply (isolate_stops s1 p w); [rewrite Hh1, Hh; set_solver|done..|by rewrite El1].
  - intros mode. unfold __isolate_lru_page. rewrite (ST_bind_Ok _ _ _ w s1) by (unfold the_page, st_deref; by rewrite Hw). by rewrite Ew.
Qed.
End main.

(** ** Putting back pages of another group *)
Section other.
Variable root_mem_cgroup : Z.

(** An isolated page that was uncharged since, on the list [n] of a function that holds the lock of [lv]: its
    lruvec is now that of the root group, and not [lv]. *)
Record uncharged (s : mm) (lv : lvid) (n : nat) (p : Z) (v : page) : Prop := {
  uc_held : mm_held s = {[LVec lv]};
  uc_page : mm_pages s !! p = Some v;
  uc_lru : PageLRU v = false;
  uc_link : pg_link v = Some (inr n);
  uc_evictable : page_evictable v = true;
  uc_used : PageCgroupUsed v = false;
  uc_memcg : pc_memcg v ≠ root_mem_cgroup;
  uc_other : lv ≠ (page_zone v, Some root_mem_cgroup);
  uc_size : 0 ≤ zget (mm_lru_size s) ((page_zone v, Some root_mem_cgroup), page_lru (v <| PageLRU := true |>));
  uc_count : 1 < pg_count v;
}.

Lemma wp_touch_race lv (Q : () → mm → Prop) s : LVec lv ∉ mm_held s → Q () (s <| mm_races ::= cons lv |>) → wp (touch lv) Q s.
Proof. intros Hk HQ. apply wp_bind, wp_get. rewrite bool_decide_false by done. by apply wp_modify. Qed.

Lemma putback_one_other s cpu lv n p v :
  uncharged s lv n p v →
  wp (putback_one false root_mem_cgroup cpu lv lv p)
    (λ lv' s1, lv' = (page_zone v, Some root_mem_cgroup) ∧ mm_held s1 = mm_held s ∧ lv' ∈ mm_races s1 ∧
       plist_of s1 (inr n) = filter (.≠ p) (plist_of s (inr n)) ∧
       ∀ q, q ≠ p → mm_pages s1 !! q = mm_pages s !! q) s.
Proof.
  intros [Hh Hp H1 H2 H3 H4 H5 H6 H7 H8].
  assert (LVec (page_zone v, Some root_mem_cgroup) ∉ mm_held s) as Hn by (rewrite Hh; set_solver).
  apply wp_bind. eapply wp_the_page; [done|]. apply wp_bind, wp_BUG_ON; [done|].
  apply wp_bind. eapply wp_list_del; [done..|]. rewrite H3. cbn [negb].
  set (rv := (page_zone v, Some root_mem_cgroup)) in *.
  apply wp_bind. apply wp_bind. eapply wp_the_page; [cbn; by rewrite lookup_alter_eq, Hp|].
  cbn [PageLRU PageCgroupUsed pc_memcg set]. rewrite H1, H4, (proj2 (Z.eqb_neq _ _) H5). cbn [negb andb].
  apply wp_bind, wp_modify, wp_ret, wp_bind, wp_modify, wp_bind.
  eapply wp_the_page; [cbn; by rewrite !lookup_alter_eq, Hp|]. set (lru := page_lru _).
  apply wp_bind. apply wp_bind. apply wp_bind, wp_touch_race; [done|]. apply wp_bind, wp_modify, wp_bind, wp_get. apply wp_BUG_ON.
  { apply Z.ltb_ge. cbn. rewrite zget_zadd, decide_True by done. 
    assert (0 ≤ zget (mm_lru_size s) ((page_zone v, Some root_mem_cgroup), lru)) as H by exact H7. lia. }
  apply wp_bind. apply wp_bind, wp_touch_race; [done|]. apply wp_bind, wp_modify, wp_modify, wp_modify.
  match goal with |- wp _ _ ?x => set (s1 := x) end.
  assert (∃ w, mm_pages s1 !! p = Some w ∧ pg_count w = pg_count v) as (w & Hw & Ew).
  { eexists. split; [cbn; by rewrite !lookup_alter_eq, Hp|done]. }
  apply wp_bind. apply (wp_mono _ (λ _ s2, mm_pages s2 = mm_pages s1 ∧ mm_lists s2 = mm_lists s1 ∧ mm_held s2 = mm_held s1 ∧ mm_races s2 = mm_races s1)).
  { apply wp_if; intros _; [|by apply wp_ret]. apply wp_bind, wp_touch; [cbn; rewrite Hh; set_solver|]. by apply wp_modify. }
  intros _ s2 (E1 & E2 & E3 & E4). apply wp_bind, wp_bind. eapply wp_the_page; [by rewrite E1|]. apply wp_bind, wp_BUG_ON; [lia|].
  apply wp_bind, wp_modify, wp_ret. rewrite (proj2 (Z.eqb_neq (pg_count w) 1)) by lia. apply wp_bind, wp_ret, wp_ret.
  split; [done|]. split; [cbn; by rewrite E3|]. split; [cbn; rewrite E4; cbn; left|]. split.
  - unfold plist_of. cbn. rewrite E2. cbn. by rewrite lookup_insert_ne, lookup_insert_eq.
  - intros q Hq. cbn. rewrite lookup_alter_ne, E1 by done. cbn. by rewrite !lookup_alter_ne.
Qed.

Lemma loop_step fuel cpu stat lv r p lv' s s1 :
  last (plist_of s r) = Some p → putback_one false root_mem_cgroup cpu stat lv p s = Ok (lv', s1) →
  putback_loop false root_mem_cgroup (S fuel) cpu stat lv r s = putback_loop false root_mem_cgroup fuel cpu stat lv' r s1.
Proof.
  intros Hl E. cbn [putback_loop]. rewrite (ST_bind_Ok _ _ _ false s).
  2: { unfold list_empty, st_get. rewrite bool_decide_false; [done|]. by intros H; rewrite H in Hl. }
  rewrite (ST_bind_Ok _ _ _ p s) by (unfold lru_to_page, st_deref; by rewrite Hl). by rewrite (ST_bind_Ok _ _ _ _ _ E).
Qed.

(** An unevictable page, when the lock to be released is not held. *)
Lemma putback_one_stops s cpu stat lv n q w :
  mm_pages s !! q = Some w → PageLRU w = false → pg_link w = Some (inr n) → page_evictable w = false → LVec lv ∉ mm_held s →
  putback_one false root_mem_cgroup cpu stat lv q s = Oops.
Proof.
  intros Hq H1 H2 H3 Hh. unfold putback_one. rewrite (ST_bind_Ok _ _ _ w s) by (unfold the_page, st_deref; by rewrite Hq).
  rewrite (ST_bind_Ok _ _ _ () s) by (by rewrite H1).
  destruct (wp_list_del q w (inr n) (λ _ s', mm_held s' = mm_held s) s) as ([] & s1 & E & Eh); [done..|].
  rewrite (ST_bind_Ok _ _ _ _ _ E), H3. apply ST_bind_Oops. unfold spin_unlock, mbind, ST_bind, st_get. cbn.
  rewrite bool_decide_false; [done|]. by rewrite Eh.
Qed.

(** The count of scanned pages of the lruvec is added to under the lock of the zone only. *)
Lemma scanned_races s lv file nr :
  LZone (lruvec_zone lv) ∉ mm_held s → LVec lv ∉ mm_held s →
  ∃ s', shrink_inactive_scanned lv file nr s = Ok ((), s') ∧ mm_races s' = lv :: mm_races s ∧ mm_held s' = mm_held s ∧
    mm_pages s' = mm_pages s ∧ mm_lists s' = mm_lists s.
Proof.
  intros Hz Hv. unfold shrink_inactive_scanned, spin_lock, touch, spin_unlock, mbind, ST_bind, st_get, st_modify. cbn.
  rewrite bool_decide_false by done. cbn. rewrite bool_decide_false by set_solver. cbn.
  rewrite bool_decide_true by set_solver. eexists. split; [reflexivity|]. cbn. split_and!; try done. set_solver.
Qed.

(** C36: [putback_inactive_pages] holds the lock of the lruvec it was called for, and takes the lruvec of each page
    anew.  A page that lost its charge while it was isolated is put on a list of the root group without the lock
    of that; and when an unevictable page follows, the lock of the root group is released, which is not held. *)
Theorem putback_other_group s cpu lv n p v :
  uncharged s lv n p v →
  (plist_of s (inr n) = [p] →
     ∃ s', putback_inactive_pages false root_mem_cgroup cpu lv (inr n) s = Ok ((), s') ∧
           (page_zone v, Some root_mem_cgroup) ∈ mm_races s') ∧
  ∀ l q w, plist_of s (inr n) = l ++ [q; p] → p ∉ l ++ [q] →
    mm_pages s !! q = Some w → PageLRU w = false → pg_link w = Some (inr n) → page_evictable w = false →
    putback_inactive_pages false root_mem_cgroup cpu lv (inr n) s = Oops.
Proof.
  intros Un. destruct (putback_one_other s cpu lv n p v Un) as (lv' & s1 & E & -> & Hh1 & Hr1 & Hl1 & Ho).
  split.
  - intros Hl. unfold putback_inactive_pages. rewrite (ST_bind_Ok _ _ _ 1%nat s) by (unfold st_get; by rewrite Hl).
    rewrite (ST_bind_Ok _ _ s () s1).
    + eexists. split; [done|]. exact Hr1.
    + rewrite (loop_step 0 cpu lv lv (inr n) p (page_zone v, Some root_mem_cgroup) s s1); [|by rewrite Hl|done]. cbn [putback_loop].
      rewrite (ST_bind_Ok _ _ _ true s1); [done|]. unfold list_empty, st_get. rewrite Hl1, Hl, filter_cons, decide_False by auto. done.
  - intros l q w Hl Hn Hq W1 W2 W3. change (l ++ [q; p]) with (l ++ [q] ++ [p]) in Hl. rewrite app_assoc in Hl.
    unfold putback_inactive_pages.
    rewrite (ST_bind_Ok _ _ _ (S (S (length l))) s) by (unfold st_get; rewrite Hl, !length_app; cbn; do 2 f_equal; lia).
    apply ST_bind_Oops. rewrite (loop_step (S (length l)) cpu lv lv (inr n) p (page_zone v, Some root_mem_cgroup) s s1); [|by rewrite Hl, last_snoc|done].
    assert (plist_of s1 (inr n) = l ++ [q]) as Hl1'.
    { rewrite Hl1, Hl, filter_app_single, decide_False, app_nil_r by auto. by apply filter_notin_id. }
    cbn [putback_loop]. rewrite (ST_bind_Ok _ _ _ false s1).
    2: { unfold list_empty, st_get. rewrite bool_decide_false; [done|]. rewrite Hl1'. by intros []%app_eq_nil. }
    rewrite (ST_bind_Ok _ _ _ q s1) by (unfold lru_to_page, st_deref; by rewrite Hl1', last_snoc).
    apply ST_bind_Oops. apply (putback_one_stops s1 cpu lv _ n q w); try done; [rewrite Ho; [done|]; intros ->; set_solver|].
    rewrite Hh1, (uc_held _ _ _ _ _ Un). pose proof (uc_other _ _ _ _ _ Un). set_solver.
Qed.
End other.

(** ** Instances *)

(** No page is on a list, and pagevecs are empty. *)
Definition mm_init (pages : gmap Z page) : mm := MM pages ∅ ∅ ∅ ∅ ∅ ∅ [] ∅ ∅ [] [] [].

Lemma lru_ok_init disabled pages ext :
  map_Forall (λ _ v, PageLRU v = false ∧ pg_link v = None) pages → (∀ p, occ p ext ≤ count_of (mm_init pages) p) →
  lru_ok disabled ext (mm_init pages).
Proof.
  intros Hp Hc. split; [|done]. split; [split| |]; [split|..].
  - split; [|constructor]. intros r p. split; [by intros ?%elem_of_nil|]. intros (v & Hv & Hl). destruct (Hp p v Hv). congruence.
  - done.
  - intros z l. symmetry. apply msum_zero. intros p v Hv. unfold linked_at. destruct (Hp p v Hv) as [_ ->]. done.
  - intros p v Hv. destruct (Hp p v Hv). by apply page_ok_off.
  - split; [intros p; exact (Hc p)|intros p; cbn; unfold pv_adds, msum; rewrite map_fold_empty; lia|done|done].
  - split; [constructor|]. by intros p ?%elem_of_nil.
  - intros p v n Hv Hl. destruct (Hp p v Hv). congruence.
  - by intros lv ?%elem_of_empty.
Qed.

Definition ex_page : page :=
  Page 0 1 false (FileMapping false true) false false false false false false false false false false false 7 true None.
Definition ex_mm : mm := mm_init {[10 := ex_page; 11 := ex_page]}.

Lemma ex_ok : lru_ok false [10; 11] ex_mm.
Proof.
  apply lru_ok_init.
  - apply map_Forall_lookup. intros p v. rewrite lookup_insert_Some, lookup_singleton_Some. naive_solver.
  - intros p. unfold count_of, ex_mm. cbn [mm_pages mm_init]. rewrite !occ_cons, occ_nil.
    destruct (decide (10 = p)) as [<-|]; [done|]. destruct (decide (11 = p)) as [<-|]; [done|].
    rewrite lookup_insert_ne, lookup_singleton_ne by done. done.
Qed.

Definition ex_step (op : lop) (x : list Z * mm) : list Z * mm :=
  match lop_run false 0 op x.1 x.2 with Ok y => y | _ => x end.
(** Page 10 is added to the inactive file list of group 7 and the pagevec drained. *)
Definition ex_added : list Z * mm := ex_step (DrainCpu 3) (ex_step (CacheAdd 3 10 LRU_INACTIVE_FILE) ([10; 11], ex_mm)).

Lemma ex_isolated : isolated ex_mm 10.
Proof. split; [done|]. by eexists. Qed.

Lemma ex_reach : lru_reach false 0 ex_mm [10; 11] ex_added.2 ex_added.1.
Proof.
  set (x := ex_step (CacheAdd 3 10 LRU_INACTIVE_FILE) ([10; 11], ex_mm)).
  apply (lr_step _ _ _ _ (DrainCpu 3) x.2 x.1); [|done|by vm_compute].
  apply (lr_step _ _ _ _ (CacheAdd 3 10 LRU_INACTIVE_FILE) ex_mm [10; 11]); [apply lr_start| |by vm_compute].
  split; [left|]. split; [apply ex_isolated|]. eexists. split; [by vm_compute|by left].
Qed.

Lemma page_lru_safe_witness :
  plist_of ex_added.2 (inl ((0, Some 7), LRU_INACTIVE_FILE)) = [10] ∧
  lru_ok false ex_added.1 ex_added.2 ∧
  ∃ ext' s', lop_run false 0 (ShrinkInactive 5 (0, Some 7) 0 LRU_INACTIVE_FILE) ex_added.1 ex_added.2 = Ok (ext', s') ∧ lru_ok false ext' s'.
Proof.
  split; [by vm_compute|]. destruct (page_lru_safe false 0 ex_mm [10; 11] _ _ ex_ok ex_reach) as [H1 H2].
  split; [done|]. by apply H2.
Defined.

Lemma release_races_with_reclaim_witness :
  ∃ s1, (_ ← put_page_testzero 10; lru_release_flags false 0 10) ex_added.2 = Ok ((0, Some 7), s1) ∧
    ∀ n dst mode, (_ ← spin_lock (LVec (0, Some 7)); isolate_lru_pages false (S n) (0, Some 7) dst mode LRU_INACTIVE_FILE) s1 = Oops.
Proof.
  destruct (release_races_with_reclaim false 0 ex_added.2 ex_added.1 10
    (ex_page <| PageLRU := true |> <| pg_link := Some (inl ((0, Some 7), LRU_INACTIVE_FILE)) |>) (0, Some 7) LRU_INACTIVE_FILE) as (s1 & H1 & H2 & _).
  - apply (reach_ok false 0 ex_mm [10; 11]); [apply ex_ok|apply ex_reach].
  - by vm_compute.
  - done.
  - by vm_compute.
  - exists s1. by split.
Defined.

(** Page 10 lost its charge to group 7 while it was isolated; page 11 is locked in memory. *)
Definition ex_isolated_pages (l : list Z) : mm :=
  MM {[10 := ex_page <| pg_count := 2 |> <| PageCgroupUsed := false |> <| pg_link := Some page_list |>;
       11 := ex_page <| PageMlocked := true |> <| pg_link := Some page_list |>]}
     {[page_list := l]} ∅ ∅ ∅ ∅ ∅ [] ∅ {[LVec (0, Some 7)]} [] [] [].

Lemma putback_other_group_witness :
  (∃ s', putback_inactive_pages false 0 3 (0, Some 7) page_list (ex_isolated_pages [10]) = Ok ((), s') ∧ (0, Some 0) ∈ mm_races s') ∧
  putback_inactive_pages false 0 3 (0, Some 7) page_list (ex_isolated_pages [11; 10]) = Oops.
Proof.
  assert (∀ l, uncharged 0 (ex_isolated_pages l) (0, Some 7) 1 10 (ex_page <| pg_count := 2 |> <| PageCgroupUsed := false |> <| pg_link := Some page_list |>)) as U.
  { intros l. by split. }
  split.
  - by apply (putback_other_group 0 _ 3 _ _ _ _ (U [10])).
  - apply (putback_other_group 0 _ 3 _ _ _ _ (U [11; 10])) with (l := []) (q := 11) (w := ex_page <| PageMlocked := true |> <| pg_link := Some page_list |>);
      [done|set_solver|done..].
Defined.
